(* ===== verification/_CoqProject ===== *)
-Q . S2P
Prelude.v
Arith.v
Intq.v
Ports.v
Descriptors.v
Interrupt.v
InterruptSpec.v
Timer.v
Serial.v
SerialSpec.v
KList.v
KListSort.v
KListSpec.v
Kernel.v
Synch.v
Machine.v
SchedInv.v
KernelInv.v
KernelSafety.v
KernelSpec.v
Bitmap.v
Vga.v
VgaSpec.v
Random.v
CString.v
CStdlib.v
Init.v
InitSpec.v
Kbd.v
Stdio.v
StdioSpec.v
UserLib.v
Console.v
Disk.v
DiskSpec.v
Hash.v
HashSpec.v
Palloc.v
Malloc.v
Mmu.v
MmuSpec.v
Paging.v
Inode.v
FreeMap.v
FileSpec.v
Directory.v
DirSpec.v
FilesysSpec.v
Fat.v
FsUtil.v
Process.v
ProcessSpec.v
