(* ===== verification/Prelude.v ===== *)
(** * Pintos (KAIST, x86-64): a verification library

    This library models the core of the Pintos kernel in src/pintos-kaist-master
    and proves the properties that make its components correct.

    ** The program and the files that model it

    Threads.
    - threads/thread.c, threads/synch.c, the interrupt flag of
      threads/interrupt.c and the tick handler of devices/timer.c: Kernel.v
      (state and scheduler), Synch.v (semaphores, locks, condition variables),
      Machine.v (one processor: a step executes one frame of the running thread
      or delivers an interrupt).  SchedInv.v, KernelInv.v and KernelSafety.v
      hold the invariant and its preservation, KernelSpec.v the theorems.
    - devices/intq.c: Intq.v, the queues between interrupt handlers and threads.

    Processor and boot.
    - The descriptor tables of threads/interrupt.c, userprog/gdt.c and
      userprog/tss.c and the registers of userprog/syscall.c: Descriptors.v.
    - threads/interrupt.c, userprog/exception.c and the handler of
      userprog/syscall.c: Interrupt.v (registration, the interrupt controllers,
      the dispatcher, exceptions) and InterruptSpec.v.
    - devices/timer.c: Timer.v (programming the timer, calibration, sleeping).
    - threads/init.c: Init.v (the command line: words, options, actions) with
      InitSpec.v, and Paging.v (the kernel's page map).

    Devices.
    - include/threads/io.h: Ports.v, the accesses of a driver and the answers of
      its device.  On top of it devices/serial.c and devices/input.c: Serial.v
      and SerialSpec.v; devices/kbd.c: Kbd.v; devices/vga.c: Vga.v and
      VgaSpec.v; devices/disk.c: Disk.v and DiskSpec.v.

    Memory.
    - threads/palloc.c, include/threads/vaddr.h: Palloc.v, which uses Bitmap.v
      (lib/kernel/bitmap.c, include/lib/round.h) and CString.v (lib/string.c).
    - threads/malloc.c: Malloc.v, on top of Palloc.v.
    - threads/mmu.c, include/threads/pte.h: Mmu.v, page tables in the memory of
      Palloc.v; MmuSpec.v holds their invariant and theorem.

    Files.
    - filesys/inode.c: Inode.v (the state of the file system, with a disk that
      is an array of sectors; reading and writing one inode), FreeMap.v
      (free-map.c, file.c and the life cycle of inodes), FileSpec.v (theorems on
      the table of open inodes and on denied writes), Directory.v (directory.c
      and filesys.c), DirSpec.v (removal), FilesysSpec.v (creating and opening
      files by name).  That the driver gives this array is DiskSpec.v.
    - filesys/fsutil.c: FsUtil.v, on the file system and a second disk.
    - filesys/fat.c: Fat.v (the boot record, saving and loading the table).

    User programs.
    - userprog/process.c and userprog/tss.c: Process.v (loading an executable,
      activating and destroying its address space) on Mmu.v, FreeMap.v and
      Directory.v, and ProcessSpec.v.
    - lib/user/syscall.c, lib/user/console.c: UserLib.v.

    Library.
    - lib/kernel/list.c, the intrusive doubly linked lists: KList.v (the
      heap of list elements and every operation), KListSort.v (the merge sort
      and what is built on it), KListSpec.v (the theorems).
    - lib/kernel/hash.c: Hash.v, whose buckets are lists in the heap of KList.v,
      and HashSpec.v.
    - lib/stdlib.c and include/lib/ctype.h: CStdlib.v.  lib/arithmetic.c:
      Arith.v.  lib/random.c: Random.v.
    - lib/stdio.c: Stdio.v and StdioSpec.v; lib/kernel/console.c and the parts
      of stdio.c that print to the console: Console.v.

    ** How code is modelled

    C functions are functions in the state and error monad [M] below: [Panic]
    is a failed assertion, [Fault] an access outside an object, [Block] a call
    that would have to put the caller to sleep.  Integers are [Z]; wherever the
    code's type can wrap, the wrap-around is written out with [wrapu] and
    [wraps].  Pointers are addresses in [Z] and [NULL] is 0.  A component that
    uses another runs its functions on the part of its state that belongs to
    the other: pages of Mmu.v are pages of Palloc.v, the free map of FreeMap.v
    is a bitmap of Bitmap.v.  What a caller supplies (an order, a hash function,
    a destructor, the memory map) is an argument, with a class for its laws.

    Loops take fuel.  The fuel a definition passes is a bound on the number of
    rounds (the size of the array, the length of the string or of the list, 64
    for the digits of a 64-bit number), and every theorem that states a result
    states it as [Ok], so that running out of fuel is excluded by proof.

    What lies outside of the program is an oracle that theorems quantify over:
    the answers of a device are a list of values that its reads take one by one
    (a run that uses them up is still waiting for the device), the success of
    coming allocations is a list of truth values, the kernel that a user program
    calls is a function of the calls so far, and the clock of Timer.v is a
    number of rounds per tick, which its theorems assume to be steady.  The
    handlers that Interrupt.v dispatches to and the actions that Init.v calls
    are arguments.

    ** What the theorems show

    - Threads: under every interleaving of threads and interrupts locks exclude
      each other, no wake-up is lost, exactly one thread runs and every other is
      where its status says, freed threads are on no queue, and the kernel's
      own assertions hold.  Interrupt queues are bounded queues.
    - Processor and boot: the descriptors mean to the processor what the kernel
      intends, with one exception that the theorem states; after boot every
      vector has its gate and every registered one its handler; external interrupts are marked, acknowledged once and
      may ask to yield; exceptions end the thread and not the kernel; the
      calibration and the delays are within stated bounds; all of memory is
      mapped, the kernel text read-only; the command line is interpreted as a
      reference interpreter says, and its limits are known.
    - Devices: bytes leave the serial port in order and in full in polled and
      in interrupt mode; the keyboard driver follows an abstract board; the
      screen shows the end of a roll of paper; the driver's port accesses mean
      the requested sectors to an ATA controller.
    - Memory: pages and blocks that are held never overlap and are never lost,
      over any history of calls; after boot from a well formed memory map only
      usable memory behind the kernel and the bitmaps is free;
      [realloc] and [calloc] keep and clear contents; a page map is a function
      from pages to entries that the operations change at one page.
    - Files: an inode is an array of bytes, the free map is first fit, an inode
      is in memory once, denied writes do nothing, a directory is a finite map
      from names to sectors, a new file is found by its name, holds zeros and
      takes only free sectors, and a removed file goes with its last opener; a
      file that is copied in from the scratch disk is copied out unchanged; the
      file allocation table survives on the disk.
    - User programs: loading an executable gives the address space that its
      headers describe; system calls carry arguments and answers unchanged, and
      [halt] and [exit] do not return;
      formatted output reaches the kernel in order and in full buffers.
    - Library: lists refine sequences and the sort is stable; hash tables refine
      sets, their resizing terminates with and without memory and balances them
      when it has it; the string, sort,
      search, division and random functions meet their specifications for all
      arguments; formatted output prints the value, fits into its buffers and
      is read back by [atoi].

    ** Not modelled

    The files under vm/, filesys/page_cache.c, the functions of fat.c that keep
    the chains, and the body of the system call handler are left to be written
    in the sources: what is there returns at once or panics.  (Fat.v and
    Interrupt.v have those of their files as they are.)  Assembly (the boot
    loader, the entry stubs, the switch between stacks) and the backtraces of
    debug.c are not modelled, nor are process_fork, whose copying is left to be
    written, and the statistics and the power-off of threads/init.c.  Threads, memory
    and files are models of their own: the locks that palloc.c, malloc.c and
    the console take are in them, but the file system has none and is modelled
    for one caller at a time.  Of modelled functions, theorems are still open
    on [pml4_destroy], [pml4_for_each], [dir_readdir], [fsutil_cat],
    [fsutil_ls] and [hex_dump]. *)

From Stdlib Require Export ZArith Lia Bool Sorting.Permutation Sorting.Sorted.
From stdpp Require Export base tactics decidable option numbers list gmap.

#[export] Set Default Goal Selector "!".
Global Open Scope Z_scope.

(** ** Outcomes of kernel code

    [Panic] is a failed [ASSERT], a [PANIC] or a [NOT_REACHED]; [Fault] is an
    access the C program may not make (a null or dangling pointer, an index
    out of an array); [Block] means that the calling thread has to be put to
    sleep before the call can complete; [NoFuel] is the artefact of a loop
    bound that was chosen too small, and every theorem that states a result
    excludes it by giving the bound that is enough. *)
Inductive result (A : Type) : Type :=
  | Ok (a : A)
  | Panic
  | Fault
  | Block
  | NoFuel.
Arguments Ok {A} a.
Arguments Panic {A}.
Arguments Fault {A}.
Arguments Block {A}.
Arguments NoFuel {A}.

Definition rbind {A B} (m : result A) (f : A -> result B) : result B :=
  match m with
  | Ok a => f a
  | Panic => Panic
  | Fault => Fault
  | Block => Block
  | NoFuel => NoFuel
  end.

#[export] Instance result_eq_dec {A} `{EqDecision A} : EqDecision (result A).
Proof. solve_decision. Defined.

(** A computation on a state [S]; the state is lost when it does not end in
    [Ok], as the machine is when the kernel panics. *)
Definition M (S A : Type) : Type := S -> result (A * S).

Definition ret {S A} (a : A) : M S A := fun s => Ok (a, s).
Definition bind {S A B} (m : M S A) (f : A -> M S B) : M S B := fun s =>
  rbind (m s) (fun '(a, s') => f a s').

Declare Scope pintos_scope.
Delimit Scope pintos_scope with pintos.
Notation "x ← y ; z" := (bind y (fun x => z))
  (at level 20, y at level 100, z at level 200, only parsing) : pintos_scope.
Notation "y ;; z" := (bind y (fun _ => z))
  (at level 100, z at level 200, only parsing, right associativity) : pintos_scope.
Notation "'let!' x := y 'in' z" := (rbind y (fun x => z))
  (at level 200, x pattern, y at level 200, z at level 200, only parsing) : pintos_scope.
Global Open Scope pintos_scope.

Definition get {S} : M S S := fun s => Ok (s, s).
Definition put {S} (s : S) : M S unit := fun _ => Ok (tt, s).
Definition modify {S} (f : S -> S) : M S unit := fun s => Ok (tt, f s).
Definition lift {S A} (r : result A) : M S A := fun s => let! a := r in Ok (a, s).
Definition out_of_fuel {S A} : M S A := fun _ => NoFuel.

(** [ASSERT (b)] and the dereference of a partial lookup. *)
Definition ASSERT {S} (b : bool) : M S unit := fun s =>
  if b then Ok (tt, s) else Panic.
Definition rassert (b : bool) : result unit := if b then Ok tt else Panic.
Definition deref {A} (o : option A) : result A :=
  match o with Some a => Ok a | None => Fault end.

Lemma bind_ok {S A B} (m : M S A) (f : A -> M S B) s a s' :
  m s = Ok (a, s') -> bind m f s = f a s'.
Proof. unfold bind. by intros ->. Qed.

Lemma bind_inv {S A B} (m : M S A) (f : A -> M S B) s b s'' :
  bind m f s = Ok (b, s'') -> exists a s', m s = Ok (a, s') /\ f a s' = Ok (b, s'').
Proof.
  unfold bind. destruct (m s) as [[a s']| | | |]; try done. eauto.
Qed.

Lemma rbind_inv {A B} (m : result A) (f : A -> result B) b :
  rbind m f = Ok b -> exists a, m = Ok a /\ f a = Ok b.
Proof. destruct m; cbn; try done. eauto. Qed.

Lemma ASSERT_true {S} (s : S) b : b = true -> ASSERT b s = Ok (tt, s).
Proof. by intros ->. Qed.

Lemma bind_ret {S A B} (a : A) (f : A -> M S B) s : bind (ret a) f s = f a s.
Proof. done. Qed.
Lemma bind_ASSERT_true {S B} (f : unit -> M S B) s : bind (ASSERT true) f s = f tt s.
Proof. done. Qed.
Lemma bind_get {S B} (f : S -> M S B) s : bind get f s = f s s.
Proof. done. Qed.
Lemma bind_modify {S B} (g : S -> S) (f : unit -> M S B) s : bind (modify g) f s = f tt (g s).
Proof. done. Qed.
Lemma bind_bind {S A B C} (m : M S A) (f : A -> M S B) (g : B -> M S C) s :
  bind (bind m f) g s = bind m (fun a => bind (f a) g) s.
Proof. unfold bind. by destruct (m s) as [[? ?]| | | |]. Qed.

(** Administrative steps: returns, assertions that hold, reads of the state. *)
Ltac mnorm :=
  repeat first [ rewrite bind_ret | rewrite bind_ASSERT_true | rewrite bind_get
               | rewrite bind_modify
               | rewrite bind_bind ]; cbv beta.

(** One symbolic step of a computation whose first action is known to
    succeed. *)
Ltac mstep H := erewrite (bind_ok _ _ _ _ _ H); mnorm.

(** Inversion of [Ok] results through binds. *)
Ltac minv :=
  repeat match goal with
  | H : bind _ _ _ = Ok (_, _) |- _ =>
      let a := fresh "a" in let s := fresh "s" in let H1 := fresh "H" in
      apply bind_inv in H as (a & s & H1 & H)
  | H : rbind _ _ = Ok _ |- _ =>
      let a := fresh "a" in let H1 := fresh "H" in
      apply rbind_inv in H as (a & H1 & H)
  end.

(** ** Machine integers

    A [w]-bit unsigned value is a [Z] in [0, 2^w); a signed one is a [Z] in
    [-2^(w-1), 2^(w-1)). *)
Definition wrapu (w x : Z) : Z := x mod 2 ^ w.
Definition wraps (w x : Z) : Z :=
  let y := x mod 2 ^ w in if y <? 2 ^ (w - 1) then y else y - 2 ^ w.

Notation u8 := (wrapu 8).
Notation u16 := (wrapu 16).
Notation u32 := (wrapu 32).
Notation u64 := (wrapu 64).
Notation s32 := (wraps 32).
Notation s64 := (wraps 64).

Definition is_u (w x : Z) : Prop := 0 <= x < 2 ^ w.
Definition is_s (w x : Z) : Prop := - 2 ^ (w - 1) <= x < 2 ^ (w - 1).
Notation is_u8 := (is_u 8).
Notation is_u32 := (is_u 32).
Notation is_u64 := (is_u 64).
Notation is_s32 := (is_s 32).
Notation is_s64 := (is_s 64).

(** The null pointer. *)
Definition NULL : Z := 0.
(** [SIZE_MAX] as include/lib/stdint.h defines it: the 32-bit maximum. *)
Definition SIZE_MAX : Z := 4294967295.

Lemma wrapu_range w x : 0 <= w -> is_u w (wrapu w x).
Proof. intros. apply Z.mod_pos_bound. by apply Z.pow_pos_nonneg. Qed.

Lemma wrapu_id w x : is_u w x -> wrapu w x = x.
Proof. intros. by apply Z.mod_small. Qed.

Lemma wraps_range w x : 0 < w -> is_s w (wraps w x).
Proof.
  intros Hw. unfold wraps, is_s.
  assert (2 ^ w = 2 * 2 ^ (w - 1)) as E.
  { rewrite <- Z.pow_succ_r by lia. f_equal. lia. }
  pose proof (Z.mod_pos_bound x (2 ^ w) ltac:(by apply Z.pow_pos_nonneg; lia)).
  destruct (Z.ltb_spec (x mod 2 ^ w) (2 ^ (w - 1))); lia.
Qed.

Lemma wraps_id w x : 0 < w -> is_s w x -> wraps w x = x.
Proof.
  intros Hw Hx. unfold wraps, is_s in *.
  assert (2 ^ w = 2 * 2 ^ (w - 1)) as E.
  { rewrite <- Z.pow_succ_r by lia. f_equal. lia. }
  destruct (Z_le_gt_dec 0 x).
  - rewrite Z.mod_small by lia. destruct (Z.ltb_spec x (2 ^ (w - 1))); lia.
  - replace (x mod 2 ^ w) with (x + 2 ^ w).
    + destruct (Z.ltb_spec (x + 2 ^ w) (2 ^ (w - 1))); lia.
    + rewrite <- (Z.mod_small (x + 2 ^ w) (2 ^ w)) by lia.
      replace (x + 2 ^ w) with (x + 1 * 2 ^ w) by lia.
      by rewrite Z.mod_add by lia.
Qed.

Lemma pow2_pos k : 0 <= k -> 0 < 2 ^ k.
Proof. by apply Z.pow_pos_nonneg. Qed.

Lemma wraps_wrapu w x : 0 < w -> wraps w (wrapu w x) = wraps w x.
Proof. intros Hw. unfold wraps, wrapu. by rewrite Z.mod_mod by (apply Z.pow_nonzero; lia). Qed.

Lemma wraps_mod w x : 0 < w -> wraps w x mod 2 ^ w = x mod 2 ^ w.
Proof.
  intros Hw. unfold wraps. pose proof (pow2_pos w ltac:(lia)). destruct (_ <? _); [by apply Z.mod_mod; lia|].
  replace (x mod 2 ^ w - 2 ^ w) with (x mod 2 ^ w + -1 * 2 ^ w) by lia. rewrite Z.mod_add by lia. by apply Z.mod_mod; lia.
Qed.

Lemma wraps_eq w x y : x mod 2 ^ w = y mod 2 ^ w -> wraps w x = wraps w y.
Proof. intros H. unfold wraps. by rewrite H. Qed.

Lemma wraps_opp w x : 0 < w -> wraps w (- wraps w x) = wraps w (- x).
Proof.
  intros Hw. apply wraps_eq. pose proof (pow2_pos w ltac:(lia)).
  rewrite <- Z.sub_0_l, <- (Z.sub_0_l x), Zminus_mod, wraps_mod, <- Zminus_mod by lia. done.
Qed.

(** [2^k] is the only power of two with bit [k] set. *)
Lemma pow2_testbit k i : 0 <= k -> Z.testbit (2 ^ k) i = (k =? i).
Proof.
  intros. destruct (Z.eqb_spec k i) as [->|].
  - by apply Z.pow2_bits_true.
  - by apply Z.pow2_bits_false.
Qed.

Lemma shiftl_1_testbit k i :
  0 <= k -> Z.testbit (Z.shiftl 1 k) i = (k =? i).
Proof. intros. rewrite Z.shiftl_1_l. by apply pow2_testbit. Qed.

(** A masked test reads one bit. *)
Lemma land_pow2_neq0 a k :
  0 <= k -> negb (Z.land a (2 ^ k) =? 0) = Z.testbit a k.
Proof.
  intros Hk. destruct (Z.eqb_spec (Z.land a (2 ^ k)) 0) as [E|E]; simpl.
  - apply (f_equal (fun x => Z.testbit x k)) in E.
    rewrite Z.land_spec, pow2_testbit, Z.eqb_refl, andb_true_r, Z.bits_0 in E by done.
    done.
  - destruct (Z.testbit a k) eqn:T; [done|]. exfalso. apply E.
    apply Z.bits_inj'. intros i Hi. rewrite Z.land_spec, pow2_testbit, Z.bits_0 by done.
    destruct (Z.eqb_spec k i) as [->|]; [by rewrite T | by rewrite andb_false_r].
Qed.

(** Masking with the low bits, and clearing them. *)
Lemma land_ones_mod a k : 0 <= k -> Z.land a (2 ^ k - 1) = a mod 2 ^ k.
Proof.
  intros. rewrite <- Z.land_ones by done. f_equal. rewrite Z.ones_equiv. lia.
Qed.

Lemma land_lnot_ones a w k :
  0 <= k <= w -> is_u w a ->
  Z.land a (2 ^ w - 2 ^ k) = a - a mod 2 ^ k.
Proof.
  intros Hk Ha. pose proof (pow2_pos k ltac:(lia)).
  assert (2 ^ w - 2 ^ k = Z.shiftl (Z.ones (w - k)) k) as ->.
  { rewrite Z.shiftl_mul_pow2, Z.ones_equiv by lia.
    assert (2 ^ w = 2 ^ (w - k) * 2 ^ k) as -> by (rewrite <- Z.pow_add_r by lia; f_equal; lia).
    lia. }
  assert (a - a mod 2 ^ k = Z.shiftl (Z.shiftr a k) k) as ->.
  { rewrite Z.shiftl_mul_pow2, Z.shiftr_div_pow2 by lia.
    pose proof (Z.div_mod a (2 ^ k) ltac:(lia)). lia. }
  apply Z.bits_inj'. intros i Hi. rewrite Z.land_spec.
  destruct (Z_lt_le_dec i k).
  - rewrite !Z.shiftl_spec_low by lia. by rewrite andb_false_r.
  - rewrite !Z.shiftl_spec, Z.shiftr_spec by lia.
    replace (i - k + k) with i by lia.
    destruct (Z_lt_le_dec i w).
    + rewrite Z.ones_spec_low by lia. by rewrite andb_true_r.
    + rewrite Z.ones_spec_high by lia. rewrite andb_false_r.
      symmetry. destruct (decide (a = 0)) as [->|]; [apply Z.bits_0|].
      apply Z.bits_above_log2; [apply Ha|].
      apply Z.log2_lt_pow2; [destruct Ha; lia|].
      apply Z.lt_le_trans with (2 ^ w); [apply Ha|]. apply Z.pow_le_mono_r; lia.
Qed.

Lemma lor_disjoint_add a b k :
  0 <= k -> 0 <= b < 2 ^ k -> a mod 2 ^ k = 0 -> Z.lor a b = a + b.
Proof.
  intros Hk Hb Ha. pose proof (pow2_pos k Hk).
  assert (a = Z.shiftl (a / 2 ^ k) k) as ->.
  { rewrite Z.shiftl_mul_pow2 by lia. pose proof (Z.div_mod a (2 ^ k) ltac:(lia)). lia. }
  rewrite <- Z.add_lor_land.
  replace (Z.land (Z.shiftl (a / 2 ^ k) k) b) with 0; [lia|].
  symmetry. apply Z.bits_inj'. intros i Hi. rewrite Z.land_spec, Z.bits_0.
  destruct (Z_lt_le_dec i k).
  - by rewrite Z.shiftl_spec_low by lia.
  - replace (Z.testbit b i) with false; [by rewrite andb_false_r|].
    symmetry. destruct (decide (b = 0)) as [->|]; [apply Z.bits_0|].
    apply Z.bits_above_log2; [lia|].
    apply Z.lt_le_trans with k; [apply Z.log2_lt_pow2; lia | done].
Qed.

(** ** Loops

    [while] runs [body] as long as [cond] holds of the state, at most [fuel]
    times. *)
Fixpoint while {S} (fuel : nat) (cond : S -> bool) (body : S -> result S) (s : S)
  : result S :=
  if cond s then
    match fuel with
    | O => NoFuel
    | Datatypes.S fuel' => let! s' := body s in while fuel' cond body s'
    end
  else Ok s.

(** ** Lists *)

Lemma NoDup_app_inv {A} (l k : list A) :
  NoDup (l ++ k) -> NoDup l /\ NoDup k /\ (forall x, x ∈ l -> x ∈ k -> False).
Proof.
  intros H. apply NoDup_app in H as (? & Hd & ?). split_and!; [done|done|].
  intros x Hx Hk. by apply (Hd x).
Qed.

Lemma Permutation_filter_split {A} (f : A -> bool) (l : list A) :
  Permutation l (List.filter f l ++ List.filter (fun x => negb (f x)) l).
Proof.
  induction l as [|a l IH]; simpl; [done|].
  destruct (f a); simpl; [by constructor|].
  etransitivity; [apply perm_skip, IH|]. apply Permutation_middle.
Qed.

(** Splicing [ys] into [xs] at position [n]; in range when
    [n + length ys <= length xs]. *)
Definition splice {A} (n : nat) (ys xs : list A) : list A :=
  take n xs ++ ys ++ drop (n + length ys) xs.

Lemma length_splice {A} n (ys xs : list A) :
  (n + length ys <= length xs)%nat -> length (splice n ys xs) = length xs.
Proof. intros. unfold splice. rewrite !length_app, length_take, length_drop. lia. Qed.

Lemma lookup_splice_in {A} n (ys xs : list A) i :
  (n + length ys <= length xs)%nat -> (n <= i < n + length ys)%nat ->
  splice n ys xs !! i = ys !! (i - n)%nat.
Proof.
  intros. unfold splice. rewrite lookup_app_r by (rewrite length_take; lia).
  rewrite length_take, lookup_app_l by lia. f_equal. lia.
Qed.

Lemma lookup_splice_out {A} n (ys xs : list A) i :
  (n + length ys <= length xs)%nat -> ~ (n <= i < n + length ys)%nat ->
  splice n ys xs !! i = xs !! i.
Proof.
  intros Hl Hi. unfold splice. destruct (decide (i < n)%nat).
  - rewrite lookup_app_l by (rewrite length_take; lia). by rewrite lookup_take_lt.
  - rewrite lookup_app_r by (rewrite length_take; lia).
    rewrite length_take, lookup_app_r by lia. rewrite lookup_drop. f_equal. lia.
Qed.

(** The [len] bytes of a buffer from [ofs] on. *)
Definition slice {A} (ofs len : nat) (xs : list A) : list A := take len (drop ofs xs).

Lemma length_slice {A} ofs len (xs : list A) :
  (ofs + len <= length xs)%nat -> length (slice ofs len xs) = len.
Proof. intros. unfold slice. rewrite length_take, length_drop. lia. Qed.

Lemma lookup_slice {A} ofs len (xs : list A) i :
  (i < len)%nat -> slice ofs len xs !! i = xs !! (ofs + i)%nat.
Proof. intros. unfold slice. rewrite lookup_take_lt by done. by rewrite lookup_drop. Qed.

Lemma slice_splice {A} n (ys xs : list A) :
  (n + length ys <= length xs)%nat -> slice n (length ys) (splice n ys xs) = ys.
Proof.
  intros H. apply list_eq. intros i. destruct (decide (i < length ys)%nat).
  - rewrite lookup_slice, lookup_splice_in by lia. f_equal. lia.
  - rewrite !lookup_ge_None_2; [done|lia|].
    rewrite length_slice; rewrite ?length_splice; lia.
Qed.

(** ** Automation *)

Create HintDb pintos.
#[export] Hint Rewrite @length_app @length_take @length_drop @length_replicate
  @length_insert @length_fmap : len.
#[export] Hint Resolve wrapu_range wraps_range : pintos.

(** Lengths of list expressions, then linear arithmetic. *)
Ltac len := autorewrite with len in *; simpl length in *; lia.

(** Case analysis on the comparison a definition branches on. *)
Ltac zcase :=
  match goal with
  | |- context [Z.ltb ?a ?b] => destruct (Z.ltb_spec a b)
  | |- context [Z.leb ?a ?b] => destruct (Z.leb_spec a b)
  | |- context [Z.eqb ?a ?b] => destruct (Z.eqb_spec a b)
  | |- context [Nat.ltb ?a ?b] => destruct (Nat.ltb_spec a b)
  | |- context [Nat.leb ?a ?b] => destruct (Nat.leb_spec a b)
  | |- context [Nat.eqb ?a ?b] => destruct (Nat.eqb_spec a b)
  end.

(** Decides a closed proposition by evaluation. *)
Ltac by_eval := apply (bool_decide_unpack _); vm_compute; exact I.
