(* ===== verification/Arith.v ===== *)
(** * 64-bit division (lib/arithmetic.c)

    The routines the compiler calls for 64-bit division and remainder.  The
    [divl] instruction traps when the divisor is zero or the quotient does not
    fit 32 bits; a trap is [Fault]. *)

From S2P Require Import Prelude.

Definition divl (n d : Z) : result Z :=
  if d =? 0 then Fault
  else let q := n / d in if q <? 2 ^ 32 then Ok q else Fault.

(** [if (x <= limit) { n += k; x <<= k; }]. *)
Definition nlz_step (limit k : Z) (nx : Z * Z) : Z * Z :=
  let '(n, x) := nx in if x <=? limit then (n + k, u32 (Z.shiftl x k)) else (n, x).
Definition nlz (x : Z) : Z :=
  let nx := nlz_step 0x0000FFFF 16 (0, x) in
  let nx := nlz_step 0x00FFFFFF 8 nx in
  let nx := nlz_step 0x0FFFFFFF 4 nx in
  let '(n, x) := nlz_step 0x3FFFFFFF 2 nx in
  if x <=? 0x7FFFFFFF then n + 1 else n.

Definition udiv64 (n d : Z) : result Z :=
  if Z.shiftr d 32 =? 0 then
    let b := Z.shiftl 1 32 in
    let n1 := Z.shiftr n 32 in
    let n0 := u32 n in
    let d0 := u32 d in
    if d0 =? 0 then Fault
    else
      let! q := divl (u64 (b * (n1 mod d0) + n0)) d0 in
      Ok (u64 (q + b * (n1 / d0)))
  else if n <? d then Ok 0
  else
    let d1 := Z.shiftr d 32 in
    let s := nlz d1 in
    let! q := divl (Z.shiftr n 1) (u32 (Z.shiftr (u64 (Z.shiftl d s)) 32)) in
    let q := Z.shiftr q (31 - s) in
    Ok (if u64 (n - u64 (u64 (q - 1) * d)) <? d then u64 (q - 1) else q).

(** The result type of [umod64] is [uint32_t], that of [smod64] [int32_t]. *)
Definition umod64 (n d : Z) : result Z := let! q := udiv64 n d in Ok (u32 (u64 (n - u64 (d * q)))).

Definition sdiv64 (n d : Z) : result Z :=
  let n_abs := if 0 <=? n then n else u64 (- n) in
  let d_abs := if 0 <=? d then d else u64 (- d) in
  let! q_abs := udiv64 n_abs d_abs in
  Ok (if eqb (n <? 0) (d <? 0) then s64 q_abs else s64 (- s64 q_abs)).

Definition smod64 (n d : Z) : result Z := let! q := sdiv64 n d in Ok (s32 (s64 (n - s64 (d * q)))).

Definition __divdi3 (n d : Z) : result Z := sdiv64 n d.
Definition __moddi3 (n d : Z) : result Z := smod64 n d.
Definition __udivdi3 (n d : Z) : result Z := udiv64 n d.
Definition __umoddi3 (n d : Z) : result Z := umod64 n d.

(** ** Leading zeros *)

Lemma nlz_step_spec limit k n x m :
  0 < k -> limit = 2 ^ (32 - k) - 1 -> k <= 32 -> 0 <= m -> 2 ^ m <= x < 2 ^ 32 -> m + k <= 32 -> 2 ^ (32 - k) * 2 ^ k = 2 ^ 32 ->
  exists j, 0 <= j <= k /\ nlz_step limit k (n, x) = (n + j, x * 2 ^ j) /\ x * 2 ^ j < 2 ^ 32 /\ Z.min (2 ^ (32 - k)) (2 ^ (m + k)) <= x * 2 ^ j.
Proof.
  intros Hk -> Hk2 Hm Hx Hmk Hp. unfold nlz_step. pose proof (pow2_pos k ltac:(lia)). destruct (Z.leb_spec x (2 ^ (32 - k) - 1)).
  - exists k. split; [lia|]. rewrite Z.shiftl_mul_pow2 by lia. assert (x * 2 ^ k < 2 ^ 32) by nia.
    rewrite wrapu_id by (unfold is_u; nia). split_and!; [done|done|]. rewrite Z.pow_add_r by lia. nia.
  - exists 0. rewrite Z.add_0_r, Z.mul_1_r. split_and!; [lia|lia|done|lia|lia].
Qed.

Lemma nlz_spec x : 0 < x < 2 ^ 32 -> let s := nlz x in 0 <= s <= 31 /\ 2 ^ 31 <= x * 2 ^ s < 2 ^ 32.
Proof.
  intros Hx. unfold nlz.
  destruct (nlz_step_spec 0x0000FFFF 16 0 x 0) as (j1 & J1 & -> & U1 & L1); [lia..|]. cbn in L1.
  destruct (nlz_step_spec 0x00FFFFFF 8 (0 + j1) (x * 2 ^ j1) 16) as (j2 & J2 & -> & U2 & L2); [lia..|]. cbn in L2.
  destruct (nlz_step_spec 0x0FFFFFFF 4 (0 + j1 + j2) (x * 2 ^ j1 * 2 ^ j2) 24) as (j3 & J3 & -> & U3 & L3); [lia..|]. cbn in L3.
  destruct (nlz_step_spec 0x3FFFFFFF 2 (0 + j1 + j2 + j3) (x * 2 ^ j1 * 2 ^ j2 * 2 ^ j3) 28) as (j4 & J4 & -> & U4 & L4); [lia..|]. cbn in L4.
  assert (x * 2 ^ j1 * 2 ^ j2 * 2 ^ j3 * 2 ^ j4 = x * 2 ^ (j1 + j2 + j3 + j4)) as E.
  { rewrite <- !Z.mul_assoc, <- !Z.pow_add_r by lia. do 2 f_equal. lia. }
  destruct (Z.leb_spec (x * 2 ^ j1 * 2 ^ j2 * 2 ^ j3 * 2 ^ j4) 0x7FFFFFFF); rewrite E in *.
  - replace (0 + j1 + j2 + j3 + j4 + 1) with (Z.succ (j1 + j2 + j3 + j4)) by lia. rewrite Z.pow_succ_r by lia. lia.
  - rewrite !Z.add_0_l. lia.
Qed.

(** ** Unsigned division *)

(** The estimate with the leading bits of the divisor is at most one too
    high.  [v] is the divisor with its low [k] bits cleared. *)
Lemma estimate n d v k :
  0 < d -> 0 <= n < 2 ^ 64 -> 1 <= k <= 32 -> 2 ^ (31 + k) <= v <= d -> d - v <= 2 ^ k - 1 -> n / d <= n / v <= n / d + 1.
Proof.
  intros Hd Hn Hk Hv He. pose proof (pow2_pos (31 + k) ltac:(lia)) as Hp. split; [apply Z.div_le_compat_l; lia|].
  set (Q := n / d). assert (n < (Q + 1) * d) as HQ by (pose proof (Z.div_mod n d ltac:(lia)); pose proof (Z.mod_pos_bound n d ltac:(lia)); unfold Q; nia).
  assert (Q * d <= n) as HQ2 by (rewrite Z.mul_comm; apply Z.mul_div_le; lia). assert (0 <= Q) as HQ0 by (apply Z.div_pos; lia).
  assert (Q * 2 ^ (31 + k) < 2 ^ 64) as HQ3 by nia.
  enough (n < v * (Q + 2)) by (apply Z.lt_succ_r, Z.div_lt_upper_bound; lia).
  enough ((Q + 2) * (d - v) <= d) by nia.
  assert ((Q + 2) * (d - v) <= (Q + 2) * (2 ^ k - 1)) as Hm by (apply Z.mul_le_mono_nonneg_l; lia).
  assert (2 ^ (31 + k) = 2 ^ 31 * 2 ^ k) as Ep by (apply Z.pow_add_r; lia). rewrite Ep in *.
  destruct (decide (k = 1)) as [->|]; [destruct (decide (d - v = 0)) as [->|]; lia|].
  enough ((Q + 2) * (2 ^ k - 1) <= 2 ^ 31 * 2 ^ k) by lia.
  pose proof (Z.pow_le_mono_r 2 2 k ltac:(lia) ltac:(lia)). pose proof (Z.pow_le_mono_r 2 k 32 ltac:(lia) ltac:(lia)).
  assert (Q * 2 ^ k < 2 ^ 33) by nia. assert (Q < 2 ^ 31) by nia. nia.
Qed.

Lemma udiv64_small n d : is_u64 n -> 0 < d < 2 ^ 32 -> udiv64 n d = Ok (n / d).
Proof.
  intros Hn Hd. unfold is_u in Hn. unfold udiv64. rewrite !Z.shiftr_div_pow2, (Z.div_small d) by lia. cbn [Z.eqb].
  rewrite (wrapu_id 32 d) by (unfold is_u; lia). destruct (Z.eqb_spec d 0) as [|_]; [lia|]. change (Z.shiftl 1 32) with (2 ^ 32).
  set (n1 := n / 2 ^ 32). set (n0 := u32 n). assert (n = 2 ^ 32 * n1 + n0) as En by (apply Z.div_mod; lia).
  assert (0 <= n0 < 2 ^ 32) as H0 by (apply Z.mod_pos_bound; lia).
  assert (0 <= n1 < 2 ^ 32) as H1 by (unfold n1; split; [apply Z.div_pos; lia|apply Z.div_lt_upper_bound; lia]).
  pose proof (Z.mod_pos_bound n1 d ltac:(lia)) as Hr. pose proof (Z.div_mod n1 d ltac:(lia)) as Hdm.
  assert (0 <= n1 / d) as Hq by (apply Z.div_pos; lia). assert (n1 / d <= n1) by (apply Z.div_le_upper_bound; nia).
  rewrite (wrapu_id 64 (2 ^ 32 * (n1 mod d) + n0)) by (unfold is_u; lia).
  assert ((2 ^ 32 * (n1 mod d) + n0) / d < 2 ^ 32) as Hlt by (apply Z.div_lt_upper_bound; nia).
  assert (n / d = (2 ^ 32 * (n1 mod d) + n0) / d + 2 ^ 32 * (n1 / d)) as E.
  { rewrite <- Z.div_add by lia. f_equal. lia. }
  unfold divl. destruct (Z.eqb_spec d 0) as [|_]; [lia|]. rewrite (proj2 (Z.ltb_lt _ _)) by done. cbn [rbind]. rewrite <- E.
  f_equal. apply wrapu_id. split; [apply Z.div_pos; lia|]. apply Z.div_lt_upper_bound; nia.
Qed.

(** The divisor, normalised so that its top bit is set, loses [k] bits. *)
Lemma normalise d : 2 ^ 32 <= d < 2 ^ 64 ->
  let s := nlz (d / 2 ^ 32) in let k := 32 - s in
  1 <= k <= 32 /\ is_u64 (d * 2 ^ s) /\ d * 2 ^ s / 2 ^ 32 = d / 2 ^ k /\ 2 ^ 31 <= d / 2 ^ k < 2 ^ 32.
Proof.
  intros Hd s k. set (d1 := d / 2 ^ 32) in *.
  assert (0 < d1 < 2 ^ 32) as H1 by (unfold d1; split; [apply Z.div_str_pos; lia|apply Z.div_lt_upper_bound; lia]).
  destruct (nlz_spec d1 H1) as [Hs Hn]. fold s in Hs, Hn. pose proof (pow2_pos s ltac:(lia)) as Hp. pose proof (pow2_pos k ltac:(unfold k; lia)) as Hpk.
  assert (d1 * 2 ^ 32 <= d < (d1 + 1) * 2 ^ 32) as Hdd by (pose proof (Z.div_mod d (2 ^ 32) ltac:(lia)); pose proof (Z.mod_pos_bound d (2 ^ 32) ltac:(lia)); unfold d1; lia).
  assert (2 ^ s * 2 ^ k = 2 ^ 32) as Esk by (rewrite <- Z.pow_add_r by (unfold k; lia); f_equal; unfold k; lia).
  assert ((d1 + 1) * 2 ^ s <= 2 ^ 32) as Htop.
  { assert (2 ^ 32 / 2 ^ s = 2 ^ k) as Eq by (rewrite <- Esk, Z.mul_comm; apply Z.div_mul; lia).
    assert (d1 < 2 ^ k) by nia. nia. }
  assert (d * 2 ^ s / 2 ^ 32 = d / 2 ^ k) as Ediv by (rewrite <- Esk, (Z.mul_comm d), Z.div_mul_cancel_l; lia).
  unfold is_u. split_and!; [unfold k; lia|unfold k; lia|nia|nia|done| |].
  - rewrite <- Ediv. apply Z.div_le_lower_bound; nia.
  - rewrite <- Ediv. apply Z.div_lt_upper_bound; nia.
Qed.

Lemma udiv64_large n d : is_u64 n -> 2 ^ 32 <= d < 2 ^ 64 -> udiv64 n d = Ok (n / d).
Proof.
  intros Hn Hd. unfold is_u in Hn. unfold udiv64. rewrite !Z.shiftr_div_pow2 by lia. destruct (Z.eqb_spec (d / 2 ^ 32) 0) as [E0|_].
  { pose proof (Z.div_str_pos d (2 ^ 32) ltac:(lia)). lia. }
  destruct (Z.ltb_spec n d); [f_equal; symmetry; apply Z.div_small; lia|].
  destruct (normalise d Hd) as (Hk & Hu & Ev & Hv). set (s := nlz (d / 2 ^ 32)) in *. set (k := 32 - s) in *. set (v1 := d / 2 ^ k) in *.
  pose proof (pow2_pos k ltac:(lia)) as Hpk. rewrite Z.shiftl_mul_pow2, (wrapu_id 64 (d * 2 ^ s)), Ev, (wrapu_id 32 v1) by (done || unfold is_u; lia).
  assert (n / 2 ^ 1 / v1 < 2 ^ 32) as Hq by (apply Z.div_lt_upper_bound; [lia|apply Z.div_lt_upper_bound; nia]).
  unfold divl. destruct (Z.eqb_spec v1 0); [lia|]. rewrite (proj2 (Z.ltb_lt _ _)) by done. cbn [rbind].
  rewrite Z.shiftr_div_pow2 by lia.
  assert (n / 2 ^ 1 / v1 / 2 ^ (31 - s) = n / (v1 * 2 ^ k)) as ->.
  { rewrite !Z.div_div by (try apply pow2_pos; lia). f_equal. replace k with (1 + (31 - s)) by lia. rewrite (Z.pow_add_r 2 1) by lia. lia. }
  pose proof (Z.div_mod d (2 ^ k) ltac:(lia)) as Hdm. pose proof (Z.mod_pos_bound d (2 ^ k) ltac:(lia)) as Hr. fold v1 in Hdm.
  destruct (estimate n d (v1 * 2 ^ k) k) as [Q1 Q2]; [lia|lia|lia|rewrite Z.pow_add_r by lia; nia|nia|].
  set (q := n / (v1 * 2 ^ k)) in *. set (Q := n / d) in *.
  assert (1 <= Q) as HQ1 by (apply Z.div_le_lower_bound; lia).
  assert (Q * d <= n < (Q + 1) * d) as HQ by (pose proof (Z.div_mod n d ltac:(lia)); pose proof (Z.mod_pos_bound n d ltac:(lia)); unfold Q; nia).
  assert ((q - 1) * d <= n) as Hqd by nia. assert (0 <= q - 1 < 2 ^ 64) as Hq1 by nia.
  rewrite (wrapu_id 64 (q - 1)), (wrapu_id 64 ((q - 1) * d)), (wrapu_id 64 (n - (q - 1) * d)) by (unfold is_u; nia).
  f_equal. destruct (Z.ltb_spec (n - (q - 1) * d) d); [assert (q - 1 = Q); nia|assert (q = Q); nia].
Qed.

Lemma udiv64_spec n d : is_u64 n -> is_u64 d -> d <> 0 -> udiv64 n d = Ok (n / d).
Proof.
  intros Hn Hd H0. destruct (Z.lt_ge_cases d (2 ^ 32)); [apply udiv64_small|apply udiv64_large]; unfold is_u in *; lia || done.
Qed.

(** ** Wrapping *)

Lemma low_32 x y : x mod 2 ^ 64 = y mod 2 ^ 64 -> x mod 2 ^ 32 = y mod 2 ^ 32.
Proof.
  intros E. rewrite (Znumtheory.Zmod_div_mod (2 ^ 32) (2 ^ 64) x), (Znumtheory.Zmod_div_mod (2 ^ 32) (2 ^ 64) y), E; try done; by exists (2 ^ 32).
Qed.

Lemma abs_u64 n : is_s64 n -> (if 0 <=? n then n else u64 (- n)) = Z.abs n.
Proof.
  intros H. unfold is_s in H. destruct (Z.leb_spec 0 n); [by rewrite Z.abs_eq|]. rewrite wrapu_id by (unfold is_u; lia). lia.
Qed.

Lemma sdiv64_spec n d : is_s64 n -> is_s64 d -> d <> 0 -> sdiv64 n d = Ok (s64 (Z.quot n d)).
Proof.
  intros Hn Hd H0. unfold sdiv64. rewrite !abs_u64 by done. unfold is_s in *.
  rewrite udiv64_spec by (unfold is_u; lia). cbn [rbind]. f_equal.
  rewrite (Z.quot_div n d H0). destruct (Z.ltb_spec n 0), (Z.ltb_spec d 0); cbn [eqb].
  - by rewrite !Z.sgn_neg, Z.mul_1_l by lia.
  - rewrite wraps_opp by lia. f_equal. rewrite (Z.sgn_neg n), (Z.sgn_pos d) by lia. lia.
  - rewrite wraps_opp by lia. f_equal. rewrite (Z.sgn_neg d) by lia. destruct (Z.eq_dec n 0) as [->|]; [by rewrite Z.div_0_l by lia|].
    rewrite Z.sgn_pos by lia. lia.
  - rewrite (Z.sgn_pos d) by lia. destruct (Z.eq_dec n 0) as [->|]; [by rewrite Z.div_0_l by lia|]. rewrite Z.sgn_pos by lia. f_equal. lia.
Qed.

(** ** Properties *)

(** C36: The division routines compute division: for every divisor but zero,
    [__udivdi3] returns the quotient rounded down, [__divdi3] the quotient
    rounded towards zero (with the wrap-around of [INT64_MIN / -1]), and no
    [divl] traps on the way; a zero divisor traps.  [__umoddi3] and
    [__moddi3] return the low 32 bits of the remainder, which is the remainder
    only when that fits 32 bits. *)
Theorem division_correct n d :
  (is_u64 n -> is_u64 d ->
     __udivdi3 n d = (if d =? 0 then Fault else Ok (n / d)) /\
     __umoddi3 n d = (if d =? 0 then Fault else Ok (u32 (n mod d)))) /\
  (is_s64 n -> is_s64 d ->
     __divdi3 n d = (if d =? 0 then Fault else Ok (s64 (Z.quot n d))) /\
     __moddi3 n d = (if d =? 0 then Fault else Ok (s32 (Z.rem n d)))).
Proof.
  unfold __udivdi3, __umoddi3, __divdi3, __moddi3, umod64, smod64. split; intros Hn Hd; destruct (Z.eqb_spec d 0) as [->|H0].
  1: done.
  2: { unfold sdiv64, udiv64. cbn [Z.leb Z.compare]. done. }
  - rewrite udiv64_spec by done. split; [done|]. cbn [rbind]. f_equal. f_equal. unfold is_u in *.
    pose proof (Z.div_mod n d H0) as Hdm. pose proof (Z.mod_pos_bound n d ltac:(lia)) as Hr. assert (0 <= n / d) by (apply Z.div_pos; lia).
    rewrite (wrapu_id 64 (d * (n / d))) by (unfold is_u; nia). rewrite wrapu_id by (unfold is_u; lia). lia.
  - rewrite sdiv64_spec by done. split; [done|]. cbn [rbind]. f_equal.
    pose proof (Z.quot_rem n d H0) as Hqr. apply wraps_eq.
    apply low_32. rewrite wraps_mod, Zminus_mod, wraps_mod, Zmult_mod, wraps_mod, <- Zmult_mod, <- Zminus_mod by lia. f_equal. lia.
Qed.

Lemma division_correct_witness :
  __udivdi3 (2 ^ 63 + 5) (2 ^ 33 + 1) = Ok ((2 ^ 63 + 5) / (2 ^ 33 + 1)) /\ __divdi3 (-7) 2 = Ok (-3) /\
  __umoddi3 (2 ^ 33) (2 ^ 34) = Ok 0.
Proof.
  destruct (division_correct (2 ^ 63 + 5) (2 ^ 33 + 1)) as [H1 _]. destruct (division_correct (-7) 2) as [_ H2].
  destruct (division_correct (2 ^ 33) (2 ^ 34)) as [H3 _]. split; [|split].
  - apply H1; unfold is_u; lia.
  - apply H2; unfold is_s; lia.
  - apply H3; unfold is_u; lia.
Defined.
