(* ===== verification/Intq.v ===== *)
(** * Interrupt queues (devices/intq.c)

    A circular buffer of bytes between interrupt handlers and threads.  Calls
    run with interrupts off, so each piece of code between two points where
    the caller can lose the processor is one step.  The state holds the queue,
    the interrupt level and context, the running thread, and the threads that
    [thread_unblock] has made ready.

    A call that has to wait ends in one of two places: asleep inside
    [lock_acquire], because another thread is already waiting, or asleep in
    [wait], holding the lock and registered in the queue.  [getc_locked] and
    [getc_woken] are the code that runs when the thread continues from there,
    and so for [putc]. *)

From S2P Require Import Prelude.

Definition INTQ_BUFSIZE : Z := 64.

(** [struct intq]; the lock is its holder. *)
Record intq := Intq {
  lock : option Z; not_full : Z; not_empty : Z; buf : list Z; head : Z; tail : Z }.

Record ist := ISt { q : intq; intr_off : bool; in_intr : bool; current : Z; unblocked : list Z }.

(** The address of [q->not_empty] or [q->not_full]. *)
Inductive waiter : Type := NotEmpty | NotFull.

(** How a call leaves the processor. *)
Inductive outcome (A : Type) : Type := Done (a : A) | AtLock | Asleep.
Arguments Done {A} a.
Arguments AtLock {A}.
Arguments Asleep {A}.

Definition set_q (f : intq -> intq) : M ist unit := modify (fun s =>
  ISt (f (q s)) (intr_off s) (in_intr s) (current s) (unblocked s)).
Definition with_lock h (x : intq) := Intq h (not_full x) (not_empty x) (buf x) (head x) (tail x).
Definition get_waiter (w : waiter) (x : intq) : Z := match w with NotEmpty => not_empty x | NotFull => not_full x end.
Definition set_waiter (w : waiter) (t : Z) (x : intq) : intq :=
  match w with
  | NotEmpty => Intq (lock x) (not_full x) t (buf x) (head x) (tail x)
  | NotFull => Intq (lock x) t (not_empty x) (buf x) (head x) (tail x)
  end.

#[export] Instance outcome_eq_dec {A} `{EqDecision A} : EqDecision (outcome A).
Proof. solve_decision. Defined.

(** ** Operations *)

Definition next (pos : Z) : Z := Z.rem (pos + 1) INTQ_BUFSIZE.

(** [intq_init]: the buffer keeps its contents. *)
Definition intq_init : M ist unit := set_q (fun x => Intq None NULL NULL (buf x) 0 0).

Definition intq_empty : M ist bool := s ← get; ASSERT (intr_off s);; ret (head (q s) =? tail (q s)).
Definition intq_full : M ist bool := s ← get; ASSERT (intr_off s);; ret (next (head (q s)) =? tail (q s)).

(** [wait], up to the point where the thread sleeps. *)
Definition wait (w : waiter) : M ist unit :=
  s ← get;
  ASSERT (negb (in_intr s));; ASSERT (intr_off s);;
  b ← (match w with NotEmpty => intq_empty | NotFull => intq_full end);
  ASSERT b;;
  set_q (set_waiter w (current s)).

Definition signal (w : waiter) : M ist unit :=
  s ← get;
  ASSERT (intr_off s);;
  b ← (match w with NotEmpty => intq_empty | NotFull => intq_full end);
  ASSERT (negb b);;
  let t := get_waiter w (q s) in
  if negb (t =? NULL) then
    modify (fun s => ISt (q s) (intr_off s) (in_intr s) (current s) (unblocked s ++ [t]));;
    set_q (set_waiter w NULL)
  else ret tt.

(** The body of the waiting loop: [lock_acquire (&q->lock)], then [wait]. *)
Definition lock_and_wait {A} (w : waiter) : M ist (outcome A) :=
  s ← get;
  ASSERT (negb (in_intr s));;
  match lock (q s) with
  | Some h => ASSERT (negb (h =? current s));; ret AtLock
  | None => set_q (with_lock (Some (current s)));; wait w;; ret Asleep
  end.

Definition intq_getc : M ist (outcome Z) :=
  s ← get;
  ASSERT (intr_off s);;
  e ← intq_empty;
  if e then lock_and_wait NotEmpty
  else
    s ← get;
    byte ← lift (deref (buf (q s) !! Z.to_nat (tail (q s))));
    set_q (fun x => Intq (lock x) (not_full x) (not_empty x) (buf x) (head x) (next (tail x)));;
    signal NotFull;;
    ret (Done byte).

Definition intq_putc (byte : Z) : M ist (outcome unit) :=
  s ← get;
  ASSERT (intr_off s);;
  f ← intq_full;
  if f then lock_and_wait NotFull
  else
    s ← get;
    (if head (q s) <? INTQ_BUFSIZE then ret tt else lift Fault);;
    set_q (fun x => Intq (lock x) (not_full x) (not_empty x) (<[Z.to_nat (head x) := byte]> (buf x)) (next (head x)) (tail x));;
    signal NotEmpty;;
    ret (Done tt).

(** The lock was granted: the thread goes on to [wait]. *)
Definition wait_locked {A} (w : waiter) : M ist (outcome A) :=
  s ← get; set_q (with_lock (Some (current s)));; wait w;; ret Asleep.
Definition getc_locked : M ist (outcome Z) := wait_locked NotEmpty.
Definition putc_locked : M ist (outcome unit) := wait_locked NotFull.

(** The thread was woken: it releases the lock and tests the condition
    again. *)
Definition lock_release : M ist unit :=
  s ← get; ASSERT (bool_decide (lock (q s) = Some (current s)));; set_q (with_lock None).
Definition getc_woken : M ist (outcome Z) := lock_release;; intq_getc.
Definition putc_woken (byte : Z) : M ist (outcome unit) := lock_release;; intq_putc byte.

(** ** The contents of a queue *)

Definition used (x : intq) : Z := (head x - tail x) mod INTQ_BUFSIZE.
Definition contents (x : intq) : list Z :=
  (fun i : nat => nth (Z.to_nat ((tail x + Z.of_nat i) mod INTQ_BUFSIZE)) (buf x) 0) <$> seq 0 (Z.to_nat (used x)).

(** [c] is the bounded queue that [x] represents.  A registered waiter waits
    for a condition that does not hold. *)
Record intq_ok (x : intq) (c : list Z) : Prop := {
  io_buf : length (buf x) = 64%nat;
  io_head : 0 <= head x < 64;
  io_tail : 0 <= tail x < 64;
  io_contents : contents x = c;
  io_empty : not_empty x <> NULL -> c = [];
  io_full : not_full x <> NULL -> length c = 63%nat
}.

Lemma next_mod p : 0 <= p -> next p = (p + 1) mod 64.
Proof. intros H. unfold next, INTQ_BUFSIZE. rewrite Z.rem_mod_nonneg; lia. Qed.

Lemma next_range p : 0 <= p -> 0 <= next p < 64.
Proof. intros H. rewrite next_mod by done. apply Z.mod_pos_bound. lia. Qed.

Lemma length_queue x : length (contents x) = Z.to_nat (used x).
Proof. unfold contents. by rewrite length_fmap, length_seq. Qed.

Lemma used_range x : 0 <= used x < 64.
Proof. unfold used, INTQ_BUFSIZE. apply Z.mod_pos_bound. lia. Qed.

(** The two tests, in terms of the contents. *)
Lemma empty_test x : 0 <= head x < 64 -> 0 <= tail x < 64 -> (head x =? tail x) = bool_decide (contents x = []).
Proof.
  intros H1 H2. pose proof (length_queue x) as L. unfold used, INTQ_BUFSIZE in L. destruct (Z.eqb_spec (head x) (tail x)) as [E|E].
  - rewrite E, Z.sub_diag in L. symmetry. apply bool_decide_eq_true. by apply nil_length_inv.
  - symmetry. apply bool_decide_eq_false. intros Ec. rewrite Ec in L. cbn in L.
    assert ((head x - tail x) mod 64 <> 0) by (intros H%Z.mod_divide; [destruct H; lia|lia]).
    pose proof (Z.mod_pos_bound (head x - tail x) 64 ltac:(lia)). lia.
Qed.

Lemma full_test x : 0 <= head x < 64 -> 0 <= tail x < 64 -> (next (head x) =? tail x) = (length (contents x) =? 63)%nat.
Proof.
  intros H1 H2. rewrite length_queue. unfold used, INTQ_BUFSIZE. rewrite next_mod by lia.
  pose proof (Z.div_mod (head x - tail x) 64 ltac:(lia)). pose proof (Z.mod_pos_bound (head x - tail x) 64 ltac:(lia)).
  pose proof (Z.div_mod (head x + 1) 64 ltac:(lia)). pose proof (Z.mod_pos_bound (head x + 1) 64 ltac:(lia)).
  destruct (Z.eqb_spec ((head x + 1) mod 64) (tail x)), (Nat.eqb_spec (Z.to_nat ((head x - tail x) mod 64)) 63); try done; lia.
Qed.

Lemma used_get x : 0 <= head x < 64 -> 0 <= tail x < 64 -> head x <> tail x ->
  (head x - next (tail x)) mod 64 = used x - 1 /\ 0 < used x.
Proof.
  intros H1 H2 Hne. unfold used, INTQ_BUFSIZE. rewrite next_mod by lia.
  pose proof (Z.mod_pos_bound (head x - tail x) 64 ltac:(lia)) as Hr.
  assert ((head x - tail x) mod 64 <> 0) by (intros H%Z.mod_divide; [destruct H; lia|lia]).
  rewrite Zminus_mod_idemp_r. replace (head x - (tail x + 1)) with (head x - tail x - 1) by lia. split; [|lia].
  rewrite <- Zminus_mod_idemp_l. apply Z.mod_small. lia.
Qed.

Lemma used_put x : 0 <= head x < 64 -> 0 <= tail x < 64 -> next (head x) <> tail x ->
  (next (head x) - tail x) mod 64 = used x + 1 /\ used x < 63.
Proof.
  intros H1 H2 Hne. pose proof (used_range x) as Hu. pose proof (full_test x H1 H2) as Hf. rewrite (proj2 (Z.eqb_neq _ _) Hne) in Hf.
  symmetry in Hf. apply Nat.eqb_neq in Hf. rewrite length_queue in Hf. unfold used, INTQ_BUFSIZE in *. rewrite next_mod by lia.
  rewrite Zminus_mod_idemp_l. replace (head x + 1 - tail x) with (head x - tail x + 1) by lia. split; [|lia].
  rewrite <- Zplus_mod_idemp_l. apply Z.mod_small. lia.
Qed.

(** Taking the oldest byte and adding a new one. *)
Lemma contents_get x l nf ne : length (buf x) = 64%nat -> 0 <= head x < 64 -> 0 <= tail x < 64 -> head x <> tail x ->
  contents x = nth (Z.to_nat (tail x)) (buf x) 0 :: contents (Intq l nf ne (buf x) (head x) (next (tail x))).
Proof.
  intros Hb H1 H2 Hne. destruct (used_get x H1 H2 Hne) as [E Hu]. unfold contents. cbn [buf head tail]. unfold used at 2. cbn [head tail].
  change INTQ_BUFSIZE with 64 in *. rewrite E. replace (Z.to_nat (used x)) with (S (Z.to_nat (used x - 1))) by lia.
  rewrite <- cons_seq. cbn [fmap list_fmap]. f_equal.
  - f_equal. rewrite Z.add_0_r, Z.mod_small by lia. done.
  - rewrite <- fmap_S_seq, <- list_fmap_compose. apply list_fmap_ext. intros i y _. cbn. f_equal. f_equal.
    rewrite next_mod, Zplus_mod_idemp_l by lia. f_equal. lia.
Qed.

Lemma contents_put x l nf ne b : length (buf x) = 64%nat -> 0 <= head x < 64 -> 0 <= tail x < 64 -> next (head x) <> tail x ->
  contents (Intq l nf ne (<[Z.to_nat (head x) := b]> (buf x)) (next (head x)) (tail x)) = contents x ++ [b].
Proof.
  intros Hb H1 H2 Hne. destruct (used_put x H1 H2 Hne) as [E Hu]. pose proof (used_range x) as Hr. unfold contents. cbn [buf head tail].
  unfold used at 1. cbn [head tail]. change INTQ_BUFSIZE with 64 in *. rewrite E.
  replace (Z.to_nat (used x + 1)) with (Z.to_nat (used x) + 1)%nat by lia. rewrite seq_app, fmap_app. cbn [seq fmap list_fmap Nat.add].
  assert ((tail x + used x) mod 64 = head x) as Eh.
  { unfold used, INTQ_BUFSIZE. rewrite Zplus_mod_idemp_r. replace (tail x + (head x - tail x)) with (head x) by lia. apply Z.mod_small. lia. }
  f_equal.
  - apply list_fmap_ext. intros i k Hk. apply lookup_seq in Hk as [-> Hk]. rewrite !nth_lookup. f_equal. apply list_lookup_insert_ne.
    intros Ec. apply Z2Nat.inj in Ec; [|lia|apply Z.mod_pos_bound; lia].
    assert ((tail x + used x) mod 64 = (tail x + Z.of_nat i) mod 64) as Em by (rewrite Eh; cbn in Ec; lia).
    assert ((used x - Z.of_nat i) mod 64 = 0) as Ed.
    { replace (used x - Z.of_nat i) with ((tail x + used x) - (tail x + Z.of_nat i)) by lia. rewrite Zminus_mod, Em, Z.sub_diag. done. }
    rewrite Z.mod_small in Ed; lia.
  - f_equal. rewrite Z2Nat.id, Eh by lia. rewrite nth_lookup, list_lookup_insert_eq by lia. done.
Qed.

(** ** Properties *)

(** The threads that are ready after [signal] of the waiter [t]. *)
Definition woken (t : Z) (l : list Z) : list Z := if t =? NULL then l else l ++ [t].

Lemma intq_empty_run s c : intq_ok (q s) c -> intr_off s = true -> intq_empty s = Ok (bool_decide (c = []), s).
Proof.
  intros [H1 H2 H3 H4 _ _] Hi. unfold intq_empty. mnorm. rewrite Hi. mnorm. rewrite empty_test by done. by rewrite H4.
Qed.

Lemma intq_full_run s c : intq_ok (q s) c -> intr_off s = true -> intq_full s = Ok ((length c =? 63)%nat, s).
Proof.
  intros [H1 H2 H3 H4 _ _] Hi. unfold intq_full. mnorm. rewrite Hi. mnorm. rewrite full_test by done. by rewrite H4.
Qed.

(** The condition a waiter waits for does not hold. *)
Definition blocked_on (w : waiter) (c : list Z) : bool :=
  match w with NotEmpty => bool_decide (c = []) | NotFull => (length c =? 63)%nat end.

Lemma test_run w s c : intq_ok (q s) c -> intr_off s = true ->
  (match w with NotEmpty => intq_empty | NotFull => intq_full end) s = Ok (blocked_on w c, s).
Proof. intros H Hi. destruct w; [by apply intq_empty_run|by apply intq_full_run]. Qed.

(** [signal] clears the waiter and makes it ready. *)
Lemma signal_run w s c x : q s = x -> intr_off s = true -> 0 <= head x < 64 -> 0 <= tail x < 64 -> contents x = c ->
  blocked_on w c = false ->
  signal w s = Ok (tt, ISt (set_waiter w NULL x) true (in_intr s) (current s) (woken (get_waiter w x) (unblocked s))).
Proof.
  intros <- Hi H1 H2 Hc Hb. unfold signal. mnorm. rewrite Hi. mnorm.
  assert ((match w with NotEmpty => intq_empty | NotFull => intq_full end) s = Ok (false, s)) as E.
  { destruct w; unfold intq_empty, intq_full; mnorm; rewrite Hi; mnorm; [rewrite empty_test|rewrite full_test]; try done; rewrite Hc; by rewrite <- Hb. }
  mstep E. cbn [negb]. mnorm. unfold woken. destruct (Z.eqb_spec (get_waiter w (q s)) NULL) as [E0|]; cbn [negb].
  - unfold ret. destruct s as [[l nf ne b h t] io ii cu un], w; cbn in *; by subst.
  - mnorm. by destruct s; cbn in *; subst.
Qed.

Lemma lock_and_wait_run {A} w s c : intq_ok (q s) c -> intr_off s = true -> blocked_on w c = true ->
  @lock_and_wait A w s =
    if in_intr s then Panic
    else match lock (q s) with
         | Some h => if h =? current s then Panic else Ok (AtLock, s)
         | None => Ok (Asleep, ISt (set_waiter w (current s) (with_lock (Some (current s)) (q s))) true false (current s) (unblocked s))
         end.
Proof.
  intros H Hi Hb. unfold lock_and_wait. mnorm. destruct (in_intr s) eqn:Ei; cbn [negb]; [done|]. mnorm.
  destruct (lock (q s)) as [h|]; [by destruct (h =? current s)|]. unfold set_q at 1. mnorm.
  unfold wait. mnorm. cbn [in_intr intr_off q current]. rewrite Ei, Hi. cbn [negb]. mnorm.
  set (s1 := ISt _ _ _ _ _). assert (intq_ok (q s1) c) as H1 by (destruct H; by split).
  mstep (test_run w s1 c H1 eq_refl). rewrite Hb. mnorm. unfold set_q. mnorm. done.
Qed.

(** Taking the oldest byte, and adding one. *)
Lemma getc_run s x c : intq_ok (q s) (x :: c) -> intr_off s = true ->
  exists s', intq_getc s = Ok (Done x, s') /\ intq_ok (q s') c /\ intr_off s' = true /\ in_intr s' = in_intr s /\ current s' = current s /\
    unblocked s' = woken (not_full (q s)) (unblocked s) /\ not_full (q s') = NULL /\ lock (q s') = lock (q s).
Proof.
  intros H Hi. pose proof H as [B1 B2 B3 B4 B5 B6]. pose proof (used_range (q s)) as Hu. pose proof (length_queue (q s)) as Hl. rewrite B4 in Hl.
  unfold intq_getc. mnorm. rewrite Hi. mnorm. mstep (intq_empty_run s _ H Hi). rewrite bool_decide_eq_false_2 by done. mnorm.
  assert (head (q s) <> tail (q s)) as Hne by (apply Z.eqb_neq; rewrite empty_test by done; by rewrite B4).
  pose proof (contents_get (q s) (lock (q s)) (not_full (q s)) (not_empty (q s)) B1 B2 B3 Hne) as Ec. rewrite B4 in Ec. injection Ec as Ex Ec'.
  destruct (lookup_lt_is_Some_2 (buf (q s)) (Z.to_nat (tail (q s)))) as [y Hy]; [lia|].
  assert (y = x) as -> by (by rewrite Ex, nth_lookup, Hy).
  assert (lift (deref (buf (q s) !! Z.to_nat (tail (q s)))) s = Ok (x, s)) as El by (unfold lift; by rewrite Hy).
  mstep El. unfold set_q at 1. mnorm. set (x1 := Intq _ _ _ _ _ _) in *. pose proof (next_range (tail (q s)) ltac:(lia)) as Hn.
  assert (blocked_on NotFull c = false) as Hbf by (cbn; apply Nat.eqb_neq; cbn in Hl; lia).
  pose proof (signal_run NotFull (ISt x1 (intr_off s) (in_intr s) (current s) (unblocked s)) c x1 eq_refl Hi B2 Hn (eq_sym Ec') Hbf) as Es.
  mstep Es. eexists. split; [reflexivity|]. cbn. split; [|by split_and!]. split; cbn; try done.
  intros Hne'. by specialize (B5 Hne').
Qed.

Lemma putc_run s c byte : intq_ok (q s) c -> intr_off s = true -> length c <> 63%nat ->
  exists s', intq_putc byte s = Ok (Done tt, s') /\ intq_ok (q s') (c ++ [byte]) /\ intr_off s' = true /\ in_intr s' = in_intr s /\ current s' = current s /\
    unblocked s' = woken (not_empty (q s)) (unblocked s) /\ not_empty (q s') = NULL /\ lock (q s') = lock (q s).
Proof.
  intros H Hi N63. pose proof H as [B1 B2 B3 B4 B5 B6]. unfold intq_putc. mnorm. rewrite Hi. mnorm. mstep (intq_full_run s c H Hi).
  rewrite (proj2 (Nat.eqb_neq _ _) N63). mnorm. change INTQ_BUFSIZE with 64. rewrite (proj2 (Z.ltb_lt _ _)) by lia. mnorm.
  assert (next (head (q s)) <> tail (q s)) as Hne by (apply Z.eqb_neq; rewrite full_test by done; rewrite B4; by apply Nat.eqb_neq).
  pose proof (contents_put (q s) (lock (q s)) (not_full (q s)) (not_empty (q s)) byte B1 B2 B3 Hne) as Ec. rewrite B4 in Ec.
  unfold set_q at 1. mnorm. set (x1 := Intq _ _ _ _ _ _) in *. pose proof (next_range (head (q s)) ltac:(lia)) as Hn.
  assert (blocked_on NotEmpty (c ++ [byte]) = false) as Hbf by (cbn; apply bool_decide_eq_false; by destruct c).
  pose proof (signal_run NotEmpty (ISt x1 (intr_off s) (in_intr s) (current s) (unblocked s)) (c ++ [byte]) x1 eq_refl Hi Hn B3 Ec Hbf) as Es.
  mstep Es. eexists. split; [reflexivity|]. cbn. split; [|by split_and!]. split; cbn; try done.
  - by rewrite length_insert.
  - intros Hne'. exfalso. by apply N63, B6.
Qed.

(** C37: An interrupt queue is a bounded queue of 63 bytes.  [intq_getc] returns
    the oldest byte, [intq_putc] adds one behind the newest, both make the
    thread that waits for this ready; on an empty, respectively full, queue
    they panic in an interrupt handler and otherwise put the caller to sleep,
    registered in the queue, or behind a thread that already waits.  A
    registered thread always waits for a condition that does not hold, so no
    wake-up is lost. *)
Theorem intq_is_bounded_fifo s c byte :
  intq_ok (q s) c -> intr_off s = true ->
  match c with
  | x :: c' => exists s', intq_getc s = Ok (Done x, s') /\ intq_ok (q s') c' /\
      unblocked s' = woken (not_full (q s)) (unblocked s) /\ not_full (q s') = NULL /\ lock (q s') = lock (q s)
  | [] => intq_getc s =
      if in_intr s then Panic
      else match lock (q s) with
           | Some h => if h =? current s then Panic else Ok (AtLock, s)
           | None => Ok (Asleep, ISt (set_waiter NotEmpty (current s) (with_lock (Some (current s)) (q s))) true false (current s) (unblocked s))
           end
  end /\
  if (length c =? 63)%nat then
    intq_putc byte s =
      if in_intr s then Panic
      else match lock (q s) with
           | Some h => if h =? current s then Panic else Ok (AtLock, s)
           | None => Ok (Asleep, ISt (set_waiter NotFull (current s) (with_lock (Some (current s)) (q s))) true false (current s) (unblocked s))
           end
  else exists s', intq_putc byte s = Ok (Done tt, s') /\ intq_ok (q s') (c ++ [byte]) /\
      unblocked s' = woken (not_empty (q s)) (unblocked s) /\ not_empty (q s') = NULL /\ lock (q s') = lock (q s).
Proof.
  intros H Hi. split.
  - destruct c as [|x c'].
    + unfold intq_getc. mnorm. rewrite Hi. mnorm. mstep (intq_empty_run s [] H Hi). rewrite bool_decide_eq_true_2 by done. by apply (lock_and_wait_run NotEmpty s []).
    + destruct (getc_run s x c' H Hi) as (s' & E & H' & _ & _ & _ & U & N & L). by exists s'.
  - destruct (Nat.eqb_spec (length c) 63) as [E63|N63].
    + unfold intq_putc. mnorm. rewrite Hi. mnorm. mstep (intq_full_run s c H Hi). rewrite (proj2 (Nat.eqb_eq _ _) E63).
      apply (lock_and_wait_run NotFull s c); try done. cbn. by rewrite E63.
    + destruct (putc_run s c byte H Hi N63) as (s' & E & H' & _ & _ & _ & U & N & L). by exists s'.
Qed.

Definition demo_intq : intq := Intq None NULL 7 (replicate 64 0) 63 63.
Definition demo_ist : ist := ISt demo_intq true true 5 [].

Lemma intq_is_bounded_fifo_witness :
  exists s1 s2, intq_putc 42 demo_ist = Ok (Done tt, s1) /\ unblocked s1 = [7] /\ intq_getc s1 = Ok (Done 42, s2).
Proof.
  destruct (intq_is_bounded_fifo demo_ist [] 42) as [_ (s1 & E1 & H1 & U1 & _)]; [split; cbn; done|reflexivity|].
  destruct (intq_is_bounded_fifo s1 [42] 0 H1) as [(s2 & E2 & _) _].
  - revert E1. vm_compute. intros [= <-]. reflexivity.
  - exists s1, s2. split; [exact E1|]. split; [exact U1|exact E2].
Defined.

(** Two readers of one queue.  Thread 5 sleeps in [wait]; thread 6 finds the
    queue empty and sleeps in [lock_acquire]; two bytes arrive; thread 5 takes
    one of them.  Thread 6 gets the lock and runs into the assertion of
    [wait], which does not hold any more: [intq_getc] tests the queue before it
    acquires the lock and not again. *)
Definition as_thread (t : Z) : M ist unit := modify (fun s => ISt (q s) true false t (unblocked s)).
Definition as_handler : M ist unit := modify (fun s => ISt (q s) true true (current s) (unblocked s)).

Example second_reader_panics :
  (intq_init;; as_thread 5;; r1 ← intq_getc; as_thread 6;; r2 ← intq_getc;
   as_handler;; intq_putc 97;; intq_putc 98;; as_thread 5;; r3 ← getc_woken;
   ASSERT (bool_decide (r1 = Asleep /\ r2 = AtLock /\ r3 = Done 97));; get)
    (ISt (Intq None 0 0 (replicate 64 0) 0 0) true false 5 [])
    = Ok (ISt (Intq None 0 0 (97 :: 98 :: replicate 62 0) 2 1) true false 5 [5],
          ISt (Intq None 0 0 (97 :: 98 :: replicate 62 0) 2 1) true false 5 [5]) /\
  (as_thread 6;; getc_locked) (ISt (Intq None 0 0 (97 :: 98 :: replicate 62 0) 2 1) true false 5 [5]) = Panic.
Proof. split; vm_compute; reflexivity. Qed.
