(* ===== verification/Ports.v ===== *)
(** * Device registers (include/threads/io.h)

    What a driver does to a device is the sequence of its port accesses; what
    the device answers is not known, so the values that the coming reads
    deliver are part of the state, and theorems hold for all of them.  When
    they are used up the run ends in [NoFuel]: the driver is still waiting. *)

From S2P Require Import Prelude.

(** One access to a port; a read is recorded with its value. *)
Inductive access := In (port value : Z) | Out (port value : Z).

#[export] Instance access_eq_dec : EqDecision access.
Proof. solve_decision. Defined.

Record io := IO { answers : list Z; trace : list access }.

Definition inb (port : Z) : M io Z := fun d =>
  match answers d with
  | [] => NoFuel
  | v :: l => Ok (v, IO l (trace d ++ [In port v]))
  end.
Definition outb (port data : Z) : M io unit := modify (fun d => IO (answers d) (trace d ++ [Out port data])).

(** A word of 16 bits. *)
Definition outw (port data : Z) : M io unit := modify (fun d => IO (answers d) (trace d ++ [Out port (u16 data)])).

(** [insw] and [outsw]: [cnt] words of 16 bits, one after the other. *)
Fixpoint insw (port : Z) (cnt : nat) : M io (list Z) :=
  match cnt with O => ret [] | S n => v ← inb port; l ← insw port n; ret (v :: l) end.
Fixpoint outsw (port : Z) (words : list Z) : M io unit :=
  match words with [] => ret tt | w :: l => outb port w;; outsw port l end.

(** The values written to a port, in order. *)
Definition writes_to (port : Z) (a : access) : option Z := match a with Out p v => if p =? port then Some v else None | In _ _ => None end.
Definition written_to (port : Z) (l : list access) : list Z := omap (writes_to port) l.

Lemma written_to_app port l k : written_to port (l ++ k) = written_to port l ++ written_to port k.
Proof. apply omap_app. Qed.

Lemma insw_run port n ws rest tr : length ws = n -> insw port n (IO (ws ++ rest) tr) = Ok (ws, IO rest (tr ++ (In port <$> ws))).
Proof.
  revert ws tr. induction n as [|n IH]; intros [|w ws] tr Hl; try done; cbn [insw app].
  - by rewrite app_nil_r.
  - assert (inb port (IO (w :: ws ++ rest) tr) = Ok (w, IO (ws ++ rest) (tr ++ [In port w]))) as E by done. mstep E.
    injection Hl as Hl. mstep (IH ws (tr ++ [In port w]) Hl). cbn [fmap list_fmap]. by rewrite <- app_assoc.
Qed.

Lemma outsw_run port ws d : outsw port ws d = Ok (tt, IO (answers d) (trace d ++ (Out port <$> ws))).
Proof.
  revert d. induction ws as [|w ws IH]; intros d; cbn [outsw]; [rewrite app_nil_r; by destruct d|]. unfold outb. mnorm. rewrite IH. cbn.
  by rewrite <- app_assoc.
Qed.
