(* ===== verification/Descriptors.v ===== *)
(** * Descriptors (threads/interrupt.c, userprog/gdt.c, userprog/syscall.c)

    Interrupt gates and segment descriptors as the bits that the processor
    reads, and the registers that [syscall_init] sets. *)

From S2P Require Import Prelude.

(** ** Bit fields *)

(** The bit fields of a structure, from the lowest bit on: widths and values. *)
Fixpoint pack (l : list (Z * Z)) : Z := match l with [] => 0 | (w, v) :: l => v mod 2 ^ w + 2 ^ w * pack l end.
Definition width (l : list (Z * Z)) : Z := foldr (fun p n => p.1 + n) 0 l.
(** The [w] bits from bit [ofs] on. *)
Definition bits (ofs w x : Z) : Z := x / 2 ^ ofs mod 2 ^ w.

Lemma width_nonneg l : Forall (fun p => 0 <= p.1) l -> 0 <= width l.
Proof. unfold width. induction 1 as [|p l Hp _ IH]; cbn [foldr]; lia. Qed.

Lemma bits_pack l w v k : Forall (fun p => 0 <= p.1) l -> 0 <= w -> bits (width l) w (pack (l ++ (w, v) :: k)) = v mod 2 ^ w.
Proof.
  intros Hl Hw. unfold bits. induction Hl as [|[w0 v0] l Hp Hl IH]; cbn [app pack width foldr fst].
  - rewrite Z.pow_0_r, Z.div_1_r, Z.mul_comm, Z_mod_plus_full. apply Z.mod_mod. pose proof (Z.pow_pos_nonneg 2 w); lia.
  - cbn [fst] in Hp. pose proof (width_nonneg l Hl) as Hwl. unfold width in *. pose proof (Z.pow_pos_nonneg 2 w0 ltac:(lia) Hp) as H2.
    rewrite Z.pow_add_r, <- Z.div_div by (try apply Z.pow_nonzero; try apply Z.pow_pos_nonneg; lia). rewrite (Z.mul_comm (2 ^ w0)), Z.div_add by lia.
    rewrite (Z.div_small (v0 mod _)) by (apply Z.mod_pos_bound; lia). rewrite Z.add_0_l. exact IH.
Qed.

(** ** Gates (interrupt.c) *)

Definition SEL_KCSEG : Z := 0x08.
Definition SEL_KDSEG : Z := 0x10.
Definition SEL_UDSEG : Z := 0x1B.
Definition SEL_UCSEG : Z := 0x23.
Definition SEL_TSS : Z := 0x28.

Record gate := Gate {
  off_15_0 : Z; g_ss : Z; g_ist : Z; g_rsv1 : Z; g_type : Z; g_s : Z; g_dpl : Z; g_p : Z; off_31_16 : Z; off_32_63 : Z; g_rsv2 : Z }.

(** [(struct gate) { ... }] in [make_gate], after its assertions. *)
Definition gate_value (function d t : Z) : gate :=
  Gate (Z.land function 0xffff) SEL_KCSEG 0 0 t 0 d 1 (Z.land (Z.shiftr function 16) 0xffff) (Z.land (Z.shiftr function 32) 0xffffffff) 0.
Definition make_gate (function d t : Z) : result gate :=
  let! _ := rassert (negb (function =? NULL)) in
  let! _ := rassert ((0 <=? d) && (d <=? 3)) in
  let! _ := rassert ((0 <=? t) && (t <=? 15)) in
  Ok (gate_value function d t).
Definition make_intr_gate (function dpl : Z) : result gate := make_gate function dpl 14.
Definition make_trap_gate (function dpl : Z) : result gate := make_gate function dpl 15.

(** The structure in memory. *)
Definition gate_fields (g : gate) : list (Z * Z) :=
  [(16, off_15_0 g); (16, g_ss g); (3, g_ist g); (5, g_rsv1 g); (4, g_type g); (1, g_s g); (2, g_dpl g); (1, g_p g); (16, off_31_16 g); (32, off_32_63 g); (32, g_rsv2 g)].
Definition gate_bits (g : gate) : Z := pack (gate_fields g).

(** ** What the processor reads *)

(** An entry of the interrupt descriptor table in 64-bit mode: entry point, code
    segment, stack table index, type, privilege level for software interrupts,
    and presence. *)
Record vector := Vector { v_entry : Z; v_selector : Z; v_ist : Z; v_type : Z; v_dpl : Z; v_present : Z }.
Definition read_gate (x : Z) : vector :=
  Vector (bits 0 16 x + 2 ^ 16 * bits 48 16 x + 2 ^ 32 * bits 64 32 x) (bits 16 16 x) (bits 32 3 x) (bits 40 4 x) (bits 45 2 x) (bits 47 1 x).

Lemma land_mask x n : 0 <= n -> Z.land x (2 ^ n - 1) = x mod 2 ^ n.
Proof. intros H. rewrite <- Z.land_ones by done. by rewrite Z.ones_equiv, Z.sub_1_r. Qed.

Lemma gate_bits_at g l w v k : gate_fields g = l ++ (w, v) :: k -> Forall (fun p => 0 <= p.1) l -> 0 <= w -> bits (width l) w (gate_bits g) = v mod 2 ^ w.
Proof. intros E. unfold gate_bits. rewrite E. apply bits_pack. Qed.

(** The processor finds what the gate was made for. *)
Lemma read_gate_value function d t : 0 <= function < 2 ^ 64 -> 0 <= d <= 3 -> 0 <= t <= 15 -> read_gate (gate_bits (gate_value function d t)) = Vector function SEL_KCSEG 0 t d 1.
Proof.
  intros Hf Hd Ht. set (g := gate_value function d t). unfold read_gate.
  pose proof (gate_bits_at g (take 0 (gate_fields g)) _ _ _ eq_refl ltac:(by repeat constructor) ltac:(lia)) as E0. pose proof (gate_bits_at g (take 1 (gate_fields g)) _ _ _ eq_refl ltac:(by repeat constructor) ltac:(lia)) as E1.
  pose proof (gate_bits_at g (take 2 (gate_fields g)) _ _ _ eq_refl ltac:(by repeat constructor) ltac:(lia)) as E2. pose proof (gate_bits_at g (take 4 (gate_fields g)) _ _ _ eq_refl ltac:(by repeat constructor) ltac:(lia)) as E4.
  pose proof (gate_bits_at g (take 6 (gate_fields g)) _ _ _ eq_refl ltac:(by repeat constructor) ltac:(lia)) as E6. pose proof (gate_bits_at g (take 7 (gate_fields g)) _ _ _ eq_refl ltac:(by repeat constructor) ltac:(lia)) as E7.
  pose proof (gate_bits_at g (take 8 (gate_fields g)) _ _ _ eq_refl ltac:(by repeat constructor) ltac:(lia)) as E8. pose proof (gate_bits_at g (take 9 (gate_fields g)) _ _ _ eq_refl ltac:(by repeat constructor) ltac:(lia)) as E9.
  change (width (take 0 (gate_fields g))) with 0 in E0. change (width (take 1 (gate_fields g))) with 16 in E1. change (width (take 2 (gate_fields g))) with 32 in E2. change (width (take 4 (gate_fields g))) with 40 in E4.
  change (width (take 6 (gate_fields g))) with 45 in E6. change (width (take 7 (gate_fields g))) with 47 in E7. change (width (take 8 (gate_fields g))) with 48 in E8. change (width (take 9 (gate_fields g))) with 64 in E9.
  rewrite E0, E1, E2, E4, E6, E7, E8, E9. clear E0 E1 E2 E4 E6 E7 E8 E9. unfold g, gate_value. cbn [off_15_0 g_ss g_ist g_type g_dpl g_p off_31_16 off_32_63].
  rewrite !Z.shiftr_div_pow2 by lia. change 0xffff with (2 ^ 16 - 1). change 0xffffffff with (2 ^ 32 - 1). rewrite !land_mask, !Z.mod_mod by lia.
  rewrite (Z.mod_small t), (Z.mod_small d) by lia. f_equal. rewrite (Z.mod_small (function / 2 ^ 32)) by (split; [apply Z.div_pos; lia|apply Z.div_lt_upper_bound; lia]).
  pose proof (Z.div_mod function (2 ^ 16) ltac:(lia)). pose proof (Z.div_mod (function / 2 ^ 16) (2 ^ 16) ltac:(lia)). rewrite Z.div_div in * by lia. change (2 ^ 16 * 2 ^ 16) with (2 ^ 32) in *. lia.
Qed.

(** ** Segments (gdt.c) *)

Record segment_desc := SegmentDesc {
  lim_15_0 : Z; base_15_0 : Z; base_23_16 : Z; s_type : Z; s_s : Z; s_dpl : Z; s_p : Z; lim_19_16 : Z; s_avl : Z; s_l : Z; s_db : Z; s_g : Z; base_31_24 : Z }.
Definition segment_fields (d : segment_desc) : list (Z * Z) :=
  [(16, lim_15_0 d); (16, base_15_0 d); (8, base_23_16 d); (4, s_type d); (1, s_s d); (2, s_dpl d); (1, s_p d); (4, lim_19_16 d); (1, s_avl d); (1, s_l d); (1, s_db d); (1, s_g d); (8, base_31_24 d)].
Definition SEG64 (type base lim dpl : Z) : segment_desc :=
  SegmentDesc (Z.land (Z.shiftr lim 12) 0xffff) (Z.land base 0xffff) (Z.land (Z.shiftr base 16) 0xff) type 1 dpl 1 (Z.shiftr (u32 lim) 28) 0 1 0 1 (Z.shiftr (u32 base) 24).
Definition null_desc : segment_desc := SegmentDesc 0 0 0 0 0 0 0 0 0 0 0 0 0.

(** [gdt]: the descriptors as 64-bit words. *)
Definition gdt : list Z :=
  (fun d => pack (segment_fields d)) <$>
  [null_desc; SEG64 0xa 0x0 0xffffffff 0; SEG64 0x2 0x0 0xffffffff 0; SEG64 0x2 0x0 0xffffffff 3; SEG64 0xa 0x0 0xffffffff 3; null_desc; null_desc; null_desc].

Record segment_descriptor64 := SegmentDescriptor64 {
  t_lim_15_0 : Z; t_base_15_0 : Z; t_base_23_16 : Z; t_type : Z; t_s : Z; t_dpl : Z; t_p : Z; t_lim_19_16 : Z; t_avl : Z; t_rsv1 : Z; t_g : Z; t_base_31_24 : Z; t_base_63_32 : Z;
  t_res1 : Z; t_clear : Z; t_res2 : Z }.
Definition descriptor64_fields (d : segment_descriptor64) : list (Z * Z) :=
  [(16, t_lim_15_0 d); (16, t_base_15_0 d); (8, t_base_23_16 d); (4, t_type d); (1, t_s d); (2, t_dpl d); (1, t_p d); (4, t_lim_19_16 d); (1, t_avl d); (2, t_rsv1 d); (1, t_g d); (8, t_base_31_24 d);
   (32, t_base_63_32 d); (8, t_res1 d); (8, t_clear d); (16, t_res2 d)].

(** ** Task state (tss.c) *)

Definition sizeof_task_state : Z := 104.
(** [struct task_state], packed. *)
Record task_state := TaskState { res1 : Z; rsp0 : Z; rsp1 : Z; rsp2 : Z; res2 : Z; ist : list Z; res3 : Z; res4 : Z; iomb : Z }.
Definition task_fields (t : task_state) : list (Z * Z) :=
  [(32, res1 t); (64, rsp0 t); (64, rsp1 t); (64, rsp2 t); (64, res2 t)] ++ (pair 64 <$> ist t) ++ [(64, res3 t); (16, res4 t); (16, iomb t)].

Definition PGSIZE : Z := 4096.
Definition tss_update (next : Z) (t : task_state) : task_state := TaskState (res1 t) (u64 (next + PGSIZE)) (rsp1 t) (rsp2 t) (res2 t) (ist t) (res3 t) (res4 t) (iomb t).
(** [tss_init] on a page of zeros. *)
Definition tss_init (current : Z) : task_state := tss_update current (TaskState 0 0 0 0 0 (replicate 7 0) 0 0 0).

Definition tss_desc (tss : Z) : segment_descriptor64 :=
  SegmentDescriptor64 (Z.land sizeof_task_state 0xffff) (Z.land tss 0xffff) (Z.land (Z.shiftr tss 16) 0xff) 0x9 0 0 1 (Z.land (Z.shiftr sizeof_task_state 16) 0xf) 0 0 0
    (Z.land (Z.shiftr tss 24) 0xff) (Z.land (Z.shiftr tss 32) 0xffffffff) 0 0 0.
(** [gdt_init]: the descriptor takes two entries. *)
Definition gdt_init (tss : Z) : list Z :=
  let x := pack (descriptor64_fields (tss_desc tss)) in
  <[Z.to_nat (Z.shiftr SEL_TSS 3 + 1) := x / 2 ^ 64]> (<[Z.to_nat (Z.shiftr SEL_TSS 3) := x mod 2 ^ 64]> gdt).

(** ** System calls (syscall.c) *)

Definition FLAG_IF : Z := Z.shiftl 1 9.
Definition syscall_mask : Z :=
  Z.lor (Z.lor (Z.lor (Z.lor (Z.lor FLAG_IF (Z.shiftl 1 8)) (Z.shiftl 1 10)) (Z.shiftl 3 12)) (Z.shiftl 1 18)) (Z.shiftl 1 14).
(** The model-specific registers [MSR_STAR], [MSR_LSTAR] and [MSR_SYSCALL_MASK]. *)
Definition syscall_init (syscall_entry : Z) : Z * Z * Z :=
  (Z.lor (Z.shiftl (SEL_UCSEG - 0x10) 48) (Z.shiftl SEL_KCSEG 32), syscall_entry, syscall_mask).

(** ** What the processor reads *)

(** A code or data segment: limit, type, system flag, privilege, presence, 64-bit
    code, granularity. *)
Record segment := Segment { limit : Z; typ : Z; code_data : Z; priv : Z; present : Z; long : Z; pages : Z }.
Definition read_segment (x : Z) : segment :=
  Segment (bits 0 16 x + 2 ^ 16 * bits 48 4 x) (bits 40 4 x) (bits 44 1 x) (bits 45 2 x) (bits 47 1 x) (bits 53 1 x) (bits 55 1 x).
(** The base and limit of a task state segment, from its two entries. *)
Definition read_tss (lo hi : Z) : Z * Z :=
  (bits 16 24 lo + 2 ^ 24 * bits 56 8 lo + 2 ^ 32 * bits 0 32 hi, bits 0 16 lo + 2 ^ 16 * bits 48 4 lo).
(** A selector: the index of its entry and the privilege it asks for. *)
Definition index_of (sel : Z) : Z := sel / 8.
Definition rpl (sel : Z) : Z := sel mod 4.

(** The selectors that [syscall] and [sysretq] load into cs and ss. *)
Definition syscall_cs (star : Z) : Z := bits 32 16 star.
Definition syscall_ss (star : Z) : Z := bits 32 16 star + 8.
Definition sysret_cs (star : Z) : Z := Z.lor (bits 48 16 star + 16) 3.
Definition sysret_ss (star : Z) : Z := Z.lor (bits 48 16 star + 8) 3.

(** The permission of a user program for a byte port: the bitmap begins [iomb]
    bytes into the segment, and a port whose byte lies beyond the limit is
    not allowed. *)
Definition port_allowed (tss_bits tss_limit port : Z) : bool :=
  let base := bits 816 16 tss_bits in
  (base + port / 8 + 1 <=? tss_limit) && (bits (8 * base + port) 1 tss_bits =? 0).

(** ** Lemmas on bits *)

Lemma bits_split ofs a b x : 0 <= ofs -> 0 <= a -> 0 <= b -> bits ofs (a + b) x = bits ofs a x + 2 ^ a * bits (ofs + a) b x.
Proof.
  intros H1 H2 H3. unfold bits. pose proof (Z.pow_pos_nonneg 2 a ltac:(lia) H2). pose proof (Z.pow_pos_nonneg 2 b ltac:(lia) H3). pose proof (Z.pow_pos_nonneg 2 ofs ltac:(lia) H1).
  rewrite !Z.pow_add_r, <- Z.div_div by lia. rewrite Z.rem_mul_r by lia. lia.
Qed.
Lemma bits_low ofs w k x : 0 <= ofs -> 0 <= w -> ofs + w <= k -> bits ofs w (x mod 2 ^ k) = bits ofs w x.
Proof.
  intros H1 H2 H3. unfold bits. rewrite <- !Z.shiftr_div_pow2, <- !Z.land_ones by lia. apply Z.bits_inj'. intros n Hn. rewrite !Z.land_spec, !Z.shiftr_spec, Z.land_spec by lia.
  destruct (decide (n < w)) as [Hlt|Hge]; [|rewrite (Z.ones_spec_high w n), !andb_false_r by lia; done]. rewrite (Z.ones_spec_low k) by lia. by rewrite andb_true_r.
Qed.
Lemma bits_high ofs w k x : 0 <= ofs -> 0 <= k -> bits ofs w (x / 2 ^ k) = bits (k + ofs) w x.
Proof. intros H1 H2. unfold bits. rewrite Z.pow_add_r, Z.div_div by (try apply Z.pow_nonzero; try apply Z.pow_pos_nonneg; lia). done. Qed.

Lemma tss_bits_at tss l w v k : descriptor64_fields (tss_desc tss) = l ++ (w, v) :: k -> Forall (fun p => 0 <= p.1) l -> 0 <= w ->
  bits (width l) w (pack (descriptor64_fields (tss_desc tss))) = v mod 2 ^ w.
Proof. intros E. rewrite E. apply bits_pack. Qed.

Lemma read_tss_desc tss : 0 <= tss < 2 ^ 64 -> let x := pack (descriptor64_fields (tss_desc tss)) in read_tss (x mod 2 ^ 64) (x / 2 ^ 64) = (tss, sizeof_task_state).
Proof.
  intros Ht x. unfold read_tss. rewrite !bits_low, bits_high by lia. change (64 + 0) with 64. change (bits 16 24 x) with (bits 16 (16 + 8) x). rewrite bits_split by lia. change (16 + 16) with 32.
  set (d := tss_desc tss).
  pose proof (tss_bits_at tss (take 0 (descriptor64_fields d)) _ _ _ eq_refl ltac:(by repeat constructor) ltac:(lia)) as E0. pose proof (tss_bits_at tss (take 1 (descriptor64_fields d)) _ _ _ eq_refl ltac:(by repeat constructor) ltac:(lia)) as E1.
  pose proof (tss_bits_at tss (take 2 (descriptor64_fields d)) _ _ _ eq_refl ltac:(by repeat constructor) ltac:(lia)) as E2. pose proof (tss_bits_at tss (take 7 (descriptor64_fields d)) _ _ _ eq_refl ltac:(by repeat constructor) ltac:(lia)) as E7.
  pose proof (tss_bits_at tss (take 11 (descriptor64_fields d)) _ _ _ eq_refl ltac:(by repeat constructor) ltac:(lia)) as E11. pose proof (tss_bits_at tss (take 12 (descriptor64_fields d)) _ _ _ eq_refl ltac:(by repeat constructor) ltac:(lia)) as E12.
  change (width (take 0 (descriptor64_fields d))) with 0 in E0. change (width (take 1 (descriptor64_fields d))) with 16 in E1. change (width (take 2 (descriptor64_fields d))) with 32 in E2.
  change (width (take 7 (descriptor64_fields d))) with 48 in E7. change (width (take 11 (descriptor64_fields d))) with 56 in E11. change (width (take 12 (descriptor64_fields d))) with 64 in E12.
  fold x in E0, E1, E2, E7, E11, E12. rewrite E0, E1, E2, E7, E11, E12. clear E0 E1 E2 E7 E11 E12. f_equal. unfold d, tss_desc. cbn [t_base_15_0 t_base_23_16 t_base_31_24 t_base_63_32].
  rewrite !Z.shiftr_div_pow2 by lia. change 0xffff with (2 ^ 16 - 1). change 0xff with (2 ^ 8 - 1). change 0xffffffff with (2 ^ 32 - 1). rewrite !land_mask, !Z.mod_mod by lia.
  rewrite (Z.mod_small (tss / 2 ^ 32)) by (split; [apply Z.div_pos; lia|apply Z.div_lt_upper_bound; lia]).
  pose proof (Z.div_mod tss (2 ^ 16) ltac:(lia)). pose proof (Z.div_mod (tss / 2 ^ 16) (2 ^ 8) ltac:(lia)). pose proof (Z.div_mod (tss / 2 ^ 24) (2 ^ 8) ltac:(lia)). rewrite !Z.div_div in * by lia.
  change (2 ^ 16 * 2 ^ 8) with (2 ^ 24) in *. change (2 ^ 24 * 2 ^ 8) with (2 ^ 32) in *. lia.
Qed.

Lemma tss_init_bits current : pack (task_fields (tss_init current)) = 2 ^ 32 * u64 (current + PGSIZE).
Proof.
  unfold tss_init, tss_update, task_fields. cbn [res1 rsp0 rsp1 rsp2 res2 ist res3 res4 iomb app fmap list_fmap replicate pack]. rewrite !Z.mod_0_l by (by vm_compute).
  rewrite Z.add_0_l, !Z.mul_0_r, !Z.add_0_r. unfold wrapu. by rewrite Z.mod_mod.
Qed.

Lemma tss_ports current port : 96 <= port < 824 -> port_allowed (pack (task_fields (tss_init current))) sizeof_task_state port = true.
Proof.
  intros Hp. rewrite tss_init_bits. pose proof (wrapu_range 64 (current + PGSIZE) ltac:(lia)) as Hr. unfold is_u in Hr. unfold port_allowed, bits.
  rewrite (Z.div_small _ (2 ^ 816)) by (split; [lia|]; apply Z.lt_trans with (2 ^ 32 * 2 ^ 64); [lia|by vm_compute]). change (0 mod 2 ^ 16) with 0. rewrite Z.mul_0_r, !Z.add_0_l.
  rewrite (Z.div_small _ (2 ^ port)) by (split; [lia|]; apply Z.lt_le_trans with (2 ^ 96); [change (2 ^ 96) with (2 ^ 32 * 2 ^ 64); lia|apply Z.pow_le_mono_r; lia]).
  assert (port / 8 < 103) by (apply Z.div_lt_upper_bound; lia). rewrite (proj2 (Z.leb_le _ _)) by (unfold sizeof_task_state; lia). done.
Qed.

(** C24: The tables of the processor say what the kernel means.  The selectors of
    kernel and user code and data lead to 64-bit segments of their type with
    the privilege level that the selector itself asks for; the task state
    descriptor holds the address of the task state; an interrupt gate is read
    back as the entry point, privilege level and type it was made with; and
    [syscall] and [sysretq] switch to exactly these selectors, with interrupts
    off on entry.  But the task state leaves the offset of the port
    permission bitmap 0, inside the segment, so that user programs have
    access to all ports from 96 to 823, the disk controller's among them. *)
Theorem processor_tables tss current entry function d t : 0 <= tss < 2 ^ 64 -> 0 <= function < 2 ^ 64 -> 0 <= d <= 3 -> 0 <= t <= 15 ->
  Forall (fun '(sel, ty, dpl) => (fun x => read_segment x) <$> gdt_init tss !! Z.to_nat (index_of sel) = Some (Segment 0xfffff ty 1 dpl 1 1 1) /\ rpl sel = dpl)
    [(SEL_KCSEG, 0xa, 0); (SEL_KDSEG, 0x2, 0); (SEL_UDSEG, 0x2, 3); (SEL_UCSEG, 0xa, 3)] /\
  (exists lo hi, gdt_init tss !! Z.to_nat (index_of SEL_TSS) = Some lo /\ gdt_init tss !! Z.to_nat (index_of SEL_TSS + 1) = Some hi /\ read_tss lo hi = (tss, sizeof_task_state)) /\
  read_gate (gate_bits (gate_value function d t)) = Vector function SEL_KCSEG 0 t d 1 /\
  (let '(star, lstar, mask) := syscall_init entry in
   (syscall_cs star, syscall_ss star, sysret_cs star, sysret_ss star, lstar) = (SEL_KCSEG, SEL_KDSEG, SEL_UCSEG, SEL_UDSEG, entry) /\ Z.land mask FLAG_IF = FLAG_IF) /\
  forall port, 96 <= port < 824 -> port_allowed (pack (task_fields (tss_init current))) sizeof_task_state port = true.
Proof.
  intros Ht Hf Hd Hty. split; [|split; [|split; [by apply read_gate_value|split; [by split; vm_compute|apply tss_ports]]]].
  - repeat apply Forall_cons_2; try apply Forall_nil_2; (split; [|reflexivity]); unfold gdt_init; rewrite !list_lookup_insert_ne by (vm_compute; discriminate); vm_compute; reflexivity.
  - set (x := pack (descriptor64_fields (tss_desc tss))). exists (x mod 2 ^ 64), (x / 2 ^ 64).
    split; [unfold gdt_init; rewrite list_lookup_insert_ne by (vm_compute; discriminate); apply list_lookup_insert_eq; vm_compute; lia|].
    split; [unfold gdt_init; apply list_lookup_insert_eq; rewrite length_insert; vm_compute; lia|]. by apply read_tss_desc.
Qed.

Lemma processor_tables_witness : read_gate (gate_bits (gate_value 0x8004201234 3 15)) = Vector 0x8004201234 SEL_KCSEG 0 15 3 1 /\
  port_allowed (pack (task_fields (tss_init 0x8004100000))) sizeof_task_state 0x1f0 = true.
Proof.
  destruct (processor_tables 0x8004300000 0x8004100000 0x8004205678 0x8004201234 3 15 ltac:(lia) ltac:(lia) ltac:(lia) ltac:(lia)) as (_ & _ & H1 & _ & H2). split; [exact H1|exact (H2 0x1f0 ltac:(lia))].
Defined.
