(* ===== verification/Interrupt.v ===== *)
(** * Interrupts and exceptions (threads/interrupt.c, userprog/exception.c)

    The interrupt descriptor table, the handlers, the interrupt controllers and
    the dispatch of interrupts, faults and exceptions. *)

From Stdlib Require Import String.
From S2P Require Import Prelude Ports Descriptors.
Local Open Scope string_scope.
Local Open Scope Z_scope.
Local Notation length := List.length.

(** ** State *)

Definition INTR_CNT : nat := 256.

(** [struct gp_registers] and [struct intr_frame]. *)
Record gp_registers := Registers {
  r15 : Z; r14 : Z; r13 : Z; r12 : Z; r11 : Z; r10 : Z; r9 : Z; r8 : Z; rsi : Z; rdi : Z; rbp : Z; rdx : Z; rcx : Z; rbx : Z; rax : Z }.
Record intr_frame := Frame { R : gp_registers; es : Z; ds : Z; vec_no : Z; error_code : Z; rip : Z; cs : Z; eflags : Z; rsp : Z; ss : Z }.

(** An argument of [printf]. *)
Inductive arg := Str (s : string) | Num (n : Z).

(** A handler is a function pointer, [NULL] when there is none.  [intr_on] is the
    interrupt flag and [cr2] the register of that name; [tr] and [idtr] are
    whether the task register and the table register have been loaded.
    [yields] counts the calls of [thread_yield] and [printed] holds those of
    [printf].  [name] is the name of the running thread. *)
Record istate := IState {
  idt : list gate; intr_handlers : list Z; intr_names : list string; in_external_intr : bool; yield_on_return : bool;
  intr_on : bool; pic : io; tr : Z; idtr : bool; cr2 : Z; yields : Z; printed : list (string * list arg); name : string; page_fault_cnt : Z }.

Definition set_idt l (s : istate) := IState l (intr_handlers s) (intr_names s) (in_external_intr s) (yield_on_return s) (intr_on s) (pic s) (tr s) (idtr s) (cr2 s) (yields s) (printed s) (name s) (page_fault_cnt s).
Definition set_handlers l (s : istate) := IState (idt s) l (intr_names s) (in_external_intr s) (yield_on_return s) (intr_on s) (pic s) (tr s) (idtr s) (cr2 s) (yields s) (printed s) (name s) (page_fault_cnt s).
Definition set_names l (s : istate) := IState (idt s) (intr_handlers s) l (in_external_intr s) (yield_on_return s) (intr_on s) (pic s) (tr s) (idtr s) (cr2 s) (yields s) (printed s) (name s) (page_fault_cnt s).
Definition set_external b (s : istate) := IState (idt s) (intr_handlers s) (intr_names s) b (yield_on_return s) (intr_on s) (pic s) (tr s) (idtr s) (cr2 s) (yields s) (printed s) (name s) (page_fault_cnt s).
Definition set_yield b (s : istate) := IState (idt s) (intr_handlers s) (intr_names s) (in_external_intr s) b (intr_on s) (pic s) (tr s) (idtr s) (cr2 s) (yields s) (printed s) (name s) (page_fault_cnt s).
Definition set_on b (s : istate) := IState (idt s) (intr_handlers s) (intr_names s) (in_external_intr s) (yield_on_return s) b (pic s) (tr s) (idtr s) (cr2 s) (yields s) (printed s) (name s) (page_fault_cnt s).
Definition set_pic d (s : istate) := IState (idt s) (intr_handlers s) (intr_names s) (in_external_intr s) (yield_on_return s) (intr_on s) d (tr s) (idtr s) (cr2 s) (yields s) (printed s) (name s) (page_fault_cnt s).
Definition set_tables t b (s : istate) := IState (idt s) (intr_handlers s) (intr_names s) (in_external_intr s) (yield_on_return s) (intr_on s) (pic s) t b (cr2 s) (yields s) (printed s) (name s) (page_fault_cnt s).
Definition set_yields n (s : istate) := IState (idt s) (intr_handlers s) (intr_names s) (in_external_intr s) (yield_on_return s) (intr_on s) (pic s) (tr s) (idtr s) (cr2 s) n (printed s) (name s) (page_fault_cnt s).
Definition set_printed l (s : istate) := IState (idt s) (intr_handlers s) (intr_names s) (in_external_intr s) (yield_on_return s) (intr_on s) (pic s) (tr s) (idtr s) (cr2 s) (yields s) l (name s) (page_fault_cnt s).
Definition set_faults n (s : istate) := IState (idt s) (intr_handlers s) (intr_names s) (in_external_intr s) (yield_on_return s) (intr_on s) (pic s) (tr s) (idtr s) (cr2 s) (yields s) (printed s) (name s) n.

Definition on_pic {A} (f : M io A) : M istate A := fun s => let! (a, d) := f (pic s) in Ok (a, set_pic d s).
(** Every format below ends with a newline, which is added here. *)
Definition newline : string := String (Ascii.ascii_of_nat 10) EmptyString.
Definition printf (format : string) (args : list arg) : M istate unit := let format := format ++ newline in modify (fun s => set_printed (printed s ++ [(format, args)])%list s).
Definition thread_yield : M istate unit := modify (fun s => set_yields (yields s + 1) s).

(** ** Level *)

Definition intr_get_level : M istate bool := s ← get; ret (intr_on s).
Definition intr_context : M istate bool := s ← get; ret (in_external_intr s).
Definition intr_enable : M istate bool := old ← intr_get_level; c ← intr_context; ASSERT (negb c);; modify (set_on true);; ret old.
Definition intr_disable : M istate bool := old ← intr_get_level; modify (set_on false);; ret old.
Definition intr_set_level (level : bool) : M istate bool := if level then intr_enable else intr_disable.
Definition intr_yield_on_return : M istate unit := c ← intr_context; ASSERT c;; modify (set_yield true).

(** ** The interrupt controllers *)

Definition pic_init : M istate unit :=
  on_pic (outb 0x21 0xff);; on_pic (outb 0xa1 0xff);;
  on_pic (outb 0x20 0x11);; on_pic (outb 0x21 0x20);; on_pic (outb 0x21 0x04);; on_pic (outb 0x21 0x01);;
  on_pic (outb 0xa0 0x11);; on_pic (outb 0xa1 0x28);; on_pic (outb 0xa1 0x02);; on_pic (outb 0xa1 0x01);;
  on_pic (outb 0x21 0x00);; on_pic (outb 0xa1 0x00).

Definition pic_end_of_interrupt (irq : Z) : M istate unit :=
  ASSERT ((0x20 <=? irq) && (irq <? 0x30));;
  on_pic (outb 0x20 0x20);;
  if 0x28 <=? irq then on_pic (outb 0xa0 0x20) else ret tt.

(** ** The table *)

(** The entry points of the assembly stubs. *)
Section Stubs.
Context (intr_stubs : Z -> Z).

Definition set_gate (vec : Z) (g : gate) : M istate unit := modify (fun s => set_idt (<[Z.to_nat vec := g]> (idt s)) s).
Definition set_handler (vec h : Z) : M istate unit := modify (fun s => set_handlers (<[Z.to_nat vec := h]> (intr_handlers s)) s).
Definition set_name (vec : Z) (n : string) : M istate unit := modify (fun s => set_names (<[Z.to_nat vec := n]> (intr_names s)) s).

(** [for (i = 0; i < INTR_CNT; i++)]: [n] rounds are left. *)
Fixpoint init_gates (n : nat) (i : Z) : M istate unit :=
  match n with
  | O => ret tt
  | S n => g ← lift (make_intr_gate (intr_stubs i) 0); set_gate i g;; set_name i "unknown";; init_gates n (i + 1)
  end.

Definition exception_names : list (Z * string) :=
  [(0, "#DE Divide Error"); (1, "#DB Debug Exception"); (2, "NMI Interrupt"); (3, "#BP Breakpoint Exception"); (4, "#OF Overflow Exception");
   (5, "#BR BOUND Range Exceeded Exception"); (6, "#UD Invalid Opcode Exception"); (7, "#NM Device Not Available Exception");
   (8, "#DF Double Fault Exception"); (9, "Coprocessor Segment Overrun"); (10, "#TS Invalid TSS Exception"); (11, "#NP Segment Not Present");
   (12, "#SS Stack Fault Exception"); (13, "#GP General Protection Exception"); (14, "#PF Page-Fault Exception"); (16, "#MF x87 FPU Floating-Point Error");
   (17, "#AC Alignment Check Exception"); (18, "#MC Machine-Check Exception"); (19, "#XF SIMD Floating-Point Exception")].
Fixpoint name_all (l : list (Z * string)) : M istate unit := match l with [] => ret tt | (v, n) :: l => set_name v n;; name_all l end.

Definition intr_init : M istate unit :=
  pic_init;;
  init_gates INTR_CNT 0;;
  modify (fun s => set_tables SEL_TSS (idtr s) s);;
  modify (fun s => set_tables (tr s) true s);;
  name_all exception_names.

(** [vec_no] is a [uint8_t]; [level] is whether interrupts stay on. *)
Definition register_handler (vec_no dpl : Z) (level : bool) (handler : Z) (nm : string) : M istate unit :=
  s ← get;
  h ← lift (deref (intr_handlers s !! Z.to_nat vec_no));
  ASSERT (h =? NULL);;
  g ← lift (if level then make_trap_gate (intr_stubs vec_no) dpl else make_intr_gate (intr_stubs vec_no) dpl);
  set_gate vec_no g;;
  set_handler vec_no handler;;
  set_name vec_no nm.
Definition intr_register_ext (vec_no handler : Z) (nm : string) : M istate unit :=
  ASSERT ((0x20 <=? vec_no) && (vec_no <=? 0x2f));;
  register_handler vec_no 0 false handler nm.
Definition intr_register_int (vec_no dpl : Z) (level : bool) (handler : Z) (nm : string) : M istate unit :=
  ASSERT ((vec_no <? 0x20) || (0x2f <? vec_no));;
  register_handler vec_no dpl level handler nm.

Definition intr_name (vec : Z) : M istate string := s ← get; lift (deref (intr_names s !! Z.to_nat vec)).

(** ** Dumps *)

Definition intr_dump_frame (f : intr_frame) : M istate unit :=
  s ← get;
  n ← intr_name (vec_no f);
  printf "Interrupt %#04llx (%s) at rip=%llx" [Num (vec_no f); Str n; Num (rip f)];;
  printf " cr2=%016llx error=%16llx" [Num (cr2 s); Num (error_code f)];;
  printf "rax %016llx rbx %016llx rcx %016llx rdx %016llx" [Num (rax (R f)); Num (rbx (R f)); Num (rcx (R f)); Num (rdx (R f))];;
  printf "rsp %016llx rbp %016llx rsi %016llx rdi %016llx" [Num (rsp f); Num (rbp (R f)); Num (rsi (R f)); Num (rdi (R f))];;
  printf "rip %016llx r8 %016llx  r9 %016llx r10 %016llx" [Num (rip f); Num (r8 (R f)); Num (r9 (R f)); Num (r10 (R f))];;
  printf "r11 %016llx r12 %016llx r13 %016llx r14 %016llx" [Num (r11 (R f)); Num (r12 (R f)); Num (r13 (R f)); Num (r14 (R f))];;
  printf "r15 %016llx rflags %08llx" [Num (r15 (R f)); Num (eflags f)];;
  printf "es: %04x ds: %04x cs: %04x ss: %04x" [Num (es f); Num (ds f); Num (cs f); Num (ss f)].

(** ** Dispatch *)

(** [call h f] is what the function at [h] does. *)
Definition intr_handler (call : Z -> intr_frame -> M istate unit) (frame : intr_frame) : M istate unit :=
  let external := (0x20 <=? vec_no frame) && (vec_no frame <? 0x30) in
  (if external then
     on ← intr_get_level; ASSERT (negb on);;
     c ← intr_context; ASSERT (negb c);;
     modify (set_external true);; modify (set_yield false)
   else ret tt);;
  s ← get;
  handler ← lift (deref (intr_handlers s !! Z.to_nat (vec_no frame)));
  (if negb (handler =? NULL) then call handler frame
   else if (vec_no frame =? 0x27) || (vec_no frame =? 0x2f) then ret tt
   else intr_dump_frame frame;; lift Panic);;
  (if external then
     on ← intr_get_level; ASSERT (negb on);;
     c ← intr_context; ASSERT c;;
     modify (set_external false);;
     pic_end_of_interrupt (vec_no frame);;
     s ← get; (if yield_on_return s then thread_yield else ret tt)
   else ret tt).

(** ** Exceptions (exception.c) *)

(** The addresses of [kill] and [page_fault]. *)
Context (kill_ptr page_fault_ptr : Z).

Definition exception_init : M istate unit :=
  intr_register_int 3 3 true kill_ptr "#BP Breakpoint Exception";;
  intr_register_int 4 3 true kill_ptr "#OF Overflow Exception";;
  intr_register_int 5 3 true kill_ptr "#BR BOUND Range Exceeded Exception";;
  intr_register_int 0 0 true kill_ptr "#DE Divide Error";;
  intr_register_int 1 0 true kill_ptr "#DB Debug Exception";;
  intr_register_int 6 0 true kill_ptr "#UD Invalid Opcode Exception";;
  intr_register_int 7 0 true kill_ptr "#NM Device Not Available Exception";;
  intr_register_int 11 0 true kill_ptr "#NP Segment Not Present";;
  intr_register_int 12 0 true kill_ptr "#SS Stack Fault Exception";;
  intr_register_int 13 0 true kill_ptr "#GP General Protection Exception";;
  intr_register_int 16 0 true kill_ptr "#MF x87 FPU Floating-Point Error";;
  intr_register_int 19 0 true kill_ptr "#XF SIMD Floating-Point Exception";;
  intr_register_int 14 0 false page_fault_ptr "#PF Page-Fault Exception".

Definition exception_print_stats : M istate unit := s ← get; printf "Exception: %lld page faults" [Num (page_fault_cnt s)].

(** [kill] does not return: either the thread exits or the kernel panics. *)
Inductive fate := Exits.
Definition kill (f : intr_frame) : M istate fate :=
  if cs f =? SEL_UCSEG then
    s ← get; n ← intr_name (vec_no f);
    printf "%s: dying due to interrupt %#04llx (%s)." [Str (name s); Num (vec_no f); Str n];;
    intr_dump_frame f;; ret Exits
  else if cs f =? SEL_KCSEG then intr_dump_frame f;; lift Panic
  else
    n ← intr_name (vec_no f);
    printf "Interrupt %#04llx (%s) in unknown segment %04x" [Num (vec_no f); Str n; Num (cs f)];; ret Exits.

Definition PF_P : Z := 0x1.
Definition PF_W : Z := 0x2.
Definition PF_U : Z := 0x4.
Definition page_fault (f : intr_frame) : M istate fate :=
  s ← get;
  let fault_addr := cr2 s in
  intr_enable;;
  let not_present := Z.land (error_code f) PF_P =? 0 in
  let write := negb (Z.land (error_code f) PF_W =? 0) in
  let user := negb (Z.land (error_code f) PF_U =? 0) in
  modify (fun s => set_faults (s64 (page_fault_cnt s + 1)) s);;
  printf "Page fault at %p: %s error %s page in %s context."
    [Num fault_addr; Str (if not_present then "not present" else "rights violation"); Str (if write then "writing" else "reading"); Str (if user then "user" else "kernel")];;
  kill f.

(** ** System calls (syscall.c) *)

(** The handler prints and calls [thread_exit]. *)
Definition syscall_handler (f : intr_frame) : M istate fate := printf "system call!" [];; ret Exits.

(** ** Boot *)

(** The registrations in the order of [main] of threads/init.c: timer, keyboard,
    exceptions, serial port, disks.  [h] gives the handlers' addresses. *)
Definition boot_interrupts (h : string -> Z) : M istate unit :=
  intr_init;;
  intr_register_ext 0x20 (h "timer_interrupt") "8254 Timer";;
  intr_register_ext 0x21 (h "keyboard_interrupt") "8042 Keyboard";;
  exception_init;;
  intr_register_ext (0x20 + 4) (h "serial_interrupt") "serial";;
  intr_register_ext (14 + 0x20) (h "interrupt_handler") "hd0";;
  intr_register_ext (15 + 0x20) (h "interrupt_handler") "hd1";;
  intr_register_int 0x43 3 false (h "inspect_read_cnt") "Inspect Disk Read Count";;
  intr_register_int 0x44 3 false (h "inspect_write_cnt") "Inspect Disk Write Count".

End Stubs.
