(* ===== verification/InterruptSpec.v ===== *)
(** * The interrupt table and the dispatch (threads/interrupt.c, userprog/exception.c) *)

From Stdlib Require Import String.
From S2P Require Import Prelude Ports Descriptors Interrupt.
Local Open Scope Z_scope.
Local Notation length := List.length.

(** ** The table *)

(** What a vector stands for: privilege level, gate type, handler. *)
Record slot := Slot { level : Z; kind : Z; target : Z }.
Definition table : Type := Z -> slot.
Definition upd (t : table) (v : Z) (x : slot) : table := fun w => if w =? v then x else t w.
Definition fresh_table : table := fun _ => Slot 0 14 NULL.

Section Table.
Context (stubs : Z -> Z) (Hstubs : forall v, 0 <= v < 256 -> 0 < stubs v < 2 ^ 64).

Record represents (s : istate) (t : table) : Prop := {
  rp_idt : length (idt s) = 256%nat;
  rp_handlers : length (intr_handlers s) = 256%nat;
  rp_names : length (intr_names s) = 256%nat;
  rp_gate v : 0 <= v < 256 -> idt s !! Z.to_nat v = Some (gate_value (stubs v) (level (t v)) (kind (t v)));
  rp_handler v : 0 <= v < 256 -> intr_handlers s !! Z.to_nat v = Some (target (t v))
}.

(** Nothing but the tables changes. *)
Definition tables_only (s s' : istate) : Prop :=
  in_external_intr s' = in_external_intr s /\ yield_on_return s' = yield_on_return s /\ intr_on s' = intr_on s /\ pic s' = pic s /\ yields s' = yields s /\
  printed s' = printed s /\ page_fault_cnt s' = page_fault_cnt s /\ tr s' = tr s /\ idtr s' = idtr s.

Lemma tables_only_trans s1 s2 s3 : tables_only s1 s2 -> tables_only s2 s3 -> tables_only s1 s3.
Proof using Type.
  intros (A1 & A2 & A3 & A4 & A5 & A6 & A7 & A8 & A9) (B1 & B2 & B3 & B4 & B5 & B6 & B7 & B8 & B9). unfold tables_only. rewrite B1, B2, B3, B4, B5, B6, B7, B8, B9. done.
Qed.

Lemma represents_tables s s' t : represents s t -> idt s' = idt s -> intr_handlers s' = intr_handlers s -> length (intr_names s') = 256%nat -> represents s' t.
Proof using Type. intros [A1 A2 A3 A4 A5] E1 E2 E3. split; [by rewrite E1|by rewrite E2|done|by rewrite E1|by rewrite E2]. Qed.

Lemma make_gate_run f d t : f <> NULL -> 0 <= d <= 3 -> 0 <= t <= 15 -> make_gate f d t = Ok (gate_value f d t).
Proof using Type.
  intros Hf Hd Ht. unfold make_gate. rewrite (proj2 (Z.eqb_neq _ _) Hf), !(proj2 (Z.leb_le _ _)) by lia. done.
Qed.

Lemma register_handler_run s t v d lv h nm : represents s t -> 0 <= v < 256 -> 0 <= d <= 3 -> target (t v) = NULL ->
  exists s', register_handler stubs v d lv h nm s = Ok (tt, s') /\ represents s' (upd t v (Slot d (if lv then 15 else 14) h)) /\ tables_only s s'.
Proof using Hstubs.
  intros [A1 A2 A3 A4 A5] Hv Hd Ht. unfold register_handler. mnorm. rewrite (A5 v Hv). change (lift (deref (Some (target (t v))))) with (ret (S := istate) (target (t v))). mnorm. rewrite Ht. cbn [Z.eqb NULL]. mnorm.
  assert ((if lv then make_trap_gate (stubs v) d else make_intr_gate (stubs v) d) = Ok (gate_value (stubs v) d (if lv then 15 else 14))) as ->.
  { pose proof (Hstubs v Hv). destruct lv; apply make_gate_run; unfold NULL; lia. }
  change (lift (Ok (gate_value (stubs v) d (if lv then 15 else 14)))) with (ret (S := istate) (gate_value (stubs v) d (if lv then 15 else 14))). mnorm. unfold set_gate, set_handler, set_name. mnorm.
  eexists. split; [reflexivity|]. split; [|done]. split; cbn; rewrite ?length_insert; try done.
  - intros w Hw. unfold upd. destruct (w =? v) eqn:E; [apply Z.eqb_eq in E as ->; rewrite list_lookup_insert_eq by lia; done|].
    apply Z.eqb_neq in E. rewrite list_lookup_insert_ne by lia. by apply A4.
  - intros w Hw. unfold upd. destruct (w =? v) eqn:E; [apply Z.eqb_eq in E as ->; rewrite list_lookup_insert_eq by lia; done|].
    apply Z.eqb_neq in E. rewrite list_lookup_insert_ne by lia. by apply A5.
Qed.

(** A vector that has a handler keeps it. *)
Lemma register_handler_twice s t v d lv h nm : represents s t -> 0 <= v < 256 -> target (t v) <> NULL -> register_handler stubs v d lv h nm s = Panic.
Proof using Type.
  intros [A1 A2 A3 A4 A5] Hv Ht. unfold register_handler. mnorm. rewrite (A5 v Hv). change (lift (deref (Some (target (t v))))) with (ret (S := istate) (target (t v))). mnorm.
  by rewrite (proj2 (Z.eqb_neq _ _) Ht).
Qed.

Lemma register_ext_run s t v h nm : represents s t -> 0x20 <= v <= 0x2f -> target (t v) = NULL ->
  exists s', intr_register_ext stubs v h nm s = Ok (tt, s') /\ represents s' (upd t v (Slot 0 14 h)) /\ tables_only s s'.
Proof using Hstubs.
  intros H Hv Ht. unfold intr_register_ext. rewrite !(proj2 (Z.leb_le _ _)) by lia. mnorm. by apply (register_handler_run s t v 0 false h nm H); [lia|lia|].
Qed.
Lemma register_int_run s t v d lv h nm : represents s t -> 0 <= v < 256 -> (v < 0x20 \/ 0x2f < v) -> 0 <= d <= 3 -> target (t v) = NULL ->
  exists s', intr_register_int stubs v d lv h nm s = Ok (tt, s') /\ represents s' (upd t v (Slot d (if lv then 15 else 14) h)) /\ tables_only s s'.
Proof using Hstubs.
  intros H Hv Hr Hd Ht. unfold intr_register_int. assert ((v <? 0x20) || (0x2f <? v) = true) as -> by (apply orb_true_iff; rewrite !Z.ltb_lt; lia). mnorm. by apply register_handler_run.
Qed.

(** ** Set-up *)

(** The first [i] gates are made. *)
Lemma init_gates_run n s i : 0 <= i -> Z.of_nat n + i = 256 -> length (idt s) = 256%nat -> length (intr_names s) = 256%nat ->
  (forall v, 0 <= v < i -> idt s !! Z.to_nat v = Some (gate_value (stubs v) 0 14)) ->
  exists s', init_gates stubs n i s = Ok (tt, s') /\ length (idt s') = 256%nat /\ length (intr_names s') = 256%nat /\ intr_handlers s' = intr_handlers s /\
    (forall v, 0 <= v < 256 -> idt s' !! Z.to_nat v = Some (gate_value (stubs v) 0 14)) /\ tables_only s s'.
Proof using Hstubs.
  revert s i. induction n as [|n IH]; intros s i Hi Hn Hl Hnm Hg; cbn [init_gates].
  - exists s. split; [done|]. split; [done|]. split; [done|]. split; [done|]. split; [|done]. intros v Hv. apply Hg. lia.
  - unfold make_intr_gate. rewrite make_gate_run by (try pose proof (Hstubs i ltac:(lia)); unfold NULL; lia).
    change (lift (Ok (gate_value (stubs i) 0 14))) with (ret (S := istate) (gate_value (stubs i) 0 14)). mnorm. unfold set_gate, set_name. mnorm.
    destruct (IH (set_names (<[Z.to_nat i := "unknown"%string]> (intr_names s)) (set_idt (<[Z.to_nat i := gate_value (stubs i) 0 14]> (idt s)) s)) (i + 1)) as (s' & E & R);
      [lia|lia|cbn; by rewrite length_insert|cbn; by rewrite length_insert| |].
    + intros v Hv. cbn. destruct (decide (v = i)) as [->|Hne]; [rewrite list_lookup_insert_eq by lia; done|]. rewrite list_lookup_insert_ne by lia. apply Hg. lia.
    + exists s'. split; [exact E|exact R].
Qed.

Lemma name_all_run l s : Forall (fun p => 0 <= p.1 < 256) l -> length (intr_names s) = 256%nat ->
  exists s', name_all l s = Ok (tt, s') /\ idt s' = idt s /\ intr_handlers s' = intr_handlers s /\ length (intr_names s') = 256%nat /\ tables_only s s'.
Proof using Type.
  intros Hl. revert s. induction Hl as [|[v n] l Hv _ IH]; intros s Hs; cbn [name_all]; [by exists s|]. unfold set_name. mnorm.
  destruct (IH (set_names (<[Z.to_nat v := n]> (intr_names s)) s)) as (s' & E & R); [cbn; by rewrite length_insert|]. exists s'. split; [exact E|exact R].
Qed.

Definition pic_setup : list access :=
  [Out 0x21 0xff; Out 0xa1 0xff; Out 0x20 0x11; Out 0x21 0x20; Out 0x21 0x04; Out 0x21 0x01; Out 0xa0 0x11; Out 0xa1 0x28; Out 0xa1 0x02; Out 0xa1 0x01; Out 0x21 0x00; Out 0xa1 0x00].

Lemma pic_init_run s : pic_init s = Ok (tt, set_pic (IO (answers (pic s)) (trace (pic s) ++ pic_setup)) s).
Proof using Type. unfold pic_init, on_pic, outb, modify, bind. cbn. by rewrite <- !app_assoc. Qed.

(** Before boot. *)
Record cold (s : istate) : Prop := {
  cl_idt : length (idt s) = 256%nat;
  cl_handlers : intr_handlers s = replicate 256 NULL;
  cl_names : length (intr_names s) = 256%nat
}.

Lemma intr_init_run s : cold s -> exists s', intr_init stubs s = Ok (tt, s') /\ represents s' fresh_table /\ trace (pic s') = trace (pic s) ++ pic_setup /\ idtr s' = true /\ tr s' = SEL_TSS /\
  in_external_intr s' = in_external_intr s /\ intr_on s' = intr_on s.
Proof using Hstubs.
  intros [C1 C2 C3]. unfold intr_init. mstep (pic_init_run s).
  destruct (init_gates_run 256 (set_pic (IO (answers (pic s)) (trace (pic s) ++ pic_setup)) s) 0) as (s1 & E1 & L1 & L2 & Hh & Hg & T1); [lia|lia|done|done|intros v Hv; lia|].
  unfold INTR_CNT. mstep E1.
  destruct (name_all_run exception_names (set_tables SEL_TSS true s1)) as (s2 & E2 & I2 & H2 & N2 & T2); [by_eval|done|]. 
  match goal with |- context [name_all exception_names ?x] => change x with (set_tables SEL_TSS true s1) end. exists s2. split; [exact E2|].
  destruct T1 as (A1 & A2 & A3 & A4 & A5 & A6 & A7 & A8 & A9), T2 as (B1 & B2 & B3 & B4 & B5 & B6 & B7 & B8 & B9). clear E1 E2. cbn [tr idtr in_external_intr yield_on_return intr_on pic yields printed page_fault_cnt set_pic set_tables intr_handlers idt intr_names trace] in *. split; [split|].
  - by rewrite I2.
  - by rewrite H2, Hh, C2.
  - done.
  - intros v Hv. rewrite I2. by apply Hg.
  - intros v Hv. rewrite H2, Hh, C2. cbn [fresh_table target]. apply lookup_replicate_2. lia.
  - rewrite B4, A4, B8, B9, B1, B3, A1, A3. done.
Qed.

(** ** Boot *)

(** The vectors with a trap gate, with a gate that user programs may call, and with
    a handler. *)
Definition traps : list Z := [0; 1; 3; 4; 5; 6; 7; 11; 12; 13; 16; 19].
Definition callable : list Z := [3; 4; 5; 0x43; 0x44].
Definition handled : list Z := traps ++ [14; 0x20; 0x21; 0x24; 0x2e; 0x2f; 0x43; 0x44].

(** The handler that each vector is meant to have: the timer is line 0, the
    keyboard line 1, the serial port line 4 and the two disk channels lines 14
    and 15 of the controllers; [kp] and [pp] are the addresses of [kill] and
    [page_fault], [h] gives those of the others. *)
Definition handler_of (kp pp : Z) (h : string -> Z) (v : Z) : Z :=
  if bool_decide (v ∈ traps) then kp
  else if v =? 14 then pp
  else if v =? 0x20 then h "timer_interrupt"%string
  else if v =? 0x21 then h "keyboard_interrupt"%string
  else if v =? 0x24 then h "serial_interrupt"%string
  else if (v =? 0x2e) || (v =? 0x2f) then h "interrupt_handler"%string
  else if v =? 0x43 then h "inspect_read_cnt"%string
  else if v =? 0x44 then h "inspect_write_cnt"%string
  else NULL.
(** The functions have addresses. *)
Definition linked (kp pp : Z) (h : string -> Z) : Prop := kp <> NULL /\ pp <> NULL /\ forall n, h n <> NULL.

Lemma handler_of_unhandled kp pp h v : v ∉ handled -> handler_of kp pp h v = NULL.
Proof using Type.
  unfold handler_of, handled. intros [Ht Hv]%not_elem_of_app. rewrite bool_decide_false by done.
  repeat (apply not_elem_of_cons in Hv as [?%Z.eqb_neq Hv]). by repeat match goal with H : (v =? _) = false |- _ => rewrite H; clear H end.
Qed.
Lemma handler_of_handled kp pp h v : linked kp pp h -> v ∈ handled -> handler_of kp pp h v <> NULL.
Proof using Type.
  intros (H1 & H2 & H3). assert (Forall (fun v => handler_of kp pp h v <> NULL) handled) as Hf; [|intros Hv; by apply (proj1 (Forall_forall _ _) Hf)].
  unfold handled, traps. cbn [app]. repeat (apply Forall_cons; split; [first [exact H1 | exact H2 | exact (H3 _)]|]). by apply Forall_nil.
Qed.

Ltac register lem := match goal with
  | H : represents ?s ?t |- context [bind (intr_register_ext stubs ?v ?h ?nm) _ ?s] =>
      let s' := fresh "s" in let E := fresh "E" in let H' := fresh "H" in let T := fresh "T" in
      destruct (register_ext_run s t v h nm H ltac:(lia) ltac:(reflexivity)) as (s' & E & H' & T); mstep E; clear E H
  | H : represents ?s ?t |- context [bind (intr_register_int stubs ?v ?d ?lv ?h ?nm) _ ?s] =>
      let s' := fresh "s" in let E := fresh "E" in let H' := fresh "H" in let T := fresh "T" in
      destruct (register_int_run s t v d lv h nm H ltac:(lia) ltac:(lia) ltac:(lia) ltac:(reflexivity)) as (s' & E & H' & T); mstep E; clear E H
  end.

Definition boot_table (kill_ptr page_fault_ptr : Z) (h : string -> Z) : table :=
  upd (upd (upd (upd (upd (upd (upd (upd (upd (upd (upd (upd (upd (upd (upd (upd (upd (upd (upd (upd fresh_table 0x20 (Slot 0 14 (h "timer_interrupt"%string)))
    0x21 (Slot 0 14 (h "keyboard_interrupt"%string))) 3 (Slot 3 15 kill_ptr)) 4 (Slot 3 15 kill_ptr)) 5 (Slot 3 15 kill_ptr)) 0 (Slot 0 15 kill_ptr)) 1 (Slot 0 15 kill_ptr))
    6 (Slot 0 15 kill_ptr)) 7 (Slot 0 15 kill_ptr)) 11 (Slot 0 15 kill_ptr)) 12 (Slot 0 15 kill_ptr)) 13 (Slot 0 15 kill_ptr)) 16 (Slot 0 15 kill_ptr)) 19 (Slot 0 15 kill_ptr))
    14 (Slot 0 14 page_fault_ptr)) 0x24 (Slot 0 14 (h "serial_interrupt"%string))) 0x2e (Slot 0 14 (h "interrupt_handler"%string))) 0x2f (Slot 0 14 (h "interrupt_handler"%string)))
    0x43 (Slot 3 14 (h "inspect_read_cnt"%string))) 0x44 (Slot 3 14 (h "inspect_write_cnt"%string)).

Lemma boot_run kp pp h s : cold s -> exists s', boot_interrupts stubs kp pp h s = Ok (tt, s') /\ represents s' (boot_table kp pp h) /\ trace (pic s') = trace (pic s) ++ pic_setup /\ idtr s' = true.
Proof using Hstubs.
  intros Hc. unfold boot_interrupts. destruct (intr_init_run s Hc) as (s1 & E1 & H1 & P1 & D1 & _). mstep E1. clear E1. unfold exception_init. mnorm.
  do 19 register tt.
  match goal with H : represents ?s19 ?t |- context [intr_register_int stubs 0x44 3 false ?hh ?nm ?s19] =>
    destruct (register_int_run s19 t 0x44 3 false hh nm H ltac:(lia) ltac:(lia) ltac:(lia) ltac:(reflexivity)) as (s20 & E20 & H20 & T20) end.
  rewrite E20. exists s20. split; [done|]. split; [exact H20|].
  repeat match goal with H1 : tables_only ?a ?b, H2 : tables_only ?b ?c |- _ => pose proof (tables_only_trans _ _ _ H1 H2); clear H1 H2 end.
  match goal with T : tables_only s1 s20 |- _ => destruct T as (_ & _ & _ & -> & _ & _ & _ & _ & ->) end. done.
Qed.

(** The entries of the table after boot. *)
Lemma boot_entries kp pp h v : 0 <= v < 256 -> level (boot_table kp pp h v) = (if bool_decide (v ∈ callable) then 3 else 0) /\
  kind (boot_table kp pp h v) = (if bool_decide (v ∈ traps) then 15 else 14) /\ target (boot_table kp pp h v) = handler_of kp pp h v.
Proof using Type.
  intros Hv. assert (forallb (fun v => (level (boot_table kp pp h v) =? (if bool_decide (v ∈ callable) then 3 else 0)) && (kind (boot_table kp pp h v) =? (if bool_decide (v ∈ traps) then 15 else 14))) (seqZ 0 256) = true) as Ha by (vm_compute; reflexivity).
  rewrite forallb_forall in Ha. specialize (Ha v ltac:(apply list_elem_of_In, elem_of_seqZ; lia)). apply andb_prop in Ha as [H1 H2].
  apply Z.eqb_eq in H1, H2. split; [done|]. split; [done|].
  assert ((fun v => target (boot_table kp pp h v)) <$> seqZ 0 256 = handler_of kp pp h <$> seqZ 0 256) as Ht by (vm_compute; reflexivity).
  apply (f_equal (fun l => l !! Z.to_nat v)) in Ht. rewrite !list_lookup_fmap, lookup_seqZ_lt, Z2Nat.id in Ht by lia. by injection Ht.
Qed.

End Table.

(** ** Dispatch *)

(** A handler of an external interrupt: it returns with interrupts off and leaves
    the table and the flag of the dispatcher alone. *)
Definition well_behaved (call : Z -> intr_frame -> M istate unit) (h : Z) (f : intr_frame) : Prop :=
  forall s, intr_on s = false -> in_external_intr s = true -> exists s', call h f s = Ok (tt, s') /\ intr_on s' = false /\ in_external_intr s' = true /\ intr_handlers s' = intr_handlers s.

(** The acknowledgement of vector [v]: both controllers for the lines of the second. *)
Definition eoi (v : Z) : list access := if 0x28 <=? v then [Out 0x20 0x20; Out 0xa0 0x20] else [Out 0x20 0x20].

Lemma eoi_run v s : 0x20 <= v < 0x30 -> pic_end_of_interrupt v s = Ok (tt, set_pic (IO (answers (pic s)) (trace (pic s) ++ eoi v)) s).
Proof.
  intros Hv. unfold pic_end_of_interrupt. rewrite (proj2 (Z.leb_le _ _)), (proj2 (Z.ltb_lt _ _)) by lia. mnorm. unfold on_pic, outb, modify, bind, eoi. cbn.
  destruct (0x28 <=? v); cbn; [by rewrite <- app_assoc|done].
Qed.

(** The state in which the handler of an external interrupt starts. *)
Definition entered (s : istate) : istate := set_yield false (set_external true s).
(** What follows it. *)
Definition left_with (v : Z) (s : istate) : istate :=
  let s := set_pic (IO (answers (pic s)) (trace (pic s) ++ eoi v)) (set_external false s) in
  if yield_on_return s then set_yields (yields s + 1) s else s.

Lemma external_test v : 0x20 <= v < 0x30 -> (0x20 <=? v) && (v <? 0x30) = true.
Proof. intros H. by rewrite (proj2 (Z.leb_le _ _)), (proj2 (Z.ltb_lt _ _)) by lia. Qed.

Lemma dispatch_external call f s s2 h : 0x20 <= vec_no f < 0x30 -> intr_on s = false -> in_external_intr s = false ->
  intr_handlers s !! Z.to_nat (vec_no f) = Some h ->
  (if h =? NULL then ((vec_no f =? 0x27) || (vec_no f =? 0x2f) = true /\ s2 = entered s) else call h f (entered s) = Ok (tt, s2)) -> intr_on s2 = false -> in_external_intr s2 = true ->
  intr_handler call f s = Ok (tt, left_with (vec_no f) s2).
Proof.
  intros Hv Ho Hx Hh Hc Ho2 Hx2. unfold intr_handler, intr_get_level, intr_context. rewrite external_test by done. mnorm. rewrite Ho. cbn [negb]. mnorm. rewrite Hx. cbn [negb]. mnorm.
  cbn [intr_handlers set_yield set_external]. rewrite Hh. change (lift (deref (Some h))) with (ret (S := istate) h). mnorm. fold (entered s).
  change (set_yield false (set_external true s)) with (entered s).
  assert ((if negb (h =? NULL) then call h f else if (vec_no f =? 39) || (vec_no f =? 47) then ret tt else intr_dump_frame f;; lift Panic) (entered s) = Ok (tt, s2)) as E.
  { destruct (h =? NULL); cbn [negb]; [|done]. destruct Hc as [-> ->]. done. }
  mstep E. rewrite Ho2. cbn [negb]. mnorm. rewrite Hx2. mnorm. mstep (eoi_run (vec_no f) (set_external false s2) Hv). unfold left_with. cbn [yield_on_return set_pic set_external].
  destruct (yield_on_return s2); done.
Qed.

Lemma intr_name_run v s : length (intr_names s) = 256%nat -> 0 <= v < 256 -> exists n, intr_name v s = Ok (n, s).
Proof. intros Hl Hv. unfold intr_name. mnorm. destruct (lookup_lt_is_Some_2 (intr_names s) (Z.to_nat v)) as [n ->]; [lia|]. by exists n. Qed.

(** The dump prints and changes nothing else. *)
Lemma dump_run f s : length (intr_names s) = 256%nat -> 0 <= vec_no f < 256 -> exists l, intr_dump_frame f s = Ok (tt, set_printed (printed s ++ l) s).
Proof.
  intros Hl Hv. destruct (intr_name_run (vec_no f) s Hl Hv) as (n & E). unfold intr_dump_frame. mnorm. mstep E. unfold printf. mnorm. eexists. unfold modify. cbn. rewrite <- !app_assoc. reflexivity.
Qed.

Lemma unexpected_panics {B} f s (k : unit -> M istate B) : length (intr_names s) = 256%nat -> 0 <= vec_no f < 256 -> bind (intr_dump_frame f;; lift Panic) k s = Panic.
Proof. intros Hl Hv. destruct (dump_run f s Hl Hv) as (l & E). mnorm. by mstep E. Qed.

Lemma dispatch_unexpected call f s : length (intr_names s) = 256%nat -> 0 <= vec_no f < 256 -> intr_handlers s !! Z.to_nat (vec_no f) = Some NULL -> vec_no f <> 0x27 -> vec_no f <> 0x2f ->
  intr_handler call f s = Panic.
Proof.
  intros Hl Hv Hh H7 Hf. unfold intr_handler, intr_get_level, intr_context.
  assert (forall s1 (k : unit -> M istate unit), intr_handlers s1 = intr_handlers s -> intr_names s1 = intr_names s ->
    bind (lift (deref (intr_handlers s1 !! Z.to_nat (vec_no f))))
      (fun h => bind (if negb (h =? NULL) then call h f else if (vec_no f =? 39) || (vec_no f =? 47) then ret tt else intr_dump_frame f;; lift Panic) k) s1 = Panic) as Hp.
  { intros s1 k E1 E2. rewrite E1, Hh. change (lift (deref (Some NULL))) with (ret (S := istate) NULL). mnorm. cbn [Z.eqb NULL negb].
    rewrite (proj2 (Z.eqb_neq _ _) H7), (proj2 (Z.eqb_neq _ _) Hf). cbn [orb]. apply unexpected_panics; [by rewrite E2|done]. }
  destruct ((32 <=? vec_no f) && (vec_no f <? 48)).
  - mnorm. destruct (intr_on s); cbn [negb]; [done|]. mnorm. destruct (in_external_intr s); cbn [negb]; [done|]. mnorm. by apply Hp.
  - mnorm. by apply (Hp s (fun _ => ret tt)).
Qed.

(** Printing messages. *)
Lemma kill_run f s : length (intr_names s) = 256%nat -> 0 <= vec_no f < 256 ->
  if cs f =? SEL_KCSEG then kill f s = Panic else exists l, kill f s = Ok (Exits, set_printed (printed s ++ l) s).
Proof.
  intros Hl Hv. unfold kill. destruct (intr_name_run (vec_no f) s Hl Hv) as (n & En). destruct (cs f =? SEL_UCSEG) eqn:Eu.
  - apply Z.eqb_eq in Eu. rewrite Eu. cbn [Z.eqb SEL_UCSEG SEL_KCSEG Pos.eqb]. mnorm. mstep En. unfold printf. mnorm.
    match goal with |- context [bind (intr_dump_frame f) _ ?t] => destruct (dump_run f t Hl Hv) as (l & E) end. mstep E. eexists. unfold ret. cbn. rewrite <- app_assoc. reflexivity.
  - destruct (cs f =? SEL_KCSEG); [destruct (dump_run f s Hl Hv) as (l & E); by mstep E|]. mstep En. unfold printf, modify. mnorm. by eexists.
Qed.

(** ** Properties *)

(** C25: The interrupt table after boot.  Initialisation and the registrations of the
    timer, the keyboard, the exceptions, the serial port and the disks succeed
    and leave every one of the 256 vectors as a present gate into its own
    entry stub in the kernel's code segment; user programs can call the
    breakpoint, overflow and bounds exceptions and the two disk counters, and
    nothing else; all external interrupts and page faults begin with
    interrupts off.  Every registered vector has its own handler: [kill] the
    exceptions, [page_fault] vector 14, and each line and each disk counter the
    function of its device; no other vector has one, and a vector that has one
    cannot be registered again.  The controllers deliver the lines at vectors
    0x20 to 0x2f.  (The build without virtual memory: vector 0x42 of
    vm/inspect.c is not registered.) *)
Theorem interrupt_table_after_boot stubs kp pp h s : (forall v, 0 <= v < 256 -> 0 < stubs v < 2 ^ 64) -> cold s ->
  exists s', boot_interrupts stubs kp pp h s = Ok (tt, s') /\ idtr s' = true /\ trace (pic s') = trace (pic s) ++ pic_setup /\
    forall v, 0 <= v < 256 -> exists g, idt s' !! Z.to_nat v = Some g /\
      read_gate (gate_bits g) = Vector (stubs v) SEL_KCSEG 0 (if bool_decide (v ∈ traps) then 15 else 14) (if bool_decide (v ∈ callable) then 3 else 0) 1 /\
      intr_handlers s' !! Z.to_nat v = Some (handler_of kp pp h v) /\ (v ∉ handled -> handler_of kp pp h v = NULL) /\
      (v ∈ handled -> linked kp pp h -> handler_of kp pp h v <> NULL) /\
      (handler_of kp pp h v <> NULL -> forall d lv h2 nm, register_handler stubs v d lv h2 nm s' = Panic).
Proof.
  intros Hs Hc. destruct (boot_run stubs Hs kp pp h s Hc) as (s' & E & H & P & D). exists s'. split; [done|]. split; [done|]. split; [done|]. intros v Hv.
  destruct (boot_entries kp pp h v Hv) as (E1 & E2 & E3). eexists. split; [by apply (rp_gate stubs _ _ H)|]. pose proof (Hs v Hv).
  split; [rewrite read_gate_value; rewrite ?E1, ?E2; try case_bool_decide; try case_bool_decide; done || lia|].
  rewrite <- E3. split; [by apply (rp_handler stubs _ _ H)|]. rewrite E3. split; [apply handler_of_unhandled|].
  split; [intros Hh Hl; by apply handler_of_handled|]. rewrite <- E3. intros Hn d lv h2 nm. by eapply register_handler_twice.
Qed.

(** C26: The dispatcher brackets the handlers of external interrupts: they run with
    interrupts off, marked as external and with no yield requested; when they
    come back the mark is gone, the line has been acknowledged exactly once,
    on the second controller too when it is one of its lines, and the
    processor is yielded exactly when the handler asked for it.  A line that
    is raised without a handler is acknowledged if it is one of the two
    spurious ones; any other vector without a handler panics, and so does an
    external interrupt that nests.  Faults, exceptions and software
    interrupts only call their handler. *)
Theorem interrupt_dispatch call f s h : 0 <= vec_no f < 256 -> length (intr_names s) = 256%nat -> intr_handlers s !! Z.to_nat (vec_no f) = Some h ->
  (0x20 <= vec_no f < 0x30 -> intr_on s = false -> in_external_intr s = false ->
     (h <> NULL -> well_behaved call h f -> exists s2 s', call h f (entered s) = Ok (tt, s2) /\ intr_handler call f s = Ok (tt, s') /\
        in_external_intr s' = false /\ intr_on s' = false /\ trace (pic s') = trace (pic s2) ++ eoi (vec_no f) /\ yields s' = yields s2 + (if yield_on_return s2 then 1 else 0)) /\
     (h = NULL -> vec_no f = 0x27 \/ vec_no f = 0x2f -> exists s', intr_handler call f s = Ok (tt, s') /\ in_external_intr s' = false /\ yields s' = yields s /\ trace (pic s') = trace (pic s) ++ eoi (vec_no f))) /\
  (0x20 <= vec_no f < 0x30 -> intr_on s = true \/ in_external_intr s = true -> intr_handler call f s = Panic) /\
  (h = NULL -> vec_no f <> 0x27 -> vec_no f <> 0x2f -> intr_handler call f s = Panic) /\
  (~ 0x20 <= vec_no f < 0x30 -> h <> NULL -> intr_handler call f s = call h f s).
Proof.
  intros Hv Hl Hh. split; [|split; [|split]].
  - intros Hx Ho Hi. split.
    + intros Hn Hw. destruct (Hw (entered s) Ho eq_refl) as (s2 & E & O2 & X2 & _). exists s2, (left_with (vec_no f) s2). split; [done|].
      split; [apply (dispatch_external call f s s2 h); try done; by rewrite (proj2 (Z.eqb_neq _ _) Hn)|]. unfold left_with. cbn [yield_on_return set_pic set_external].
      destruct (yield_on_return s2); cbn; rewrite ?O2; repeat (split; [done|]); lia.
    + intros -> Hsp. exists (left_with (vec_no f) (entered s)). split; [|done]. apply (dispatch_external call f s (entered s) NULL); try done. cbn [Z.eqb NULL].
      split; [|done]. destruct Hsp as [-> | ->]; done.
  - intros Hx Hb. unfold intr_handler, intr_get_level, intr_context. rewrite external_test by done. mnorm. destruct (intr_on s); cbn [negb]; [done|]. mnorm. destruct Hb as [Hb| ->]; [done|]. done.
  - intros ->. by apply dispatch_unexpected.
  - intros Hx Hn. unfold intr_handler. assert ((32 <=? vec_no f) && (vec_no f <? 48) = false) as -> by (apply andb_false_iff; rewrite Z.leb_gt, Z.ltb_ge; lia). mnorm. rewrite Hh.
    change (lift (deref (Some h))) with (ret (S := istate) h). mnorm. rewrite (proj2 (Z.eqb_neq _ _) Hn). cbn [negb]. unfold bind, ret. destruct (call h f s) as [[[] ?]| | | |]; done.
Qed.

(** An exception ends the process that caused it.  [kill] ends the thread when
    the frame comes from user code and panics when it comes from the kernel's
    code segment; from any other segment it ends the thread too, where its
    comment promises a panic.  A page fault reads the address before it turns
    interrupts on, is counted, and its message gives the cause that the error
    code has. *)
Theorem exceptions_end_process f s : length (intr_names s) = 256%nat -> 0 <= vec_no f < 256 -> in_external_intr s = false ->
  (cs f = SEL_KCSEG -> kill f s = Panic /\ page_fault f s = Panic) /\
  (cs f <> SEL_KCSEG ->
     (exists l, kill f s = Ok (Exits, set_printed (printed s ++ l) s)) /\
     exists s' l, page_fault f s = Ok (Exits, s') /\ intr_on s' = true /\ page_fault_cnt s' = s64 (page_fault_cnt s + 1) /\
       printed s' = printed s ++ ("Page fault at %p: %s error %s page in %s context." ++ newline,
         [Num (cr2 s); Str (if Z.testbit (error_code f) 0 then "rights violation" else "not present"); Str (if Z.testbit (error_code f) 1 then "writing" else "reading");
          Str (if Z.testbit (error_code f) 2 then "user" else "kernel")])%string :: l).
Proof.
  intros Hl Hv Hx.
  assert (forall k, 0 <= k -> negb (Z.land (error_code f) (2 ^ k) =? 0) = Z.testbit (error_code f) k) as Hbit.
  { intros k Hk. destruct (Z.testbit (error_code f) k) eqn:Et.
    - apply negb_true_iff, Z.eqb_neq. intros E0. pose proof (f_equal (fun x => Z.testbit x k) E0) as E1. cbn in E1. by rewrite Z.land_spec, Et, Z.pow2_bits_true, Z.bits_0 in E1 by done.
    - apply negb_false_iff, Z.eqb_eq, Z.bits_inj'. intros n Hn. rewrite Z.land_spec, Z.bits_0, Z.pow2_bits_eqb by done. destruct (k =? n) eqn:E; [apply Z.eqb_eq in E as <-; by rewrite Et|by rewrite andb_false_r]. }
  set (s1 := set_faults (s64 (page_fault_cnt s + 1)) (set_on true s)).
  assert (exists t, page_fault f s = kill f (set_printed (printed s ++ [t]) s1) /\ t = ("Page fault at %p: %s error %s page in %s context." ++ newline,
    [Num (cr2 s); Str (if Z.testbit (error_code f) 0 then "rights violation" else "not present"); Str (if Z.testbit (error_code f) 1 then "writing" else "reading");
     Str (if Z.testbit (error_code f) 2 then "user" else "kernel")])%string) as (t & Ep & Et).
  { eexists. split; [|reflexivity]. unfold page_fault, intr_enable, intr_get_level, intr_context. mnorm. rewrite Hx. cbn [negb]. mnorm. unfold printf. cbv zeta. mnorm.
    rewrite <- (Hbit 0), <- (Hbit 1), <- (Hbit 2) by lia. change (2 ^ 0) with PF_P. change (2 ^ 1) with PF_W. change (2 ^ 2) with PF_U. destruct (Z.land (error_code f) PF_P =? 0); done. }
  pose proof (kill_run f s Hl Hv) as K1. pose proof (kill_run f (set_printed (printed s ++ [t]) s1) Hl Hv) as K2. rewrite Ep. split.
  - intros Hc. rewrite Hc, Z.eqb_refl in K1, K2. done.
  - intros Hc. rewrite (proj2 (Z.eqb_neq _ _) Hc) in K1, K2. split; [done|]. destruct K2 as (l & ->). eexists _, l. split; [reflexivity|]. split; [done|]. split; [done|]. rewrite <- Et. cbn [printed set_printed s1 set_faults set_on]. by rewrite <- app_assoc.
Qed.

(** ** Witnesses *)

Definition demo_istate : istate :=
  IState (replicate 256 (gate_value 1 0 0)) (replicate 256 NULL) (replicate 256 EmptyString) false false false (IO [] []) 0 false 0x1234 0 [] "main" 0.
Definition demo_regs : gp_registers := Registers 0 0 0 0 0 0 0 0 0 0 0 0 0 0 0.
Definition demo_frame (v c : Z) : intr_frame := Frame demo_regs 0 0 v 6 0 c 0 0 0.
Definition demo_stub (v : Z) : Z := 0x8004200000 + 16 * v.

Lemma interrupt_table_after_boot_witness : exists s' g, boot_interrupts demo_stub 7 8 (fun _ => 9) demo_istate = Ok (tt, s') /\ idt s' !! 3%nat = Some g /\
  read_gate (gate_bits g) = Vector 0x8004200030 SEL_KCSEG 0 15 3 1 /\ intr_handlers s' !! 3%nat = Some 7 /\ register_handler demo_stub 3 0 false 9 "again" s' = Panic.
Proof.
  destruct (interrupt_table_after_boot demo_stub 7 8 (fun _ => 9) demo_istate ltac:(unfold demo_stub; lia) ltac:(by split)) as (s' & E & _ & _ & H).
  destruct (H 3 ltac:(lia)) as (g & Hg & Hr & Hh & _ & Hn & Hp). exists s', g. split; [exact E|]. split; [exact Hg|]. split; [exact Hr|]. split; [exact Hh|].
  apply Hp, Hn; [by_eval|]. split; [discriminate|]. split; [discriminate|]. intros n. discriminate.
Defined.

(** A handler of the second controller that asks for a yield. *)
Definition demo_call (h : Z) (f : intr_frame) : M istate unit := modify (set_yield true).
Lemma interrupt_dispatch_witness : exists s', intr_handler demo_call (demo_frame 0x2e SEL_UCSEG) (set_handlers (<[46%nat := 5]> (intr_handlers demo_istate)) demo_istate) = Ok (tt, s') /\
  yields s' = 1 /\ trace (pic s') = [Out 0x20 0x20; Out 0xa0 0x20].
Proof.
  destruct (proj1 (interrupt_dispatch demo_call (demo_frame 0x2e SEL_UCSEG) (set_handlers (<[46%nat := 5]> (intr_handlers demo_istate)) demo_istate) 5 ltac:(cbn; lia) ltac:(reflexivity) ltac:(vm_compute; reflexivity)) ltac:(cbn; lia) eq_refl eq_refl) as [H _].
  destruct (H ltac:(discriminate)) as (s2 & s' & E2 & E & _ & _ & T & Y).
  - intros t H1 H2. eexists. split; [reflexivity|]. done.
  - injection E2 as <-. exists s'. split; [exact E|]. split; [exact Y|exact T].
Defined.

Lemma exceptions_end_process_witness : kill (demo_frame 13 SEL_KCSEG) demo_istate = Panic /\ exists s', page_fault (demo_frame 14 SEL_UCSEG) demo_istate = Ok (Exits, s') /\ page_fault_cnt s' = 1.
Proof.
  split.
  - exact (proj1 (proj1 (exceptions_end_process (demo_frame 13 SEL_KCSEG) demo_istate eq_refl ltac:(cbn; lia) eq_refl) eq_refl)).
  - destruct (proj2 (proj2 (exceptions_end_process (demo_frame 14 SEL_UCSEG) demo_istate eq_refl ltac:(cbn; lia) eq_refl) ltac:(discriminate))) as (s' & l & E & _ & C & _). exists s'. split; [exact E|exact C].
Defined.
