(* ===== verification/Timer.v ===== *)
(** * Time (devices/timer.c)

    The set-up of the interval timer, the calibration of the delay loop and the
    sleeps in real-time units.  The tick handler and sleeping in the scheduler
    are part of Machine.v. *)

From Stdlib Require Import String.
From S2P Require Import Prelude Ports Descriptors Interrupt.
Local Open Scope Z_scope.

Definition TIMER_FREQ : Z := 100.

(** ** The interval timer *)

(** [count] in [timer_init], for any frequency. *)
Definition pit_count (freq : Z) : Z := u16 (Z.quot (1193180 + Z.quot freq 2) freq).
Definition timer_init (intr_stubs : Z -> Z) (timer_interrupt : Z) : M istate unit :=
  let count := pit_count TIMER_FREQ in
  on_pic (outb 0x43 0x34);;
  on_pic (outb 0x40 (u8 (Z.land count 0xff)));;
  on_pic (outb 0x40 (u8 (Z.shiftr count 8)));;
  intr_register_ext intr_stubs 0x20 timer_interrupt "8254 Timer".

(** ** State *)

(** [now] counts the rounds of waiting loops since boot and is the time of the
    model.  [intr_on] is the interrupt flag, [loops_s] the speeds printed. *)
Record tstate := TState { now : Z; loops_per_tick : Z; level_on : bool; loops_s : list Z }.
Definition set_now t (s : tstate) := TState t (loops_per_tick s) (level_on s) (loops_s s).
Definition set_loops n (s : tstate) := TState (now s) n (level_on s) (loops_s s).
Definition set_level b (s : tstate) := TState (now s) (loops_per_tick s) b (loops_s s).
Definition barrier : M tstate unit := modify (fun s => set_now (now s + 1) s).

Section Clock.
(** The value that interrupts have given to [ticks] at a time, and the time at
    which a call of [thread_yield] returns. *)
Context (ticks : Z -> Z) (thread_yield : Z -> Z).

Definition read_ticks : M tstate Z := s ← get; ret (ticks (now s)).
Definition timer_ticks : M tstate Z :=
  s ← get; let old_level := level_on s in
  modify (set_level false);; t ← read_ticks; modify (set_level old_level);; ret t.
Definition timer_elapsed (then_ : Z) : M tstate Z := t ← timer_ticks; ret (s64 (t - then_)).

(** ** Delay loops *)

Fixpoint busy_loop (fuel : nat) (loops : Z) : M tstate unit :=
  match fuel with
  | O => out_of_fuel
  | S fuel => if 0 <? loops then barrier;; busy_loop fuel (loops - 1) else ret tt
  end.
Definition busy_wait (loops : Z) : M tstate unit := busy_loop (S (Z.to_nat loops)) loops.

(** [while (ticks == start)]. *)
Fixpoint wait_tick (fuel : nat) (start : Z) : M tstate unit :=
  match fuel with
  | O => out_of_fuel
  | S fuel => t ← read_ticks; if t =? start then barrier;; wait_tick fuel start else ret tt
  end.
Definition too_many_loops (fuel : nat) (loops : Z) : M tstate bool :=
  start ← read_ticks;
  wait_tick fuel start;;
  start ← read_ticks;
  busy_wait loops;;
  t ← read_ticks;
  ret (negb (start =? t)).

(** ** Calibration *)

Fixpoint double_loop (n fuel : nat) : M tstate unit :=
  match n with
  | O => out_of_fuel
  | S n =>
      s ← get;
      many ← too_many_loops fuel (u32 (Z.shiftl (loops_per_tick s) 1));
      if negb many then
        modify (fun s => set_loops (u32 (Z.shiftl (loops_per_tick s) 1)) s);;
        s ← get; ASSERT (negb (loops_per_tick s =? 0));;
        double_loop n fuel
      else ret tt
  end.
Fixpoint refine_loop (n fuel : nat) (high_bit test_bit : Z) : M tstate unit :=
  match n with
  | O => out_of_fuel
  | S n =>
      if negb (test_bit =? Z.shiftr high_bit 10) then
        many ← too_many_loops fuel (Z.lor high_bit test_bit);
        (if negb many then modify (fun s => set_loops (Z.lor (loops_per_tick s) test_bit) s) else ret tt);;
        refine_loop n fuel high_bit (Z.shiftr test_bit 1)
      else ret tt
  end.
(** The bit doubles at most 22 times and the refinement takes nine rounds. *)
Definition timer_calibrate (fuel : nat) : M tstate unit :=
  s ← get; ASSERT (level_on s);;
  modify (set_loops (Z.shiftl 1 10));;
  double_loop 23 fuel;;
  s ← get; let high_bit := loops_per_tick s in
  refine_loop 10 fuel high_bit (Z.shiftr high_bit 1);;
  modify (fun s => TState (now s) (loops_per_tick s) (level_on s) (loops_s s ++ [u64 (loops_per_tick s * TIMER_FREQ)])).

(** ** Sleeping *)

Fixpoint sleep_loop (fuel : nat) (start n : Z) : M tstate unit :=
  match fuel with
  | O => out_of_fuel
  | S fuel =>
      e ← timer_elapsed start;
      if e <? n then modify (fun s => set_now (thread_yield (now s)) s);; sleep_loop fuel start n else ret tt
  end.
Definition timer_sleep (fuel : nat) (n : Z) : M tstate unit :=
  start ← timer_ticks; s ← get; ASSERT (level_on s);; sleep_loop fuel start n.

Definition real_time_sleep (fuel : nat) (num denom : Z) : M tstate unit :=
  let n := Z.quot (s64 (num * TIMER_FREQ)) denom in
  s ← get; ASSERT (level_on s);;
  if 0 <? n then timer_sleep fuel n
  else
    ASSERT (Z.rem denom 1000 =? 0);;
    busy_wait (Z.quot (s64 (Z.quot (s64 (loops_per_tick s * num)) 1000 * TIMER_FREQ)) (Z.quot denom 1000)).
Definition timer_msleep (fuel : nat) (ms : Z) : M tstate unit := real_time_sleep fuel ms 1000.
Definition timer_usleep (fuel : nat) (us : Z) : M tstate unit := real_time_sleep fuel us (1000 * 1000).
Definition timer_nsleep (fuel : nat) (ns : Z) : M tstate unit := real_time_sleep fuel ns (1000 * 1000 * 1000).

(** ** A steady clock *)

(** Ticks come every [T] rounds. *)
Context (T phase : Z) (HT : 0 < T) (Hticks : forall t, ticks t = (t + phase) / T).

Lemma delay_loop_run fuel : forall loops s, (Z.to_nat loops < fuel)%nat -> busy_loop fuel loops s = Ok (tt, set_now (now s + Z.max 0 loops) s).
Proof using Type.
  induction fuel as [|fuel IH]; intros loops s Hf; [lia|]. cbn [busy_loop]. destruct (Z.ltb_spec 0 loops).
  - unfold barrier. mnorm. rewrite IH by lia. unfold set_now. cbn. do 3 f_equal. lia.
  - unfold ret, set_now. destruct s. cbn. do 3 f_equal. lia.
Qed.
Lemma busy_wait_run loops s : busy_wait loops s = Ok (tt, set_now (now s + Z.max 0 loops) s).
Proof using Type. apply delay_loop_run. lia. Qed.

(** [d] rounds before a tick. *)
Lemma wait_tick_run fuel : forall q d s, now s + phase = T * (q + 1) - d -> 0 <= d <= T -> (Z.to_nat d < fuel)%nat ->
  wait_tick fuel q s = Ok (tt, set_now (T * (q + 1) - phase) s).
Proof using HT Hticks.
  induction fuel as [|fuel IH]; intros q d s Hn Hd Hf; [lia|]. cbn [wait_tick]. unfold read_ticks. mnorm. rewrite Hticks, Hn.
  destruct (decide (d = 0)) as [->|Hd0].
  - rewrite Z.sub_0_r, Z.mul_comm, Z.div_mul by lia. rewrite (proj2 (Z.eqb_neq _ _)) by lia. unfold ret, set_now. destruct s; cbn in *. do 3 f_equal. lia.
  - replace (T * (q + 1) - d) with (T - d + q * T) by lia. rewrite Z.div_add, Z.div_small by lia. rewrite (proj2 (Z.eqb_eq _ _)) by lia. unfold barrier. mnorm.
    rewrite (IH q (d - 1)) by (cbn; lia). done.
Qed.

(** The loops are measured from one tick on. *)
Lemma too_many_loops_run fuel loops s : (Z.to_nat T < fuel)%nat ->
  exists t, too_many_loops fuel loops s = Ok (bool_decide (T <= loops), set_now t s) /\ now s <= t.
Proof using HT Hticks.
  intros Hf. unfold too_many_loops, read_ticks. mnorm. rewrite (Hticks (now s)). set (q := (now s + phase) / T).
  pose proof (Z.div_mod (now s + phase) T ltac:(lia)) as Hq. pose proof (Z.mod_pos_bound (now s + phase) T HT) as Hm. fold q in Hq.
  mstep (wait_tick_run fuel q (T - (now s + phase) mod T) s ltac:(lia) ltac:(lia) ltac:(lia)). cbn [now set_now].
  set (s1 := set_now (T * (q + 1) - phase) s). mstep (busy_wait_run loops s1). unfold s1. cbn [now set_now loops_per_tick level_on loops_s]. rewrite !Hticks.
  replace (T * (q + 1) - phase + phase) with ((q + 1) * T) by lia. replace (T * (q + 1) - phase + Z.max 0 loops + phase) with (Z.max 0 loops + (q + 1) * T) by lia.
  rewrite Z.div_mul, Z.div_add by lia. eexists. split; [|shelve].
  assert (negb (q + 1 =? Z.max 0 loops / T + (q + 1)) = bool_decide (T <= loops)) as ->; [|reflexivity].
  case_bool_decide as Hb.
  - rewrite Z.max_r by lia. pose proof (Z.div_str_pos loops T ltac:(lia)). apply negb_true_iff, Z.eqb_neq. lia.
  - rewrite Z.div_small by lia. apply negb_false_iff, Z.eqb_eq. lia.
  Unshelve. cbn. lia.
Qed.

Definition same_but_loops (s s' : tstate) : Prop := level_on s' = level_on s /\ loops_s s' = loops_s s.

(** The bit stops at the largest power of two below the tick. *)
Lemma double_loop_run fuel n : forall k s, (Z.to_nat T < fuel)%nat -> loops_per_tick s = 2 ^ k -> 10 <= k <= 31 -> k = 10 \/ 2 ^ k < T -> 31 - k < Z.of_nat n - 1 ->
  if T <=? 2 ^ 31 then exists k' s', double_loop n fuel s = Ok (tt, s') /\ loops_per_tick s' = 2 ^ k' /\ same_but_loops s s' /\ 10 <= k' <= 30 /\ (k' = 10 \/ 2 ^ k' < T) /\ T <= 2 ^ (k' + 1)
  else double_loop n fuel s = Panic.
Proof using HT Hticks.
  induction n as [|n IH]; intros k s Hf Hs Hk Hlt Hn; [lia|]. cbn [double_loop]. mnorm. rewrite Hs.
  assert (Z.shiftl (2 ^ k) 1 = 2 ^ (k + 1)) as Eshift by (rewrite Z.shiftl_mul_pow2, Z.pow_add_r by lia; lia). rewrite Eshift.
  destruct (too_many_loops_run fuel (u32 (2 ^ (k + 1))) s Hf) as (t & E & _). mstep E.
  destruct (decide (k = 31)) as [->|Hk31].
  - change (u32 (2 ^ (31 + 1))) with 0. rewrite bool_decide_false by lia. cbn [negb]. mnorm. cbn [loops_per_tick set_now set_loops]. rewrite Hs.
    change (u32 (Z.shiftl (2 ^ 31) 1)) with 0. cbn [loops_per_tick set_loops]. change (2 ^ 31) with 2147483648 in *. destruct (T <=? 2147483648) eqn:ET; [apply Z.leb_le in ET; lia|]. done.
  - assert (u32 (2 ^ (k + 1)) = 2 ^ (k + 1)) as Eu by (apply wrapu_id; split; [apply Z.pow_nonneg; lia|apply Z.pow_lt_mono_r; lia]). rewrite Eu. clear E.
    case_bool_decide as Hb; cbn [negb].
    + assert (2 ^ (k + 1) <= 2 ^ 31) by (apply Z.pow_le_mono_r; lia). rewrite (proj2 (Z.leb_le T _)) by lia.
      exists k, (set_now t s). split; [done|]. split; [done|]. split; [done|]. split; [lia|]. split; [done|lia].
    + mnorm. cbn [loops_per_tick set_now set_loops]. rewrite Hs, Eshift, Eu. cbn [loops_per_tick set_loops].
      pose proof (Z.pow_pos_nonneg 2 (k + 1) ltac:(lia) ltac:(lia)). rewrite (proj2 (Z.eqb_neq _ _)) by lia. cbn [negb]. mnorm.
      specialize (IH (k + 1) (set_loops (2 ^ (k + 1)) (set_now t s)) Hf eq_refl ltac:(lia) ltac:(right; lia) ltac:(lia)).
      destruct (T <=? 2 ^ 31); [|done]. destruct IH as (k' & s' & E1 & E2 & E3 & E4). by exists k', s'.
Qed.

Lemma lor_low x i : 0 <= i -> x mod 2 ^ (i + 1) = 0 -> Z.lor x (2 ^ i) = x + 2 ^ i.
Proof using Type.
  intros Hi Hx. assert (Z.land x (2 ^ i) = 0) as Hand.
  { apply Z.bits_inj'. intros n Hn. rewrite Z.land_spec, Z.bits_0, Z.pow2_bits_eqb by done. destruct (i =? n) eqn:E; [|by rewrite andb_false_r].
    apply Z.eqb_eq in E as <-. rewrite andb_true_r. rewrite <- (Z.mod_pow2_bits_low x (i + 1)) by lia. by rewrite Hx, Z.bits_0. }
  rewrite <- Z.lxor_lor by done. symmetry. by apply Z.add_nocarry_lxor.
Qed.

(** What the bits above [i] have added when the tick is [d] rounds longer than
    the leading bit. *)
Definition refined (d i acc : Z) : Prop :=
  (acc = 0 /\ d <= 2 ^ (i + 1)) \/ exists j, i + 1 <= j /\ acc = 2 ^ (j + 1) - 2 ^ (i + 1) /\ 2 ^ j < d <= 2 ^ (j + 1).

Lemma refined_divide d i acc : 0 <= i -> refined d i acc -> acc mod 2 ^ (i + 1) = 0.
Proof using Type.
  intros Hi [[-> _]|(j & Hj & -> & _)]; [done|]. replace (j + 1) with (j - i + (i + 1)) by lia. rewrite Z.pow_add_r by lia. replace (_ - _) with ((2 ^ (j - i) - 1) * 2 ^ (i + 1)) by lia.
  apply Z.mod_mul. apply Z.pow_nonzero; lia.
Qed.

(** Each bit is tested without the bits found before it. *)
Lemma refined_step d i acc : 1 <= i -> refined d i acc -> refined d (i - 1) (if bool_decide (d <= 2 ^ i) then acc else acc + 2 ^ i).
Proof using Type.
  intros Hi H. assert (2 ^ (i + 1) = 2 * 2 ^ i) as E by (rewrite Z.pow_add_r by lia; lia). unfold refined in *. replace (i - 1 + 1) with i by lia. pose proof (Z.pow_pos_nonneg 2 i ltac:(lia) ltac:(lia)).
  destruct H as [[-> Hd]|(j & Hj & -> & Hd)].
  - case_bool_decide; [by left|]. right. exists i. lia.
  - assert (2 ^ i < 2 ^ j) by (apply Z.pow_lt_mono_r; lia). rewrite bool_decide_false by lia. right. exists j. lia.
Qed.

Lemma refine_loop_run fuel k n : (Z.to_nat T < fuel)%nat -> 10 <= k -> forall i s acc, k - 10 <= i <= k - 1 -> loops_per_tick s = 2 ^ k + acc -> refined (T - 2 ^ k) i acc -> i - (k - 10) < Z.of_nat n ->
  exists s' acc', refine_loop n fuel (2 ^ k) (2 ^ i) s = Ok (tt, s') /\ loops_per_tick s' = 2 ^ k + acc' /\ refined (T - 2 ^ k) (k - 10) acc' /\ same_but_loops s s'.
Proof using HT Hticks.
  intros Hf Hk. induction n as [|n IH]; intros i s acc Hi Hs Hr Hn; [lia|]. cbn [refine_loop].
  assert (Z.shiftr (2 ^ k) 10 = 2 ^ (k - 10)) as -> by (rewrite Z.shiftr_div_pow2, <- Z.pow_sub_r by lia; done).
  destruct (decide (i = k - 10)) as [->|Hne].
  - rewrite Z.eqb_refl. exists s, acc. split; [done|]. split; [done|]. by split.
  - assert (2 ^ (k - 10) < 2 ^ i) by (apply Z.pow_lt_mono_r; lia). rewrite (proj2 (Z.eqb_neq _ _)) by lia. cbn [negb].
    assert (2 ^ k mod 2 ^ (i + 1) = 0) as Hdiv by (replace k with (k - (i + 1) + (i + 1)) by lia; rewrite Z.pow_add_r by lia; apply Z.mod_mul, Z.pow_nonzero; lia).
    rewrite (lor_low (2 ^ k) i) by (done || lia). destruct (too_many_loops_run fuel (2 ^ k + 2 ^ i) s Hf) as (t & E & _). mstep E. clear E.
    assert (Z.shiftr (2 ^ i) 1 = 2 ^ (i - 1)) as -> by (rewrite Z.shiftr_div_pow2, <- Z.pow_sub_r by lia; done).
    pose proof (refined_step _ i acc ltac:(lia) Hr) as Hr'. pose proof (refined_divide _ i acc ltac:(lia) Hr) as Hacc.
    destruct (decide (T <= 2 ^ k + 2 ^ i)) as [Hle|Hgt].
    + rewrite bool_decide_true in * by lia. cbn [negb]. mnorm. destruct (IH (i - 1) (set_now t s) acc) as (s' & acc' & E1 & E2); [lia|done|done|lia|]. by exists s', acc'.
    + rewrite bool_decide_false in * by lia. cbn [negb]. mnorm. cbn [loops_per_tick set_now]. rewrite Hs, (lor_low (2 ^ k + acc) i) by (lia || (rewrite Z.add_mod, Hdiv, Hacc by (apply Z.pow_nonzero; lia); done)).
      destruct (IH (i - 1) (set_loops (2 ^ k + acc + 2 ^ i) (set_now t s)) (acc + 2 ^ i)) as (s' & acc' & E1 & E2 & E3 & E4); [lia|cbn; lia|done|lia|]. by exists s', acc'.
Qed.

Lemma ticks_mono t1 t2 : t1 <= t2 -> ticks t1 <= ticks t2.
Proof using HT Hticks. intros H. rewrite !Hticks. apply Z.div_le_mono; lia. Qed.
Lemma ticks_step t1 t2 y : t1 <= t2 <= t1 + y -> ticks t2 <= ticks t1 + y / T + 1.
Proof using HT Hticks.
  intros H. rewrite !Hticks. pose proof (Z.div_mod (t1 + phase) T ltac:(lia)). pose proof (Z.mod_pos_bound (t1 + phase) T HT). pose proof (Z.div_mod y T ltac:(lia)). pose proof (Z.mod_pos_bound y T HT).
  apply Z.lt_succ_r, Z.div_lt_upper_bound; [lia|]. nia.
Qed.
Lemma ticks_before t q : ticks t < q -> t + phase < q * T.
Proof using HT Hticks. rewrite Hticks. intros H. pose proof (Z.div_mod (t + phase) T ltac:(lia)). pose proof (Z.mod_pos_bound (t + phase) T HT). nia. Qed.

Lemma timer_ticks_run s : timer_ticks s = Ok (ticks (now s), s).
Proof using Type. unfold timer_ticks, read_ticks. mnorm. by destruct s. Qed.

(** Every yield takes at most [y] rounds. *)
Context (y : Z) (Hyield : forall t, t < thread_yield t <= t + y).

Lemma sleep_loop_run fuel n : 0 < n -> n + y / T < 2 ^ 63 -> forall start s, 0 <= ticks (now s) - start <= n + y / T -> (Z.to_nat ((start + n) * T - (now s + phase)) < fuel)%nat ->
  exists t, sleep_loop fuel start n s = Ok (tt, set_now t s) /\ n <= ticks t - start <= n + y / T.
Proof using HT Hticks Hyield.
  intros Hn Hb. induction fuel as [|fuel IH]; intros start s Hs Hf; [lia|]. cbn [sleep_loop]. unfold timer_elapsed. mnorm. mstep (timer_ticks_run s).
  assert (s64 (ticks (now s) - start) = ticks (now s) - start) as -> by (apply wraps_id; [lia|unfold is_s; lia]).
  destruct (Z.ltb_spec (ticks (now s) - start) n).
  - mnorm. pose proof (Hyield (now s)) as Hy. pose proof (ticks_mono _ _ (Z.lt_le_incl _ _ (proj1 Hy))). pose proof (ticks_step (now s) (thread_yield (now s)) y ltac:(lia)).
    pose proof (ticks_before (now s) (start + n) ltac:(lia)).
    destruct (IH start (set_now (thread_yield (now s)) s)) as (t & E & Ht); [cbn; lia|cbn; lia|]. exists t. split; [exact E|done].
  - exists (now s). split; [by destruct s|lia].
Qed.

Lemma timer_sleep_run fuel n s : 0 < n -> n + y / T < 2 ^ 63 -> level_on s = true -> (Z.to_nat (n * T) < fuel)%nat ->
  exists t, timer_sleep fuel n s = Ok (tt, set_now t s) /\ n <= ticks t - ticks (now s) <= n + y / T.
Proof using HT Hticks Hyield.
  intros Hn Hb Hl Hf. unfold timer_sleep. mstep (timer_ticks_run s). rewrite Hl. mnorm. apply sleep_loop_run; [done|done| |].
  - assert (0 <= y / T); [|lia]. apply Z.div_pos; [|done]. pose proof (Hyield 0). lia.
  - rewrite Hticks. pose proof (Z.div_mod (now s + phase) T ltac:(lia)). pose proof (Z.mod_pos_bound (now s + phase) T HT). nia.
Qed.
End Clock.

(** ** Properties *)

(** C27: The calibration measures the tick up to a third.  On a clock that ticks
    every [T] rounds, with more than 1024 rounds to a tick, it returns with a
    delay constant that is at most one part in 512 too short; but because each
    refinement bit is tested together with the leading bit alone, and not with
    the bits already found, it may be up to a third too long: when the tick
    exceeds the leading power of two by more than one power of two and by at
    most the next, every bit below is set.  A tick of more than 2^31 rounds is
    a failed assertion.  The speed that is printed is this constant times the
    frequency. *)
Theorem timer_calibrate_value ticks T phase fuel s : 1024 < T -> (forall t, ticks t = (t + phase) / T) -> (Z.to_nat T < fuel)%nat -> level_on s = true ->
  (T <= 2 ^ 31 -> exists k r s', timer_calibrate ticks fuel s = Ok (tt, s') /\ loops_per_tick s' = r /\ loops_s s' = loops_s s ++ [r * TIMER_FREQ] /\
     2 ^ k < T <= 2 ^ (k + 1) /\ 511 * T < 512 * r /\ 3 * r < 4 * T /\ 0 < r < 2 ^ 32 /\
     (forall j, k - 9 <= j -> 2 ^ k + 2 ^ j < T <= 2 ^ k + 2 ^ (j + 1) -> r = 2 ^ k + 2 ^ (j + 1) - 2 ^ (k - 9))) /\
  (2 ^ 31 < T -> timer_calibrate ticks fuel s = Panic).
Proof.
  intros HT Hticks Hf Hl. unfold timer_calibrate. mnorm. rewrite Hl. mnorm. change (Z.shiftl 1 10) with (2 ^ 10).
  pose proof (double_loop_run ticks T phase ltac:(lia) Hticks fuel 23 10 (set_loops (2 ^ 10) s) Hf eq_refl ltac:(lia) ltac:(by left) ltac:(lia)) as HD. split.
  - intros HT31. rewrite (proj2 (Z.leb_le _ _) HT31) in HD. destruct HD as (k & s1 & E1 & L1 & [V1 P1] & Hk & Hlt & Hle). mstep E1. rewrite L1.
    assert (2 ^ k < T) as Hkt by (destruct Hlt as [->|]; [exact HT|done]).
    assert (Z.shiftr (2 ^ k) 1 = 2 ^ (k - 1)) as -> by (rewrite Z.shiftr_div_pow2, <- Z.pow_sub_r by lia; done).
    assert (2 ^ (k + 1) = 2 * 2 ^ k) as Ek by (rewrite Z.pow_add_r by lia; lia).
    destruct (refine_loop_run ticks T phase ltac:(lia) Hticks fuel k 10 Hf ltac:(lia) (k - 1) s1 0 ltac:(lia) ltac:(lia)) as (s2 & r & E2 & L2 & R & [V2 P2]);
      [left; split; [done|]; replace (k - 1 + 1) with k by lia; lia|lia|]. mstep E2. unfold modify.
    assert (2 ^ k = 512 * 2 ^ (k - 9)) as E9 by (replace k with (9 + (k - 9)) at 1 by lia; rewrite Z.pow_add_r by lia; done).
    unfold refined in R. replace (k - 10 + 1) with (k - 9) in R by lia. pose proof (Z.pow_pos_nonneg 2 (k - 9) ltac:(lia) ltac:(lia)) as He.
    assert (2 ^ (k + 1) <= 2 ^ 31) by (apply Z.pow_le_mono_r; lia).
    assert (forall j, k - 9 <= j -> 2 ^ k + 2 ^ j < T <= 2 ^ k + 2 ^ (j + 1) -> r = 2 ^ (j + 1) - 2 ^ (k - 9)) as Hj.
    { intros j Hj1 Hj2. destruct R as [[-> Hd]|(j' & Hj' & -> & Hd)].
      - pose proof (Z.pow_le_mono_r 2 (k - 9) j ltac:(lia) ltac:(lia)). lia.
      - assert (j' = j) as ->; [|done]. destruct (Z.lt_trichotomy j' j) as [Hlt'|[->|Hgt]]; [|done|].
        + pose proof (Z.pow_le_mono_r 2 (j' + 1) j ltac:(lia) ltac:(lia)). lia.
        + pose proof (Z.pow_le_mono_r 2 (j + 1) j' ltac:(lia) ltac:(lia)). lia. }
    assert (0 <= r /\ T - 2 ^ (k - 9) <= 2 ^ k + r /\ 2 ^ k + r < 2 ^ (k + 1) /\ 3 * (2 ^ k + r) < 4 * T) as (B1 & B2 & B3 & B4).
    { destruct R as [[-> Hd]|(j' & Hj' & -> & Hd)]; [lia|]. pose proof (Z.pow_add_r 2 j' 1 ltac:(lia) ltac:(lia)).
      assert (2 ^ (k - 9) <= 2 ^ j') by (apply Z.pow_le_mono_r; lia).
      assert (j' < k) as Hjk. { destruct (decide (j' < k)); [done|]. pose proof (Z.pow_le_mono_r 2 k j' ltac:(lia) ltac:(lia)). lia. }
      pose proof (Z.pow_le_mono_r 2 (j' + 1) k ltac:(lia) ltac:(lia)). lia. }
    exists k, (2 ^ k + r). eexists. split; [reflexivity|]. cbn [loops_per_tick loops_s]. split; [done|]. split.
    + rewrite P2, P1, L2. cbn [loops_s set_loops]. do 2 f_equal. apply wrapu_id. unfold TIMER_FREQ, is_u. lia.
    + split; [lia|]. split; [lia|]. split; [lia|]. split; [lia|]. intros j Hj1 Hj2. rewrite (Hj j Hj1 Hj2). lia.
  - intros HT31. rewrite (proj2 (Z.leb_gt _ _) HT31) in HD. unfold bind at 1. by rewrite HD.
Qed.

(** The delay in rounds, without overflow. *)
Lemma delay_exact lpt num b : 0 <= lpt < 2 ^ 32 -> - 2 ^ 31 <= num < 10 * b -> 0 < b <= 1000 * 1000 -> 
  Z.quot (s64 (Z.quot (s64 (lpt * num)) 1000 * TIMER_FREQ)) b = Z.quot (Z.quot (lpt * num) 1000 * 100) b.
Proof.
  intros Hl Hn Hb. assert (is_s64 (lpt * num)) as H1 by (unfold is_s; nia). rewrite (wraps_id 64 (lpt * num)) by done. unfold TIMER_FREQ.
  rewrite wraps_id; [done|lia|]. unfold is_s in *. pose proof (Z.quot_rem' (lpt * num) 1000). pose proof (Z.rem_bound_abs (lpt * num) 1000 ltac:(lia)).
  lia.
Qed.

(** Sleeping in real-time units.  [timer_msleep], [timer_usleep] and
    [timer_nsleep] sleep at least as many whole ticks as the time has, and at
    most what the last yield adds; a time below one tick is waited for in
    rounds of the delay loop, in proportion to the calibrated tick and rounded
    down by less than one round and 100 rounds of a thousandth of the unit,
    without overflow; times that are not positive return at once. *)
Theorem real_time_sleep_duration ticks thread_yield T phase y fuel s num sleep denom :
  0 < T -> (forall t, ticks t = (t + phase) / T) -> (forall t, t < thread_yield t <= t + y) -> level_on s = true -> 0 <= loops_per_tick s < 2 ^ 32 ->
  (sleep, denom) ∈ [(timer_msleep ticks thread_yield, 10 ^ 3); (timer_usleep ticks thread_yield, 10 ^ 6); (timer_nsleep ticks thread_yield, 10 ^ 9)] ->
  - 2 ^ 31 <= num -> num * TIMER_FREQ < 2 ^ 63 -> num * TIMER_FREQ / denom + y / T < 2 ^ 63 -> (Z.to_nat (num * TIMER_FREQ / denom * T) < fuel)%nat ->
  exists t, sleep fuel num s = Ok (tt, set_now t s) /\
    (num <= 0 -> t = now s) /\
    (0 <= num * TIMER_FREQ < denom -> denom * (t - now s) <= loops_per_tick s * num * TIMER_FREQ < denom * (t - now s) + denom + 10 ^ 5) /\
    (denom <= num * TIMER_FREQ -> num * TIMER_FREQ / denom <= ticks t - ticks (now s) <= num * TIMER_FREQ / denom + y / T).
Proof.
  intros HT Hticks Hyield Hl Hlpt Hin Hn1 Hn2 Hb Hf.
  assert (exists b, denom = 1000 * b /\ 0 < b <= 1000 * 1000 /\ sleep fuel num = real_time_sleep ticks thread_yield fuel num denom) as (b & Ed & Hb1 & ->).
  { rewrite !elem_of_cons, elem_of_nil in Hin. destruct Hin as [E|[E|[E|[]]]]; injection E as -> ->; [exists 1|exists 1000|exists (1000 * 1000)]; repeat split; lia. }
  unfold TIMER_FREQ in *. unfold real_time_sleep, TIMER_FREQ. mnorm. rewrite Hl. mnorm. rewrite (wraps_id 64 (num * 100)) by (lia || (unfold is_s; lia)).
  destruct (decide (denom <= num * 100)) as [Hge|Hlt].
  - rewrite Z.quot_div_nonneg by lia. pose proof (Z.div_str_pos (num * 100) denom ltac:(lia)) as Hpos. rewrite (proj2 (Z.ltb_lt _ _)) by lia.
    destruct (timer_sleep_run ticks thread_yield T phase HT Hticks y Hyield fuel (num * 100 / denom) s Hpos Hb Hl Hf) as (t & E & Ht). exists t. split; [done|].
    split; [lia|]. split; [lia|done].
  - assert (Z.quot (num * 100) denom <= 0) as Hz. { destruct (decide (0 <= num)); [by rewrite Z.quot_small by lia|]. pose proof (Z.quot_opp_l (- (num * 100)) denom ltac:(lia)) as Ho. rewrite Z.opp_involutive in Ho. pose proof (Z.quot_pos (- (num * 100)) denom ltac:(lia) ltac:(lia)). lia. }
    rewrite (proj2 (Z.ltb_ge _ _)) by lia. assert (Z.rem denom 1000 =? 0 = true) as -> by (apply Z.eqb_eq; rewrite Ed, Z.mul_comm; apply Z.rem_mul; lia). mnorm.
    assert (Z.quot denom 1000 = b) as -> by (rewrite Ed, Z.mul_comm; apply Z.quot_mul; lia).
    assert (num < 10 * b) as Hn3 by lia. pose proof (delay_exact (loops_per_tick s) num b Hlpt (conj Hn1 Hn3) Hb1) as Hd. unfold TIMER_FREQ in Hd. rewrite Hd. clear Hd.
    set (l := Z.quot (Z.quot (loops_per_tick s * num) 1000 * 100) b). rewrite busy_wait_run. eexists. split; [reflexivity|].
    assert (num <= 0 -> Z.max 0 l = 0) as Hneg.
    { intros Hn0. assert (l <= 0); [|lia]. unfold l. rewrite <- (Z.opp_involutive (loops_per_tick s * num)), Z.quot_opp_l, Z.mul_opp_l, Z.quot_opp_l by lia.
      assert (0 <= Z.quot (- (loops_per_tick s * num)) 1000) by (apply Z.quot_pos; nia). pose proof (Z.quot_pos (Z.quot (- (loops_per_tick s * num)) 1000 * 100) b ltac:(lia) ltac:(lia)). lia. }
    split; [intros; rewrite Hneg by done; lia|]. split; [|lia]. intros Hn0. replace (now s + Z.max 0 l - now s) with (Z.max 0 l) by lia.
    assert (0 <= loops_per_tick s * num) by nia. unfold l. rewrite (Z.quot_div_nonneg (loops_per_tick s * num)) by lia.
    pose proof (Z.div_pos (loops_per_tick s * num) 1000 ltac:(lia) ltac:(lia)) as Ha0. pose proof (Z.div_mod (loops_per_tick s * num) 1000 ltac:(lia)) as Ha1. pose proof (Z.mod_pos_bound (loops_per_tick s * num) 1000 ltac:(lia)) as Ha2.
    set (a := loops_per_tick s * num / 1000) in *. rewrite Z.quot_div_nonneg by lia. pose proof (Z.div_mod (a * 100) b ltac:(lia)) as Hc1. pose proof (Z.mod_pos_bound (a * 100) b ltac:(lia)) as Hc2. pose proof (Z.div_pos (a * 100) b ltac:(lia) ltac:(lia)).
    rewrite Z.max_r by lia. subst denom. set (c := a * 100 / b) in *. assert (1000 * b * c = 1000 * (b * c)) as -> by lia. lia.
Qed.

(** The interval timer is programmed for the nearest divisor: for every
    frequency that the header accepts the count fits its 16 bits and is within
    half an input period of the exact one, and [timer_init] writes the two
    bytes of the count for 100 Hz, low byte first, and registers the tick
    handler at the vector of line 0. *)
Theorem timer_init_programs_pit freq stubs h s : 19 <= freq <= 1000 -> length (idt s) = 256%nat -> intr_handlers s !! 0x20%nat = Some NULL -> stubs 0x20 <> NULL ->
  0 < pit_count freq < 2 ^ 16 /\ 2 * Z.abs (pit_count freq * freq - 1193180) <= freq /\
  exists s' lo hi, timer_init stubs h s = Ok (tt, s') /\ trace (pic s') = trace (pic s) ++ [Out 0x43 0x34; Out 0x40 lo; Out 0x40 hi] /\ lo + 256 * hi = pit_count TIMER_FREQ /\
    intr_handlers s' = <[0x20%nat := h]> (intr_handlers s).
Proof.
  intros Hf Hi Hh Hs. unfold pit_count at 1 2 3. rewrite (Z.quot_div_nonneg freq 2) by lia. rewrite Z.quot_div_nonneg by (try apply Z.add_nonneg_nonneg; try apply Z.div_pos; lia).
  pose proof (Z.div_mod freq 2 ltac:(lia)). pose proof (Z.mod_pos_bound freq 2 ltac:(lia)). set (a := freq / 2) in *.
  pose proof (Z.div_mod (1193180 + a) freq ltac:(lia)). pose proof (Z.mod_pos_bound (1193180 + a) freq ltac:(lia)). set (c := (1193180 + a) / freq) in *.
  assert (0 < c < 2 ^ 16) by nia. rewrite (wrapu_id 16 c) by (unfold is_u; lia). split; [done|]. split; [lia|].
  unfold timer_init, intr_register_ext, register_handler. cbn [Z.leb]. mnorm. unfold on_pic, outb. unfold modify, bind. cbn [rbind pic set_pic trace intr_handlers answers ASSERT].
  change (Z.to_nat 32) with 32%nat. change ((32 <=? 32) && (32 <=? 47)) with true. unfold get. cbn [ASSERT rbind intr_handlers set_pic]. rewrite Hh. unfold make_intr_gate, make_gate. cbn [deref lift rbind Z.eqb NULL ASSERT rassert]. rewrite (proj2 (Z.eqb_neq (stubs 32) NULL) Hs). cbn.
  do 3 eexists. split; [reflexivity|]. cbn. rewrite <- !app_assoc. by split.
Qed.

(** ** Witnesses *)

(** A tick of 1537 rounds: the constant is 2046. *)
Definition demo_ticks (t : Z) : Z := (t + 5) / 1537.
Definition demo_tstate : tstate := TState 0 0 true [].
Lemma timer_calibrate_value_witness : exists s', timer_calibrate demo_ticks 1600 demo_tstate = Ok (tt, s') /\ loops_per_tick s' = 2046.
Proof.
  destruct (proj1 (timer_calibrate_value demo_ticks 1537 5 1600 demo_tstate ltac:(lia) ltac:(reflexivity) ltac:(lia) eq_refl) ltac:(lia)) as (k & r & s' & E & Er & _ & Hk & _ & _ & _ & H).
  exists s'. split; [exact E|]. rewrite Er. assert (k = 10) as ->.
  { destruct (Z.lt_trichotomy k 10) as [Hlt|[He|Hgt]]; [|exact He|].
    - pose proof (Z.pow_le_mono_r 2 (k + 1) 10 ltac:(lia) ltac:(lia)). lia.
    - pose proof (Z.pow_le_mono_r 2 11 k ltac:(lia) ltac:(lia)). lia. }
  exact (H 9 ltac:(lia) ltac:(lia)).
Defined.

(** 25 milliseconds are two ticks and a half. *)
Definition demo_yield (t : Z) : Z := t + 300.
Lemma real_time_sleep_duration_witness : exists t, timer_msleep demo_ticks demo_yield 4000 25 demo_tstate = Ok (tt, set_now t demo_tstate) /\ 2 <= demo_ticks t - demo_ticks 0.
Proof.
  destruct (real_time_sleep_duration demo_ticks demo_yield 1537 5 300 4000 demo_tstate 25 (timer_msleep demo_ticks demo_yield) (10 ^ 3) ltac:(lia) ltac:(reflexivity) ltac:(unfold demo_yield; lia) eq_refl
    ltac:(cbn; lia) ltac:(left) ltac:(lia) ltac:(vm_compute; reflexivity) ltac:(vm_compute; reflexivity) ltac:(vm_compute; lia)) as (t & E & _ & _ & H).
  exists t. split; [exact E|]. destruct (H ltac:(vm_compute; discriminate)) as [H1 _]. exact H1.
Defined.

Definition demo_istate : istate :=
  IState (replicate 256 (gate_value 1 0 0)) (replicate 256 NULL) (replicate 256 EmptyString) false false false (IO [] []) 0 false 0 0 [] "main" 0.
Lemma timer_init_programs_pit_witness : pit_count 100 = 11932 /\ exists s' lo hi, timer_init (fun v => v + 1) 7 demo_istate = Ok (tt, s') /\ lo + 256 * hi = pit_count TIMER_FREQ.
Proof.
  destruct (timer_init_programs_pit 100 (fun v => v + 1) 7 demo_istate ltac:(lia) ltac:(reflexivity) ltac:(reflexivity) ltac:(discriminate)) as (_ & _ & s' & lo & hi & E & _ & H & _).
  split; [reflexivity|]. exists s', lo, hi. split; [exact E|exact H].
Defined.
