(* ===== verification/Serial.v ===== *)
(** * Serial port and input buffer (devices/serial.c, devices/input.c)

    The two interrupt queues, the transmission mode and the registers of the
    UART.  A call that would have to sleep in a queue is [Block]; what happens
    then is modelled in Intq. *)

From S2P Require Import Prelude Intq Ports.

(** ** State *)

Inductive tmode := UNINIT | POLL | QUEUE.

#[export] Instance tmode_eq_dec : EqDecision tmode.
Proof. solve_decision. Defined.

(** [buffer] is the queue of input.c; [off], [ctx], [cur] and [ready] are the
    interrupt level, whether an external interrupt is handled, the running
    thread and the threads made ready; [vectors] are the external interrupts
    with a handler. *)
Record uart := Uart {
  dev : io; mode : tmode; txq : intq; buffer : intq; off : bool; ctx : bool; cur : Z; ready : list Z; vectors : list Z }.

Definition on_dev {A} (f : M io A) : M uart A := fun s =>
  let! (a, d) := f (dev s) in Ok (a, Uart d (mode s) (txq s) (buffer s) (off s) (ctx s) (cur s) (ready s) (vectors s)).
Definition on_txq {A} (f : M ist A) : M uart A := fun s =>
  let! (a, i) := f (ISt (txq s) (off s) (ctx s) (cur s) (ready s)) in
  Ok (a, Uart (dev s) (mode s) (q i) (buffer s) (intr_off i) (in_intr i) (current i) (unblocked i) (vectors s)).
Definition on_buffer {A} (f : M ist A) : M uart A := fun s =>
  let! (a, i) := f (ISt (buffer s) (off s) (ctx s) (cur s) (ready s)) in
  Ok (a, Uart (dev s) (mode s) (txq s) (q i) (intr_off i) (in_intr i) (current i) (unblocked i) (vectors s)).
Definition set_mode (m : tmode) : M uart unit := modify (fun s =>
  Uart (dev s) m (txq s) (buffer s) (off s) (ctx s) (cur s) (ready s) (vectors s)).
Definition set_off (b : bool) : M uart unit := modify (fun s =>
  Uart (dev s) (mode s) (txq s) (buffer s) b (ctx s) (cur s) (ready s) (vectors s)).

(** The result of a queue operation that did not have to wait. *)
Definition done {A} (o : outcome A) : M uart A := match o with Done a => ret a | _ => lift Block end.

(** [intr_disable] and [intr_set_level]; enabling is not allowed in an external
    interrupt. *)
Definition intr_disable : M uart bool := s ← get; set_off true;; ret (off s).
Definition intr_set_level (old_off : bool) : M uart unit :=
  if old_off then set_off true else (s ← get; ASSERT (negb (ctx s));; set_off false).
(** [intr_register_ext]: a vector has one handler. *)
Definition intr_register_ext (vec : Z) : M uart unit :=
  ASSERT ((0x20 <=? vec) && (vec <=? 0x2f));;
  s ← get;
  ASSERT (bool_decide (vec ∉ vectors s));;
  put (Uart (dev s) (mode s) (txq s) (buffer s) (off s) (ctx s) (cur s) (ready s) (vec :: vectors s)).

(** ** Registers *)

Definition IO_BASE : Z := 0x3f8.
Definition RBR_REG : Z := IO_BASE + 0.
Definition THR_REG : Z := IO_BASE + 0.
Definition IER_REG : Z := IO_BASE + 1.
Definition LS_REG : Z := IO_BASE + 0.
Definition MS_REG : Z := IO_BASE + 1.
Definition IIR_REG : Z := IO_BASE + 2.
Definition FCR_REG : Z := IO_BASE + 2.
Definition LCR_REG : Z := IO_BASE + 3.
Definition MCR_REG : Z := IO_BASE + 4.
Definition LSR_REG : Z := IO_BASE + 5.
Definition IER_RECV : Z := 0x01.
Definition IER_XMIT : Z := 0x02.
Definition LCR_N81 : Z := 0x03.
Definition LCR_DLAB : Z := 0x80.
Definition MCR_OUT2 : Z := 0x08.
Definition LSR_DR : Z := 0x01.
Definition LSR_THRE : Z := 0x20.
Definition lsr_test (v flag : Z) : bool := negb (Z.land v flag =? 0).

(** ** Input buffer (input.c) *)

Definition input_init : M uart unit := on_buffer intq_init.
Definition input_full : M uart bool := s ← get; ASSERT (off s);; on_buffer intq_full.

(** ** Serial port (serial.c) *)

Definition set_serial (bps : Z) : M uart unit :=
  let base_rate := 1843200 / 16 in
  let divisor := u16 (Z.quot base_rate bps) in
  ASSERT ((300 <=? bps) && (bps <=? 115200));;
  on_dev (outb LCR_REG (Z.lor LCR_N81 LCR_DLAB));;
  on_dev (outb LS_REG (Z.land divisor 0xff));;
  on_dev (outb MS_REG (Z.shiftr divisor 8));;
  on_dev (outb LCR_REG LCR_N81).

Definition write_ier : M uart unit :=
  s ← get; ASSERT (off s);;
  e ← on_txq intq_empty;
  let ier := if negb e then Z.lor 0 IER_XMIT else 0 in
  f ← input_full;
  let ier := if negb f then Z.lor ier IER_RECV else ier in
  on_dev (outb IER_REG ier).

(** [while ((inb (LSR_REG) & LSR_THRE) == 0) continue;] *)
Fixpoint wait_thre (fuel : nat) : M uart unit :=
  match fuel with
  | O => out_of_fuel
  | S fuel => v ← on_dev (inb LSR_REG); if negb (lsr_test v LSR_THRE) then wait_thre fuel else ret tt
  end.
Definition putc_poll (byte : Z) : M uart unit :=
  s ← get; ASSERT (off s);;
  wait_thre (length (answers (dev s)));;
  on_dev (outb THR_REG byte).

Definition init_poll : M uart unit :=
  s ← get; ASSERT (bool_decide (mode s = UNINIT));;
  on_dev (outb IER_REG 0);;
  on_dev (outb FCR_REG 0);;
  set_serial 115200;;
  on_dev (outb MCR_REG MCR_OUT2);;
  on_txq intq_init;;
  set_mode POLL.

Definition serial_init_queue : M uart unit :=
  s ← get;
  (if bool_decide (mode s = UNINIT) then init_poll else ret tt);;
  s ← get; ASSERT (bool_decide (mode s = POLL));;
  intr_register_ext (0x20 + 4);;
  set_mode QUEUE;;
  old_level ← intr_disable;
  write_ier;;
  intr_set_level old_level.

Definition serial_notify : M uart unit :=
  s ← get; ASSERT (off s);;
  if bool_decide (mode s = QUEUE) then write_ier else ret tt.

(** The rest of input.c. *)
Definition input_putc (key : Z) : M uart unit :=
  s ← get; ASSERT (off s);;
  f ← on_buffer intq_full; ASSERT (negb f);;
  o ← on_buffer (intq_putc key); done o;;
  serial_notify.
Definition input_getc : M uart Z :=
  old_level ← intr_disable;
  o ← on_buffer intq_getc; key ← done o;
  serial_notify;;
  intr_set_level old_level;; ret key.

Definition serial_putc (byte : Z) : M uart unit :=
  old_level ← intr_disable;
  s ← get;
  (if negb (bool_decide (mode s = QUEUE)) then
     (if bool_decide (mode s = UNINIT) then init_poll else ret tt);;
     putc_poll byte
   else
     f ← (if old_level : bool then on_txq intq_full else ret false);
     (if f : bool then o ← on_txq intq_getc; b ← done o; putc_poll b else ret tt);;
     o ← on_txq (intq_putc byte); done o;;
     write_ier);;
  intr_set_level old_level.

(** [while (!intq_empty (&txq)) putc_poll (intq_getc (&txq));]: the queue has at
    most 63 bytes. *)
Fixpoint flush_loop (fuel : nat) : M uart unit :=
  e ← on_txq intq_empty;
  if e : bool then ret tt
  else match fuel with
       | O => out_of_fuel
       | S fuel => o ← on_txq intq_getc; b ← done o; putc_poll b;; flush_loop fuel
       end.
Definition serial_flush : M uart unit :=
  old_level ← intr_disable;
  flush_loop 63;;
  intr_set_level old_level.

(** The two loops of the interrupt handler: the first stops when the input
    buffer is full, the second when the queue is empty. *)
Fixpoint receive_loop (fuel : nat) : M uart unit :=
  f ← input_full;
  if f : bool then ret tt
  else
    v ← on_dev (inb LSR_REG);
    if lsr_test v LSR_DR then
      match fuel with
      | O => out_of_fuel
      | S fuel => b ← on_dev (inb RBR_REG); input_putc b;; receive_loop fuel
      end
    else ret tt.
Fixpoint transmit_loop (fuel : nat) : M uart unit :=
  e ← on_txq intq_empty;
  if e : bool then ret tt
  else
    v ← on_dev (inb LSR_REG);
    if lsr_test v LSR_THRE then
      match fuel with
      | O => out_of_fuel
      | S fuel => o ← on_txq intq_getc; b ← done o; on_dev (outb THR_REG b);; transmit_loop fuel
      end
    else ret tt.
Definition serial_interrupt : M uart unit :=
  on_dev (inb IIR_REG);;
  receive_loop 63;;
  transmit_loop 63;;
  write_ier.
