(* ===== verification/SerialSpec.v ===== *)
(** * The serial port as a stream (devices/serial.c, devices/input.c)

    The bytes given to [serial_putc] leave in order, through the queue and the
    transmitter register, whatever the device answers and whenever it
    interrupts; the interrupt enable register always says what the queues
    allow. *)

From S2P Require Import Prelude Intq Ports Serial.

(** ** Steps *)

Record uart_ok (s : uart) (tx rx : list Z) : Prop := { uk_tx : intq_ok (txq s) tx; uk_rx : intq_ok (buffer s) rx }.

(** The interrupts that should be enabled. *)
Definition ier (tx rx : list Z) : Z := Z.lor (if bool_decide (tx = []) then 0 else IER_XMIT) (if (length rx =? 63)%nat then 0 else IER_RECV).

(** The values read from a port. *)
Definition reads_of (port : Z) (a : access) : option Z := match a with In p v => if p =? port then Some v else None | Out _ _ => None end.
Definition read_from (port : Z) (l : list access) : list Z := omap (reads_of port) l.
Lemma read_from_app port l k : read_from port (l ++ k) = read_from port l ++ read_from port k.
Proof. apply omap_app. Qed.

(** From [s] to [s'] the driver made the accesses [l]. *)
Record step (s s' : uart) (tx rx : list Z) (l : list access) : Prop := {
  sp_ok : uart_ok s' tx rx;
  sp_trace : trace (dev s') = trace (dev s) ++ l;
  sp_mode : mode s' = mode s;
  sp_off : off s' = off s;
  sp_ctx : ctx s' = ctx s;
  sp_cur : cur s' = cur s;
  sp_ans : exists u, answers (dev s) = u ++ answers (dev s') /\ length u = length (List.filter (fun a => match a with In _ _ => true | _ => false end) l)
}.

Lemma step_refl s tx rx : uart_ok s tx rx -> step s s tx rx [].
Proof. intros H. split; try done; [by rewrite app_nil_r|by exists []]. Qed.

Lemma step_trans s1 s2 s3 tx rx tx' rx' l k : step s1 s2 tx rx l -> step s2 s3 tx' rx' k -> step s1 s3 tx' rx' (l ++ k).
Proof.
  intros [A1 A2 A3 A4 A5 A6 (u & A7 & A8)] [B1 B2 B3 B4 B5 B6 (v & B7 & B8)]. split; [done|by rewrite B2, A2, app_assoc|congruence..|].
  exists (u ++ v). split; [by rewrite A7, B7, app_assoc|]. by rewrite List.filter_app, !length_app, A8, B8.
Qed.

(** ** Operations on the queues and the device *)

Lemma out_run s port v tx rx : uart_ok s tx rx -> exists s', on_dev (outb port v) s = Ok (tt, s') /\ step s s' tx rx [Out port v].
Proof. intros [H1 H2]. eexists. split; [reflexivity|]. split; [by split|done..|by exists []]. Qed.

Lemma in_run s port tx rx : uart_ok s tx rx ->
  match answers (dev s) with
  | [] => on_dev (inb port) s = NoFuel
  | v :: _ => exists s', on_dev (inb port) s = Ok (v, s') /\ step s s' tx rx [In port v]
  end.
Proof.
  intros [H1 H2]. unfold on_dev, inb. destruct (answers (dev s)) as [|v l] eqn:E; [done|]. eexists. split; [done|]. split; [by split|done..|]. exists [v]. by rewrite E.
Qed.

Lemma tx_empty_run s tx rx : uart_ok s tx rx -> off s = true -> on_txq intq_empty s = Ok (bool_decide (tx = []), s).
Proof.
  intros [H1 H2] Ho. unfold on_txq. rewrite (intq_empty_run _ tx) by done. cbn. by destruct s; cbn in *; subst.
Qed.

Lemma tx_full_run s tx rx : uart_ok s tx rx -> off s = true -> on_txq intq_full s = Ok ((length tx =? 63)%nat, s).
Proof.
  intros [H1 H2] Ho. unfold on_txq. rewrite (intq_full_run _ tx) by done. cbn. by destruct s; cbn in *; subst.
Qed.

Lemma rx_full_run s tx rx : uart_ok s tx rx -> off s = true -> on_buffer intq_full s = Ok ((length rx =? 63)%nat, s).
Proof.
  intros [H1 H2] Ho. unfold on_buffer. rewrite (intq_full_run _ rx) by done. cbn. by destruct s; cbn in *; subst.
Qed.

Lemma input_full_run s tx rx : uart_ok s tx rx -> off s = true -> input_full s = Ok ((length rx =? 63)%nat, s).
Proof. intros H Ho. unfold input_full. mnorm. rewrite Ho. mnorm. by eapply rx_full_run. Qed.

Lemma tx_get_run s x tx rx : uart_ok s (x :: tx) rx -> off s = true -> exists s', on_txq intq_getc s = Ok (Done x, s') /\ step s s' tx rx [].
Proof.
  intros [H1 H2] Ho. destruct (getc_run (ISt (txq s) (off s) (ctx s) (cur s) (ready s)) x tx H1 Ho) as (i & E & H & I1 & I2 & I3 & _).
  unfold on_txq. rewrite E. eexists. split; [done|]. split; cbn in *; [by split|by rewrite app_nil_r|done|congruence|done|done|by exists []].
Qed.

Lemma tx_put_run s b tx rx : uart_ok s tx rx -> off s = true -> length tx <> 63%nat -> exists s', on_txq (intq_putc b) s = Ok (Done tt, s') /\ step s s' (tx ++ [b]) rx [].
Proof.
  intros [H1 H2] Ho Hf. destruct (putc_run (ISt (txq s) (off s) (ctx s) (cur s) (ready s)) tx b H1 Ho Hf) as (i & E & H & I1 & I2 & I3 & _).
  unfold on_txq. rewrite E. eexists. split; [done|]. split; cbn in *; [by split|by rewrite app_nil_r|done|congruence|done|done|by exists []].
Qed.

Lemma rx_put_run s b tx rx : uart_ok s tx rx -> off s = true -> length rx <> 63%nat -> exists s', on_buffer (intq_putc b) s = Ok (Done tt, s') /\ step s s' tx (rx ++ [b]) [].
Proof.
  intros [H1 H2] Ho Hf. destruct (putc_run (ISt (buffer s) (off s) (ctx s) (cur s) (ready s)) rx b H2 Ho Hf) as (i & E & H & I1 & I2 & I3 & _).
  unfold on_buffer. rewrite E. eexists. split; [done|]. split; cbn in *; [by split|by rewrite app_nil_r|done|congruence|done|done|by exists []].
Qed.

Lemma rx_get_run s x tx rx : uart_ok s tx (x :: rx) -> off s = true -> exists s', on_buffer intq_getc s = Ok (Done x, s') /\ step s s' tx rx [].
Proof.
  intros [H1 H2] Ho. destruct (getc_run (ISt (buffer s) (off s) (ctx s) (cur s) (ready s)) x rx H2 Ho) as (i & E & H & I1 & I2 & I3 & _).
  unfold on_buffer. rewrite E. eexists. split; [done|]. split; cbn in *; [by split|by rewrite app_nil_r|done|congruence|done|done|by exists []].
Qed.

(** ** The interrupt enable register *)

Lemma write_ier_run s tx rx : uart_ok s tx rx -> off s = true -> exists s', write_ier s = Ok (tt, s') /\ step s s' tx rx [Out IER_REG (ier tx rx)].
Proof.
  intros H Ho. unfold write_ier. mnorm. rewrite Ho. mnorm. mstep (tx_empty_run s tx rx H Ho). mstep (input_full_run s tx rx H Ho).
  unfold ier. destruct (bool_decide (tx = [])), (length rx =? 63)%nat; apply (out_run s IER_REG _ tx rx H).
Qed.

(** What a driver tells the device when a queue changed. *)
Definition notice (m : tmode) (tx rx : list Z) : list access := if bool_decide (m = QUEUE) then [Out IER_REG (ier tx rx)] else [].

Lemma serial_notify_run s tx rx : uart_ok s tx rx -> off s = true -> exists s', serial_notify s = Ok (tt, s') /\ step s s' tx rx (notice (mode s) tx rx).
Proof.
  intros H Ho. unfold serial_notify, notice. mnorm. rewrite Ho. mnorm. destruct (bool_decide (mode s = QUEUE)); [by apply write_ier_run|].
  exists s. split; [done|]. by apply step_refl.
Qed.

Lemma input_putc_run s b tx rx : uart_ok s tx rx -> off s = true -> length rx <> 63%nat ->
  exists s', input_putc b s = Ok (tt, s') /\ step s s' tx (rx ++ [b]) (notice (mode s) tx (rx ++ [b])).
Proof.
  intros H Ho Hf. unfold input_putc. mnorm. rewrite Ho. mnorm. mstep (rx_full_run s tx rx H Ho). rewrite (proj2 (Nat.eqb_neq _ _) Hf). cbn [negb]. mnorm.
  destruct (rx_put_run s b tx rx H Ho Hf) as (s1 & E1 & S1). mstep E1. cbn [done]. mnorm.
  destruct (serial_notify_run s1 tx (rx ++ [b])) as (s2 & E2 & S2); [apply S1|by rewrite (sp_off _ _ _ _ _ S1)|]. rewrite E2. exists s2. split; [done|].
  rewrite (sp_mode _ _ _ _ _ S1) in S2. exact (step_trans _ _ _ _ _ _ _ _ _ S1 S2).
Qed.

(** ** Polling *)

Definition lsr_reads (vs : list Z) : list access := In LSR_REG <$> vs.

Definition is_ready (v : Z) : bool := lsr_test v LSR_THRE.
Definition ready_cnt (l : list Z) : nat := length (List.filter is_ready l).

Lemma ready_cnt_app l k : ready_cnt (l ++ k) = (ready_cnt l + ready_cnt k)%nat.
Proof. unfold ready_cnt. by rewrite List.filter_app, length_app. Qed.

(** Either the device never says that it is ready, or the reads up to the first
    answer that does are made. *)
Lemma wait_thre_run fuel s tx rx : uart_ok s tx rx -> (length (answers (dev s)) <= fuel)%nat ->
  (ready_cnt (answers (dev s)) = 0%nat /\ wait_thre fuel s = NoFuel) \/
  exists vs s', wait_thre fuel s = Ok (tt, s') /\ step s s' tx rx (lsr_reads vs) /\ answers (dev s) = vs ++ answers (dev s') /\ ready_cnt vs = 1%nat.
Proof.
  revert s. induction fuel as [|fuel IH]; intros s H Hf; cbn [wait_thre].
  { left. destruct (answers (dev s)); [done|cbn in Hf; lia]. }
  pose proof (in_run s LSR_REG tx rx H) as Hin. destruct (answers (dev s)) as [|v l] eqn:Ea.
  { left. split; [done|]. unfold bind. by rewrite Hin. }
  destruct Hin as (s1 & E1 & S1). mstep E1.
  assert (answers (dev s1) = l) as El.
  { destruct (sp_ans _ _ _ _ _ S1) as (u & Eu & Hu). rewrite Ea in Eu. cbn in Hu. destruct u as [|x [|? ?]]; try done. by injection Eu. }
  unfold ready_cnt. cbn [List.filter]. fold (is_ready v). destruct (is_ready v) eqn:Et; cbn [negb].
  - right. exists [v], s1. split; [done|]. split; [done|]. split; [by rewrite El|]. cbn [List.filter]. by rewrite Et.
  - destruct (IH s1 (sp_ok _ _ _ _ _ S1) ltac:(rewrite El; cbn in Hf; lia)) as [[F E]|(vs & s2 & E & S2 & Ev & Hr)].
    + left. by rewrite El in F.
    + right. exists (v :: vs), s2. split; [done|]. split; [exact (step_trans _ _ _ _ _ _ _ _ _ S1 S2)|]. rewrite El in Ev. split; [by rewrite Ev|].
      cbn [List.filter]. by rewrite Et.
Qed.

Lemma putc_poll_run s b tx rx : uart_ok s tx rx -> off s = true ->
  (ready_cnt (answers (dev s)) = 0%nat /\ putc_poll b s = NoFuel) \/
  exists vs s', putc_poll b s = Ok (tt, s') /\ step s s' tx rx (lsr_reads vs ++ [Out THR_REG b]) /\
    answers (dev s) = vs ++ answers (dev s') /\ ready_cnt vs = 1%nat.
Proof.
  intros H Ho. unfold putc_poll. mnorm. rewrite Ho. mnorm.
  destruct (wait_thre_run (length (answers (dev s))) s tx rx H ltac:(lia)) as [[F E]|(vs & s1 & E & S1 & Ev & Hr)]; [left; split; [done|]; unfold bind; by rewrite E|].
  right. mstep E. destruct (out_run s1 THR_REG b tx rx (sp_ok _ _ _ _ _ S1)) as (s2 & E2 & S2). exists vs, s2. split; [done|]. split; [by eapply step_trans|].
  destruct (sp_ans _ _ _ _ _ S2) as (u & Eu & Hu). destruct u; [|done]. cbn in Eu. by rewrite <- Eu.
Qed.

(** ** What the accesses mean *)

(** The accesses [l] send the bytes [out] and leave the line control register
    alone. *)
Definition sends (l : list access) (out : list Z) : Prop := written_to THR_REG l = out /\ written_to LCR_REG l = [].

Lemma sends_app l k o p : sends l o -> sends k p -> sends (l ++ k) (o ++ p).
Proof. intros [H1 H2] [H3 H4]. split; rewrite written_to_app; [by rewrite H1, H3|by rewrite H2, H4]. Qed.
Lemma sends_reads vs : sends (lsr_reads vs) [].
Proof. split; induction vs; done. Qed.
Lemma sends_ier v : sends [Out IER_REG v] [].
Proof. done. Qed.
Lemma sends_notice m tx rx : sends (notice m tx rx) [].
Proof. unfold notice. by destruct (bool_decide _). Qed.
Lemma written_reads port vs : written_to port (lsr_reads vs) = [].
Proof. induction vs; done. Qed.

(** The accesses read no data. *)
Definition quiet (l : list access) : Prop := read_from RBR_REG l = [].
Lemma quiet_app l k : quiet l -> quiet k -> quiet (l ++ k).
Proof. unfold quiet. intros H1 H2. by rewrite read_from_app, H1, H2. Qed.
Lemma quiet_reads vs : quiet (lsr_reads vs).
Proof. induction vs; done. Qed.

(** ** Interrupt level *)

Definition with_off (b : bool) (s : uart) : uart := Uart (dev s) (mode s) (txq s) (buffer s) b (ctx s) (cur s) (ready s) (vectors s).
(** Interrupts are off while an external interrupt is handled. *)
Definition level_ok (s : uart) : Prop := ctx s = true -> off s = true.

Lemma disable_run s : intr_disable s = Ok (off s, with_off true s).
Proof. done. Qed.
Lemma uart_ok_off s b tx rx : uart_ok s tx rx -> uart_ok (with_off b s) tx rx.
Proof. intros [H1 H2]. by split. Qed.

Lemma restore_run s s2 tx rx l : level_ok s -> step (with_off true s) s2 tx rx l ->
  exists s', intr_set_level (off s) s2 = Ok (tt, s') /\ step s s' tx rx l.
Proof.
  intros Hl [A1 A2 A3 A4 A5 A6 A7]. exists (with_off (off s) s2). split.
  - unfold intr_set_level. destruct (off s) eqn:Eo; [done|]. mnorm. cbn in A5. destruct (ctx s2) eqn:Ec; [|done]. rewrite Hl in Eo by congruence. done.
  - split; cbn in *; try done. by apply uart_ok_off.
Qed.

(** ** Sending *)

(** Flushing sends the whole queue, unless the device is ready less often than
    there are bytes. *)
Lemma flush_loop_run n s tx rx : uart_ok s tx rx -> off s = true -> (length tx <= n)%nat ->
  (flush_loop n s = NoFuel /\ (ready_cnt (answers (dev s)) < length tx)%nat) \/
  exists s' l, flush_loop n s = Ok (tt, s') /\ step s s' [] rx l /\ sends l tx /\ quiet l /\ written_to IER_REG l = [].
Proof.
  revert s tx. induction n as [|n IH]; intros s tx H Ho Hn; cbn [flush_loop]; mstep (tx_empty_run s tx rx H Ho); destruct tx as [|x tx]; try (cbn in Hn; lia).
  - right. exists s, []. split; [done|]. split; [by apply step_refl|done].
  - right. exists s, []. split; [done|]. split; [by apply step_refl|done].
  - rewrite bool_decide_false by done. destruct (tx_get_run s x tx rx H Ho) as (s1 & E1 & S1). mstep E1. cbn [done]. mnorm.
    pose proof (sp_off _ _ _ _ _ S1) as Ho1. rewrite Ho in Ho1.
    assert (answers (dev s1) = answers (dev s)) as Ea by (destruct (sp_ans _ _ _ _ _ S1) as (u & Eu & Hu); destruct u; done).
    destruct (putc_poll_run s1 x tx rx (sp_ok _ _ _ _ _ S1) Ho1) as [[F E]|(vs & s2 & E & S2 & Ev & Hr)].
    { left. split; [unfold bind; by rewrite E|]. rewrite Ea in F. cbn. lia. }
    mstep E. pose proof (step_trans _ _ _ _ _ _ _ _ _ S1 S2) as S12. cbn [app] in S12. pose proof (sp_off _ _ _ _ _ S12) as Ho2. rewrite Ho in Ho2.
    destruct (IH s2 tx (sp_ok _ _ _ _ _ S12) Ho2 ltac:(cbn in Hn; lia)) as [[E3 Hc]|(s3 & l & E3 & S3 & Hs & Hq & Hw)].
    + left. split; [done|]. rewrite <- Ea, Ev, ready_cnt_app, Hr. cbn. lia.
    + right. exists s3, ((lsr_reads vs ++ [Out THR_REG x]) ++ l). split; [done|]. split; [by eapply step_trans|].
      split; [|split; [apply quiet_app; [apply quiet_app; [apply quiet_reads|done]|done]|by rewrite !written_to_app, written_reads, Hw]].
      change (x :: tx) with (([] ++ [x]) ++ tx). apply sends_app; [|done]. apply sends_app; [apply sends_reads|done].
Qed.

(** ** The interrupt handler *)

Definition ins (l : list access) : nat := length (List.filter (fun a => match a with In _ _ => true | _ => false end) l).

(** Receiving goes on while there is room and data. *)
Lemma receive_loop_run n s tx rx : uart_ok s tx rx -> off s = true -> (63 - length rx <= n)%nat -> (length rx <= 63)%nat ->
  (receive_loop n s = NoFuel /\ (length (answers (dev s)) <= 2 * n)%nat) \/
  exists s' l recv, receive_loop n s = Ok (tt, s') /\ step s s' tx (rx ++ recv) l /\ sends l [] /\ read_from RBR_REG l = recv /\
    (ins l <= 2 * n + 1)%nat /\ (length (rx ++ recv) <= 63)%nat /\
    (length (rx ++ recv) = 63%nat \/ exists v, last (read_from LSR_REG l) = Some v /\ lsr_test v LSR_DR = false).
Proof.
  revert s rx. induction n as [|n IH]; intros s rx H Ho Hn Hle; cbn [receive_loop]; mstep (input_full_run s tx rx H Ho).
  { assert (length rx = 63%nat) as -> by lia. right. exists s, [], []. rewrite app_nil_r. split; [done|]. split; [by apply step_refl|]. split; [done|]. split; [done|]. cbn. split; [lia|]. split; [lia|left; lia]. }
  destruct (Nat.eqb_spec (length rx) 63) as [E63|N63].
  { right. exists s, [], []. rewrite app_nil_r. split; [done|]. split; [by apply step_refl|]. split; [done|]. split; [done|]. cbn. split; [lia|]. split; [lia|by left]. }
  pose proof (in_run s LSR_REG tx rx H) as Hin. destruct (answers (dev s)) as [|v a] eqn:Ea.
  { left. split; [unfold bind; by rewrite Hin|cbn; lia]. }
  destruct Hin as (s1 & E1 & S1). mstep E1. pose proof (sp_off _ _ _ _ _ S1) as Ho1. rewrite Ho in Ho1. destruct (lsr_test v LSR_DR) eqn:Ev.
  2: { right. exists s1, [In LSR_REG v], []. rewrite app_nil_r. split; [done|]. split; [done|]. split; [done|]. split; [done|]. cbn. split; [lia|]. split; [lia|]. right. by exists v. }
  assert (answers (dev s1) = a) as Ea1.
  { destruct (sp_ans _ _ _ _ _ S1) as (u & Eu & Hu). rewrite Ea in Eu. cbn in Hu. destruct u as [|x [|? ?]]; try done. by injection Eu. }
  pose proof (in_run s1 RBR_REG tx rx (sp_ok _ _ _ _ _ S1)) as Hin. rewrite Ea1 in Hin. destruct a as [|b a].
  { left. split; [unfold bind; by rewrite Hin|cbn; lia]. }
  destruct Hin as (s2 & E2 & S2). mstep E2. pose proof (step_trans _ _ _ _ _ _ _ _ _ S1 S2) as S12. pose proof (sp_off _ _ _ _ _ S12) as Ho2. rewrite Ho in Ho2.
  destruct (input_putc_run s2 b tx rx (sp_ok _ _ _ _ _ S12) Ho2 N63) as (s3 & E3 & S3). mstep E3. pose proof (step_trans _ _ _ _ _ _ _ _ _ S12 S3) as S13.
  pose proof (sp_off _ _ _ _ _ S13) as Ho3. rewrite Ho in Ho3.
  assert (ins (notice (mode s2) tx (rx ++ [b])) = 0%nat /\ read_from RBR_REG (notice (mode s2) tx (rx ++ [b])) = []) as [Hni Hnr] by (unfold notice; by destruct (bool_decide _)).
  destruct (IH s3 (rx ++ [b]) (sp_ok _ _ _ _ _ S13) Ho3) as [[E4 Hl]|(s4 & l & recv & E4 & S4 & Hs & Hr & Hi & Hle4 & Hstop)]; [rewrite length_app; cbn; lia..| |].
  - left. split; [done|]. destruct (sp_ans _ _ _ _ _ S13) as (u & Eu & Hu). rewrite Ea in Eu. apply (f_equal length) in Eu. rewrite length_app in Eu. cbn [length] in *.
    fold (ins ([In LSR_REG v; In RBR_REG b] ++ notice (mode s2) tx (rx ++ [b]))) in Hu. unfold ins in *. rewrite List.filter_app, length_app, Hni in Hu. cbn in Hu. lia.
  - right. exists s4, (([In LSR_REG v] ++ [In RBR_REG b]) ++ notice (mode s2) tx (rx ++ [b]) ++ l), (b :: recv). rewrite <- app_assoc in S4, Hle4, Hstop. cbn [app] in S4, Hle4, Hstop.
    split; [done|]. split; [rewrite app_assoc; exact (step_trans _ _ _ _ _ _ _ _ _ S13 S4)|]. split.
    { apply (sends_app _ _ [] []); [done|]. apply (sends_app _ _ [] []); [apply sends_notice|done]. }
    split; [rewrite !read_from_app, Hnr, Hr; done|]. split; [unfold ins in *; rewrite !List.filter_app, !length_app, Hni; cbn; lia|]. split; [done|].
    destruct Hstop as [Hf|(v' & Hl & Ht)]; [by left|]. right. exists v'. split; [|done]. rewrite !read_from_app, last_app, last_app, Hl. done.
Qed.

(** Transmitting goes on while there are bytes and the device is ready. *)
Lemma transmit_loop_run n s tx rx : uart_ok s tx rx -> off s = true -> (length tx <= n)%nat ->
  (transmit_loop n s = NoFuel /\ (length (answers (dev s)) <= n)%nat) \/
  exists s' l out tx', transmit_loop n s = Ok (tt, s') /\ step s s' tx' rx l /\ tx = out ++ tx' /\ sends l out /\ read_from RBR_REG l = [] /\ (ins l <= n + 1)%nat /\
    (tx' = [] \/ exists v, last (read_from LSR_REG l) = Some v /\ is_ready v = false).
Proof.
  revert s tx. induction n as [|n IH]; intros s tx H Ho Hn; cbn [transmit_loop]; mstep (tx_empty_run s tx rx H Ho); destruct tx as [|x tx]; try (cbn in Hn; lia).
  1,2: right; exists s, [], [], []; (split; [done|]); (split; [by apply step_refl|]); repeat (split; [done || (cbn; lia)|]); by left.
  rewrite bool_decide_false by done. pose proof (in_run s LSR_REG _ rx H) as Hin. destruct (answers (dev s)) as [|v a] eqn:Ea.
  { left. split; [unfold bind; by rewrite Hin|cbn; lia]. }
  destruct Hin as (s1 & E1 & S1). mstep E1. pose proof (sp_off _ _ _ _ _ S1) as Ho1. rewrite Ho in Ho1. fold (is_ready v). destruct (is_ready v) eqn:Ev.
  2: { right. exists s1, [In LSR_REG v], [], (x :: tx). split; [done|]. split; [done|]. repeat (split; [done || (cbn; lia)|]). right. by exists v. }
  destruct (tx_get_run s1 x tx rx (sp_ok _ _ _ _ _ S1) Ho1) as (s2 & E2 & S2). mstep E2. cbn [done]. mnorm.
  destruct (out_run s2 THR_REG x tx rx (sp_ok _ _ _ _ _ S2)) as (s3 & E3 & S3). mstep E3.
  pose proof (step_trans _ _ _ _ _ _ _ _ _ (step_trans _ _ _ _ _ _ _ _ _ S1 S2) S3) as S13. pose proof (sp_off _ _ _ _ _ S13) as Ho3. rewrite Ho in Ho3. cbn [app] in S13.
  destruct (IH s3 tx (sp_ok _ _ _ _ _ S13) Ho3 ltac:(cbn in Hn; lia)) as [[E4 Hl]|(s4 & l & out & tx' & E4 & S4 & -> & Hs & Hr & Hi & Hstop)].
  - left. split; [done|]. destruct (sp_ans _ _ _ _ _ S13) as (u & Eu & Hu). rewrite Ea in Eu. apply (f_equal length) in Eu. rewrite length_app in Eu. cbn [length] in *. cbn in Hu. lia.
  - right. exists s4, ([In LSR_REG v; Out THR_REG x] ++ l), (x :: out), tx'. split; [done|]. split; [by eapply step_trans|]. split; [done|]. split; [by apply (sends_app _ _ [x] out)|].
    split; [done|]. split; [cbn; unfold ins in Hi; lia|]. destruct Hstop as [Hf|(v' & Hl & Ht)]; [by left|]. right. exists v'. split; [|done]. rewrite read_from_app, last_app, Hl. done.
Qed.

(** ** Whole operations *)

Lemma intq_len x c : intq_ok x c -> (length c <= 63)%nat.
Proof. intros [_ _ _ <- _ _]. rewrite length_queue. pose proof (used_range x). lia. Qed.

Lemma serial_putc_run s tx rx b : uart_ok s tx rx -> mode s = QUEUE -> level_ok s ->
  match serial_putc b s with
  | Ok (_, s') => exists l out tx', step s s' tx' rx l /\ tx ++ [b] = out ++ tx' /\ sends l out /\ quiet l /\ last (written_to IER_REG l) = Some (ier tx' rx)
  | NoFuel => off s = true /\ length tx = 63%nat /\ ready_cnt (answers (dev s)) = 0%nat
  | Block => off s = false /\ length tx = 63%nat
  | Panic => off s = false /\ length tx = 63%nat /\ Intq.lock (txq s) = Some (cur s)
  | Fault => False
  end.
Proof.
  intros H Hm Hl. unfold serial_putc. mstep (disable_run s). set (s0 := with_off true s). assert (uart_ok s0 tx rx) as H0 by by apply uart_ok_off.
  change (mode s0) with (mode s). rewrite Hm. cbn [negb bool_decide]. rewrite bool_decide_true by done. cbn [negb]. rewrite !bind_bind.
  assert (forall s1 tx1 l1 out, step s0 s1 tx1 rx l1 -> length tx1 <> 63%nat -> tx = out ++ tx1 -> sends l1 out -> quiet l1 ->
    exists s', (o ← on_txq (intq_putc b); (done o;; write_ier);; intr_set_level (off s)) s1 = Ok (tt, s') /\
      exists l out tx', step s s' tx' rx l /\ tx ++ [b] = out ++ tx' /\ sends l out /\ quiet l /\ last (written_to IER_REG l) = Some (ier tx' rx)) as Hput.
  { intros s1 tx1 l1 out S1 Hne Ht Hs Hq. pose proof (sp_off _ _ _ _ _ S1) as Ho1. cbn in Ho1. destruct (tx_put_run s1 b tx1 rx (sp_ok _ _ _ _ _ S1) Ho1 Hne) as (s2 & E2 & S2).
    mstep E2. cbn [done]. mnorm. pose proof (sp_off _ _ _ _ _ S2) as Ho2. rewrite Ho1 in Ho2. destruct (write_ier_run s2 _ rx (sp_ok _ _ _ _ _ S2) Ho2) as (s3 & E3 & S3). mstep E3.
    pose proof (step_trans _ _ _ _ _ _ _ _ _ (step_trans _ _ _ _ _ _ _ _ _ S1 S2) S3) as S13. destruct (restore_run s s3 _ _ _ Hl S13) as (s4 & E4 & S4).
    exists s4. split; [done|]. exists ((l1 ++ []) ++ [Out IER_REG (ier (tx1 ++ [b]) rx)]), out, (tx1 ++ [b]). split; [done|]. split; [by rewrite Ht, <- app_assoc|].
    rewrite app_nil_r. split; [rewrite <- (app_nil_r out); apply sends_app; [done|apply sends_ier]|].
    split; [by apply quiet_app|]. rewrite written_to_app, last_app. done. }
  assert (forall (r : result (unit * uart)) s', r = Ok (tt, s') -> (exists l out tx', step s s' tx' rx l /\ tx ++ [b] = out ++ tx' /\ sends l out /\ quiet l /\ last (written_to IER_REG l) = Some (ier tx' rx)) ->
    match r with Ok (_, s') => exists l out tx', step s s' tx' rx l /\ tx ++ [b] = out ++ tx' /\ sends l out /\ quiet l /\ last (written_to IER_REG l) = Some (ier tx' rx)
    | NoFuel => off s = true /\ length tx = 63%nat /\ ready_cnt (answers (dev s)) = 0%nat | Block => off s = false /\ length tx = 63%nat | Panic => off s = false /\ length tx = 63%nat /\ Intq.lock (txq s) = Some (cur s) | Fault => False end) as Hok by (by intros r s' ->).
  destruct (decide (length tx = 63%nat)) as [E63|N63].
  - destruct (off s) eqn:Eo.
    + mstep (tx_full_run s0 tx rx H0 eq_refl). rewrite (proj2 (Nat.eqb_eq _ _) E63). destruct tx as [|x tx]; [done|].
      destruct (tx_get_run s0 x tx rx H0 eq_refl) as (s1 & E1 & S1). rewrite !bind_bind. mstep E1. cbn [done]. mnorm.
      destruct (putc_poll_run s1 x tx rx (sp_ok _ _ _ _ _ S1) (sp_off _ _ _ _ _ S1)) as [[F E]|(vs & s2 & E & S2 & Ev & Hr)].
      { assert (forall B (f : unit -> M uart B), bind (putc_poll x) f s1 = NoFuel) as -> by (intros B f; unfold bind; by rewrite E).
        destruct (sp_ans _ _ _ _ _ S1) as (u & Eu & Hu). destruct u; [|done]. cbn in Eu. by rewrite Eu. }
      mstep E. destruct (Hput s2 tx _ [x] (step_trans _ _ _ _ _ _ _ _ _ S1 S2)) as (s' & E' & H'); [cbn in E63; lia|done| |cbn [app]; apply quiet_app; [apply quiet_reads|done]|].
      2: { exact (Hok _ s' E' H'). }
      cbn [app]. rewrite <- (app_nil_l [x]). apply sends_app; [apply sends_reads|done].
    + mnorm. assert ((on_txq (intq_putc b) s0 = Panic /\ Intq.lock (txq s) = Some (cur s)) \/
        exists o s1, on_txq (intq_putc b) s0 = Ok (o, s1) /\ (o = AtLock \/ o = Asleep)) as [[E Hk]|(o & s1 & E & Hb)].
      { unfold on_txq. unfold intq_putc. mnorm. cbn [intr_off s0 with_off off]. mnorm.
        mstep (intq_full_run (ISt (txq s) true (ctx s) (cur s) (ready s)) tx (uk_tx _ _ _ H) eq_refl). rewrite (proj2 (Nat.eqb_eq _ _) E63).
        rewrite (lock_and_wait_run NotFull (ISt (txq s) true (ctx s) (cur s) (ready s)) tx (uk_tx _ _ _ H) eq_refl) by (cbn; by rewrite E63). cbn [in_intr q current].
        assert (ctx s = false) as -> by (destruct (ctx s) eqn:Ec; [|done]; by rewrite Hl in Eo).
        destruct (Intq.lock (txq s)) as [h|]; [|right; eexists _, _; split; [done|by right]]. destruct (Z.eqb_spec h (cur s)) as [->|]; [by left|]. right. eexists _, _. split; [done|by left]. }
      { unfold bind at 1. by rewrite E. }
      unfold bind at 1. rewrite E. by destruct Hb as [-> | ->].
  - assert ((if off s then on_txq intq_full else ret false) s0 = Ok (false, s0)) as E0.
    { destruct (off s); [|done]. rewrite (tx_full_run s0 tx rx H0 eq_refl). by rewrite (proj2 (Nat.eqb_neq _ _) N63). }
    mstep E0. destruct (Hput s0 tx [] [] (step_refl s0 tx rx H0) N63) as (s' & E' & H'); [done|done|done|by apply (Hok _ s')].
Qed.

Lemma serial_interrupt_run s tx rx : uart_ok s tx rx -> off s = true ->
  match serial_interrupt s with
  | Ok (_, s') => exists l out tx' recv, step s s' tx' (rx ++ recv) l /\ tx = out ++ tx' /\ sends l out /\ read_from RBR_REG l = recv /\
      last (written_to IER_REG l) = Some (ier tx' (rx ++ recv))
  | NoFuel => (length (answers (dev s)) <= 191)%nat
  | _ => False
  end.
Proof.
  intros H Ho. unfold serial_interrupt. pose proof (in_run s IIR_REG tx rx H) as Hin. destruct (answers (dev s)) as [|v a] eqn:Ea.
  { unfold bind. rewrite Hin. cbn. lia. }
  destruct Hin as (s1 & E1 & S1). mstep E1. pose proof (sp_off _ _ _ _ _ S1) as Ho1. rewrite Ho in Ho1.
  pose proof (intq_len _ _ (uk_tx _ _ _ H)) as Ht. pose proof (intq_len _ _ (uk_rx _ _ _ H)) as Hr.
  assert (forall s' tx' rx' l, step s s' tx' rx' l -> (length (answers (dev s)) = ins l + length (answers (dev s')))%nat) as Hans.
  { intros s' tx' rx' l [_ _ _ _ _ _ (u & Eu & Hu)]. by rewrite Eu, length_app, Hu. }
  destruct (receive_loop_run 63 s1 tx rx (sp_ok _ _ _ _ _ S1) Ho1 ltac:(lia) Hr) as [[E2 Hl]|(s2 & l2 & recv & E2 & S2 & Hs2 & Hr2 & Hi2 & Hle2 & _)].
  { unfold bind. rewrite E2. pose proof (Hans _ _ _ _ S1) as Hn. rewrite Ea in Hn. cbn in Hn |- *. lia. }
  mstep E2. pose proof (step_trans _ _ _ _ _ _ _ _ _ S1 S2) as S12. pose proof (sp_off _ _ _ _ _ S12) as Ho2. rewrite Ho in Ho2.
  destruct (transmit_loop_run 63 s2 tx (rx ++ recv) (sp_ok _ _ _ _ _ S12) Ho2 Ht) as [[E3 Hl]|(s3 & l3 & out & tx' & E3 & S3 & Htx & Hs3 & Hr3 & Hi3 & _)].
  { unfold bind. rewrite E3. pose proof (Hans _ _ _ _ S12) as Hn. rewrite Ea in Hn. unfold ins in *. rewrite List.filter_app, length_app in Hn. cbn in Hn |- *. lia. }
  mstep E3. pose proof (step_trans _ _ _ _ _ _ _ _ _ S12 S3) as S13. pose proof (sp_off _ _ _ _ _ S13) as Ho3. rewrite Ho in Ho3.
  destruct (write_ier_run s3 tx' (rx ++ recv) (sp_ok _ _ _ _ _ S13) Ho3) as (s4 & E4 & S4). rewrite E4.
  exists ((([In IIR_REG v] ++ l2) ++ l3) ++ [Out IER_REG (ier tx' (rx ++ recv))]), out, tx', recv. split; [by eapply step_trans|]. split; [done|]. split.
  { rewrite <- (app_nil_r out). apply sends_app; [|apply sends_ier]. apply (sends_app _ _ [] out); [|done]. by apply (sends_app _ _ [] []). }
  split; [by rewrite !read_from_app, Hr2, Hr3, app_nil_r, app_nil_r|]. by rewrite written_to_app, last_app.
Qed.

Lemma serial_flush_run s tx rx : uart_ok s tx rx -> level_ok s ->
  match serial_flush s with
  | Ok (_, s') => exists l, step s s' [] rx l /\ sends l tx /\ quiet l /\ written_to IER_REG l = []
  | NoFuel => (ready_cnt (answers (dev s)) < length tx)%nat
  | _ => False
  end.
Proof.
  intros H Hl. unfold serial_flush. mstep (disable_run s).
  destruct (flush_loop_run 63 (with_off true s) tx rx (uart_ok_off _ _ _ _ H) eq_refl (intq_len _ _ (uk_tx _ _ _ H))) as [[E Hc]|(s' & l & E & S & Hs & Hq & Hw)].
  - unfold bind. by rewrite E.
  - mstep E. destruct (restore_run s s' _ _ _ Hl S) as (s2 & E2 & S2). rewrite E2. by exists l.
Qed.

Lemma input_getc_run s tx x rx : uart_ok s tx (x :: rx) -> level_ok s ->
  exists s', input_getc s = Ok (x, s') /\ step s s' tx rx (notice (mode s) tx rx).
Proof.
  intros H Hl. unfold input_getc. mstep (disable_run s). destruct (rx_get_run (with_off true s) x tx rx (uart_ok_off _ _ _ _ H) eq_refl) as (s1 & E1 & S1).
  mstep E1. cbn [done]. mnorm. destruct (serial_notify_run s1 tx rx (sp_ok _ _ _ _ _ S1) (sp_off _ _ _ _ _ S1)) as (s2 & E2 & S2). mstep E2.
  rewrite (sp_mode _ _ _ _ _ S1) in S2. destruct (restore_run s s2 _ _ _ Hl (step_trans _ _ _ _ _ _ _ _ _ S1 S2)) as (s3 & E3 & S3). mstep E3. by exists s3.
Qed.

(** ** Histories *)

(** A history of the driver: what was given to [serial_putc], and what came back
    from [input_getc].  Between operations the processor may turn interrupts on
    and off and take interrupts, other threads run, and nothing is known of
    what the device answers. *)
Inductive history : uart -> list Z -> list Z -> uart -> Prop :=
  | h_start s : history s [] [] s
  | h_putc s bs ks s1 b s2 : history s bs ks s1 -> serial_putc b s1 = Ok (tt, s2) -> history s (bs ++ [b]) ks s2
  | h_flush s bs ks s1 s2 : history s bs ks s1 -> serial_flush s1 = Ok (tt, s2) -> history s bs ks s2
  | h_getc s bs ks s1 k s2 : history s bs ks s1 -> input_getc s1 = Ok (k, s2) -> history s bs (ks ++ [k]) s2
  | h_interrupt s bs ks s1 s2 : history s bs ks s1 -> off s1 = true -> serial_interrupt s1 = Ok (tt, s2) -> history s bs ks s2
  | h_other s bs ks s1 a o x c r : history s bs ks s1 -> (x = true -> o = true) ->
      history s bs ks (Uart (IO a (trace (dev s1))) (mode s1) (txq s1) (buffer s1) o x c r (vectors s1)).

Lemma input_getc_empty s tx v s' : uart_ok s tx [] -> input_getc s <> Ok (v, s').
Proof.
  intros H. unfold input_getc. mstep (disable_run s).
  assert (on_buffer intq_getc (with_off true s) = Panic \/ exists o s1, on_buffer intq_getc (with_off true s) = Ok (o, s1) /\ (o = AtLock \/ o = Asleep)) as [E|(o & s1 & E & Ho)].
  { unfold on_buffer, intq_getc. mnorm. cbn [intr_off with_off off]. mnorm. pose proof (uk_rx _ _ _ H) as Hq.
    mstep (intq_empty_run (ISt (buffer s) true (ctx s) (cur s) (ready s)) [] Hq eq_refl). rewrite bool_decide_true by done.
    rewrite (lock_and_wait_run NotEmpty (ISt (buffer s) true (ctx s) (cur s) (ready s)) [] Hq eq_refl eq_refl). cbn [in_intr q current].
    destruct (ctx s); [by left|]. destruct (Intq.lock (buffer s)) as [h|]; [|right; eexists _, _; split; [done|by right]].
    destruct (h =? cur s); [by left|]. right. eexists _, _. split; [done|by left]. }
  - unfold bind. by rewrite E.
  - unfold bind. rewrite E. by destruct Ho as [-> | ->].
Qed.

(** No byte is left without an interrupt to send it, and receiving is enabled
    exactly when there is room. *)
Definition ier_ok (v : Z) (tx rx : list Z) : Prop := (tx <> [] -> Z.testbit v 1 = true) /\ Z.testbit v 0 = negb (length rx =? 63)%nat.

Lemma ier_ier_ok tx rx : ier_ok (ier tx rx) tx rx.
Proof. unfold ier_ok, ier. destruct tx; cbn [bool_decide]; destruct (length rx =? 63)%nat; cbn; split; done. Qed.

(** The state of a history: what the queues hold, and what has passed through
    the registers. *)
Record stream (s0 s : uart) (tx0 rx0 bs ks : list Z) (l : list access) (tx rx : list Z) : Prop := {
  sm_ok : uart_ok s tx rx;
  sm_mode : mode s = QUEUE;
  sm_level : level_ok s;
  sm_trace : trace (dev s) = trace (dev s0) ++ l;
  sm_out : exists out, sends l out /\ tx0 ++ bs = out ++ tx;
  sm_in : rx0 ++ read_from RBR_REG l = ks ++ rx;
  sm_ier : exists v, last (written_to IER_REG (trace (dev s))) = Some v /\ ier_ok v tx rx
}.

(** Adding the accesses of one operation. *)
Lemma stream_step s0 s1 s2 tx0 rx0 bs ks l tx rx bs' ks' k tx' rx' out :
  stream s0 s1 tx0 rx0 bs ks l tx rx -> step s1 s2 tx' rx' k -> sends k out -> tx ++ bs' = out ++ tx' -> rx ++ read_from RBR_REG k = ks' ++ rx' ->
  (forall v, last (written_to IER_REG k) = Some v -> ier_ok v tx' rx') -> (last (written_to IER_REG k) = None -> tx' = [] /\ rx' = rx) ->
  stream s0 s2 tx0 rx0 (bs ++ bs') (ks ++ ks') (l ++ k) tx' rx'.
Proof.
  intros [A1 A2 A3 A4 (o & A5 & A6) A7 (v & A8 & A9)] [S1 S2 S3 S4 S5 S6 _] Hs Ht Hr Hi Hn. split; [done|congruence|unfold level_ok in *; by rewrite S4, S5| | | |].
  - by rewrite S2, A4, app_assoc.
  - exists (o ++ out). split; [by apply sends_app|]. by rewrite app_assoc, A6, <- !app_assoc, Ht.
  - by rewrite read_from_app, app_assoc, A7, <- !app_assoc, Hr.
  - rewrite S2, written_to_app, last_app. destruct (last (written_to IER_REG k)) as [w|]; [exists w; split; [done|by apply Hi]|].
    exists v. split; [done|]. destruct (Hn eq_refl) as [-> ->]. by destruct A9.
Qed.

Lemma history_stream s0 bs ks s tx0 rx0 :
  history s0 bs ks s -> uart_ok s0 tx0 rx0 -> mode s0 = QUEUE -> level_ok s0 -> last (written_to IER_REG (trace (dev s0))) = Some (ier tx0 rx0) ->
  exists l tx rx, stream s0 s tx0 rx0 bs ks l tx rx.
Proof.
  intros Hh H0 Hm Hl Hi. induction Hh as [s|s bs ks s1 b s2 _ IH E|s bs ks s1 s2 _ IH E|s bs ks s1 k s2 _ IH E|s bs ks s1 s2 _ IH Ho E|s bs ks s1 a o x c r _ IH Hx].
  { exists [], tx0, rx0. split; try done; [by rewrite app_nil_r|exists []; by rewrite app_nil_r|by rewrite app_nil_r|].
    exists (ier tx0 rx0). split; [done|apply ier_ier_ok]. }
  all: destruct (IH H0 Hm Hl Hi) as (l & tx & rx & S); pose proof (sm_ok _ _ _ _ _ _ _ _ _ S) as So; pose proof (sm_mode _ _ _ _ _ _ _ _ _ S) as Sm; pose proof (sm_level _ _ _ _ _ _ _ _ _ S) as Sl.
  - pose proof (serial_putc_run s1 tx rx b So Sm Sl) as R. rewrite E in R. destruct R as (k & out & tx' & S' & Ht & Hs & Hq & Hie).
    exists (l ++ k), tx', rx. rewrite <- (app_nil_r ks). eapply stream_step; [exact S|exact S'|exact Hs|exact Ht|by rewrite Hq, app_nil_r| |by rewrite Hie].
    rewrite Hie. intros v [= <-]. apply ier_ier_ok.
  - pose proof (serial_flush_run s1 tx rx So Sl) as R. rewrite E in R. destruct R as (k & S' & Hs & Hq & Hw). exists (l ++ k), [], rx. rewrite <- (app_nil_r ks), <- (app_nil_r bs).
    eapply stream_step; [exact S|exact S'|exact Hs|done|by rewrite Hq, app_nil_r|by rewrite Hw|done].
  - destruct rx as [|y rx]; [by destruct (input_getc_empty s1 tx k s2)|]. destruct (input_getc_run s1 tx y rx So Sl) as (s3 & E3 & S'). rewrite E in E3. injection E3 as <- <-.
    unfold notice in S'. rewrite Sm in S'. rewrite bool_decide_true in S' by done. exists (l ++ [Out IER_REG (ier tx rx)]), tx, rx. rewrite <- (app_nil_r bs).
    eapply stream_step; [exact S|exact S'|apply sends_ier|by rewrite app_nil_r|by rewrite app_nil_r| |done]. intros v [= <-]. apply ier_ier_ok.
  - pose proof (serial_interrupt_run s1 tx rx So Ho) as R. rewrite E in R. destruct R as (k & out & tx' & recv & S' & Ht & Hs & Hr & Hie).
    exists (l ++ k), tx', (rx ++ recv). rewrite <- (app_nil_r ks), <- (app_nil_r bs).
    eapply stream_step; [exact S|exact S'|exact Hs|by rewrite app_nil_r|by rewrite Hr| |by rewrite Hie]. rewrite Hie. intros v [= <-]. apply ier_ier_ok.
  - exists l, tx, rx. destruct S as [A1 A2 A3 A4 A5 A6 A7]. split; try done. by destruct A1; split.
Qed.

(** ** Properties *)

(** C20: The serial port is a stream in both directions.  From a state in which the
    interrupt-driven mode is set up, whatever sequence of [serial_putc],
    [serial_flush], [input_getc] and interrupts follows and whatever the device
    answers, the bytes written to the transmitter followed by those still
    queued are exactly the bytes given to [serial_putc], in order; the bytes
    that [input_getc] returned followed by those in the buffer are exactly the
    bytes read from the receiver, in order; while bytes are queued the
    transmit interrupt is enabled, and the receive interrupt is enabled
    exactly when there is room. *)
Theorem serial_stream_in_order s0 bs ks s tx0 rx0 :
  history s0 bs ks s -> uart_ok s0 tx0 rx0 -> mode s0 = QUEUE -> level_ok s0 -> last (written_to IER_REG (trace (dev s0))) = Some (ier tx0 rx0) ->
  exists l tx rx v, uart_ok s tx rx /\ trace (dev s) = trace (dev s0) ++ l /\
    tx0 ++ bs = written_to THR_REG l ++ tx /\ written_to LCR_REG l = [] /\ rx0 ++ read_from RBR_REG l = ks ++ rx /\
    last (written_to IER_REG (trace (dev s))) = Some v /\ (tx <> [] -> Z.testbit v 1 = true) /\ Z.testbit v 0 = negb (length rx =? 63)%nat.
Proof.
  intros Hh H0 Hm Hl Hi. destruct (history_stream _ _ _ _ _ _ Hh H0 Hm Hl Hi) as (l & tx & rx & [A1 A2 A3 A4 (out & [A5 A5'] & A6) A7 (v & A8 & A9 & A10)]).
  exists l, tx, rx, v. split; [done|]. split; [done|]. by rewrite A5.
Qed.

(** Every operation of the serial driver comes back, unless it has to wait:
    [serial_putc] queues its byte, sends the oldest byte by polling first when
    the queue is full and interrupts are off, and sleeps when it is full and
    they are on; it waits for ever only on a device that is never ready.  The
    interrupt handler needs at most 191 answers of the device, and
    [serial_flush] one ready answer for every byte. *)
Theorem serial_operations_return s tx rx b :
  uart_ok s tx rx -> mode s = QUEUE -> level_ok s ->
  match serial_putc b s with
  | Ok (_, s') => exists l out tx', step s s' tx' rx l /\ tx ++ [b] = out ++ tx' /\ sends l out /\ quiet l /\ last (written_to IER_REG l) = Some (ier tx' rx)
  | NoFuel => off s = true /\ length tx = 63%nat /\ ready_cnt (answers (dev s)) = 0%nat
  | Block => off s = false /\ length tx = 63%nat
  | Panic => off s = false /\ length tx = 63%nat /\ Intq.lock (txq s) = Some (cur s)
  | Fault => False
  end /\
  (off s = true -> (191 < length (answers (dev s)))%nat -> exists s', serial_interrupt s = Ok (tt, s')) /\
  ((length tx <= ready_cnt (answers (dev s)))%nat -> exists s' l, serial_flush s = Ok (tt, s') /\ step s s' [] rx l /\ sends l tx).
Proof.
  intros H Hm Hl. split; [by apply serial_putc_run|]. split.
  - intros Ho Ha. pose proof (serial_interrupt_run s tx rx H Ho) as R. destruct (serial_interrupt s) as [[[] s']| | | |]; try done; [by exists s'|lia].
  - intros Hr. pose proof (serial_flush_run s tx rx H Hl) as R. destruct (serial_flush s) as [[[] s']| | | |]; try done; [|lia].
    destruct R as (l & S & Hs & _). by exists s', l.
Qed.

Definition demo_uart (a : list Z) : uart := Uart (IO a [Out IER_REG 1]) QUEUE (Intq None 0 0 (replicate 64 0) 0 0) (Intq None 0 0 (replicate 64 0) 0 0) true false 1 [] [].

Lemma demo_uart_ok a : uart_ok (demo_uart a) [] [].
Proof. by split; split. Qed.

(** Two bytes are queued; then the device interrupts, delivers a byte and takes one. *)
Definition demo_uart_run : option (list Z * list Z) :=
  match (serial_putc 65;; serial_putc 66;; serial_interrupt) (demo_uart [0; 0x21; 97; 0x20; 0x20; 0]) with
  | Ok (_, s) => Some (written_to THR_REG (trace (dev s)), contents (buffer s)) | _ => None end.
Lemma demo_uart_runs : demo_uart_run = Some ([65], [97]).
Proof. by vm_compute. Qed.

Lemma serial_stream_in_order_witness : exists s, serial_putc 65 (demo_uart []) = Ok (tt, s) /\
  exists l tx, trace (dev s) = [Out IER_REG 1] ++ l /\ [65] = written_to THR_REG l ++ tx.
Proof.
  assert (exists s, serial_putc 65 (demo_uart []) = Ok (tt, s)) as [s E] by (eexists; vm_compute; reflexivity).
  destruct (serial_stream_in_order (demo_uart []) [65] [] s [] []) as (l & tx & rx & v & _ & Htr & Hout & _).
  - exact (h_putc _ [] [] _ 65 s (h_start _) E).
  - apply demo_uart_ok.
  - reflexivity.
  - intros H. discriminate H.
  - reflexivity.
  - exists s. split; [exact E|]. exists l, tx. split; [exact Htr|exact Hout].
Defined.

Lemma serial_operations_return_witness : exists s' l, serial_flush (demo_uart []) = Ok (tt, s') /\ step (demo_uart []) s' [] [] l /\ sends l [].
Proof.
  destruct (serial_operations_return (demo_uart []) [] [] 0) as (_ & _ & H); [apply demo_uart_ok|reflexivity|done|]. apply H. cbn. lia.
Defined.
