(* ===== verification/KList.v ===== *)
(** * The kernel's doubly linked list (lib/kernel/list.c)

    The list is intrusive: [struct list_elem] is embedded in other structures
    and the code works on addresses only.  The model keeps the addresses.  A
    heap maps the address of each [struct list_elem] to its two links; a
    [struct list] at address [l] holds its head element at [l] and its tail
    element at [l + 16] (two 8-byte pointers further).  Reading or writing
    through an address that holds no element is [Fault], a failed [ASSERT] is
    [Panic].

    Loops are bounded by the number of elements in the heap, which is enough
    because a well formed list visits each of its elements once. *)

From S2P Require Import Prelude.

(** ** Data *)

(** [struct list_elem]. *)
Record list_elem := mkElem { prev : Z; next : Z }.

#[export] Instance list_elem_eq_dec : EqDecision list_elem.
Proof. solve_decision. Defined.

Notation heap := (gmap Z list_elem).

(** Offset of [tail] in [struct list]. *)
Definition TAIL_OFS : Z := 16.

Definition load (p : Z) : M heap list_elem := fun h =>
  match h !! p with Some e => Ok (e, h) | None => Fault end.
Definition get_prev (p : Z) : M heap Z := e ← load p; ret (prev e).
Definition get_next (p : Z) : M heap Z := e ← load p; ret (next e).
Definition set_prev (p v : Z) : M heap unit :=
  e ← load p; modify (fun h => <[p := mkElem v (next e)]> h).
Definition set_next (p v : Z) : M heap unit :=
  e ← load p; modify (fun h => <[p := mkElem (prev e) v]> h).

(** ** Operations *)

Definition is_head (elem : Z) : M heap bool :=
  if elem =? NULL then ret false else
  p ← get_prev elem;
  if negb (p =? NULL) then ret false else
  n ← get_next elem; ret (negb (n =? NULL)).

Definition is_interior (elem : Z) : M heap bool :=
  if elem =? NULL then ret false else
  p ← get_prev elem;
  if p =? NULL then ret false else
  n ← get_next elem; ret (negb (n =? NULL)).

Definition is_tail (elem : Z) : M heap bool :=
  if elem =? NULL then ret false else
  p ← get_prev elem;
  if p =? NULL then ret false else
  n ← get_next elem; ret (n =? NULL).

Definition list_head (l : Z) : M heap Z := ASSERT (negb (l =? NULL));; ret l.
Definition list_tail (l : Z) : M heap Z :=
  ASSERT (negb (l =? NULL));; ret (l + TAIL_OFS).

Definition list_init (l : Z) : M heap unit :=
  ASSERT (negb (l =? NULL));;
  set_prev l NULL;;
  set_next l (l + TAIL_OFS);;
  set_prev (l + TAIL_OFS) l;;
  set_next (l + TAIL_OFS) NULL.

Definition list_begin (l : Z) : M heap Z := ASSERT (negb (l =? NULL));; get_next l.

Definition list_next (elem : Z) : M heap Z :=
  b ← is_head elem;
  b ← (if b then ret true else is_interior elem);
  ASSERT b;;
  get_next elem.

Definition list_end (l : Z) : M heap Z :=
  ASSERT (negb (l =? NULL));; ret (l + TAIL_OFS).

Definition list_rbegin (l : Z) : M heap Z :=
  ASSERT (negb (l =? NULL));; get_prev (l + TAIL_OFS).

Definition list_prev (elem : Z) : M heap Z :=
  b ← is_interior elem;
  b ← (if b then ret true else is_tail elem);
  ASSERT b;;
  get_prev elem.

Definition list_rend (l : Z) : M heap Z := ASSERT (negb (l =? NULL));; ret l.

(** [ASSERT (is_interior (e) || is_tail (e))], shared by insertion and
    splicing. *)
Definition assert_insertable (before : Z) : M heap unit :=
  b ← is_interior before;
  b ← (if b then ret true else is_tail before);
  ASSERT b.

Definition list_insert (before elem : Z) : M heap unit :=
  assert_insertable before;;
  ASSERT (negb (elem =? NULL));;
  p ← get_prev before;
  set_prev elem p;;
  set_next elem before;;
  p' ← get_prev before;
  set_next p' elem;;
  set_prev before elem.

Definition list_splice (before first last : Z) : M heap unit :=
  assert_insertable before;;
  if first =? last then ret tt else
  last ← list_prev last;
  b ← is_interior first; ASSERT b;;
  b ← is_interior last; ASSERT b;;
  (* Cleanly remove FIRST...LAST from its current list. *)
  fp ← get_prev first; ln ← get_next last;
  set_next fp ln;;
  ln ← get_next last; fp ← get_prev first;
  set_prev ln fp;;
  (* Splice FIRST...LAST into new list. *)
  bp ← get_prev before;
  set_prev first bp;;
  set_next last before;;
  bp ← get_prev before;
  set_next bp first;;
  set_prev before last.

Definition list_push_front (l elem : Z) : M heap unit :=
  b ← list_begin l; list_insert b elem.

Definition list_push_back (l elem : Z) : M heap unit :=
  e ← list_end l; list_insert e elem.

Definition list_remove (elem : Z) : M heap Z :=
  b ← is_interior elem; ASSERT b;;
  p ← get_prev elem; n ← get_next elem;
  set_next p n;;
  n ← get_next elem; p ← get_prev elem;
  set_prev n p;;
  get_next elem.

Definition list_empty (l : Z) : M heap bool :=
  b ← list_begin l; e ← list_end l; ret (b =? e).

Definition list_front (l : Z) : M heap Z :=
  b ← list_empty l; ASSERT (negb b);; get_next l.

Definition list_back (l : Z) : M heap Z :=
  b ← list_empty l; ASSERT (negb b);; get_prev (l + TAIL_OFS).

Definition list_pop_front (l : Z) : M heap Z :=
  front ← list_front l; list_remove front;; ret front.

Definition list_pop_back (l : Z) : M heap Z :=
  back ← list_back l; list_remove back;; ret back.

(** Loop bound: one more than the number of elements in memory. *)
Definition fuel_of (h : heap) : nat := S (size h).

Fixpoint list_size_loop (fuel : nat) (e end_ cnt : Z) : M heap Z :=
  if e =? end_ then ret cnt else
  match fuel with
  | O => out_of_fuel
  | S fuel => e' ← list_next e; list_size_loop fuel e' end_ (u64 (cnt + 1))
  end.

Definition list_size (l : Z) : M heap Z :=
  h ← get; b ← list_begin l; e ← list_end l; list_size_loop (fuel_of h) b e 0.

(** [swap (&e->prev, &e->next)]. *)
Definition swap_links (e : Z) : M heap unit :=
  p ← get_prev e; n ← get_next e; set_prev e n;; set_next e p.

Fixpoint list_reverse_loop (fuel : nat) (e end_ : Z) : M heap unit :=
  if e =? end_ then ret tt else
  match fuel with
  | O => out_of_fuel
  | S fuel => swap_links e;; e' ← get_prev e; list_reverse_loop fuel e' end_
  end.

(** The two swaps of header links that close [list_reverse]:
    [swap (&list->head.next, &list->tail.prev)] and
    [swap (&list->head.next->prev, &list->tail.prev->next)]. *)
Definition list_reverse_headers (l : Z) : M heap unit :=
  hn ← get_next l; tp ← get_prev (l + TAIL_OFS);
  set_next l tp;; set_prev (l + TAIL_OFS) hn;;
  hn ← get_next l; tp ← get_prev (l + TAIL_OFS);
  x ← get_prev hn; y ← get_next tp;
  set_prev hn y;; set_next tp x.

Definition list_reverse (l : Z) : M heap unit :=
  h ← get;
  b ← list_empty l;
  if b then ret tt else
  b ← list_begin l; e ← list_end l;
  list_reverse_loop (fuel_of h) b e;;
  list_reverse_headers l.

Section Ordered.
(** The comparison passed as [less] with its [aux]; it reads the structures
    the elements are embedded in, never the links. *)
Variable less : Z -> Z -> bool.

Fixpoint list_insert_ordered_loop (fuel : nat) (elem e end_ : Z) : M heap Z :=
  if e =? end_ then ret e else
  if less elem e then ret e else
  match fuel with
  | O => out_of_fuel
  | S fuel => e' ← list_next e; list_insert_ordered_loop fuel elem e' end_
  end.

Definition list_insert_ordered (l elem : Z) : M heap unit :=
  h ← get;
  ASSERT (negb (l =? NULL));; ASSERT (negb (elem =? NULL));;
  b ← list_begin l; end_ ← list_end l;
  e ← list_insert_ordered_loop (fuel_of h) elem b end_;
  list_insert e elem.

Fixpoint list_unique_loop (fuel : nat) (elem end_ dups : Z) : M heap unit :=
  next_ ← list_next elem;
  if next_ =? end_ then ret tt else
  match fuel with
  | O => out_of_fuel
  | S fuel =>
      if negb (less elem next_) && negb (less next_ elem) then
        list_remove next_;;
        (if negb (dups =? NULL) then list_push_back dups next_ else ret tt);;
        list_unique_loop fuel elem end_ dups
      else list_unique_loop fuel next_ end_ dups
  end.

Definition list_unique (l dups : Z) : M heap unit :=
  h ← get;
  ASSERT (negb (l =? NULL));;
  b ← list_empty l;
  if b then ret tt else
  e ← list_begin l; end_ ← list_end l;
  list_unique_loop (fuel_of h) e end_ dups.

(** The loop of [list_max] and [list_min]: [better m e] says that [e]
    replaces [m]. *)
Fixpoint list_best_loop (better : Z -> Z -> bool) (fuel : nat) (m e end_ : Z)
  : M heap Z :=
  if e =? end_ then ret m else
  match fuel with
  | O => out_of_fuel
  | S fuel =>
      e' ← list_next e;
      list_best_loop better fuel (if better m e then e else m) e' end_
  end.

Definition list_max (l : Z) : M heap Z :=
  h ← get; max ← list_begin l; end_ ← list_end l;
  if max =? end_ then ret max else
  e ← list_next max;
  list_best_loop (fun m e => less m e) (fuel_of h) max e end_.

Definition list_min (l : Z) : M heap Z :=
  h ← get; min ← list_begin l; end_ ← list_end l;
  if min =? end_ then ret min else
  e ← list_next min;
  list_best_loop (fun m e => less e m) (fuel_of h) min e end_.

Fixpoint is_sorted_loop (fuel : nat) (a b : Z) : M heap bool :=
  a' ← list_next a;
  if a' =? b then ret true else
  match fuel with
  | O => out_of_fuel
  | S fuel =>
      p ← list_prev a';
      if less a' p then ret false else is_sorted_loop fuel a' b
  end.

Definition is_sorted (a b : Z) : M heap bool :=
  h ← get; if a =? b then ret true else is_sorted_loop (fuel_of h) a b.

Fixpoint find_end_of_run_loop (fuel : nat) (a b : Z) : M heap Z :=
  match fuel with
  | O => out_of_fuel
  | S fuel =>
      a' ← list_next a;
      if a' =? b then ret a' else
      p ← list_prev a';
      if less a' p then ret a' else find_end_of_run_loop fuel a' b
  end.

Definition find_end_of_run (a b : Z) : M heap Z :=
  h ← get;
  ASSERT (negb (a =? NULL));; ASSERT (negb (b =? NULL));;
  ASSERT (negb (a =? b));;
  find_end_of_run_loop (fuel_of h) a b.

Fixpoint inplace_merge_loop (fuel : nat) (a0 a1b0 b1 : Z) : M heap unit :=
  if (a0 =? a1b0) || (a1b0 =? b1) then ret tt else
  match fuel with
  | O => out_of_fuel
  | S fuel =>
      if negb (less a1b0 a0) then
        a0' ← list_next a0; inplace_merge_loop fuel a0' a1b0 b1
      else
        a1b0' ← list_next a1b0;
        p ← list_prev a1b0';
        list_splice a0 p a1b0';;
        inplace_merge_loop fuel a0 a1b0' b1
  end.

Definition inplace_merge (a0 a1b0 b1 : Z) : M heap unit :=
  h ← get;
  ASSERT (negb (a0 =? NULL));; ASSERT (negb (a1b0 =? NULL));;
  ASSERT (negb (b1 =? NULL));;
  b ← is_sorted a0 a1b0; ASSERT b;;
  b ← is_sorted a1b0 b1; ASSERT b;;
  inplace_merge_loop (fuel_of h) a0 a1b0 b1.

(** One pass of [list_sort] over the list; returns [output_run_cnt]. *)
Fixpoint list_sort_pass (fuel : nat) (l a0 output_run_cnt : Z) : M heap Z :=
  end_ ← list_end l;
  if a0 =? end_ then ret output_run_cnt else
  match fuel with
  | O => out_of_fuel
  | S fuel =>
      let output_run_cnt := u64 (output_run_cnt + 1) in
      a1b0 ← find_end_of_run a0 end_;
      if a1b0 =? end_ then ret output_run_cnt else
      b1 ← find_end_of_run a1b0 end_;
      inplace_merge a0 a1b0 b1;;
      list_sort_pass fuel l b1 output_run_cnt
  end.

Fixpoint list_sort_loop (fuel : nat) (l : Z) : M heap unit :=
  match fuel with
  | O => out_of_fuel
  | S fuel =>
      h ← get;
      a0 ← list_begin l;
      cnt ← list_sort_pass (fuel_of h) l a0 0;
      if 1 <? cnt then list_sort_loop fuel l else ret tt
  end.

Definition list_sort (l : Z) : M heap unit :=
  h ← get;
  ASSERT (negb (l =? NULL));;
  list_sort_loop (fuel_of h) l;;
  b ← list_begin l; e ← list_end l;
  b ← is_sorted b e; ASSERT b.
End Ordered.

(** ** Representation

    [seg h p zs n]: the elements [zs] are linked in order in [h], the first
    one's [prev] is [p] and the last one's [next] is [n]. *)
Fixpoint seg (h : heap) (p : Z) (zs : list Z) (n : Z) : Prop :=
  match zs with
  | [] => True
  | z :: zs' => h !! z = Some (mkElem p (default n (head zs'))) /\ seg h z zs' n
  end.

(** [dll h zs]: the elements [zs], header elements included, form a complete
    doubly linked list. *)
Definition dll (h : heap) (zs : list Z) : Prop :=
  seg h NULL zs NULL /\ NoDup zs /\ NULL ∉ zs.

(** [is_list h l xs]: the [struct list] at [l] holds exactly the interior
    elements [xs], in order. *)
Definition is_list (h : heap) (l : Z) (xs : list Z) : Prop :=
  dll h (l :: xs ++ [l + TAIL_OFS]).

(** [h'] differs from [h] at most at the addresses [ps]. *)
Definition agree_off (ps : list Z) (h h' : heap) : Prop :=
  dom h' = dom h /\ forall x, x ∉ ps -> h' !! x = h !! x.

Lemma agree_off_refl ps h : agree_off ps h h.
Proof. done. Qed.

Lemma agree_off_trans ps h1 h2 h3 :
  agree_off ps h1 h2 -> agree_off ps h2 h3 -> agree_off ps h1 h3.
Proof.
  intros [? H1] [? H2]. split; [congruence|]. intros. by rewrite H2, H1.
Qed.

Lemma agree_off_mono ps qs h h' : ps ⊆ qs -> agree_off ps h h' -> agree_off qs h h'.
Proof. intros Hs [? H]. split; [done|]. intros x Hx. apply H. set_solver. Qed.

Lemma seg_frame h h' p zs n :
  (forall x, x ∈ zs -> h' !! x = h !! x) -> seg h p zs n -> seg h' p zs n.
Proof.
  revert p. induction zs as [|z zs IH]; intros p Hf; simpl; [done|].
  intros [Hz Hs]. split; [by rewrite Hf by set_solver|]. apply IH; set_solver.
Qed.

Lemma seg_app h p xs ys n :
  seg h p (xs ++ ys) n <->
  seg h p xs (default n (head ys)) /\ seg h (default p (last xs)) ys n.
Proof.
  revert p. induction xs as [|x xs IH]; intros p; simpl; [tauto|].
  rewrite IH. destruct xs as [|x' xs]; simpl; [tauto|].
  change (last (x :: x' :: xs)) with (last (x' :: xs)).
  destruct (last (x' :: xs)) eqn:E; [simpl; tauto|].
  apply last_None in E. done.
Qed.

Lemma seg_cons h p z zs n :
  seg h p (z :: zs) n <-> h !! z = Some (mkElem p (default n (head zs))) /\ seg h z zs n.
Proof. done. Qed.

(** Reading the node in the middle of a list. *)
Lemma seg_lookup h p xs z ys n :
  seg h p (xs ++ z :: ys) n ->
  h !! z = Some (mkElem (default p (last xs)) (default n (head ys))).
Proof. rewrite seg_app. simpl. tauto. Qed.

Lemma last_cons_default (x : Z) xs d : default d (last (x :: xs)) = default x (last xs).
Proof. destruct xs as [|y ys] using rev_ind; [done|]. rewrite app_comm_cons, !last_snoc. done. Qed.

Lemma dll_frame h h' zs :
  (forall x, x ∈ zs -> h' !! x = h !! x) -> dll h zs -> dll h' zs.
Proof. intros Hf (? & ? & ?). split_and!; [|done|done]. by eapply seg_frame. Qed.

(** Operations on one list leave every list on other elements alone. *)
Lemma is_list_frame h h' ps l xs :
  agree_off ps h h' -> (forall x, x ∈ l :: xs ++ [l + TAIL_OFS] -> x ∉ ps) ->
  is_list h l xs -> is_list h' l xs.
Proof. intros [_ Hf] Hd. apply dll_frame. intros x Hx. apply Hf. by apply Hd. Qed.

Lemma is_list_nonnull h l xs : is_list h l xs -> l <> NULL.
Proof. intros (_ & _ & H) ->. set_solver. Qed.

(** ** Running the primitives *)

Lemma get_prev_run h z p n : h !! z = Some (mkElem p n) -> get_prev z h = Ok (p, h).
Proof. intros H. unfold get_prev, bind, load. by rewrite H. Qed.
Lemma get_next_run h z p n : h !! z = Some (mkElem p n) -> get_next z h = Ok (n, h).
Proof. intros H. unfold get_next, bind, load. by rewrite H. Qed.
Lemma set_prev_run h z p n v :
  h !! z = Some (mkElem p n) -> set_prev z v h = Ok (tt, <[z := mkElem v n]> h).
Proof. intros H. unfold set_prev, bind, load. by rewrite H. Qed.
Lemma set_next_run h z p n v :
  h !! z = Some (mkElem p n) -> set_next z v h = Ok (tt, <[z := mkElem p v]> h).
Proof. intros H. unfold set_next, bind, load. by rewrite H. Qed.

Lemma is_head_run h z p n :
  z <> NULL -> h !! z = Some (mkElem p n) ->
  is_head z h = Ok ((p =? NULL) && negb (n =? NULL), h).
Proof.
  intros Hz H. unfold is_head. destruct (Z.eqb_spec z NULL); [done|].
  mstep (get_prev_run _ _ _ _ H). destruct (p =? NULL); simpl; [|done].
  by mstep (get_next_run _ _ _ _ H).
Qed.
Lemma is_interior_run h z p n :
  z <> NULL -> h !! z = Some (mkElem p n) ->
  is_interior z h = Ok (negb (p =? NULL) && negb (n =? NULL), h).
Proof.
  intros Hz H. unfold is_interior. destruct (Z.eqb_spec z NULL); [done|].
  mstep (get_prev_run _ _ _ _ H). destruct (p =? NULL); simpl; [done|].
  by mstep (get_next_run _ _ _ _ H).
Qed.
Lemma is_tail_run h z p n :
  z <> NULL -> h !! z = Some (mkElem p n) ->
  is_tail z h = Ok (negb (p =? NULL) && (n =? NULL), h).
Proof.
  intros Hz H. unfold is_tail. destruct (Z.eqb_spec z NULL); [done|].
  mstep (get_prev_run _ _ _ _ H). destruct (p =? NULL); simpl; [done|].
  by mstep (get_next_run _ _ _ _ H).
Qed.

Lemma is_interior_true h z p n :
  z <> NULL -> h !! z = Some (mkElem p n) -> p <> NULL -> n <> NULL ->
  is_interior z h = Ok (true, h).
Proof.
  intros. erewrite is_interior_run by done. by do 2 (zcase; [done|]).
Qed.

Lemma assert_insertable_run h z p n :
  z <> NULL -> h !! z = Some (mkElem p n) -> p <> NULL ->
  assert_insertable z h = Ok (tt, h).
Proof.
  intros Hz H Hp. unfold assert_insertable.
  mstep (is_interior_run _ _ _ _ Hz H).
  destruct (Z.eqb_spec p NULL); [done|]. simpl.
  destruct (Z.eqb_spec n NULL) as [->|]; simpl; [|done].
  mstep (is_tail_run _ _ _ _ Hz H). by destruct (Z.eqb_spec p NULL).
Qed.

Lemma list_next_run h z p n :
  z <> NULL -> h !! z = Some (mkElem p n) -> n <> NULL -> list_next z h = Ok (n, h).
Proof.
  intros Hz H Hn. unfold list_next. mstep (is_head_run _ _ _ _ Hz H).
  destruct (Z.eqb_spec n NULL); [done|].
  destruct (Z.eqb_spec p NULL); simpl; mnorm.
  - eapply get_next_run, H.
  - mstep (is_interior_run _ _ _ _ Hz H).
    destruct (Z.eqb_spec n NULL), (Z.eqb_spec p NULL); try done.
    mnorm. eapply get_next_run, H.
Qed.

Lemma list_prev_run h z p n :
  z <> NULL -> h !! z = Some (mkElem p n) -> p <> NULL -> list_prev z h = Ok (p, h).
Proof.
  intros Hz H Hp. unfold list_prev.
  pose proof (assert_insertable_run _ _ _ _ Hz H Hp) as Ha.
  mstep (is_interior_run _ _ _ _ Hz H).
  destruct (Z.eqb_spec p NULL); [done|].
  destruct (Z.eqb_spec n NULL); simpl; mnorm.
  - mstep (is_tail_run _ _ _ _ Hz H).
    destruct (Z.eqb_spec n NULL), (Z.eqb_spec p NULL); try done.
    mnorm. eapply get_prev_run, H.
  - eapply get_prev_run, H.
Qed.

(** ** Refinement of the operations *)

(** Lookup of a node in a heap that is a nest of updates of [h]. *)
Ltac hlook :=
  repeat (rewrite lookup_insert_ne by congruence);
  first [ rewrite lookup_insert_eq; reflexivity | eassumption ].

(** Symbolic execution of the next link access. *)
Ltac hstep :=
  match goal with
  | |- context [bind (get_prev ?z) ?f ?h] =>
      rewrite (bind_ok (get_prev z) f h _ _ ltac:(eapply get_prev_run; hlook))
  | |- context [bind (get_next ?z) ?f ?h] =>
      rewrite (bind_ok (get_next z) f h _ _ ltac:(eapply get_next_run; hlook))
  | |- context [bind (set_prev ?z ?v) ?f ?h] =>
      rewrite (bind_ok (set_prev z v) f h _ _ ltac:(eapply set_prev_run; hlook))
  | |- context [bind (set_next ?z ?v) ?f ?h] =>
      rewrite (bind_ok (set_next z v) f h _ _ ltac:(eapply set_next_run; hlook))
  end; mnorm.

(** A segment whose elements are not written, and the footprint of a nest of
    updates. *)
Ltac sframe H :=
  eapply seg_frame; [|exact H]; intros ? ?;
  rewrite !lookup_insert_ne by (intros ?; subst; set_solver); reflexivity.
Ltac agree :=
  split;
  [ rewrite !dom_insert_L; apply set_eq; intros ?;
    rewrite !elem_of_union, !elem_of_singleton, elem_of_dom; naive_solver
  | intros ? ?; rewrite !lookup_insert_ne by (intros ?; subst; set_solver); reflexivity ].

(** Distinctness of the elements of a list, as usable inequalities. *)
Ltac neq := intros ?; subst; set_solver.

Lemma dll_split h xs a b ys :
  dll h (xs ++ a :: b :: ys) ->
  h !! a = Some (mkElem (default NULL (last xs)) b) /\
  h !! b = Some (mkElem a (default NULL (head ys))) /\
  seg h NULL xs a /\ seg h b ys NULL /\ a <> NULL /\ b <> NULL /\ a <> b /\
  a ∉ xs /\ b ∉ xs /\ a ∉ ys /\ b ∉ ys.
Proof.
  intros (Hs & Hnd & H0). apply seg_app in Hs as [Hx (Ha & Hb & Hy)]. simpl in *.
  apply NoDup_app in Hnd as (_ & Hd & [Ha' [Hb' _]%NoDup_cons]%NoDup_cons).
  split_and!; try done; try neq; set_solver.
Qed.

Lemma head_app_default {A} (xs : list A) y ys d :
  default d (head (xs ++ y :: ys)) = default y (head xs).
Proof. by destruct xs. Qed.

Lemma list_insert_dll h xs a b ys e :
  dll h (xs ++ a :: b :: ys) -> e ∉ xs ++ a :: b :: ys -> e <> NULL ->
  is_Some (h !! e) ->
  exists h', list_insert b e h = Ok (tt, h') /\
    dll h' (xs ++ a :: e :: b :: ys) /\ agree_off [a; e; b] h h'.
Proof.
  intros Hl He He0 [[ep en] Hee].
  pose proof (dll_split _ _ _ _ _ Hl) as (Ha & Hb & Hx & Hy & Ha0 & Hb0 & ? & ? & ? & ? & ?).
  destruct Hl as (_ & Hnd & Hnull).
  assert (e <> a) by neq. assert (e <> b) by neq.
  eexists. split_and!; [| split_and! |].
  - unfold list_insert. mstep (assert_insertable_run _ _ _ _ Hb0 Hb Ha0).
    destruct (Z.eqb_spec e NULL); [by exfalso|]. mnorm.
    do 5 hstep. eapply set_prev_run. hlook.
  - rewrite insert_insert_eq.
    apply seg_app. simpl. split; [|split_and!].
    + sframe Hx.
    + hlook.
    + hlook.
    + hlook.
    + sframe Hy.
  - apply NoDup_app in Hnd as (? & Hd & ?). apply NoDup_app. split_and!; [done|set_solver|].
    rewrite !NoDup_cons in *. set_solver.
  - set_solver.
  - agree.
Qed.

Lemma list_remove_run h a pa e b nb :
  h !! a = Some (mkElem pa e) -> h !! e = Some (mkElem a b) ->
  h !! b = Some (mkElem e nb) ->
  a <> NULL -> e <> NULL -> b <> NULL -> a <> e -> e <> b -> a <> b ->
  list_remove e h = Ok (b, <[b := mkElem a nb]> (<[a := mkElem pa b]> h)).
Proof.
  intros Ha He Hb Ha0 He0 Hb0 ? ? ?. unfold list_remove.
  mstep (is_interior_true _ _ _ _ He0 He Ha0 Hb0).
  do 6 hstep. eapply get_next_run. hlook.
Qed.

Lemma dll_split3 h xs a e b ys :
  dll h (xs ++ a :: e :: b :: ys) ->
  h !! a = Some (mkElem (default NULL (last xs)) e) /\ h !! e = Some (mkElem a b) /\
  h !! b = Some (mkElem e (default NULL (head ys))) /\
  a <> NULL /\ e <> NULL /\ b <> NULL /\ a <> e /\ e <> b /\ a <> b.
Proof.
  intros Hl.
  pose proof (dll_split _ _ _ _ _ Hl) as (? & ? & _ & [? _] & ? & ? & ? & _ & _ & ? & ?).
  destruct Hl as (_ & _ & Hnull). simpl in *. split_and!; try done; neq.
Qed.

Lemma list_remove_dll h xs a e b ys :
  dll h (xs ++ a :: e :: b :: ys) ->
  exists h', list_remove e h = Ok (b, h') /\
    dll h' (xs ++ a :: b :: ys) /\ agree_off [a; b] h h'.
Proof.
  intros Hl.
  pose proof (dll_split3 _ _ _ _ _ _ Hl) as (Ha & He & Hb & ? & ? & ? & ? & ? & ?).
  destruct Hl as (Hs & Hnd & Hnull).
  apply seg_app in Hs as [Hx (_ & _ & _ & Hy)].
  apply NoDup_app in Hnd as (? & Hd & Hnd). rewrite !NoDup_cons in Hnd.
  eexists. split_and!; [by eapply list_remove_run | split_and! | agree].
  - apply seg_app. simpl. split_and!; [sframe Hx | hlook | hlook | sframe Hy].
  - apply NoDup_app. rewrite !NoDup_cons. set_solver.
  - set_solver.
Qed.

(** [list_splice (b, f, next f)] is [list_remove (f)] followed by
    [list_insert (b, f)]: both perform the same six stores. *)
Lemma list_splice_one_run h b pb nb f n pn q pq nn :
  h !! b = Some (mkElem pb nb) -> b <> NULL -> pb <> NULL ->
  h !! q = Some (mkElem pq f) -> h !! f = Some (mkElem q n) ->
  h !! n = Some (mkElem f nn) ->
  q <> NULL -> f <> NULL -> n <> NULL -> q <> f -> f <> n -> q <> n ->
  <[n := mkElem q nn]> (<[q := mkElem pq n]> h) !! b = Some (mkElem pb pn) ->
  list_splice b f n h =
  list_insert b f (<[n := mkElem q nn]> (<[q := mkElem pq n]> h)).
Proof.
  intros Hb Hb0 Hpb Hq Hf Hn Hq0 Hf0 Hn0 ? ? ? Hb'. unfold list_splice.
  mstep (assert_insertable_run _ _ _ _ Hb0 Hb Hpb).
  destruct (Z.eqb_spec f n); [by exfalso|].
  mstep (list_prev_run _ _ _ _ Hn0 Hn Hf0).
  mstep (is_interior_true _ _ _ _ Hf0 Hf Hq0 Hn0).
  mstep (is_interior_true _ _ _ _ Hf0 Hf Hq0 Hn0).
  do 6 hstep. unfold list_insert.
  mstep (assert_insertable_run _ _ _ _ Hb0 Hb' Hpb).
  by destruct (Z.eqb_spec f NULL); [exfalso|].
Qed.

(** Moving one element [f] towards the front of its own list, as
    [inplace_merge] does. *)
Lemma list_splice_one_dll h P p b Q f n R :
  dll h (P ++ p :: b :: Q ++ f :: n :: R) ->
  exists h', list_splice b f n h = Ok (tt, h') /\
    dll h' (P ++ p :: f :: b :: Q ++ n :: R) /\
    agree_off (P ++ p :: b :: Q ++ f :: n :: R) h h'.
Proof.
  intros Hl.
  assert (exists xs q, P ++ p :: b :: Q = xs ++ [q]) as (xs & q & E).
  { destruct (P ++ p :: b :: Q) as [|q xs _] eqn:E using rev_ind; [by destruct P|]. eauto. }
  pose proof Hl as Hl2.
  replace (P ++ p :: b :: Q ++ f :: n :: R) with (xs ++ q :: f :: n :: R) in Hl2
    by (rewrite (cons_middle q), app_assoc, <- E, <- app_assoc; done).
  pose proof (dll_split3 _ _ _ _ _ _ Hl2) as (Hq & Hf & Hn & ? & ? & ? & ? & ? & ?).
  pose proof (dll_split _ _ _ _ _ Hl) as (_ & Hb & _ & _ & ? & ? & _).
  destruct (list_remove_dll _ _ _ _ _ _ Hl2) as (h1 & Hr & Hd1 & Ha1).
  erewrite list_remove_run in Hr by done. simplify_eq.
  replace (xs ++ q :: n :: R) with (P ++ p :: b :: Q ++ n :: R) in Hd1
    by (rewrite (cons_middle q), app_assoc, <- E, <- app_assoc; done).
  destruct (list_insert_dll _ _ _ _ _ f Hd1) as (h' & Hi & Hd & Ha2).
  { destruct Hl as (_ & Hnd & _). intros Hin.
    rewrite !app_comm_cons, (app_assoc P) in Hnd.
    apply NoDup_app in Hnd as (_ & Hdis & [? _]%NoDup_cons).
    rewrite !app_comm_cons, (app_assoc P), elem_of_app in Hin.
    destruct Hin as [Hin|Hin]; [apply (Hdis f Hin)|]; set_solver. }
  { done. }
  { rewrite !lookup_insert_ne by done. by rewrite Hf. }
  exists h'. split_and!; [|done|].
  - erewrite list_splice_one_run; [exact Hi|done..|].
    pose proof (dll_split _ _ _ _ _ Hd1) as (_ & Hb1 & _). exact Hb1.
  - eapply agree_off_trans; eapply agree_off_mono; [| exact Ha1 | | exact Ha2].
    + assert (q ∈ P ++ p :: b :: Q) by (rewrite E; set_solver). set_solver.
    + set_solver.
Qed.

(** ** Traversal *)

Lemma seg_elem_of h p zs n x : seg h p zs n -> x ∈ zs -> is_Some (h !! x).
Proof.
  revert p. induction zs as [|z zs IH]; intros p; [by intros _ ?%elem_of_nil|].
  intros [Hz Hs] [->|Hx]%elem_of_cons; eauto.
Qed.

(** A list is never longer than memory, so [fuel_of] bounds every traversal. *)
Lemma dll_length h zs : dll h zs -> (length zs <= size h)%nat.
Proof.
  intros (Hs & Hnd & _).
  rewrite <- (size_list_to_set (C := gset Z) zs) by done.
  rewrite <- size_dom. apply subseteq_size. intros x Hx.
  apply elem_of_list_to_set in Hx. apply elem_of_dom. by eapply seg_elem_of.
Qed.

Lemma is_list_length h l xs : is_list h l xs -> (length xs + 2 <= size h)%nat.
Proof. intros H%dll_length. simpl in H. rewrite length_app in H. simpl in H. lia. Qed.

(** Stepping forward and backward inside a list. *)
Lemma list_next_dll h xs a b ys :
  dll h (xs ++ a :: b :: ys) -> list_next a h = Ok (b, h).
Proof.
  intros (Ha & _ & _ & _ & ? & ? & _)%dll_split. by eapply list_next_run.
Qed.
Lemma list_prev_dll h xs a b ys :
  dll h (xs ++ a :: b :: ys) -> list_prev b h = Ok (a, h).
Proof.
  intros (_ & Hb & _ & _ & ? & ? & _)%dll_split. by eapply list_prev_run.
Qed.

(** [first ys t]: where a forward traversal of [ys] up to [t] starts. *)
Definition first (ys : list Z) (t : Z) : Z := default t (head ys).

Lemma first_cons_app ys t zs : exists w ws, ys ++ t :: zs = w :: ws /\ w = first ys t.
Proof. destruct ys; simpl; eauto. Qed.

Lemma list_next_first h xs a ys t zs :
  dll h (xs ++ a :: ys ++ t :: zs) -> list_next a h = Ok (first ys t, h).
Proof.
  destruct (first_cons_app ys t zs) as (w & ws & -> & ->). apply list_next_dll.
Qed.

Lemma list_begin_run h l xs :
  is_list h l xs -> list_begin l h = Ok (first xs (l + TAIL_OFS), h).
Proof.
  intros H. pose proof (is_list_nonnull _ _ _ H) as Hl.
  destruct H as ((Hh & _) & _ & _). unfold list_begin.
  destruct (Z.eqb_spec l NULL); [by exfalso|]. mnorm.
  erewrite get_next_run by exact Hh. by rewrite head_app_default.
Qed.

Lemma list_end_run h l xs :
  is_list h l xs -> list_end l h = Ok (l + TAIL_OFS, h).
Proof.
  intros Hl%is_list_nonnull. unfold list_end.
  destruct (Z.eqb_spec l NULL); [by exfalso|]. done.
Qed.

(** A traversal ends at the tail exactly when no element is left. *)
Lemma first_eq_tail ys t : t ∉ ys -> (first ys t =? t) = match ys with [] => true | _ => false end.
Proof.
  destruct ys as [|y ys]; intros Ht; [by apply Z.eqb_refl|].
  apply Z.eqb_neq. unfold first. simpl. intros <-. set_solver.
Qed.

Lemma is_list_tail_fresh h l xs : is_list h l xs -> l + TAIL_OFS ∉ xs /\ l ∉ xs.
Proof.
  intros (_ & [Hl Hnd]%NoDup_cons & _). apply NoDup_app in Hnd as (_ & Hd & _).
  set_solver.
Qed.

Lemma list_empty_run h l xs :
  is_list h l xs -> list_empty l h = Ok (match xs with [] => true | _ => false end, h).
Proof.
  intros H. unfold list_empty. mstep (list_begin_run _ _ _ H).
  mstep (list_end_run _ _ _ H).
  by rewrite <- (first_eq_tail xs (l + TAIL_OFS)) by apply (is_list_tail_fresh _ _ _ H).
Qed.

(** [list_init] makes an empty list whatever the header held. *)
Lemma list_init_spec h l :
  l <> NULL -> l + TAIL_OFS <> NULL -> is_Some (h !! l) -> is_Some (h !! (l + TAIL_OFS)) ->
  exists h', list_init l h = Ok (tt, h') /\ is_list h' l [] /\
    agree_off [l; l + TAIL_OFS] h h'.
Proof.
  intros Hl Ht [[? ?] H1] [[? ?] H2]. unfold TAIL_OFS in *.
  assert (l <> l + 16) by lia. assert (l + 16 <> l) by lia.
  eexists. split_and!.
  - unfold list_init, TAIL_OFS. destruct (Z.eqb_spec l NULL); [by exfalso|]. mnorm.
    do 3 hstep. eapply set_next_run. hlook.
  - split_and!; simpl; [split_and!; try done; hlook | | set_solver].
    rewrite !NoDup_cons. split_and!; try set_solver. apply NoDup_nil_2.
  - agree.
Qed.

Definition fresh_for (h : heap) (l : Z) (xs : list Z) (e : Z) : Prop :=
  e ∉ l :: xs ++ [l + TAIL_OFS] /\ e <> NULL /\ is_Some (h !! e).

Lemma list_push_front_spec h l xs e :
  is_list h l xs -> fresh_for h l xs e ->
  exists h', list_push_front l e h = Ok (tt, h') /\ is_list h' l (e :: xs) /\
    agree_off (e :: l :: xs ++ [l + TAIL_OFS]) h h'.
Proof.
  intros H (Hf & He & Ha). unfold list_push_front. mstep (list_begin_run _ _ _ H).
  destruct (first_cons_app xs (l + TAIL_OFS) []) as (w & ws & E & <-).
  unfold is_list in *. rewrite E in *.
  destruct (list_insert_dll h [] l w ws e) as (h' & -> & Hd & Hag); try done.
  exists h'. split_and!; [done|by rewrite <- app_comm_cons, E|].
  eapply agree_off_mono; [|done]. set_solver.
Qed.

Lemma list_push_back_spec h l xs e :
  is_list h l xs -> fresh_for h l xs e ->
  exists h', list_push_back l e h = Ok (tt, h') /\ is_list h' l (xs ++ [e]) /\
    agree_off (e :: l :: xs ++ [l + TAIL_OFS]) h h'.
Proof.
  intros H (Hf & He & Ha). unfold list_push_back. mstep (list_end_run _ _ _ H).
  assert (exists ys a, l :: xs = ys ++ [a]) as (ys & a & E).
  { destruct (l :: xs) as [|a ys _] eqn:E using rev_ind; [done|]. eauto. }
  unfold is_list in *. rewrite app_comm_cons, E, <- app_assoc in *. simpl in *.
  destruct (list_insert_dll h ys a (l + TAIL_OFS) [] e) as (h' & -> & Hd & Hag); try done.
  exists h'. split_and!; [done| |].
  - rewrite app_comm_cons, app_comm_cons, E, <- !app_assoc. done.
  - eapply agree_off_mono; [|done].
    assert (a ∈ l :: xs) by (rewrite E; set_solver). set_solver.
Qed.

Lemma list_remove_spec h l xs e ys :
  is_list h l (xs ++ e :: ys) ->
  exists h', list_remove e h = Ok (first ys (l + TAIL_OFS), h') /\
    is_list h' l (xs ++ ys) /\ agree_off (l :: xs ++ e :: ys ++ [l + TAIL_OFS]) h h'.
Proof.
  intros H. unfold is_list in *.
  assert (exists zs a, l :: xs = zs ++ [a]) as (zs & a & E).
  { destruct (l :: xs) as [|a zs _] eqn:E using rev_ind; [done|]. eauto. }
  destruct (first_cons_app ys (l + TAIL_OFS) []) as (w & ws & Ew & <-).
  rewrite <- app_assoc in *. simpl in *. rewrite Ew in *.
  rewrite app_comm_cons, E, <- app_assoc in H. simpl in H.
  destruct (list_remove_dll _ _ _ _ _ _ H) as (h' & -> & Hd & Hag).
  exists h'. split_and!; [done| |].
  - by rewrite app_comm_cons, E, <- app_assoc.
  - eapply agree_off_mono; [|done].
    assert (a ∈ l :: xs) by (rewrite E; set_solver).
    assert (w ∈ ys ++ [l + TAIL_OFS]) by (rewrite Ew; set_solver). set_solver.
Qed.

Lemma list_pop_front_spec h l x xs :
  is_list h l (x :: xs) ->
  exists h', list_pop_front l h = Ok (x, h') /\ is_list h' l xs /\
    agree_off (l :: x :: xs ++ [l + TAIL_OFS]) h h'.
Proof.
  intros H. unfold list_pop_front, list_front. mnorm.
  mstep (list_empty_run _ _ _ H). pose proof H as ((Hh & _) & _). simpl in Hh.
  mstep (get_next_run _ _ _ _ Hh).
  destruct (list_remove_spec h l [] x xs H) as (h' & Hr & ? & ?).
  mstep Hr. eauto.
Qed.

Lemma list_pop_back_spec h l xs x :
  is_list h l (xs ++ [x]) ->
  exists h', list_pop_back l h = Ok (x, h') /\ is_list h' l xs /\
    agree_off (l :: xs ++ x :: [l + TAIL_OFS]) h h'.
Proof.
  intros H. unfold list_pop_back, list_back. mnorm.
  mstep (list_empty_run _ _ _ H).
  assert (h !! (l + TAIL_OFS) = Some (mkElem x NULL)) as Ht.
  { destruct H as (Hs & _ & _). rewrite app_comm_cons in Hs.
    apply seg_app in Hs as [_ Hs]. rewrite app_comm_cons, last_snoc in Hs. simpl in Hs. tauto. }
  replace (negb match xs ++ [x] with [] => true | _ => false end) with true
    by (by destruct xs). mnorm.
  mstep (get_prev_run _ _ _ _ Ht).
  destruct (list_remove_spec h l xs x [] H) as (h' & Hr & Hd & Ha).
  mstep Hr. rewrite app_nil_r in Hd. eauto.
Qed.

(** ** Size and reversal *)

Lemma list_size_loop_run h xs ys t zs fuel cnt :
  dll h (xs ++ ys ++ t :: zs) -> (length ys <= fuel)%nat -> is_u64 cnt ->
  list_size_loop fuel (first ys t) t cnt h = Ok (u64 (cnt + Z.of_nat (length ys)), h).
Proof.
  revert xs fuel cnt. induction ys as [|y ys IH]; intros xs fuel cnt Hd Hf Hc.
  - destruct fuel; simpl; rewrite Z.eqb_refl, Z.add_0_r, wrapu_id by done; done.
  - assert (y <> t).
    { destruct Hd as (_ & Hnd & _). rewrite app_assoc in Hnd.
      apply NoDup_app in Hnd as (_ & Hdis & _). intros ->.
      apply (Hdis t); set_solver. }
    destruct fuel as [|fuel]; simpl in Hf; [lia|].
    simpl. unfold first at 1. simpl. destruct (Z.eqb_spec y t); [done|].
    mstep (list_next_first h xs y ys t zs Hd).
    rewrite (IH (xs ++ [y])); [|by rewrite <- app_assoc|lia|by apply wrapu_range].
    do 2 f_equal. unfold wrapu. rewrite Zplus_mod_idemp_l. f_equal. lia.
Qed.

Lemma list_size_spec h l xs :
  is_list h l xs -> list_size l h = Ok (u64 (Z.of_nat (length xs)), h).
Proof.
  intros H. unfold list_size. mnorm. mstep (list_begin_run _ _ _ H).
  mstep (list_end_run _ _ _ H).
  apply (list_size_loop_run h [l] xs _ []); [done| |done].
  pose proof (is_list_length _ _ _ H). unfold fuel_of. lia.
Qed.

Definition flip (e : list_elem) : list_elem := mkElem (next e) (prev e).

Lemma swap_links_run h e n :
  h !! e = Some n -> swap_links e h = Ok (tt, <[e := flip n]> h).
Proof.
  destruct n as [p n]. intros H. unfold swap_links. do 3 hstep.
  erewrite set_next_run by hlook. by rewrite insert_insert_eq.
Qed.

(** The loop of [list_reverse] exchanges the links of every interior element
    and nothing else. *)
Lemma list_reverse_loop_run h p ys t fuel :
  seg h p ys t -> t ∉ ys -> NoDup ys -> (length ys <= fuel)%nat ->
  exists h', list_reverse_loop fuel (first ys t) t h = Ok (tt, h') /\
    (forall y, y ∈ ys -> h' !! y = flip <$> h !! y) /\ agree_off ys h h'.
Proof.
  revert h p fuel. induction ys as [|y ys IH]; intros h p fuel Hs Ht Hnd Hf.
  - exists h. split_and!; [|by intros ? ?%elem_of_nil|done].
    destruct fuel; simpl; unfold first; simpl; by rewrite Z.eqb_refl.
  - destruct fuel as [|fuel]; simpl in Hf; [lia|].
    destruct Hs as [Hy Hs]. apply NoDup_cons in Hnd as [Hny Hnd].
    assert (y <> t) by neq.
    simpl. unfold first at 1. simpl. destruct (Z.eqb_spec y t); [by exfalso|].
    mstep (swap_links_run _ _ _ Hy).
    mstep (get_prev_run (<[y := flip (mkElem p (default t (head ys)))]> h) y _ _
             (lookup_insert_eq _ _ _)).
    simpl. change (default t (head ys)) with (first ys t).
    destruct (IH (<[y := flip (mkElem p (first ys t))]> h) y fuel)
      as (h' & Hl & Hsw & Hag); [|set_solver|done|lia|].
    { eapply seg_frame; [|exact Hs]. intros x Hx. by rewrite lookup_insert_ne by neq. }
    exists h'. split_and!; [done| |].
    + intros x [->|Hx]%elem_of_cons.
      * destruct Hag as [_ Hag]. rewrite Hag by done. rewrite lookup_insert_eq, Hy. done.
      * rewrite Hsw by done. by rewrite lookup_insert_ne by neq.
    + eapply agree_off_trans; [|eapply agree_off_mono; [|exact Hag]; set_solver].
      split; [|intros x Hx; by rewrite lookup_insert_ne by neq].
      rewrite dom_insert_L. apply subseteq_union_1_L, singleton_subseteq_l, elem_of_dom. by rewrite Hy.
Qed.

(** Exchanging the links of every element of a segment reverses it. *)
Lemma seg_reverse h h' p xs n :
  (forall x, x ∈ xs -> h' !! x = flip <$> h !! x) -> seg h p xs n -> seg h' n (reverse xs) p.
Proof.
  revert p. induction xs as [|x xs IH]; intros p Hf; [done|].
  intros [Hx Hs]. rewrite reverse_cons. apply seg_app. simpl. split_and!; [|rewrite Hf, Hx by set_solver|done].
  - apply IH; [set_solver|done].
  - simpl. unfold flip. simpl. do 2 f_equal. by rewrite last_reverse.
Qed.

(** Redirecting the outer links of a segment. *)
Lemma seg_relink h p xs n a zp zn :
  seg h p (a :: xs) n -> NoDup (a :: xs) ->
  let z := default a (last xs) in
  let h1 := <[a := mkElem zp (first xs n)]> h in
  forall e, h1 !! z = Some e ->
  seg (<[z := mkElem (prev e) zn]> h1) zp (a :: xs) zn.
Proof.
  intros [Ha Hs] [Hn Hnd]%NoDup_cons z h1 e He.
  destruct xs as [|x xs _] using rev_ind; simpl in *.
  - subst z h1. rewrite lookup_insert_eq in He. simplify_eq. simpl.
    split; [|done]. by rewrite lookup_insert_eq.
  - subst z. rewrite last_snoc in *. simpl in *.
    assert (a <> x) by neq.
    apply seg_app in Hs as [Hs [Hx _]]. simpl in Hx. apply NoDup_app in Hnd as (Hnd & Hd & _).
    subst h1. rewrite lookup_insert_ne, Hx in He by done. simplify_eq. simpl.
    split.
    + rewrite lookup_insert_ne, lookup_insert_eq by done. by rewrite head_app_default; destruct xs.
    + apply seg_app. simpl. split_and!; [sframe Hs|by rewrite lookup_insert_eq|done].
Qed.

Lemma list_reverse_headers_run h l z zs :
  let t := l + TAIL_OFS in
  let a := default z (last zs) in
  h !! l = Some (mkElem NULL a) -> h !! t = Some (mkElem z NULL) ->
  seg h t (z :: zs) l -> NoDup (z :: zs) -> l ∉ z :: zs -> t ∉ z :: zs -> l <> t ->
  exists h', list_reverse_headers l h = Ok (tt, h') /\
    seg h' NULL (l :: (z :: zs) ++ [t]) NULL /\
    agree_off (l :: t :: z :: zs) h h'.
Proof.
  intros t a Hl Ht Hs Hnd Hln Htn Hlt.
  assert (Ha : a ∈ z :: zs).
  { subst a. destruct (last zs) eqn:E; simpl; [|set_solver].
    apply last_Some in E as [? ->]. set_solver. }
  assert (z <> l) by (intros <-; apply Hln; set_solver).
  assert (z <> t) by (intros ->; apply Htn; set_solver).
  assert (a <> l) by (intros E; apply Hln; by rewrite <- E).
  assert (a <> t) by (intros E; apply Htn; by rewrite <- E).
  set (h2 := <[t := mkElem a NULL]> (<[l := mkElem NULL z]> h)).
  assert (Hs2 : seg h2 t (z :: zs) l).
  { eapply seg_frame; [|exact Hs]. intros x Hx. subst h2.
    rewrite !lookup_insert_ne; [done| |]; intros <-; done. }
  assert (exists pa, h2 !! a = Some (mkElem pa l)) as [pa Hpa].
  { subst a. destruct zs as [|w ws _] using rev_ind; [exists t; apply Hs2|].
    rewrite last_snoc in *. simpl in Hs2. destruct Hs2 as [_ Hs2].
    apply seg_app in Hs2 as [_ [Hw _]]. eauto. }
  pose proof Hs2 as [Hz _].
  pose proof (seg_relink h2 t zs l z l t Hs2 Hnd) as Hrel. cbv zeta in Hrel. fold a in Hrel.
  assert (exists e, <[z := mkElem l (first zs l)]> h2 !! a = Some e) as [e He].
  { destruct (decide (z = a)) as [<-|]; [rewrite lookup_insert_eq; eauto|].
    rewrite lookup_insert_ne by done. eauto. }
  specialize (Hrel e He). exists (<[a := mkElem (prev e) t]> (<[z := mkElem l (first zs l)]> h2)).
  split_and!.
  - unfold list_reverse_headers. fold t. do 6 hstep. fold h2.
    mstep (get_prev_run _ _ _ _ Hz). mstep (get_next_run _ _ _ _ Hpa).
    mstep (set_prev_run _ _ _ _ l Hz).
    destruct e as [pe ne]. by erewrite set_next_run by exact He.
  - split; [|apply seg_app; split_and!].
    + simpl. subst h2. hlook.
    + exact Hrel.
    + rewrite last_cons_default. fold a. simpl. split; [|done]. subst h2. hlook.
  - subst h2. split; [|intros x Hx; rewrite !lookup_insert_ne; set_solver].
    rewrite !dom_insert_L. apply set_eq. intros x.
    rewrite !elem_of_union, !elem_of_singleton, elem_of_dom.
    assert (is_Some (h !! z)) by (eapply seg_elem_of; [exact Hs|set_solver]).
    assert (is_Some (h !! a)) by (eapply seg_elem_of; [exact Hs|done]).
    naive_solver.
Qed.

Lemma list_reverse_spec h l xs :
  is_list h l xs ->
  exists h', list_reverse l h = Ok (tt, h') /\ is_list h' l (reverse xs) /\
    agree_off (l :: xs ++ [l + TAIL_OFS]) h h'.
Proof.
  intros H. unfold list_reverse. mnorm. mstep (list_empty_run _ _ _ H).
  destruct (reverse xs) as [|z zs] eqn:Er.
  { apply (f_equal reverse) in Er. rewrite reverse_involutive in Er. subst xs.
    eauto using agree_off_refl. }
  replace (match xs with [] => true | _ => false end) with false by (by destruct xs).
  mstep (list_begin_run _ _ _ H). mstep (list_end_run _ _ _ H).
  pose proof (is_list_tail_fresh _ _ _ H) as [Htf Hlf].
  pose proof (is_list_length _ _ _ H) as Hlen.
  pose proof H as ((Hl & Hs) & Hnd & Hnull).
  apply seg_app in Hs as [Hs [Ht _]]. simpl in Hs.
  pose proof Hnd as [Hlt Hndt]%NoDup_cons. apply NoDup_app in Hndt as (Hndx & _ & _).
  destruct (list_reverse_loop_run h l xs (l + TAIL_OFS) (fuel_of h))
    as (h1 & Hloop & Hsw & Hdom & Hag); [done..|unfold fuel_of; lia|].
  mstep Hloop.
  rewrite <- (Hag l) in Hl by done. rewrite <- (Hag (l + TAIL_OFS)) in Ht by done.
  pose proof (seg_reverse h h1 l xs (l + TAIL_OFS) Hsw Hs) as Hrev. rewrite Er in Hrev.
  assert (Ex : xs = reverse (z :: zs)) by (by rewrite <- Er, reverse_involutive).
  assert (Hperm : forall x, x ∈ z :: zs <-> x ∈ xs)
    by (intros x; rewrite Ex, elem_of_reverse; done).
  simpl in Hl, Ht.
  rewrite head_app_default, Ex, head_reverse, last_cons_default in Hl.
  rewrite Ex, last_reverse in Ht. simpl in Ht.
  destruct (list_reverse_headers_run h1 l z zs) as (h' & Hrun & Hs' & Hdom' & Hag');
    [done|done|done|by rewrite <- Er, (reverse_Permutation xs)|by rewrite Hperm|by rewrite Hperm|set_solver|].
  exists h'. split_and!; [done|split_and!; [done| |]|split].
  - rewrite <- Er. by rewrite (reverse_Permutation xs).
  - rewrite <- Er. intros Hin. apply Hnull. rewrite <- (reverse_Permutation xs). done.
  - congruence.
  - intros x Hx. rewrite Hag', Hag; [done|set_solver|].
    rewrite !not_elem_of_cons, <- not_elem_of_cons, Hperm. set_solver.
Qed.
