(* ===== verification/KListSort.v ===== *)
(** * Ordered operations of the kernel list (lib/kernel/list.c)

    [list_insert_ordered], [list_unique], [list_max], [list_min] and the
    in-place natural merge sort [list_sort], all on the heap model of
    [KList].  Each is shown to compute a function on the sequence of elements
    (a refinement), and the functions are then shown to have the promised
    order properties when [less] is a strict weak order. *)

From S2P Require Import Prelude KList.

Section Spec.
Variable less : Z -> Z -> bool.

(** [a] does not come after [b]. *)
Definition nle (a b : Z) : Prop := less b a = false.
Definition eqv (a b : Z) : bool := negb (less a b) && negb (less b a).

(** ** Sequence-level functions *)

Fixpoint ins (e : Z) (xs : list Z) : list Z :=
  match xs with
  | [] => [e]
  | x :: t => if less e x then e :: x :: t else x :: ins e t
  end.

(** [uniq x t]: what [list_unique] keeps of [x :: t], and what it drops. *)
Fixpoint uniq (x : Z) (t : list Z) : list Z * list Z :=
  match t with
  | [] => ([x], [])
  | y :: t' =>
      if eqv x y then let '(k, d) := uniq x t' in (k, y :: d)
      else let '(k, d) := uniq y t' in (x :: k, d)
  end.

Fixpoint best (better : Z -> Z -> bool) (m : Z) (xs : list Z) : Z :=
  match xs with
  | [] => m
  | x :: t => best better (if better m x then x else m) t
  end.

(** The longest nondecreasing continuation of [a] in [ys], and the rest. *)
Fixpoint run_split (a : Z) (ys : list Z) : list Z * list Z :=
  match ys with
  | [] => ([], [])
  | y :: t =>
      if less y a then ([], y :: t)
      else let '(r, rest) := run_split y t in (y :: r, rest)
  end.

Fixpoint merge (A : list Z) : list Z -> list Z :=
  fix mergeB (B : list Z) : list Z :=
    match A, B with
    | [], _ => B
    | _, [] => A
    | a :: A', b :: B' =>
        if less b a then b :: mergeB B' else a :: merge A' B
    end.

(** One pass of the sort: the merged runs and their number. *)
Fixpoint pass (fuel : nat) (xs : list Z) : list Z * nat :=
  match fuel, xs with
  | O, _ => (xs, O)
  | _, [] => ([], O)
  | S fuel, x :: t =>
      let '(r1, rest) := run_split x t in
      match rest with
      | [] => (x :: t, 1%nat)
      | y :: t2 =>
          let '(r2, rest2) := run_split y t2 in
          let '(out, c) := pass fuel rest2 in
          (merge (x :: r1) (y :: r2) ++ out, S c)
      end
  end.
End Spec.

Lemma dll_not_mid h xs ys t zs : dll h (xs ++ ys ++ t :: zs) -> t ∉ ys.
Proof.
  intros (_ & Hnd & _) Hin. rewrite app_assoc in Hnd.
  apply NoDup_app in Hnd as (_ & Hd & _). apply (Hd t); set_solver.
Qed.

Lemma first_neq y ys t : t ∉ y :: ys -> (first (y :: ys) t =? t) = false.
Proof. intros H. by rewrite first_eq_tail by done. Qed.

Section Refine.
Variable less : Z -> Z -> bool.

(** ** list_insert_ordered *)

Lemma list_insert_ordered_loop_run h e xs ys t zs fuel :
  dll h (xs ++ ys ++ t :: zs) -> (length ys <= fuel)%nat ->
  exists ys1 ys2, ys = ys1 ++ ys2 /\ ins less e ys = ys1 ++ e :: ys2 /\
    list_insert_ordered_loop less fuel e (first ys t) t h = Ok (first ys2 t, h).
Proof.
  revert xs fuel. induction ys as [|y ys IH]; intros xs fuel Hd Hf.
  - exists [], []. split_and!; [done|done|].
    destruct fuel; simpl; unfold first; simpl; by rewrite Z.eqb_refl.
  - destruct fuel as [|fuel]; simpl in Hf; [lia|].
    cbn [list_insert_ordered_loop ins].
    rewrite first_neq by (by eapply dll_not_mid). change (first (y :: ys) t) with y.
    destruct (less e y).
    + by exists [], (y :: ys).
    + mstep (list_next_first _ _ _ _ _ _ Hd).
      destruct (IH (xs ++ [y]) fuel) as (ys1 & ys2 & -> & -> & Hr);
        [by rewrite <- app_assoc|lia|].
      by exists (y :: ys1), ys2.
Qed.

Lemma list_insert_between h l xs ys e :
  is_list h l (xs ++ ys) -> fresh_for h l (xs ++ ys) e ->
  exists h', list_insert (first ys (l + TAIL_OFS)) e h = Ok (tt, h') /\
    is_list h' l (xs ++ e :: ys) /\
    agree_off (e :: l :: (xs ++ ys) ++ [l + TAIL_OFS]) h h'.
Proof.
  intros H (Hf & He & Ha). unfold is_list in *.
  assert (exists zs a, l :: xs = zs ++ [a]) as (zs & a & E).
  { destruct (l :: xs) as [|a zs _] eqn:E using rev_ind; [done|]. eauto. }
  destruct (first_cons_app ys (l + TAIL_OFS) []) as (w & ws & Ew & <-).
  assert (Eall : l :: (xs ++ ys) ++ [l + TAIL_OFS] = zs ++ a :: w :: ws).
  { rewrite <- app_assoc, Ew, app_comm_cons, E, <- app_assoc. done. }
  rewrite Eall in *.
  destruct (list_insert_dll _ _ _ _ _ _ H Hf He Ha) as (h' & -> & Hd & Hag).
  exists h'. split_and!; [done| |].
  - rewrite <- app_assoc. simpl. rewrite Ew, app_comm_cons, E, <- app_assoc. done.
  - eapply agree_off_mono; [|done]. set_solver.
Qed.

Lemma list_insert_ordered_refines h l xs e :
  is_list h l xs -> fresh_for h l xs e ->
  exists h', list_insert_ordered less l e h = Ok (tt, h') /\
    is_list h' l (ins less e xs) /\
    agree_off (e :: l :: xs ++ [l + TAIL_OFS]) h h'.
Proof.
  intros H Hf. pose proof (is_list_nonnull _ _ _ H). pose proof Hf as (_ & He & _).
  unfold list_insert_ordered. mnorm.
  destruct (Z.eqb_spec l NULL); [by exfalso|]. mnorm.
  destruct (Z.eqb_spec e NULL); [by exfalso|]. mnorm.
  mstep (list_begin_run _ _ _ H). mstep (list_end_run _ _ _ H).
  destruct (list_insert_ordered_loop_run h e [l] xs (l + TAIL_OFS) [] (fuel_of h))
    as (xs1 & xs2 & -> & -> & Hr).
  { exact H. }
  { pose proof (is_list_length _ _ _ H). unfold fuel_of. lia. }
  mstep Hr. by apply list_insert_between.
Qed.

(** ** list_max and list_min *)

Lemma list_best_loop_run better h m xs ys t zs fuel :
  dll h (xs ++ ys ++ t :: zs) -> (length ys <= fuel)%nat ->
  list_best_loop better fuel m (first ys t) t h = Ok (best better m ys, h).
Proof.
  revert m xs fuel. induction ys as [|y ys IH]; intros m xs fuel Hd Hf.
  - destruct fuel; simpl; unfold first; simpl; by rewrite Z.eqb_refl.
  - destruct fuel as [|fuel]; simpl in Hf; [lia|].
    cbn [list_best_loop best]. rewrite first_neq by (by eapply dll_not_mid).
    change (first (y :: ys) t) with y. mstep (list_next_first _ _ _ _ _ _ Hd).
    apply (IH _ (xs ++ [y])); [by rewrite <- app_assoc|lia].
Qed.

(** The tail on the empty list, the best element otherwise. *)
Definition best_of (better : Z -> Z -> bool) (l : Z) (xs : list Z) : Z :=
  match xs with [] => l + TAIL_OFS | x :: t => best better x t end.

Lemma list_best_refines better h l xs :
  is_list h l xs ->
  (h ← get; m ← list_begin l; end_ ← list_end l;
   if m =? end_ then ret m else
   e ← list_next m; list_best_loop better (fuel_of h) m e end_) h
  = Ok (best_of better l xs, h).
Proof.
  intros H. mnorm. mstep (list_begin_run _ _ _ H). mstep (list_end_run _ _ _ H).
  rewrite first_eq_tail by apply (is_list_tail_fresh _ _ _ H).
  destruct xs as [|x xs]; [done|]. change (first (x :: xs) _) with x.
  mstep (list_next_first h [l] x xs (l + TAIL_OFS) [] H).
  apply (list_best_loop_run better h x [l; x] xs _ []); [done|].
  pose proof (is_list_length _ _ _ H). unfold fuel_of. simpl in *. lia.
Qed.

Lemma list_max_refines h l xs :
  is_list h l xs -> list_max less l h = Ok (best_of (fun m e => less m e) l xs, h).
Proof. apply list_best_refines. Qed.

Lemma list_min_refines h l xs :
  is_list h l xs -> list_min less l h = Ok (best_of (fun m e => less e m) l xs, h).
Proof. apply list_best_refines. Qed.
End Refine.

Section Unique.
Variable less : Z -> Z -> bool.

(** All addresses a list occupies. *)
Definition cells (l : Z) (xs : list Z) : list Z := l :: xs ++ [l + TAIL_OFS].

(** The list of duplicates: absent, or a list on other addresses. *)
Definition dups_ok (h : heap) (l : Z) (xs : list Z) (d : Z) (ds : list Z) : Prop :=
  d = NULL \/ (is_list h d ds /\ forall z, z ∈ cells l xs -> z ∉ cells d ds).

(** One duplicate [y] leaves [l] and joins [d]. *)
Lemma unique_move h l xs y ys d ds :
  is_list h l (xs ++ y :: ys) -> dups_ok h l (xs ++ y :: ys) d ds ->
  exists h',
    (list_remove y;; (if negb (d =? NULL) then list_push_back d y else ret tt)) h
      = Ok (tt, h') /\
    is_list h' l (xs ++ ys) /\ dups_ok h' l (xs ++ ys) d (ds ++ [y]) /\
    dom h' = dom h.
Proof.
  intros Hl Hd. destruct (list_remove_spec _ _ _ _ _ Hl) as (h1 & Hr & Hl1 & Hag1).
  assert (Hy : y <> NULL /\ y ∉ cells l (xs ++ ys)).
  { destruct Hl as (_ & Hnd & Hnull). split; [intros ->; set_solver|].
    unfold cells. rewrite <- app_assoc in *. simpl in Hnd. rewrite app_comm_cons in Hnd.
    apply NoDup_app in Hnd as (_ & Hdis & [? _]%NoDup_cons). set_solver. }
  mstep Hr. destruct Hd as [->|[Hd Hdis]].
  { exists h1. split_and!; [done|done|by left|apply Hag1]. }
  pose proof (is_list_nonnull _ _ _ Hd). destruct (Z.eqb_spec d NULL); [by exfalso|]. simpl.
  assert (Hd1 : is_list h1 d ds).
  { eapply is_list_frame; [exact Hag1| |exact Hd]. intros z Hz Hz'.
    apply (Hdis z); [|exact Hz]. unfold cells. set_solver. }
  destruct (list_push_back_spec h1 d ds y Hd1) as (h2 & Hp & Hd2 & Hag2).
  { split_and!; [apply Hdis; unfold cells; set_solver|apply Hy|].
    apply elem_of_dom. destruct Hag1 as [-> _]. apply elem_of_dom.
    destruct Hl as (Hs & _ & _). eapply seg_elem_of; [exact Hs|set_solver]. }
  assert (Hsub : forall z, z ∈ cells l (xs ++ ys) -> z ∉ y :: cells d ds).
  { intros z Hz. rewrite not_elem_of_cons. split; [intros ->; by apply Hy|].
    apply Hdis. unfold cells in *. set_solver. }
  exists h2. split_and!; [exact Hp| | |].
  - eapply is_list_frame; [exact Hag2| |exact Hl1]. exact Hsub.
  - right. split; [done|]. intros z Hz. specialize (Hsub z Hz). unfold cells in *. set_solver.
  - destruct Hag1 as [<- _]. apply Hag2.
Qed.

Lemma list_unique_loop_run h l xs x t d ds fuel :
  is_list h l (xs ++ x :: t) -> dups_ok h l (xs ++ x :: t) d ds ->
  (length t <= fuel)%nat ->
  exists h', list_unique_loop less fuel x (l + TAIL_OFS) d h = Ok (tt, h') /\
    is_list h' l (xs ++ (uniq less x t).1) /\
    dups_ok h' l (xs ++ (uniq less x t).1) d (ds ++ (uniq less x t).2).
Proof.
  revert h xs x ds fuel. induction t as [|y t IH]; intros h xs x ds fuel Hl Hd Hf.
  - exists h. simpl. rewrite app_nil_r. split_and!; [|done|done].
    pose proof Hl as Hl'. unfold is_list in Hl'. rewrite <- app_assoc, app_comm_cons in Hl'.
    destruct fuel; cbn [list_unique_loop];
      mstep (list_next_first h (l :: xs) x [] (l + TAIL_OFS) [] Hl');
      unfold first; simpl; by rewrite Z.eqb_refl.
  - destruct fuel as [|fuel]; simpl in Hf; [lia|]. cbn [list_unique_loop uniq].
    pose proof Hl as Hl'. unfold is_list in Hl'. rewrite <- app_assoc, app_comm_cons in Hl'.
    mstep (list_next_first h (l :: xs) x (y :: t) (l + TAIL_OFS) [] Hl').
    rewrite first_neq by (destruct (is_list_tail_fresh _ _ _ Hl); set_solver).
    change (first (y :: t) _) with y. fold (eqv less x y). destruct (eqv less x y) eqn:E.
    + destruct (unique_move h l (xs ++ [x]) y t d ds) as (h1 & Hm & Hl1 & Hd1 & _);
        [by rewrite <- app_assoc|by rewrite <- app_assoc|].
      rewrite <- app_assoc in Hl1, Hd1. simpl in Hl1, Hd1.
      destruct (IH h1 xs x (ds ++ [y]) fuel Hl1 Hd1) as (h' & Hloop & Hl2 & Hd2); [lia|].
      exists h'. destruct (uniq less x t) as [k dd]. simpl in *.
      rewrite <- app_assoc in Hd2. split_and!; [|done|done].
      rewrite <- bind_bind. by mstep Hm.
    + destruct (IH h (xs ++ [x]) y ds fuel) as (h' & Hloop & Hl2 & Hd2);
        [by rewrite <- app_assoc|by rewrite <- app_assoc|lia|].
      exists h'. destruct (uniq less y t) as [k dd]. simpl in *.
      rewrite <- app_assoc in Hl2, Hd2. done.
Qed.

Lemma list_unique_refines h l x t d ds :
  is_list h l (x :: t) -> dups_ok h l (x :: t) d ds ->
  exists h', list_unique less l d h = Ok (tt, h') /\
    is_list h' l (uniq less x t).1 /\
    dups_ok h' l (uniq less x t).1 d (ds ++ (uniq less x t).2).
Proof.
  intros Hl Hd. unfold list_unique. mnorm. pose proof (is_list_nonnull _ _ _ Hl).
  destruct (Z.eqb_spec l NULL); [by exfalso|]. mnorm.
  mstep (list_empty_run _ _ _ Hl). mstep (list_begin_run _ _ _ Hl).
  mstep (list_end_run _ _ _ Hl). change (first (x :: t) _) with x.
  apply (list_unique_loop_run h l [] x t d ds); [done|done|].
  pose proof (is_list_length _ _ _ Hl). unfold fuel_of. simpl in *. lia.
Qed.
End Unique.

Section SortRefine.
Variable less : Z -> Z -> bool.
Notation nle := (nle less).

(** Adjacent elements are in order. *)
Definition nondec (xs : list Z) : Prop := Sorted nle xs.

Lemma run_split_app a ys r rest :
  run_split less a ys = (r, rest) -> ys = r ++ rest /\ nondec (a :: r).
Proof.
  revert a r. induction ys as [|y ys IH]; intros a r; simpl.
  - intros [= <- <-]. by repeat constructor.
  - destruct (less y a) eqn:E; [intros [= <- <-]; by repeat constructor|].
    destruct (run_split less y ys) as [r' rest'] eqn:Er. intros [= <- <-].
    destruct (IH y r' Er) as [-> Hs]. split; [done|]. by constructor; [|constructor].
Qed.

Lemma find_end_of_run_loop_run h xs a ys t zs fuel :
  dll h (xs ++ a :: ys ++ t :: zs) -> (length ys < fuel)%nat ->
  find_end_of_run_loop less fuel a t h = Ok (first (run_split less a ys).2 t, h).
Proof.
  revert xs a fuel. induction ys as [|y ys IH]; intros xs a fuel Hd Hf;
    (destruct fuel as [|fuel]; [simpl in Hf; lia|]); cbn [find_end_of_run_loop].
  - mstep (list_next_first _ _ _ _ _ _ Hd). unfold first; simpl. by rewrite Z.eqb_refl.
  - mstep (list_next_first _ _ _ _ _ _ Hd).
    rewrite first_neq by (apply (dll_not_mid h (xs ++ [a]) (y :: ys) t zs); rewrite <- app_assoc; exact Hd).
    change (first (y :: ys) t) with y. mstep (list_prev_dll _ _ _ _ _ Hd). simpl.
    destruct (less y a); [done|].
    rewrite (IH (xs ++ [a])); [|by rewrite <- app_assoc|simpl in Hf; lia].
    by destruct (run_split less y ys).
Qed.

Lemma find_end_of_run_run h xs a ys t zs :
  dll h (xs ++ a :: ys ++ t :: zs) ->
  find_end_of_run less a t h = Ok (first (run_split less a ys).2 t, h).
Proof.
  intros Hd. unfold find_end_of_run. mnorm.
  assert (Hnull : a <> NULL /\ t <> NULL).
  { destruct Hd as (_ & _ & Hn). split; intros ->; set_solver. }
  assert (Hat : a <> t).
  { intros ->. apply (dll_not_mid h xs (t :: ys) t zs); [done|set_solver]. }
  destruct (Z.eqb_spec a NULL); [by destruct Hnull|]. mnorm.
  destruct (Z.eqb_spec t NULL); [by destruct Hnull|]. mnorm.
  destruct (Z.eqb_spec a t); [by exfalso|]. mnorm.
  eapply find_end_of_run_loop_run; [exact Hd|].
  pose proof (dll_length _ _ Hd) as Hl. unfold fuel_of.
  rewrite length_app in Hl. simpl in Hl. rewrite length_app in Hl. simpl in Hl. lia.
Qed.

Lemma is_sorted_loop_run h xs a ys t zs fuel :
  dll h (xs ++ a :: ys ++ t :: zs) -> nondec (a :: ys) -> (length ys <= fuel)%nat ->
  is_sorted_loop less fuel a t h = Ok (true, h).
Proof.
  revert xs a fuel. induction ys as [|y ys IH]; intros xs a fuel Hd Hs Hf.
  - destruct fuel; cbn [is_sorted_loop]; mstep (list_next_first _ _ _ _ _ _ Hd);
      unfold first; simpl; by rewrite Z.eqb_refl.
  - destruct fuel as [|fuel]; [simpl in Hf; lia|]. cbn [is_sorted_loop].
    mstep (list_next_first _ _ _ _ _ _ Hd).
    rewrite first_neq by (apply (dll_not_mid h (xs ++ [a]) (y :: ys) t zs); rewrite <- app_assoc; exact Hd).
    change (first (y :: ys) t) with y. mstep (list_prev_dll _ _ _ _ _ Hd).
    apply Sorted_inv in Hs as [Hs Hr]. apply HdRel_inv in Hr. rewrite Hr.
    apply (IH (xs ++ [a])); [by rewrite <- app_assoc|done|simpl in Hf; lia].
Qed.

(** [is_sorted] accepts every range in order, which is why the assertions of
    [inplace_merge] and [list_sort] hold. *)
Lemma is_sorted_run h xs ys t zs :
  dll h (xs ++ ys ++ t :: zs) -> nondec ys ->
  is_sorted less (first ys t) t h = Ok (true, h).
Proof.
  intros Hd Hs. unfold is_sorted. mnorm. rewrite first_eq_tail by (by eapply dll_not_mid).
  destruct ys as [|y ys]; [done|]. change (first (y :: ys) t) with y.
  eapply is_sorted_loop_run; [exact Hd|done|].
  pose proof (dll_length _ _ Hd) as Hl. unfold fuel_of.
  rewrite !length_app in Hl. simpl in Hl. lia.
Qed.

Lemma merge_nil_r A : merge less A [] = A.
Proof. by destruct A. Qed.

Lemma merge_cons a A b B :
  merge less (a :: A) (b :: B) =
  if less b a then b :: merge less (a :: A) B else a :: merge less A (b :: B).
Proof. done. Qed.

(** First element of [A ++ B ++ t :: _]. *)
Lemma first_app A B t zs : exists w, head (A ++ B ++ t :: zs) = Some w /\ w = first A (first B t).
Proof. destruct A, B; simpl; eauto. Qed.

Lemma inplace_merge_loop_run h P p A B t R fuel :
  dll h (P ++ p :: A ++ B ++ t :: R) -> (length A + length B <= fuel)%nat ->
  exists h',
    inplace_merge_loop less fuel (first A (first B t)) (first B t) t h = Ok (tt, h') /\
    dll h' (P ++ p :: merge less A B ++ t :: R) /\
    agree_off (P ++ p :: A ++ B ++ t :: R) h h'.
Proof.
  revert h P p A B. induction fuel as [|fuel IH]; intros h P p A B Hd Hf.
  { destruct A, B; simpl in Hf; try lia. exists h. simpl. by rewrite Z.eqb_refl. }
  cbn [inplace_merge_loop].
  destruct A as [|a A].
  { exists h. unfold first at 1. simpl. rewrite Z.eqb_refl. by destruct B. }
  destruct B as [|b B].
  { exists h. rewrite merge_nil_r. unfold first at 2 3. simpl. rewrite Z.eqb_refl, orb_true_r. done. }
  change (first (a :: A) (first (b :: B) t)) with a. change (first (b :: B) t) with b.
  assert (Hab : a <> b).
  { intros ->. apply (dll_not_mid h (P ++ [p]) (b :: A) b (B ++ t :: R));
      [by rewrite <- app_assoc|set_solver]. }
  assert (Hbt : b <> t).
  { intros ->. apply (dll_not_mid h (P ++ p :: a :: A) (t :: B) t R); [|set_solver].
    by rewrite <- app_assoc. }
  destruct (Z.eqb_spec a b); [by exfalso|]. destruct (Z.eqb_spec b t); [by exfalso|].
  cbn [orb]. rewrite merge_cons. destruct (less b a) eqn:E; cbn [negb].
  - (* b moves in front of a *)
    assert (Hd2 : dll h ((P ++ p :: a :: A) ++ b :: B ++ t :: R)) by (by rewrite <- app_assoc).
    destruct (first_cons_app B t R) as (w & ws & EB & Ew).
    mstep (list_next_first _ _ _ _ _ _ Hd2). rewrite EB in Hd2. rewrite <- Ew.
    mstep (list_prev_dll _ _ _ _ _ Hd2).
    destruct (list_splice_one_dll h P p a A b w ws) as (h1 & Hsp & Hd1 & Hag1).
    { by rewrite <- app_assoc in Hd2. }
    mstep Hsp. rewrite <- EB in Hd1, Hag1.
    destruct (IH h1 (P ++ [p]) b (a :: A) B) as (h' & Hr & Hd' & Hag2).
    { by rewrite <- app_assoc. }
    { simpl in *. lia. }
    exists h'. change (first (a :: A) (first B t)) with a in Hr. rewrite <- Ew in Hr.
    split_and!; [done| |].
    + by rewrite <- app_assoc in Hd'.
    + eapply agree_off_trans; [exact Hag1|].
      eapply agree_off_mono; [|exact Hag2]. set_solver.
  - (* a is in place *)
    mstep (list_next_first h (P ++ [p]) a A b (B ++ t :: R) ltac:(by rewrite <- app_assoc)).
    destruct (IH h (P ++ [p]) a A (b :: B)) as (h' & Hr & Hd' & Hag).
    { by rewrite <- app_assoc. }
    { simpl in *. lia. }
    exists h'. change (first (b :: B) t) with b in Hr. split_and!; [done| |].
    + by rewrite <- app_assoc in Hd'.
    + by rewrite <- app_assoc in Hag.
Qed.

Lemma merge_perm A B : Permutation (merge less A B) (A ++ B).
Proof.
  revert B. induction A as [|a A IHA]; intros B; [by destruct B|].
  induction B as [|b B IHB]; [by rewrite app_nil_r|]. rewrite merge_cons.
  destruct (less b a).
  - rewrite IHB. apply (Permutation_middle (a :: A) B b).
  - by rewrite IHA.
Qed.

Lemma inplace_merge_run h Q A B t R :
  Q <> [] -> dll h (Q ++ A ++ B ++ t :: R) -> nondec A -> nondec B ->
  exists h',
    inplace_merge less (first A (first B t)) (first B t) t h = Ok (tt, h') /\
    dll h' (Q ++ merge less A B ++ t :: R) /\
    agree_off (Q ++ A ++ B ++ t :: R) h h'.
Proof.
  intros HQ Hd HA HB. destruct Q as [|p P _] using rev_ind; [done|].
  assert (Hin : forall x, x ∈ A ++ B ++ t :: R -> negb (x =? NULL) = true).
  { intros x Hx. apply negb_true_iff, Z.eqb_neq. intros ->.
    destruct Hd as (_ & _ & Hn). set_solver. }
  assert (HdB : dll h (((P ++ [p]) ++ A) ++ B ++ t :: R)) by (by rewrite <- app_assoc).
  assert (first B t ∈ B ++ t :: R) by (destruct B; set_solver).
  assert (first A (first B t) ∈ A ++ B ++ t :: R) by (destruct A; set_solver).
  unfold inplace_merge. mnorm.
  rewrite (Hin (first A (first B t))) by done. mnorm.
  rewrite (Hin (first B t)) by set_solver. mnorm.
  rewrite (Hin t) by set_solver. mnorm.
  destruct (first_cons_app B t R) as (w & ws & EB & Ew).
  pose proof (is_sorted_run h (P ++ [p]) A w ws) as Hs1. rewrite <- EB, Ew in Hs1.
  mstep (Hs1 Hd HA). mstep (is_sorted_run h _ B t R HdB HB).
  rewrite <- !app_assoc in *. apply inplace_merge_loop_run; [done|].
  pose proof (dll_length _ _ Hd) as Hl. unfold fuel_of.
  repeat (rewrite length_app in Hl || simpl in Hl). lia.
Qed.

(** One iteration of a pass, on two adjacent runs. *)
Lemma sort_iteration_run h Q y r1 b r2 rest t zs :
  Q <> [] -> dll h (Q ++ (y :: r1) ++ (b :: r2) ++ rest ++ t :: zs) ->
  run_split less y (r1 ++ b :: r2 ++ rest) = (r1, b :: r2 ++ rest) ->
  run_split less b (r2 ++ rest) = (r2, rest) ->
  exists h',
    find_end_of_run less y t h = Ok (b, h) /\
    find_end_of_run less b t h = Ok (first rest t, h) /\
    inplace_merge less y b (first rest t) h = Ok (tt, h') /\
    dll h' ((Q ++ merge less (y :: r1) (b :: r2)) ++ rest ++ t :: zs) /\
    agree_off (Q ++ (y :: r1) ++ (b :: r2) ++ rest ++ t :: zs) h h'.
Proof.
  intros HQ Hd E1 E2. destruct (first_cons_app rest t zs) as (w & ws & Ew & Hw).
  destruct (inplace_merge_run h Q (y :: r1) (b :: r2) w ws HQ) as (h' & Hm & Hd' & Hag).
  { by rewrite <- Ew. }
  { by apply (run_split_app _ _ _ _ E1). }
  { by apply (run_split_app _ _ _ _ E2). }
  exists h'. rewrite <- Hw, Ew. split_and!; [| |exact Hm|by rewrite <- app_assoc|done].
  - erewrite (find_end_of_run_run h Q y (r1 ++ b :: r2 ++ rest) t zs); [by rewrite E1|].
    simpl in Hd. rewrite <- app_assoc. simpl. by rewrite <- app_assoc.
  - erewrite (find_end_of_run_run h (Q ++ y :: r1) b (r2 ++ rest) t zs); [by rewrite E2, Hw|].
    rewrite <- !app_assoc. done.
Qed.

Lemma list_sort_pass_run l h Q ys zs fuel cnt :
  l <> NULL -> Q <> [] -> dll h (Q ++ ys ++ (l + TAIL_OFS) :: zs) ->
  (length ys <= fuel)%nat -> is_u64 cnt ->
  exists h',
    list_sort_pass less fuel l (first ys (l + TAIL_OFS)) cnt h =
      Ok (u64 (cnt + Z.of_nat (pass less fuel ys).2), h') /\
    dll h' (Q ++ (pass less fuel ys).1 ++ (l + TAIL_OFS) :: zs) /\
    agree_off (Q ++ ys ++ (l + TAIL_OFS) :: zs) h h'.
Proof.
  intros Hl0. set (t := l + TAIL_OFS). revert h Q ys cnt.
  assert (He : forall h, list_end l h = Ok (t, h)).
  { intros h. unfold list_end. by destruct (Z.eqb_spec l NULL). }
  induction fuel as [|fuel IH]; intros h Q ys cnt HQ Hd Hf Hc; cbn [list_sort_pass];
    mstep (He h); rewrite first_eq_tail by (by eapply dll_not_mid);
    (destruct ys as [|y ys]; [exists h; simpl; by rewrite Z.add_0_r, wrapu_id|]).
  { simpl in Hf. lia. }
  change (first (y :: ys) t) with y. cbn [pass].
  destruct (run_split less y ys) as [r1 rest] eqn:E1.
  destruct (run_split_app y ys r1 rest E1) as [-> Hr1].
  destruct rest as [|b rest].
  { exists h. rewrite app_nil_r in *. mstep (find_end_of_run_run h Q y r1 t zs Hd).
    rewrite E1. unfold first. simpl. by rewrite Z.eqb_refl. }
  destruct (run_split less b rest) as [r2 rest2] eqn:E2.
  destruct (run_split_app b rest r2 rest2 E2) as [-> Hr2].
  replace (Q ++ (y :: r1 ++ b :: r2 ++ rest2) ++ t :: zs)
    with (Q ++ (y :: r1) ++ (b :: r2) ++ rest2 ++ t :: zs) in *
    by (simpl; rewrite <- !app_assoc; simpl; by rewrite <- !app_assoc).
  destruct (sort_iteration_run h Q y r1 b r2 rest2 t zs HQ Hd E1 E2)
    as (h1 & Hf1 & Hf2 & Hm & Hd1 & Hag1).
  mstep Hf1. destruct (Z.eqb_spec b t) as [->|].
  { exfalso. eapply (dll_not_mid h (Q ++ y :: r1) (t :: r2 ++ rest2) t zs); [|set_solver].
    rewrite <- app_assoc. simpl. rewrite <- app_assoc. done. }
  mstep Hf2. mstep Hm.
  destruct (IH h1 (Q ++ merge less (y :: r1) (b :: r2)) rest2 (u64 (cnt + 1)))
    as (h' & Hr & Hd2 & Hag2).
  { by destruct Q. }
  { done. }
  { simpl in Hf. repeat (rewrite length_app in Hf || simpl in Hf). lia. }
  { by apply wrapu_range. }
  exists h'. destruct (pass less fuel rest2) as [out c]. cbn [fst snd] in *. split_and!.
  - rewrite Hr. do 2 f_equal. unfold wrapu. rewrite Zplus_mod_idemp_l. f_equal. lia.
  - by rewrite <- !app_assoc in *.
  - eapply agree_off_trans; [exact Hag1|]. eapply agree_off_mono; [|exact Hag2].
    intros z. rewrite !elem_of_app, merge_perm, elem_of_app. tauto.
Qed.
End SortRefine.

(** ** Order properties

    [less] is a strict weak order: asymmetric, and incomparability is
    transitive (negative transitivity). *)
Class StrictWeak (less : Z -> Z -> bool) : Prop := {
  less_asym a b : less a b = true -> less b a = false;
  less_ntrans a b c : less b a = false -> less c b = false -> less c a = false
}.

Section Order.
Context (less : Z -> Z -> bool) `{!StrictWeak less}.
Notation nle := (nle less).
Notation nondec := (nondec less).

Lemma nle_trans a b c : nle a b -> nle b c -> nle a c.
Proof. unfold KListSort.nle. apply less_ntrans. Qed.

Lemma nle_refl a : nle a a.
Proof.
  unfold KListSort.nle. destruct (less a a) eqn:E; [|done]. by rewrite less_asym in E.
Qed.

Lemma nondec_strong xs : nondec xs <-> StronglySorted nle xs.
Proof.
  split; [|apply StronglySorted_Sorted].
  apply Sorted_StronglySorted. intros a b c. apply nle_trans.
Qed.

Lemma ssorted_cons a xs : StronglySorted nle (a :: xs) <-> Forall (nle a) xs /\ StronglySorted nle xs.
Proof.
  split; [intros [? ?]%StronglySorted_inv; done|]. intros [? ?]. by constructor.
Qed.

(** *** Ordered insertion *)
Lemma ins_perm e xs : Permutation (ins less e xs) (e :: xs).
Proof.
  induction xs as [|x xs IH]; simpl; [done|]. destruct (less e x); [done|].
  rewrite IH. constructor.
Qed.

Lemma ins_sorted e xs : StronglySorted nle xs -> StronglySorted nle (ins less e xs).
Proof.
  induction xs as [|x xs IH]; simpl; [by repeat constructor|].
  intros [Hx Hs]%ssorted_cons. destruct (less e x) eqn:E.
  - rewrite !ssorted_cons, Forall_cons. split_and!; [by apply less_asym| |done|done].
    eapply Forall_impl; [exact Hx|]. intros y Hy. eapply nle_trans; [|exact Hy].
    by apply less_asym.
  - rewrite ssorted_cons. split; [rewrite ins_perm; by constructor|by apply IH].
Qed.

(** *** Merging *)
Lemma merge_sorted A B :
  StronglySorted nle A -> StronglySorted nle B -> StronglySorted nle (merge less A B).
Proof.
  revert B. induction A as [|a A IHA]; intros B HA HB; [by destruct B|].
  induction B as [|b B IHB]; [done|]. rewrite merge_cons.
  pose proof HA as [Ha HA']%ssorted_cons. pose proof HB as [Hb HB']%ssorted_cons.
  destruct (less b a) eqn:E; rewrite ssorted_cons.
  - split; [|by apply IHB]. rewrite merge_perm, Forall_app. split; [|done].
    apply Forall_cons. split; [by apply less_asym|].
    eapply Forall_impl; [exact Ha|]. intros y. by apply nle_trans, less_asym.
  - split; [|by apply IHA]. rewrite merge_perm, Forall_app. split; [done|].
    apply Forall_cons. split; [done|].
    eapply Forall_impl; [exact Hb|]. intros y. by apply nle_trans.
Qed.

(** The elements equivalent to [z], in order. *)
Definition class_of (z : Z) (xs : list Z) : list Z := List.filter (eqv less z) xs.

Lemma class_of_app z xs ys : class_of z (xs ++ ys) = class_of z xs ++ class_of z ys.
Proof. apply List.filter_app. Qed.

Lemma class_of_above z b A :
  eqv less z b = true -> Forall (fun a => less b a = true) A -> class_of z A = [].
Proof.
  intros Hz HA. induction HA as [|a A Ha _ IH]; simpl; [done|].
  replace (eqv less z a) with false; [done|]. symmetry. apply not_true_is_false.
  unfold eqv in *. intros [H1 H2]%andb_prop. apply andb_prop in Hz as [H3 H4].
  apply negb_true_iff in H1, H2, H3, H4.
  rewrite (less_ntrans a z b) in Ha; done.
Qed.

(** Elements of the first run stay in front of equivalent ones of the second. *)
Lemma merge_stable z A B :
  StronglySorted nle A -> StronglySorted nle B ->
  class_of z (merge less A B) = class_of z A ++ class_of z B.
Proof.
  revert B. induction A as [|a A IHA]; intros B HA HB; [by destruct B|].
  induction B as [|b B IHB]; [by rewrite app_nil_r|]. rewrite merge_cons.
  pose proof HA as [Ha HA']%ssorted_cons. pose proof HB as [Hb HB']%ssorted_cons.
  destruct (less b a) eqn:E.
  - change (class_of z (b :: merge less (a :: A) B)) with
      (class_of z ([b] ++ merge less (a :: A) B)).
    change (class_of z (b :: B)) with (class_of z ([b] ++ B)).
    rewrite !(class_of_app z [b]), IHB by done.
    rewrite !app_assoc. f_equal.
    destruct (eqv less z b) eqn:Ez.
    + rewrite (class_of_above z b (a :: A)); [by rewrite app_nil_r|done|].
      apply Forall_cons. split; [done|]. eapply Forall_impl; [exact Ha|].
      intros y Hy. simpl. destruct (less b y) eqn:Ey; [done|].
      by rewrite (less_ntrans a y b) in E.
    + assert (class_of z [b] = []) as -> by (simpl; by rewrite Ez). by rewrite app_nil_r.
  - change (class_of z (a :: merge less A (b :: B))) with
      (class_of z ([a] ++ merge less A (b :: B))).
    change (class_of z (a :: A)) with (class_of z ([a] ++ A)).
    rewrite !(class_of_app z [a]), IHA by done. by rewrite app_assoc.
Qed.
End Order.

#[local] Arguments merge : simpl never.

Section SortCorrect.
Context (less : Z -> Z -> bool) `{!StrictWeak less}.
Notation nle := (nle less).
Notation nondec := (nondec less).

(** [kruns k xs]: [xs] is the concatenation of at most [k] ordered runs. *)
Inductive kruns : nat -> list Z -> Prop :=
  | kruns_nil k : kruns k []
  | kruns_app k r xs : nondec r -> kruns k xs -> kruns (S k) (r ++ xs).

Lemma kruns_mono k k' xs : kruns k xs -> (k <= k')%nat -> kruns k' xs.
Proof.
  intros H. revert k'. induction H as [|k r xs Hr _ IH]; intros k' Hk; [constructor|].
  destruct k' as [|k']; [lia|]. constructor; [done|]. apply IH. lia.
Qed.

Lemma nondec_suffix ys zs : nondec (ys ++ zs) -> nondec zs.
Proof. induction ys as [|y ys IH]; [done|]. intros [H _]%Sorted_inv. by apply IH. Qed.

Lemma kruns_suffix k ys zs : kruns k (ys ++ zs) -> kruns k zs.
Proof.
  remember (ys ++ zs) as xs eqn:E. intros H. revert ys E.
  induction H as [|k r xs Hr Hxs IH]; intros ys E.
  { symmetry in E. apply app_nil in E as [_ ->]. constructor. }
  apply app_eq_inv in E as [(s & -> & ->)|(s & -> & E)].
  - constructor; [by eapply nondec_suffix|done].
  - eapply kruns_mono; [by eapply IH|lia].
Qed.

Lemma kruns_length xs : kruns (length xs) xs.
Proof.
  induction xs as [|x xs IH]; simpl; [constructor|].
  apply (kruns_app _ [x]); [by repeat constructor|done].
Qed.

Lemma kruns_one xs : kruns 1 xs -> nondec xs.
Proof.
  inversion 1 as [|k r xs' Hr Hxs]; subst; [constructor|].
  inversion Hxs; subst. by rewrite app_nil_r.
Qed.

Lemma run_split_long a r xs r1 rest :
  nondec (a :: r) -> run_split less a (r ++ xs) = (r1, rest) -> exists s, xs = s ++ rest.
Proof.
  revert a r1. induction r as [|b r IH]; intros a r1 Hs; simpl.
  - intros [-> _]%run_split_app. eauto.
  - apply Sorted_inv in Hs as [Hs Hh]. apply HdRel_inv in Hh. rewrite Hh.
    destruct (run_split less b (r ++ xs)) as [r' rest'] eqn:E. intros [= <- <-].
    by eapply IH.
Qed.

(** The run found greedily covers at least the first run of any
    decomposition. *)
Lemma kruns_split k x t r1 rest :
  kruns k (x :: t) -> run_split less x t = (r1, rest) ->
  exists k', k = S k' /\ kruns k' rest.
Proof.
  remember (x :: t) as xs eqn:E. intros H. revert E.
  induction H as [|k r xs Hr Hxs IH]; intros E Hsp; [done|].
  destruct r as [|y r]; simpl in E.
  - destruct (IH E Hsp) as (k' & -> & Hk). exists (S k'). split; [done|].
    eapply kruns_mono; [done|lia].
  - injection E as -> <-. destruct (run_split_long _ _ _ _ _ Hr Hsp) as [s ->].
    exists k. split; [done|]. by eapply kruns_suffix.
Qed.

Record pass_result (k : nat) (xs out : list Z) (c : nat) : Prop := {
  pr_runs : kruns c out;
  pr_halves : (2 * c <= k + 1)%nat;
  pr_perm : Permutation out xs;
  pr_stable z : class_of less z out = class_of less z xs;
  pr_count : (c <= length xs)%nat
}.

Lemma pass_correct fuel k xs :
  kruns k xs -> (length xs <= fuel)%nat ->
  pass_result k xs (pass less fuel xs).1 (pass less fuel xs).2.
Proof.
  revert k xs. induction fuel as [|fuel IH]; intros k xs Hk Hf.
  { destruct xs; simpl in Hf; [|lia]. split; simpl; (done || lia || constructor). }
  destruct xs as [|x t]; [split; simpl; (done || lia || constructor)|].
  simpl. destruct (run_split less x t) as [r1 rest] eqn:E1.
  destruct (kruns_split _ _ _ _ _ Hk E1) as (k1 & -> & Hk1).
  destruct (run_split_app less x t r1 rest E1) as [-> Hr1].
  destruct rest as [|y t2].
  { rewrite app_nil_r in *. split; simpl; try done; try lia.
    rewrite <- (app_nil_r (x :: r1)). apply kruns_app; [done|apply kruns_nil]. }
  destruct (run_split less y t2) as [r2 rest2] eqn:E2.
  destruct (kruns_split _ _ _ _ _ Hk1 E2) as (k2 & -> & Hk2).
  destruct (run_split_app less y t2 r2 rest2 E2) as [-> Hr2].
  destruct (IH k2 rest2 Hk2) as [P1 P2 P3 P4 P5].
  { simpl in Hf. repeat (rewrite length_app in Hf || simpl in Hf). lia. }
  destruct (pass less fuel rest2) as [out c]. cbn [fst snd] in *.
  pose proof (proj1 (nondec_strong less _) Hr1) as Hs1.
  pose proof (proj1 (nondec_strong less _) Hr2) as Hs2.
  split.
  - constructor; [|done]. by apply nondec_strong, merge_sorted.
  - lia.
  - rewrite merge_perm, P3. simpl. by rewrite <- app_assoc.
  - intros z. rewrite class_of_app, merge_stable, P4 by done.
    rewrite <- !class_of_app, <- app_assoc. done.
  - simpl. repeat (rewrite length_app || simpl). lia.
Qed.

Lemma list_sort_loop_run h l xs k fuel :
  is_list h l xs -> kruns k xs -> (k <= fuel)%nat -> (0 < fuel)%nat ->
  Z.of_nat (length xs) < 2 ^ 64 ->
  exists h' ys, list_sort_loop less fuel l h = Ok (tt, h') /\ is_list h' l ys /\
    Permutation ys xs /\ nondec ys /\ (forall z, class_of less z ys = class_of less z xs) /\
    agree_off (l :: xs ++ [l + TAIL_OFS]) h h'.
Proof.
  revert h xs k. induction fuel as [|fuel IH]; intros h xs k Hl Hk Hf H0 Hlen; [lia|].
  cbn [list_sort_loop]. mnorm. mstep (list_begin_run _ _ _ Hl).
  pose proof (is_list_length _ _ _ Hl) as Hsz.
  destruct (list_sort_pass_run less l h [l] xs [] (fuel_of h) 0) as (h1 & Hp & Hd & Hag);
    [by eapply is_list_nonnull|done|done|unfold fuel_of; lia|done|].
  mstep Hp.
  destruct (pass_correct (fuel_of h) k xs Hk) as [P1 P2 P3 P4 P5]; [unfold fuel_of; lia|].
  destruct (pass less (fuel_of h) xs) as [out c]. cbn [fst snd] in *.
  assert (is_u64 (Z.of_nat c)).
  { split; [lia|]. eapply Z.le_lt_trans; [|exact Hlen]. apply inj_le, P5. }
  rewrite Z.add_0_l, wrapu_id by done.
  destruct (Z.ltb_spec 1 (Z.of_nat c)).
  - destruct (IH h1 out c Hd P1) as (h' & ys & Hr & Hl' & Hperm & Hs & Hst & Hag2);
      [lia|lia|by rewrite (Permutation_length P3)|].
    exists h', ys. split_and!; try done.
    + by rewrite Hperm.
    + intros z. by rewrite Hst, P4.
    + eapply agree_off_trans; [exact Hag|]. eapply agree_off_mono; [|exact Hag2].
      intros z. rewrite !elem_of_cons, !elem_of_app, P3. tauto.
  - exists h1, out. split_and!; try done. apply kruns_one. eapply kruns_mono; [done|lia].
Qed.

Lemma list_sort_correct h l xs :
  is_list h l xs -> Z.of_nat (length xs) < 2 ^ 64 ->
  exists h' ys, list_sort less l h = Ok (tt, h') /\ is_list h' l ys /\
    Permutation ys xs /\ StronglySorted nle ys /\
    (forall z, class_of less z ys = class_of less z xs) /\
    agree_off (l :: xs ++ [l + TAIL_OFS]) h h'.
Proof.
  intros Hl Hlen. pose proof (is_list_nonnull _ _ _ Hl).
  pose proof (is_list_length _ _ _ Hl) as Hsz.
  destruct (list_sort_loop_run h l xs (length xs) (fuel_of h))
    as (h' & ys & Hr & Hl' & Hp & Hs & Hst & Hag);
    [done|apply kruns_length|unfold fuel_of; lia|unfold fuel_of; lia|done|].
  exists h', ys. split_and!; try done; [|by apply nondec_strong].
  unfold list_sort. mnorm. destruct (Z.eqb_spec l NULL); [by exfalso|]. mnorm.
  mstep Hr. mstep (list_begin_run _ _ _ Hl'). mstep (list_end_run _ _ _ Hl').
  by mstep (is_sorted_run less h' [l] ys (l + TAIL_OFS) [] Hl' Hs).
Qed.
End SortCorrect.
