(* ===== verification/KListSpec.v ===== *)
(** * What the kernel list promises

    The abstract object behind a [struct list] is a finite sequence of
    elements.  [lop] lists the operations a client may call, [spec_op] is
    their meaning on the sequence, [impl_op] runs the code of list.c; the
    refinement theorem relates them for every sequence of calls, the calls
    that panic included.  The file closes with the theorems on sorting,
    ordered insertion, duplicates and extrema. *)

From S2P Require Import Prelude KList KListSort.

(** ** Client operations *)

Inductive lop : Type :=
  | PushFront (e : Z)
  | PushBack (e : Z)
  | PopFront
  | PopBack
  | Remove (e : Z)
  | Reverse
  | Size
  | IsEmpty.

(** Running the code; the result is an address, a size or a truth value. *)
Definition impl_op (l : Z) (o : lop) : M heap Z :=
  match o with
  | PushFront e => list_push_front l e;; ret 0
  | PushBack e => list_push_back l e;; ret 0
  | PopFront => list_pop_front l
  | PopBack => list_pop_back l
  | Remove e => list_remove e
  | Reverse => list_reverse l;; ret 0
  | Size => list_size l
  | IsEmpty => b ← list_empty l; ret (Z.b2z b)
  end.

(** The element behind [e], or [stop] when [e] is the last one. *)
Fixpoint successor (stop e : Z) (xs : list Z) : Z :=
  match xs with
  | [] => stop
  | x :: t => if x =? e then match t with [] => stop | y :: _ => y end else successor stop e t
  end.

(** The same on the abstract sequence; [Panic] where the code asserts.  The
    address [l] of the list appears only in the result of removing the last
    element, which is the list's end. *)
Definition spec_op (l : Z) (o : lop) : M (list Z) Z := fun xs =>
  match o with
  | PushFront e => Ok (0, e :: xs)
  | PushBack e => Ok (0, xs ++ [e])
  | PopFront => match xs with [] => Panic | x :: t => Ok (x, t) end
  | PopBack => match last xs with None => Panic | Some x => Ok (x, removelast xs) end
  | Remove e => Ok (successor (l + TAIL_OFS) e xs, List.filter (fun x => negb (x =? e)) xs)
  | Reverse => Ok (0, reverse xs)
  | Size => Ok (u64 (Z.of_nat (length xs)), xs)
  | IsEmpty => Ok (Z.b2z (match xs with [] => true | _ => false end), xs)
  end.

(** What the caller owes: an element pushed is allocated and not in the list,
    an element removed is in it. *)
Definition op_pre (h : heap) (l : Z) (xs : list Z) (o : lop) : Prop :=
  match o with
  | PushFront e | PushBack e => fresh_for h l xs e
  | Remove e => e ∈ xs
  | _ => True
  end.

(** Addresses an operation may write. *)
Definition op_cells (l : Z) (xs : list Z) (o : lop) : list Z :=
  match o with
  | PushFront e | PushBack e => e :: cells l xs
  | _ => cells l xs
  end.

Fixpoint impl_run (l : Z) (os : list lop) : M heap (list Z) :=
  match os with
  | [] => ret []
  | o :: os => r ← impl_op l o; rs ← impl_run l os; ret (r :: rs)
  end.

Fixpoint spec_run (l : Z) (os : list lop) : M (list Z) (list Z) :=
  match os with
  | [] => ret []
  | o :: os => r ← spec_op l o; rs ← spec_run l os; ret (r :: rs)
  end.

(** The caller's obligations along a run of the specification. *)
Fixpoint run_pre (h : heap) (l : Z) (xs : list Z) (os : list lop) : Prop :=
  match os with
  | [] => True
  | o :: os =>
      op_pre h l xs o /\
      match spec_op l o xs with Ok (_, xs') => run_pre h l xs' os | _ => True end
  end.

Lemma list_front_empty h l : is_list h l [] -> list_front l h = Panic.
Proof. intros H. unfold list_front. by mstep (list_empty_run _ _ _ H). Qed.

Lemma list_back_empty h l : is_list h l [] -> list_back l h = Panic.
Proof. intros H. unfold list_back. by mstep (list_empty_run _ _ _ H). Qed.

Lemma filter_neq_notin e (xs : list Z) :
  e ∉ xs -> List.filter (fun x => negb (x =? e)) xs = xs.
Proof.
  induction xs as [|x xs IH]; simpl; [done|]. intros [Hx Hn]%not_elem_of_cons.
  destruct (Z.eqb_spec x e); [by subst|]. simpl. by rewrite IH.
Qed.

Lemma filter_neq_mid xs e ys :
  NoDup (xs ++ e :: ys) ->
  List.filter (fun x => negb (x =? e)) (xs ++ e :: ys) = xs ++ ys.
Proof.
  intros Hnd. apply NoDup_app in Hnd as (_ & Hd & [Hy _]%NoDup_cons).
  rewrite List.filter_app. simpl. rewrite Z.eqb_refl. simpl.
  rewrite !filter_neq_notin; [done|done|]. intros Hin. apply (Hd e Hin). set_solver.
Qed.

Lemma successor_mid stop xs e ys :
  NoDup (xs ++ e :: ys) -> successor stop e (xs ++ e :: ys) = first ys stop.
Proof.
  induction xs as [|x xs IH]; simpl; intros Hnd.
  - rewrite Z.eqb_refl. by destruct ys.
  - apply NoDup_cons in Hnd as [Hx Hnd]. destruct (Z.eqb_spec x e) as [->|]; [set_solver|by apply IH].
Qed.

Lemma is_list_NoDup h l xs : is_list h l xs -> NoDup xs.
Proof. intros (_ & [_ Hnd]%NoDup_cons & _). by apply NoDup_app in Hnd as (? & _ & _). Qed.

(** One call. *)
Lemma op_refines h l xs o :
  is_list h l xs -> op_pre h l xs o ->
  match spec_op l o xs with
  | Ok (r, xs') =>
      exists h', impl_op l o h = Ok (r, h') /\ is_list h' l xs' /\
        agree_off (op_cells l xs o) h h'
  | _ => impl_op l o h = Panic
  end.
Proof.
  intros H Hpre. destruct o as [e|e| | |e| | |]; cbn [spec_op impl_op op_cells] in *.
  - destruct (list_push_front_spec _ _ _ _ H Hpre) as (h' & Hr & ? & ?). exists h'. by mstep Hr.
  - destruct (list_push_back_spec _ _ _ _ H Hpre) as (h' & Hr & ? & ?). exists h'. by mstep Hr.
  - destruct xs as [|x xs].
    + unfold list_pop_front, bind. by rewrite list_front_empty.
    + by apply list_pop_front_spec.
  - destruct xs as [|x xs _] using rev_ind; [unfold list_pop_back, bind; by rewrite list_back_empty|].
    rewrite last_snoc, removelast_last.
    destruct (list_pop_back_spec _ _ _ _ H) as (h' & Hr & ? & Ha). exists h'.
    split_and!; [done|done|]. eapply agree_off_mono; [|exact Ha]. unfold cells. set_solver.
  - apply list_elem_of_split in Hpre as (xs1 & xs2 & ->).
    destruct (list_remove_spec _ _ _ _ _ H) as (h' & Hr & ? & Ha). exists h'.
    rewrite filter_neq_mid, successor_mid by (by eapply is_list_NoDup).
    split_and!; [done|done|]. eapply agree_off_mono; [|exact Ha]. unfold cells. set_solver.
  - destruct (list_reverse_spec _ _ _ H) as (h' & Hr & ? & ?). exists h'. by mstep Hr.
  - exists h. by rewrite (list_size_spec _ _ _ H).
  - exists h. by mstep (list_empty_run _ _ _ H).
Qed.

Lemma op_pre_dom h h' l xs o : dom h' = dom h -> op_pre h l xs o -> op_pre h' l xs o.
Proof.
  intros Hd. destruct o; simpl; try done; intros (? & ? & Hs); split_and!; try done;
    apply elem_of_dom; rewrite Hd; by apply elem_of_dom.
Qed.

Lemma run_pre_dom h h' l xs os : dom h' = dom h -> run_pre h l xs os -> run_pre h' l xs os.
Proof.
  intros Hd. revert xs. induction os as [|o os IH]; intros xs; simpl; [done|].
  intros [Ho Hos]. split; [by eapply op_pre_dom|].
  destruct (spec_op l o xs) as [[r xs']| | | |]; try done. by apply IH.
Qed.

(** C32: for every sequence of calls that respects the callers' obligations,
    the code of list.c on the heap returns exactly the results of the same
    calls on an abstract sequence (removing an element returns the one behind
    it, or the list's end) and leaves a well formed list that holds that
    sequence; when the sequence semantics panics (a pop from an empty
    list), so does the code.  No call runs out of its loop bound or touches
    memory outside elements. *)
Theorem list_refines_sequence h l xs os :
  is_list h l xs -> run_pre h l xs os ->
  match spec_run l os xs with
  | Ok (rs, ys) => exists h', impl_run l os h = Ok (rs, h') /\ is_list h' l ys
  | _ => impl_run l os h = Panic
  end.
Proof.
  revert h xs. induction os as [|o os IH]; intros h xs H Hpre; simpl; [by exists h|].
  destruct Hpre as [Ho Hos]. pose proof (op_refines h l xs o H Ho) as Hop. unfold bind.
  destruct (spec_op l o xs) as [[r xs']| | | |] eqn:E; cbn [rbind];
    [|by rewrite Hop..].
  destruct Hop as (h1 & -> & H1 & [Hd _]). cbn [rbind].
  specialize (IH h1 xs' H1 (run_pre_dom _ _ _ _ _ Hd Hos)).
  destruct (spec_run l os xs') as [[rs ys]| | | |]; cbn [rbind]; [|by rewrite IH..].
  destruct IH as (h' & -> & ?). by exists h'.
Qed.

(** ** Facts about the sequence-level functions *)

Section Facts.
Context (less : Z -> Z -> bool) `{!StrictWeak less}.

Lemma eqv_trans a b c : eqv less a b = true -> eqv less b c = true -> eqv less a c = true.
Proof.
  unfold eqv. rewrite !andb_true_iff, !negb_true_iff. intros [? ?] [? ?].
  split; by eapply less_ntrans.
Qed.

Lemma eqv_sym a b : eqv less a b = eqv less b a.
Proof. unfold eqv. apply andb_comm. Qed.

Lemma eqv_refl a : eqv less a a = true.
Proof. unfold eqv. pose proof (nle_refl less a) as E. unfold nle in E. by rewrite E. Qed.

(** Insertion splits a sorted list; nothing behind the split equals [e]. *)
Lemma ins_split e xs :
  StronglySorted (nle less) xs ->
  exists xs1 xs2, xs = xs1 ++ xs2 /\ ins less e xs = xs1 ++ e :: xs2 /\
    Forall (fun x => eqv less e x = false) xs2.
Proof.
  induction xs as [|x t IH]; intros Hs; simpl; [by exists [], []|].
  apply ssorted_cons in Hs as [Hx Hs]. destruct (less e x) eqn:E.
  - exists [], (x :: t). split_and!; [done|done|]. unfold eqv. constructor; [by rewrite E|].
    eapply Forall_impl; [exact Hx|]. intros y Hy. destruct (less e y) eqn:E2; [done|].
    exfalso. by rewrite (less_ntrans x y e Hy E2) in E.
  - destruct (IH Hs) as (xs1 & xs2 & -> & -> & ?). by exists (x :: xs1), xs2.
Qed.

Lemma uniq_head x t : head (uniq less x t).1 = Some x.
Proof.
  revert x. induction t as [|y t IH]; intros x; simpl; [done|].
  destruct (eqv less x y).
  - specialize (IH x). by destruct (uniq less x t).
  - by destruct (uniq less y t).
Qed.

Lemma uniq_correct x t :
  Permutation ((uniq less x t).1 ++ (uniq less x t).2) (x :: t) /\
  Sorted (fun a b => eqv less a b = false) (uniq less x t).1 /\
  Forall (fun y => Exists (fun x => eqv less x y = true) (uniq less x t).1) (uniq less x t).2.
Proof.
  revert x. induction t as [|y t IH]; intros x; simpl.
  { split_and!; repeat constructor. }
  destruct (eqv less x y) eqn:E.
  - destruct (IH x) as (Hp & Hs & Hk). pose proof (uniq_head x t) as Hh.
    destruct (uniq less x t) as [k d]. simpl in *. split_and!; [|done|].
    + rewrite <- Permutation_middle, Hp. constructor.
    + constructor; [|done]. destruct k; simplify_eq/=. by constructor.
  - destruct (IH y) as (Hp & Hs & Hk). pose proof (uniq_head y t) as Hh.
    destruct (uniq less y t) as [k d]. simpl in *. split_and!; [by rewrite Hp| |].
    + constructor; [done|]. destruct k; simplify_eq/=. by constructor.
    + eapply Forall_impl; [exact Hk|]. intros z Hz. by constructor.
Qed.
End Facts.

(** The loop of [list_max] and [list_min] finds the first optimum. *)
Lemma best_first (better : Z -> Z -> bool) x t :
  (forall a b, better a b = true -> better b a = false) ->
  (forall a b c, better b a = false -> better c b = false -> better c a = false) ->
  exists xs1 xs2, x :: t = xs1 ++ best better x t :: xs2 /\
    Forall (fun y => better y (best better x t) = true) xs1 /\
    Forall (fun y => better (best better x t) y = false) (x :: t).
Proof.
  intros Hasym Htr. assert (Hirr : forall a, better a a = false).
  { intros a. destruct (better a a) eqn:E; [|done]. by rewrite Hasym in E. }
  revert x. induction t as [|y t IH]; intros x; simpl.
  { exists [], []. split_and!; repeat constructor; apply Hirr. }
  destruct (better x y) eqn:E.
  - destruct (IH y) as (xs1 & xs2 & Heq & H1 & H2). exists (x :: xs1), xs2.
    apply Forall_cons in H2 as [Hy H2].
    assert (Hx : better x (best better y t) = true).
    { destruct (better x (best better y t)) eqn:E2; [done|].
      by rewrite (Htr y (best better y t) x Hy E2) in E. }
    split_and!; [simpl; by rewrite Heq|by constructor|].
    constructor; [by apply Hasym|by constructor].
  - destruct (IH x) as (xs1 & xs2 & Heq & H1 & H2).
    apply Forall_cons in H2 as [Hx H2].
    assert (Hy : better (best better x t) y = false) by (by eapply Htr).
    set (m := best better x t) in *. destruct xs1 as [|x1 xs1]; injection Heq as Hm Ht.
    + exists [], (y :: t). rewrite <- Hm in *. split_and!; [done|done|by repeat constructor].
    + exists (x1 :: y :: xs1), xs2. apply Forall_cons in H1 as [H1 H1'].
      split_and!; [by rewrite Hm, Ht| |by repeat constructor].
      repeat constructor; try done. destruct (better y m) eqn:E2; [done|].
      rewrite Hm in E. by rewrite (Htr _ _ _ E2 E) in H1.
Qed.

(** A heap with an empty list at 100 and three free elements. *)
Definition demo_heap : heap :=
  list_to_map ((fun p => (p, mkElem NULL NULL)) <$> [100; 116; 200; 216; 232]).
Definition demo_elems : list Z := [200; 216; 232].
(** Keys of the structures the demo elements are embedded in. *)
Definition demo_key (e : Z) : Z := if e =? 200 then 7 else if e =? 216 then 3 else 7.
Definition demo_less (a b : Z) : bool := demo_key a <? demo_key b.

#[export] Instance demo_less_weak : StrictWeak demo_less.
Proof.
  split; unfold demo_less; intros.
  - apply Z.ltb_ge. apply Z.ltb_lt in H. lia.
  - apply Z.ltb_ge. apply Z.ltb_ge in H, H0. lia.
Qed.

(** The links of the list at [l] with elements [xs], added to [h]. *)
Fixpoint link (p : Z) (zs : list Z) (h : heap) : heap :=
  match zs with
  | [] => h
  | z :: t => <[z := mkElem p (default NULL (head t))]> (link z t h)
  end.
Definition with_list (l : Z) (xs : list Z) (h : heap) : heap := link NULL (cells l xs) h.

Lemma seg_link p zs h : NoDup zs -> seg (link p zs h) p zs NULL.
Proof.
  revert p. induction zs as [|z t IH]; intros p Hnd; simpl; [done|].
  apply NoDup_cons in Hnd as [Hz Ht]. split; [by rewrite lookup_insert_eq|].
  eapply seg_frame; [|by apply IH]. intros x Hx. apply lookup_insert_ne. set_solver.
Qed.

Lemma is_list_with_list l xs h :
  NoDup (cells l xs) -> NULL ∉ cells l xs -> is_list (with_list l xs h) l xs.
Proof. intros. split_and!; [by apply seg_link|done|done]. Qed.

Ltac demo_list := apply is_list_with_list; by_eval.

(** Witness. *)
Lemma list_refines_sequence_witness :
  exists h', impl_run 100 [PushBack 200; PushFront 216; PushBack 232; Remove 200; Reverse; Remove 216; Size]
               (with_list 100 [] demo_heap) = Ok ([0; 0; 0; 232; 0; 116; 1], h') /\
             is_list h' 100 [232].
Proof.
  apply (list_refines_sequence (with_list 100 [] demo_heap) 100 []
           [PushBack 200; PushFront 216; PushBack 232; Remove 200; Reverse; Remove 216; Size]).
  - demo_list.
  - repeat split; first [by_eval | cbn [op_pre]; by_eval | discriminate | by eexists].
Defined.

(** ** Sorting, ordered insertion, duplicates, extrema *)

(** C33: [list_sort] under a strict weak order terminates, ends with a well
    formed list that is a sorted permutation of the input, keeps elements that
    compare equal in their original order (the sort is stable), passes its own
    final [ASSERT], and writes no link outside the list. *)
Theorem list_sort_stable less `{!StrictWeak less} h l xs :
  is_list h l xs -> Z.of_nat (length xs) < 2 ^ 64 ->
  exists h' ys,
    list_sort less l h = Ok (tt, h') /\ is_list h' l ys /\
    Permutation ys xs /\ StronglySorted (nle less) ys /\
    (forall z, class_of less z ys = class_of less z xs) /\
    agree_off (cells l xs) h h'.
Proof. apply (list_sort_correct less). Qed.

(** Witness. *)
Lemma list_sort_stable_witness :
  exists h' ys, list_sort demo_less 100 (with_list 100 demo_elems demo_heap) = Ok (tt, h') /\
    is_list h' 100 ys /\ Permutation ys demo_elems /\ StronglySorted (nle demo_less) ys /\
    (forall z, class_of demo_less z ys = class_of demo_less z demo_elems) /\
    agree_off (cells 100 demo_elems) (with_list 100 demo_elems demo_heap) h'.
Proof. apply list_sort_stable; [exact _|demo_list|reflexivity]. Defined.

(** [list_insert_ordered] into a sorted list leaves a sorted list that
    holds exactly the old elements and the new one, and puts the new one
    behind all elements it compares equal with. *)
Theorem list_insert_ordered_keeps_order less `{!StrictWeak less} h l xs e :
  is_list h l xs -> fresh_for h l xs e -> StronglySorted (nle less) xs ->
  exists h' xs1 xs2,
    list_insert_ordered less l e h = Ok (tt, h') /\ is_list h' l (xs1 ++ e :: xs2) /\
    xs = xs1 ++ xs2 /\ StronglySorted (nle less) (xs1 ++ e :: xs2) /\
    Forall (fun x => eqv less e x = false) xs2 /\
    agree_off (e :: cells l xs) h h'.
Proof.
  intros Hl Hf Hs. destruct (list_insert_ordered_refines less h l xs e Hl Hf) as (h' & Hr & Hl' & Ha).
  destruct (ins_split less e xs Hs) as (xs1 & xs2 & -> & E & Hq).
  exists h', xs1, xs2. rewrite <- E. split_and!; try done.
  by apply ins_sorted.
Qed.

(** Witness. *)
Lemma list_insert_ordered_keeps_order_witness :
  exists h' xs1 xs2,
    list_insert_ordered demo_less 100 232 (with_list 100 [216; 200] demo_heap) = Ok (tt, h') /\
    is_list h' 100 (xs1 ++ 232 :: xs2) /\ [216; 200] = xs1 ++ xs2 /\
    StronglySorted (nle demo_less) (xs1 ++ 232 :: xs2) /\
    Forall (fun x => eqv demo_less 232 x = false) xs2 /\
    agree_off (232 :: cells 100 [216; 200]) (with_list 100 [216; 200] demo_heap) h'.
Proof.
  apply list_insert_ordered_keeps_order; [exact _|demo_list| |by repeat constructor].
  split; [by_eval|]. split; [discriminate|by eexists].
Defined.

(** [list_unique] keeps the first element of every run of equal elements
    and moves the others, in order, to the back of DUPLICATES (when it is not
    null): no two neighbours of the result compare equal when comparison
    equality is transitive, and nothing is lost. *)
Theorem list_unique_spec less `{!StrictWeak less} h l xs d ds :
  is_list h l xs -> d <> NULL -> is_list h d ds ->
  (forall z, z ∈ cells l xs -> z ∉ cells d ds) ->
  exists h' ys dup,
    list_unique less l d h = Ok (tt, h') /\
    is_list h' l ys /\ is_list h' d (ds ++ dup) /\
    Permutation (ys ++ dup) xs /\
    Sorted (fun a b => eqv less a b = false) ys /\
    Forall (fun y => Exists (fun x => eqv less x y = true) ys) dup.
Proof.
  intros Hl Hd0 Hd Hdisj. destruct xs as [|x t].
  - exists h, [], []. rewrite app_nil_r. split_and!; try done.
    unfold list_unique. mnorm. destruct (Z.eqb_spec l NULL) as [->|];
      [by destruct (is_list_nonnull _ _ _ Hl)|]. mnorm. by mstep (list_empty_run _ _ _ Hl).
  - destruct (list_unique_refines less h l x t d ds Hl) as (h' & Hr & Hl' & [?|[Hd' _]]);
      [by right|done|].
    destruct (uniq_correct less x t) as (Hp & Hs & Hk).
    by exists h', (uniq less x t).1, (uniq less x t).2.
Qed.

(** Witness. *)
Lemma list_unique_spec_witness :
  let h := with_list 300 [] (with_list 100 [216; 200; 232] demo_heap) in
  exists h' ys dup,
    list_unique demo_less 100 300 h = Ok (tt, h') /\
    is_list h' 100 ys /\ is_list h' 300 ([] ++ dup) /\
    Permutation (ys ++ dup) [216; 200; 232] /\
    Sorted (fun a b => eqv demo_less a b = false) ys /\
    Forall (fun y => Exists (fun x => eqv demo_less x y = true) ys) dup.
Proof.
  apply list_unique_spec; [exact _| |discriminate|demo_list|].
  - split_and!; [repeat (split; [reflexivity|]); exact I|by_eval|by_eval].
  - apply Forall_forall. by_eval.
Defined.

(** [list_max] returns the first element that no other element exceeds,
    [list_min] the first one that exceeds no other, and both return the list's
    end on an empty list; the list is not changed. *)
Theorem list_max_min_spec less `{!StrictWeak less} h l xs :
  is_list h l xs ->
  exists mx mn, list_max less l h = Ok (mx, h) /\ list_min less l h = Ok (mn, h) /\
    (xs = [] -> mx = l + TAIL_OFS /\ mn = l + TAIL_OFS) /\
    (xs <> [] ->
      (exists xs1 xs2, xs = xs1 ++ mx :: xs2 /\ Forall (fun y => less y mx = true) xs1 /\
         Forall (fun y => less mx y = false) xs) /\
      (exists xs1 xs2, xs = xs1 ++ mn :: xs2 /\ Forall (fun y => less mn y = true) xs1 /\
         Forall (fun y => less y mn = false) xs)).
Proof.
  intros Hl. do 2 eexists. split_and!; [by apply list_max_refines|by apply list_min_refines| |].
  - by intros ->.
  - intros Hne. destruct xs as [|x t]; [done|]. split.
    + apply (best_first (fun m e => less m e)); [apply less_asym|apply less_ntrans].
    + apply (best_first (fun m e => less e m)).
      * intros a b. apply less_asym.
      * intros a b c Hab Hbc. by apply (less_ntrans c b a).
Qed.

(** Witness. *)
Lemma list_max_min_spec_witness :
  exists mx mn, list_max demo_less 100 (with_list 100 demo_elems demo_heap)
                  = Ok (mx, with_list 100 demo_elems demo_heap) /\
    list_min demo_less 100 (with_list 100 demo_elems demo_heap)
                  = Ok (mn, with_list 100 demo_elems demo_heap) /\
    (demo_elems = [] -> mx = 100 + TAIL_OFS /\ mn = 100 + TAIL_OFS) /\
    (demo_elems <> [] ->
      (exists xs1 xs2, demo_elems = xs1 ++ mx :: xs2 /\
         Forall (fun y => demo_less y mx = true) xs1 /\
         Forall (fun y => demo_less mx y = false) demo_elems) /\
      (exists xs1 xs2, demo_elems = xs1 ++ mn :: xs2 /\
         Forall (fun y => demo_less mn y = true) xs1 /\
         Forall (fun y => demo_less y mn = false) demo_elems)).
Proof. apply list_max_min_spec; [exact _|demo_list]. Defined.
