(* ===== verification/Kernel.v ===== *)
(** * The kernel's threads and interrupts (threads/thread.c, threads/interrupt.c)

    The kernel runs many threads on one processor.  A thread can lose the
    processor in two ways only: it calls [schedule] (through [thread_block],
    [thread_yield] or [thread_exit]), or an external interrupt arrives while
    the interrupt flag is set.  Code between [intr_disable] and
    [intr_set_level] is therefore atomic.

    The model keeps the control state of every thread as data.  A [frame] is
    a point of the C code at which a thread may lose the processor: the entry
    of a function, or the place a call returns to.  The frames of a thread are
    its kernel stack and live in the page of its [struct thread], as in C.
    Executing the top frame runs the C code up to the next such point and
    yields the frames that replace it; the code of each frame is a function of
    this file, of Synch.v or of Machine.v.

    Wait queues and the run queue are sequences of threads.  list.c implements
    such sequences provided that no element is on two lists at once; that this
    is so is one of the invariants proved in SchedInv.v.

    The build modelled is the one without USERPROG and VM: [process_activate]
    and [process_exit] are not called, threads have no page table. *)

From S2P Require Import Prelude.

(** ** Names of kernel objects *)

(** A semaphore is named by the object that contains it: a semaphore of its
    own, the semaphore of a lock, the [waiter] of a [cond_wait] call, or
    [idle_started] of [thread_start]. *)
Inductive sref : Type :=
  | Sema (a : Z)
  | LockSema (l : Z)
  | WaiterSema (w : Z)
  | IdleStarted.

#[export] Instance sref_eq_dec : EqDecision sref.
Proof. solve_decision. Defined.

#[export] Instance sref_countable : Countable sref.
Proof.
  apply (inj_countable'
    (fun r => match r with
              | Sema a => inl (inl a) | LockSema l => inl (inr l)
              | WaiterSema w => inr (inl w) | IdleStarted => inr (inr tt)
              end)
    (fun x => match x with
              | inl (inl a) => Sema a | inl (inr l) => LockSema l
              | inr (inl w) => WaiterSema w | inr (inr _) => IdleStarted
              end)).
  by intros [].
Defined.

(** ** Control points *)

(** What a kernel thread executes: the idle loop, or code of the rest of the
    kernel, which may call any operation of thread.h, synch.h and timer.h. *)
Inductive tfun : Type := Fn_idle | Fn_client.

(** What is waiting for the result of [allocate_tid]: [thread_create] for the
    thread at [t], or [thread_init]. *)
Inductive tid_user : Type :=
  | For_create (t : Z) (fn : tfun)
  | For_init.

(** What an external interrupt does: the timer handler, a device handler
    that ups a semaphore, or nothing (a spurious interrupt). *)
Inductive handler : Type :=
  | H_timer
  | H_sema_up (s : sref)
  | H_spurious.

Inductive frame : Type :=
  (* synch.c *)
  | F_sema_init (s : sref) (value : Z)
  | F_sema_down (s : sref)
  | F_sema_down_loop (s : sref) (old_level : bool)
  | F_sema_try_down (s : sref)
  | F_sema_up (s : sref)
  | F_lock_init (l : Z)
  | F_lock_acquire (l : Z)
  | F_lock_acquired (l : Z)             (** [lock->holder = thread_current ()] *)
  | F_lock_try_acquire (l : Z)
  | F_lock_release (l : Z)
  | F_cond_init (c : Z)
  | F_cond_wait (c l w : Z)             (** [w] is the local [waiter] *)
  | F_cond_signal (c l : Z)
  | F_cond_broadcast (c l : Z)
  (* thread.c *)
  | F_thread_start (page : Z)
  | F_thread_create (name : list Z) (priority : Z) (fn : tfun) (page : Z)
  | F_tid_read (u : tid_user)           (** [tid = next_tid], after lock_acquire *)
  | F_tid_write (u : tid_user) (tid : Z)  (** [next_tid = tid + 1] *)
  | F_tid_done (u : tid_user) (tid : Z)   (** after lock_release *)
  | F_kernel_thread (fn : tfun)
  | F_body (fn : tfun)
  | F_idle_loop
  | F_idle_wake                         (** after thread_block: [sti; hlt] *)
  | F_thread_exit
  | F_thread_yield
  | F_thread_set_priority (p : Z)
  | F_intr_set_level (level : bool)     (** end of thread_yield *)
  | F_intr_enable
  | F_intr_disable
  (* interrupt.c *)
  | F_intr_handler (h : handler)
  | F_iret (flags_if : bool)
  (* timer.c *)
  | F_timer_sleep (n : Z)
  | F_timer_sleep_loop (start n : Z).

(** ** State *)

(** [enum thread_status]. *)
Inductive thread_status : Type :=
  THREAD_RUNNING | THREAD_READY | THREAD_BLOCKED | THREAD_DYING.

#[export] Instance thread_status_eq_dec : EqDecision thread_status.
Proof. solve_decision. Defined.

(** [struct thread] and the kernel stack in the same page.  Of the saved
    registers [tf] only the interrupt flag matters here; the rest is the
    stack. *)
Record thread := Thread {
  tid : Z;
  status : thread_status;
  name : list Z;
  priority : Z;
  tf_if : bool;
  magic : Z;
  stack : list frame
}.

(** [struct semaphore]. *)
Record semaphore := Semaphore { value : Z; waiters : list Z }.

Record kstate := KState {
  threads : gmap Z thread;          (** live thread pages *)
  running : Z;                      (** page of the stack pointer *)
  if_flag : bool;                   (** FLAG_IF of the processor *)
  in_external_intr : bool;
  yield_on_return : bool;
  ready_list : list Z;
  destruction_req : list Z;
  idle_thread : Z;
  initial_thread : Z;
  semas : gmap sref semaphore;
  holders : gmap Z Z;               (** [lock->holder] *)
  conds : gmap Z (list Z);          (** [cond->waiters] *)
  next_tid : Z;
  thread_ticks : Z;
  idle_ticks : Z;
  kernel_ticks : Z;
  ticks : Z
}.

Definition set_threads v k := KState v (running k) (if_flag k) (in_external_intr k)
  (yield_on_return k) (ready_list k) (destruction_req k) (idle_thread k) (initial_thread k)
  (semas k) (holders k) (conds k) (next_tid k) (thread_ticks k) (idle_ticks k)
  (kernel_ticks k) (ticks k).
Definition set_running v k := KState (threads k) v (if_flag k) (in_external_intr k)
  (yield_on_return k) (ready_list k) (destruction_req k) (idle_thread k) (initial_thread k)
  (semas k) (holders k) (conds k) (next_tid k) (thread_ticks k) (idle_ticks k)
  (kernel_ticks k) (ticks k).
Definition set_if v k := KState (threads k) (running k) v (in_external_intr k)
  (yield_on_return k) (ready_list k) (destruction_req k) (idle_thread k) (initial_thread k)
  (semas k) (holders k) (conds k) (next_tid k) (thread_ticks k) (idle_ticks k)
  (kernel_ticks k) (ticks k).
Definition set_intr ext yor k := KState (threads k) (running k) (if_flag k) ext
  yor (ready_list k) (destruction_req k) (idle_thread k) (initial_thread k)
  (semas k) (holders k) (conds k) (next_tid k) (thread_ticks k) (idle_ticks k)
  (kernel_ticks k) (ticks k).
Definition set_ready v k := KState (threads k) (running k) (if_flag k) (in_external_intr k)
  (yield_on_return k) v (destruction_req k) (idle_thread k) (initial_thread k)
  (semas k) (holders k) (conds k) (next_tid k) (thread_ticks k) (idle_ticks k)
  (kernel_ticks k) (ticks k).
Definition set_destruction v k := KState (threads k) (running k) (if_flag k)
  (in_external_intr k) (yield_on_return k) (ready_list k) v (idle_thread k)
  (initial_thread k) (semas k) (holders k) (conds k) (next_tid k) (thread_ticks k)
  (idle_ticks k) (kernel_ticks k) (ticks k).
Definition set_idle v k := KState (threads k) (running k) (if_flag k) (in_external_intr k)
  (yield_on_return k) (ready_list k) (destruction_req k) v (initial_thread k)
  (semas k) (holders k) (conds k) (next_tid k) (thread_ticks k) (idle_ticks k)
  (kernel_ticks k) (ticks k).
Definition set_semas v k := KState (threads k) (running k) (if_flag k) (in_external_intr k)
  (yield_on_return k) (ready_list k) (destruction_req k) (idle_thread k) (initial_thread k)
  v (holders k) (conds k) (next_tid k) (thread_ticks k) (idle_ticks k)
  (kernel_ticks k) (ticks k).
Definition set_holders v k := KState (threads k) (running k) (if_flag k)
  (in_external_intr k) (yield_on_return k) (ready_list k) (destruction_req k)
  (idle_thread k) (initial_thread k) (semas k) v (conds k) (next_tid k) (thread_ticks k)
  (idle_ticks k) (kernel_ticks k) (ticks k).
Definition set_conds v k := KState (threads k) (running k) (if_flag k) (in_external_intr k)
  (yield_on_return k) (ready_list k) (destruction_req k) (idle_thread k) (initial_thread k)
  (semas k) (holders k) v (next_tid k) (thread_ticks k) (idle_ticks k)
  (kernel_ticks k) (ticks k).
Definition set_next_tid v k := KState (threads k) (running k) (if_flag k)
  (in_external_intr k) (yield_on_return k) (ready_list k) (destruction_req k)
  (idle_thread k) (initial_thread k) (semas k) (holders k) (conds k) v (thread_ticks k)
  (idle_ticks k) (kernel_ticks k) (ticks k).
Definition set_ticks th idle kernel tk k := KState (threads k) (running k) (if_flag k)
  (in_external_intr k) (yield_on_return k) (ready_list k) (destruction_req k)
  (idle_thread k) (initial_thread k) (semas k) (holders k) (conds k) (next_tid k) th idle
  kernel tk.

Notation K A := (M kstate A).

Definition with_status s th :=
  Thread (tid th) s (name th) (priority th) (tf_if th) (magic th) (stack th).
Definition with_stack st th :=
  Thread (tid th) (status th) (name th) (priority th) (tf_if th) (magic th) st.
Definition with_tf_if b th :=
  Thread (tid th) (status th) (name th) (priority th) b (magic th) (stack th).
Definition with_tid n th :=
  Thread n (status th) (name th) (priority th) (tf_if th) (magic th) (stack th).
Definition with_priority p th :=
  Thread (tid th) (status th) (name th) p (tf_if th) (magic th) (stack th).

Definition load_thread (t : Z) : K thread := fun k =>
  match threads k !! t with Some th => Ok (th, k) | None => Fault end.
Definition store_thread (t : Z) (f : thread -> thread) : K unit := fun k =>
  match threads k !! t with
  | Some th => Ok (tt, set_threads (<[t := f th]> (threads k)) k)
  | None => Fault
  end.

(** ** interrupt.c *)

(** [enum intr_level]: INTR_ON is [true]. *)
Definition intr_get_level : K bool := k ← get; ret (if_flag k).

Definition intr_context : K bool := k ← get; ret (in_external_intr k).

Definition intr_enable : K bool :=
  old_level ← intr_get_level;
  c ← intr_context; ASSERT (negb c);;
  modify (set_if true);; ret old_level.

Definition intr_disable : K bool :=
  old_level ← intr_get_level;
  modify (set_if false);; ret old_level.

Definition intr_set_level (level : bool) : K bool :=
  if level then intr_enable else intr_disable.

Definition intr_yield_on_return : K unit :=
  c ← intr_context; ASSERT c;; modify (fun k => set_intr (in_external_intr k) true k).

(** ** thread.c *)

Definition THREAD_MAGIC : Z := 0xcd6abf4b.
Definition TIME_SLICE : Z := 4.
Definition PRI_MIN : Z := 0.
Definition PRI_DEFAULT : Z := 31.
Definition PRI_MAX : Z := 63.

(** The address of the static [tid_lock]. *)
Definition tid_lock : Z := 1.

(** [is_thread (t)]. *)
Definition is_thread (t : Z) : K bool :=
  if t =? NULL then ret false else
  th ← load_thread t; ret (magic th =? THREAD_MAGIC).

Definition running_thread : K Z := k ← get; ret (running k).

Definition thread_current : K Z :=
  t ← running_thread;
  b ← is_thread t; ASSERT b;;
  th ← load_thread t; ASSERT (bool_decide (status th = THREAD_RUNNING));;
  ret t.

(** [init_thread] clears the page; the name is cut to 15 bytes. *)
Definition init_thread (t : Z) (nm : list Z) (prio : Z) : K unit :=
  ASSERT (negb (t =? NULL));;
  ASSERT ((PRI_MIN <=? prio) && (prio <=? PRI_MAX));;
  modify (fun k =>
    set_threads (<[t := Thread 0 THREAD_BLOCKED (take 15 nm) prio false THREAD_MAGIC []]>
                   (threads k)) k).

Definition thread_unblock (t : Z) : K unit :=
  b ← is_thread t; ASSERT b;;
  old_level ← intr_disable;
  th ← load_thread t; ASSERT (bool_decide (status th = THREAD_BLOCKED));;
  modify (fun k => set_ready (ready_list k ++ [t]) k);;
  store_thread t (with_status THREAD_READY);;
  intr_set_level old_level;; ret tt.

Definition next_thread_to_run : K Z :=
  k ← get;
  match ready_list k with
  | [] => ret (idle_thread k)
  | t :: l => modify (set_ready l);; ret t
  end.

(** [thread_launch] saves the registers of the running thread, whose flags
    have interrupts off, and loads those of [th]. *)
Definition thread_launch (th : Z) : K unit :=
  curr ← running_thread;
  level ← intr_get_level; ASSERT (negb level);;
  store_thread curr (with_tf_if level);;
  nx ← load_thread th;
  modify (set_running th);;
  modify (set_if (tf_if nx)).

Definition schedule : K unit :=
  curr ← running_thread;
  next ← next_thread_to_run;
  level ← intr_get_level; ASSERT (negb level);;
  cth ← load_thread curr; ASSERT (negb (bool_decide (status cth = THREAD_RUNNING)));;
  b ← is_thread next; ASSERT b;;
  store_thread next (with_status THREAD_RUNNING);;
  modify (fun k => set_ticks 0 (idle_ticks k) (kernel_ticks k) (ticks k) k);;
  if curr =? next then ret tt else
  cth ← load_thread curr;
  k ← get;
  (if bool_decide (status cth = THREAD_DYING) && negb (curr =? initial_thread k) then
     ASSERT (negb (curr =? next));;
     modify (fun k => set_destruction (destruction_req k ++ [curr]) k)
   else ret tt);;
  thread_launch next.

(** The pages of the threads queued in [destruction_req] are freed. *)
Fixpoint destroy (victims : list Z) (m : gmap Z thread) : gmap Z thread :=
  match victims with
  | [] => m
  | victim :: l => destroy l (delete victim m)
  end.

Definition do_schedule (st : thread_status) : K unit :=
  level ← intr_get_level; ASSERT (negb level);;
  curr ← thread_current;
  th ← load_thread curr; ASSERT (bool_decide (status th = THREAD_RUNNING));;
  modify (fun k => set_destruction [] (set_threads (destroy (destruction_req k) (threads k)) k));;
  curr ← thread_current;
  store_thread curr (with_status st);;
  schedule.

Definition thread_block : K unit :=
  c ← intr_context; ASSERT (negb c);;
  level ← intr_get_level; ASSERT (negb level);;
  curr ← thread_current;
  store_thread curr (with_status THREAD_BLOCKED);;
  schedule.

Definition thread_yield : K (list frame) :=
  curr ← thread_current;
  c ← intr_context; ASSERT (negb c);;
  old_level ← intr_disable;
  k ← get;
  (if curr =? idle_thread k then ret tt
   else modify (fun k => set_ready (ready_list k ++ [curr]) k));;
  do_schedule THREAD_READY;;
  ret [F_intr_set_level old_level].

(** Nothing of the stack is used after [do_schedule (THREAD_DYING)]. *)
Definition thread_exit : K (list frame) :=
  c ← intr_context; ASSERT (negb c);;
  intr_disable;;
  do_schedule THREAD_DYING;;
  ret [].

Definition thread_tick : K unit :=
  t ← thread_current;
  k ← get;
  modify (set_ticks (thread_ticks k)
            (if t =? idle_thread k then s64 (idle_ticks k + 1) else idle_ticks k)
            (if t =? idle_thread k then kernel_ticks k else s64 (kernel_ticks k + 1))
            (ticks k));;
  modify (fun k => set_ticks (u32 (thread_ticks k + 1)) (idle_ticks k) (kernel_ticks k)
                     (ticks k) k);;
  k ← get;
  if TIME_SLICE <=? thread_ticks k then intr_yield_on_return else ret tt.

Definition thread_set_priority (new_priority : Z) : K (list frame) :=
  t ← thread_current; store_thread t (with_priority new_priority);; ret [].

(** [allocate_tid], split where a preemption could separate the read of
    [next_tid] from its update. *)
Definition allocate_tid (u : tid_user) : list frame :=
  [F_lock_acquire tid_lock; F_tid_read u].
Definition tid_read (u : tid_user) : K (list frame) :=
  k ← get; ret [F_tid_write u (next_tid k)].
Definition tid_write (u : tid_user) (n : Z) : K (list frame) :=
  modify (set_next_tid (s32 (n + 1)));; ret [F_lock_release tid_lock; F_tid_done u n].

(** [thread_create]: [page] is what [palloc_get_page] returns. *)
Definition thread_create (nm : list Z) (prio : Z) (fn : tfun) (page : Z) : K (list frame) :=
  if page =? NULL then ret [] else
  init_thread page nm prio;;
  ret (allocate_tid (For_create page fn)).

(** The rest of [thread_create] and of [thread_init]. *)
Definition tid_done (u : tid_user) (n : Z) : K (list frame) :=
  match u with
  | For_create t fn =>
      store_thread t (with_tid n);;
      store_thread t (fun th => with_stack [F_kernel_thread fn] (with_tf_if true th));;
      thread_unblock t;; ret []
  | For_init => k ← get; store_thread (initial_thread k) (with_tid n);; ret []
  end.

Definition kernel_thread (fn : tfun) : K (list frame) :=
  intr_enable;; ret [F_body fn; F_thread_exit].

(** The idle thread's function up to its loop, and the loop. *)
Definition idle_start : K (list frame) :=
  t ← thread_current; modify (set_idle t);; ret [F_sema_up IdleStarted; F_idle_loop].
Definition idle_loop : K (list frame) := intr_disable;; thread_block;; ret [F_idle_wake].
Definition idle_wake : K (list frame) := modify (set_if true);; ret [F_idle_loop].
