(* ===== verification/Synch.v ===== *)
(** * Semaphores, locks and condition variables (threads/synch.c)

    Each function is the code of one frame (Kernel.v): it runs up to the next
    point at which the thread may lose the processor and returns the frames
    that continue it.  In [lock_acquire], for instance, the processor can be
    lost between [sema_down] and the assignment to [lock->holder]. *)

From S2P Require Import Prelude Kernel.

Definition load_sema (s : sref) : K semaphore := fun k =>
  match semas k !! s with Some sm => Ok (sm, k) | None => Fault end.
Definition store_sema (s : sref) (sm : semaphore) : K unit :=
  modify (fun k => set_semas (<[s := sm]> (semas k)) k).
Definition load_holder (l : Z) : K Z := fun k =>
  match holders k !! l with Some h => Ok (h, k) | None => Fault end.
Definition store_holder (l h : Z) : K unit :=
  modify (fun k => set_holders (<[l := h]> (holders k)) k).
Definition load_cond (c : Z) : K (list Z) := fun k =>
  match conds k !! c with Some ws => Ok (ws, k) | None => Fault end.
Definition store_cond (c : Z) (ws : list Z) : K unit :=
  modify (fun k => set_conds (<[c := ws]> (conds k)) k).

(** ** Semaphores *)

Definition sema_init (s : sref) (v : Z) : K unit := store_sema s (Semaphore (u32 v) []).

(** [sema_down] up to its loop. *)
Definition sema_down (s : sref) : K (list frame) :=
  c ← intr_context; ASSERT (negb c);;
  old_level ← intr_disable;
  ret [F_sema_down_loop s old_level].

(** The test of the loop: the thread sleeps, and tests again when it runs
    again, or takes the semaphore. *)
Definition sema_down_loop (s : sref) (old_level : bool) : K (list frame) :=
  sm ← load_sema s;
  if value sm =? 0 then
    t ← thread_current;
    store_sema s (Semaphore (value sm) (waiters sm ++ [t]));;
    thread_block;;
    ret [F_sema_down_loop s old_level]
  else
    store_sema s (Semaphore (u32 (value sm - 1)) (waiters sm));;
    intr_set_level old_level;; ret [].

Definition sema_try_down (s : sref) : K bool :=
  old_level ← intr_disable;
  sm ← load_sema s;
  success ← (if 0 <? value sm then
               store_sema s (Semaphore (u32 (value sm - 1)) (waiters sm));; ret true
             else ret false);
  intr_set_level old_level;; ret success.

Definition sema_up (s : sref) : K unit :=
  old_level ← intr_disable;
  sm ← load_sema s;
  (match waiters sm with
   | [] => ret tt
   | t :: ws => store_sema s (Semaphore (value sm) ws);; thread_unblock t
   end);;
  sm ← load_sema s;
  store_sema s (Semaphore (u32 (value sm + 1)) (waiters sm));;
  intr_set_level old_level;; ret tt.

(** ** Locks *)

Definition lock_init (l : Z) : K unit :=
  store_holder l NULL;; sema_init (LockSema l) 1.

Definition lock_held_by_current_thread (l : Z) : K bool :=
  h ← load_holder l; t ← thread_current; ret (h =? t).

Definition lock_acquire (l : Z) : K (list frame) :=
  c ← intr_context; ASSERT (negb c);;
  b ← lock_held_by_current_thread l; ASSERT (negb b);;
  ret [F_sema_down (LockSema l); F_lock_acquired l].

Definition lock_acquired (l : Z) : K (list frame) :=
  t ← thread_current; store_holder l t;; ret [].

Definition lock_try_acquire (l : Z) : K (list frame) :=
  b ← lock_held_by_current_thread l; ASSERT (negb b);;
  success ← sema_try_down (LockSema l);
  ret (if success : bool then [F_lock_acquired l] else []).

Definition lock_release (l : Z) : K (list frame) :=
  b ← lock_held_by_current_thread l; ASSERT b;;
  store_holder l NULL;;
  ret [F_sema_up (LockSema l)].

(** ** Condition variables *)

Definition cond_init (c : Z) : K unit := store_cond c [].

Definition cond_wait (c l w : Z) : K (list frame) :=
  i ← intr_context; ASSERT (negb i);;
  b ← lock_held_by_current_thread l; ASSERT b;;
  sema_init (WaiterSema w) 0;;
  ws ← load_cond c; store_cond c (ws ++ [w]);;
  ret [F_lock_release l; F_sema_down (WaiterSema w); F_lock_acquire l].

Definition cond_signal (c l : Z) : K (list frame) :=
  i ← intr_context; ASSERT (negb i);;
  b ← lock_held_by_current_thread l; ASSERT b;;
  ws ← load_cond c;
  match ws with
  | [] => ret []
  | w :: ws => store_cond c ws;; ret [F_sema_up (WaiterSema w)]
  end.

Definition cond_broadcast (c l : Z) : K (list frame) :=
  ws ← load_cond c;
  match ws with
  | [] => ret []
  | _ => ret [F_cond_signal c l; F_cond_broadcast c l]
  end.
