(* ===== verification/Machine.v ===== *)
(** * The kernel as a transition system

    [exec] dispatches a frame to its code; [run] executes the top frame of
    the running thread.  The transition relation [step] adds what the code
    does not decide: which operation the client code of a thread calls next
    ([step_call]), that it returns ([step_return]), and external interrupts,
    which arrive at any point where the interrupt flag is set
    ([step_interrupt]).  [boot] is the state [thread_init] leaves. *)

From S2P Require Import Prelude Kernel Synch.

(** ** devices/timer.c *)

Definition timer_ticks : K Z :=
  old_level ← intr_disable;
  k ← get;
  intr_set_level old_level;;
  ret (ticks k).

Definition timer_elapsed (start : Z) : K Z := t ← timer_ticks; ret (s64 (t - start)).

Definition timer_interrupt : K unit :=
  modify (fun k => set_ticks (thread_ticks k) (idle_ticks k) (kernel_ticks k)
                     (s64 (ticks k + 1)) k);;
  thread_tick.

Definition timer_sleep (n : Z) : K (list frame) :=
  start ← timer_ticks;
  level ← intr_get_level; ASSERT level;;
  ret [F_timer_sleep_loop start n].

Definition timer_sleep_loop (start n : Z) : K (list frame) :=
  e ← timer_elapsed start;
  ret (if e <? n then [F_thread_yield; F_timer_sleep_loop start n] else []).

(** ** threads/interrupt.c: the handler of external interrupts *)

Definition intr_handlers (h : handler) : K unit :=
  match h with
  | H_timer => timer_interrupt
  | H_sema_up s => sema_up s
  | H_spurious => ret tt
  end.

Definition intr_handler (h : handler) : K (list frame) :=
  level ← intr_get_level; ASSERT (negb level);;
  c ← intr_context; ASSERT (negb c);;
  modify (set_intr true false);;
  intr_handlers h;;
  level ← intr_get_level; ASSERT (negb level);;
  c ← intr_context; ASSERT c;;
  modify (fun k => set_intr false (yield_on_return k) k);;
  k ← get;
  ret (if yield_on_return k then [F_thread_yield] else []).

(** ** thread_start *)

Definition thread_start (page : Z) : K (list frame) :=
  sema_init IdleStarted 0;;
  ret [F_thread_create [] PRI_MIN Fn_idle page; F_intr_enable; F_sema_down IdleStarted].

(** ** Execution *)

Definition no_frames {A} (m : K A) : K (list frame) := m;; ret [].

Definition exec (f : frame) : K (list frame) :=
  match f with
  | F_sema_init s v => no_frames (sema_init s v)
  | F_sema_down s => sema_down s
  | F_sema_down_loop s old_level => sema_down_loop s old_level
  | F_sema_try_down s => no_frames (sema_try_down s)
  | F_sema_up s => no_frames (sema_up s)
  | F_lock_init l => no_frames (lock_init l)
  | F_lock_acquire l => lock_acquire l
  | F_lock_acquired l => lock_acquired l
  | F_lock_try_acquire l => lock_try_acquire l
  | F_lock_release l => lock_release l
  | F_cond_init c => no_frames (cond_init c)
  | F_cond_wait c l w => cond_wait c l w
  | F_cond_signal c l => cond_signal c l
  | F_cond_broadcast c l => cond_broadcast c l
  | F_thread_start page => thread_start page
  | F_thread_create nm prio fn page => thread_create nm prio fn page
  | F_tid_read u => tid_read u
  | F_tid_write u n => tid_write u n
  | F_tid_done u n => tid_done u n
  | F_kernel_thread fn => kernel_thread fn
  | F_body Fn_idle => idle_start
  | F_body Fn_client => ret []
  | F_idle_loop => idle_loop
  | F_idle_wake => idle_wake
  | F_thread_exit => thread_exit
  | F_thread_yield => thread_yield
  | F_thread_set_priority p => thread_set_priority p
  | F_intr_set_level level => no_frames (intr_set_level level)
  | F_intr_enable => no_frames intr_enable
  | F_intr_disable => no_frames intr_disable
  | F_intr_handler h => intr_handler h
  | F_iret b => no_frames (modify (set_if b) : K unit)
  | F_timer_sleep n => timer_sleep n
  | F_timer_sleep_loop start n => timer_sleep_loop start n
  end.

(** Replaces the frames of thread [t] from its top frame. *)
Definition set_top (t : Z) (fs : list frame) : K unit :=
  store_thread t (fun th => with_stack (fs ++ tail (stack th)) th).

(** One execution of the running thread's top frame. *)
Definition run : K unit :=
  t ← running_thread;
  th ← load_thread t;
  match stack th with
  | [] => fun _ => Fault
  | f :: _ => fs ← exec f; set_top t fs
  end.

(** The operations client code may call. *)
Definition client_call (f : frame) : bool :=
  match f with
  | F_sema_init (Sema _) _ | F_sema_down (Sema _) | F_sema_try_down (Sema _)
  | F_sema_up (Sema _) => true
  | F_lock_init _ | F_lock_acquire _ | F_lock_try_acquire _ | F_lock_release _ => true
  | F_cond_init _ | F_cond_wait _ _ _ | F_cond_signal _ _ | F_cond_broadcast _ _ => true
  | F_thread_create _ _ Fn_client _ => true
  | F_thread_yield | F_thread_exit | F_thread_set_priority _ => true
  | F_intr_enable | F_intr_disable | F_timer_sleep _ => true
  | _ => false
  end.

(** What the environment guarantees when a frame is executed: only objects
    that are not in use are initialised, the page [palloc_get_page] returns is
    free, and so is the storage of the local [waiter]. *)
Definition env_ok (k : kstate) (f : frame) : bool :=
  match f with
  | F_sema_init s _ => bool_decide (semas k !! s = None)
  | F_lock_init l => bool_decide (holders k !! l = None)
  | F_cond_init c => bool_decide (conds k !! c = None)
  | F_cond_wait _ _ w => bool_decide (semas k !! WaiterSema w = None)
  | F_thread_create _ _ _ page => bool_decide (threads k !! page = None)
  | _ => true
  end.

(** Device handlers up semaphores of their own. *)
Definition device_handler (h : handler) : bool :=
  match h with
  | H_timer | H_spurious | H_sema_up (Sema _) => true
  | _ => false
  end.

Inductive step : kstate -> kstate -> Prop :=
  (** The running thread executes its top frame. *)
  | step_run k k' th f rest :
      threads k !! running k = Some th -> stack th = f :: rest ->
      f <> F_body Fn_client -> env_ok k f = true -> run k = Ok (tt, k') -> step k k'
  (** Client code calls a kernel operation. *)
  | step_call k k' th f rest :
      threads k !! running k = Some th -> stack th = F_body Fn_client :: rest ->
      client_call f = true ->
      set_top (running k) [f; F_body Fn_client] k = Ok (tt, k') -> step k k'
  (** Client code returns. *)
  | step_return k k' th rest :
      threads k !! running k = Some th -> stack th = F_body Fn_client :: rest ->
      run k = Ok (tt, k') -> step k k'
  (** The processor takes an interrupt: it saves the flags, clears IF and
      enters the handler. *)
  | step_interrupt k k' th h :
      threads k !! running k = Some th -> if_flag k = true -> device_handler h = true ->
      store_thread (running k)
        (fun th => with_stack (F_intr_handler h :: F_iret true :: stack th) th) (set_if false k)
        = Ok (tt, k') -> step k k'.

(** [thread_init] up to its call of [allocate_tid]; what [main] does next is
    on the stack: [thread_start], then the rest of the boot code, then
    [thread_exit].  [page] is the page [thread_start] will be given. *)
Definition thread_init (page : Z) : K unit :=
  level ← intr_get_level; ASSERT (negb level);;
  lock_init tid_lock;;
  modify (set_ready []);; modify (set_destruction []);;
  t ← running_thread;
  init_thread t [] PRI_DEFAULT;;
  store_thread t (with_status THREAD_RUNNING);;
  store_thread t (with_stack (allocate_tid For_init ++
                    [F_thread_start page; F_body Fn_client; F_thread_exit])).

(** The machine before [thread_init]: the loader's stack is in the page
    [main], interrupts are off. *)
Definition power_on (main : Z) : kstate :=
  KState ∅ main false false false [] [] NULL main ∅ ∅ ∅ 1 0 0 0 0.

Definition boots (main page : Z) (k : kstate) : Prop :=
  main <> page /\ thread_init page (power_on main) = Ok (tt, k).

Definition reachable (k : kstate) : Prop :=
  exists main page k0, boots main page k0 /\ rtc step k0 k.
