(* ===== verification/SchedInv.v ===== *)
(** * Queues of the scheduler

    [Queues k r] relates the status of every thread to the queue it is on;
    [r] is the thread that runs ([None] inside [schedule], between giving up
    the processor and choosing the next thread).  The file also holds the sums
    of frame weights over all stacks, in which KernelInv.v states what is
    conserved, and the lemmas on how each scheduling step changes the queues. *)

From S2P Require Import Prelude Kernel Synch Machine.

(** ** Sums of weights over stacks *)

Definition fsum (w : frame -> Z) (st : list frame) : Z := foldr (fun f a => w f + a) 0 st.

Definition tot (w : frame -> Z) (m : gmap Z thread) : Z :=
  map_fold (fun _ th a => fsum w (stack th) + a) 0 m.

Lemma fsum_cons w f st : fsum w (f :: st) = w f + fsum w st.
Proof. done. Qed.

Lemma fsum_app w s1 s2 : fsum w (s1 ++ s2) = fsum w s1 + fsum w s2.
Proof. induction s1 as [|f s1 IH]; simpl; [done|]. rewrite IH. lia. Qed.

Lemma tot_fresh w m t th :
  m !! t = None -> tot w (<[t := th]> m) = fsum w (stack th) + tot w m.
Proof. intros H. unfold tot. rewrite map_fold_insert_L; [done| |done]. intros. lia. Qed.

Lemma tot_delete w m t th :
  m !! t = Some th -> tot w m = fsum w (stack th) + tot w (delete t m).
Proof.
  intros H. rewrite <- (insert_delete_id m t th H) at 1.
  apply tot_fresh, lookup_delete_eq.
Qed.

Lemma tot_insert w m t th th' :
  m !! t = Some th ->
  tot w (<[t := th']> m) = tot w m - fsum w (stack th) + fsum w (stack th').
Proof.
  intros H. rewrite (tot_delete w m t th H).
  rewrite (tot_delete w _ t th' (lookup_insert_eq _ _ _)), delete_insert_eq. lia.
Qed.

Lemma tot_nonneg w m :
  (forall t th, m !! t = Some th -> 0 <= fsum w (stack th)) -> 0 <= tot w m.
Proof.
  induction m as [|t th m Hm _ IH] using map_first_key_ind; intros H; [done|].
  rewrite tot_fresh by done. pose proof (H t th (lookup_insert_eq _ _ _)).
  enough (0 <= tot w m) by lia. apply IH. intros t' th' Ht'. apply (H t').
  rewrite lookup_insert_ne; [done|]. intros ->. by rewrite Hm in Ht'.
Qed.

Lemma tot_ge w m t th :
  (forall t th, m !! t = Some th -> 0 <= fsum w (stack th)) -> m !! t = Some th ->
  fsum w (stack th) <= tot w m.
Proof.
  intros H Ht. rewrite (tot_delete w m t th Ht).
  enough (0 <= tot w (delete t m)) by lia. apply tot_nonneg.
  intros t' th' [_ Ht']%lookup_delete_Some. by apply (H t').
Qed.

Lemma tot_mono w w' m : (forall f, w f <= w' f) -> tot w m <= tot w' m.
Proof.
  intros H. assert (Hf : forall st, fsum w st <= fsum w' st).
  { induction st as [|f st IH]; [done|]. rewrite !fsum_cons. specialize (H f). lia. }
  induction m as [|t th m Hm _ IH] using map_first_key_ind; [done|].
  rewrite !tot_fresh by done. specialize (Hf (stack th)). lia.
Qed.

(** Two threads: their weights together are at most the total. *)
Lemma tot_ge2 w m t th t' th' :
  (forall t th, m !! t = Some th -> 0 <= fsum w (stack th)) ->
  m !! t = Some th -> m !! t' = Some th' -> t <> t' ->
  fsum w (stack th) + fsum w (stack th') <= tot w m.
Proof.
  intros H Ht Ht' Hne. rewrite (tot_delete w m t th Ht).
  enough (fsum w (stack th') <= tot w (delete t m)) by lia.
  apply (tot_ge w _ t'); [|by rewrite lookup_delete_ne].
  intros ? ? [_ ?]%lookup_delete_Some. by eapply H.
Qed.

(** ** Weights *)

Inductive weight : Type :=
  (** The token of lock [l] on its way: taken by [sema_down] and not yet
      recorded in [holder], or given back by [lock_release] and not yet in
      the semaphore. *)
  | W_lock (l : Z)
  (** Threads inside the loop of [sema_down (s)]. *)
  | W_loop (s : sref)
  (** Frames that own the new thread [t] until it is on the run queue. *)
  | W_new (t : Z)
  (** Frames that may still set [idle_thread]. *)
  | W_idle
  (** [thread_start] not yet executed. *)
  | W_start.

Definition wt (w : weight) (f : frame) : Z :=
  match w, f with
  | W_lock l, (F_lock_acquired l' | F_sema_up (LockSema l')) => if l =? l' then 1 else 0
  | W_lock l, (F_sema_down (LockSema l') | F_sema_down_loop (LockSema l') _) =>
      if l =? l' then -1 else 0
  | W_loop s, F_sema_down_loop s' _ => if bool_decide (s = s') then 1 else 0
  | W_new t, (F_tid_read (For_create t' _) | F_tid_write (For_create t' _) _
             | F_tid_done (For_create t' _) _) => if t =? t' then 1 else 0
  | W_idle, (F_thread_start _ | F_thread_create _ _ Fn_idle _
            | F_tid_read (For_create _ Fn_idle) | F_tid_write (For_create _ Fn_idle) _
            | F_tid_done (For_create _ Fn_idle) _ | F_kernel_thread Fn_idle
            | F_body Fn_idle) => 1
  | W_start, F_thread_start _ => 1
  | _, _ => 0
  end.

(** ** Well formed stacks *)

(** Frames that are executed with interrupts off. *)
Definition is_off (f : frame) : bool :=
  match f with F_sema_down_loop _ _ | F_intr_handler _ => true | _ => false end.

Definition is_idle_frame (f : frame) : bool :=
  match f with F_idle_loop | F_idle_wake => true | _ => false end.

(** What may be left on the stack of a thread in [thread_exit], and after. *)
Definition dead_stack (st : list frame) : Prop :=
  st = [] \/ st = [F_body Fn_client; F_thread_exit].
Definition dying_stack (st : list frame) : Prop :=
  dead_stack st \/ exists rest, st = F_thread_exit :: rest /\ dead_stack rest.

Definition frame_ok (f : frame) (rest : list frame) : Prop :=
  match f with
  | F_sema_down (LockSema l) | F_sema_down_loop (LockSema l) _ =>
      exists r, rest = F_lock_acquired l :: r
  | F_thread_exit => dead_stack rest
  | F_kernel_thread _ => rest = []
  | F_body _ => rest = [F_thread_exit]
  | F_sema_init s _ | F_sema_try_down s => (exists a, s = Sema a) /\ rest <> []
  | F_intr_handler h => device_handler h = true /\ rest <> []
  | _ => rest <> []
  end.

Fixpoint wf (st : list frame) : Prop :=
  match st with
  | [] => True
  | f :: rest => frame_ok f rest /\ Forall (fun f => is_off f = false) rest /\ wf rest
  end.

(** The idle thread's stack after it has set [idle_thread]. *)
Fixpoint idle_stack (st : list frame) : Prop :=
  match st with
  | (F_idle_loop | F_idle_wake) :: _ => True
  | (F_sema_up _ | F_thread_yield | F_intr_set_level _ | F_iret _ | F_intr_handler _) :: r =>
      idle_stack r
  | _ => False
  end.

Lemma fsum_dying w st : dying_stack st -> fsum (wt w) st = 0.
Proof. intros [[->| ->]|(r & -> & [->| ->])]; by destruct w. Qed.

(** Only the lock weight takes negative values, and a thread on its way into
    a lock has the frame that will own the token right below. *)
Lemma fsum_nonneg_tail w st :
  wf st -> 0 <= fsum (wt w) st /\ 0 <= fsum (wt w) (tail st).
Proof.
  induction st as [|f st IH]; [done|]. intros (Hf & _ & Hw).
  destruct (IH Hw) as [H1 H2]. split; [|done]. change (0 <= wt w f + fsum (wt w) st).
  destruct w as [l|s0|t| |].
  2-5: match goal with |- 0 <= ?a + _ => enough (0 <= a) by lia end;
    destruct f; simpl; repeat case_match; lia.
  destruct f; try (destruct s); simpl; try lia; try (case_match; lia).
  all: destruct Hf as (r & ->); simpl in *; case_match; lia.
Qed.

Lemma fsum_nonneg w st : wf st -> 0 <= fsum (wt w) st.
Proof. intros. by apply fsum_nonneg_tail. Qed.

Lemma wf_tail f st : wf (f :: st) -> wf st.
Proof. by intros (_ & _ & ?). Qed.

Lemma fsum_no_loop s st : Forall (fun f => is_off f = false) st -> fsum (wt (W_loop s)) st = 0.
Proof. induction 1 as [|f st Hf _ IH]; [done|]. simpl. rewrite IH. by destruct f. Qed.

(** ** Queues *)

(** The waiters of a semaphore. *)
Definition wl (k : kstate) (s : sref) : list Z := from_option waiters [] (semas k !! s).

(** The interrupt flag of a thread: the processor's while it runs. *)
Definition if_of (k : kstate) (t : Z) (th : thread) : bool :=
  if t =? running k then if_flag k else tf_if th.

Definition top_off (st : list frame) : bool :=
  match st with f :: _ => is_off f | [] => false end.

(** The thread sleeps in [sema_down (s)]. *)
Definition asleep (k : kstate) (t : Z) (th : thread) : Prop :=
  exists s old rest, stack th = F_sema_down_loop s old :: rest /\ t ∈ wl k s.

Definition status_ok (k : kstate) (r : option Z) (t : Z) (th : thread) : Prop :=
  match status th with
  | THREAD_RUNNING => r = Some t /\ stack th <> []
  | THREAD_READY => r <> Some t /\ stack th <> [] /\ (t ∈ ready_list k \/ t = idle_thread k)
  | THREAD_BLOCKED => r <> Some t /\ (t = idle_thread k \/ stack th = [] \/ asleep k t th)
  | THREAD_DYING => r <> Some t /\ t <> idle_thread k /\ dying_stack (stack th) /\
      (t ∈ destruction_req k \/ t = initial_thread k \/ (r = None /\ t = running k))
  end.

Record thread_ok (k : kstate) (r : option Z) (t : Z) (th : thread) : Prop := {
  t_null : t <> NULL;
  t_magic : magic th = THREAD_MAGIC;
  t_wf : wf (stack th);
  t_if : top_off (stack th) = true -> if_of k t th = false;
  t_idle : existsb is_idle_frame (stack th) = true -> t = idle_thread k;
  t_status : status_ok k r t th
}.

(** [t] is a live thread with status [st]. *)
Definition has_status (k : kstate) (t : Z) (st : thread_status) (th : thread) : Prop :=
  threads k !! t = Some th /\ status th = st.

Record Queues (k : kstate) (r : option Z) : Prop := {
  q_thr t th : threads k !! t = Some th -> thread_ok k r t th;
  q_cur : exists th, threads k !! running k = Some th;
  q_run t : r = Some t -> exists th, has_status k t THREAD_RUNNING th;
  q_ready_nd : NoDup (ready_list k);
  q_ready t : t ∈ ready_list k -> t <> idle_thread k /\ exists th, has_status k t THREAD_READY th;
  q_wait_nd s : NoDup (wl k s);
  q_wait s t : t ∈ wl k s -> exists th old rest,
    has_status k t THREAD_BLOCKED th /\ stack th = F_sema_down_loop s old :: rest;
  q_destr_nd : NoDup (destruction_req k);
  q_destr t : t ∈ destruction_req k -> t <> initial_thread k /\
    exists th, has_status k t THREAD_DYING th;
  q_idle : idle_thread k <> NULL -> exists th,
    threads k !! idle_thread k = Some th /\ idle_stack (stack th);
  q_init : exists th, threads k !! initial_thread k = Some th
}.

(** A sleeping thread is on one queue only. *)
Lemma q_wait_unique k r s s' t : Queues k r -> t ∈ wl k s -> t ∈ wl k s' -> s = s'.
Proof.
  intros Q H1 H2. apply (q_wait _ _ Q) in H1 as (th & ? & ? & [H1 _] & E1).
  apply (q_wait _ _ Q) in H2 as (th' & ? & ? & [H2 _] & E2). congruence.
Qed.

Lemma idle_not_waiting k r s : Queues k r -> idle_thread k ∉ wl k s.
Proof.
  intros Q H. pose proof H as (th & o & rest & [H1 _] & E)%(q_wait _ _ Q).
  destruct (q_idle _ _ Q) as (th' & H2 & Hi).
  { intros E0. by apply (t_null _ _ _ _ (q_thr _ _ Q _ _ H1)). }
  rewrite H1 in H2. simplify_eq. by rewrite E in Hi.
Qed.

(** ** Changes that keep the queues *)

(** Everything [Queues] looks at is unchanged, except the interrupt flag. *)
Lemma Queues_ext k k' r :
  Queues k r ->
  threads k' = threads k -> running k' = running k -> ready_list k' = ready_list k ->
  destruction_req k' = destruction_req k -> idle_thread k' = idle_thread k ->
  initial_thread k' = initial_thread k -> (forall s, wl k' s = wl k s) ->
  (forall th, threads k !! running k = Some th -> top_off (stack th) = true -> if_flag k' = false) ->
  Queues k' r.
Proof.
  intros Q Et Er El Ed Ei En Ew Hif. destruct Q as [Q1 Q2 Q3 Q4 Q5 Q6 Q7 Q8 Q9 Q10 Q11].
  split; unfold has_status in *; rewrite ?Et, ?Er, ?El, ?Ed, ?Ei, ?En; try done.
  - intros t th Ht. destruct (Q1 t th Ht) as [T1 T2 T3 T4 T6 T5]. split; try done.
    + unfold if_of in *. rewrite Er. destruct (Z.eqb_spec t (running k)); [subst|by apply T4].
      intros. by eapply Hif.
    + by rewrite Ei.
    + unfold status_ok, asleep in *. rewrite ?El, ?Ed, ?Ei, ?En, ?Er.
      destruct (status th); try done. setoid_rewrite Ew. done.
  - intros s. rewrite Ew. apply Q6.
  - intros s t. rewrite Ew. apply Q7.
Qed.

(** Nothing but thread [t] changes its place in the queues. *)
Record only (t : Z) (k k' : kstate) (r r' : option Z) : Prop := {
  o_running : running k' = running k;
  o_if : if_flag k' = if_flag k;
  o_idle : idle_thread k' = idle_thread k;
  o_init : initial_thread k' = initial_thread k;
  o_ready u : u <> t -> (u ∈ ready_list k' <-> u ∈ ready_list k);
  o_destr u : u <> t -> (u ∈ destruction_req k' <-> u ∈ destruction_req k);
  o_wait u s : u <> t -> (u ∈ wl k' s <-> u ∈ wl k s);
  o_r u : u <> t -> (r' = Some u <-> r = Some u);
  o_dying th : running k <> t -> r = None -> threads k !! running k = Some th ->
    status th = THREAD_DYING -> running k ∉ destruction_req k' ->
    running k <> initial_thread k -> r' = None;
  o_nd : NoDup (ready_list k') /\ NoDup (destruction_req k') /\ forall s, NoDup (wl k' s)
}.

(** The new place of [t]. *)
Record placed (t : Z) (k' : kstate) (r' : option Z) (th' : thread) : Prop := {
  p_ok : thread_ok k' r' t th';
  p_ready : t ∈ ready_list k' -> t <> idle_thread k' /\ status th' = THREAD_READY;
  p_wait s : t ∈ wl k' s -> status th' = THREAD_BLOCKED /\
    exists old rest, stack th' = F_sema_down_loop s old :: rest;
  p_destr : t ∈ destruction_req k' -> t <> initial_thread k' /\ status th' = THREAD_DYING;
  p_run : r' = Some t -> status th' = THREAD_RUNNING;
  p_idle : t = idle_thread k' -> idle_stack (stack th')
}.

Lemma status_ok_other t k k' r r' u th :
  only t k k' r r' -> u <> t -> threads k !! u = Some th ->
  status_ok k r u th -> status_ok k' r' u th.
Proof.
  intros O Hu Ht. unfold status_ok, asleep.
  pose proof (o_r _ _ _ _ _ O u Hu) as Er.
  rewrite (o_idle _ _ _ _ _ O), (o_init _ _ _ _ _ O), (o_running _ _ _ _ _ O).
  destruct (status th) eqn:Es.
  - by rewrite Er.
  - rewrite (o_ready _ _ _ _ _ O u Hu). by rewrite Er.
  - rewrite Er. intros [? [?|[?|(s & old & rest & E & Hw)]]]; split; try tauto.
    right. right. exists s, old, rest. split; [done|]. by apply (o_wait _ _ _ _ _ O).
  - rewrite Er. intros (H1 & H2 & H3 & H4). split_and!; try done.
    destruct (decide (u ∈ destruction_req k')); [tauto|].
    destruct (decide (u = initial_thread k)); [tauto|].
    destruct H4 as [H4|[?|[H4 ->]]]; [by apply (o_destr _ _ _ _ _ O u Hu) in H4|tauto|].
    right. right. split; [|done]. by eapply (o_dying _ _ _ _ _ O).
Qed.

Lemma Queues_upd t k k' r r' th th' :
  Queues k r -> threads k !! t = Some th -> threads k' = <[t := th']> (threads k) ->
  only t k k' r r' -> placed t k' r' th' -> Queues k' r'.
Proof.
  intros Q Ht Et O P.
  assert (Hoth : forall u th, u <> t -> threads k !! u = Some th -> threads k' !! u = Some th).
  { intros u thu Hu. by rewrite Et, lookup_insert_ne. }
  assert (Hself : threads k' !! t = Some th') by (by rewrite Et, lookup_insert_eq).
  destruct (o_nd _ _ _ _ _ O) as (Hn1 & Hn2 & Hn3).
  destruct Q as [Q1 Q2 Q3 Q4 Q5 Q6 Q7 Q8 Q9 Q10 Q11]. split; try done; unfold has_status in *.
  - intros u thu Hu. destruct (decide (u = t)) as [->|Hne].
    { rewrite Hself in Hu. simplify_eq. apply P. }
    rewrite Et, lookup_insert_ne in Hu by done. destruct (Q1 u thu Hu) as [T1 T2 T3 T4 T6 T5].
    split; try done; [|by rewrite (o_idle _ _ _ _ _ O)|by eapply status_ok_other].
    unfold if_of in *. by rewrite (o_running _ _ _ _ _ O), (o_if _ _ _ _ _ O).
  - rewrite (o_running _ _ _ _ _ O). destruct Q2 as [thr Hr].
    destruct (decide (running k = t)) as [->|]; [by exists th'|]. exists thr. by apply Hoth.
  - intros u Hu. destruct (decide (u = t)) as [->|Hne]; [exists th'; split; [done|by apply P]|].
    apply (o_r _ _ _ _ _ O u Hne) in Hu. destruct (Q3 u Hu) as (thu & ? & ?).
    exists thu. auto.
  - intros u Hu. destruct (decide (u = t)) as [->|Hne].
    { destruct (p_ready _ _ _ _ P Hu). eauto. }
    apply (o_ready _ _ _ _ _ O u Hne) in Hu. rewrite (o_idle _ _ _ _ _ O).
    destruct (Q5 u Hu) as (? & thu & ? & ?). split; [done|]. exists thu. auto.
  - intros s u Hu. destruct (decide (u = t)) as [->|Hne].
    { destruct (p_wait _ _ _ _ P s Hu) as (? & o & rest & ?). exists th', o, rest. auto. }
    apply (o_wait _ _ _ _ _ O u s Hne) in Hu.
    destruct (Q7 s u Hu) as (thu & o & rest & [? ?] & ?). exists thu, o, rest. auto.
  - intros u Hu. destruct (decide (u = t)) as [->|Hne].
    { destruct (p_destr _ _ _ _ P Hu). eauto. }
    apply (o_destr _ _ _ _ _ O u Hne) in Hu. rewrite (o_init _ _ _ _ _ O).
    destruct (Q9 u Hu) as (? & thu & ? & ?). split; [done|]. exists thu. auto.
  - rewrite (o_idle _ _ _ _ _ O). intros Hi. destruct (Q10 Hi) as (thi & Hti & ?).
    destruct (decide (idle_thread k = t)) as [E|]; [|exists thi; auto].
    exists th'. rewrite E. split; [done|]. apply (p_idle _ _ _ _ P). by rewrite (o_idle _ _ _ _ _ O).
  - rewrite (o_init _ _ _ _ _ O). destruct Q11 as [thr Hr].
    destruct (decide (initial_thread k = t)) as [->|]; [by exists th'|]. exists thr. by apply Hoth.
Qed.

(** Distinct threads, each of weight at least one. *)
Lemma tot_count w l m :
  NoDup l -> (forall t th, m !! t = Some th -> 0 <= fsum w (stack th)) ->
  (forall t, t ∈ l -> exists th, m !! t = Some th /\ 1 <= fsum w (stack th)) ->
  Z.of_nat (length l) <= tot w m.
Proof.
  revert m. induction l as [|t l IH]; intros m Hnd Hnn Hl; [by apply tot_nonneg|].
  apply NoDup_cons in Hnd as [Ht Hnd]. destruct (Hl t) as (th & Hm & Hw); [set_solver|].
  rewrite (tot_delete w m t th Hm). enough (Z.of_nat (length l) <= tot w (delete t m)) by (cbn; lia).
  apply IH; [done| |].
  - intros u thu [_ ?]%lookup_delete_Some. by eapply Hnn.
  - intros u Hu. destruct (Hl u) as (thu & ? & ?); [set_solver|]. exists thu.
    rewrite lookup_delete_ne by (intros ->; done). done.
Qed.

(** Only members of [l] have weight, at most one each. *)
Lemma tot_le_count w l m :
  (forall t th, m !! t = Some th -> fsum w (stack th) <= 1) ->
  (forall t th, m !! t = Some th -> t ∉ l -> fsum w (stack th) <= 0) ->
  tot w m <= Z.of_nat (length l).
Proof.
  revert m. induction l as [|u l IH]; intros m H1 H0.
  - cut (tot w m <= 0); [cbn; lia|]. clear H1.
    induction m as [|t th m Hm _ IH] using map_first_key_ind; [done|].
    rewrite tot_fresh by done.
    pose proof (H0 t th (lookup_insert_eq _ _ _) (not_elem_of_nil _)).
    enough (tot w m <= 0) by lia. apply IH. intros t' th' Ht' _. apply (H0 t'); [|apply not_elem_of_nil].
    rewrite lookup_insert_ne; [done|]. intros ->. by rewrite Hm in Ht'.
  - destruct (m !! u) as [thu|] eqn:Hu.
    + rewrite (tot_delete w m u thu Hu). pose proof (H1 u thu Hu).
      enough (tot w (delete u m) <= Z.of_nat (length l)) by (cbn [length]; lia).
      apply IH; intros t th [Hne Ht]%lookup_delete_Some; [by apply (H1 t)|].
      intros Hn. apply (H0 t th Ht). set_solver.
    + enough (tot w m <= Z.of_nat (length l)) by (cbn [length]; lia). apply IH; [done|].
      intros t th Ht Hn. apply (H0 t th Ht). apply not_elem_of_cons. split; [|done].
      intros ->. by rewrite Hu in Ht.
Qed.

(** The stack of a thread that is not sleeping changes. *)
Definition stack_change_ok (k : kstate) (t : Z) (th : thread) (st' : list frame) : Prop :=
  wf st' /\ (top_off st' = true -> if_of k t th = false) /\
  (t = idle_thread k -> idle_stack st') /\
  (existsb is_idle_frame st' = true -> t = idle_thread k) /\
  match status th with
  | THREAD_RUNNING | THREAD_READY => st' <> []
  | THREAD_BLOCKED => t = idle_thread k \/ st' = stack th
  | THREAD_DYING => dying_stack st'
  end.

Lemma stack_change_id k r t th :
  Queues k r -> threads k !! t = Some th -> stack_change_ok k t th (stack th).
Proof.
  intros Q Ht. destruct (q_thr _ _ Q t th Ht) as [T1 T2 T3 T4 T6 T5].
  split_and!; try done.
  - intros ->. destruct (q_idle _ _ Q T1) as (? & ? & ?). by simplify_eq.
  - unfold status_ok in T5. destruct (status th); tauto.
Qed.

Definition put_stack (t : Z) (st' : list frame) (th : thread) (k : kstate) : kstate :=
  set_threads (<[t := with_stack st' th]> (threads k)) k.

Lemma Queues_put_stack k r t th st' :
  Queues k r -> threads k !! t = Some th -> stack_change_ok k t th st' ->
  Queues (put_stack t st' th k) r.
Proof.
  intros Q Ht (Hwf & Hif & Hidle & Hidle2 & Hst).
  destruct (q_thr _ _ Q t th Ht) as [T1 T2 T3 T4 T6 T5].
  eapply (Queues_upd t k _ r r th); [done|done|done| |].
  { split; try done. split_and!; [apply Q|apply Q|apply Q]. }
  split; unfold put_stack; cbn.
  - split; try done. unfold status_ok, asleep in *. cbn. destruct (status th) eqn:E; cbn; try tauto.
    destruct T5 as [? [?|[Hs|(s & o & rest & Hs & Hw)]]]; split; try done; [tauto| |].
    + destruct Hst as [?|Hst]; [tauto|]. rewrite Hs in Hst. tauto.
    + destruct Hst as [?|Hst]; [tauto|]. rewrite Hs in Hst. subst st'. right. right.
      by exists s, o, rest.
  - intros Hr. destruct (q_ready _ _ Q t Hr) as (? & th2 & E1 & E2). by simplify_eq.
  - intros s Hw. pose proof (idle_not_waiting k r s Q) as Hi.
    destruct (q_wait _ _ Q s t Hw) as (th2 & o & rest & [E1 E2] & E3). simplify_eq.
    rewrite E2 in Hst. split; [done|]. destruct Hst as [->|Hst]; [done|]. rewrite Hst.
    by exists o, rest.
  - intros Hr. destruct (q_destr _ _ Q t Hr) as (? & th2 & E1 & E2). by simplify_eq.
  - intros ->. destruct (q_run _ _ Q t eq_refl) as (th2 & E1 & E2). by simplify_eq.
  - done.
Qed.

(** Other members of a thread structure change. *)
Lemma Queues_relabel k r t th th' :
  Queues k r -> threads k !! t = Some th ->
  status th' = status th -> stack th' = stack th -> magic th' = magic th -> tf_if th' = tf_if th ->
  Queues (set_threads (<[t := th']> (threads k)) k) r.
Proof.
  intros Q Ht E1 E2 E3 E4. destruct (q_thr _ _ Q t th Ht) as [T1 T2 T3 T4 T6 T5].
  eapply (Queues_upd t k _ r r th); [done|done|done| |].
  { split; try done. split_and!; apply Q. }
  split; cbn; rewrite ?E1, ?E2.
  - split; rewrite ?E2; try congruence; [|done|].
    + unfold if_of in *. cbn. by rewrite E4.
    + unfold status_ok, asleep in *. by rewrite E1, E2.
  - intros Hr. destruct (q_ready _ _ Q t Hr) as (? & th2 & ? & ?). by simplify_eq.
  - intros s Hw. destruct (q_wait _ _ Q s t Hw) as (th2 & o & rest & [? ?] & ?). simplify_eq.
    split; [done|]. by exists o, rest.
  - intros Hr. destruct (q_destr _ _ Q t Hr) as (? & th2 & ? & ?). by simplify_eq.
  - intros ->. destruct (q_run _ _ Q t eq_refl) as (th2 & ? & ?). by simplify_eq.
  - intros ->. destruct (q_idle _ _ Q T1) as (th2 & ? & ?). by simplify_eq.
Qed.

(** The idle thread announces itself. *)
Lemma Queues_set_idle k t th st' :
  Queues k (Some t) -> threads k !! t = Some th -> idle_thread k = NULL ->
  wf st' -> top_off st' = false -> idle_stack st' ->
  Queues (put_stack t st' th (set_idle t k)) (Some t).
Proof.
  intros Q Ht Hi Hw Hoff Hist.
  destruct (q_run _ _ Q t eq_refl) as (th2 & E & Hs). rewrite Ht in E. injection E as <-.
  assert (Hoth : forall u thu, threads k !! u = Some thu -> u <> t ->
    <[t := with_stack st' th]> (threads k) !! u = Some thu).
  { intros u thu Hu Hne. by rewrite lookup_insert_ne. }
  pose proof Q as [Q1 Q2 Q3 Q4 Q5 Q6 Q7 Q8 Q9 Q10 Q11]. split; try done; unfold has_status in *; cbn.
  - intros u thu [[<- <-]|[Hne Hu]]%lookup_insert_Some.
    + destruct (Q1 t th Ht) as [T1 T2 T3 T4 T6 T5]. split; try done; cbn; [by rewrite Hoff|].
      unfold status_ok. cbn. rewrite Hs. split; [done|]. by intros ->.
    + destruct (Q1 u thu Hu) as [T1 T2 T3 T4 T6 T5]. split; try done; [intros H; by destruct T1; rewrite T6|].
      unfold status_ok, asleep in *. cbn. rewrite Hi in T5. destruct (status thu); try done.
      * destruct T5 as (? & ? & [?|?]); [tauto|done].
      * destruct T5 as (? & [?|?]); [done|tauto].
      * destruct T5 as (? & ? & ? & [?|[?|[? ?]]]); [| |done]; split_and!; try done; tauto.
  - destruct Q2 as [thr Hr]. destruct (decide (running k = t)) as [->|]; [|eauto].
    eexists. by rewrite lookup_insert_eq.
  - intros u [= <-]. eexists. by rewrite lookup_insert_eq.
  - intros u Hu. destruct (Q5 u Hu) as (? & thu & ? & ?).
    assert (u <> t) by (intros ->; congruence). split; [done|]. exists thu. auto.
  - intros s u Hu. destruct (Q7 s u Hu) as (thu & o & rest & [? ?] & ?).
    assert (u <> t) by (intros ->; congruence). exists thu, o, rest. auto.
  - intros u Hu. destruct (Q9 u Hu) as (? & thu & ? & ?).
    assert (u <> t) by (intros ->; congruence). split; [done|]. exists thu. auto.
  - intros _. eexists. by rewrite lookup_insert_eq.
  - destruct Q11 as [thr Hr]. destruct (decide (initial_thread k = t)) as [->|]; [|eauto].
    eexists. by rewrite lookup_insert_eq.
Qed.

(** ** Giving up the processor *)

Definition put_status (t : Z) (st : thread_status) (th : thread) (k : kstate) : kstate :=
  set_threads (<[t := with_status st th]> (threads k)) k.

Lemma run_th k t : Queues k (Some t) ->
  exists th, threads k !! t = Some th /\ status th = THREAD_RUNNING /\ thread_ok k (Some t) t th.
Proof.
  intros Q. destruct (q_run _ _ Q t eq_refl) as (th & Ht & Hs). exists th.
  split_and!; try done. by apply Q.
Qed.

Lemma running_not_queued k t :
  Queues k (Some t) ->
  t ∉ ready_list k /\ t ∉ destruction_req k /\ forall s, t ∉ wl k s.
Proof.
  intros Q. destruct (run_th k t Q) as (th & Ht & Hs & _). split_and!.
  - intros (_ & th' & H1 & H2)%(q_ready _ _ Q). congruence.
  - intros (_ & th' & H1 & H2)%(q_destr _ _ Q). congruence.
  - intros s (th' & o & rest & [H1 H2] & _)%(q_wait _ _ Q). congruence.
Qed.

Ltac only_tac Q := split; cbn; try done;
  [ .. | split_and!; try (by apply Q); try (intros ?; by apply Q) ].

(** [thread_yield]: to the back of the run queue, except the idle thread. *)
Lemma Queues_yield k th :
  let t := running k in
  Queues k (Some t) -> threads k !! t = Some th ->
  Queues (put_status t THREAD_READY th
            (if t =? idle_thread k then k else set_ready (ready_list k ++ [t]) k)) None.
Proof.
  intros t Q Ht. destruct (run_th k t Q) as (th2 & Ht2 & Hs & [T1 T2 T3 T4 T6 T5]). simplify_eq.
  destruct (running_not_queued k t Q) as (N1 & N2 & N3). unfold status_ok in T5.
  rewrite Hs in T5. destruct (Z.eqb_spec t (idle_thread k)) as [Ei|Ei].
  - eapply (Queues_upd t k _ (Some t) None th); [done|done|done| |].
    + split; try done; [|by split_and!; apply Q]. split; [done|]. intros ?. simplify_eq.
    + split; cbn; try done; [split; try done; unfold status_ok; cbn; split; [done|tauto]|
        intros s Hw; by destruct (N3 s)|].
      intros _. destruct (q_idle _ _ Q) as (thi & E1 & E2); [by rewrite <- Ei|].
      rewrite <- Ei in E1. by simplify_eq.
  - eapply (Queues_upd t k _ (Some t) None th); [done|done|done| |].
    + split; try done; cbn; [intros; set_solver|split; [done|]; intros ?; simplify_eq|].
      split_and!; [|apply Q|apply Q]. apply NoDup_app. split_and!; [apply Q| |apply NoDup_singleton].
      set_solver.
    + split; cbn; try done; [|intros s Hw; by destruct (N3 s)].
      split; try done. unfold status_ok. cbn. split_and!; [done|tauto|left; set_solver].
Qed.

(** [sema_down]: to the back of the semaphore's queue. *)
Lemma Queues_block k th s old rest sm :
  let t := running k in
  Queues k (Some t) -> threads k !! t = Some th ->
  stack th = F_sema_down_loop s old :: rest -> semas k !! s = Some sm ->
  Queues (put_status t THREAD_BLOCKED th
            (set_semas (<[s := Semaphore (value sm) (waiters sm ++ [t])]> (semas k)) k)) None.
Proof.
  intros t Q Ht Hst Hsm. destruct (run_th k t Q) as (th2 & Ht2 & Hs & [T1 T2 T3 T4 T6 T5]). simplify_eq.
  destruct (running_not_queued k t Q) as (N1 & N2 & N3).
  assert (Hni : t <> idle_thread k).
  { intros E. destruct (q_idle _ _ Q) as (thi & E1 & E2); [by rewrite <- E|].
    rewrite <- E in E1. simplify_eq. by rewrite Hst in E2. }
  assert (Hwl : forall s', wl (set_semas (<[s := Semaphore (value sm) (waiters sm ++ [t])]> (semas k)) k) s'
            = if decide (s = s') then wl k s ++ [t] else wl k s').
  { intros s'. unfold wl. cbn. destruct (decide (s = s')) as [<-|].
    - by rewrite lookup_insert_eq, Hsm.
    - by rewrite lookup_insert_ne. }
  eapply (Queues_upd t k _ (Some t) None th); [done|done|done| |].
  - split; try done; cbn; [| |].
    + intros u s' Hu. change (wl (put_status _ _ _ ?k') s') with (wl k' s'). rewrite Hwl.
      case_decide; [subst; set_solver|done].
    + split; [done|]. intros ?. simplify_eq.
    + split_and!; [apply Q|apply Q|]. intros s'.
      change (wl (put_status _ _ _ ?k') s') with (wl k' s'). rewrite Hwl.
      case_decide; [|apply Q]. apply NoDup_app. split_and!; [apply Q| |apply NoDup_singleton].
      intros x Hx ->%list_elem_of_singleton. by apply (N3 s).
  - split; cbn; try done.
    + split; try done. unfold status_ok. cbn. split; [done|]. right. right.
      exists s, old, rest. split; [done|]. change (wl (put_status _ _ _ ?k') s) with (wl k' s).
      rewrite Hwl. rewrite decide_True by done. set_solver.
    + intros s'. change (wl (put_status _ _ _ ?k') s') with (wl k' s'). rewrite Hwl.
      case_decide; [subst; eauto|]. intros ?. by destruct (N3 s').
Qed.

Lemma Queues_block_idle k th :
  let t := running k in
  Queues k (Some t) -> threads k !! t = Some th -> t = idle_thread k ->
  Queues (put_status t THREAD_BLOCKED th k) None.
Proof.
  intros t Q Ht Ei. destruct (run_th k t Q) as (th2 & Ht2 & Hs & [T1 T2 T3 T4 T6 T5]).
  rewrite Ht in Ht2. injection Ht2 as <-.
  destruct (running_not_queued k t Q) as (N1 & N2 & N3).
  eapply (Queues_upd t k _ (Some t) None th); [done|done|done| |].
  - split; try done; [|by split_and!; apply Q]. split; [done|]. by intros [= ?].
  - split; cbn; try done; [split; try done; unfold status_ok; cbn; split; [done|tauto]|
      intros s Hw; by destruct (N3 s)|].
    intros _. destruct (q_idle _ _ Q) as (thi & E1 & E2); [by rewrite <- Ei|].
    rewrite <- Ei in E1. rewrite Ht in E1. by injection E1 as <-.
Qed.

(** [thread_exit]. *)
Lemma Queues_exit k th rest :
  let t := running k in
  Queues k (Some t) -> threads k !! t = Some th -> stack th = F_thread_exit :: rest ->
  Queues (put_status t THREAD_DYING th k) None.
Proof.
  intros t Q Ht Hst. destruct (run_th k t Q) as (th2 & Ht2 & Hs & [T1 T2 T3 T4 T6 T5]). simplify_eq.
  destruct (running_not_queued k t Q) as (N1 & N2 & N3).
  assert (Hni : t <> idle_thread k).
  { intros E. destruct (q_idle _ _ Q) as (thi & E1 & E2); [by rewrite <- E|].
    rewrite <- E in E1. simplify_eq. by rewrite Hst in E2. }
  pose proof T3 as T3'. rewrite Hst in T3'. destruct T3' as (Hd & _ & _).
  eapply (Queues_upd t k _ (Some t) None th); [done|done|done| |].
  - split; try done; [|by split_and!; apply Q]. split; [done|]. intros ?. simplify_eq.
  - split; cbn; try done; [|intros s Hw; by destruct (N3 s)].
    split; try done. unfold status_ok. cbn. split_and!; try done; [|tauto].
    right. by exists rest.
Qed.

(** ** Waking up, creating, destroying *)

(** A blocked thread [t], taken off the wait queues, joins the run queue. *)
Lemma Queues_make_ready k r t th th' sems' :
  Queues k r -> has_status k t THREAD_BLOCKED th -> t <> idle_thread k ->
  status th' = THREAD_READY -> magic th' = THREAD_MAGIC -> wf (stack th') -> stack th' <> [] ->
  existsb is_idle_frame (stack th') = false ->
  (top_off (stack th') = true -> if_of k t th' = false) ->
  (forall s, NoDup (wl (set_semas sems' k) s)) ->
  (forall s u, u ∈ wl (set_semas sems' k) s <-> u ∈ wl k s /\ u <> t) ->
  Queues (set_threads (<[t := th']> (threads k))
            (set_ready (ready_list k ++ [t]) (set_semas sems' k))) r.
Proof.
  intros Q [Ht Hs] Hi Hs' Hm Hw Hne Hnif Hif Hnd Hwl.
  destruct (q_thr _ _ Q t th Ht) as [T1 T2 T3 T4 T6 T5]. unfold status_ok in T5. rewrite Hs in T5.
  assert (N1 : t ∉ ready_list k). { intros (_ & th2 & H1 & H2)%(q_ready _ _ Q). congruence. }
  assert (N2 : t ∉ destruction_req k). { intros (_ & th2 & H1 & H2)%(q_destr _ _ Q). congruence. }
  eapply (Queues_upd t k _ r r th); [done|done|done| |].
  - split; try done; cbn.
    + set_solver.
    + intros u s Hu. change (wl (set_threads _ (set_ready _ ?k')) s) with (wl k' s).
      rewrite Hwl. tauto.
    + split_and!; [|apply Q|apply Hnd].
      apply NoDup_app. split_and!; [apply Q|set_solver|apply NoDup_singleton].
  - split; cbn; try done.
    + split; try done; [by rewrite Hnif|]. unfold status_ok. rewrite Hs'. cbn.
      split_and!; [tauto|done|set_solver].
    + intros s. change (wl (set_threads _ (set_ready _ ?k')) s) with (wl k' s).
      rewrite Hwl. tauto.
    + intros ->. tauto.
Qed.

Lemma wl_insert k s sm s' :
  wl (set_semas (<[s := sm]> (semas k)) k) s' = if decide (s = s') then waiters sm else wl k s'.
Proof.
  unfold wl. cbn. case_decide as E; [subst; by rewrite lookup_insert_eq|].
  by rewrite lookup_insert_ne.
Qed.

(** [sema_up] wakes the first waiter. *)
Lemma Queues_wake k r s v t ws th :
  Queues k r -> wl k s = t :: ws -> threads k !! t = Some th ->
  Queues (put_status t THREAD_READY th
            (set_ready (ready_list k ++ [t])
               (set_semas (<[s := Semaphore v ws]> (semas k)) k))) r.
Proof.
  intros Q Hw Ht. assert (Hin : t ∈ wl k s) by (rewrite Hw; set_solver).
  destruct (q_wait _ _ Q s t Hin) as (th2 & o & rest & [E1 E2] & E3). simplify_eq.
  destruct (q_thr _ _ Q t th Ht) as [T1 T2 T3 T4 T6 T5].
  pose proof (q_wait_nd _ _ Q s) as Hnd. rewrite Hw in Hnd. apply NoDup_cons in Hnd as [Hn Hnd].
  apply (Queues_make_ready k r t th (with_status THREAD_READY th)); try done.
  - intros Ei. apply (idle_not_waiting k r s Q). by rewrite <- Ei.
  - cbn. by rewrite E3.
  - cbn. destruct (existsb _ _) eqn:Ex; [|done]. specialize (T6 eq_refl). exfalso.
    apply (idle_not_waiting k r s Q). by rewrite <- T6.
  - intros s'. rewrite wl_insert. case_decide; [done|]. apply Q.
  - intros s' u. rewrite wl_insert. case_decide as E; [subst|].
    + cbn. rewrite Hw, elem_of_cons. split; [intros ?; split; [tauto|by intros ->]|].
      intros [[?|?] ?]; done.
    + split; [|tauto]. intros Hu. split; [done|]. intros ->. apply E. by eapply q_wait_unique.
Qed.

(** The end of [thread_create]. *)
Lemma Queues_start k r t th th' :
  Queues k r -> has_status k t THREAD_BLOCKED th -> stack th = [] ->
  status th' = THREAD_READY -> magic th' = THREAD_MAGIC ->
  (exists fn, stack th' = [F_kernel_thread fn]) ->
  Queues (set_threads (<[t := th']> (threads k)) (set_ready (ready_list k ++ [t]) k)) r.
Proof.
  intros Q [Ht Hs] Hst Hs' Hm [fn Hfn].
  apply (Queues_make_ready k r t th th' (semas k)); try done; try (by rewrite Hfn).
  - intros ->. destruct (q_idle _ _ Q) as (th2 & E1 & E2).
    { by apply (t_null _ _ _ _ (q_thr _ _ Q _ _ Ht)). }
    simplify_eq. by rewrite Hst in E2.
  - apply Q.
  - intros s u. change (wl (set_semas (semas k) k) s) with (wl k s).
    split; [|tauto]. intros Hu. split; [done|]. intros ->.
    destruct (q_wait _ _ Q s t Hu) as (th2 & o & rest & [E1 E2] & E3). simplify_eq. by rewrite Hst in E3.
Qed.

(** [init_thread] on a new page. *)
Lemma Queues_new k r t th :
  Queues k r -> threads k !! t = None -> t <> NULL ->
  status th = THREAD_BLOCKED -> stack th = [] -> magic th = THREAD_MAGIC ->
  r <> Some t ->
  Queues (set_threads (<[t := th]> (threads k)) k) r.
Proof.
  intros Q Hn H0 Hs Hst Hm Hr.
  assert (Hoth : forall u thu, threads k !! u = Some thu -> <[t := th]> (threads k) !! u = Some thu).
  { intros u thu Hu. rewrite lookup_insert_ne; [done|]. intros ->. by rewrite Hn in Hu. }
  destruct Q as [Q1 Q2 Q3 Q4 Q5 Q6 Q7 Q8 Q9 Q10 Q11]. split; try done; unfold has_status in *; cbn.
  - intros u thu [[-> <-]|[Hne Hu]]%lookup_insert_Some; [|by destruct (Q1 u thu Hu)].
    split; try done; try (by rewrite Hst). unfold status_ok. rewrite Hs. split; [done|tauto].
  - destruct Q2 as [thr ?]. eauto.
  - intros u Hu. destruct (Q3 u Hu) as (thu & ? & ?). eauto.
  - intros u Hu. destruct (Q5 u Hu) as (? & thu & ? & ?). eauto.
  - intros s u Hu. destruct (Q7 s u Hu) as (thu & o & rest & [? ?] & ?). exists thu, o, rest. auto.
  - intros u Hu. destruct (Q9 u Hu) as (? & thu & ? & ?). eauto.
  - intros Hi. destruct (Q10 Hi) as (thi & ? & ?). eauto.
  - destruct Q11 as [thr ?]. eauto.
Qed.

Lemma lookup_destroy l m t :
  destroy l m !! t = if decide (t ∈ l) then None else m !! t.
Proof.
  revert m. induction l as [|v l IH]; intros m; simpl; [done|]. rewrite IH.
  destruct (decide (t = v)) as [->|].
  - rewrite lookup_delete_eq. repeat case_decide; set_solver.
  - rewrite lookup_delete_ne by done. repeat case_decide; set_solver.
Qed.

(** The thread pages freed by [do_schedule] are on no queue. *)
Lemma Queues_destroy k t :
  Queues k (Some t) -> running k = t ->
  Queues (set_destruction [] (set_threads (destroy (destruction_req k) (threads k)) k)) (Some t).
Proof.
  intros Q Hr. destruct (running_not_queued k t Q) as (N1 & N2 & N3).
  assert (Hoth : forall u thu, threads k !! u = Some thu -> status thu <> THREAD_DYING ->
            destroy (destruction_req k) (threads k) !! u = Some thu).
  { intros u thu Hu Hs. rewrite lookup_destroy. case_decide as E; [|done].
    apply (q_destr _ _ Q) in E as (_ & th2 & E1 & E2). congruence. }
  destruct (run_th k t Q) as (th & Ht & Hs & _).
  pose proof Q as [Q1 Q2 Q3 Q4 Q5 Q6 Q7 Q8 Q9 Q10 Q11]. split; unfold has_status in *; cbn; try done.
  - intros u thu Hu. rewrite lookup_destroy in Hu. case_decide as E; [done|].
    destruct (Q1 u thu Hu) as [T1 T2 T3 T4 T6 T5]. split; try done.
    unfold status_ok in *. destruct (status thu); try done. cbn in *. tauto.
  - rewrite Hr. exists th. apply Hoth; congruence.
  - intros u Hu. simplify_eq. exists th. split; [|done]. apply Hoth; congruence.
  - intros u Hu. destruct (Q5 u Hu) as (? & thu & ? & ?). split; [done|]. exists thu.
    split; [|done]. apply Hoth; congruence.
  - intros s u Hu. destruct (Q7 s u Hu) as (thu & o & rest & [? ?] & ?). exists thu, o, rest.
    split_and!; try done. apply Hoth; congruence.
  - constructor.
  - set_solver.
  - intros Hi. destruct (Q10 Hi) as (thi & Hti & ?). exists thi. split; [|done]. apply Hoth; [done|].
    intros E. destruct (Q1 _ _ Hti) as [_ _ _ _ _ T5]. unfold status_ok in T5. rewrite E in T5. tauto.
  - destruct Q11 as [thr Hi]. exists thr. rewrite lookup_destroy. case_decide as E; [|done].
    by destruct (Q9 _ E).
Qed.

(** ** Choosing the next thread *)

(** The dying thread is queued for destruction. *)
Definition reap (k : kstate) (st : thread_status) : kstate :=
  if bool_decide (st = THREAD_DYING) && negb (running k =? initial_thread k)
  then set_destruction (destruction_req k ++ [running k]) k else k.

Lemma Queues_reap k th :
  Queues k None -> threads k !! running k = Some th -> running k ∉ destruction_req k ->
  Queues (reap k (status th)) None.
Proof.
  intros Q Ht Hn. unfold reap. case_bool_decide as Hs; [|done].
  destruct (Z.eqb_spec (running k) (initial_thread k)) as [|Hi]; [done|]. cbn.
  destruct (q_thr _ _ Q _ th Ht) as [T1 T2 T3 T4 T6 T5]. unfold status_ok in T5. rewrite Hs in T5.
  eapply (Queues_upd (running k) k _ None None th th); [done|done| | |].
  - cbn. by rewrite insert_id.
  - split; try done; cbn; [set_solver|]. split_and!; [apply Q| |apply Q].
    apply NoDup_app. split_and!; [apply Q|set_solver|apply NoDup_singleton].
  - split; cbn; try done.
    + split; try done. unfold status_ok. rewrite Hs. cbn. split_and!; tauto.
    + intros (_ & th2 & E1 & E2)%(q_ready _ _ Q). congruence.
    + intros s (th2 & o & r & [E1 E2] & _)%(q_wait _ _ Q). congruence.
    + tauto.
Qed.

(** [next] comes from the head of the run queue, or is the idle thread. *)
Definition picks (k : kstate) (next : Z) (l : list Z) : Prop :=
  ready_list k = next :: l \/
  (ready_list k = [] /\ l = [] /\ next = idle_thread k /\ idle_thread k <> NULL).

Lemma picks_thread k next l :
  Queues k None -> picks k next l ->
  exists nth, threads k !! next = Some nth /\ stack nth <> [] /\ status nth <> THREAD_DYING /\
    next <> NULL /\ magic nth = THREAD_MAGIC /\ (forall s, next ∉ wl k s).
Proof.
  intros Q [Hr|(Hr & -> & -> & Hi)].
  - destruct (q_ready _ _ Q next) as (_ & nth & Ht & Hs); [rewrite Hr; set_solver|].
    destruct (q_thr _ _ Q _ nth Ht) as [T1 T2 T3 T4 T6 T5]. unfold status_ok in T5. rewrite Hs in T5.
    exists nth. split_and!; try done; [tauto|congruence|].
    intros s (th2 & o & r & [E1 E2] & _)%(q_wait _ _ Q). congruence.
  - destruct (q_idle _ _ Q Hi) as (nth & Ht & Hst). exists nth.
    destruct (q_thr _ _ Q _ nth Ht) as [T1 T2 T3 T4 T6 T5]. unfold status_ok in T5.
    split_and!; try done; [intros E; by rewrite E in Hst|intros E; rewrite E in T5; tauto|].
    intros s. by apply (idle_not_waiting _ None).
Qed.

Lemma Queues_dispatch k next nth l cth :
  Queues k None -> picks k next l -> threads k !! next = Some nth ->
  threads k !! running k = Some cth ->
  (status cth = THREAD_DYING -> running k ∈ destruction_req k \/ running k = initial_thread k) ->
  Queues (put_status next THREAD_RUNNING nth (set_ready l k)) (Some next).
Proof.
  intros Q P Ht Hc Hd. destruct (picks_thread k next l Q P) as (n2 & E & Hne & Hnd & H0 & Hm & Hw).
  rewrite Ht in E. injection E as <-.
  pose proof (q_ready_nd _ _ Q) as Hrd.
  destruct (q_thr _ _ Q _ nth Ht) as [T1 T2 T3 T4 T6 T5].
  assert (Hl : next ∉ l /\ NoDup l /\ forall u, u <> next -> (u ∈ l <-> u ∈ ready_list k)).
  { destruct P as [Hr|(Hr & -> & _)]; rewrite Hr in *.
    - apply NoDup_cons in Hrd as [? ?]. split_and!; try done.
      intros u Hu. rewrite elem_of_cons. tauto.
    - split_and!; [apply not_elem_of_nil|constructor|done]. }
  destruct Hl as (Hl1 & Hl2 & Hl3).
  eapply (Queues_upd next k _ None (Some next) nth); [done|done|done| |].
  - split; try done; cbn.
    + intros u Hu. split; [intros [= ->]; done|done].
    + intros th2 _ _ ? ? ? ?. simplify_eq. tauto.
    + split_and!; [done|apply Q|apply Q].
  - split; cbn; try done.
    + intros s Hin. by destruct (Hw s).
    + intros (_ & th2 & E1 & E2)%(q_destr _ _ Q). congruence.
    + intros Ei. subst next. destruct (q_idle _ _ Q H0) as (? & ? & ?). by simplify_eq.
Qed.

Definition launched (next : Z) (nth cth : thread) (k : kstate) : kstate :=
  set_if (tf_if nth) (set_running next
    (set_threads (<[running k := with_tf_if false cth]> (threads k)) k)).

Lemma Queues_launch k next nth cth :
  Queues k (Some next) -> threads k !! next = Some nth -> threads k !! running k = Some cth ->
  running k <> next -> if_flag k = false -> Queues (launched next nth cth k) (Some next).
Proof.
  intros Q Hn Hc Hne Hif.
  assert (Hoth : forall u thu, threads k !! u = Some thu -> exists th',
    threads (launched next nth cth k) !! u = Some th' /\ status th' = status thu /\
    stack th' = stack thu).
  { intros u thu Hu. unfold launched. cbn. destruct (decide (u = running k)) as [->|].
    - rewrite lookup_insert_eq. simplify_eq. by eexists.
    - rewrite lookup_insert_ne by done. eauto. }
  pose proof Q as [Q1 Q2 Q3 Q4 Q5 Q6 Q7 Q8 Q9 Q10 Q11].
  split; try done; unfold has_status in *.
  - intros u thu Hu. unfold launched in Hu. cbn in Hu.
    assert (exists th0, threads k !! u = Some th0 /\ stack thu = stack th0 /\
      magic thu = magic th0 /\ status thu = status th0 /\
      tf_if thu = (if u =? running k then false else tf_if th0)) as (th0 & H0 & E1 & E2 & E3 & E4).
    { destruct (Z.eqb_spec u (running k)) as [->|].
      - rewrite lookup_insert_eq in Hu. simplify_eq. by exists cth.
      - rewrite lookup_insert_ne in Hu by done. by exists thu. }
    destruct (Q1 u th0 H0) as [T1 T2 T3 T4 T6 T5]. split; try congruence.
    + rewrite E1. intros Hl. unfold if_of in *. cbn. specialize (T4 Hl).
      destruct (Z.eqb_spec u next) as [->|].
      * simplify_eq. destruct (Z.eqb_spec next (running k)); congruence.
      * rewrite E4. destruct (Z.eqb_spec u (running k)); congruence.
    + by rewrite E1.
    + unfold status_ok, asleep in *. rewrite E1, E3. cbn. destruct (status th0); try done.
      destruct T5 as (? & ? & ? & [?|[?|[? ?]]]); try done; tauto.
  - destruct (Hoth next nth Hn) as (? & ? & _). by eexists.
  - intros u Hu. destruct (Q3 u Hu) as (thu & Hu' & ?). destruct (Hoth u thu Hu') as (? & ? & ? & ?).
    eexists; split; [done|congruence].
  - intros u Hu. destruct (Q5 u Hu) as (? & thu & Hu' & ?). split; [done|].
    destruct (Hoth u thu Hu') as (? & ? & ? & ?). eexists; split; [done|congruence].
  - intros s u Hu. destruct (Q7 s u Hu) as (thu & o & r & [Hu' ?] & ?).
    destruct (Hoth u thu Hu') as (th' & ? & ? & ?). exists th', o, r. split_and!; congruence.
  - intros u Hu. destruct (Q9 u Hu) as (? & thu & Hu' & ?). split; [done|].
    destruct (Hoth u thu Hu') as (? & ? & ? & ?). eexists; split; [done|congruence].
  - intros Hi. destruct (Q10 Hi) as (thi & Hi' & ?).
    destruct (Hoth _ _ Hi') as (th' & ? & ? & ?). exists th'. split; [done|congruence].
  - destruct Q11 as [thr Hi]. destruct (Hoth _ _ Hi) as (th' & ? & _). by exists th'.
Qed.

(** ** schedule, thread_block, do_schedule *)

Record same_objs (k k' : kstate) : Prop := {
  so_semas : semas k' = semas k;
  so_holders : holders k' = holders k;
  so_conds : conds k' = conds k;
  so_ext : in_external_intr k' = in_external_intr k;
  so_idle : idle_thread k' = idle_thread k;
  so_init : initial_thread k' = initial_thread k;
  so_tid : next_tid k' = next_tid k;
  so_ticks : ticks k' = ticks k
}.

(** Stacks are kept, and so is the status of every thread but the one that
    was chosen to run. *)
Record same_stacks (k k' : kstate) : Prop := {
  ss_stack t : stack <$> threads k' !! t = stack <$> threads k !! t;
  ss_status t : t <> running k' -> status <$> threads k' !! t = status <$> threads k !! t
}.

Lemma tot_map_fold w m :
  tot w m = map_fold (fun _ st a => fsum w st + a) 0 (stack <$> m).
Proof. unfold tot. by rewrite map_fold_fmap. Qed.

Lemma tot_same w m m' :
  (forall t, stack <$> m' !! t = stack <$> m !! t) -> tot w m' = tot w m.
Proof.
  intros H. rewrite !tot_map_fold. f_equal. apply map_eq. intros t. rewrite !lookup_fmap. apply H.
Qed.

Lemma is_thread_run k t th :
  threads k !! t = Some th -> t <> NULL -> magic th = THREAD_MAGIC ->
  is_thread t k = Ok (true, k).
Proof.
  intros Ht H0 Hm. unfold is_thread. destruct (Z.eqb_spec t NULL); [done|].
  erewrite bind_ok; [|unfold load_thread; by rewrite Ht]. by rewrite Hm.
Qed.

Lemma load_thread_run k t th : threads k !! t = Some th -> load_thread t k = Ok (th, k).
Proof. unfold load_thread. by intros ->. Qed.

Lemma store_thread_run k t th f :
  threads k !! t = Some th ->
  store_thread t f k = Ok (tt, set_threads (<[t := f th]> (threads k)) k).
Proof. unfold store_thread. by intros ->. Qed.

(** The running thread's structure as the sanity checks of
    [thread_current] want it. *)
Definition sane (k : kstate) (th : thread) : Prop :=
  threads k !! running k = Some th /\ status th = THREAD_RUNNING /\
  running k <> NULL /\ magic th = THREAD_MAGIC.

Lemma thread_current_run k th : sane k th -> thread_current k = Ok (running k, k).
Proof.
  intros (Ht & Hs & H0 & Hm). unfold thread_current, running_thread.
  mnorm. mstep (is_thread_run _ _ _ Ht H0 Hm).
  mstep (load_thread_run _ _ _ Ht). rewrite bool_decide_eq_true_2 by done. by mnorm.
Qed.

Lemma Queues_sane k : Queues k (Some (running k)) -> exists th, sane k th.
Proof.
  intros Q. destruct (run_th _ _ Q) as (th & Ht & Hs & T). exists th.
  split_and!; try done; apply T.
Qed.

Lemma next_thread_run k next l :
  picks k next l -> next_thread_to_run k = Ok (next, set_ready l k).
Proof.
  unfold next_thread_to_run. mnorm. intros [->|(E & -> & -> & _)]; [done|].
  rewrite E. unfold ret. repeat f_equal. destruct k; cbn in *. by rewrite E.
Qed.

(** The state [schedule] ends in. *)
Definition scheduled (k : kstate) (next : Z) (l : list Z) (nth cth : thread) : kstate :=
  let k1 := put_status next THREAD_RUNNING nth (set_ready l k) in
  let k2 := set_ticks 0 (idle_ticks k1) (kernel_ticks k1) (ticks k1) k1 in
  if running k =? next then k2 else launched next nth cth (reap k2 (status cth)).

Lemma schedule_run k next l nth cth :
  Queues k None -> if_flag k = false -> picks k next l ->
  threads k !! next = Some nth -> threads k !! running k = Some cth ->
  status cth <> THREAD_RUNNING ->
  schedule k = Ok (tt, scheduled k next l nth cth).
Proof.
  intros Q Hif P Hn Hc Hs.
  destruct (picks_thread k next l Q P) as (n2 & E & _ & _ & H0 & Hm & _).
  rewrite Hn in E. injection E as <-.
  unfold schedule, running_thread, intr_get_level. mnorm. mstep (next_thread_run _ _ _ P).
  cbn [if_flag set_ready]. rewrite Hif. cbn [negb]. mnorm.
  mstep (load_thread_run (set_ready l k) _ _ Hc). rewrite bool_decide_eq_false_2 by done.
  cbn [negb]. mnorm. mstep (is_thread_run (set_ready l k) _ _ Hn H0 Hm).
  mstep (store_thread_run (set_ready l k) next nth (with_status THREAD_RUNNING) Hn).
  unfold scheduled.
  destruct (Z.eqb_spec (running k) next) as [E|Hne]; [done|].
  set (k2 := set_ticks _ _ _ _ _).
  assert (Hc2 : threads k2 !! running k = Some cth) by (cbn; by rewrite lookup_insert_ne).
  mstep (load_thread_run k2 _ _ Hc2).
  destruct (Z.eqb_spec (running k) next); [done|]. cbn [negb]. unfold reap.
  assert (Hfin : forall k3, threads k3 = threads k2 -> running k3 = running k2 -> if_flag k3 = false ->
    thread_launch next k3 = Ok (tt, launched next nth cth k3)).
  { intros k3 E1 E2 E3. unfold thread_launch, running_thread, intr_get_level. mnorm. rewrite E3.
    cbn [negb]. mnorm. mstep (store_thread_run k3 (running k3) cth (with_tf_if false)
      ltac:(by rewrite E1, E2)).
    set (k4 := set_threads _ _).
    assert (Hn4 : threads k4 !! next = Some (with_status THREAD_RUNNING nth)).
    { cbn. rewrite E1, E2. cbn. rewrite lookup_insert_ne by done. by rewrite lookup_insert_eq. }
    by mstep (load_thread_run k4 _ _ Hn4). }
  change (running k2) with (running k). change (initial_thread k2) with (initial_thread k).
  unfold bind at 1. destruct (_ && _); mnorm; cbn [rbind]; by apply Hfin.
Qed.

Lemma reap_objs k st :
  threads (reap k st) = threads k /\ running (reap k st) = running k /\
  ready_list (reap k st) = ready_list k /\ idle_thread (reap k st) = idle_thread k /\
  initial_thread (reap k st) = initial_thread k /\ same_objs k (reap k st).
Proof. unfold reap. by destruct (_ && _). Qed.

Lemma reap_dying k th :
  status th = THREAD_DYING ->
  running k ∈ destruction_req (reap k (status th)) \/ running k = initial_thread k.
Proof.
  intros E. unfold reap. rewrite bool_decide_eq_true_2 by done.
  destruct (Z.eqb_spec (running k) (initial_thread k)); [tauto|]. left. cbn. set_solver.
Qed.

Lemma Queues_scheduled k next l nth cth :
  Queues k None -> if_flag k = false -> picks k next l -> running k ∉ destruction_req k ->
  threads k !! next = Some nth -> threads k !! running k = Some cth ->
  Queues (scheduled k next l nth cth) (Some next).
Proof.
  intros Q Hif P Hnd Hn Hc.
  pose proof (Queues_reap k cth Q Hc Hnd) as Q1.
  destruct (reap_objs k (status cth)) as (R1 & R2 & R3 & R4 & R5 & _).
  assert (Q2 : Queues (put_status next THREAD_RUNNING nth (set_ready l (reap k (status cth)))) (Some next)).
  { apply (Queues_dispatch _ _ _ _ cth); try done; rewrite ?R1, ?R2, ?R5; try done.
    - unfold picks. by rewrite R3, R4.
    - apply reap_dying. }
  set (k1 := put_status next THREAD_RUNNING nth (set_ready l k)).
  set (k2 := set_ticks 0 (idle_ticks k1) (kernel_ticks k1) (ticks k1) k1).
  assert (Q3 : Queues (reap k2 (status cth)) (Some next)).
  { eapply Queues_ext; [exact Q2|..]; unfold reap; cbn; try by destruct (_ && _). }
  unfold scheduled. fold k1. fold k2. destruct (Z.eqb_spec (running k) next) as [E|Hne].
  - destruct (picks_thread k next l Q P) as (n2 & E2 & _ & Hs & _).
    unfold reap in Q3. rewrite bool_decide_eq_false_2 in Q3 by congruence. exact Q3.
  - destruct (reap_objs k2 (status cth)) as (S1 & S2 & _).
    apply (Queues_launch _ next (with_status THREAD_RUNNING nth) cth);
      [done| | |by rewrite S2|unfold reap; by destruct (_ && _)]; rewrite S1; cbn.
    + by rewrite lookup_insert_eq.
    + rewrite S2. cbn. by rewrite lookup_insert_ne.
Qed.

Lemma scheduled_frame k next l nth cth :
  threads k !! next = Some nth -> threads k !! running k = Some cth ->
  let k' := scheduled k next l nth cth in
  running k' = next /\ same_objs k k' /\ same_stacks k k'.
Proof.
  intros Hn Hc. cbn zeta. unfold scheduled.
  set (k1 := put_status next THREAD_RUNNING nth (set_ready l k)).
  set (k2 := set_ticks 0 (idle_ticks k1) (kernel_ticks k1) (ticks k1) k1).
  assert (Hst : forall t, stack <$> threads k2 !! t = stack <$> threads k !! t).
  { intros t. cbn. destruct (decide (t = next)) as [->|].
    - by rewrite lookup_insert_eq, Hn.
    - by rewrite lookup_insert_ne. }
  assert (Hss : forall t, t <> next -> status <$> threads k2 !! t = status <$> threads k !! t).
  { intros t Ht. cbn. by rewrite lookup_insert_ne. }
  destruct (Z.eqb_spec (running k) next) as [E|Hne]; [split_and!; [done|by split|]|].
  { split; [done|]. intros t Ht. apply Hss. rewrite <- E. exact Ht. }
  destruct (reap_objs k2 (status cth)) as (S1 & S2 & _ & _ & _ & [E1 E2 E3 E4 E5 E6 E7 E8]).
  split_and!; [done|by split|]. unfold launched. split; cbn.
  all: intros t; rewrite S1, S2; cbn; destruct (decide (t = running k)) as [->|Ht].
  - rewrite lookup_insert_eq. by rewrite Hc.
  - rewrite lookup_insert_ne by done. apply Hst.
  - intros _. rewrite lookup_insert_eq. by rewrite Hc.
  - rewrite lookup_insert_ne by done. apply Hss.
Qed.

(** There is something to run. *)
Definition can_run (k : kstate) : Prop := ready_list k <> [] \/ idle_thread k <> NULL.

Lemma schedule_spec k :
  Queues k None -> if_flag k = false -> running k ∉ destruction_req k -> can_run k ->
  exists k', schedule k = Ok (tt, k') /\ Queues k' (Some (running k')) /\
    same_objs k k' /\ same_stacks k k' /\
    (forall th, threads k !! running k' = Some th -> status th <> THREAD_DYING) /\
    picks k (running k') (ready_list k').
Proof.
  intros Q Hif Hnd Hcan. destruct (q_cur _ _ Q) as [cth Hc].
  assert (Hs : status cth <> THREAD_RUNNING).
  { intros E. destruct (q_thr _ _ Q _ _ Hc) as [_ _ _ _ _ T]. unfold status_ok in T.
    rewrite E in T. by destruct T. }
  assert (exists next l, picks k next l) as (next & l & P).
  { unfold picks. destruct (ready_list k) as [|t l] eqn:E.
    - exists (idle_thread k), []. right. destruct Hcan; [congruence|]. by split_and!.
    - exists t, l. by left. }
  destruct (picks_thread k next l Q P) as (nth & Hn & _ & Hnd2 & _).
  destruct (scheduled_frame k next l nth cth Hn Hc) as (E1 & E2 & E3).
  exists (scheduled k next l nth cth). rewrite E1.
  split_and!; [by apply schedule_run|by apply Queues_scheduled|done|done|congruence|].
  unfold scheduled, launched, reap. destruct (_ =? _); [done|]. cbn. by destruct (_ && _).
Qed.

Lemma schedule_stuck k :
  ready_list k = [] -> idle_thread k = NULL -> if_flag k = false ->
  (forall cth, threads k !! running k = Some cth -> status cth <> THREAD_RUNNING) ->
  is_Some (threads k !! running k) -> schedule k = Panic.
Proof.
  intros Hr Hi Hif Hs [cth Hc].
  assert (E : next_thread_to_run k = Ok (NULL, k)).
  { unfold next_thread_to_run. mnorm. by rewrite Hr, Hi. }
  unfold schedule, running_thread, intr_get_level. mnorm. mstep E. rewrite Hif. cbn [negb]. mnorm.
  mstep (load_thread_run _ _ _ Hc). by rewrite bool_decide_eq_false_2 by (by apply Hs).
Qed.

Lemma thread_block_run k th :
  sane k th -> in_external_intr k = false -> if_flag k = false ->
  thread_block k = schedule (put_status (running k) THREAD_BLOCKED th k).
Proof.
  intros S Hx Hif. unfold thread_block, intr_context, intr_get_level. mnorm. rewrite Hx.
  cbn [negb]. mnorm. rewrite Hif. cbn [negb]. mnorm.
  mstep (thread_current_run _ _ S). destruct S as (Ht & _).
  by mstep (store_thread_run k _ th (with_status THREAD_BLOCKED) Ht).
Qed.

(** The state after the victims are freed. *)
Definition destroyed (k : kstate) : kstate :=
  set_destruction [] (set_threads (destroy (destruction_req k) (threads k)) k).

Lemma do_schedule_run k th st :
  sane k th -> if_flag k = false -> running k ∉ destruction_req k ->
  do_schedule st k = schedule (put_status (running k) st th (destroyed k)).
Proof.
  intros S Hif Hn. unfold do_schedule, intr_get_level. mnorm. rewrite Hif. cbn [negb]. mnorm.
  mstep (thread_current_run _ _ S). destruct S as (Ht & Hs & H0 & Hm).
  mstep (load_thread_run _ _ _ Ht). rewrite bool_decide_eq_true_2 by done. mnorm.
  fold (destroyed k).
  assert (Ht' : threads (destroyed k) !! running k = Some th).
  { cbn. rewrite lookup_destroy. by rewrite decide_False. }
  mstep (thread_current_run (destroyed k) th ltac:(by split_and!)).
  by mstep (store_thread_run (destroyed k) _ th (with_status st) Ht').
Qed.
