(* ===== verification/KernelInv.v ===== *)
(** * The invariant of the kernel

    [Inv] joins the queues of SchedInv.v with the conservation laws of
    [Tokens]: every lock has exactly one token, which is in its semaphore,
    with its holder, or with a thread on its way in or out; a semaphore whose
    queue is not empty never has more units than threads that were woken and
    have not run yet; a thread under construction is owned by one
    [thread_create] call; the idle thread is set up at most once.  Every frame
    preserves [Inv], and fails only where the caller broke its obligations. *)

From S2P Require Import Prelude Kernel Synch Machine SchedInv.

(** ** Conservation *)

Definition lock_acct (k : kstate) (T : weight -> Z) (l : Z) : Prop :=
  match holders k !! l, semas k !! LockSema l with
  | Some h, Some sm => value sm + (if h =? NULL then 0 else 1) + T (W_lock l) = 1
  | None, None => T (W_lock l) = 0
  | _, _ => False
  end.

Record Tokens (k : kstate) (T : weight -> Z) : Prop := {
  k_lock l : lock_acct k T l;
  k_val s sm : semas k !! s = Some sm -> is_u32 (value sm);
  k_wake s sm : semas k !! s = Some sm -> waiters sm <> [] ->
    value sm + Z.of_nat (length (waiters sm)) <= T (W_loop s);
  k_new t : T (W_new t) <= 1 /\
    (1 <= T (W_new t) -> exists th, has_status k t THREAD_BLOCKED th /\ stack th = []);
  k_idle : T W_idle + (if idle_thread k =? NULL then 0 else 1) <= 1;
  k_start : 1 <= T W_start -> semas k !! IdleStarted = None
}.

Definition tots (k : kstate) (w : weight) : Z := tot (wt w) (threads k).

Record Inv (k : kstate) : Prop := {
  i_queues : Queues k (Some (running k));
  i_ext : in_external_intr k = false;
  i_tokens : Tokens k (tots k)
}.

(** The balance while frame [f] is being replaced by [fs]. *)
Definition swap_tots (k : kstate) (f : frame) (fs : list frame) (w : weight) : Z :=
  tots k w - wt w f + fsum (wt w) fs.

Lemma Tokens_T k T T' : (forall w, T w = T' w) -> Tokens k T -> Tokens k T'.
Proof.
  intros E [H1 H2 H3 H4 H5 H6]. split; try done.
  - intros l. unfold lock_acct. rewrite <- E. apply H1.
  - intros s sm. rewrite <- E. apply H3.
  - intros t. rewrite <- E. apply H4.
  - by rewrite <- E.
  - by rewrite <- E.
Qed.

(** The stack of [t] is not looked at by [Tokens], only its weight. *)
Lemma Tokens_put_stack k T t st' th :
  threads k !! t = Some th -> stack th <> [] ->
  Tokens k T -> Tokens (put_stack t st' th k) T.
Proof.
  intros Ht Hne [H1 H2 H3 H4 H5 H6]. split; try done.
  intros u. destruct (H4 u) as [? Hu]. split; [done|]. intros (thu & [Hu1 Hu2] & Hu3)%Hu.
  exists thu. split; [|done]. split; [|done]. cbn. rewrite lookup_insert_ne; [done|].
  intros ->. congruence.
Qed.

Lemma tots_put_stack k t th f rest fs w :
  threads k !! t = Some th -> stack th = f :: rest ->
  tots (put_stack t (fs ++ rest) th k) w = swap_tots k f fs w.
Proof.
  intros Ht Hst. unfold tots, swap_tots, put_stack, tots.
  cbn [threads set_threads]. rewrite (tot_insert _ _ _ _ _ Ht).
  cbn [stack with_stack]. rewrite Hst, fsum_app, fsum_cons. lia.
Qed.

Lemma set_top_run k t th f rest fs :
  threads k !! t = Some th -> stack th = f :: rest ->
  set_top t fs k = Ok (tt, put_stack t (fs ++ rest) th k).
Proof.
  intros Ht Hst. unfold set_top. rewrite (store_thread_run _ _ _ _ Ht). by rewrite Hst.
Qed.

(** ** Frames that do not schedule *)

(** What the frames [fs] that replace [f] must satisfy. *)
Record replaces (k2 : kstate) (f : frame) (rest fs : list frame) : Prop := {
  r_wf : wf (fs ++ rest);
  r_off : top_off (fs ++ rest) = true -> if_flag k2 = false;
  r_ne : fs ++ rest <> [];
  r_istack : idle_stack (f :: rest) -> idle_stack (fs ++ rest);
  r_iframe : existsb is_idle_frame fs = true -> is_idle_frame f = true
}.

Record quiet (k k2 : kstate) : Prop := {
  qu_threads : threads k2 = threads k;
  qu_running : running k2 = running k;
  qu_ready : ready_list k2 = ready_list k;
  qu_destr : destruction_req k2 = destruction_req k;
  qu_idle : idle_thread k2 = idle_thread k;
  qu_init : initial_thread k2 = initial_thread k;
  qu_wl s : wl k2 s = wl k s;
  qu_ext : in_external_intr k2 = false
}.

Lemma Queues_quiet k k2 th f rest fs :
  Queues k (Some (running k)) -> threads k !! running k = Some th -> stack th = f :: rest ->
  quiet k k2 -> replaces k2 f rest fs ->
  Queues (put_stack (running k) (fs ++ rest) th k2) (Some (running k)).
Proof.
  intros Q Ht Hst [E1 E2 E3 E4 E5 E6 E7 E8] [R1 R2 R3 R4 R5].
  destruct (run_th _ _ Q) as (th2 & Ht2 & Hs & T). rewrite Ht in Ht2. injection Ht2 as <-.
  assert (Q1 : Queues (set_if false k2) (Some (running k))) by (eapply Queues_ext; eauto; done).
  assert (Q2 : Queues (put_stack (running k) (fs ++ rest) th (set_if false k2)) (Some (running k))).
  { apply Queues_put_stack; [done|cbn; by rewrite E1|]. split_and!; try done.
    - intros _. unfold if_of. cbn. by rewrite E2, Z.eqb_refl.
    - cbn. rewrite E5. intros Ei. apply R4. destruct (q_idle _ _ Q) as (thi & Hi1 & Hi2).
      { rewrite <- Ei. apply T. }
      rewrite <- Ei in Hi1. rewrite Ht in Hi1. injection Hi1 as <-. by rewrite <- Hst.
    - rewrite existsb_app. cbn. rewrite E5. intros [Hf|Hr]%orb_true_iff; apply (t_idle _ _ _ _ T);
        rewrite Hst; cbn; [by rewrite R5|by rewrite Hr, orb_true_r].
    - by rewrite Hs. }
  eapply Queues_ext; [exact Q2|..]; try done.
  intros th' H' Hoff. apply R2. cbn in H'. rewrite E2, lookup_insert_eq in H'. by simplify_eq.
Qed.

Lemma Inv_quiet k k2 th f rest fs :
  Queues k (Some (running k)) -> threads k !! running k = Some th -> stack th = f :: rest ->
  quiet k k2 -> replaces k2 f rest fs -> Tokens k2 (swap_tots k f fs) ->
  exists k', set_top (running k) fs k2 = Ok (tt, k') /\ Inv k'.
Proof.
  intros Q Ht Hst Qu R K2. pose proof Qu as [E1 E2 E3 E4 E5 E6 E7 E8].
  exists (put_stack (running k) (fs ++ rest) th k2). split.
  { apply (set_top_run _ _ _ f rest); [by rewrite E1|done]. }
  split; [|done|].
  - unfold put_stack. cbn. rewrite E2. eapply Queues_quiet; eauto.
  - eapply Tokens_T; [|apply Tokens_put_stack; [by rewrite E1|by rewrite Hst|exact K2]].
    intros w. rewrite (tots_put_stack _ _ _ f rest); [|by rewrite E1|done].
    unfold swap_tots, tots. by rewrite E1.
Qed.

(** [f] can be executed and leads to a state that satisfies the invariant. *)
Definition Good (k : kstate) (f : frame) : Prop :=
  exists fs k2 k', exec f k = Ok (fs, k2) /\ set_top (running k) fs k2 = Ok (tt, k') /\ Inv k'.

(** The running thread is at frame [f]. *)
Record At (k : kstate) (f : frame) (rest : list frame) (th : thread) : Prop := {
  at_inv : Inv k;
  at_th : threads k !! running k = Some th;
  at_stack : stack th = f :: rest
}.

Lemma At_sane k f rest th : At k f rest th -> sane k th.
Proof.
  intros [[Q _ _] Ht _]. destruct (Queues_sane k Q) as (th2 & S). pose proof S as (E & _).
  rewrite Ht in E. by injection E as <-.
Qed.

Lemma At_wf k f rest th :
  At k f rest th -> frame_ok f rest /\ Forall (fun f => is_off f = false) rest /\ wf rest.
Proof.
  intros [[Q _ _] Ht Hs]. destruct (q_thr _ _ Q _ _ Ht) as [_ _ W _ _ _]. by rewrite Hs in W.
Qed.

Lemma At_off k f rest th : At k f rest th -> is_off f = true -> if_flag k = false.
Proof.
  intros [[Q _ _] Ht Hs] Hf. destruct (q_thr _ _ Q _ _ Ht) as [_ _ _ W _ _].
  rewrite Hs in W. specialize (W Hf). unfold if_of in W. by rewrite Z.eqb_refl in W.
Qed.

(** The frame a thread is at counts. *)
Lemma At_weight k f rest th w : At k f rest th -> wt w f <= tots k w.
Proof.
  intros A. pose proof (At_wf _ _ _ _ A) as (_ & _ & Hw). destruct A as [[Q X K] Ht Hst].
  assert (Hnn : forall t th, threads k !! t = Some th -> 0 <= fsum (wt w) (stack th)).
  { intros t' th' Ht'. apply fsum_nonneg. apply (q_thr _ _ Q _ _ Ht'). }
  pose proof (tot_ge _ _ _ _ Hnn Ht) as Hle. rewrite Hst, fsum_cons in Hle.
  unfold tots. pose proof (fsum_nonneg w rest Hw). lia.
Qed.

Lemma Good_quiet k k2 th f rest fs :
  At k f rest th -> exec f k = Ok (fs, k2) -> quiet k k2 -> replaces k2 f rest fs ->
  Tokens k2 (swap_tots k f fs) -> Good k f.
Proof.
  intros [[Q X K] Ht Hst] He Hq Hr HT.
  destruct (Inv_quiet k k2 th f rest fs Q Ht Hst Hq Hr HT) as (k' & ? & ?). by exists fs, k2, k'.
Qed.

(** Frames that touch queues or threads but keep the processor. *)
Lemma Good_calm k k2 th2 f rest fs :
  exec f k = Ok (fs, k2) -> Queues k2 (Some (running k)) -> running k2 = running k ->
  threads k2 !! running k = Some th2 -> stack th2 = f :: rest ->
  in_external_intr k2 = false -> replaces k2 f rest fs ->
  Tokens k2 (swap_tots k2 f fs) -> Good k f.
Proof.
  intros He Q Er Ht Hst X R K. rewrite <- Er in Q, Ht.
  destruct (Inv_quiet k2 k2 th2 f rest fs Q Ht Hst) as (k' & H1 & H2); [by split|done|done|].
  exists fs, k2, k'. by rewrite <- Er.
Qed.

(** Frames that give up the processor. *)
Lemma Good_sched k k2 th2 f rest fs :
  exec f k = Ok (fs, k2) -> Queues k2 (Some (running k2)) -> in_external_intr k2 = false ->
  threads k2 !! running k = Some th2 -> stack th2 = f :: rest ->
  stack_change_ok k2 (running k) th2 (fs ++ rest) -> Tokens k2 (swap_tots k2 f fs) -> Good k f.
Proof.
  intros He Q X Ht Hst Hc K. exists fs, k2, (put_stack (running k) (fs ++ rest) th2 k2).
  split_and!; [done|by apply (set_top_run _ _ _ f rest)|]. split; [|done|].
  - by apply Queues_put_stack.
  - eapply Tokens_T; [|apply Tokens_put_stack; [done|by rewrite Hst|exact K]].
    intros w. by rewrite (tots_put_stack _ _ _ f rest).
Qed.

(** Objects unchanged; weights may move in the harmless direction. *)
Lemma Tokens_le k k' T T' :
  Tokens k T -> semas k' = semas k -> holders k' = holders k -> idle_thread k' = idle_thread k ->
  threads k' = threads k ->
  (forall l, T' (W_lock l) = T (W_lock l)) -> (forall s, T (W_loop s) <= T' (W_loop s)) ->
  (forall t, T' (W_new t) = T (W_new t)) -> T' W_idle <= T W_idle -> T' W_start <= T W_start ->
  Tokens k' T'.
Proof.
  intros [H1 H2 H3 H4 H5 H6] E1 E2 E3 E4 W1 W2 W3 W4 W5. split; rewrite ?E1, ?E2, ?E3; try done.
  - intros l. unfold lock_acct. rewrite E1, E2, W1. apply H1.
  - intros s sm Hs Hw. specialize (H3 s sm Hs Hw). specialize (W2 s). lia.
  - intros t. rewrite W3. destruct (H4 t) as [? Hn]. split; [done|]. intros Hge.
    destruct (Hn Hge) as (th & [? ?] & ?). exists th. split; [|done]. split; [by rewrite E4|done].
  - lia.
  - intros. apply H6. lia.
Qed.

Lemma no_off_top st : Forall (fun f => is_off f = false) st -> top_off st = false.
Proof. by intros []. Qed.

(** Solves the conditions on replacing frames and on weights. *)
Ltac repl W :=
  let Hf := fresh "Hf" in let Hn := fresh "Hn" in let Hw := fresh "Hw" in
  destruct W as (Hf & Hn & Hw);
  split; cbn in *;
  [ repeat split; try done; repeat constructor; eauto
  | try done; try (by rewrite no_off_top)
  | try done | try done | try done ].
Ltac weigh := unfold swap_tots; intros; cbn;
  repeat first [case_bool_decide | zcase | case_match]; simplify_eq; first [lia | congruence].

Lemma quiet_if k b : in_external_intr k = false -> quiet k (set_if b k).
Proof. by intros. Qed.

Lemma intr_enable_run k : in_external_intr k = false -> intr_enable k = Ok (if_flag k, set_if true k).
Proof. intros X. unfold intr_enable, intr_get_level, intr_context. mnorm. by rewrite X. Qed.

Lemma intr_disable_run k : intr_disable k = Ok (if_flag k, set_if false k).
Proof. done. Qed.

Lemma intr_set_level_run k b :
  (b = true -> in_external_intr k = false) -> intr_set_level b k = Ok (if_flag k, set_if b k).
Proof. intros X. destruct b; [|done]. by apply intr_enable_run, X. Qed.

(** One semaphore changes. *)
Lemma Tokens_sema k k' T T' s sm sm' :
  Tokens k T -> semas k !! s = Some sm -> semas k' = <[s := sm']> (semas k) ->
  holders k' = holders k -> idle_thread k' = idle_thread k ->
  (forall t th, has_status k t THREAD_BLOCKED th -> stack th = [] ->
     threads k' !! t = threads k !! t) ->
  is_u32 (value sm') ->
  (waiters sm' <> [] -> value sm' + Z.of_nat (length (waiters sm')) <= T' (W_loop s)) ->
  (forall l, s = LockSema l -> value sm' + T' (W_lock l) = value sm + T (W_lock l)) ->
  (forall l, s <> LockSema l -> T' (W_lock l) = T (W_lock l)) ->
  (forall s', s' <> s -> T (W_loop s') <= T' (W_loop s')) ->
  (forall t, T' (W_new t) = T (W_new t)) -> T' W_idle <= T W_idle -> T' W_start <= T W_start ->
  Tokens k' T'.
Proof.
  intros [H1 H2 H3 H4 H5 H6] Hs E1 E2 E3 E4 Hv Hw W1 W1' W2 W3 W4 W5.
  split; rewrite ?E1, ?E2, ?E3; try done.
  - intros l. specialize (H1 l). specialize (W1 l). unfold lock_acct in *. rewrite E1, E2.
    destruct (decide (s = LockSema l)) as [->|Hne].
    + rewrite lookup_insert_eq. rewrite Hs in H1. destruct (holders k !! l); [|done].
      specialize (W1 eq_refl). lia.
    + rewrite lookup_insert_ne by done. by rewrite W1'.
  - intros s' sm0 [[<- <-]|[_ ?]]%lookup_insert_Some; [done|by eapply H2].
  - intros s' sm0 [[<- <-]|[Hne Hs']]%lookup_insert_Some; [done|]. intros Hw0.
    specialize (H3 s' sm0 Hs' Hw0). specialize (W2 s' ltac:(congruence)). lia.
  - intros t. rewrite W3. destruct (H4 t) as [? Hn]. split; [done|]. intros Hge.
    destruct (Hn Hge) as (th & [? ?] & ?). exists th. split; [|done].
    split; [by erewrite E4|done].
  - lia.
  - intros. rewrite lookup_insert_ne; [apply H6; lia|]. intros ->. rewrite H6 in Hs; [done|lia].
Qed.

(** Members other than status and stack are not looked at. *)
Lemma Tokens_relabel k T t th th' :
  threads k !! t = Some th -> status th' = status th -> stack th' = stack th ->
  Tokens k T -> Tokens (set_threads (<[t := th']> (threads k)) k) T.
Proof.
  intros Ht E1 E2 [H1 H2 H3 H4 H5 H6]. split; try done.
  intros u. destruct (H4 u) as [? Hu]. split; [done|]. intros (thu & [Hu1 Hu2] & Hu3)%Hu.
  destruct (decide (u = t)) as [->|].
  - exists th'. unfold has_status. cbn. rewrite lookup_insert_eq. simplify_eq. split_and!; congruence.
  - exists thu. unfold has_status. cbn. by rewrite lookup_insert_ne.
Qed.

Lemma tots_relabel k t th th' w :
  threads k !! t = Some th -> stack th' = stack th ->
  tots (set_threads (<[t := th']> (threads k)) k) w = tots k w.
Proof.
  intros Ht E. unfold tots. cbn [threads set_threads]. rewrite (tot_insert _ _ _ _ _ Ht), E. lia.
Qed.

(** ** Waking a thread *)

Lemma thread_unblock_run k t th :
  has_status k t THREAD_BLOCKED th -> t <> NULL -> magic th = THREAD_MAGIC ->
  (if_flag k = true -> in_external_intr k = false) ->
  thread_unblock t k = Ok (tt, set_if (if_flag k)
    (put_status t THREAD_READY th (set_ready (ready_list k ++ [t]) k))).
Proof.
  intros [Ht Hs] H0 Hm X. unfold thread_unblock. mstep (is_thread_run _ _ _ Ht H0 Hm).
  mstep (intr_disable_run k). mstep (load_thread_run (set_if false k) _ _ Ht).
  rewrite bool_decide_eq_true_2 by done. mnorm.
  mstep (store_thread_run (set_ready (ready_list k ++ [t]) (set_if false k)) t th
    (with_status THREAD_READY) Ht).
  by mstep (intr_set_level_run (set_threads (<[t := with_status THREAD_READY th]> (threads k))
    (set_ready (ready_list k ++ [t]) (set_if false k))) (if_flag k) X).
Qed.

Lemma load_sema_run s sm k0 : semas k0 !! s = Some sm -> load_sema s k0 = Ok (sm, k0).
Proof. unfold load_sema. by intros ->. Qed.

Lemma wl_same_sema k0 s sm sm' s' :
  semas k0 !! s = Some sm -> waiters sm' = waiters sm ->
  wl (set_semas (<[s := sm']> (semas k0)) k0) s' = wl k0 s'.
Proof.
  intros Hs E. rewrite wl_insert. case_decide as E'; [|done]. subst. unfold wl. by rewrite Hs, E.
Qed.

Record upped (k : kstate) (s : sref) (sm : semaphore) (k' : kstate) : Prop := {
  u_running : running k' = running k;
  u_if : if_flag k' = if_flag k;
  u_ext : in_external_intr k' = in_external_intr k;
  u_idle : idle_thread k' = idle_thread k;
  u_holders : holders k' = holders k;
  u_semas : semas k' = <[s := Semaphore (u32 (value sm + 1)) (tail (waiters sm))]> (semas k);
  u_stack t : stack <$> threads k' !! t = stack <$> threads k !! t;
  u_other t : t ∉ waiters sm -> threads k' !! t = threads k !! t
}.

Lemma top_off_if k r th :
  Queues k r -> threads k !! running k = Some th -> top_off (stack th) = true -> if_flag k = false.
Proof.
  intros Q Ht Hoff. destruct (q_thr _ _ Q _ _ Ht) as [_ _ _ T _ _].
  specialize (T Hoff). unfold if_of in T. by rewrite Z.eqb_refl in T.
Qed.

Lemma sema_up_spec k r s sm :
  Queues k r -> semas k !! s = Some sm -> (if_flag k = true -> in_external_intr k = false) ->
  exists k', sema_up s k = Ok (tt, k') /\ Queues k' r /\ upped k s sm k'.
Proof.
  intros Q Hs X. unfold sema_up. mstep (intr_disable_run k).
  mstep (load_sema_run s sm (set_if false k) Hs).
  assert (Hwl : wl k s = waiters sm) by (unfold wl; by rewrite Hs).
  destruct (waiters sm) as [|t ws] eqn:Ew.
  - mnorm. mstep (load_sema_run s sm (set_if false k) Hs). unfold store_sema. mnorm. rewrite Ew.
    set (k1 := set_semas _ _). mstep (intr_set_level_run k1 (if_flag k) X).
    eexists. split; [done|]. split; [|split; try done; cbn; by rewrite Ew].
    eapply Queues_ext; [exact Q|..]; try done.
    + intros s'. apply (wl_same_sema k s sm); [done|by rewrite Ew].
    + intros th Ht Hoff. by apply (top_off_if k r th).
  - unfold store_sema at 1. mnorm.
    destruct (q_wait _ _ Q s t) as (th & o & rest & [Ht Hst] & Hstk); [rewrite Hwl; set_solver|].
    destruct (q_thr _ _ Q _ _ Ht) as [T1 T2 _ _ _ _].
    set (k1 := set_semas (<[s := Semaphore (value sm) ws]> (semas (set_if false k))) (set_if false k)).
    mstep (thread_unblock_run k1 t th (conj Ht Hst) T1 T2 ltac:(done)).
    set (k2 := set_if _ _).
    mstep (load_sema_run s (Semaphore (value sm) ws) k2 ltac:(cbn; by rewrite lookup_insert_eq)).
    unfold store_sema. mnorm. set (k3 := set_semas _ k2).
    mstep (intr_set_level_run k3 (if_flag k) X).
    eexists. split; [done|]. split; [|split; try done].
    + eapply Queues_ext; [exact (Queues_wake k r s (value sm) t ws th Q Hwl Ht)|..]; try done.
      * intros s'. unfold wl. cbn. destruct (decide (s = s')) as [<-|].
        -- by rewrite !lookup_insert_eq.
        -- by rewrite !lookup_insert_ne.
      * cbn. intros th' Ht' Hoff. destruct (decide (running k = t)) as [<-|Hne].
        -- rewrite lookup_insert_eq in Ht'. injection Ht' as <-. by apply (top_off_if k r th).
        -- rewrite lookup_insert_ne in Ht' by done. by apply (top_off_if k r th').
    + cbn. by rewrite insert_insert_eq, Ew.
    + intros u. cbn. destruct (decide (u = t)) as [->|]; [by rewrite lookup_insert_eq, Ht|].
      by rewrite lookup_insert_ne.
    + intros u Hu. cbn. rewrite lookup_insert_ne; [done|]. rewrite Ew in Hu. set_solver.
Qed.

Section Frames.
Context (k : kstate) (rest : list frame) (th : thread).

Lemma good_intr_enable : At k F_intr_enable rest th -> Good k F_intr_enable.
Proof.
  intros A. pose proof (At_wf _ _ _ _ A) as W. pose proof A as [[Q X K] _ _].
  eapply (Good_quiet k (set_if true k) th _ rest []); [done| |done|repl W|].
  - cbn. unfold no_frames. by mstep (intr_enable_run k X).
  - eapply Tokens_le; eauto; weigh.
Qed.

Lemma good_intr_disable : At k F_intr_disable rest th -> Good k F_intr_disable.
Proof.
  intros A. pose proof (At_wf _ _ _ _ A) as W. pose proof A as [[Q X K] _ _].
  eapply (Good_quiet k (set_if false k) th _ rest []); [done|done|done|repl W|].
  eapply Tokens_le; eauto; weigh.
Qed.

Lemma good_intr_set_level b : At k (F_intr_set_level b) rest th -> Good k (F_intr_set_level b).
Proof.
  intros A. pose proof (At_wf _ _ _ _ A) as W. pose proof A as [[Q X K] _ _].
  eapply (Good_quiet k (set_if b k) th _ rest []); [done| |done|repl W|].
  - cbn. unfold no_frames. by mstep (intr_set_level_run k b (fun _ => X)).
  - eapply Tokens_le; eauto; weigh.
Qed.

Lemma good_iret b : At k (F_iret b) rest th -> Good k (F_iret b).
Proof.
  intros A. pose proof (At_wf _ _ _ _ A) as W. pose proof A as [[Q X K] _ _].
  eapply (Good_quiet k (set_if b k) th _ rest []); [done|done|done|repl W|].
  eapply Tokens_le; eauto; weigh.
Qed.

Lemma good_sema_down s : At k (F_sema_down s) rest th -> Good k (F_sema_down s).
Proof.
  intros A. pose proof (At_wf _ _ _ _ A) as W. pose proof A as [[Q X K] _ _].
  eapply (Good_quiet k (set_if false k) th _ rest [F_sema_down_loop s (if_flag k)]);
    [done| |done|repl W|].
  - cbn. unfold sema_down, intr_context. mnorm. rewrite X. cbn [negb]. mnorm.
    by mstep (intr_disable_run k).
  - eapply Tokens_le; eauto; weigh.
Qed.

Lemma good_timer_sleep n :
  At k (F_timer_sleep n) rest th -> if_flag k = true -> Good k (F_timer_sleep n).
Proof.
  intros A Hif. pose proof (At_wf _ _ _ _ A) as W. pose proof A as [[Q X K] _ _].
  eapply (Good_quiet k (set_if true k) th _ rest [F_timer_sleep_loop (ticks k) n]);
    [done| |done|repl W|].
  - cbn. unfold timer_sleep, timer_ticks. mnorm. mstep (intr_disable_run k). rewrite Hif.
    by mstep (intr_enable_run (set_if false k) X).
  - eapply Tokens_le; eauto; weigh.
Qed.

Lemma good_timer_sleep_loop start n :
  At k (F_timer_sleep_loop start n) rest th -> Good k (F_timer_sleep_loop start n).
Proof.
  intros A. pose proof (At_wf _ _ _ _ A) as W. pose proof A as [[Q X K] _ _].
  eapply (Good_quiet k (set_if (if_flag k) k) th _ rest
    (if s64 (ticks k - start) <? n then [F_thread_yield; F_timer_sleep_loop start n] else []));
    [done| |done| |].
  - cbn. unfold timer_sleep_loop, timer_elapsed, timer_ticks. mnorm. mstep (intr_disable_run k).
    by mstep (intr_set_level_run (set_if false k) (if_flag k) (fun _ => X)).
  - destruct (_ <? _); repl W.
  - destruct (_ <? _); eapply Tokens_le; eauto; weigh.
Qed.

(** The token of a lock a thread at [lock_acquired] has taken. *)
Lemma lock_acquired_free l :
  At k (F_lock_acquired l) rest th -> holders k !! l = Some NULL.
Proof.
  intros A. pose proof (At_weight _ _ _ _ (W_lock l) A) as Hge. cbn in Hge. rewrite Z.eqb_refl in Hge.
  destruct A as [[Q X K] Ht Hst]. pose proof (k_lock _ _ K l) as H. unfold lock_acct in H.
  destruct (holders k !! l) as [h|]; destruct (semas k !! LockSema l) as [sm|] eqn:Es; try done; [|lia].
  pose proof (k_val _ _ K _ _ Es) as [? _]. destruct (Z.eqb_spec h NULL); [by subst|lia].
Qed.

Lemma Tokens_holder k' T' l h h' :
  Tokens k (tots k) -> holders k !! l = Some h -> holders k' = <[l := h']> (holders k) ->
  semas k' = semas k -> idle_thread k' = idle_thread k -> threads k' = threads k ->
  T' (W_lock l) + (if h' =? NULL then 0 else 1) = tots k (W_lock l) + (if h =? NULL then 0 else 1) ->
  (forall l', l' <> l -> T' (W_lock l') = tots k (W_lock l')) ->
  (forall s, T' (W_loop s) = tots k (W_loop s)) -> (forall t, T' (W_new t) = tots k (W_new t)) ->
  T' W_idle = tots k W_idle -> T' W_start = tots k W_start -> Tokens k' T'.
Proof.
  intros [H1 H2 H3 H4 H5 H6] Hh E1 E2 E3 E4 W1 W1' W2 W3 W4 W5.
  split; rewrite ?E1, ?E2, ?E3, ?W4, ?W5; try done.
  - intros l'. specialize (H1 l'). unfold lock_acct in *. rewrite E1, E2.
    destruct (decide (l' = l)) as [->|Hne].
    + rewrite lookup_insert_eq. rewrite Hh in H1. destruct (semas k !! LockSema l); [lia|done].
    + rewrite lookup_insert_ne by done. by rewrite W1'.
  - intros s sm. rewrite W2. apply H3.
  - intros t. rewrite W3. destruct (H4 t) as [? Hn]. split; [done|]. unfold has_status. rewrite E4. done.
Qed.

Lemma good_lock_acquired l : At k (F_lock_acquired l) rest th -> Good k (F_lock_acquired l).
Proof.
  intros A. pose proof (At_wf _ _ _ _ A) as W. pose proof (At_sane _ _ _ _ A) as S.
  pose proof (lock_acquired_free l A) as Hh. pose proof A as [[Q X K] _ _].
  eapply (Good_quiet k (set_holders (<[l := running k]> (holders k)) k) th _ rest []);
    [done| |done|repl W|].
  - cbn. unfold lock_acquired. by mstep (thread_current_run _ _ S).
  - eapply (Tokens_holder _ _ l NULL (running k)); eauto; try weigh.
    destruct S as (_ & _ & H0 & _). destruct (Z.eqb_spec (running k) NULL); [done|]. weigh.
Qed.

Lemma load_holder_run l h : holders k !! l = Some h -> load_holder l k = Ok (h, k).
Proof. unfold load_holder. by intros ->. Qed.

Lemma held_run l h f :
  At k f rest th -> holders k !! l = Some h ->
  lock_held_by_current_thread l k = Ok (h =? running k, k).
Proof.
  intros A Hh. unfold lock_held_by_current_thread. mstep (load_holder_run l h Hh).
  by mstep (thread_current_run _ _ (At_sane _ _ _ _ A)).
Qed.

Lemma good_lock_acquire l h :
  At k (F_lock_acquire l) rest th -> holders k !! l = Some h -> h <> running k ->
  Good k (F_lock_acquire l).
Proof.
  intros A Hh Hne. pose proof (At_wf _ _ _ _ A) as W. pose proof A as [[Q X K] _ _].
  eapply (Good_quiet k k th _ rest [F_sema_down (LockSema l); F_lock_acquired l]);
    [done| |done|repl W|].
  - cbn. unfold lock_acquire, intr_context. mnorm. rewrite X. cbn [negb]. mnorm.
    mstep (held_run l h _ A Hh). by destruct (Z.eqb_spec h (running k)).
  - eapply Tokens_le; eauto; weigh.
Qed.

Lemma good_lock_release l :
  At k (F_lock_release l) rest th -> holders k !! l = Some (running k) -> Good k (F_lock_release l).
Proof.
  intros A Hh. pose proof (At_wf _ _ _ _ A) as W. pose proof A as [[Q X K] _ _].
  pose proof (At_sane _ _ _ _ A) as (_ & _ & H0 & _).
  eapply (Good_quiet k (set_holders (<[l := NULL]> (holders k)) k) th _ rest
    [F_sema_up (LockSema l)]); [done| |done|repl W|].
  - cbn. unfold lock_release. mstep (held_run l _ _ A Hh). by rewrite Z.eqb_refl.
  - eapply (Tokens_holder _ _ l (running k) NULL); eauto; weigh.
Qed.

Lemma sema_of_lock l h :
  Inv k -> holders k !! l = Some h -> exists sm, semas k !! LockSema l = Some sm.
Proof.
  intros [_ _ K] Hh. pose proof (k_lock _ _ K l) as H. unfold lock_acct in H. rewrite Hh in H.
  destruct (semas k !! LockSema l); [by eexists|done].
Qed.

(** [sema_try_down] in any context in which the flag can be restored. *)
Lemma sema_try_down_run s sm :
  in_external_intr k = false -> semas k !! s = Some sm ->
  sema_try_down s k = Ok (0 <? value sm,
    set_if (if_flag k)
      (if 0 <? value sm then set_semas (<[s := Semaphore (u32 (value sm - 1)) (waiters sm)]> (semas k)) k
       else k)).
Proof.
  intros X Hs. unfold sema_try_down. mstep (intr_disable_run k).
  mstep (load_sema_run s sm (set_if false k) Hs). destruct (0 <? value sm).
  - unfold store_sema. mnorm.
    change (semas (set_if false k)) with (semas k).
    mstep (intr_set_level_run (set_semas (<[s := Semaphore (u32 (value sm - 1)) (waiters sm)]> (semas k))
      (set_if false k)) (if_flag k) (fun _ => X)). done.
  - mnorm. by mstep (intr_set_level_run (set_if false k) (if_flag k) (fun _ => X)).
Qed.

Lemma u32_pred v : is_u32 v -> 0 < v -> u32 (v - 1) = v - 1.
Proof. intros [? ?] ?. apply wrapu_id. split; lia. Qed.

(** A unit is taken from a semaphore. *)
Lemma quiet_take s sm b :
  in_external_intr k = false -> semas k !! s = Some sm ->
  quiet k (set_if b (set_semas (<[s := Semaphore (u32 (value sm - 1)) (waiters sm)]> (semas k)) k)).
Proof.
  intros X Hs. split; try done. intros s'.
  change (wl (set_if _ ?k0) s') with (wl k0 s'). by eapply wl_same_sema.
Qed.

Lemma Tokens_take s sm T' b :
  Tokens k (tots k) -> semas k !! s = Some sm -> 0 < value sm ->
  (forall l, T' (W_lock l) = tots k (W_lock l) + (if bool_decide (s = LockSema l) then 1 else 0)) ->
  (forall s', tots k (W_loop s') <= T' (W_loop s') + (if bool_decide (s = s') then 1 else 0)) ->
  (forall t, T' (W_new t) = tots k (W_new t)) -> T' W_idle <= tots k W_idle ->
  T' W_start <= tots k W_start ->
  Tokens (set_if b (set_semas (<[s := Semaphore (u32 (value sm - 1)) (waiters sm)]> (semas k)) k)) T'.
Proof.
  intros K Hs Hv W1 W2 W3 W4 W5. pose proof (k_val _ _ K _ _ Hs) as Hu.
  rewrite u32_pred by done.
  eapply (Tokens_sema k _ _ _ s sm); eauto; cbn.
  - split; [lia|]. destruct Hu. lia.
  - intros Hw. pose proof (k_wake _ _ K _ _ Hs Hw). specialize (W2 s).
    rewrite bool_decide_eq_true_2 in W2 by done. lia.
  - intros l ->. specialize (W1 l). rewrite bool_decide_eq_true_2 in W1 by done. lia.
  - intros l Hl. specialize (W1 l). rewrite bool_decide_eq_false_2 in W1 by done. lia.
  - intros s' Hne. specialize (W2 s'). rewrite bool_decide_eq_false_2 in W2 by congruence. lia.
Qed.

(** Restoring the flag of a state that did not change. *)
Lemma set_if_id : set_if (if_flag k) k = k.
Proof. by destruct k. Qed.

Lemma good_lock_try_acquire l h :
  At k (F_lock_try_acquire l) rest th -> holders k !! l = Some h -> h <> running k ->
  Good k (F_lock_try_acquire l).
Proof.
  intros A Hh Hne. pose proof (At_wf _ _ _ _ A) as W. pose proof A as [I _ _].
  pose proof I as [Q X K]. destruct (sema_of_lock l h I Hh) as [sm Hs].
  assert (E : lock_try_acquire l k = Ok (if 0 <? value sm then [F_lock_acquired l] else [],
    set_if (if_flag k) (if 0 <? value sm then
      set_semas (<[LockSema l := Semaphore (u32 (value sm - 1)) (waiters sm)]> (semas k)) k else k))).
  { unfold lock_try_acquire. mstep (held_run l h _ A Hh).
    destruct (Z.eqb_spec h (running k)); [done|]. cbn [negb]. mnorm.
    by mstep (sema_try_down_run (LockSema l) sm X Hs). }
  destruct (Z.ltb_spec 0 (value sm)).
  - eapply (Good_quiet k _ th _ rest _ A E); [by apply quiet_take|repl W|].
    apply Tokens_take; try done; weigh.
  - rewrite set_if_id in E. eapply (Good_quiet k _ th _ rest _ A E); [done|repl W|].
    eapply Tokens_le; eauto; weigh.
Qed.

Lemma good_sema_try_down s sm :
  At k (F_sema_try_down s) rest th -> semas k !! s = Some sm -> Good k (F_sema_try_down s).
Proof.
  intros A Hs. pose proof (At_wf _ _ _ _ A) as ([[a ->] Hne] & Hn & Hw).
  pose proof A as [[Q X K] _ _]. pose proof (sema_try_down_run _ sm X Hs) as E.
  assert (R : forall k2, replaces k2 (F_sema_try_down (Sema a)) rest []).
  { intros k2. split; cbn; try done. by rewrite no_off_top. }
  destruct (Z.ltb_spec 0 (value sm)).
  - eapply (Good_quiet k _ th _ rest [] A); [cbn; unfold no_frames; by mstep E|by apply quiet_take|done|].
    apply Tokens_take; try done; weigh.
  - rewrite set_if_id in E.
    eapply (Good_quiet k _ th _ rest [] A); [cbn; unfold no_frames; by mstep E|done|done|].
    eapply Tokens_le; eauto; weigh.
Qed.

(** [sema_down] when a unit is available. *)
Lemma good_sema_down_take s old sm :
  At k (F_sema_down_loop s old) rest th -> semas k !! s = Some sm -> value sm <> 0 ->
  Good k (F_sema_down_loop s old).
Proof.
  intros A Hs Hv. pose proof (At_wf _ _ _ _ A) as W. pose proof A as [[Q X K] _ _].
  pose proof (k_val _ _ K _ _ Hs) as [? _].
  eapply (Good_quiet k _ th _ rest [] A); [ |by apply (quiet_take s sm old)| |].
  - cbn. unfold sema_down_loop. mstep (load_sema_run s sm k Hs).
    destruct (Z.eqb_spec (value sm) 0); [done|]. unfold store_sema. mnorm.
    by mstep (intr_set_level_run (set_semas (<[s := Semaphore (u32 (value sm - 1)) (waiters sm)]> (semas k)) k)
      old (fun _ => X)).
  - destruct W as (Hf & Hn & Hw). split; cbn; try done; [by rewrite no_off_top|].
    destruct s; try done. by destruct Hf as (r & ->).
  - apply Tokens_take; try done; try lia; weigh.
Qed.

(** ** Initialisation of objects *)

Lemma Tokens_new_sema k' T' s v :
  Tokens k (tots k) -> semas k !! s = None -> (forall l, s <> LockSema l) -> is_u32 v ->
  semas k' = <[s := Semaphore v []]> (semas k) -> holders k' = holders k ->
  idle_thread k' = idle_thread k -> threads k' = threads k ->
  (forall l, T' (W_lock l) = tots k (W_lock l)) -> (forall s', tots k (W_loop s') <= T' (W_loop s')) ->
  (forall t, T' (W_new t) = tots k (W_new t)) -> T' W_idle <= tots k W_idle ->
  T' W_start <= tots k W_start -> (1 <= T' W_start -> s <> IdleStarted) ->
  Tokens k' T'.
Proof.
  intros [H1 H2 H3 H4 H5 H6] Hs Hl Hv E1 E2 E3 E4 W1 W2 W3 W4 W5 W6.
  split; rewrite ?E1, ?E2, ?E3; try done.
  - intros l. unfold lock_acct. rewrite E1, E2, W1, lookup_insert_ne by apply Hl. apply H1.
  - intros s' sm0 [[<- <-]|[_ ?]]%lookup_insert_Some; [done|by eapply H2].
  - intros s' sm0 [[<- <-]|[Hne Hs']]%lookup_insert_Some; [done|]. intros Hw0.
    specialize (H3 s' sm0 Hs' Hw0). specialize (W2 s'). lia.
  - intros t. rewrite W3. unfold has_status. rewrite E4. apply H4.
  - lia.
  - intros Hge. rewrite lookup_insert_ne by auto. apply H6. lia.
Qed.

Lemma wl_new_sema k0 s v s' :
  semas k0 !! s = None -> wl (set_semas (<[s := Semaphore v []]> (semas k0)) k0) s' = wl k0 s'.
Proof.
  intros Hs. rewrite wl_insert. case_decide as E; [|done]. subst. unfold wl. by rewrite Hs.
Qed.

Lemma good_sema_init s v :
  At k (F_sema_init s v) rest th -> semas k !! s = None -> Good k (F_sema_init s v).
Proof.
  intros A Hs. pose proof (At_wf _ _ _ _ A) as W. pose proof A as [[Q X K] _ _].
  pose proof W as ([[a ->] Hne] & Hn & Hw).
  eapply (Good_quiet k _ th _ rest [] A); [done| | |].
  - split; try done. intros. by apply wl_new_sema.
  - split; cbn; try done. by rewrite no_off_top.
  - eapply (Tokens_new_sema _ _ (Sema a) (u32 v)); try done; try weigh.
    by apply wrapu_range.
Qed.

Lemma good_lock_init l :
  At k (F_lock_init l) rest th -> holders k !! l = None -> Good k (F_lock_init l).
Proof.
  intros A Hh. pose proof (At_wf _ _ _ _ A) as W. pose proof A as [[Q X K] _ _].
  pose proof (k_lock _ _ K l) as Hl. unfold lock_acct in Hl. rewrite Hh in Hl.
  destruct (semas k !! LockSema l) eqn:Hs; [done|].
  eapply (Good_quiet k _ th _ rest [] A); [done| |repl W|].
  - split; try done. intros s'.
    by apply (wl_new_sema (set_holders (<[l := NULL]> (holders k)) k)).
  - destruct K as [H1 H2 H3 H4 H5 H6].
    assert (Hw : forall w, swap_tots k (F_lock_init l) [] w = tots k w)
      by (intros []; weigh).
    eapply Tokens_T; [intros w; symmetry; apply Hw|]. split; cbn; try done.
    + intros l'. unfold lock_acct. cbn. destruct (decide (l = l')) as [<-|].
      * by rewrite !lookup_insert_eq, Hl.
      * rewrite !lookup_insert_ne by congruence. apply H1.
    + intros s' sm0 [[<- <-]|[_ ?]]%lookup_insert_Some; [done|by eapply H2].
    + intros s' sm0 [[<- <-]|[Hne Hs']]%lookup_insert_Some; [done|]. by apply H3.
    + intros. rewrite lookup_insert_ne by done. by apply H6.
Qed.

Lemma good_cond_init c : At k (F_cond_init c) rest th -> Good k (F_cond_init c).
Proof.
  intros A. pose proof (At_wf _ _ _ _ A) as W. pose proof A as [[Q X K] _ _].
  eapply (Good_quiet k _ th _ rest [] A); [done|done|repl W|]. eapply Tokens_le; eauto; weigh.
Qed.

Lemma load_cond_run c ws k0 : conds k0 !! c = Some ws -> load_cond c k0 = Ok (ws, k0).
Proof. unfold load_cond. by intros ->. Qed.

Lemma good_cond_wait c l w ws :
  At k (F_cond_wait c l w) rest th -> holders k !! l = Some (running k) ->
  conds k !! c = Some ws -> semas k !! WaiterSema w = None -> Good k (F_cond_wait c l w).
Proof.
  intros A Hh Hc Hs. pose proof (At_wf _ _ _ _ A) as W. pose proof A as [[Q X K] _ _].
  pose proof (held_run l _ _ A Hh) as Hheld. rewrite Z.eqb_refl in Hheld.
  eapply (Good_quiet k (set_conds (<[c := ws ++ [w]]> (conds k))
    (set_semas (<[WaiterSema w := Semaphore 0 []]> (semas k)) k)) th _ rest
    [F_lock_release l; F_sema_down (WaiterSema w); F_lock_acquire l] A); [| |repl W|].
  - cbn. unfold cond_wait, intr_context. mnorm. rewrite X. cbn [negb]. mnorm. mstep Hheld.
    unfold sema_init, store_sema. mnorm.
    by mstep (load_cond_run c ws (set_semas (<[WaiterSema w := Semaphore 0 []]> (semas k)) k) Hc).
  - split; try done. intros s'. by apply (wl_new_sema k).
  - eapply (Tokens_new_sema _ _ (WaiterSema w) 0); try done; weigh.
Qed.

Lemma good_cond_signal c l ws :
  At k (F_cond_signal c l) rest th -> holders k !! l = Some (running k) ->
  conds k !! c = Some ws -> Good k (F_cond_signal c l).
Proof.
  intros A Hh Hc. pose proof (At_wf _ _ _ _ A) as W. pose proof A as [[Q X K] _ _].
  pose proof (held_run l _ _ A Hh) as Hheld. rewrite Z.eqb_refl in Hheld.
  assert (E : exec (F_cond_signal c l) k =
    match ws with
    | [] => Ok ([], k)
    | w :: ws => Ok ([F_sema_up (WaiterSema w)], set_conds (<[c := ws]> (conds k)) k)
    end).
  { cbn. unfold cond_signal, intr_context. mnorm. rewrite X. cbn [negb]. mnorm. mstep Hheld.
    mstep (load_cond_run c ws k Hc). by destruct ws. }
  destruct ws as [|w ws].
  - eapply (Good_quiet k _ th _ rest _ A E); [done|repl W|]. eapply Tokens_le; eauto; weigh.
  - eapply (Good_quiet k _ th _ rest _ A E); [done|repl W|]. eapply Tokens_le; eauto; weigh.
Qed.

Lemma good_cond_broadcast c l ws :
  At k (F_cond_broadcast c l) rest th -> conds k !! c = Some ws -> Good k (F_cond_broadcast c l).
Proof.
  intros A Hc. pose proof (At_wf _ _ _ _ A) as W. pose proof A as [[Q X K] _ _].
  assert (E : exec (F_cond_broadcast c l) k =
    Ok (match ws with [] => [] | _ => [F_cond_signal c l; F_cond_broadcast c l] end, k)).
  { cbn. unfold cond_broadcast. mstep (load_cond_run c ws k Hc). by destruct ws. }
  destruct ws as [|w ws].
  - eapply (Good_quiet k _ th _ rest _ A E); [done|repl W|]. eapply Tokens_le; eauto; weigh.
  - eapply (Good_quiet k _ th _ rest _ A E); [done|repl W|]. eapply Tokens_le; eauto; weigh.
Qed.

(** ** Threads: frames that keep the queues *)

Lemma good_thread_start page : At k (F_thread_start page) rest th -> Good k (F_thread_start page).
Proof.
  intros A. pose proof (At_wf _ _ _ _ A) as W. pose proof A as [[Q X K] Ht Hst].
  pose proof (At_weight _ _ _ _ W_start A) as Hge. cbn in Hge.
  assert (Hle : tots k W_start <= tots k W_idle).
  { apply tot_mono. intros []; cbn; repeat case_match; lia. }
  pose proof (k_idle _ _ K) as Hi.
  eapply (Good_quiet k _ th _ rest _ A); [done| |repl W|].
  - split; try done. intros. apply wl_new_sema. by apply (k_start _ _ K).
  - eapply (Tokens_new_sema _ _ IdleStarted (u32 0)); try done; try weigh.
    + by apply (k_start _ _ K).
    + intros Hc. exfalso. unfold swap_tots in Hc. cbn in Hc. destruct (_ =? _); lia.
Qed.

Lemma good_tid_read u : At k (F_tid_read u) rest th -> Good k (F_tid_read u).
Proof.
  intros A. pose proof (At_wf _ _ _ _ A) as W. pose proof A as [[Q X K] _ _].
  eapply (Good_quiet k _ th _ rest _ A); [done|done|repl W|]. eapply Tokens_le; eauto; weigh.
Qed.

Lemma good_tid_write u n : At k (F_tid_write u n) rest th -> Good k (F_tid_write u n).
Proof.
  intros A. pose proof (At_wf _ _ _ _ A) as W. pose proof A as [[Q X K] _ _].
  eapply (Good_quiet k _ th _ rest _ A); [done|done|repl W|]. eapply Tokens_le; eauto; weigh.
Qed.

Lemma good_kernel_thread fn : At k (F_kernel_thread fn) rest th -> Good k (F_kernel_thread fn).
Proof.
  intros A. pose proof (At_wf _ _ _ _ A) as W. pose proof A as [[Q X K] _ _].
  pose proof W as (-> & _ & _).
  eapply (Good_quiet k (set_if true k) th _ [] [F_body fn; F_thread_exit] A); [|done| |].
  - cbn. unfold kernel_thread. by mstep (intr_enable_run k X).
  - split; cbn; try done. split_and!; try done; [by repeat constructor|by left].
  - eapply Tokens_le; eauto; weigh.
Qed.

Lemma good_body_client : At k (F_body Fn_client) rest th -> Good k (F_body Fn_client).
Proof.
  intros A. pose proof (At_wf _ _ _ _ A) as W. pose proof A as [[Q X K] _ _].
  eapply (Good_quiet k k th _ rest [] A); [done|done|repl W|].
  - by rewrite Hf.
  - eapply Tokens_le; eauto; weigh.
Qed.

Lemma good_idle_wake : At k F_idle_wake rest th -> Good k F_idle_wake.
Proof.
  intros A. pose proof (At_wf _ _ _ _ A) as W. pose proof A as [[Q X K] _ _].
  eapply (Good_quiet k (set_if true k) th _ rest [F_idle_loop] A); [done|done|repl W|].
  eapply Tokens_le; eauto; weigh.
Qed.

(** Frames that only change members of a thread structure. *)
Lemma Good_relabel f t th0 th0' :
  At k f rest th -> exec f k = Ok ([], set_threads (<[t := th0']> (threads k)) k) ->
  threads k !! t = Some th0 -> status th0' = status th0 -> stack th0' = stack th0 ->
  magic th0' = magic th0 -> tf_if th0' = tf_if th0 ->
  (forall w, wt w f = 0) -> (forall k2, replaces k2 f rest []) -> Good k f.
Proof.
  intros A E Ht0 E1 E2 E3 E4 Hw R. pose proof A as [[Q X K] Ht Hst].
  set (k2 := set_threads (<[t := th0']> (threads k)) k).
  assert (exists th2, threads k2 !! running k = Some th2 /\ stack th2 = f :: rest) as (th2 & Ht2 & Hst2).
  { cbn. destruct (decide (t = running k)) as [->|].
    - exists th0'. rewrite lookup_insert_eq. split; congruence.
    - exists th. by rewrite lookup_insert_ne. }
  eapply (Good_calm k k2 th2 f rest []); try done.
  - by apply (Queues_relabel k _ t th0).
  - eapply Tokens_T; [|by apply (Tokens_relabel k _ t th0)].
    intros w. unfold swap_tots, k2. rewrite (tots_relabel k t th0), Hw by done. cbn. lia.
Qed.

Lemma good_set_priority p :
  At k (F_thread_set_priority p) rest th -> Good k (F_thread_set_priority p).
Proof.
  intros A. pose proof (At_wf _ _ _ _ A) as W. pose proof (At_sane _ _ _ _ A) as S.
  pose proof A as [_ Ht _].
  eapply (Good_relabel _ (running k) th (with_priority p th)); try done.
  - cbn. unfold thread_set_priority. mstep (thread_current_run _ _ S).
    by mstep (store_thread_run k _ th (with_priority p) Ht).
  - by intros [].
  - intros k2. repl W.
Qed.

Lemma good_tid_done_init n : At k (F_tid_done For_init n) rest th -> Good k (F_tid_done For_init n).
Proof.
  intros A. pose proof (At_wf _ _ _ _ A) as W. pose proof A as [[Q _ _] _ _].
  destruct (q_init _ _ Q) as [thi Hi].
  eapply (Good_relabel _ (initial_thread k) thi (with_tid n thi)); try done.
  - cbn. unfold tid_done. mnorm. by mstep (store_thread_run k _ thi (with_tid n) Hi).
  - by intros [].
  - intros k2. repl W.
Qed.

(** ** sema_up and interrupts *)

Lemma upped_th s sm k' f :
  At k f rest th -> upped k s sm k' ->
  exists th2, threads k' !! running k = Some th2 /\ stack th2 = f :: rest.
Proof.
  intros [_ Ht Hst] U. pose proof (u_stack _ _ _ _ U (running k)) as E. rewrite Ht in E. cbn in E.
  destruct (threads k' !! running k) as [th2|]; [|done]. exists th2. split; [done|].
  injection E as ->. done.
Qed.

Lemma upped_tots s sm k' w : upped k s sm k' -> tots k' w = tots k w.
Proof. intros U. apply tot_same. apply U. Qed.

(** A unit is added to a semaphore. *)
Lemma Tokens_upped s sm k' T' :
  Inv k -> semas k !! s = Some sm -> upped k s sm k' ->
  (forall l, s = LockSema l -> u32 (value sm + 1) + T' (W_lock l) = value sm + tots k (W_lock l)) ->
  (forall l, s <> LockSema l -> T' (W_lock l) = tots k (W_lock l)) ->
  (forall s, T' (W_loop s) = tots k (W_loop s)) -> (forall t, T' (W_new t) = tots k (W_new t)) ->
  T' W_idle = tots k W_idle -> T' W_start = tots k W_start -> Tokens k' T'.
Proof.
  intros [Q X K] Hs U W1 W1' W2 W3 W4 W5. pose proof (k_val _ _ K _ _ Hs) as Hv.
  eapply (Tokens_sema k _ _ _ s sm); [done|done|apply U|apply U|apply U|..]; cbn; try done; try lia.
  - intros t tht [Ht1 Ht2] Hst. apply (u_other _ _ _ _ U). intros Hin.
    assert (Hwl : wl k s = waiters sm) by (unfold wl; by rewrite Hs). rewrite <- Hwl in Hin.
    destruct (q_wait _ _ Q s t Hin) as (th2 & o & r & [E1 _] & E2). congruence.
  - by apply wrapu_range.
  - intros Hne. rewrite W2. destruct (waiters sm) as [|t ws] eqn:Ew; [done|].
    assert (Hne' : waiters sm <> []) by (by rewrite Ew).
    pose proof (k_wake _ _ K _ _ Hs Hne') as Hk. rewrite Ew in Hk. cbn in *.
    assert (u32 (value sm + 1) <= value sm + 1) by (apply Z.mod_le; destruct Hv; lia). lia.
  - intros s' _. rewrite W2. lia.
Qed.

Lemma good_sema_up s sm :
  At k (F_sema_up s) rest th -> semas k !! s = Some sm -> Good k (F_sema_up s).
Proof.
  intros A Hs. pose proof (At_wf _ _ _ _ A) as W. pose proof A as [I Ht Hst]. pose proof I as [Q X K].
  destruct (sema_up_spec k _ s sm Q Hs (fun _ => X)) as (k2 & E & Q2 & U).
  destruct (upped_th s sm k2 _ A U) as (th2 & Ht2 & Hst2).
  eapply (Good_calm k k2 th2 _ rest []); try done.
  - cbn. unfold no_frames. by mstep E.
  - apply U.
  - by rewrite (u_ext _ _ _ _ U).
  - repl W.
  - eapply (Tokens_upped s sm k2); try done; unfold swap_tots; intros;
      rewrite (upped_tots s sm k2 _ U); try weigh.
    subst s. pose proof (At_weight _ _ _ _ (W_lock l) A) as Hge. cbn [wt fsum foldr] in *.
    rewrite Z.eqb_refl in *. pose proof (k_lock _ _ K l) as Hl. unfold lock_acct in Hl. rewrite Hs in Hl.
    pose proof (k_val _ _ K _ _ Hs) as [Hv _]. destruct (holders k !! l) as [h|]; [|done].
    assert (value sm = 0) as -> by (destruct (h =? NULL); lia). change (u32 (0 + 1)) with 1. lia.
Qed.

(** The counters of the timer. *)
Lemma thread_tick_spec k0 th0 :
  sane k0 th0 -> in_external_intr k0 = true ->
  exists k', thread_tick k0 = Ok (tt, k') /\ threads k' = threads k0 /\ running k' = running k0 /\
    if_flag k' = if_flag k0 /\ in_external_intr k' = true /\ ready_list k' = ready_list k0 /\
    destruction_req k' = destruction_req k0 /\ idle_thread k' = idle_thread k0 /\
    initial_thread k' = initial_thread k0 /\ semas k' = semas k0 /\ holders k' = holders k0.
Proof.
  intros S X. unfold thread_tick. mstep (thread_current_run _ _ S). cbn [thread_ticks set_ticks].
  destruct (TIME_SLICE <=? _).
  - unfold intr_yield_on_return, intr_context. mnorm. cbn [in_external_intr set_ticks]. rewrite X.
    mnorm. eexists. split; [done|]. by split_and!.
  - eexists. split; [done|]. by split_and!.
Qed.

(** The end of [intr_handler]: a yield may be due. *)
Definition intr_end (k2 : kstate) : list frame :=
  if yield_on_return k2 then [F_thread_yield] else [].

Lemma intr_handler_run h k2 :
  in_external_intr k = false -> if_flag k = false ->
  intr_handlers h (set_intr true false k) = Ok (tt, k2) ->
  if_flag k2 = false -> in_external_intr k2 = true ->
  intr_handler h k = Ok (intr_end k2, set_intr false (yield_on_return k2) k2).
Proof.
  intros X Hif E Hif2 X2. unfold intr_handler, intr_get_level, intr_context. mnorm.
  rewrite Hif. cbn [negb]. mnorm. rewrite X. cbn [negb]. mnorm. mstep E. rewrite Hif2.
  cbn [negb]. mnorm. rewrite X2. by mnorm.
Qed.

Lemma intr_replaces h k2 k3 :
  At k (F_intr_handler h) rest th -> replaces k3 (F_intr_handler h) rest (intr_end k2).
Proof.
  intros A. pose proof (At_wf _ _ _ _ A) as ([Hd Hne] & Hn & Hw). unfold intr_end.
  destruct (yield_on_return k2); split; cbn; try done. by rewrite no_off_top.
Qed.

Lemma intr_end_weight h k2 k0 w : swap_tots k0 (F_intr_handler h) (intr_end k2) w = tots k0 w.
Proof. unfold swap_tots, intr_end. destruct (yield_on_return k2), w; cbn; lia. Qed.

Lemma good_intr_timer : At k (F_intr_handler H_timer) rest th -> Good k (F_intr_handler H_timer).
Proof.
  intros A. pose proof A as [[Q X K] Ht Hst]. pose proof (At_off _ _ _ _ A eq_refl) as Hif.
  pose proof (At_sane _ _ _ _ A) as S.
  set (k1 := set_ticks (thread_ticks k) (idle_ticks k) (kernel_ticks k) (s64 (ticks k + 1))
               (set_intr true false k)).
  destruct (thread_tick_spec k1 th S eq_refl)
    as (k2 & E & E1 & E2 & E3 & E4 & E5 & E6 & E7 & E8 & E9 & E10).
  eapply (Good_quiet k _ th _ rest _ A).
  - cbn. apply (intr_handler_run H_timer k2); try done. by rewrite E3.
  - split; try done. intros s. unfold wl. cbn. by rewrite E9.
  - by eapply intr_replaces.
  - eapply Tokens_T; [intros w; symmetry; apply intr_end_weight|].
    eapply Tokens_le; eauto; done.
Qed.

Lemma good_intr_spurious :
  At k (F_intr_handler H_spurious) rest th -> Good k (F_intr_handler H_spurious).
Proof.
  intros A. pose proof A as [[Q X K] Ht Hst]. pose proof (At_off _ _ _ _ A eq_refl) as Hif.
  eapply (Good_quiet k _ th _ rest _ A).
  - cbn. by apply (intr_handler_run H_spurious (set_intr true false k)).
  - by split.
  - by eapply intr_replaces.
  - eapply Tokens_T; [intros w; symmetry; apply intr_end_weight|].
    eapply Tokens_le; eauto; done.
Qed.

Lemma good_intr_sema_up s sm :
  At k (F_intr_handler (H_sema_up s)) rest th -> semas k !! s = Some sm ->
  Good k (F_intr_handler (H_sema_up s)).
Proof.
  intros A Hs. pose proof A as [I Ht Hst]. pose proof I as [Q X K].
  pose proof (At_off _ _ _ _ A eq_refl) as Hif.
  pose proof (At_wf _ _ _ _ A) as ([Hd Hne] & Hn & Hw).
  assert (Q1 : Queues (set_intr true false k) (Some (running k))).
  { eapply Queues_ext; [exact Q|..]; done. }
  destruct (sema_up_spec _ _ s sm Q1 Hs) as (k2 & E & Q2 & [U1 U2 U3 U4 U5 U6 U7 U8]).
  { cbn. by rewrite Hif. }
  set (k3 := set_intr false (yield_on_return k2) k2).
  assert (U : upped k s sm k3) by (by split).
  destruct (upped_th s sm k3 _ A U) as (th2 & Ht2 & Hst2).
  eapply (Good_calm k k3 th2 _ rest _); try done.
  - cbn. apply (intr_handler_run (H_sema_up s) k2); try done. by rewrite U2.
  - eapply Queues_ext; [exact Q2|..]; try done.
    intros th' Ht' Hoff. cbn in *. by rewrite U2.
  - by eapply intr_replaces.
  - eapply Tokens_T; [intros w; symmetry; apply intr_end_weight|].
    eapply Tokens_T; [intros w; symmetry; apply (upped_tots s sm k3 w U)|].
    apply (Tokens_upped s sm k3); try done. by intros l ->.
Qed.

(** ** Creating threads *)

Lemma tots_nonneg w : Inv k -> 0 <= tots k w.
Proof.
  intros [Q _ _]. apply tot_nonneg. intros t th' Ht. apply fsum_nonneg. apply (q_thr _ _ Q _ _ Ht).
Qed.

Lemma good_thread_create nm prio fn page :
  At k (F_thread_create nm prio fn page) rest th -> threads k !! page = None ->
  page = NULL \/ PRI_MIN <= prio <= PRI_MAX -> Good k (F_thread_create nm prio fn page).
Proof.
  intros A Hp Hprio. pose proof (At_wf _ _ _ _ A) as W. pose proof A as [I Ht Hst].
  pose proof I as [Q X K]. destruct (Z.eqb_spec page NULL) as [E0|Hne].
  { eapply (Good_quiet k k th _ rest [] A); [|done|repl W|].
    - cbn. unfold thread_create. by rewrite E0.
    - eapply Tokens_le; eauto; weigh. }
  set (nt := Thread 0 THREAD_BLOCKED (take 15 nm) prio false THREAD_MAGIC []).
  set (k2 := set_threads (<[page := nt]> (threads k)) k).
  assert (Hrp : running k <> page) by (intros E; congruence).
  assert (Htot : forall w, tots k2 w = tots k w).
  { intros w. unfold tots, k2. cbn [threads set_threads].
    rewrite tot_fresh by done. done. }
  assert (Hnew : tots k (W_new page) <= 0).
  { destruct (k_new _ _ K page) as [_ Hn]. destruct (Z_le_gt_dec (tots k (W_new page)) 0); [done|].
    destruct Hn as (thn & [Hn _] & _); [lia|]. congruence. }
  eapply (Good_calm k k2 th _ rest [F_lock_acquire tid_lock; F_tid_read (For_create page fn)]); try done.
  - cbn. unfold thread_create, init_thread. destruct (Z.eqb_spec page NULL); [done|]. mnorm.
    cbn [negb]. mnorm. destruct Hprio as [?|[? ?]]; [done|].
    destruct (Z.leb_spec PRI_MIN prio), (Z.leb_spec prio PRI_MAX); try lia. cbn [andb]. by mnorm.
  - apply Queues_new; try done. congruence.
  - cbn. by rewrite lookup_insert_ne.
  - repl W.
  - eapply (Tokens_T _ (swap_tots k _ _)); [intros w; unfold swap_tots; by rewrite Htot|].
    unfold swap_tots. destruct K as [H1 H2 H3 H4 H5 H6].
    split; try done.
    + intros l. unfold lock_acct. cbn. specialize (H1 l). unfold lock_acct in H1.
      by rewrite Z.sub_0_r, Z.add_0_r.
    + intros s sm Hs Hw. specialize (H3 s sm Hs Hw). cbn in *. lia.
    + intros t. destruct (H4 t) as [Hle Hn]. cbn [wt fsum foldr].
      destruct (Z.eqb_spec t page) as [->|Hne2].
      * split; [lia|]. intros _. exists nt. unfold has_status. cbn. by rewrite lookup_insert_eq.
      * split; [lia|]. intros Hge. destruct Hn as (thn & [? ?] & ?); [lia|]. exists thn.
        unfold has_status. cbn. by rewrite lookup_insert_ne.
    + cbn. destruct fn; lia.
    + cbn. intros. apply H6. lia.
Qed.

Lemma good_tid_done_create t fn n :
  At k (F_tid_done (For_create t fn) n) rest th -> Good k (F_tid_done (For_create t fn) n).
Proof.
  intros A. pose proof (At_wf _ _ _ _ A) as W. pose proof A as [I Ht Hst]. pose proof I as [Q X K].
  pose proof (At_weight _ _ _ _ (W_new t) A) as Hge. cbn [wt] in Hge. rewrite Z.eqb_refl in Hge.
  destruct (k_new _ _ K t) as [Hle Hn]. destruct (Hn Hge) as (tn & [Htn Hsn] & Hstn).
  destruct (q_thr _ _ Q _ _ Htn) as [T1 T2 _ _ _ _].
  assert (Hrt : t <> running k) by (intros ->; congruence).
  set (tn' := Thread n THREAD_READY (name tn) (priority tn) true (magic tn) [F_kernel_thread fn]).
  set (k2 := set_threads (<[t := tn']> (threads k)) (set_ready (ready_list k ++ [t]) k)).
  assert (Htot : forall w, tots k2 w = tots k w + wt w (F_kernel_thread fn)).
  { intros w. unfold tots, k2. cbn [threads set_threads set_ready].
    rewrite (tot_insert _ _ _ _ _ Htn), Hstn. cbn [stack tn']. rewrite fsum_cons.
    cbn [fsum foldr]. lia. }
  eapply (Good_calm k (set_if (if_flag k) k2) th _ rest []); try done.
  - cbn. unfold tid_done. mstep (store_thread_run k t tn (with_tid n) Htn).
    set (k3 := set_threads _ k).
    mstep (store_thread_run k3 t (with_tid n tn)
      (fun th => with_stack [F_kernel_thread fn] (with_tf_if true th))
      ltac:(cbn; by rewrite lookup_insert_eq)).
    set (k4 := set_threads _ k3). set (th4 := with_stack _ _) in *.
    assert (H4 : threads k4 !! t = Some th4) by (cbn; by rewrite lookup_insert_eq).
    mstep (thread_unblock_run k4 t th4 (conj H4 Hsn) T1 T2 (fun _ => X)).
    unfold ret, put_status. cbn. by rewrite !insert_insert_eq.
  - eapply Queues_ext; [apply (Queues_start k (Some (running k)) t tn tn' Q (conj Htn Hsn) Hstn)|..];
      try done; [by exists fn|].
    cbn. intros th' Ht' Hoff. rewrite lookup_insert_ne in Ht' by done. by eapply (top_off_if k).
  - cbn. by rewrite lookup_insert_ne.
  - repl W.
  - apply (Tokens_T _ (fun w => tots k w + wt w (F_kernel_thread fn)
                         - wt w (F_tid_done (For_create t fn) n) + fsum (wt w) [])).
    { intros w. unfold swap_tots. change (tots (set_if _ k2) w) with (tots k2 w). by rewrite Htot. }
    destruct K as [H1 H2 H3 H4 H5 H6]. split; try done.
    + intros l. unfold lock_acct. cbn. specialize (H1 l). unfold lock_acct in H1.
      by rewrite !Z.add_0_r, Z.sub_0_r.
    + intros s sm Hs Hw. specialize (H3 s sm Hs Hw). cbn in *. lia.
    + intros u. destruct (H4 u) as [Hle' Hn']. cbn [wt fsum foldr].
      destruct (Z.eqb_spec u t) as [->|Hne2]; [lia|].
      split; [lia|]. intros Hge'. destruct Hn' as (thn & [? ?] & ?); [lia|]. exists thn.
      unfold has_status. cbn. by rewrite lookup_insert_ne.
    + cbn. destruct fn; lia.
    + cbn. intros. apply H6. lia.
Qed.

Lemma good_body_idle : At k (F_body Fn_idle) rest th -> Good k (F_body Fn_idle).
Proof.
  intros A. pose proof (At_wf _ _ _ _ A) as (Hr & Hn & Hw). pose proof A as [I Ht Hst].
  pose proof I as [Q X K]. pose proof (At_weight _ _ _ _ W_idle A) as Hge. cbn [wt] in Hge.
  pose proof (k_idle _ _ K) as Hi. pose proof (At_sane _ _ _ _ A) as S.
  assert (Hi0 : idle_thread k = NULL) by (destruct (Z.eqb_spec (idle_thread k) NULL); [done|lia]).
  set (fs := [F_sema_up IdleStarted; F_idle_loop]).
  exists fs, (set_idle (running k) k), (put_stack (running k) (fs ++ rest) th (set_idle (running k) k)).
  split_and!.
  - cbn. unfold idle_start. by mstep (thread_current_run _ _ S).
  - by apply (set_top_run _ _ _ (F_body Fn_idle) rest).
  - split; [|done|].
    + apply (Queues_set_idle k (running k)); try done. rewrite Hr. cbn. split_and!; try done;
        repeat constructor.
    + eapply Tokens_T; [intros w; symmetry; by apply (tots_put_stack _ _ _ (F_body Fn_idle) rest)|].
      apply Tokens_put_stack; [done|by rewrite Hst|].
      change (swap_tots (set_idle (running k) k)) with (swap_tots k).
      destruct K as [H1 H2 H3 H4 H5 H6]. split; try done.
      * intros l. specialize (H1 l). unfold lock_acct, swap_tots in *. cbn in *.
        by rewrite Z.sub_0_r, Z.add_0_r.
      * intros s sm Hs Hws. specialize (H3 s sm Hs Hws). unfold swap_tots. cbn in *. lia.
      * intros t. destruct (H4 t) as [? Hn']. unfold swap_tots. cbn [fs wt fsum foldr].
        split; [lia|]. intros. apply Hn'. lia.
      * unfold swap_tots. cbn [fs wt fsum foldr idle_thread set_idle]. rewrite Hi0, Z.eqb_refl in H5.
        clear -H5. destruct (running k =? NULL); lia.
      * unfold swap_tots. cbn. intros. apply H6. lia.
Qed.

(** ** Frames that give up the processor *)

Lemma Tokens_scheduled k1 k2 T :
  Tokens k1 T -> same_objs k1 k2 -> same_stacks k1 k2 -> Queues k2 (Some (running k2)) ->
  Tokens k2 T.
Proof.
  intros [H1 H2 H3 H4 H5 H6] [E1 E2 E3 E4 E5 E6 E7 E8] [S1 S2] Q2.
  split; rewrite ?E1, ?E2, ?E5; try done.
  - intros l. unfold lock_acct. rewrite E1, E2. apply H1.
  - intros t. destruct (H4 t) as [? Hn]. split; [done|]. intros (thn & [Ht Hs] & Hst)%Hn.
    pose proof (S1 t) as F1. rewrite Ht in F1. destruct (threads k2 !! t) as [th2|] eqn:Ht2; [|done].
    cbn in F1. injection F1 as F1. exists th2. unfold has_status. rewrite F1. split_and!; try done.
    assert (Hne : t <> running k2).
    { intros ->. destruct (run_th _ _ Q2) as (th3 & F2 & F3 & [_ _ _ _ _ F4]). unfold status_ok in F4.
      rewrite F3 in F4. simplify_eq. rewrite F1 in F4. tauto. }
    pose proof (S2 t Hne) as F2. rewrite Ht, Ht2 in F2. cbn in F2. congruence.
Qed.

Lemma scheduled_th k1 k2 t th1 :
  same_stacks k1 k2 -> threads k1 !! t = Some th1 ->
  exists th2, threads k2 !! t = Some th2 /\ stack th2 = stack th1 /\
    (t <> running k2 -> status th2 = status th1).
Proof.
  intros [S1 S2] Ht. specialize (S1 t). specialize (S2 t). rewrite Ht in *.
  destruct (threads k2 !! t) as [th2|]; [|done]. cbn in *. exists th2.
  split_and!; try done; [congruence|]. intros Hne. specialize (S2 Hne). congruence.
Qed.

Lemma tots_scheduled k1 k2 w : same_stacks k1 k2 -> tots k2 w = tots k1 w.
Proof. intros S. apply tot_same. apply S. Qed.

Lemma tots_put_status k0 t st th0 w :
  threads k0 !! t = Some th0 -> tots (put_status t st th0 k0) w = tots k0 w.
Proof. intros Ht. by apply (tots_relabel k0 t th0 (with_status st th0)). Qed.

(** Sleepers and the thread that joins them are all in the loop. *)
Lemma sleepers_count s old :
  At k (F_sema_down_loop s old) rest th ->
  Z.of_nat (length (wl k s)) + 1 <= tots k (W_loop s).
Proof.
  intros [[Q _ _] Ht Hst]. destruct (running_not_queued k _ Q) as (_ & _ & Hn).
  replace (Z.of_nat (length (wl k s)) + 1) with (Z.of_nat (length (running k :: wl k s)))
    by (cbn [length]; lia).
  assert (Hnn : forall t th, threads k !! t = Some th -> 0 <= fsum (wt (W_loop s)) (stack th)).
  { intros t' th' Ht'. apply fsum_nonneg. apply (q_thr _ _ Q _ _ Ht'). }
  assert (Hone : forall th' o r, stack th' = F_sema_down_loop s o :: r -> wf (stack th') ->
            1 <= fsum (wt (W_loop s)) (stack th')).
  { intros th' o r E Hw. rewrite E in *. rewrite fsum_cons. cbn [wt].
    rewrite bool_decide_eq_true_2 by done. destruct Hw as (_ & _ & Hw).
    pose proof (fsum_nonneg (W_loop s) r Hw). lia. }
  apply tot_count; [|done|].
  - apply NoDup_cons. split; [apply Hn|apply Q].
  - intros t [->|Hin]%elem_of_cons.
    + exists th. split; [done|]. eapply Hone; [done|]. apply (q_thr _ _ Q _ _ Ht).
    + destruct (q_wait _ _ Q s t Hin) as (th' & o & r & [Ht' _] & E). exists th'.
      split; [done|]. eapply Hone; [done|]. apply (q_thr _ _ Q _ _ Ht').
Qed.

Lemma good_sema_down_sleep s old sm :
  At k (F_sema_down_loop s old) rest th -> semas k !! s = Some sm -> value sm = 0 -> can_run k ->
  Good k (F_sema_down_loop s old).
Proof.
  intros A Hs Hv Hcan. pose proof (At_wf _ _ _ _ A) as W. pose proof A as [I Ht Hst].
  pose proof I as [Q X K]. pose proof (At_off _ _ _ _ A eq_refl) as Hif.
  pose proof (At_sane _ _ _ _ A) as S. destruct (running_not_queued k _ Q) as (_ & Nd & _).
  set (sm' := Semaphore (value sm) (waiters sm ++ [running k])).
  set (k0 := set_semas (<[s := sm']> (semas k)) k).
  set (k1 := put_status (running k) THREAD_BLOCKED th k0).
  destruct (schedule_spec k1) as (k2 & E & Q2 & SO & SS & _ & _);
    [by apply (Queues_block k th s old rest sm)|done|done|done|].
  destruct (scheduled_th k1 k2 (running k) (with_status THREAD_BLOCKED th)) as (th2 & Ht2 & Hst2 & _);
    [done|cbn; by rewrite lookup_insert_eq|]. cbn in Hst2.
  eapply (Good_sched k k2 th2 _ rest [F_sema_down_loop s old]); try done.
  - cbn. unfold sema_down_loop. mstep (load_sema_run s sm k Hs).
    destruct (Z.eqb_spec (value sm) 0); [|done].
    mstep (thread_current_run _ _ S). unfold store_sema. mnorm.
    by mstep (eq_trans (thread_block_run k0 th S X Hif) E).
  - by rewrite (so_ext _ _ SO).
  - congruence.
  - change ([F_sema_down_loop s old] ++ rest) with (F_sema_down_loop s old :: rest).
    rewrite <- Hst, <- Hst2. by eapply stack_change_id.
  - eapply Tokens_T; [|eapply (Tokens_scheduled k1 k2 (tots k)); try done].
    + intros w. unfold swap_tots. rewrite (tots_scheduled k1 k2 w SS). unfold k1.
      rewrite tots_put_status by done. change (tots k0 w) with (tots k w). cbn [fsum foldr]. lia.
    + eapply (Tokens_sema k _ _ _ s sm sm'); try done.
      * intros u thu [Hu _] Hstu. cbn. rewrite lookup_insert_ne; [done|]. intros <-. congruence.
      * by apply (k_val _ _ K _ _ Hs).
      * intros _. cbn. rewrite length_app, Hv. cbn [length].
        pose proof (sleepers_count s old A) as Hc. unfold wl in Hc. rewrite Hs in Hc. cbn in Hc. lia.
Qed.

(** The threads queued for destruction carry no weight. *)
Definition reapable (k0 : kstate) : Prop :=
  NoDup (destruction_req k0) /\
  forall t, t ∈ destruction_req k0 ->
    exists th, has_status k0 t THREAD_DYING th /\ dying_stack (stack th).

Lemma Queues_reapable k0 r : Queues k0 r -> reapable k0.
Proof.
  intros Q. split; [apply Q|]. intros t (_ & th' & Ht & Hs)%(q_destr _ _ Q). exists th'.
  split; [by split|]. destruct (q_thr _ _ Q _ _ Ht) as [_ _ _ _ _ T]. unfold status_ok in T.
  rewrite Hs in T. tauto.
Qed.

Lemma tots_destroyed k0 w : reapable k0 -> tots (destroyed k0) w = tots k0 w.
Proof.
  intros [Hnd Hv]. unfold tots, destroyed. cbn [threads set_destruction set_threads].
  assert (H : forall l m, NoDup l -> (forall t, t ∈ l -> exists th, m !! t = Some th /\
            fsum (wt w) (stack th) = 0) -> tot (wt w) (destroy l m) = tot (wt w) m).
  { induction l as [|v l IH]; intros m Hnd' Hl; [done|]. apply NoDup_cons in Hnd' as [Hv' Hnd']. cbn.
    destruct (Hl v) as (th' & Hm & Hw); [set_solver|].
    rewrite IH, (tot_delete _ m v th' Hm); [lia|done|].
    intros t Ht. rewrite lookup_delete_ne by (intros ->; done). apply Hl. set_solver. }
  apply H; [done|]. intros t (th' & [Ht _] & Hd)%Hv. exists th'. split; [done|]. by apply fsum_dying.
Qed.

Lemma Tokens_destroyed k0 T : reapable k0 -> Tokens k0 T -> Tokens (destroyed k0) T.
Proof.
  intros [_ Hv] [H1 H2 H3 H4 H5 H6]. split; try done. intros t. destruct (H4 t) as [? Hn].
  split; [done|]. intros (thn & [Ht Hs] & Hst)%Hn. exists thn. split; [|done]. split; [|done].
  cbn. rewrite lookup_destroy. case_decide as E; [|done].
  apply Hv in E as (th' & [? ?] & _). congruence.
Qed.

Lemma Tokens_put_status k0 T t st th0 :
  threads k0 !! t = Some th0 -> stack th0 <> [] -> Tokens k0 T ->
  Tokens (put_status t st th0 k0) T.
Proof.
  intros Ht Hne [H1 H2 H3 H4 H5 H6]. split; try done.
  intros u. destruct (H4 u) as [? Hu]. split; [done|]. intros (thu & [Hu1 Hu2] & Hu3)%Hu.
  exists thu. split; [|done]. split; [|done]. cbn. rewrite lookup_insert_ne; [done|].
  intros ->. congruence.
Qed.

(** What a thread finds when it comes back from [do_schedule]. *)
Record left_cpu (k0 : kstate) (th0 : thread) (st : thread_status) (k2 : kstate) : Prop := {
  lc_queues : Queues k2 (Some (running k2));
  lc_ext : in_external_intr k2 = in_external_intr k0;
  lc_idle : idle_thread k2 = idle_thread k0;
  lc_th : exists th2, threads k2 !! running k0 = Some th2 /\ stack th2 = stack th0 /\
    (status th2 = st /\ running k0 <> running k2 \/
     status th2 = THREAD_RUNNING /\ st <> THREAD_DYING);
  lc_tots w : tots k2 w = tots k0 w;
  lc_tokens : Tokens k2 (tots k0)
}.

Lemma left_cpu_scheduled k0 th0 st k1 k2 :
  threads k1 !! running k0 = Some (with_status st th0) ->
  in_external_intr k1 = in_external_intr k0 -> idle_thread k1 = idle_thread k0 ->
  (forall w, tots k1 w = tots k0 w) -> Tokens k1 (tots k0) ->
  Queues k2 (Some (running k2)) -> same_objs k1 k2 -> same_stacks k1 k2 ->
  (forall th, threads k1 !! running k2 = Some th -> status th <> THREAD_DYING) ->
  left_cpu k0 th0 st k2.
Proof.
  intros Ht1 E1 E2 E3 HT Q2 SO SS Hd. split; [done|..].
  - by rewrite (so_ext _ _ SO).
  - by rewrite (so_idle _ _ SO).
  - destruct (scheduled_th k1 k2 _ _ SS Ht1) as (th2 & Ht2 & Hst2 & Hstat). cbn in *.
    exists th2. split_and!; try done.
    destruct (decide (running k0 = running k2)) as [Er|]; [|left; auto]. right.
    destruct (run_th _ _ Q2) as (th3 & F1 & F2 & _). rewrite <- Er, Ht2 in F1.
    injection F1 as <-. split; [done|]. apply (Hd (with_status st th0)). by rewrite <- Er.
  - intros w. by rewrite (tots_scheduled k1 k2 w SS).
  - by eapply Tokens_scheduled.
Qed.

Lemma do_schedule_spec k0 th0 st :
  sane k0 th0 -> stack th0 <> [] -> if_flag k0 = false -> running k0 ∉ destruction_req k0 ->
  reapable k0 -> Queues (put_status (running k0) st th0 (destroyed k0)) None -> can_run k0 ->
  Tokens k0 (tots k0) ->
  exists k2, do_schedule st k0 = Ok (tt, k2) /\ left_cpu k0 th0 st k2 /\
    picks k0 (running k2) (ready_list k2).
Proof.
  intros S Hne Hif Hn Hre Q1 Hcan HT. pose proof S as (Ht & _).
  set (k1 := put_status (running k0) st th0 (destroyed k0)) in *.
  assert (Htd : threads (destroyed k0) !! running k0 = Some th0).
  { cbn. rewrite lookup_destroy. by rewrite decide_False. }
  destruct (schedule_spec k1 Q1 Hif) as (k2 & E & Q2 & SO & SS & Hd & Hp);
    [apply not_elem_of_nil|done|].
  exists k2. split; [by rewrite (do_schedule_run k0 th0)|]. split; [|exact Hp].
  eapply (left_cpu_scheduled k0 th0 st k1); try done.
  - cbn. by rewrite lookup_insert_eq.
  - intros w. unfold k1. rewrite tots_put_status by done. by apply tots_destroyed.
  - apply Tokens_put_status; [done|done|]. by apply Tokens_destroyed.
Qed.

(** The state in which [thread_yield] calls [do_schedule]. *)
Definition requeued : kstate :=
  if running k =? idle_thread k then set_if false k
  else set_ready (ready_list k ++ [running k]) (set_if false k).

Lemma thread_yield_spec :
  At k F_thread_yield rest th ->
  exists k2, thread_yield k = Ok ([F_intr_set_level (if_flag k)], k2) /\
    left_cpu requeued th THREAD_READY k2 /\ picks requeued (running k2) (ready_list k2).
Proof.
  intros A. pose proof A as [I Ht Hst]. pose proof I as [Q X K]. pose proof (At_sane _ _ _ _ A) as S.
  destruct (running_not_queued k _ Q) as (_ & Nd & _). set (ki := set_if false k).
  assert (Qi : Queues ki (Some (running ki))) by (eapply Queues_ext; [exact Q|..]; done).
  assert (Er : running requeued = running k) by (unfold requeued; by destruct (_ =? _)).
  destruct (do_schedule_spec requeued th THREAD_READY) as (k2 & Edo & L & P).
  - unfold requeued. by destruct (_ =? _).
  - by rewrite Hst.
  - unfold requeued. by destruct (_ =? _).
  - unfold requeued. by destruct (_ =? _).
  - pose proof (Queues_reapable ki _ Qi) as Hre. unfold requeued. by destruct (_ =? _).
  - pose proof (Queues_yield (destroyed ki) th (Queues_destroy ki (running ki) Qi eq_refl)) as Hy.
    rewrite Er. unfold requeued. cbn in Hy. rewrite lookup_destroy, decide_False in Hy by done.
    specialize (Hy Ht). by destruct (_ =? _).
  - unfold can_run, requeued. destruct (Z.eqb_spec (running k) (idle_thread k)) as [E|]; cbn.
    + right. rewrite <- E. apply S.
    + left. by destruct (ready_list k).
  - eapply (Tokens_le k); [exact K|..]; unfold requeued; destruct (_ =? _); done.
  - exists k2. split_and!; [|done|done]. unfold thread_yield, intr_context.
    mstep (thread_current_run _ _ S). rewrite X. cbn [negb]. mnorm. mstep (intr_disable_run k).
    change (idle_thread (set_if false k)) with (idle_thread k).
    unfold requeued in Edo. destruct (running k =? idle_thread k); mnorm; by mstep Edo.
Qed.

Lemma good_thread_yield : At k F_thread_yield rest th -> Good k F_thread_yield.
Proof.
  intros A. pose proof (At_wf _ _ _ _ A) as (Hne & Hoff & Hw). pose proof A as [I Ht Hst].
  destruct (thread_yield_spec A) as (k2 & E & [L1 L2 L3 (th2 & Ht2 & Hst2 & Hs2) L5 L6] & _).
  assert (Hkr : forall w, tots requeued w = tots k w) by (intros w; unfold requeued; by destruct (_ =? _)).
  assert (Er : running requeued = running k) by (unfold requeued; by destruct (_ =? _)).
  rewrite Er in Ht2. eapply (Good_sched k k2 th2 _ rest [F_intr_set_level (if_flag k)]); try done.
  - rewrite L2. unfold requeued. destruct I as [_ X _]. by destruct (_ =? _).
  - congruence.
  - destruct (stack_change_id k2 _ _ th2 L1 Ht2) as (_ & _ & C1 & C2 & _).
    rewrite Hst2, Hst in C1, C2. split_and!; cbn; try done.
    by destruct Hs2 as [[-> _]|[-> _]].
  - eapply Tokens_T; [|exact L6]. intros w. unfold swap_tots. rewrite L5, Hkr. destruct w; cbn; lia.
Qed.

Lemma good_thread_exit : At k F_thread_exit rest th -> can_run k -> Good k F_thread_exit.
Proof.
  intros A Hcan. pose proof (At_wf _ _ _ _ A) as (Hd & Hoff & Hw). pose proof A as [I Ht Hst].
  pose proof I as [Q X K]. pose proof (At_sane _ _ _ _ A) as S.
  destruct (running_not_queued k _ Q) as (_ & Nd & _).
  set (ki := set_if false k).
  assert (Qi : Queues ki (Some (running ki))) by (eapply Queues_ext; [exact Q|..]; done).
  destruct (do_schedule_spec ki th THREAD_DYING)
    as (k2 & Edo & [L1 L2 L3 (th2 & Ht2 & Hst2 & Hs2) L5 L6] & _); try done.
  - by rewrite Hst.
  - by eapply Queues_reapable.
  - apply (Queues_exit (destroyed ki) th rest); [by apply Queues_destroy| |done].
    cbn. rewrite lookup_destroy. by rewrite decide_False.
  - eapply (Tokens_le k); [exact K|..]; done.
  - destruct Hs2 as [[Hs2 Hne]|[_ ?]]; [|done].
    eapply (Good_sched k k2 th2 _ rest []); try done.
    + cbn. unfold thread_exit, intr_context. mnorm. rewrite X. cbn [negb]. mnorm.
      mstep (intr_disable_run k). by mstep Edo.
    + by rewrite L2.
    + congruence.
    + destruct (stack_change_id k2 _ _ th2 L1 Ht2) as (_ & _ & C1 & C2 & _).
      rewrite Hst2, Hst in C1. split_and!; cbn; try done.
      * by rewrite no_off_top.
      * intros Ei. by apply C1 in Ei.
      * by destruct Hd as [-> | ->].
      * rewrite Hs2. by left.
    + eapply Tokens_T; [|exact L6]. intros w. unfold swap_tots. rewrite L5. destruct w; cbn; lia.
Qed.

Lemma good_idle_loop : At k F_idle_loop rest th -> Good k F_idle_loop.
Proof.
  intros A. pose proof (At_wf _ _ _ _ A) as (Hne & Hoff & Hw). pose proof A as [I Ht Hst].
  pose proof I as [Q X K]. pose proof (At_sane _ _ _ _ A) as S.
  destruct (running_not_queued k _ Q) as (_ & Nd & _).
  destruct (q_thr _ _ Q _ _ Ht) as [T1 T2 T3 T4 T6 T5]. rewrite Hst in T6. specialize (T6 eq_refl).
  set (ki := set_if false k).
  assert (Qi : Queues ki (Some (running ki))) by (eapply Queues_ext; [exact Q|..]; done).
  set (k1 := put_status (running k) THREAD_BLOCKED th ki).
  destruct (schedule_spec k1) as (k2 & E & Q2 & SO & SS & Hd & _);
    [by apply (Queues_block_idle ki th)|done|done|right; change (idle_thread k <> NULL); by rewrite <- T6|].
  destruct (left_cpu_scheduled k th THREAD_BLOCKED k1 k2)
    as [L1 L2 L3 (th2 & Ht2 & Hst2 & Hs2) L5 L6]; try done.
  - cbn. by rewrite lookup_insert_eq.
  - intros w. by apply (tots_put_status ki).
  - apply Tokens_put_status; [done|by rewrite Hst|]. eapply (Tokens_le k); [exact K|..]; done.
  - eapply (Good_sched k k2 th2 _ rest [F_idle_wake]); try done.
    + change (exec F_idle_loop k) with (idle_loop k). unfold idle_loop. mstep (intr_disable_run k). fold ki.
      by mstep (eq_trans (thread_block_run ki th S X eq_refl) E).
    + by rewrite L2.
    + congruence.
    + split_and!; cbn; try done; [by rewrite L3|].
      rewrite L3. destruct Hs2 as [[-> _]|[-> _]]; [by left|done].
    + eapply Tokens_T; [|exact L6]. intros w. unfold swap_tots. rewrite L5. destruct w; cbn; lia.
Qed.
End Frames.
