(* ===== verification/KernelSafety.v ===== *)
(** * Safety of the kernel's threads and synchronisation

    Every reachable state of Machine.v satisfies the invariant of
    KernelInv.v.  The theorems spell out what this means: the scheduler's
    bookkeeping, mutual exclusion, that no wake-up is lost, and that the
    kernel's assertions fail only when a caller breaks a documented
    obligation. *)

From S2P Require Import Prelude Kernel Synch Machine SchedInv KernelInv.

(** ** What callers owe *)

(** Some thread can be scheduled: the run queue is not empty or the idle
    thread exists. *)
Definition can_runb (k : kstate) : bool :=
  negb (bool_decide (ready_list k = [])) || negb (idle_thread k =? NULL).

Definition holds (k : kstate) (l : Z) : bool :=
  match holders k !! l with Some h => h =? running k | None => false end.

(** The obligations synch.h and thread.h state for each call, at the frame
    that checks them: objects are initialised, a lock is not acquired twice
    and is released by its holder, priorities are in range, [timer_sleep] is
    called with interrupts on; and a thread that sleeps or exits leaves
    another one to run, which is guaranteed once the idle thread exists. *)
Definition obliged (k : kstate) (f : frame) : bool :=
  match f with
  | F_sema_down_loop s _ =>
      match semas k !! s with
      | Some sm => negb (value sm =? 0) || can_runb k
      | None => false
      end
  | F_sema_try_down s | F_sema_up s | F_intr_handler (H_sema_up s) =>
      bool_decide (is_Some (semas k !! s))
  | F_lock_acquire l | F_lock_try_acquire l =>
      bool_decide (is_Some (holders k !! l)) && negb (holds k l)
  | F_lock_release l => holds k l
  | F_cond_wait c l _ | F_cond_signal c l =>
      holds k l && bool_decide (is_Some (conds k !! c))
  | F_cond_broadcast c _ => bool_decide (is_Some (conds k !! c))
  | F_thread_create _ prio _ page =>
      (page =? NULL) || (PRI_MIN <=? prio) && (prio <=? PRI_MAX)
  | F_thread_exit => can_runb k
  | F_timer_sleep _ => if_flag k
  | _ => true
  end.

Lemma can_runb_spec k : can_runb k = true <-> can_run k.
Proof.
  unfold can_runb, can_run. rewrite orb_true_iff, !negb_true_iff, bool_decide_eq_false, Z.eqb_neq.
  done.
Qed.

Lemma holds_spec k l : holds k l = true <-> holders k !! l = Some (running k).
Proof.
  unfold holds. destruct (holders k !! l) as [h|]; [|done]. rewrite Z.eqb_eq.
  split; [by intros ->|by intros [= ->]].
Qed.

Ltac obl :=
  repeat match goal with
  | H : _ && _ = true |- _ => apply andb_true_iff in H as [? H]
  | H : bool_decide _ = true |- _ => apply bool_decide_eq_true in H
  | H : is_Some _ |- _ => destruct H as [? H]
  | H : holds _ _ = true |- _ => apply holds_spec in H
  end.

(** A frame whose obligations hold is executed to the end. *)
Lemma exec_good k f rest th :
  At k f rest th -> env_ok k f = true -> obliged k f = true -> Good k f.
Proof.
  intros A He Ho. destruct f; cbn in He, Ho; try (apply bool_decide_eq_true in He).
  - by eapply good_sema_init.
  - by eapply good_sema_down.
  - destruct (semas k !! s) as [sm|] eqn:Es; [|done]. destruct (Z.eqb_spec (value sm) 0).
    + eapply good_sema_down_sleep; try done. by apply can_runb_spec.
    + by eapply good_sema_down_take.
  - obl. by eapply good_sema_try_down.
  - obl. by eapply good_sema_up.
  - by eapply good_lock_init.
  - apply andb_true_iff in Ho as [[h Hh]%bool_decide_eq_true Hn%negb_true_iff].
    eapply good_lock_acquire; try done. intros ->. by rewrite (proj2 (holds_spec k l)) in Hn.
  - by eapply good_lock_acquired.
  - apply andb_true_iff in Ho as [[h Hh]%bool_decide_eq_true Hn%negb_true_iff].
    eapply good_lock_try_acquire; try done. intros ->. by rewrite (proj2 (holds_spec k l)) in Hn.
  - obl. by eapply good_lock_release.
  - by eapply good_cond_init.
  - obl. by eapply good_cond_wait.
  - obl. by eapply good_cond_signal.
  - obl. by eapply good_cond_broadcast.
  - by eapply good_thread_start.
  - eapply good_thread_create; try done. apply orb_true_iff in Ho as [?%Z.eqb_eq|Ho]; [by left|].
    right. apply andb_true_iff in Ho as [?%Z.leb_le ?%Z.leb_le]. done.
  - by eapply good_tid_read.
  - by eapply good_tid_write.
  - destruct u; [by eapply good_tid_done_create|by eapply good_tid_done_init].
  - by eapply good_kernel_thread.
  - destruct fn; [by eapply good_body_idle|by eapply good_body_client].
  - by eapply good_idle_loop.
  - by eapply good_idle_wake.
  - eapply good_thread_exit; try done. by apply can_runb_spec.
  - by eapply good_thread_yield.
  - by eapply good_set_priority.
  - by eapply good_intr_set_level.
  - by eapply good_intr_enable.
  - by eapply good_intr_disable.
  - destruct h; [by eapply good_intr_timer| |by eapply good_intr_spurious].
    obl. by eapply good_intr_sema_up.
  - by eapply good_iret.
  - by eapply good_timer_sleep.
  - by eapply good_timer_sleep_loop.
Qed.

(** ** ... and one whose obligations do not hold is stopped *)

Definition stops {A} (r : result A) : Prop := match r with Ok _ => False | _ => True end.

Lemma bind_stops {S A B} (m : M S A) (f : A -> M S B) s : stops (m s) -> stops (bind m f s).
Proof. unfold bind. by destruct (m s). Qed.

Lemma bind_ok_stops {S A B} (m : M S A) (f : A -> M S B) s a s' :
  m s = Ok (a, s') -> stops (f a s') -> stops (bind m f s).
Proof. unfold bind. by intros ->. Qed.

Lemma load_sema_stops s k : semas k !! s = None -> stops (load_sema s k).
Proof. unfold load_sema. by intros ->. Qed.

Lemma load_cond_stops c k : conds k !! c = None -> stops (load_cond c k).
Proof. unfold load_cond. by intros ->. Qed.

(** The test of the holder: it fails, or the lock does not exist. *)
Lemma held_stops {B} k f rest th l (b : bool) (g : K B) :
  At k f rest th ->
  match holders k !! l with Some h => (if b then negb (h =? running k) else h =? running k) = true
                          | None => True end ->
  stops ((x ← lock_held_by_current_thread l; ASSERT (if b then x else negb x);; g) k).
Proof.
  intros A Hl. destruct (holders k !! l) as [h|] eqn:Hh.
  - eapply bind_ok_stops; [by eapply held_run|]. destruct b; [|by rewrite Hl].
    apply negb_true_iff in Hl. by rewrite Hl.
  - unfold lock_held_by_current_thread. rewrite bind_bind. apply bind_stops.
    unfold load_holder. by rewrite Hh.
Qed.

Lemma not_can_run k : can_runb k = false -> ready_list k = [] /\ idle_thread k = NULL.
Proof.
  unfold can_runb. rewrite orb_false_iff, !negb_false_iff, bool_decide_eq_true, Z.eqb_eq. done.
Qed.

Lemma sema_down_stops k s old rest th :
  At k (F_sema_down_loop s old) rest th -> obliged k (F_sema_down_loop s old) = false ->
  stops (sema_down_loop s old k).
Proof.
  intros A Ho. cbn in Ho. unfold sema_down_loop. destruct (semas k !! s) as [sm|] eqn:Hs.
  2: { apply bind_stops. by apply load_sema_stops. }
  apply orb_false_iff in Ho as [Hv%negb_false_iff [Hr Hi]%not_can_run].
  pose proof (At_off _ _ _ _ A eq_refl) as Hif. pose proof (At_sane _ _ _ _ A) as S.
  pose proof A as [[_ X _] Ht _].
  eapply bind_ok_stops; [by apply load_sema_run|]. rewrite Hv.
  eapply bind_ok_stops; [by eapply thread_current_run|]. unfold store_sema. rewrite bind_modify.
  apply bind_stops. rewrite (thread_block_run _ th); try done.
  rewrite schedule_stuck; try done; cbn; rewrite lookup_insert_eq; [|by eexists].
  by intros ? [= <-].
Qed.

Lemma exit_stops k rest th :
  At k F_thread_exit rest th -> can_runb k = false -> stops (thread_exit k).
Proof.
  intros A [Hr Hi]%not_can_run. pose proof (At_sane _ _ _ _ A) as S. pose proof A as [[Q X _] Ht _].
  destruct (running_not_queued k _ Q) as (_ & Nd & _).
  unfold thread_exit, intr_context. mnorm. rewrite X. cbn [negb]. mnorm.
  mstep (intr_disable_run k). apply bind_stops. rewrite (do_schedule_run _ th); try done.
  rewrite schedule_stuck; try done; cbn; rewrite lookup_insert_eq; [|by eexists].
  by intros ? [= <-].
Qed.

Lemma intr_sema_up_stops k s rest th :
  At k (F_intr_handler (H_sema_up s)) rest th -> semas k !! s = None ->
  stops (intr_handler (H_sema_up s) k).
Proof.
  intros A Hs. pose proof (At_off _ _ _ _ A eq_refl) as Hif. pose proof A as [[_ X _] _ _].
  unfold intr_handler, intr_get_level, intr_context. mnorm. rewrite Hif. cbn [negb]. mnorm.
  rewrite X. cbn [negb]. mnorm. apply bind_stops. cbn [intr_handlers]. unfold sema_up.
  mstep (intr_disable_run (set_intr true false k)). apply bind_stops. by apply load_sema_stops.
Qed.

Ltac split_obl Ho :=
  try (apply andb_false_iff in Ho as [Ho|Ho]);
  try (apply bool_decide_eq_false, eq_None_not_Some in Ho).

Lemma exec_bad k f rest th :
  At k f rest th -> obliged k f = false -> stops (exec f k).
Proof.
  intros A Ho. pose proof A as [[_ X _] _ _].
  destruct f; cbn in Ho; try done; cbn [exec]; unfold no_frames.
  - by eapply sema_down_stops.
  - apply bind_stops. unfold sema_try_down. mstep (intr_disable_run k). apply bind_stops.
    split_obl Ho. by apply load_sema_stops.
  - apply bind_stops. unfold sema_up. mstep (intr_disable_run k). apply bind_stops.
    split_obl Ho. by apply load_sema_stops.
  - unfold lock_acquire, intr_context. mnorm. rewrite X. cbn [negb]. mnorm.
    eapply (held_stops k _ rest th l false); [exact A|]. unfold holds in Ho. split_obl Ho; [by rewrite Ho|].
    apply negb_false_iff in Ho. destruct (holders k !! l); [by rewrite Ho|done].
  - unfold lock_try_acquire.
    eapply (held_stops k _ rest th l false); [exact A|]. unfold holds in Ho. split_obl Ho; [by rewrite Ho|].
    apply negb_false_iff in Ho. destruct (holders k !! l); [by rewrite Ho|done].
  - unfold lock_release. eapply (held_stops k _ rest th l true); [exact A|]. unfold holds in Ho.
    destruct (holders k !! l); [by rewrite Ho|done].
  - unfold cond_wait, intr_context. mnorm. rewrite X. cbn [negb]. mnorm.
    destruct (holds k l) eqn:Hh.
    + apply holds_spec in Hh. pose proof (held_run k rest th l _ _ A Hh) as Hr. rewrite Z.eqb_refl in Hr.
      mstep Hr. unfold sema_init, store_sema. mnorm. apply bind_stops. cbn in Ho. split_obl Ho.
      by apply load_cond_stops.
    + eapply (held_stops k _ rest th l true); [exact A|]. unfold holds in Hh.
      destruct (holders k !! l); [by rewrite Hh|done].
  - unfold cond_signal, intr_context. mnorm. rewrite X. cbn [negb]. mnorm.
    destruct (holds k l) eqn:Hh.
    + apply holds_spec in Hh. pose proof (held_run k rest th l _ _ A Hh) as Hr. rewrite Z.eqb_refl in Hr.
      mstep Hr. apply bind_stops. cbn in Ho. split_obl Ho. by apply load_cond_stops.
    + eapply (held_stops k _ rest th l true); [exact A|]. unfold holds in Hh.
      destruct (holders k !! l); [by rewrite Hh|done].
  - unfold cond_broadcast. apply bind_stops. split_obl Ho. by apply load_cond_stops.
  - apply orb_false_iff in Ho as [H0 Hp]. unfold thread_create, init_thread. rewrite H0.
    mnorm. cbn [negb]. mnorm. by rewrite Hp.
  - by eapply exit_stops.
  - destruct h; try done. split_obl Ho. by eapply intr_sema_up_stops.
  - unfold timer_sleep, timer_ticks. mnorm. mstep (intr_disable_run k). rewrite Ho. done.
Qed.

(** ** Every step preserves the invariant *)

Lemma Inv_running k : Inv k -> exists f rest th, At k f rest th.
Proof.
  intros I. pose proof I as [Q _ _]. destruct (run_th _ _ Q) as (th & Ht & Hs & [_ _ _ _ _ T]).
  unfold status_ok in T. rewrite Hs in T. destruct T as [_ Hne].
  destruct (stack th) as [|f rest] eqn:E; [done|]. by exists f, rest, th.
Qed.

Lemma run_exec k f rest th :
  At k f rest th -> run k = bind (exec f) (fun fs => set_top (running k) fs) k.
Proof.
  intros [_ Ht Hst]. unfold run, running_thread. mnorm.
  mstep (load_thread_run _ _ _ Ht). by rewrite Hst.
Qed.

Lemma run_good k f rest th : At k f rest th -> Good k f -> exists k', run k = Ok (tt, k') /\ Inv k'.
Proof.
  intros A (fs & k2 & k' & E1 & E2 & I). exists k'. split; [|done].
  rewrite (run_exec _ _ _ _ A). by mstep E1.
Qed.

Lemma run_preserves k k' f rest th :
  At k f rest th -> env_ok k f = true -> run k = Ok (tt, k') -> Inv k'.
Proof.
  intros A He Hr. destruct (obliged k f) eqn:Ho.
  - destruct (run_good k f rest th A) as (k2 & E & I); [by eapply exec_good|]. congruence.
  - pose proof (exec_bad k f rest th A Ho) as Hs. rewrite (run_exec _ _ _ _ A) in Hr.
    apply (bind_stops _ (fun fs => set_top (running k) fs)) in Hs. by rewrite Hr in Hs.
Qed.

Lemma client_weight f w : client_call f = true -> wt w f = 0.
Proof. destruct f; try done; try (destruct s); try (destruct fn); by destruct w. Qed.

Lemma call_preserves k k' f rest th :
  At k (F_body Fn_client) rest th -> client_call f = true ->
  set_top (running k) [f; F_body Fn_client] k = Ok (tt, k') -> Inv k'.
Proof.
  intros A Hc He. pose proof (At_wf _ _ _ _ A) as (Hr & Hn & Hw). cbn in Hr.
  pose proof A as [[Q X K] Ht Hst].
  destruct (Inv_quiet k k th (F_body Fn_client) rest [f; F_body Fn_client]) as (k2 & E & I);
    try done; [| |congruence].
  - subst rest. split; try done.
    + assert (Hfr : frame_ok f [F_body Fn_client; F_thread_exit]).
      { destruct f; try done; try (destruct s); try done; cbn;
          first [by right | split; [by eexists|done]]. }
      cbn. split_and!; try done; repeat constructor.
    + cbn. destruct f; try done.
    + cbn. destruct f; try done.
  - eapply Tokens_T; [|exact K]. intros w. unfold swap_tots. rewrite !fsum_cons, (client_weight f w Hc).
    cbn [fsum foldr]. lia.
Qed.

Lemma interrupt_preserves k k' f rest th h :
  At k f rest th -> if_flag k = true -> device_handler h = true ->
  store_thread (running k) (fun th => with_stack (F_intr_handler h :: F_iret true :: stack th) th)
    (set_if false k) = Ok (tt, k') -> Inv k'.
Proof.
  intros A Hif Hd He. pose proof (At_wf _ _ _ _ A) as (Hf & Hn & Hw). pose proof A as [[Q X K] Ht Hst].
  assert (Hnf : is_off f = false).
  { destruct (is_off f) eqn:E; [|done]. by rewrite (At_off _ _ _ _ A E) in Hif. }
  destruct (Inv_quiet k (set_if false k) th f rest [F_intr_handler h; F_iret true; f])
    as (k2 & E & I); try done.
  - split; try done; cbn.
    + split_and!; try done; by repeat constructor.
    + by rewrite orb_false_r.
  - eapply (Tokens_T _ (tots k)); [|eapply Tokens_le; eauto; done].
    intros w. unfold swap_tots. rewrite !fsum_cons. cbn [fsum foldr].
    replace (wt w (F_intr_handler h)) with 0 by (by destruct w).
    replace (wt w (F_iret true)) with 0 by (by destruct w). lia.
  - rewrite (store_thread_run _ _ th) in He by done. rewrite (set_top_run _ _ th f rest) in E by done.
    rewrite Hst in He. simplify_eq. exact I.
Qed.

Lemma step_preserves k k' : Inv k -> step k k' -> Inv k'.
Proof.
  intros I Hs. revert I. destruct Hs as [k0 k1 th f rest Ht Hst Hf He Hr
    |k0 k1 th f rest Ht Hst Hc Hr|k0 k1 th rest Ht Hst Hr|k0 k1 th h Ht Hif Hd Hr]; intros I.
  - by apply (run_preserves k0 k1 f rest th (Build_At _ _ _ _ I Ht Hst)).
  - by apply (call_preserves k0 k1 f rest th (Build_At _ _ _ _ I Ht Hst)).
  - by apply (run_preserves k0 k1 (F_body Fn_client) rest th (Build_At _ _ _ _ I Ht Hst)).
  - destruct (Inv_running k0 I) as (f & rest & th' & A). by eapply interrupt_preserves.
Qed.

(** ** The boot state *)

Definition boot_stack (page : Z) : list frame :=
  allocate_tid For_init ++ [F_thread_start page; F_body Fn_client; F_thread_exit].

Definition boot_thread (page : Z) : thread :=
  Thread 0 THREAD_RUNNING [] PRI_DEFAULT false THREAD_MAGIC (boot_stack page).

Definition boot_state (main page : Z) : kstate :=
  KState {[main := boot_thread page]}
    main false false false [] [] NULL main {[LockSema tid_lock := Semaphore 1 []]}
    {[tid_lock := NULL]} ∅ 1 0 0 0 0.

Lemma boots_state main page k : boots main page k -> main <> NULL /\ k = boot_state main page.
Proof.
  intros [_ H]. destruct (Z.eqb_spec main NULL) as [->|Hne]; [done|]. split; [done|].
  revert H. unfold thread_init, intr_get_level, lock_init, sema_init, store_holder, store_sema,
    running_thread, init_thread. mnorm. cbn [if_flag power_on negb]. mnorm.
  cbn [running set_destruction set_ready set_semas set_holders power_on].
  destruct (Z.eqb_spec main NULL); [done|]. mnorm. cbn [negb]. mnorm.
  change ((PRI_MIN <=? PRI_DEFAULT) && (PRI_DEFAULT <=? PRI_MAX)) with true. mnorm.
  unfold store_thread. cbn [threads set_threads]. unfold bind.
  cbn. rewrite lookup_insert_eq. cbn. rewrite lookup_insert_eq. cbn. rewrite !insert_insert_eq.
  intros [= <-]. done.
Qed.

Lemma boot_Inv main page : main <> NULL -> Inv (boot_state main page).
Proof.
  intros Hne. assert (Hth : forall t th, threads (boot_state main page) !! t = Some th ->
    t = main /\ th = boot_thread page).
  { cbn. intros t th [<- <-]%lookup_singleton_Some. done. }
  assert (Hwl : forall s, wl (boot_state main page) s = []).
  { intros s. unfold wl. cbn. destruct (decide (s = LockSema tid_lock)) as [->|].
    - by rewrite lookup_singleton_eq.
    - by rewrite lookup_singleton_ne. }
  assert (Hm : threads (boot_state main page) !! main = Some (boot_thread page)).
  { cbn. by rewrite lookup_singleton_eq. }
  split; [|done|].
  - split; try done; try (by eexists); try (by constructor).
    + intros t th [-> ->]%Hth. split; try done; cbn; split_and!; try done;
        repeat constructor; by left.
    + intros t [= <-]. by eexists.
    + by intros t Ht%not_elem_of_nil.
    + intros s. rewrite Hwl. constructor.
    + intros s t. rewrite Hwl. by intros ?%not_elem_of_nil.
    + by intros t Ht%not_elem_of_nil.
  - assert (Htot : forall w, tots (boot_state main page) w = fsum (wt w) (boot_stack page)).
    { intros w. unfold tots. cbn [threads boot_state].
      rewrite (tot_delete _ _ main (boot_thread page)) by (by rewrite lookup_singleton_eq).
      rewrite delete_singleton_eq. cbn [boot_thread stack]. unfold tot. rewrite map_fold_empty. lia. }
    eapply Tokens_T; [intros w; symmetry; apply Htot|]. split; try done.
    + intros l. unfold lock_acct. cbn [holders semas boot_state]. destruct (decide (l = tid_lock)) as [->|].
      * by rewrite !lookup_singleton_eq.
      * by rewrite !lookup_singleton_ne by congruence.
    + cbn [semas boot_state]. by intros s sm [<- <-]%lookup_singleton_Some.
    + cbn [semas boot_state]. by intros s sm [<- <-]%lookup_singleton_Some.
Qed.

Lemma reachable_Inv k : reachable k -> Inv k.
Proof.
  intros (main & page & k0 & Hb & Hs). apply boots_state in Hb as [Hne ->].
  pose proof (boot_Inv main page Hne) as I. induction Hs as [|k1 k2 k3 H12 _ IH]; [done|].
  apply IH. by eapply step_preserves.
Qed.
