(* ===== verification/KernelSpec.v ===== *)
(** * What the kernel guarantees

    The theorems on every reachable state of the kernel, and an executable
    driver ([play]) that follows a schedule of events; the witnesses use it to
    reach concrete states with several threads. *)

From S2P Require Import Prelude Kernel Synch Machine SchedInv KernelInv KernelSafety.

(** ** Following a schedule *)

Inductive event : Type :=
  | E_run
  | E_call (f : frame)
  | E_interrupt (h : handler).

Definition top_frame (k : kstate) : option frame :=
  match threads k !! running k with
  | Some th => head (stack th)
  | None => None
  end.

Definition is_client_body (f : frame) : bool :=
  match f with F_body Fn_client => true | _ => false end.

Lemma is_client_body_eq f : is_client_body f = true -> f = F_body Fn_client.
Proof. destruct f; try done. by destruct fn. Qed.

Definition ok_state (r : result (unit * kstate)) : option kstate :=
  match r with Ok (_, k) => Some k | _ => None end.

Definition play1 (k : kstate) (e : event) : option kstate :=
  match top_frame k with
  | None => None
  | Some f =>
      match e with
      | E_run => if env_ok k f then ok_state (run k) else None
      | E_call g =>
          if is_client_body f && client_call g
          then ok_state (set_top (running k) [g; F_body Fn_client] k) else None
      | E_interrupt h =>
          if if_flag k && device_handler h
          then ok_state (store_thread (running k)
                 (fun th => with_stack (F_intr_handler h :: F_iret true :: stack th) th)
                 (set_if false k))
          else None
      end
  end.

Fixpoint play (es : list event) (k : kstate) : option kstate :=
  match es with
  | [] => Some k
  | e :: es => match play1 k e with Some k' => play es k' | None => None end
  end.

Lemma play1_step k e k' : play1 k e = Some k' -> step k k'.
Proof.
  unfold play1, top_frame. destruct (threads k !! running k) as [th|] eqn:Ht; [|done].
  destruct (stack th) as [|f rest] eqn:Hst; cbn [head]; [done|]. destruct e as [|g|h].
  - destruct (env_ok k f) eqn:He; [|done]. destruct (run k) as [[[] k1]| | | |] eqn:Hr; cbn [ok_state]; try done.
    intros [= <-]. destruct (is_client_body f) eqn:Hb.
    + apply is_client_body_eq in Hb as ->. by eapply step_return.
    + eapply step_run; try done. by intros ->.
  - destruct (is_client_body f) eqn:Hb; [|done]. destruct (client_call g) eqn:Hc; [|done]. cbn [andb].
    destruct (set_top _ _ _) as [[[] k1]| | | |] eqn:Hr; cbn [ok_state]; try done. intros [= <-].
    apply is_client_body_eq in Hb as ->. by eapply step_call.
  - destruct (if_flag k) eqn:Hif; [|done]. destruct (device_handler h) eqn:Hd; [|done]. cbn [andb].
    destruct (store_thread _ _ _) as [[[] k1]| | | |] eqn:Hr; cbn [ok_state]; try done. intros [= <-].
    by eapply step_interrupt.
Qed.

Lemma play_steps es k k' : play es k = Some k' -> rtc step k k'.
Proof.
  revert k. induction es as [|e es IH]; intros k; cbn; [intros [= <-]; constructor|].
  destruct (play1 k e) as [k1|] eqn:E; [|done]. intros H.
  eapply rtc_l; [by eapply play1_step|]. by apply IH.
Qed.

(** ** The scheduler *)

(** C3: in every reachable state exactly one thread is running and it is the
    one on whose stack the processor is; the run queue holds exactly the
    ready threads except the idle thread; threads on a semaphore's queue are
    blocked; threads awaiting destruction are dying; and no thread is on two
    queues or twice on one, so that its single [elem] is never linked
    twice. *)
Theorem scheduler_consistent k :
  reachable k ->
  (forall t th, threads k !! t = Some th -> (status th = THREAD_RUNNING <-> t = running k)) /\
  (forall t th, threads k !! t = Some th ->
     t <> idle_thread k -> (status th = THREAD_READY <-> t ∈ ready_list k)) /\
  (forall s t th, threads k !! t = Some th -> t ∈ wl k s -> status th = THREAD_BLOCKED) /\
  (forall t th, threads k !! t = Some th -> t ∈ destruction_req k -> status th = THREAD_DYING) /\
  NoDup (ready_list k) /\ NoDup (destruction_req k) /\ (forall s, NoDup (wl k s)) /\
  (forall s s' t, t ∈ wl k s -> t ∈ wl k s' -> s = s') /\
  idle_thread k ∉ ready_list k.
Proof.
  intros [Q _ _]%reachable_Inv.
  assert (Hst : forall t th, threads k !! t = Some th -> status_ok k (Some (running k)) t th).
  { intros t th Ht. by destruct (q_thr _ _ Q t th Ht). }
  split_and!; [..|apply Q|apply Q|apply Q| |].
  - intros t th Ht. split.
    + intros Hs. specialize (Hst t th Ht). unfold status_ok in Hst. rewrite Hs in Hst. by destruct Hst as [[= ->] _].
    + intros ->. destruct (q_run _ _ Q _ eq_refl) as (th' & ? & ?). by simplify_eq.
  - intros t th Ht Hi. split.
    + intros Hs. specialize (Hst t th Ht). unfold status_ok in Hst. rewrite Hs in Hst. tauto.
    + intros (_ & th' & ? & ?)%(q_ready _ _ Q). by simplify_eq.
  - intros s t th Ht (th' & o & r & [? ?] & _)%(q_wait _ _ Q). by simplify_eq.
  - intros t th Ht (_ & th' & ? & ?)%(q_destr _ _ Q). by simplify_eq.
  - intros s s' t. by apply (q_wait_unique k (Some (running k))).
  - intros [Hn _]%(q_ready _ _ Q). done.
Qed.

(** C5: the kernel never keeps a pointer to a freed thread page: the running
    thread, the initial thread, the idle thread and every member of the run
    queue, of a semaphore's queue and of the destruction queue are live
    structures with an intact magic number, and the initial thread is never
    queued for destruction. *)
Theorem no_dangling_thread k :
  reachable k ->
  let live t := exists th, threads k !! t = Some th /\ magic th = THREAD_MAGIC in
  live (running k) /\ live (initial_thread k) /\
  (idle_thread k <> NULL -> live (idle_thread k)) /\
  (forall t, t ∈ ready_list k -> live t) /\
  (forall s t, t ∈ wl k s -> live t) /\
  (forall t, t ∈ destruction_req k -> live t /\ t <> initial_thread k /\ t <> running k).
Proof.
  intros [Q _ _]%reachable_Inv live.
  assert (Hl : forall t th, threads k !! t = Some th -> live t).
  { intros t th Ht. exists th. split; [done|]. apply (q_thr _ _ Q t th Ht). }
  split_and!.
  - destruct (q_cur _ _ Q) as [th Ht]. eauto.
  - destruct (q_init _ _ Q) as [th Ht]. eauto.
  - intros (th & Ht & _)%(q_idle _ _ Q). eauto.
  - intros t (_ & th & Ht & _)%(q_ready _ _ Q). eauto.
  - intros s t (th & o & r & [Ht _] & _)%(q_wait _ _ Q). eauto.
  - intros t Hd. destruct (q_destr _ _ Q t Hd) as (? & th & Ht & _). split_and!; [eauto|done|].
    intros ->. by destruct (running_not_queued k _ Q) as (_ & ? & _).
Qed.

(** ** Locks *)

(** [t] has the lock: it is the recorded holder, or it has taken the
    semaphore's unit and has not recorded itself yet, or it has cleared
    [holder] and has not given the unit back yet. *)
Definition has_lock (k : kstate) (l t : Z) : Prop :=
  holders k !! l = Some t \/
  exists th, threads k !! t = Some th /\ 1 <= fsum (wt (W_lock l)) (stack th).

Lemma tots_w_nonneg k w t th :
  Inv k -> threads k !! t = Some th -> 0 <= fsum (wt w) (stack th).
Proof. intros [Q _ _] Ht. apply fsum_nonneg. apply (q_thr _ _ Q _ _ Ht). Qed.

(** C1: at most one thread has a lock at any time, whatever the interleaving
    of acquisitions, releases and preemptions (also between [sema_down] and
    the update of [holder]); and while a thread has it the lock's semaphore
    is 0, so that no other thread can take it. *)
Theorem lock_mutual_exclusion k l t t' :
  reachable k -> t <> NULL -> t' <> NULL -> has_lock k l t -> has_lock k l t' ->
  t = t' /\ exists sm, semas k !! LockSema l = Some sm /\ value sm = 0.
Proof.
  intros I%reachable_Inv H0 H0' Ht Ht'. pose proof I as [Q _ K].
  pose proof (k_lock _ _ K l) as Ha. unfold lock_acct in Ha.
  pose proof (tots_nonneg k (W_lock l) I) as Hnn.
  assert (Hone : forall t th, threads k !! t = Some th -> 1 <= fsum (wt (W_lock l)) (stack th) ->
            1 <= tots k (W_lock l)).
  { intros u th Hu Hge. etransitivity; [exact Hge|]. unfold tots.
    apply (tot_ge _ _ u th); [|done]. intros. by eapply tots_w_nonneg. }
  destruct (semas k !! LockSema l) as [sm|] eqn:Es.
  - pose proof (k_val _ _ K _ _ Es) as [Hv _]. destruct (holders k !! l) as [h|] eqn:Eh; [|done].
    unfold has_lock in *. rewrite Eh in *.
    destruct Ht as [[= ->]|(th & Hth & Hge)], Ht' as [[= ->]|(th' & Hth' & Hge')].
    + split; [done|]. exists sm. split; [done|]. destruct (Z.eqb_spec t' NULL); [done|lia].
    + specialize (Hone _ _ Hth' Hge'). destruct (Z.eqb_spec t NULL); [done|lia].
    + specialize (Hone _ _ Hth Hge). destruct (Z.eqb_spec t' NULL); [done|lia].
    + pose proof (Hone _ _ Hth Hge). split; [|exists sm; split; [done|destruct (h =? NULL); lia]].
      destruct (decide (t = t')) as [|Hne]; [done|exfalso].
      assert (2 <= tots k (W_lock l)); [|destruct (h =? NULL); lia].
      unfold tots. etransitivity; [|apply (tot_ge2 _ _ t th t' th')]; try done; [lia|].
      intros. by eapply tots_w_nonneg.
  - destruct (holders k !! l) as [h|] eqn:Eh; [done|]. exfalso. unfold has_lock in *. rewrite Eh in *.
    destruct Ht as [?|(th & Hth & Hge)]; [done|]. specialize (Hone _ _ Hth Hge). lia.
Qed.

(** ** Semaphores *)

Lemma loop_weight s st :
  wf st -> fsum (wt (W_loop s)) st <= 1 /\
  (1 <= fsum (wt (W_loop s)) st -> exists old rest, st = F_sema_down_loop s old :: rest).
Proof.
  destruct st as [|f rest]; [cbn; intros _; split; [lia|intros; lia]|]. intros (_ & Hn & _).
  rewrite fsum_cons, (fsum_no_loop s rest Hn).
  destruct f; cbn; try (split; [lia|intros; lia]). case_bool_decide; [subst|split; [lia|intros; lia]].
  split; [lia|]. intros _. by exists old_level, rest.
Qed.

(** C2: no wake-up is lost: whenever threads sleep in [sema_down] although
    the semaphore's value is positive, some other thread that [sema_up] woke
    is ready or running and about to test the value again; a positive
    semaphore never has all its contenders asleep. *)
Theorem no_lost_wakeup k s sm t :
  reachable k -> semas k !! s = Some sm -> t ∈ waiters sm -> 0 < value sm ->
  exists u th old rest,
    threads k !! u = Some th /\ u ∉ waiters sm /\
    stack th = F_sema_down_loop s old :: rest /\
    (status th = THREAD_READY \/ status th = THREAD_RUNNING).
Proof.
  intros I%reachable_Inv Hs Hin Hv. pose proof I as [Q _ K].
  assert (Hwl : wl k s = waiters sm) by (unfold wl; by rewrite Hs).
  assert (Hwf : forall u th, threads k !! u = Some th -> wf (stack th)).
  { intros u th Hu. apply (q_thr _ _ Q _ _ Hu). }
  pose proof (k_wake _ _ K _ _ Hs ltac:(intros E; rewrite E in Hin; by apply not_elem_of_nil in Hin)) as Hw.
  destruct (decide (map_Exists (fun u th => 1 <= fsum (wt (W_loop s)) (stack th) /\ u ∉ waiters sm)
    (threads k))) as [(u & th & Hu & Hge & Hn)|Hnone].
  2: { exfalso. apply map_not_Exists in Hnone.
       enough (tots k (W_loop s) <= Z.of_nat (length (waiters sm))) by lia.
       apply tot_le_count; intros u th Hu; [by apply (loop_weight s), (Hwf u)|]. intros Hn.
       destruct (Z_le_gt_dec (fsum (wt (W_loop s)) (stack th)) 0); [done|].
       exfalso. apply (Hnone u th Hu). split; [lia|done]. }
  destruct (proj2 (loop_weight s _ (Hwf u th Hu)) Hge) as (old & rest & Hst).
  exists u, th, old, rest. split_and!; try done.
  destruct (q_thr _ _ Q u th Hu) as [T1 _ _ _ _ T]. unfold status_ok, asleep in T.
  destruct (status th); [by right|by left| |].
  - exfalso. destruct T as [_ [->|[?|(s' & o & r & E & Hw')]]]; [|congruence|].
    + destruct (q_idle _ _ Q T1) as (th' & E & Hi). simplify_eq. by rewrite Hst in Hi.
    + rewrite Hst in E. simplify_eq. by rewrite Hwl in Hw'.
  - exfalso. destruct T as (_ & _ & [[E|E]|(r & E & _)] & _); by rewrite Hst in E.
Qed.

(** ** Assertions *)

(** C4: in every reachable state the running thread has a next frame, and
    executing it completes exactly when the caller's documented obligations
    ([obliged]) hold at that frame; in particular the kernel's own assertions
    (on [thread_current], the status of an unblocked thread, interrupts being
    off in [schedule], the next thread being valid) never fail. *)
Theorem kernel_assertions k :
  reachable k ->
  exists f, top_frame k = Some f /\
    (env_ok k f = true -> (obliged k f = true <-> exists k', run k = Ok (tt, k'))).
Proof.
  intros I%reachable_Inv. destruct (Inv_running k I) as (f & rest & th & A). exists f.
  split; [unfold top_frame; destruct A as [_ -> ->]; done|]. intros He. split.
  - intros Ho. destruct (run_good k f rest th A) as (k' & ? & _); [by eapply exec_good|]. by exists k'.
  - intros [k' Hr]. destruct (obliged k f) eqn:Ho; [done|].
    pose proof (exec_bad k f rest th A Ho) as Hs. rewrite (run_exec _ _ _ _ A) in Hr.
    apply (bind_stops _ (fun fs => set_top (running k) fs)) in Hs. by rewrite Hr in Hs.
Qed.

(** ** Round robin *)

(** [thread_yield] by any thread but the idle thread is fair: the thread
    at the head of the run queue gets the processor and the yielding thread
    goes to the back; alone, it keeps the processor. *)
Theorem thread_yield_rotates k :
  reachable k -> top_frame k = Some F_thread_yield -> running k <> idle_thread k ->
  exists k', run k = Ok (tt, k') /\
    running k' :: ready_list k' = ready_list k ++ [running k].
Proof.
  intros I%reachable_Inv Htop Hi. destruct (Inv_running k I) as (f & rest & th & A).
  assert (f = F_thread_yield) as ->.
  { destruct A as [_ Ht Hst]. unfold top_frame in Htop. rewrite Ht, Hst in Htop. cbn in Htop. congruence. }
  destruct (thread_yield_spec k rest th A) as (k2 & E & [L1 L2 L3 (th2 & Ht2 & Hst2 & _) L5 L6] & P).
  unfold requeued in *. destruct (Z.eqb_spec (running k) (idle_thread k)); [done|].
  pose proof A as [_ Ht Hst]. rewrite Hst in Hst2. cbn in Ht2.
  exists (put_stack (running k) ([F_intr_set_level (if_flag k)] ++ rest) th2 k2). split.
  - rewrite (run_exec _ _ _ _ A). mstep (E : exec F_thread_yield k = _).
    by apply (set_top_run _ _ _ F_thread_yield).
  - destruct P as [P|(P & _)]; [by symmetry|]. cbn in P. by destruct (ready_list k).
Qed.

(** ** A concrete run

    [main] (page 4096) boots, starts the idle thread (8192), creates two
    threads (12288 and 16384), acquires lock 50 and sleeps on semaphore 60; so
    does the first thread; the second one ups the semaphore once.  Then one
    thread is woken and not yet run, and one is still asleep. *)

Definition call (f : frame) (n : nat) : list event := E_call f :: replicate n E_run.

Definition demo_events : list event :=
  replicate 28 E_run ++ call (F_lock_init 50) 1 ++ call (F_sema_init (Sema 60) 0) 1 ++
  call (F_thread_create [] 31 Fn_client 12288) 10 ++
  call (F_thread_create [] 31 Fn_client 16384) 10 ++
  call (F_lock_acquire 50) 4 ++
  call (F_sema_down (Sema 60)) 3 ++ call (F_sema_down (Sema 60)) 3 ++
  [E_interrupt H_timer; E_run; E_run] ++ call (F_sema_up (Sema 60)) 1.

Definition demo_at (es : list event) : kstate :=
  default (boot_state 4096 8192) (play es (boot_state 4096 8192)).
Definition demo_k : kstate := demo_at demo_events.
Definition demo_yield : kstate := demo_at (demo_events ++ [E_call F_thread_yield]).

Lemma demo_reachable es :
  is_Some (play es (boot_state 4096 8192)) -> reachable (demo_at es).
Proof.
  intros [k Hk]. exists 4096, 8192, (boot_state 4096 8192). split.
  - split; [done|]. vm_compute. reflexivity.
  - unfold demo_at. rewrite Hk. by apply (play_steps es).
Qed.

Ltac reach es := apply (demo_reachable es); apply (bool_decide_unpack _); vm_compute; exact I.

(** Witness. *)
Lemma scheduler_consistent_witness :
  running demo_k = 16384 /\ ready_list demo_k = [4096] /\ wl demo_k (Sema 60) = [12288] /\
  idle_thread demo_k = 8192 /\ idle_thread demo_k ∉ ready_list demo_k.
Proof.
  do 4 (split; [vm_compute; reflexivity|]).
  assert (R : reachable demo_k) by reach demo_events.
  destruct (scheduler_consistent demo_k R) as (_ & _ & _ & _ & _ & _ & _ & _ & H). exact H.
Defined.

(** Witness. *)
Lemma no_dangling_thread_witness :
  (exists th, threads demo_k !! 16384 = Some th /\ magic th = THREAD_MAGIC) /\
  (forall t, t ∈ ready_list demo_k -> exists th, threads demo_k !! t = Some th /\ magic th = THREAD_MAGIC).
Proof.
  assert (R : reachable demo_k) by reach demo_events.
  destruct (no_dangling_thread demo_k R) as (H1 & _ & _ & H2 & _). split; [exact H1|exact H2].
Defined.

(** Witness. *)
Lemma lock_mutual_exclusion_witness :
  4096 = 4096 /\ exists sm, semas demo_k !! LockSema 50 = Some sm /\ value sm = 0.
Proof.
  apply (lock_mutual_exclusion demo_k 50 4096 4096); [reach demo_events|discriminate|discriminate|left|left];
    vm_compute; reflexivity.
Defined.

(** Witness. *)
Lemma no_lost_wakeup_witness :
  exists u th old rest,
    threads demo_k !! u = Some th /\ u ∉ [12288] /\
    stack th = F_sema_down_loop (Sema 60) old :: rest /\
    (status th = THREAD_READY \/ status th = THREAD_RUNNING).
Proof.
  apply (no_lost_wakeup demo_k (Sema 60) (Semaphore 1 [12288]) 12288);
    [reach demo_events|vm_compute; reflexivity|constructor|reflexivity].
Defined.

(** Witness. *)
Lemma kernel_assertions_witness :
  exists f, top_frame demo_k = Some f /\
    (env_ok demo_k f = true -> (obliged demo_k f = true <-> exists k', run demo_k = Ok (tt, k'))).
Proof. apply (kernel_assertions demo_k). reach demo_events. Defined.

(** Witness. *)
Lemma thread_yield_rotates_witness :
  exists k', run demo_yield = Ok (tt, k') /\ running k' :: ready_list k' = [4096] ++ [16384].
Proof.
  apply (thread_yield_rotates demo_yield); [reach (demo_events ++ [E_call F_thread_yield])|vm_compute; reflexivity|vm_compute; discriminate].
Defined.
