(* ===== verification/Bitmap.v ===== *)
(** * Bitmaps (lib/kernel/bitmap.c)

    A bitmap is an array of 64-bit words that simulates an array of bits.
    [bit b i] is the abstract bit; the theorems describe every operation in
    terms of it.  Words are kept at their width; [size_t] arithmetic wraps at
    64 bits, and [BITMAP_ERROR] is the 32-bit [SIZE_MAX] of
    include/lib/stdint.h.  An access outside [bits] is [Fault]. *)

From S2P Require Import Prelude.

(** ** Data and operations *)

(** [struct bitmap]. *)
Record bitmap := Bitmap { bit_cnt : Z; bits : list Z }.

Definition ELEM_BITS : Z := 64.
Definition BITMAP_ERROR : Z := SIZE_MAX.

(** include/lib/round.h on [size_t]. *)
Definition DIV_ROUND_UP (x step : Z) : Z := u64 (u64 (x + step) - 1) / step.
Definition ROUND_UP (x step : Z) : Z := u64 (DIV_ROUND_UP x step * step).
Definition ROUND_DOWN (x step : Z) : Z := u64 (x / step * step).

Definition elem_idx (bit_idx : Z) : Z := bit_idx / ELEM_BITS.
Definition bit_mask (bit_idx : Z) : Z := u64 (Z.shiftl 1 (bit_idx mod ELEM_BITS)).
Definition elem_cnt (cnt : Z) : Z := DIV_ROUND_UP cnt ELEM_BITS.
Definition byte_cnt (cnt : Z) : Z := u64 (8 * elem_cnt cnt).
Definition last_mask (b : bitmap) : Z :=
  let last_bits := bit_cnt b mod ELEM_BITS in
  if last_bits =? 0 then u64 (-1) else u64 (Z.shiftl 1 last_bits - 1).

Definition load_elem (i : Z) : M bitmap Z := fun b =>
  match bits b !! Z.to_nat i with Some w => Ok (w, b) | None => Fault end.
Definition store_elem (i w : Z) : M bitmap unit := fun b =>
  match bits b !! Z.to_nat i with
  | Some _ => Ok (tt, Bitmap (bit_cnt b) (<[Z.to_nat i := w]> (bits b)))
  | None => Fault
  end.

Definition bitmap_size : M bitmap Z := b ← get; ret (bit_cnt b).

(** The [lock or], [lock and] and [lock xor] instructions on one word. *)
Definition bitmap_mark (bit_idx : Z) : M bitmap unit :=
  w ← load_elem (elem_idx bit_idx);
  store_elem (elem_idx bit_idx) (Z.lor w (bit_mask bit_idx)).
Definition bitmap_reset (bit_idx : Z) : M bitmap unit :=
  w ← load_elem (elem_idx bit_idx);
  store_elem (elem_idx bit_idx) (Z.land w (u64 (Z.lnot (bit_mask bit_idx)))).
Definition bitmap_flip (bit_idx : Z) : M bitmap unit :=
  w ← load_elem (elem_idx bit_idx);
  store_elem (elem_idx bit_idx) (Z.lxor w (bit_mask bit_idx)).

Definition bitmap_set (idx : Z) (value : bool) : M bitmap unit :=
  b ← get; ASSERT (idx <? bit_cnt b);;
  if value then bitmap_mark idx else bitmap_reset idx.

Definition bitmap_test (idx : Z) : M bitmap bool :=
  b ← get; ASSERT (idx <? bit_cnt b);;
  w ← load_elem (elem_idx idx);
  ret (negb (Z.land w (bit_mask idx) =? 0)).

(** [for (i = 0; i < cnt; i++)]: [n] is what is left of [cnt]. *)
Fixpoint set_multiple_loop (n : nat) (start i : Z) (value : bool) : M bitmap unit :=
  match n with
  | O => ret tt
  | S n => bitmap_set (u64 (start + i)) value;; set_multiple_loop n start (i + 1) value
  end.

Definition assert_range (start cnt : Z) : M bitmap unit :=
  b ← get; ASSERT (start <=? bit_cnt b);; ASSERT (u64 (start + cnt) <=? bit_cnt b).

Definition bitmap_set_multiple (start cnt : Z) (value : bool) : M bitmap unit :=
  assert_range start cnt;; set_multiple_loop (Z.to_nat cnt) start 0 value.

Definition bitmap_set_all (value : bool) : M bitmap unit :=
  n ← bitmap_size; bitmap_set_multiple 0 n value.

Fixpoint count_loop (n : nat) (start i value_cnt : Z) (value : bool) : M bitmap Z :=
  match n with
  | O => ret value_cnt
  | S n =>
      t ← bitmap_test (u64 (start + i));
      count_loop n start (i + 1) (if Bool.eqb t value then u64 (value_cnt + 1) else value_cnt) value
  end.

Definition bitmap_count (start cnt : Z) (value : bool) : M bitmap Z :=
  assert_range start cnt;; count_loop (Z.to_nat cnt) start 0 0 value.

Fixpoint contains_loop (n : nat) (start i : Z) (value : bool) : M bitmap bool :=
  match n with
  | O => ret false
  | S n =>
      t ← bitmap_test (u64 (start + i));
      if Bool.eqb t value then ret true else contains_loop n start (i + 1) value
  end.

Definition bitmap_contains (start cnt : Z) (value : bool) : M bitmap bool :=
  assert_range start cnt;; contains_loop (Z.to_nat cnt) start 0 value.

Definition bitmap_any (start cnt : Z) : M bitmap bool := bitmap_contains start cnt true.
Definition bitmap_none (start cnt : Z) : M bitmap bool :=
  c ← bitmap_contains start cnt true; ret (negb c).
Definition bitmap_all (start cnt : Z) : M bitmap bool :=
  c ← bitmap_contains start cnt false; ret (negb c).

(** [for (i = start; i <= last; i++)], with enough fuel for every [i]. *)
Fixpoint scan_loop (fuel : nat) (i last cnt : Z) (value : bool) : M bitmap Z :=
  if i <=? last then
    match fuel with
    | O => out_of_fuel
    | S fuel =>
        c ← bitmap_contains i cnt (negb value);
        if negb c then ret i else scan_loop fuel (i + 1) last cnt value
    end
  else ret BITMAP_ERROR.

Definition bitmap_scan (start cnt : Z) (value : bool) : M bitmap Z :=
  b ← get; ASSERT (start <=? bit_cnt b);;
  if cnt <=? bit_cnt b then
    let last := bit_cnt b - cnt in
    scan_loop (Z.to_nat (last - start + 1)) start last cnt value
  else ret BITMAP_ERROR.

Definition bitmap_scan_and_flip (start cnt : Z) (value : bool) : M bitmap Z :=
  idx ← bitmap_scan start cnt value;
  (if negb (idx =? BITMAP_ERROR) then bitmap_set_multiple idx cnt (negb value) else ret tt);;
  ret idx.

Definition bitmap_buf_size (cnt : Z) : Z := u64 (16 + byte_cnt cnt).

(** [bitmap_create_in_buf]: [words] is what the storage after the header
    happens to contain. *)
Definition bitmap_create_in_buf (cnt block_size : Z) (words : list Z) : result bitmap :=
  let! _ := rassert (bitmap_buf_size cnt <=? block_size) in
  let! r := bitmap_set_all false (Bitmap cnt words) in Ok (snd r).

(** [bitmap_create]: the two results of [malloc], the second with the words
    the block contains. *)
Definition bitmap_create (cnt : Z) (m1 : bool) (m2 : option (list Z)) : result (option bitmap) :=
  if m1 then
    match m2 with
    | Some words => let! r := bitmap_set_all false (Bitmap cnt words) in Ok (Some (snd r))
    | None =>
        if cnt =? 0 then
          let! r := bitmap_set_all false (Bitmap cnt []) in Ok (Some (snd r))
        else Ok None
    end
  else Ok None.

(** ** Files: a word is stored as 8 bytes, least significant first. *)

Fixpoint word_bytes (n : nat) (w : Z) : list Z :=
  match n with O => [] | S n => w mod 256 :: word_bytes n (w / 256) end.
Fixpoint bytes_word (bs : list Z) : Z :=
  match bs with [] => 0 | x :: t => x + 256 * bytes_word t end.
Definition words_bytes (ws : list Z) : list Z := ws ≫= word_bytes 8.
Fixpoint bytes_words (n : nat) (bs : list Z) : list Z :=
  match n with O => [] | S n => bytes_word (take 8 bs) :: bytes_words n (drop 8 bs) end.

Definition bitmap_file_size (b : bitmap) : Z := byte_cnt (bit_cnt b).

(** [bitmap_read]: [got] is what [file_read_at] delivered; the bytes behind it
    keep their old values. *)
Definition bitmap_read (got : list Z) : M bitmap bool :=
  b ← get;
  if 0 <? bit_cnt b then
    let size := s32 (byte_cnt (bit_cnt b)) in
    let success := s32 (Z.of_nat (length got)) =? size in
    put (Bitmap (bit_cnt b) (bytes_words (length (bits b))
           (got ++ drop (length got) (words_bytes (bits b)))));;
    w ← load_elem (elem_cnt (bit_cnt b) - 1);
    store_elem (elem_cnt (bit_cnt b) - 1) (Z.land w (last_mask b));;
    ret success
  else ret true.

(** [bitmap_write] hands these bytes to [file_write_at], which reports how
    many it wrote. *)
Definition bitmap_write_data (b : bitmap) : list Z := words_bytes (bits b).
Definition bitmap_write (b : bitmap) (written : Z) : bool :=
  written =? s32 (byte_cnt (bit_cnt b)).

(** ** The abstract bit array *)

Definition bit (b : bitmap) (i : Z) : bool :=
  Z.testbit (nth (Z.to_nat (elem_idx i)) (bits b) 0) (i mod ELEM_BITS).

Record wf (b : bitmap) : Prop := {
  wf_cnt : 0 <= bit_cnt b < SIZE_MAX;
  wf_len : Z.of_nat (length (bits b)) = elem_cnt (bit_cnt b);
  wf_words : Forall (is_u 64) (bits b)
}.

(** The bits from [start] on, [cnt] of them, all have value [v]. *)
Definition run_of (b : bitmap) (start cnt : Z) (v : bool) : Prop :=
  forall i, start <= i < start + cnt -> bit b i = v.

Lemma elem_cnt_spec n : 0 <= n < SIZE_MAX -> elem_cnt n = (n + 63) / 64.
Proof.
  intros H. unfold elem_cnt, DIV_ROUND_UP, ELEM_BITS, SIZE_MAX in *.
  rewrite (wrapu_id 64 (n + 64)) by (split; lia).
  rewrite wrapu_id by (split; lia). f_equal. lia.
Qed.

Lemma elem_idx_lt b i :
  wf b -> 0 <= i < bit_cnt b -> (Z.to_nat (elem_idx i) < length (bits b))%nat.
Proof.
  intros [H1 H2 _] Hi. rewrite elem_cnt_spec in H2 by done. unfold elem_idx, ELEM_BITS.
  apply Nat2Z.inj_lt. rewrite H2, Z2Nat.id by (apply Z.div_pos; lia).
  apply Z.div_lt_upper_bound; [lia|].
  pose proof (Z.mod_pos_bound (bit_cnt b + 63) 64). pose proof (Z.div_mod (bit_cnt b + 63) 64). lia.
Qed.

Lemma bit_mask_pow i : bit_mask i = 2 ^ (i mod 64).
Proof.
  unfold bit_mask, ELEM_BITS. rewrite Z.shiftl_1_l. apply wrapu_id.
  pose proof (Z.mod_pos_bound i 64 ltac:(lia)). split; [by apply Z.pow_nonneg|].
  apply Z.pow_lt_mono_r; lia.
Qed.

Lemma is_u_bits w x : 0 <= w -> (is_u w x <-> 0 <= x /\ forall i, w <= i -> Z.testbit x i = false).
Proof.
  intros Hw. split.
  - intros [H0 H1]. split; [done|]. intros i Hi. destruct (decide (x = 0)) as [->|]; [apply Z.bits_0|].
    apply Z.bits_above_log2; [done|]. apply Z.lt_le_trans with w; [|done]. apply Z.log2_lt_pow2; lia.
  - intros [H0 H1]. split; [done|]. destruct (Z_lt_le_dec x (2 ^ w)); [done|]. exfalso.
    pose proof (pow2_pos w Hw).
    assert (Z.testbit x (Z.log2 x) = true) as E by (apply Z.bit_log2; lia).
    rewrite H1 in E; [done|]. apply Z.log2_le_pow2; lia.
Qed.

Lemma load_elem_run b i :
  wf b -> 0 <= i < bit_cnt b ->
  load_elem (elem_idx i) b = Ok (nth (Z.to_nat (elem_idx i)) (bits b) 0, b).
Proof.
  intros W Hi. unfold load_elem. pose proof (elem_idx_lt b i W Hi).
  destruct (lookup_lt_is_Some_2 (bits b) (Z.to_nat (elem_idx i))) as [w Hw]; [done|].
  rewrite Hw. by rewrite (nth_lookup_Some _ _ _ _ Hw).
Qed.

(** [b'] is [b] with the bits in [P] replaced by [v]. *)
Record updated (b b' : bitmap) (P : Z -> bool) (v : Z -> bool) : Prop := {
  up_wf : wf b';
  up_cnt : bit_cnt b' = bit_cnt b;
  up_bit i : 0 <= i -> bit b' i = if P i then v i else bit b i
}.

Lemma store_elem_spec b i w' v :
  wf b -> 0 <= i < bit_cnt b -> is_u64 w' ->
  (forall j, 0 <= j < 64 -> Z.testbit w' j =
     if j =? i mod 64 then v else Z.testbit (nth (Z.to_nat (elem_idx i)) (bits b) 0) j) ->
  exists b', store_elem (elem_idx i) w' b = Ok (tt, b') /\
    updated b b' (fun j => j =? i) (fun _ => v).
Proof.
  intros W Hi Hw Hb. pose proof (elem_idx_lt b i W Hi) as Hlt.
  destruct (lookup_lt_is_Some_2 _ _ Hlt) as [w E]. unfold store_elem. rewrite E.
  eexists. split; [done|]. pose proof W as [W1 W2 W3]. split; [split|done|]; cbn.
  - done.
  - by rewrite length_insert.
  - by apply Forall_insert.
  - intros j Hj. unfold bit. cbn. unfold elem_idx, ELEM_BITS in *.
    pose proof (Z.mod_pos_bound j 64 ltac:(lia)). pose proof (Z.div_mod j 64 ltac:(lia)).
    pose proof (Z.mod_pos_bound i 64 ltac:(lia)). pose proof (Z.div_mod i 64 ltac:(lia)).
    destruct (decide (j / 64 = i / 64)) as [Ej|Ej].
    + rewrite Ej, (nth_lookup_Some _ _ _ w') by (by apply list_lookup_insert_eq).
      rewrite Hb by lia. destruct (Z.eqb_spec (j mod 64) (i mod 64)), (Z.eqb_spec j i); try lia; done.
    + destruct (Z.eqb_spec j i) as [->|]; [done|]. f_equal.
      rewrite !nth_lookup, list_lookup_insert_ne; [done|].
      intros E2. apply Z2Nat.inj in E2; [lia|apply Z.div_pos; lia|apply Z.div_pos; lia].
Qed.

Lemma word_u64 b n : wf b -> is_u64 (nth n (bits b) 0).
Proof.
  intros [_ _ W]. rewrite nth_lookup. destruct (bits b !! n) as [w|] eqn:E; [|done].
  by apply (Forall_lookup_1 _ _ _ _ W E).
Qed.

Lemma bitmap_mark_spec b i :
  wf b -> 0 <= i < bit_cnt b ->
  exists b', bitmap_mark i b = Ok (tt, b') /\ updated b b' (fun j => j =? i) (fun _ => true).
Proof.
  intros W Hi. unfold bitmap_mark. mstep (load_elem_run b i W Hi).
  pose proof (Z.mod_pos_bound i 64 ltac:(lia)). rewrite bit_mask_pow.
  apply store_elem_spec; [done|done| |].
  - apply is_u_bits; [lia|]. destruct (proj1 (is_u_bits 64 _ ltac:(lia)) (word_u64 b (Z.to_nat (elem_idx i)) W)).
    split; [apply Z.lor_nonneg; split; [done|by apply Z.pow_nonneg]|]. intros j Hj.
    rewrite Z.lor_spec, pow2_testbit by lia. destruct (Z.eqb_spec (i mod 64) j); [lia|].
    rewrite orb_false_r. auto.
  - intros j Hj. rewrite Z.lor_spec, pow2_testbit, Z.eqb_sym by lia.
    by destruct (j =? i mod 64); rewrite ?orb_true_r, ?orb_false_r.
Qed.

Lemma lnot_mask_bits k j : 0 <= k < 64 -> 0 <= j < 64 ->
  Z.testbit (u64 (Z.lnot (2 ^ k))) j = negb (k =? j).
Proof.
  intros Hk Hj. unfold wrapu. rewrite Z.mod_pow2_bits_low by lia.
  rewrite Z.lnot_spec by lia. by rewrite pow2_testbit by lia.
Qed.

Lemma bitmap_reset_spec b i :
  wf b -> 0 <= i < bit_cnt b ->
  exists b', bitmap_reset i b = Ok (tt, b') /\ updated b b' (fun j => j =? i) (fun _ => false).
Proof.
  intros W Hi. unfold bitmap_reset. mstep (load_elem_run b i W Hi).
  pose proof (Z.mod_pos_bound i 64 ltac:(lia)). rewrite bit_mask_pow.
  apply store_elem_spec; [done|done| |].
  - apply is_u_bits; [lia|]. destruct (proj1 (is_u_bits 64 _ ltac:(lia)) (word_u64 b (Z.to_nat (elem_idx i)) W)).
    split; [apply Z.land_nonneg; by left|]. intros j Hj. rewrite Z.land_spec.
    by rewrite (H1 j) by lia.
  - intros j Hj. rewrite Z.land_spec, lnot_mask_bits, Z.eqb_sym by lia.
    by destruct (j =? i mod 64); cbn; rewrite ?andb_true_r, ?andb_false_r.
Qed.

Lemma bitmap_flip_spec b i :
  wf b -> 0 <= i < bit_cnt b ->
  exists b', bitmap_flip i b = Ok (tt, b') /\ updated b b' (fun j => j =? i) (fun j => negb (bit b j)).
Proof.
  intros W Hi. unfold bitmap_flip. mstep (load_elem_run b i W Hi).
  pose proof (Z.mod_pos_bound i 64 ltac:(lia)). rewrite bit_mask_pow.
  destruct (store_elem_spec b i (Z.lxor (nth (Z.to_nat (elem_idx i)) (bits b) 0) (2 ^ (i mod 64)))
    (negb (bit b i))) as (b' & E & [U1 U2 U3]); [done|done| | |].
  - apply is_u_bits; [lia|]. destruct (proj1 (is_u_bits 64 _ ltac:(lia)) (word_u64 b (Z.to_nat (elem_idx i)) W)).
    split; [apply Z.lxor_nonneg; split; intros; [by apply Z.pow_nonneg|done]|]. intros j Hj.
    rewrite Z.lxor_spec, pow2_testbit by lia. destruct (Z.eqb_spec (i mod 64) j); [lia|].
    rewrite xorb_false_r. auto.
  - intros j Hj. rewrite Z.lxor_spec, pow2_testbit, Z.eqb_sym by lia. unfold bit, ELEM_BITS.
    destruct (Z.eqb_spec j (i mod 64)) as [->|]; [by rewrite xorb_true_r|by rewrite xorb_false_r].
  - exists b'. split; [done|]. split; try done. intros j Hj. rewrite U3 by done.
    by destruct (Z.eqb_spec j i) as [->|].
Qed.

Lemma bitmap_set_spec b i v :
  wf b -> 0 <= i < bit_cnt b ->
  exists b', bitmap_set i v b = Ok (tt, b') /\ updated b b' (fun j => j =? i) (fun _ => v).
Proof.
  intros W Hi. unfold bitmap_set. mnorm. destruct (Z.ltb_spec i (bit_cnt b)); [|lia]. mnorm.
  destruct v; [by apply bitmap_mark_spec|by apply bitmap_reset_spec].
Qed.

Lemma bitmap_test_spec b i : wf b -> 0 <= i < bit_cnt b -> bitmap_test i b = Ok (bit b i, b).
Proof.
  intros W Hi. unfold bitmap_test. mnorm. destruct (Z.ltb_spec i (bit_cnt b)); [|lia]. mnorm.
  mstep (load_elem_run b i W Hi). pose proof (Z.mod_pos_bound i 64 ltac:(lia)).
  by rewrite bit_mask_pow, land_pow2_neq0 by lia.
Qed.

(** ** Several bits *)

Definition in_range (start cnt i : Z) : bool := (start <=? i) && (i <? start + cnt).

Lemma set_multiple_loop_spec n b start i v :
  wf b -> 0 <= start -> 0 <= i -> start + i + Z.of_nat n <= bit_cnt b ->
  exists b', set_multiple_loop n start i v b = Ok (tt, b') /\
    updated b b' (in_range (start + i) (Z.of_nat n)) (fun _ => v).
Proof.
  revert b i. induction n as [|n IH]; intros b i W Hs Hi Hr; cbn [set_multiple_loop].
  - exists b. split; [done|]. split; try done. intros j Hj. unfold in_range.
    destruct (Z.leb_spec (start + i) j), (Z.ltb_spec j (start + i + Z.of_nat 0)); cbn; try done. lia.
  - pose proof (wf_cnt _ W). unfold SIZE_MAX in *. rewrite wrapu_id by (split; lia).
    destruct (bitmap_set_spec b (start + i) v W) as (b1 & E1 & [U1 U2 U3]); [lia|]. mstep E1.
    destruct (IH b1 (i + 1)) as (b' & E & [V1 V2 V3]); [done|done|lia|lia|].
    exists b'. split; [done|]. split; [done|congruence|]. intros j Hj. rewrite V3, U3 by done.
    unfold in_range. repeat zcase; cbn; try done; lia.
Qed.

Lemma assert_range_run b start cnt :
  wf b -> 0 <= start -> 0 <= cnt -> start + cnt <= bit_cnt b ->
  assert_range start cnt b = Ok (tt, b).
Proof.
  intros W Hs Hc Hr. pose proof (wf_cnt _ W). unfold SIZE_MAX in *. unfold assert_range. mnorm.
  destruct (Z.leb_spec start (bit_cnt b)); [|lia]. mnorm. rewrite wrapu_id by (split; lia).
  by destruct (Z.leb_spec (start + cnt) (bit_cnt b)); [|lia].
Qed.

Lemma bitmap_set_multiple_spec b start cnt v :
  wf b -> 0 <= start -> 0 <= cnt -> start + cnt <= bit_cnt b ->
  exists b', bitmap_set_multiple start cnt v b = Ok (tt, b') /\
    updated b b' (in_range start cnt) (fun _ => v).
Proof.
  intros W Hs Hc Hr. unfold bitmap_set_multiple. mstep (assert_range_run b start cnt W Hs Hc Hr).
  destruct (set_multiple_loop_spec (Z.to_nat cnt) b start 0 v W) as (b' & E & U); [done|done|lia|].
  exists b'. rewrite Z.add_0_r, Z2Nat.id in U by done. done.
Qed.

Lemma contains_loop_spec n b start i v :
  wf b -> 0 <= start -> 0 <= i -> start + i + Z.of_nat n <= bit_cnt b ->
  exists c, contains_loop n start i v b = Ok (c, b) /\
    (c = false <-> run_of b (start + i) (Z.of_nat n) (negb v)).
Proof.
  revert i. induction n as [|n IH]; intros i W Hs Hi Hr; cbn [contains_loop].
  - exists false. split; [done|]. split; [|done]. intros _ j Hj. lia.
  - pose proof (wf_cnt _ W). unfold SIZE_MAX in *. rewrite wrapu_id by (split; lia).
    mstep (bitmap_test_spec b (start + i) W ltac:(lia)).
    destruct (Bool.eqb (bit b (start + i)) v) eqn:E.
    + exists true. split; [done|]. split; [done|]. intros Hc. apply eqb_prop in E.
      specialize (Hc (start + i) ltac:(lia)). rewrite E in Hc. by destruct v.
    + destruct (IH (i + 1)) as (c & Ec & Hc); [done|done|lia|lia|]. exists c. split; [done|].
      rewrite Hc. apply eqb_false_iff in E. split; intros Hrun j Hj.
      * destruct (decide (j = start + i)) as [->|]; [by destruct (bit b (start + i)), v|].
        apply Hrun. lia.
      * apply Hrun. lia.
Qed.

Lemma bitmap_contains_spec b start cnt v :
  wf b -> 0 <= start -> 0 <= cnt -> start + cnt <= bit_cnt b ->
  exists c, bitmap_contains start cnt v b = Ok (c, b) /\
    (c = false <-> run_of b start cnt (negb v)).
Proof.
  intros W Hs Hc Hr. unfold bitmap_contains. mstep (assert_range_run b start cnt W Hs Hc Hr).
  destruct (contains_loop_spec (Z.to_nat cnt) b start 0 v W) as (c & E & Hiff); [done|done|lia|].
  exists c. rewrite Z.add_0_r, Z2Nat.id in Hiff by done. done.
Qed.

(** ** Scanning *)

(** [r] is the first group at or after [start], or the error value when there
    is none. *)
Definition first_run (b : bitmap) (start cnt : Z) (v : bool) (r : Z) : Prop :=
  (r = BITMAP_ERROR /\
   forall i, start <= i -> i + cnt <= bit_cnt b -> ~ run_of b i cnt v) \/
  (start <= r /\ r + cnt <= bit_cnt b /\ run_of b r cnt v /\
   forall i, start <= i < r -> ~ run_of b i cnt v).

Lemma scan_loop_spec fuel b start i cnt v :
  wf b -> 0 <= cnt <= bit_cnt b -> 0 <= start <= i ->
  (Z.to_nat (bit_cnt b - cnt - i + 1) <= fuel)%nat ->
  (forall j, start <= j < i -> ~ run_of b j cnt v) ->
  exists r, scan_loop fuel i (bit_cnt b - cnt) cnt v b = Ok (r, b) /\ first_run b start cnt v r.
Proof.
  revert i. induction fuel as [|fuel IH]; intros i W Hc Hi Hf Hno; cbn [scan_loop];
    destruct (Z.leb_spec i (bit_cnt b - cnt)); try lia.
  1, 3: exists BITMAP_ERROR; split; [done|]; left; split; [done|];
    intros j ? ?; apply Hno; lia.
  destruct (bitmap_contains_spec b i cnt (negb v) W) as (c & E & Hiff); [lia|lia|lia|].
  mstep E. rewrite negb_involutive in Hiff. destruct c; cbn [negb].
  - destruct (IH (i + 1)) as (r & Er & Hr); [done|done|lia|lia| |by exists r].
    intros j Hj. destruct (decide (j = i)) as [->|]; [|apply Hno; lia]. by intros ?%Hiff.
  - exists i. split; [done|]. right. split_and!; [lia|lia|by apply Hiff|done].
Qed.

Lemma bitmap_scan_spec b start cnt v :
  wf b -> 0 <= cnt -> 0 <= start <= bit_cnt b ->
  exists r, bitmap_scan start cnt v b = Ok (r, b) /\ first_run b start cnt v r.
Proof.
  intros W Hc Hs. unfold bitmap_scan. mnorm. destruct (Z.leb_spec start (bit_cnt b)); [|lia].
  mnorm. destruct (Z.leb_spec cnt (bit_cnt b)).
  - apply scan_loop_spec; try done; [lia|]. intros j Hj. lia.
  - exists BITMAP_ERROR. split; [done|]. left. split; [done|]. intros j ? ?. lia.
Qed.

Lemma bitmap_scan_and_flip_spec b start cnt v :
  wf b -> 0 <= cnt -> 0 <= start <= bit_cnt b ->
  exists r b', bitmap_scan_and_flip start cnt v b = Ok (r, b') /\ first_run b start cnt v r /\
    updated b b' (fun i => negb (r =? BITMAP_ERROR) && in_range r cnt i) (fun _ => negb v).
Proof.
  intros W Hc Hs. unfold bitmap_scan_and_flip.
  destruct (bitmap_scan_spec b start cnt v W Hc Hs) as (r & E & Hr). mstep E.
  pose proof (wf_cnt _ W) as Hcnt. exists r. destruct (Z.eqb_spec r BITMAP_ERROR) as [->|Hne]; cbn [negb].
  - exists b. by split_and!.
  - destruct Hr as [[? _]|Hr]; [done|]. pose proof Hr as (H1 & H2 & _).
    destruct (bitmap_set_multiple_spec b r cnt (negb v) W) as (b' & E2 & U); [lia|done|done|].
    exists b'. split_and!; [by mstep E2|by right|done].
Qed.

Lemma bitmap_set_all_spec b v :
  wf b -> exists b', bitmap_set_all v b = Ok (tt, b') /\
    updated b b' (in_range 0 (bit_cnt b)) (fun _ => v).
Proof.
  intros W. pose proof (wf_cnt _ W). unfold bitmap_set_all, bitmap_size. mnorm.
  apply bitmap_set_multiple_spec; [done|lia|lia|lia].
Qed.

(** ** Counting *)

Fixpoint count_spec (b : bitmap) (v : bool) (i : Z) (n : nat) : Z :=
  match n with
  | O => 0
  | S n => (if Bool.eqb (bit b i) v then 1 else 0) + count_spec b v (i + 1) n
  end.

Lemma count_spec_bound b v i n : 0 <= count_spec b v i n <= Z.of_nat n.
Proof. revert i. induction n as [|n IH]; intros i; cbn [count_spec]; [lia|]. specialize (IH (i + 1)). case_match; lia. Qed.

Lemma count_loop_spec n b start i c v :
  wf b -> 0 <= start -> 0 <= i -> start + i + Z.of_nat n <= bit_cnt b ->
  0 <= c -> c + Z.of_nat n < 2 ^ 64 ->
  count_loop n start i c v b = Ok (c + count_spec b v (start + i) n, b).
Proof.
  revert i c. induction n as [|n IH]; intros i c W Hs Hi Hr Hc Hc2; cbn [count_loop count_spec].
  - by rewrite Z.add_0_r.
  - pose proof (wf_cnt _ W). unfold SIZE_MAX in *. rewrite (wrapu_id 64 (start + i)) by (split; lia).
    mstep (bitmap_test_spec b (start + i) W ltac:(lia)).
    destruct (Bool.eqb (bit b (start + i)) v).
    + rewrite wrapu_id by (split; lia). rewrite IH by (try done; lia).
      replace (start + (i + 1)) with (start + i + 1) by lia. do 2 f_equal. lia.
    + rewrite IH by (try done; lia).
      replace (start + (i + 1)) with (start + i + 1) by lia. done.
Qed.

(** ** Files *)

Lemma length_word_bytes n w : length (word_bytes n w) = n.
Proof. revert w. induction n as [|n IH]; intros w; cbn; [done|]. by rewrite IH. Qed.

Lemma bytes_word_range bs : Forall (is_u 8) bs -> 0 <= bytes_word bs < 256 ^ Z.of_nat (length bs).
Proof.
  induction 1 as [|b bs Hb _ IH]; cbn [bytes_word length]; [lia|]. rewrite Nat2Z.inj_succ, Z.pow_succ_r by lia. unfold is_u in Hb. lia.
Qed.

Lemma bytes_word_bytes n w : 0 <= w < 256 ^ Z.of_nat n -> bytes_word (word_bytes n w) = w.
Proof.
  revert w. induction n as [|n IH]; intros w Hw; cbn [word_bytes bytes_word].
  - change (256 ^ Z.of_nat 0) with 1 in Hw. lia.
  - rewrite IH.
    + pose proof (Z.div_mod w 256 ltac:(lia)). lia.
    + rewrite Nat2Z.inj_succ, Z.pow_succ_r in Hw by lia. split; [apply Z.div_pos; lia|].
      apply Z.div_lt_upper_bound; lia.
Qed.

Lemma length_words_bytes ws : length (words_bytes ws) = (8 * length ws)%nat.
Proof.
  unfold words_bytes. induction ws as [|w ws IH]; cbn [mbind list_bind]; [done|].
  rewrite length_app, IH, length_word_bytes. cbn [length]. lia.
Qed.

Lemma bytes_words_bytes ws : Forall (is_u 64) ws -> bytes_words (length ws) (words_bytes ws) = ws.
Proof.
  induction 1 as [|w ws Hw _ IH]; [done|]. unfold words_bytes in *. cbn [length bytes_words mbind list_bind].
  rewrite take_app_length', drop_app_length' by (by rewrite length_word_bytes).
  rewrite IH, bytes_word_bytes; [done|]. exact Hw.
Qed.

Lemma last_mask_spec b : wf b -> exists m, last_mask b = 2 ^ m - 1 /\ 0 < m <= 64 /\
  (bit_cnt b > 0 -> (elem_cnt (bit_cnt b) - 1) * 64 + m = bit_cnt b).
Proof.
  intros [H1 _ _]. rewrite elem_cnt_spec by done. unfold last_mask, ELEM_BITS.
  pose proof (Z.mod_pos_bound (bit_cnt b) 64 ltac:(lia)) as Hm.
  pose proof (Z.div_mod (bit_cnt b) 64 ltac:(lia)) as Hd.
  pose proof (Z.div_mod (bit_cnt b + 63) 64 ltac:(lia)) as Hd'.
  pose proof (Z.mod_pos_bound (bit_cnt b + 63) 64 ltac:(lia)) as Hm'.
  destruct (Z.eqb_spec (bit_cnt b mod 64) 0) as [E|E].
  - exists 64. split_and!; [done|lia|lia|]. intros. lia.
  - exists (bit_cnt b mod 64). rewrite Z.shiftl_1_l. split_and!; [|lia|lia|intros; lia].
    apply wrapu_id. pose proof (pow2_pos (bit_cnt b mod 64) ltac:(lia)). split; [lia|].
    apply Z.lt_le_trans with (2 ^ (bit_cnt b mod 64)); [lia|]. apply Z.pow_le_mono_r; lia.
Qed.

(** Reading back the words of a bitmap, with the unused bits cleared. *)
Definition trimmed (b : bitmap) : bitmap :=
  let n := Z.to_nat (elem_cnt (bit_cnt b) - 1) in
  Bitmap (bit_cnt b) (<[n := Z.land (nth n (bits b) 0) (last_mask b)]> (bits b)).

Lemma ones_testbit m i : 0 <= m -> 0 <= i -> Z.testbit (2 ^ m - 1) i = (i <? m).
Proof.
  intros Hm Hi. replace (2 ^ m - 1) with (Z.ones m) by (rewrite Z.ones_equiv; lia).
  destruct (Z.ltb_spec i m); [apply Z.ones_spec_low; lia|apply Z.ones_spec_high; lia].
Qed.

Lemma trimmed_spec b :
  wf b -> 0 < bit_cnt b ->
  wf (trimmed b) /\ forall i, 0 <= i -> bit (trimmed b) i = (i <? bit_cnt b) && bit b i.
Proof.
  intros W Hp. destruct (last_mask_spec b W) as (m & Em & Hm & Hcnt). specialize (Hcnt ltac:(lia)).
  pose proof W as [W1 W2 W3]. set (n := elem_cnt (bit_cnt b) - 1) in *.
  assert (Hn : 0 <= n) by lia. split.
  - split; cbn; [done|by rewrite length_insert|]. apply Forall_insert; [done|].
    pose proof (word_u64 b (Z.to_nat n) W) as Hw. apply is_u_bits; [lia|].
    destruct (proj1 (is_u_bits 64 _ ltac:(lia)) Hw) as [H0 Hb]. split; [apply Z.land_nonneg; by left|].
    intros j Hj. by rewrite Z.land_spec, Hb.
  - intros i Hi. unfold bit, trimmed, elem_idx, ELEM_BITS. cbn [bits]. fold n.
    pose proof (Z.mod_pos_bound i 64 ltac:(lia)). pose proof (Z.div_mod i 64 ltac:(lia)).
    destruct (decide (i / 64 = n)) as [E|E].
    + rewrite E. assert (Hlt : (Z.to_nat n < length (bits b))%nat) by lia.
      rewrite (nth_lookup_Some _ _ _ (Z.land (nth (Z.to_nat n) (bits b) 0) (last_mask b)))
        by (by apply list_lookup_insert_eq).
      rewrite Z.land_spec, Em, ones_testbit by lia.
      destruct (Z.ltb_spec (i mod 64) m), (Z.ltb_spec i (bit_cnt b)); try lia;
        by rewrite ?andb_true_r, ?andb_false_r.
    + rewrite !nth_lookup, list_lookup_insert_ne; [|intros E2; apply E;
        apply Z2Nat.inj in E2; [lia|lia|apply Z.div_pos; lia]].
      destruct (Z.ltb_spec i (bit_cnt b)); [done|].
      assert (n < i / 64) by (assert (n <= i / 64) by (apply Z.div_le_lower_bound; lia); lia).
      rewrite lookup_ge_None_2 by lia. cbn. apply Z.bits_0.
Qed.

Lemma bitmap_read_run b b0 :
  wf b -> wf b0 -> bit_cnt b0 = bit_cnt b -> 0 < bit_cnt b ->
  bitmap_read (bitmap_write_data b) b0 = Ok (true, trimmed b).
Proof.
  intros W W0 Ec Hp. pose proof W as [W1 W2 W3]. pose proof W0 as [_ W2' _].
  assert (El : length (bits b0) = length (bits b)) by (rewrite Ec in W2'; lia).
  unfold bitmap_read. mnorm. destruct (Z.ltb_spec 0 (bit_cnt b0)); [|lia].
  unfold bitmap_write_data. rewrite length_words_bytes, drop_ge, app_nil_r, El, bytes_words_bytes by
    (rewrite ?length_words_bytes; done || lia).
  unfold put at 1. unfold bind at 1. cbn [rbind]. rewrite Ec.
  rewrite elem_cnt_spec in W2 by done.
  assert (Hsz : s32 (Z.of_nat (8 * length (bits b))) =? s32 (byte_cnt (bit_cnt b)) = true).
  { apply Z.eqb_eq. f_equal. unfold byte_cnt. rewrite elem_cnt_spec by done.
    rewrite wrapu_id; [lia|]. unfold SIZE_MAX in *. split; [lia|].
    pose proof (Z.div_le_upper_bound (bit_cnt b + 63) 64 (2 ^ 32) ltac:(lia) ltac:(lia)). lia. }
  rewrite Hsz. unfold trimmed, load_elem, store_elem, last_mask. cbn [bits bit_cnt]. rewrite Ec.
  set (n := Z.to_nat (elem_cnt (bit_cnt b) - 1)).
  destruct (lookup_lt_is_Some_2 (bits b) n) as [w Hw].
  { unfold n. rewrite elem_cnt_spec by done.
    assert (1 <= (bit_cnt b + 63) / 64) by (apply Z.div_le_lower_bound; lia). lia. }
  unfold bind at 1. cbn [bits]. rewrite Hw. cbn [rbind]. unfold bind at 1. cbn [bits]. rewrite Hw.
  by rewrite (nth_lookup_Some _ _ _ _ Hw).
Qed.

(** ** Theorems *)

(** C6: [bitmap_scan_and_flip] is first fit: it returns the lowest index at or
    after START where CNT consecutive bits have value VALUE, and inverts
    exactly those bits; when there is no such group it returns
    [BITMAP_ERROR] and changes nothing. *)
Theorem bitmap_scan_and_flip_first_fit b start cnt v :
  wf b -> 0 <= cnt -> 0 <= start <= bit_cnt b ->
  exists r b', bitmap_scan_and_flip start cnt v b = Ok (r, b') /\ wf b' /\
    bit_cnt b' = bit_cnt b /\
    ((r = BITMAP_ERROR /\
      (forall i, start <= i -> i + cnt <= bit_cnt b -> ~ run_of b i cnt v) /\
      (forall i, 0 <= i -> bit b' i = bit b i)) \/
     (start <= r /\ r + cnt <= bit_cnt b /\ run_of b r cnt v /\
      (forall i, start <= i < r -> ~ run_of b i cnt v) /\
      run_of b' r cnt (negb v) /\
      (forall i, 0 <= i -> ~ (r <= i < r + cnt) -> bit b' i = bit b i))).
Proof.
  intros W Hc Hs. destruct (bitmap_scan_and_flip_spec b start cnt v W Hc Hs) as (r & b' & E & F & [U1 U2 U3]).
  exists r, b'. split_and!; try done. pose proof (wf_cnt _ W).
  destruct F as [[-> Hno]|(H1 & H2 & H3 & H4)].
  - left. by split_and!.
  - right. assert (r =? BITMAP_ERROR = false) as Er.
    { apply Z.eqb_neq. unfold BITMAP_ERROR. lia. }
    rewrite Er in U3. cbn [negb andb] in U3. split_and!; try done.
    + intros i Hi. rewrite U3 by lia. unfold in_range.
      destruct (Z.leb_spec r i), (Z.ltb_spec i (r + cnt)); try lia; done.
    + intros i Hi Hn. rewrite U3 by done. unfold in_range.
      destruct (Z.leb_spec r i), (Z.ltb_spec i (r + cnt)); try done. lia.
Qed.

(** A bitmap of 70 bits, the first three set. *)
Definition demo_bitmap : bitmap := Bitmap 70 [7; 0].

Lemma demo_bitmap_wf : wf demo_bitmap.
Proof. split; cbn; [unfold SIZE_MAX; lia|reflexivity|by repeat constructor]. Qed.

(** Witness. *)
Lemma bitmap_scan_and_flip_first_fit_witness :
  exists r b', bitmap_scan_and_flip 0 4 false demo_bitmap = Ok (r, b') /\ wf b' /\
    bit_cnt b' = 70 /\
    ((r = BITMAP_ERROR /\
      (forall i, 0 <= i -> i + 4 <= 70 -> ~ run_of demo_bitmap i 4 false) /\
      (forall i, 0 <= i -> bit b' i = bit demo_bitmap i)) \/
     (0 <= r /\ r + 4 <= 70 /\ run_of demo_bitmap r 4 false /\
      (forall i, 0 <= i < r -> ~ run_of demo_bitmap i 4 false) /\
      run_of b' r 4 true /\
      (forall i, 0 <= i -> ~ (r <= i < r + 4) -> bit b' i = bit demo_bitmap i))).
Proof. apply (bitmap_scan_and_flip_first_fit demo_bitmap 0 4 false); [exact demo_bitmap_wf|lia|cbn; lia]. Defined.

(** The single-bit operations read and write exactly the bit they name:
    for an index in range [bitmap_test] returns it, [bitmap_set] stores it,
    [bitmap_flip] inverts it, and every other bit of the array is kept; for an
    index out of range [bitmap_test] and [bitmap_set] panic. *)
Theorem bitmap_bit_ops b i v :
  wf b -> 0 <= i ->
  (bit_cnt b <= i -> bitmap_test i b = Panic /\ bitmap_set i v b = Panic) /\
  (i < bit_cnt b ->
    bitmap_test i b = Ok (bit b i, b) /\
    (exists b1, bitmap_set i v b = Ok (tt, b1) /\ wf b1 /\
       bit b1 i = v /\ forall j, 0 <= j -> j <> i -> bit b1 j = bit b j) /\
    (exists b2, bitmap_flip i b = Ok (tt, b2) /\ wf b2 /\
       bit b2 i = negb (bit b i) /\ forall j, 0 <= j -> j <> i -> bit b2 j = bit b j)).
Proof.
  intros W Hi. split.
  - intros Ho. unfold bitmap_test, bitmap_set. mnorm. by destruct (Z.ltb_spec i (bit_cnt b)); [lia|].
  - intros Hlt. split; [by apply bitmap_test_spec|]. split.
    + destruct (bitmap_set_spec b i v W) as (b1 & E & [U1 U2 U3]); [lia|]. exists b1.
      split_and!; try done; [rewrite U3 by done; by rewrite Z.eqb_refl|].
      intros j Hj Hne. rewrite U3 by done. by destruct (Z.eqb_spec j i).
    + destruct (bitmap_flip_spec b i W) as (b1 & E & [U1 U2 U3]); [lia|]. exists b1.
      split_and!; try done; [rewrite U3 by done; by rewrite Z.eqb_refl|].
      intros j Hj Hne. rewrite U3 by done. by destruct (Z.eqb_spec j i).
Qed.

(** Witness. *)
Lemma bitmap_bit_ops_witness :
  bitmap_test 69 demo_bitmap = Ok (false, demo_bitmap) /\ bitmap_test 70 demo_bitmap = Panic.
Proof.
  split.
  - apply (bitmap_bit_ops demo_bitmap 69 true); [exact demo_bitmap_wf|lia|reflexivity].
  - apply (bitmap_bit_ops demo_bitmap 70 true); [exact demo_bitmap_wf|lia|cbn; lia].
Defined.

(** a bitmap that [bitmap_write] stored completely is restored by
    [bitmap_read] into any bitmap of the same size: the read succeeds, every
    bit in range has its written value, and the unused bits of the last word
    are cleared whatever they were. *)
Theorem bitmap_file_roundtrip b b0 :
  wf b -> wf b0 -> bit_cnt b0 = bit_cnt b -> 0 < bit_cnt b ->
  exists b', bitmap_read (bitmap_write_data b) b0 = Ok (true, b') /\ wf b' /\
    bit_cnt b' = bit_cnt b /\
    forall i, 0 <= i -> bit b' i = (i <? bit_cnt b) && bit b i.
Proof.
  intros W W0 Ec Hp. exists (trimmed b). destruct (trimmed_spec b W Hp).
  split_and!; try done. by apply bitmap_read_run.
Qed.

(** Witness. *)
Lemma bitmap_file_roundtrip_witness :
  exists b', bitmap_read (bitmap_write_data demo_bitmap) (Bitmap 70 [1; 2 ^ 63]) = Ok (true, b') /\
    wf b' /\ bit_cnt b' = 70 /\
    forall i, 0 <= i -> bit b' i = (i <? 70) && bit demo_bitmap i.
Proof.
  apply (bitmap_file_roundtrip demo_bitmap); [exact demo_bitmap_wf| |reflexivity|reflexivity].
  split; cbn; [unfold SIZE_MAX; lia|reflexivity|by repeat constructor].
Defined.

(** [bitmap_count] over a range that lies in the bitmap returns the
    number of its bits with the given value, without overflow. *)
Theorem bitmap_count_spec b start cnt v :
  wf b -> 0 <= start -> 0 <= cnt -> start + cnt <= bit_cnt b ->
  bitmap_count start cnt v b = Ok (count_spec b v start (Z.to_nat cnt), b).
Proof.
  intros W Hs Hc Hr. pose proof (wf_cnt _ W). unfold SIZE_MAX in *. unfold bitmap_count.
  mstep (assert_range_run b start cnt W Hs Hc Hr).
  rewrite count_loop_spec by (try done; lia). by rewrite Z.add_0_r.
Qed.

(** Witness. *)
Lemma bitmap_count_spec_witness :
  bitmap_count 1 69 true demo_bitmap = Ok (2, demo_bitmap).
Proof. apply (bitmap_count_spec demo_bitmap 1 69 true); [exact demo_bitmap_wf|lia|lia|cbn; lia]. Defined.
