(* ===== verification/Vga.v ===== *)
(** * Text display (devices/vga.c)

    The frame buffer of 25 rows of 80 cells, the cursor, and the words that
    are written to the display controller. *)

From S2P Require Import Prelude Bitmap Ports.

(** ** State *)

Definition COL_CNT : Z := 80.
Definition ROW_CNT : Z := 25.
Definition GRAY_ON_BLACK : Z := 0x07.

(** [fb] holds the bytes of the 25 rows; an access beyond them is [Fault]. *)
Record vga := Vga { fb : list Z; cx : Z; cy : Z; inited : bool; crtc : io; off : bool; ctx : bool }.

Definition set_fb (b : list Z) : M vga unit := modify (fun s => Vga b (cx s) (cy s) (inited s) (crtc s) (off s) (ctx s)).
Definition set_cx (x : Z) : M vga unit := modify (fun s => Vga (fb s) x (cy s) (inited s) (crtc s) (off s) (ctx s)).
Definition set_cy (y : Z) : M vga unit := modify (fun s => Vga (fb s) (cx s) y (inited s) (crtc s) (off s) (ctx s)).
Definition set_off (b : bool) : M vga unit := modify (fun s => Vga (fb s) (cx s) (cy s) (inited s) (crtc s) b (ctx s)).
Definition on_crtc {A} (f : M io A) : M vga A := fun s =>
  let! (a, d) := f (crtc s) in Ok (a, Vga (fb s) (cx s) (cy s) (inited s) d (off s) (ctx s)).

Definition intr_disable : M vga bool := s ← get; set_off true;; ret (off s).
Definition intr_set_level (old_off : bool) : M vga unit :=
  if old_off then set_off true else (s ← get; ASSERT (negb (ctx s));; set_off false).

(** [fb[y][x][k] = v] *)
Definition fb_set (y x k v : Z) : M vga unit :=
  s ← get;
  let i := (y * COL_CNT + x) * 2 + k in
  if (0 <=? i) && (i <? Z.of_nat (length (fb s))) then set_fb (<[Z.to_nat i := v]> (fb s)) else lift Fault.

(** ** Operations *)

Definition move_cursor : M vga unit :=
  s ← get;
  let cp := u16 (u64 (cx s + u64 (COL_CNT * cy s))) in
  on_crtc (outw 0x3d4 (Z.lor 0x0e (Z.land cp 0xff00)));;
  on_crtc (outw 0x3d4 (Z.lor 0x0f (Z.shiftl cp 8))).

Definition find_cursor : M vga (Z * Z) :=
  on_crtc (outb 0x3d4 0x0e);;
  h ← on_crtc (inb 0x3d5);
  let cp := u16 (Z.shiftl h 8) in
  on_crtc (outb 0x3d4 0x0f);;
  l ← on_crtc (inb 0x3d5);
  let cp := Z.lor cp l in
  ret (cp mod COL_CNT, cp / COL_CNT).

Definition init : M vga unit :=
  s ← get;
  if negb (inited s) then
    p ← find_cursor;
    set_cx p.1;; set_cy p.2;;
    modify (fun s => Vga (fb s) (cx s) (cy s) true (crtc s) (off s) (ctx s))
  else ret tt.

(** [for (; x < COL_CNT; x++)]: [n] columns are left. *)
Fixpoint clear_cols (n : nat) (y x : Z) : M vga unit :=
  match n with
  | O => ret tt
  | S n => fb_set y x 0 32;; fb_set y x 1 GRAY_ON_BLACK;; clear_cols n y (x + 1)
  end.
Definition clear_row (y : Z) : M vga unit := clear_cols 80 y 0.
Fixpoint clear_rows (n : nat) (y : Z) : M vga unit :=
  match n with O => ret tt | S n => clear_row y;; clear_rows n (y + 1) end.

Definition cls : M vga unit :=
  clear_rows 25 0;;
  set_cy 0;; set_cx 0;;
  move_cursor.

(** [memmove (&fb[0], &fb[1], n)] for [n = 24 * 160] bytes. *)
Definition scroll : M vga unit :=
  let row := Z.to_nat (COL_CNT * 2) in
  let n := Z.to_nat (COL_CNT * 2 * (ROW_CNT - 1)) in
  s ← get;
  if (length (fb s) <? row + n)%nat then lift Fault
  else set_fb (take n (drop row (fb s)) ++ drop n (fb s)).

Definition newline : M vga unit :=
  set_cx 0;;
  s ← get; set_cy (u64 (cy s + 1));;
  s ← get;
  if ROW_CNT <=? cy s then
    set_cy (ROW_CNT - 1);;
    scroll;;
    clear_row (ROW_CNT - 1)
  else ret tt.

(** [switch (c)] *)
Definition putc_switch (c : Z) : M vga unit :=
  if c =? 10 then newline
  else if c =? 12 then cls
  else if c =? 8 then s ← get; (if 0 <? cx s then set_cx (cx s - 1) else ret tt)
  else if c =? 13 then set_cx 0
  else if c =? 9 then
    s ← get; set_cx (ROUND_UP (u64 (cx s + 1)) 8);;
    s ← get; (if COL_CNT <=? cx s then newline else ret tt)
  else
    s ← get;
    fb_set (cy s) (cx s) 0 (u8 c);;
    fb_set (cy s) (cx s) 1 GRAY_ON_BLACK;;
    set_cx (u64 (cx s + 1));;
    s ← get; (if COL_CNT <=? cx s then newline else ret tt).

Definition vga_putc (c : Z) : M vga unit :=
  old_level ← intr_disable;
  init;;
  putc_switch c;;
  move_cursor;;
  intr_set_level old_level.
