(* ===== verification/VgaSpec.v ===== *)
(** * The display as paper (devices/vga.c)

    What is on the screen is the end of a roll of paper on which everything
    since the last form feed has been typed. *)

From S2P Require Import Prelude Bitmap Ports Vga.

(** ** Paper *)

(** A character with its attribute. *)
Notation cell := (Z * Z)%type.

(** Rows of 80 characters: those above the current one, the current one, and
    those of an old screen that are still below; and the column. *)
Record paper := Paper { above : list (list cell); here : list cell; below : list (list cell); column : Z }.
Definition rows (p : paper) : list (list cell) := above p ++ here p :: below p.

Definition blank : list cell := replicate 80 (32, GRAY_ON_BLACK).
Definition clean : paper := Paper [] blank (replicate 24 blank) 0.
Definition feed (p : paper) : paper :=
  match below p with
  | [] => Paper (above p ++ [here p]) blank [] 0
  | r :: b => Paper (above p ++ [here p]) r b 0
  end.
Definition type (p : paper) (c : Z) : paper :=
  let at_column x := Paper (above p) (here p) (below p) x in
  let wrap p := if column p =? 80 then feed p else p in
  if c =? 10 then feed p
  else if c =? 12 then clean
  else if c =? 8 then at_column (Z.max 0 (column p - 1))
  else if c =? 13 then at_column 0
  else if c =? 9 then wrap (at_column (column p / 8 * 8 + 8))
  else wrap (Paper (above p) (<[Z.to_nat (column p) := (u8 c, GRAY_ON_BLACK)]> (here p)) (below p) (column p + 1)).

(** The last 25 rows. *)
Definition view (p : paper) : list (list cell) := drop (length (rows p) - 25) (rows p).

Record paper_ok (p : paper) : Prop := {
  pk_rows : Forall (fun r => length r = 80%nat) (rows p);
  pk_length : length (rows p) = 25%nat \/ (25 <= length (rows p))%nat /\ below p = [];
  pk_column : 0 <= column p <= 80
}.

(** ** Screen *)

Definition row_bytes (r : list cell) : list Z := r ≫= fun c => [c.1; c.2].
Definition screen (rows : list (list cell)) : list Z := rows ≫= row_bytes.

(** The frame buffer shows the paper and the cursor is where the next character
    goes. *)
Record shows (s : vga) (p : paper) : Prop := {
  sh_ok : paper_ok p;
  sh_fb : fb s = screen (view p);
  sh_cx : cx s = column p;
  sh_cy : cy s = Z.of_nat (length (above p) - (length (rows p) - 25));
  sh_inited : inited s = true
}.

(** ** Rows *)

Lemma length_row_bytes r : length (row_bytes r) = (2 * length r)%nat.
Proof. unfold row_bytes. induction r as [|c r IH]; [done|]. cbn [mbind list_bind] in *. cbn [app length]. rewrite IH. lia. Qed.

Lemma row_bytes_insert r x c a : (x < length r)%nat -> <[(2 * x + 1)%nat := a]> (<[(2 * x)%nat := c]> (row_bytes r)) = row_bytes (<[x := (c, a)]> r).
Proof.
  revert x. induction r as [|d r IH]; intros x Hx; [cbn in Hx; lia|]. destruct x as [|x]; [done|].
  replace (2 * S x)%nat with (S (S (2 * x))) by lia. replace (S (S (2 * x)) + 1)%nat with (S (S (2 * x + 1))) by lia. cbn [row_bytes mbind list_bind app] in *.
  unfold row_bytes in *. cbn in IH |- *. f_equal. f_equal. rewrite <- IH by (cbn in Hx; lia). cbn. by rewrite Nat.add_0_r.
Qed.

Definition rows_ok (rows : list (list cell)) : Prop := Forall (fun r => length r = 80%nat) rows.

Lemma length_screen rows : rows_ok rows -> length (screen rows) = (160 * length rows)%nat.
Proof.
  unfold screen. induction 1 as [|r rows Hr _ IH]; [done|]. cbn [mbind list_bind] in *. rewrite length_app, length_row_bytes, Hr. cbn [length]. rewrite IH. lia.
Qed.

Lemma screen_app a b : screen (a ++ b) = screen a ++ screen b.
Proof. apply bind_app. Qed.

Lemma screen_cons r rows : screen (r :: rows) = row_bytes r ++ screen rows.
Proof. done. Qed.

(** Writing one cell. *)
Lemma screen_insert rows y r x c a : rows_ok rows -> rows !! y = Some r -> (x < 80)%nat ->
  <[(160 * y + 2 * x + 1)%nat := a]> (<[(160 * y + 2 * x)%nat := c]> (screen rows)) = screen (<[y := <[x := (c, a)]> r]> rows).
Proof.
  intros Hr Hy Hx. pose proof (lookup_lt_Some _ _ _ Hy) as Hlt. pose proof (proj1 (Forall_lookup _ _) Hr _ _ Hy) as Hl. cbn in Hl.
  rewrite <- (take_drop_middle rows y r Hy) at 1. rewrite (insert_take_drop rows y (<[x := (c, a)]> r) Hlt), !screen_app, !screen_cons.
  assert (length (screen (take y rows)) = (160 * y)%nat) as Ht by (rewrite length_screen, length_take by (by apply Forall_take); lia).
  rewrite insert_app_r_alt, insert_app_r_alt by lia. rewrite Ht. replace (160 * y + 2 * x - 160 * y)%nat with (2 * x)%nat by lia.
  replace (160 * y + 2 * x + 1 - 160 * y)%nat with (2 * x + 1)%nat by lia. f_equal.
  rewrite insert_app_l, insert_app_l by (rewrite ?length_insert, length_row_bytes; lia). by rewrite row_bytes_insert by lia.
Qed.

(** The state with another frame buffer. *)
Definition with_fb (s : vga) (b : list Z) : vga := Vga b (cx s) (cy s) (inited s) (crtc s) (off s) (ctx s).

Lemma range_test i n : 0 <= i < n -> (0 <=? i) && (i <? n) = true.
Proof. intros H. by rewrite (proj2 (Z.leb_le _ _)), (proj2 (Z.ltb_lt _ _)) by lia. Qed.

Lemma put_cell_run s rows y x r c : fb s = screen rows -> rows_ok rows -> rows !! y = Some r -> (x < 80)%nat ->
  (fb_set (Z.of_nat y) (Z.of_nat x) 0 c;; fb_set (Z.of_nat y) (Z.of_nat x) 1 GRAY_ON_BLACK) s = Ok (tt, with_fb s (screen (<[y := <[x := (c, GRAY_ON_BLACK)]> r]> rows))).
Proof.
  intros Hf Hr Hy Hx. pose proof (lookup_lt_Some _ _ _ Hy) as Hlt. pose proof (length_screen rows Hr) as Hlen. unfold fb_set, COL_CNT. mnorm.
  rewrite Hf, Hlen, range_test by lia. unfold set_fb at 1. mnorm. cbn [fb]. rewrite length_insert, Hlen, range_test by lia.
  unfold set_fb, modify. f_equal. f_equal. unfold with_fb. cbn. f_equal. rewrite <- (screen_insert rows y r x c GRAY_ON_BLACK) by done.
  replace (Z.to_nat ((Z.of_nat y * 80 + Z.of_nat x) * 2 + 0)) with (160 * y + 2 * x)%nat by lia.
  by replace (Z.to_nat ((Z.of_nat y * 80 + Z.of_nat x) * 2 + 1)) with (160 * y + 2 * x + 1)%nat by lia.
Qed.

Lemma with_fb_fb s b c : with_fb (with_fb s b) c = with_fb s c.
Proof. done. Qed.

(** Clearing the last [n] columns of a row. *)
Lemma clear_cols_run n s rows y r : fb s = screen rows -> rows_ok rows -> rows !! y = Some r -> (n <= 80)%nat ->
  clear_cols n (Z.of_nat y) (Z.of_nat (80 - n)) s = Ok (tt, with_fb s (screen (<[y := take (80 - n) r ++ replicate n (32, GRAY_ON_BLACK)]> rows))).
Proof.
  revert s rows r. induction n as [|n IH]; intros s rows r Hf Hr Hy Hn; cbn [clear_cols]; pose proof (proj1 (Forall_lookup _ _) Hr _ _ Hy) as Hl; cbn in Hl.
  - rewrite take_ge by lia. cbn [replicate]. rewrite app_nil_r, list_insert_id by done. rewrite <- Hf. by destruct s.
  - pose proof (put_cell_run s rows y (80 - S n) r 32 Hf Hr Hy ltac:(lia)) as E. rewrite <- bind_bind. mstep E.
    replace (Z.of_nat (80 - S n) + 1) with (Z.of_nat (80 - n)) by lia.
    assert (length (<[(80 - S n)%nat := (32, GRAY_ON_BLACK)]> r) = 80%nat) as Hl' by (by rewrite length_insert).
    rewrite (IH _ (<[y := <[(80 - S n)%nat := (32, GRAY_ON_BLACK)]> r]> rows) (<[(80 - S n)%nat := (32, GRAY_ON_BLACK)]> r)); [|done|by apply Forall_insert|apply list_lookup_insert_eq; eapply lookup_lt_Some; done|lia].
    rewrite with_fb_fb, list_insert_insert_eq. do 4 f_equal. cbn [replicate]. rewrite cons_middle, app_assoc. f_equal.
    replace (80 - n)%nat with (S (80 - S n)) by lia. rewrite (take_S_r _ _ (32, GRAY_ON_BLACK)); [by rewrite take_insert_ge by lia|]. apply list_lookup_insert_eq. lia.
Qed.

Lemma clear_row_run s rows y : fb s = screen rows -> rows_ok rows -> (y < length rows)%nat -> clear_row (Z.of_nat y) s = Ok (tt, with_fb s (screen (<[y := blank]> rows))).
Proof. intros Hf Hr Hy. destruct (lookup_lt_is_Some_2 _ _ Hy) as [r Er]. exact (clear_cols_run 80 s rows y r Hf Hr Er ltac:(lia)). Qed.

Lemma clear_rows_run n s rows : fb s = screen rows -> rows_ok rows -> (n <= length rows)%nat ->
  clear_rows n (Z.of_nat (length rows - n)) s = Ok (tt, with_fb s (screen (take (length rows - n) rows ++ replicate n blank))).
Proof.
  revert s rows. induction n as [|n IH]; intros s rows Hf Hr Hn; cbn [clear_rows].
  - rewrite take_ge by lia. cbn [replicate]. rewrite app_nil_r, <- Hf. by destruct s.
  - pose proof (clear_row_run s rows (length rows - S n) Hf Hr ltac:(lia)) as E. mstep E. replace (Z.of_nat (length rows - S n) + 1) with (Z.of_nat (length (<[(length rows - S n)%nat := blank]> rows) - n)) by (rewrite length_insert; lia).
    rewrite (IH _ (<[(length rows - S n)%nat := blank]> rows)); [|done|by apply Forall_insert|rewrite length_insert; lia].
    rewrite with_fb_fb, length_insert. do 4 f_equal. cbn [replicate]. rewrite cons_middle, app_assoc. f_equal.
    replace (length rows - n)%nat with (S (length rows - S n)) by lia. rewrite (take_S_r _ _ blank); [by rewrite take_insert_ge by lia|]. apply list_lookup_insert_eq. lia.
Qed.

(** Scrolling. *)
Lemma scroll_run s r rows : fb s = screen (r :: rows) -> rows_ok (r :: rows) -> length rows = 24%nat -> exists d, length d = 80%nat /\ scroll s = Ok (tt, with_fb s (screen (rows ++ [d]))).
Proof.
  intros Hf Hr Hl. unfold scroll. mnorm. pose proof (length_screen _ Hr) as Hlen. cbn [length] in Hlen. rewrite Hl in Hlen. rewrite Hf, Hlen.
  change (Z.to_nat (COL_CNT * 2)) with 160%nat. change (Z.to_nat (COL_CNT * 2 * (ROW_CNT - 1))) with 3840%nat. change (160 * 25 <? 160 + 3840)%nat with false. cbv iota.
  destruct rows as [|d rows] using rev_ind; [done|]. rewrite length_app in Hl. cbn in Hl. apply Forall_cons in Hr as [Hr1 Hr]. apply Forall_app in Hr as [Hr2 Hr3]. rewrite Forall_singleton in Hr3.
  exists d. split; [exact Hr3|]. unfold set_fb, modify. f_equal. f_equal. unfold with_fb. f_equal. rewrite screen_cons, drop_app_length' by (by rewrite length_row_bytes, Hr1).
  rewrite take_ge by (rewrite length_screen by (by unfold rows_ok; rewrite Forall_app, Forall_singleton); rewrite length_app; cbn; lia).
  rewrite (screen_app (rows ++ [d]) [d]). f_equal. rewrite screen_app, app_assoc, drop_app_length'; [done|]. rewrite length_app, length_row_bytes, length_screen by done. lia.
Qed.


(** ** The view *)

Lemma view_rows p : paper_ok p -> rows_ok (view p).
Proof. intros [H1 _ _]. by apply Forall_drop. Qed.

Lemma length_view p : paper_ok p -> length (view p) = 25%nat.
Proof. intros [_ H _]. unfold view. rewrite length_drop. lia. Qed.

Lemma length_rows p : length (rows p) = (length (above p) + 1 + length (below p))%nat.
Proof. unfold rows. rewrite length_app. cbn. lia. Qed.

(** The row of the cursor on the screen. *)
Definition row_of (p : paper) : nat := (length (above p) - (length (rows p) - 25))%nat.
Lemma row_of_lt p : paper_ok p -> (row_of p < 25)%nat.
Proof. intros [_ H _]. unfold row_of. pose proof (length_rows p). destruct H as [H|[H Hb]]; [lia|]. rewrite Hb in *. cbn in *. lia. Qed.

Lemma rows_here p h x : rows (Paper (above p) h (below p) x) = <[length (above p) := h]> (rows p).
Proof. unfold rows. cbn. by rewrite insert_app_r_alt, Nat.sub_diag by lia. Qed.

Lemma view_here p h x : paper_ok p -> view (Paper (above p) h (below p) x) = <[row_of p := h]> (view p).
Proof.
  intros H. unfold view. rewrite rows_here, length_insert. unfold row_of. rewrite drop_insert_ge; [done|]. destruct H as [_ H _]. pose proof (length_rows p). destruct H as [H|[H Hb]]; [lia|].
  rewrite Hb in *. cbn in *. lia.
Qed.

Lemma view_lookup p : paper_ok p -> view p !! row_of p = Some (here p).
Proof.
  intros H. unfold view, row_of. destruct H as [_ H _]. pose proof (length_rows p). rewrite lookup_drop. 
  replace (_ + _)%nat with (length (above p)) by (destruct H as [H|[H Hb]]; [lia|]; rewrite Hb in *; cbn in *; lia).
  unfold rows. by rewrite lookup_app_r, Nat.sub_diag by lia.
Qed.

Lemma rows_feed p : rows (feed p) = rows p ++ match below p with [] => [blank] | _ => [] end.
Proof. unfold rows, feed. destruct (below p); cbn; by rewrite ?app_nil_r, <- !app_assoc. Qed.

Lemma view_feed p : paper_ok p -> view (feed p) = match below p with [] => drop 1 (view p) ++ [blank] | _ => view p end.
Proof.
  intros [_ H _]. unfold view. rewrite rows_feed. destruct (below p); [|by rewrite app_nil_r]. rewrite length_app. cbn [length].
  rewrite drop_app_le, drop_drop by lia. f_equal. f_equal. lia.
Qed.

Lemma feed_ok p : paper_ok p -> paper_ok (feed p).
Proof.
  intros [H1 H2 H3]. split.
  - rewrite rows_feed. apply Forall_app. split; [done|]. destruct (below p); [by apply Forall_singleton|done].
  - rewrite rows_feed, length_app. unfold feed. destruct (below p); cbn; [right; split; [lia|done]|]. left. destruct H2 as [H2|[_ H2]]; [lia|done].
  - unfold feed. destruct (below p); cbn; lia.
Qed.

Lemma row_of_feed p : paper_ok p -> row_of (feed p) = match below p with [] => row_of p | _ => S (row_of p) end.
Proof.
  intros [_ H _]. unfold row_of. rewrite rows_feed, length_app. pose proof (length_rows p). unfold feed.
  destruct (below p) as [|r b]; cbn [above length] in *; rewrite length_app; cbn [length]; [lia|]. destruct H as [H|[_ H]]; [lia|done].
Qed.

(** ** Operations *)

(** Only the frame buffer and the cursor change. *)
Definition same_rest (s s' : vga) : Prop := crtc s' = crtc s /\ off s' = off s /\ ctx s' = ctx s.

Lemma newline_run s p : shows s p -> exists s', newline s = Ok (tt, s') /\ shows s' (feed p) /\ same_rest s s'.
Proof.
  intros [H1 H2 H3 H4 H5]. fold (row_of p) in H4. pose proof (row_of_lt p H1) as Hlt. unfold newline, set_cx, set_cy. mnorm. cbn [cy cx fb inited crtc off ctx]. unfold ROW_CNT.
  rewrite wrapu_id by (unfold is_u; lia). pose proof (view_feed p H1) as Hv. pose proof (row_of_feed p H1) as Hr. pose proof (length_rows p) as Hl. pose proof (pk_length p H1) as Hp.
  assert (column (feed p) = 0) as Hc by (unfold feed; by destruct (below p)).
  destruct (below p) as [|b0 b] eqn:Eb; cbn [length] in Hl.
  - assert (row_of p = 24%nat) as E24 by (unfold row_of; lia). rewrite (proj2 (Z.leb_le _ _)) by lia. mnorm. cbn [cy cx fb inited crtc off ctx].
    pose proof (view_rows p H1) as Hro. pose proof (length_view p H1) as Hlv. destruct (view p) as [|r rs] eqn:Er; [done|]. injection Hlv as Hlv.
    destruct (scroll_run (Vga (fb s) 0 (25 - 1) (inited s) (crtc s) (off s) (ctx s)) r rs H2 Hro Hlv) as (d & Hd & Es). mstep Es.
    apply Forall_cons in Hro as [_ Hro]. change (clear_row (25 - 1)) with (clear_row (Z.of_nat 24)).
    match goal with |- context [clear_row _ ?x] => rewrite (clear_row_run x (rs ++ [d]) 24 eq_refl) end; [|apply Forall_app; split; [done|by apply Forall_singleton]|rewrite length_app; cbn; lia].
    eexists. split; [reflexivity|]. split; [|done]. split; cbn [with_fb fb cx cy inited]; [by apply feed_ok| |done| |done].
    + rewrite Hv, skipn_cons, drop_0. by rewrite insert_app_r_alt, Hlv by lia.
    + fold (row_of (feed p)). lia.
  - assert (S (row_of p) < 25)%nat as E24 by (unfold row_of; destruct Hp as [Hp|[_ ?]]; [lia|done]). rewrite (proj2 (Z.leb_gt _ _)) by lia.
    eexists. split; [reflexivity|]. split; [|done]. split; cbn [fb cx cy inited]; [by apply feed_ok|by rewrite Hv|done| |done]. fold (row_of (feed p)). lia.
Qed.

(** The display controller has been told the position. *)
Definition cursor_words (pos : Z) : list access := [Out 0x3d4 (pos / 256 * 256 + 0x0e); Out 0x3d4 (pos mod 256 * 256 + 0x0f)].

Lemma cursor_encoding pos : 0 <= pos < 2000 -> u16 (Z.lor 0x0e (Z.land (u16 (u64 pos)) 0xff00)) = pos / 256 * 256 + 0x0e /\ u16 (Z.lor 0x0f (Z.shiftl (u16 (u64 pos)) 8)) = pos mod 256 * 256 + 0x0f.
Proof.
  intros H. assert (Forall (fun pos => u16 (Z.lor 0x0e (Z.land (u16 (u64 pos)) 0xff00)) = pos / 256 * 256 + 0x0e /\ u16 (Z.lor 0x0f (Z.shiftl (u16 (u64 pos)) 8)) = pos mod 256 * 256 + 0x0f) (seqZ 0 2000)) as Ha by by_eval.
  rewrite Forall_forall in Ha. apply Ha, elem_of_seqZ. lia.
Qed.

Definition with_trace (s : vga) (l : list access) : vga := Vga (fb s) (cx s) (cy s) (inited s) (IO (answers (crtc s)) (trace (crtc s) ++ l)) (off s) (ctx s).

Lemma move_cursor_run s : 0 <= cx s < 80 -> 0 <= cy s < 25 -> move_cursor s = Ok (tt, with_trace s (cursor_words (cx s + 80 * cy s))).
Proof.
  intros Hx Hy. unfold move_cursor, on_crtc, outw, modify, bind, get, COL_CNT. cbn. rewrite (wrapu_id 64 (80 * cy s)) by (unfold is_u; lia).
  destruct (cursor_encoding (cx s + 80 * cy s)) as [-> ->]; [lia|]. unfold with_trace, cursor_words. by rewrite <- app_assoc.
Qed.

Lemma clean_ok : paper_ok clean.
Proof. split; [unfold rows, clean; cbn; by repeat constructor|by left|done]. Qed.

Lemma cls_run s rs : fb s = screen rs -> rows_ok rs -> length rs = 25%nat -> inited s = true ->
  exists s', cls s = Ok (tt, s') /\ shows s' clean /\ crtc s' = IO (answers (crtc s)) (trace (crtc s) ++ cursor_words 0) /\ off s' = off s /\ ctx s' = ctx s.
Proof.
  intros Hf Hr Hl Hi. unfold cls. pose proof (clear_rows_run 25 s rs Hf Hr ltac:(lia)) as E. rewrite Hl in E. change (Z.of_nat (25 - 25)) with 0 in E. mstep E.
  unfold set_cy, set_cx. mnorm. rewrite move_cursor_run by (cbn; lia). eexists. split; [reflexivity|]. split; [|done]. split; cbn [with_trace with_fb fb cx cy inited]; [apply clean_ok| |done..]. by rewrite take_0.
Qed.

(** ** Characters *)

(** A state between two characters. *)
Record resting (s : vga) (p : paper) : Prop := { rs_shows : shows s p; rs_column : column p < 80; rs_level : ctx s = true -> off s = true }.

(** [newline] at the end of a row. *)
Lemma wrap_run s p : shows s p -> exists s', (t ← get; if COL_CNT <=? cx t then newline else ret tt) s = Ok (tt, s') /\
  shows s' (if column p =? 80 then feed p else p) /\ column (if column p =? 80 then feed p else p) < 80 /\ same_rest s s'.
Proof.
  intros H. mnorm. unfold COL_CNT. rewrite (sh_cx _ _ H). pose proof (pk_column p (sh_ok _ _ H)) as Hc. destruct (column p =? 80) eqn:E.
  - rewrite (proj2 (Z.leb_le _ _)) by lia. destruct (newline_run s p H) as (s' & En & Hs & Hr). exists s'. split; [done|]. split; [done|]. split; [|done].
    unfold feed. destruct (below p); cbn; lia.
  - apply Z.eqb_neq in E. rewrite (proj2 (Z.leb_gt _ _)) by lia. exists s. split; [done|]. split; [done|]. split; [lia|done].
Qed.

Lemma shows_column s p x : shows s p -> 0 <= x <= 80 -> shows (Vga (fb s) x (cy s) (inited s) (crtc s) (off s) (ctx s)) (Paper (above p) (here p) (below p) x).
Proof. intros [[H1 H2 H3] H4 H5 H6 H7] Hx. split; [split; [exact H1|exact H2|exact Hx]|exact H4|reflexivity|exact H6|exact H7]. Qed.

Lemma ROUND_UP_8 x : 0 <= x < 80 -> ROUND_UP (u64 (x + 1)) 8 = x / 8 * 8 + 8.
Proof.
  intros H. assert (Forall (fun x => ROUND_UP (u64 (x + 1)) 8 = x / 8 * 8 + 8) (seqZ 0 80)) as Ha by by_eval. rewrite Forall_forall in Ha. apply Ha, elem_of_seqZ. lia.
Qed.

(** An ordinary character. *)
Lemma char_run s p c : shows s p -> column p < 80 ->
  exists s', ((fb_set (cy s) (cx s) 0 (u8 c);; fb_set (cy s) (cx s) 1 GRAY_ON_BLACK);; set_cx (u64 (cx s + 1))) s = Ok (tt, s') /\ same_rest s s' /\
    shows s' (Paper (above p) (<[Z.to_nat (column p) := (u8 c, GRAY_ON_BLACK)]> (here p)) (below p) (column p + 1)).
Proof.
  intros H Hc. destruct H as [H1 H2 H3 H4 H5]. pose proof (pk_column p H1) as Hk. fold (row_of p) in H4.
  pose proof (put_cell_run s (view p) (row_of p) (Z.to_nat (column p)) (here p) (u8 c) H2 (view_rows p H1) (view_lookup p H1) ltac:(lia)) as E.
  rewrite Z2Nat.id in E by lia. rewrite <- H3, <- H4 in E. mstep E. unfold set_cx, modify. eexists. split; [reflexivity|]. split; [done|].
  pose proof (proj1 (Forall_lookup _ _) (view_rows p H1) _ _ (view_lookup p H1)) as Hl. cbn in Hl.
  split; cbn [with_fb fb cx cy inited]; [| | | |done].
  - destruct H1 as [P1 P2 P3]. split; [|by rewrite !length_rows in *|cbn; lia]. rewrite rows_here. apply Forall_insert; [done|]. by rewrite length_insert.
  - by rewrite view_here, H3.
  - cbn. rewrite H3. apply wrapu_id. unfold is_u. lia.
  - cbn [above]. rewrite H4. unfold row_of. by rewrite !length_rows.
Qed.

Definition keeps_level (s s' : vga) : Prop := off s' = off s /\ ctx s' = ctx s /\ answers (crtc s') = answers (crtc s).
Lemma same_keeps s s' : same_rest s s' -> keeps_level s s'.
Proof. intros (H1 & H2 & H3). unfold keeps_level. by rewrite H1. Qed.

Lemma feed_column p : column (feed p) = 0.
Proof. unfold feed. by destruct (below p). Qed.

Lemma putc_switch_run s p c : shows s p -> column p < 80 -> exists s', putc_switch c s = Ok (tt, s') /\ shows s' (type p c) /\ column (type p c) < 80 /\ keeps_level s s'.
Proof.
  intros H Hc. pose proof (pk_column p (sh_ok _ _ H)) as Hk. pose proof (sh_cx _ _ H) as Hx. unfold putc_switch, type. destruct (c =? 10).
  { destruct (newline_run s p H) as (s' & E & Hs & Hr). exists s'. rewrite feed_column. split; [done|]. split; [done|]. split; [lia|by apply same_keeps]. }
  destruct (c =? 12).
  { destruct (cls_run s (view p) (sh_fb _ _ H) (view_rows p (sh_ok _ _ H)) (length_view p (sh_ok _ _ H)) (sh_inited _ _ H)) as (s' & E & Hs & Hcr & Ho & Hx').
    exists s'. split; [done|]. split; [done|]. split; [done|]. split; [done|]. split; [done|by rewrite Hcr]. }
  destruct (c =? 8).
  { mnorm. rewrite Hx. destruct (0 <? column p) eqn:E; [apply Z.ltb_lt in E|apply Z.ltb_ge in E]; (eexists; split; [reflexivity|]); cbn [column].
    - split; [rewrite Z.max_r by lia; apply shows_column; [done|lia]|]. split; [lia|done].
    - split; [|split; [lia|done]]. rewrite Z.max_l by lia. replace 0 with (column p) by lia. by destruct p. }
  destruct (c =? 13).
  { eexists. split; [reflexivity|]. split; [apply shows_column; [done|lia]|]. split; [cbn; lia|done]. }
  destruct (c =? 9).
  { mnorm. rewrite Hx, ROUND_UP_8 by lia. pose proof (shows_column s p (column p / 8 * 8 + 8) H ltac:(pose proof (Z.div_mod (column p) 8 ltac:(lia)); pose proof (Z.div_lt_upper_bound (column p) 8 10 ltac:(lia) ltac:(lia)); pose proof (Z.div_pos (column p) 8 ltac:(lia) ltac:(lia)); lia)) as H'.
    destruct (wrap_run _ _ H') as (s' & E & Hs & Hl & Hr). unfold set_cx. rewrite bind_modify. rewrite E. exists s'. split; [done|]. split; [done|]. split; [done|]. by apply same_keeps in Hr. }
  destruct (char_run s p c H Hc) as (s1 & E1 & Hr1 & H1). destruct (wrap_run s1 _ H1) as (s' & E & Hs & Hl & Hr).
  pose proof (bind_ok _ (fun _ : unit => t ← get; if COL_CNT <=? cx t then newline else ret tt) _ _ _ E1) as E1'. rewrite !bind_bind in E1'. mnorm. rewrite E1', E. exists s'. split; [done|]. split; [done|]. split; [done|]. destruct Hr1 as (A1 & A2 & A3), Hr as (B1 & B2 & B3). unfold keeps_level. rewrite B1, A1. split; [congruence|]. split; [congruence|done].
Qed.

(** ** The first character *)

(** The display as the loader left it: the controller answers with the position of
    the cursor. *)
Definition starts (s : vga) (p : paper) : Prop :=
  inited s = false /\ paper_ok p /\ length (rows p) = 25%nat /\ column p < 80 /\ fb s = screen (rows p) /\ (ctx s = true -> off s = true) /\
  exists hi lo rest, answers (crtc s) = hi :: lo :: rest /\ 0 <= hi < 256 /\ 0 <= lo < 256 /\ hi * 256 + lo = column p + 80 * Z.of_nat (length (above p)).

Lemma join_bytes hi lo : 0 <= hi < 256 -> 0 <= lo < 256 -> Z.lor (u16 (Z.shiftl hi 8)) lo = hi * 256 + lo.
Proof.
  intros H1 H2. rewrite Z.shiftl_mul_pow2, wrapu_id by (unfold is_u; lia). rewrite (lor_disjoint_add _ _ 8); [done|lia|lia|]. apply Z.mod_mul. lia.
Qed.

Lemma find_cursor_run s hi lo rest : answers (crtc s) = hi :: lo :: rest -> 0 <= hi < 256 -> 0 <= lo < 256 ->
  exists s', find_cursor s = Ok (((hi * 256 + lo) mod 80, (hi * 256 + lo) / 80), s') /\ fb s' = fb s /\ off s' = off s /\ ctx s' = ctx s /\ answers (crtc s') = rest.
Proof.
  intros Ha H1 H2. unfold find_cursor, on_crtc, outb, inb, modify, bind. cbn. rewrite Ha. cbn. rewrite join_bytes by done. by eexists.
Qed.

Lemma init_run s p : starts s p -> exists s', init s = Ok (tt, s') /\ shows s' p /\ off s' = off s /\ ctx s' = ctx s.
Proof.
  intros (Hi & Hp & Hr & Hc & Hf & _ & hi & lo & rest & Ha & H1 & H2 & Hpos). unfold init. mnorm. rewrite Hi. cbn [negb].
  destruct (find_cursor_run s hi lo rest Ha H1 H2) as (s1 & E & F1 & F2 & F3 & F4). mstep E. unfold set_cx, set_cy. mnorm. eexists. split; [reflexivity|]. cbn [off ctx].
  pose proof (pk_column p Hp) as Hk. split; [|done]. rewrite Hpos. split; cbn [fb cx cy inited fst snd]; [done| | | |done].
  - unfold view. by rewrite Hr, F1, Hf.
  - rewrite Z.mul_comm, Z_mod_plus_full. apply Z.mod_small. lia.
  - rewrite Z.mul_comm, Z.div_add by lia. rewrite Z.div_small by lia. rewrite Hr. lia.
Qed.

Lemma init_again s : inited s = true -> init s = Ok (tt, s).
Proof. intros H. unfold init. mnorm. by rewrite H. Qed.

(** ** Texts *)

Fixpoint vga_puts (text : list Z) : M vga unit :=
  match text with [] => ret tt | c :: text => vga_putc c;; vga_puts text end.

Lemma vga_putc_run s p c : resting s p \/ starts s p -> exists s', vga_putc c s = Ok (tt, s') /\ resting s' (type p c) /\ off s' = off s /\ ctx s' = ctx s /\
  exists l, trace (crtc s') = l ++ cursor_words (cx s' + 80 * cy s').
Proof.
  intros H. set (s0 := Vga (fb s) (cx s) (cy s) (inited s) (crtc s) true (ctx s)).
  assert (column p < 80 /\ (ctx s = true -> off s = true) /\ exists s1, init s0 = Ok (tt, s1) /\ shows s1 p /\ off s1 = true /\ ctx s1 = ctx s) as (Hc & Hl & s1 & E1 & H1 & O1 & X1).
  { destruct H as [[[A1 A2 A3 A4 A5] B C]|H].
    - split; [done|]. split; [done|]. exists s0. split; [by apply init_again|]. split; [by split|done].
    - pose proof H as (_ & _ & _ & Hc & _ & Hl & _). split; [done|]. split; [done|]. apply (init_run s0 p). destruct H as (A1 & A2 & A3 & A4 & A5 & A6 & A7). by repeat (split; [done|]). }
  destruct (putc_switch_run s1 p c H1 Hc) as (s2 & E2 & H2 & Hc2 & O2 & X2 & _). pose proof (row_of_lt _ (sh_ok _ _ H2)) as Hr. pose proof (sh_cy _ _ H2) as Hy. fold (row_of (type p c)) in Hy.
  pose proof (pk_column _ (sh_ok _ _ H2)) as Hk. pose proof (sh_cx _ _ H2) as Hx.
  assert (move_cursor s2 = Ok (tt, with_trace s2 (cursor_words (cx s2 + 80 * cy s2)))) as E3 by (apply move_cursor_run; lia).
  assert (vga_putc c s = intr_set_level (off s) (with_trace s2 (cursor_words (cx s2 + 80 * cy s2)))) as ->.
  { unfold vga_putc, intr_disable. mnorm. unfold set_off. mnorm. fold s0. mstep E1. mstep E2. by mstep E3. }
  destruct H2 as [A1 A2 A3 A4 A5]. unfold intr_set_level. destruct (off s) eqn:Eo.
  - eexists. split; [reflexivity|]. cbn. split; [by split; [split|..]|]. split; [done|]. split; [congruence|]. by eexists.
  - assert (ctx s = false) as Ex by (destruct (ctx s); [by specialize (Hl eq_refl)|done]). mnorm. cbn [with_trace ctx]. rewrite X2, X1, Ex. mnorm. unfold set_off, modify. eexists. split; [reflexivity|].
    cbn. split; [split; [by split|done|by rewrite X2, X1, Ex]|]. split; [done|]. split; [congruence|]. by eexists.
Qed.

Lemma vga_puts_run text s p : resting s p -> exists s', vga_puts text s = Ok (tt, s') /\ resting s' (foldl type p text) /\ off s' = off s /\
  (text <> [] -> exists l, trace (crtc s') = l ++ cursor_words (cx s' + 80 * cy s')).
Proof.
  revert s p. induction text as [|c text IH]; intros s p H; [by exists s|]. cbn [vga_puts foldl].
  destruct (vga_putc_run s p c (or_introl H)) as (s1 & E1 & H1 & O1 & _ & T1). mstep E1. destruct (IH s1 _ H1) as (s2 & E2 & H2 & O2 & T2). exists s2. split; [done|]. split; [done|].
  split; [congruence|]. intros _. destruct text as [|d text]; [|by apply T2]. cbn in E2. by injection E2 as <-.
Qed.

(** Every screen is the screen of some paper. *)
Lemma bytes_row n l : length l = (2 * n)%nat -> exists r, length r = n /\ row_bytes r = l.
Proof.
  revert l. induction n as [|n IH]; intros l Hl; [destruct l; [by exists []|done]|]. destruct l as [|c [|a l]]; [done|cbn in Hl; lia|].
  destruct (IH l) as (r & Hr & <-); [cbn in Hl; lia|]. exists ((c, a) :: r). split; [cbn; lia|done].
Qed.
Lemma bytes_screen n l : length l = (160 * n)%nat -> exists rs, length rs = n /\ rows_ok rs /\ screen rs = l.
Proof.
  revert l. induction n as [|n IH]; intros l Hl; [destruct l; [exists []; split; [done|split; [by apply Forall_nil_2|done]]|cbn in Hl; lia]|].
  destruct (bytes_row 80 (take 160 l)) as (r & Hr & Er); [rewrite length_take; lia|]. destruct (IH (drop 160 l)) as (rs & Hrs & Hok & Es); [rewrite length_drop; lia|].
  exists (r :: rs). split; [cbn; lia|]. split; [by constructor|]. rewrite screen_cons, Er, Es. apply take_drop.
Qed.

Lemma starts_any s hi lo rest : inited s = false -> length (fb s) = 4000%nat -> (ctx s = true -> off s = true) ->
  answers (crtc s) = hi :: lo :: rest -> 0 <= hi < 256 -> 0 <= lo < 256 -> hi * 256 + lo < 2000 ->
  exists p, starts s p /\ column p = (hi * 256 + lo) mod 80 /\ Z.of_nat (length (above p)) = (hi * 256 + lo) / 80 /\ screen (view p) = fb s.
Proof.
  intros Hi Hl Hx Ha H1 H2 Hr. destruct (bytes_screen 25 (fb s) Hl) as (rs & Hn & Hok & Es). set (pos := hi * 256 + lo) in *.
  pose proof (Z.div_mod pos 80 ltac:(lia)) as Hd. pose proof (Z.mod_pos_bound pos 80 ltac:(lia)) as Hm. pose proof (Z.div_pos pos 80 ltac:(lia) ltac:(lia)) as Hq.
  assert (pos / 80 < 25) as Hq2 by (apply Z.div_lt_upper_bound; lia).
  destruct (lookup_lt_is_Some_2 rs (Z.to_nat (pos / 80))) as [r Er]; [lia|].
  exists (Paper (take (Z.to_nat (pos / 80)) rs) r (drop (S (Z.to_nat (pos / 80))) rs) (pos mod 80)).
  assert (rows (Paper (take (Z.to_nat (pos / 80)) rs) r (drop (S (Z.to_nat (pos / 80))) rs) (pos mod 80)) = rs) as Erows by (unfold rows; cbn; by apply take_drop_middle).
  assert (length (take (Z.to_nat (pos / 80)) rs) = Z.to_nat (pos / 80)) as Et by (rewrite length_take; lia).
  split; [|split; [done|split; [cbn [above]; lia|unfold view; by rewrite Erows, Hn]]]. split; [done|]. rewrite Erows. split; [split; [by rewrite Erows|left; by rewrite Erows|cbn; lia]|].
  split; [done|]. split; [cbn; lia|]. split; [done|]. split; [done|]. exists hi, lo, rest. split; [done|]. split; [done|]. split; [done|]. cbn [above column]. fold pos. lia.
Qed.

(** An ordinary character. *)
Definition ordinary (c : Z) : bool := forallb (fun k => negb (c =? k)) [10; 12; 8; 13; 9].

(** C22: The screen shows the end of what has been printed.  From the first
    character on, whatever was on the screen and for every text, the frame
    buffer holds the last 25 rows of a roll of paper on which the text is
    typed: lines end at a newline and after 80 characters, a tab goes to the
    next multiple of 8, backspace and return move without erasing, and a
    form feed takes a new sheet; the cursor stays on the screen and the
    controller is told where it is, and the interrupt level is as before.
    When the controller reports a position below the last row, an ordinary
    character is written outside the screen. *)
Theorem display_shows_paper s hi lo rest :
  inited s = false -> length (fb s) = 4000%nat -> (ctx s = true -> off s = true) ->
  answers (crtc s) = hi :: lo :: rest -> 0 <= hi < 256 -> 0 <= lo < 256 ->
  (hi * 256 + lo < 2000 -> exists p, screen (view p) = fb s /\ column p = (hi * 256 + lo) mod 80 /\ Z.of_nat (length (above p)) = (hi * 256 + lo) / 80 /\
     forall text, text <> [] -> exists s' l, vga_puts text s = Ok (tt, s') /\ fb s' = screen (view (foldl type p text)) /\ length (fb s') = 4000%nat /\
       cx s' = column (foldl type p text) /\ 0 <= cx s' < 80 /\ 0 <= cy s' < 25 /\ off s' = off s /\ trace (crtc s') = l ++ cursor_words (cx s' + 80 * cy s')) /\
  (2000 <= hi * 256 + lo -> forall c, ordinary c = true -> vga_putc c s = Fault).
Proof.
  intros Hi Hl Hx Ha H1 H2. split.
  - intros Hr. destruct (starts_any s hi lo rest Hi Hl Hx Ha H1 H2 Hr) as (p & Hs & Hc & Hb & Hv). exists p. split; [done|]. split; [done|]. split; [done|].
    intros [|c text] Ht; [done|]. cbn [vga_puts foldl]. destruct (vga_putc_run s p c (or_intror Hs)) as (s1 & E1 & R1 & O1 & _ & T1). mstep E1.
    destruct (vga_puts_run text s1 _ R1) as (s2 & E2 & [[A1 A2 A3 A4 A5] B _] & O2 & T2). rewrite O1 in O2.
    assert (exists l, trace (crtc s2) = l ++ cursor_words (cx s2 + 80 * cy s2)) as [l Hl2].
    { destruct text as [|d text]; [|by apply T2]. cbn in E2. by injection E2 as <-. }
    exists s2, l. pose proof (pk_column _ A1) as Hk. pose proof (row_of_lt _ A1) as Hrow. unfold row_of in Hrow. split; [done|]. split; [done|].
    split; [rewrite A2, length_screen by (by apply view_rows); by rewrite length_view|]. split; [done|]. split; [lia|]. split; [lia|]. by split.
  - intros Hr c Hc. unfold vga_putc, intr_disable, set_off. mnorm. unfold init. mnorm. cbn [inited]. rewrite Hi. cbn [negb]. mnorm.
    destruct (find_cursor_run (Vga (fb s) (cx s) (cy s) (inited s) (crtc s) true (ctx s)) hi lo rest Ha H1 H2) as (s1 & E & F1 & F2 & F3 & F4). rewrite Hi in E. mstep E.
    unfold set_cx at 1, set_cy at 1. mnorm. cbn [fst snd fb cx cy inited crtc off ctx]. unfold ordinary in Hc. cbn in Hc. unfold putc_switch.
    destruct (c =? 10), (c =? 12), (c =? 8), (c =? 13), (c =? 9); try done. mnorm. unfold fb_set at 1. mnorm. cbn [fst snd fb cx cy]. rewrite F1. cbn [fb]. unfold COL_CNT. rewrite Hl.
    pose proof (Z.div_mod (hi * 256 + lo) 80 ltac:(lia)). pose proof (Z.mod_pos_bound (hi * 256 + lo) 80 ltac:(lia)).
    rewrite (proj2 (Z.ltb_ge _ _)), andb_false_r by lia. done.
Qed.

Definition demo_vga (hi lo : Z) : vga := Vga (replicate 4000 0) 0 0 false (IO [hi; lo] []) false false.

Lemma display_shows_paper_witness :
  (exists p s' l, screen (view p) = fb (demo_vga 1 0) /\ vga_puts [72; 105; 10] (demo_vga 1 0) = Ok (tt, s') /\ fb s' = screen (view (foldl type p [72; 105; 10])) /\
     trace (crtc s') = l ++ cursor_words (cx s' + 80 * cy s')) /\
  vga_putc 65 (demo_vga 255 255) = Fault.
Proof.
  split.
  - destruct (proj1 (display_shows_paper (demo_vga 1 0) 1 0 [] eq_refl (length_replicate _ _) ltac:(discriminate) eq_refl ltac:(lia) ltac:(lia)) ltac:(lia)) as (p & Hv & _ & _ & Ht).
    destruct (Ht [72; 105; 10] ltac:(discriminate)) as (s' & l & E & F & _ & _ & _ & _ & _ & T). exists p, s', l. split; [exact Hv|]. split; [exact E|]. split; [exact F|exact T].
  - exact (proj2 (display_shows_paper (demo_vga 255 255) 255 255 [] eq_refl (length_replicate _ _) ltac:(discriminate) eq_refl ltac:(lia) ltac:(lia)) ltac:(lia) 65 eq_refl).
Defined.
