(* ===== verification/Random.v ===== *)
(** * The pseudo-random number generator (lib/random.c)

    The RC4 state is the record [prng]; the bytes written to the caller's
    buffer are the result.  Every index into [s] is a [uint8_t], the array has
    256 elements, and the theorem shows that no access is out of range. *)

From S2P Require Import Prelude Bitmap.

Record prng := Prng { s : list Z; s_i : Z; s_j : Z; inited : bool }.

Definition read_s (i : Z) : M prng Z := fun p => let! x := deref (s p !! Z.to_nat i) in Ok (x, p).
Definition write_s (i x : Z) : M prng unit := fun p =>
  if i <? Z.of_nat (length (s p)) then Ok (tt, Prng (<[Z.to_nat i := x]> (s p)) (s_i p) (s_j p) (inited p)) else Fault.

Definition swap_byte (a b : Z) : M prng unit :=
  t ← read_s a; y ← read_s b; write_s a y;; write_s b t.

(** [for (i = 0; i < 256; i++) s[i] = i]. *)
Fixpoint fill (n : nat) (i : Z) : M prng unit :=
  match n with O => ret tt | S n => write_s i (u8 i);; fill n (i + 1) end.

(** The key schedule: [seedp] are the four bytes of the seed. *)
Fixpoint schedule (n : nat) (i j : Z) (seedp : list Z) : M prng unit :=
  match n with
  | O => ret tt
  | S n =>
      x ← read_s i;
      k ← lift (deref (seedp !! Z.to_nat (i mod 4)));
      let j := u8 (j + (x + k)) in
      swap_byte i j;;
      schedule n (i + 1) j seedp
  end.

Definition random_init (seed : Z) : M prng unit :=
  fill 256 0;;
  schedule 256 0 0 (word_bytes 4 seed);;
  modify (fun p => Prng (s p) 0 0 true).

Fixpoint random_bytes_loop (size : nat) : M prng (list Z) :=
  match size with
  | O => ret []
  | S size =>
      modify (fun p => Prng (s p) (u8 (s_i p + 1)) (s_j p) (inited p));;
      p ← get;
      x ← read_s (s_i p);
      modify (fun p => Prng (s p) (s_i p) (u8 (s_j p + x)) (inited p));;
      p ← get;
      swap_byte (s_i p) (s_j p);;
      x ← read_s (s_i p); y ← read_s (s_j p);
      let s_k := u8 (x + y) in
      b ← read_s s_k;
      bs ← random_bytes_loop size;
      ret (b :: bs)
  end.

Definition random_bytes (size : Z) : M prng (list Z) :=
  p ← get;
  (if negb (inited p) then random_init 0 else ret tt);;
  random_bytes_loop (Z.to_nat size).

Definition random_ulong : M prng Z := bs ← random_bytes 8; ret (bytes_word bs).

(** ** The state is a permutation of the bytes *)

Record prng_ok (p : prng) : Prop := {
  p_perm : s p ≡ₚ seqZ 0 256;
  p_i : is_u8 (s_i p);
  p_j : is_u8 (s_j p)
}.

Lemma perm_length l : l ≡ₚ seqZ 0 256 -> length l = 256%nat.
Proof. intros H. by rewrite H. Qed.

Lemma perm_lookup l i : l ≡ₚ seqZ 0 256 -> is_u8 i -> exists x, l !! Z.to_nat i = Some x /\ is_u8 x.
Proof.
  intros H Hi. unfold is_u in *. destruct (lookup_lt_is_Some_2 l (Z.to_nat i)) as [x Hx]; [rewrite (perm_length l H); lia|].
  exists x. split; [done|]. apply list_elem_of_lookup_2 in Hx. rewrite H, elem_of_seqZ in Hx. lia.
Qed.

Lemma read_s_run p i : s p ≡ₚ seqZ 0 256 -> is_u8 i -> exists x, s p !! Z.to_nat i = Some x /\ is_u8 x /\ read_s i p = Ok (x, p).
Proof.
  intros H Hi. destruct (perm_lookup _ _ H Hi) as (x & Hx & Hb). exists x. split_and!; [done|done..|]. unfold read_s. by rewrite Hx.
Qed.

(** Exchanging two elements is a permutation. *)
Lemma swap_perm (l : list Z) a b x y : l !! a = Some x -> l !! b = Some y -> <[b := x]> (<[a := y]> l) ≡ₚ l.
Proof.
  intros Ha Hb. pose proof (lookup_lt_Some _ _ _ Ha). pose proof (lookup_lt_Some _ _ _ Hb).
  destruct (decide (a = b)) as [->|Hne].
  - rewrite Ha in Hb. injection Hb as ->. rewrite list_insert_insert_eq. by rewrite list_insert_id.
  - apply Permutation_inj. split; [by rewrite !length_insert|].
    exists (fun k => if decide (k = a) then b else if decide (k = b) then a else k). split.
    + intros k1 k2. repeat case_decide; congruence.
    + intros k. destruct (decide (k = b)) as [->|]; [|destruct (decide (k = a)) as [->|]].
      * rewrite list_lookup_insert_eq by (rewrite length_insert; lia). rewrite decide_False by done. by rewrite Ha.
      * rewrite list_lookup_insert_ne, list_lookup_insert_eq by (done || lia). by rewrite Hb.
      * by rewrite !list_lookup_insert_ne by congruence.
Qed.

Lemma swap_byte_run p a b : s p ≡ₚ seqZ 0 256 -> is_u8 a -> is_u8 b ->
  exists l, swap_byte a b p = Ok (tt, Prng l (s_i p) (s_j p) (inited p)) /\ l ≡ₚ seqZ 0 256.
Proof.
  intros H Ha Hb. destruct (read_s_run p a H Ha) as (x & Hx & _ & Ex). destruct (read_s_run p b H Hb) as (y & Hy & _ & Ey).
  pose proof (perm_length _ H) as Hl. unfold swap_byte. mstep Ex. mstep Ey. unfold is_u in *.
  assert (write_s a y p = Ok (tt, Prng (<[Z.to_nat a := y]> (s p)) (s_i p) (s_j p) (inited p))) as E1.
  { unfold write_s. by rewrite (proj2 (Z.ltb_lt _ _)) by lia. }
  mstep E1. eexists. split.
  - unfold write_s. cbn [s s_i s_j inited]. rewrite length_insert, (proj2 (Z.ltb_lt _ _)) by lia. reflexivity.
  - rewrite (swap_perm (s p) (Z.to_nat a) (Z.to_nat b) x y Hx Hy). done.
Qed.

Lemma fill_run n : forall i p, 0 <= i -> i + Z.of_nat n = 256 -> length (s p) = 256%nat -> take (Z.to_nat i) (s p) = seqZ 0 i ->
  exists p', fill n i p = Ok (tt, p') /\ s p' = seqZ 0 256.
Proof.
  induction n as [|n IH]; intros i p Hi Hn Hl Ht; cbn [fill].
  - exists p. split; [done|]. assert (i = 256) as -> by lia. by rewrite <- Ht, take_ge by lia.
  - assert (write_s i (u8 i) p = Ok (tt, Prng (<[Z.to_nat i := i]> (s p)) (s_i p) (s_j p) (inited p))) as E.
    { unfold write_s. rewrite (proj2 (Z.ltb_lt _ _)) by lia. by rewrite wrapu_id by (unfold is_u; lia). }
    mstep E. apply IH; cbn [s]; [lia|lia|by rewrite length_insert|].
    rewrite Z2Nat.inj_add by lia. rewrite Nat.add_1_r, (take_S_r _ _ i) by (rewrite list_lookup_insert_eq; [done|lia]).
    rewrite take_insert_ge, Ht, seqZ_app by lia. done.
Qed.

Lemma key_schedule_run seedp n : length seedp = 4%nat -> forall i j p, s p ≡ₚ seqZ 0 256 -> 0 <= i -> i + Z.of_nat n = 256 ->
  exists p', schedule n i j seedp p = Ok (tt, p') /\ s p' ≡ₚ seqZ 0 256.
Proof.
  intros Hs. induction n as [|n IH]; intros i j p Hp Hi Hn; cbn [schedule]; [by exists p|].
  destruct (read_s_run p i Hp) as (x & _ & _ & E); [unfold is_u; lia|]. mstep E.
  pose proof (Z.mod_pos_bound i 4 ltac:(lia)). destruct (lookup_lt_is_Some_2 seedp (Z.to_nat (i mod 4))) as [k Hk]; [lia|].
  assert (lift (deref (seedp !! Z.to_nat (i mod 4))) p = Ok (k, p)) as Ek by (unfold lift; by rewrite Hk). mstep Ek.
  destruct (swap_byte_run p i (u8 (j + (x + k))) Hp) as (l & El & Hl); [unfold is_u; lia|by apply wrapu_range|]. mstep El.
  apply (IH (i + 1)); [done|lia|lia].
Qed.

Lemma random_init_run seed p : length (s p) = 256%nat -> exists p', random_init seed p = Ok (tt, p') /\ prng_ok p' /\ inited p' = true.
Proof.
  intros Hl. unfold random_init. destruct (fill_run 256 0 p ltac:(lia) ltac:(lia) Hl) as (p1 & E1 & H1); [done|]. mstep E1.
  destruct (key_schedule_run (word_bytes 4 seed) 256 (length_word_bytes 4 seed) 0 0 p1) as (p2 & E2 & H2); [by rewrite H1|lia|lia|]. mstep E2.
  eexists. split; [reflexivity|]. split; [|done]. split; cbn; [done|unfold is_u; lia..].
Qed.

Lemma random_bytes_loop_run n : forall p, prng_ok p ->
  exists bs p', random_bytes_loop n p = Ok (bs, p') /\ prng_ok p' /\ inited p' = inited p /\ length bs = n /\ Forall (is_u 8) bs.
Proof.
  induction n as [|n IH]; intros p [P1 P2 P3]; cbn [random_bytes_loop].
  { exists [], p. split_and!; done. }
  mnorm. cbn [s s_i s_j inited]. assert (is_u8 (u8 (s_i p + 1))) as Hi by by apply wrapu_range.
  destruct (read_s_run (Prng (s p) (u8 (s_i p + 1)) (s_j p) (inited p)) _ P1 Hi) as (x & _ & Hx & E). mstep E. cbn [s s_i s_j inited].
  set (j := u8 (s_j p + x)). assert (is_u8 j) as Hj by by apply wrapu_range.
  destruct (swap_byte_run (Prng (s p) (u8 (s_i p + 1)) j (inited p)) _ _ P1 Hi Hj) as (l & El & Hl). mstep El. cbn [s s_i s_j inited].
  set (p1 := Prng l _ _ _). destruct (read_s_run p1 (u8 (s_i p + 1)) Hl Hi) as (y & _ & _ & Ey). mstep Ey.
  destruct (read_s_run p1 j Hl Hj) as (z & _ & _ & Ez). mstep Ez.
  destruct (read_s_run p1 (u8 (y + z)) Hl) as (b & _ & Hb & Eb); [by apply wrapu_range|]. mstep Eb.
  destruct (IH p1) as (bs & p2 & E2 & H2 & H2i & H2l & H2f); [by split|]. mstep E2.
  exists (b :: bs), p2. split_and!; [done|done|done|by cbn; rewrite H2l|by constructor].
Qed.

Lemma random_bytes_loop_app n m : forall p,
  random_bytes_loop (n + m) p = (x ← random_bytes_loop n; y ← random_bytes_loop m; ret (x ++ y)) p.
Proof.
  induction n as [|n IH]; intros p; cbn [random_bytes_loop Nat.add].
  - mnorm. unfold bind. destruct (random_bytes_loop m p) as [[? ?]| | | |]; done.
  - unfold bind, modify, get, ret in *. cbn [rbind].
    repeat (match goal with |- context [rbind ?m _] => lazymatch m with rbind _ _ => fail | random_bytes_loop _ _ => fail | _ => destruct m as [[? ?]| | | |] end end; cbn [rbind]; [|done..]).
    rewrite IH. destruct (random_bytes_loop n _) as [[? ?]| | | |]; cbn [rbind]; [|done..].
    destruct (random_bytes_loop m _) as [[? ?]| | | |]; cbn [rbind]; done.
Qed.

(** ** Properties *)

(** C38: The generator never leaves its array and its state stays a permutation
    of the 256 byte values: [random_init] makes one from any seed and any
    earlier state, every later call keeps it.  [random_bytes] returns as many
    bytes as were asked for, [random_ulong] a 64-bit number; the first call
    initialises with seed 0 unless that was done; and the output is one stream:
    asking for [n] and then [m] bytes gives the bytes of asking for [n + m]. *)
Theorem random_stream seed p size1 size2 :
  length (s p) = 256%nat -> (inited p = true -> prng_ok p) -> 0 <= size1 -> 0 <= size2 ->
  (exists p', random_init seed p = Ok (tt, p') /\ prng_ok p' /\ inited p' = true) /\
  (exists bs1 bs2 p1 p2, random_bytes size1 p = Ok (bs1, p1) /\ random_bytes size2 p1 = Ok (bs2, p2) /\
     random_bytes (size1 + size2) p = Ok (bs1 ++ bs2, p2) /\ prng_ok p1 /\ prng_ok p2 /\ inited p1 = true /\
     length bs1 = Z.to_nat size1 /\ Forall (is_u 8) bs1) /\
  (inited p = false -> forall n, random_bytes n p = (random_init 0;; random_bytes n) p) /\
  (exists x p', random_ulong p = Ok (x, p') /\ is_u64 x /\ prng_ok p').
Proof.
  intros Hl Hok H1 H2. split; [by apply random_init_run|].
  assert (exists p0, (if negb (inited p) then random_init 0 else ret tt) p = Ok (tt, p0) /\ prng_ok p0 /\ inited p0 = true) as (p0 & E0 & Hp0 & Hi0).
  { destruct (inited p) eqn:Ei; cbn [negb]; [exists p; by split_and!; [|apply Hok|]|by apply random_init_run]. }
  assert (forall n, random_bytes n p = random_bytes_loop (Z.to_nat n) p0) as Er by (intros n; unfold random_bytes; mnorm; by mstep E0).
  destruct (random_bytes_loop_run (Z.to_nat size1) p0 Hp0) as (bs1 & p1 & E1 & Hp1 & Hi1 & L1 & F1).
  destruct (random_bytes_loop_run (Z.to_nat size2) p1 Hp1) as (bs2 & p2 & E2 & Hp2 & _).
  assert (forall n p, inited p = true -> random_bytes n p = random_bytes_loop (Z.to_nat n) p) as Erun.
  { intros n p' Ei. unfold random_bytes. mnorm. by rewrite Ei. }
  split_and!.
  - exists bs1, bs2, p1, p2. rewrite !Er, Erun by congruence. split_and!; try done; [|congruence].
    rewrite Z2Nat.inj_add by lia. rewrite random_bytes_loop_app. mstep E1. by mstep E2.
  - intros Ei n. rewrite Er. rewrite Ei in E0. cbn [negb] in E0. mstep E0. symmetry. by apply Erun.
  - unfold random_ulong. destruct (random_bytes_loop_run 8 p0 Hp0) as (bs & p' & E & Hp' & _ & L & F).
    assert (random_bytes 8 p = Ok (bs, p')) as E8 by (by rewrite Er). mstep E8. exists (bytes_word bs), p'. split_and!; [done| |done].
    pose proof (bytes_word_range bs F) as Hr. rewrite L in Hr. exact Hr.
Qed.

(** The state at boot: zeroed, not initialised. *)
Definition boot_prng : prng := Prng (replicate 256 0) 0 0 false.

Lemma random_stream_witness :
  exists bs1 bs2 p1 p2, random_bytes 3 boot_prng = Ok (bs1, p1) /\ random_bytes 2 p1 = Ok (bs2, p2) /\
    random_bytes 5 boot_prng = Ok (bs1 ++ bs2, p2).
Proof.
  destruct (random_stream 0 boot_prng 3 2) as (_ & (bs1 & bs2 & p1 & p2 & E1 & E2 & E3 & _) & _); [reflexivity|discriminate|lia|lia|].
  exists bs1, bs2, p1, p2. split; [exact E1|]. split; [exact E2|exact E3].
Defined.
