(* ===== verification/CString.v ===== *)
(** * Memory blocks and strings (lib/string.c)

    The functions of string.c on a byte memory.  An address that is not mapped
    faults when it is read or written, so that a theorem which gives a result
    also says that the function touches only memory it was given.  Characters
    are bytes in [0, 256): the code only ever compares two of them, both
    signed or both unsigned.

    Loops that count [size] down recurse on it; loops that run to a
    terminating null byte take a bound [fuel], and every theorem about them
    holds for all bounds above the length of the string. *)

From S2P Require Import Prelude.

(** ** Memory *)

Definition mem : Type := Z -> option Z.

Definition load (a : Z) : M mem Z := fun m =>
  match m a with Some b => Ok (b, m) | None => Fault end.
Definition upd (m : mem) (a b : Z) : mem := fun x => if x =? a then Some b else m x.
Definition store (a b : Z) : M mem unit := fun m =>
  match m a with Some _ => Ok (tt, upd m a b) | None => Fault end.

(** ** Operations *)

(** [while (size-- > 0) *dst++ = *src++;] *)
Fixpoint copy_forward (n : nat) (dst src : Z) : M mem unit :=
  match n with
  | O => ret tt
  | S n => b ← load src; store dst b;; copy_forward n (dst + 1) (src + 1)
  end.
(** [while (size-- > 0) *--dst = *--src;] *)
Fixpoint copy_backward (n : nat) (dst src : Z) : M mem unit :=
  match n with
  | O => ret tt
  | S n => b ← load (src - 1); store (dst - 1) b;; copy_backward n (dst - 1) (src - 1)
  end.

Definition ASSERT_block (p size : Z) : M mem unit := ASSERT (negb (p =? NULL) || (size =? 0)).

Definition memcpy (dst src size : Z) : M mem Z :=
  ASSERT_block dst size;; ASSERT_block src size;;
  copy_forward (Z.to_nat size) dst src;; ret dst.

Definition memmove (dst src size : Z) : M mem Z :=
  ASSERT_block dst size;; ASSERT_block src size;;
  if dst <? src then
    copy_forward (Z.to_nat size) dst src;; ret (dst + size)
  else
    copy_backward (Z.to_nat size) (dst + size) (src + size);; ret dst.

Fixpoint memcmp_loop (n : nat) (a b : Z) : M mem Z :=
  match n with
  | O => ret 0
  | S n =>
      x ← load a; y ← load b;
      if negb (x =? y) then ret (if y <? x then 1 else -1)
      else memcmp_loop n (a + 1) (b + 1)
  end.
Definition memcmp (a b size : Z) : M mem Z :=
  ASSERT_block a size;; ASSERT_block b size;; memcmp_loop (Z.to_nat size) a b.

Fixpoint strcmp_loop (fuel : nat) (a b : Z) : M mem Z :=
  match fuel with
  | O => out_of_fuel
  | S fuel =>
      x ← load a;
      if x =? 0 then
        y ← load b; ret (if x <? y then -1 else if y <? x then 1 else 0)
      else
        y ← load b;
        if x =? y then strcmp_loop fuel (a + 1) (b + 1)
        else ret (if x <? y then -1 else if y <? x then 1 else 0)
  end.
Definition strcmp (fuel : nat) (a b : Z) : M mem Z :=
  ASSERT (negb (a =? NULL));; ASSERT (negb (b =? NULL));; strcmp_loop fuel a b.

Fixpoint memchr_loop (n : nat) (block ch : Z) : M mem Z :=
  match n with
  | O => ret NULL
  | S n => x ← load block; if x =? ch then ret block else memchr_loop n (block + 1) ch
  end.
Definition memchr (block ch size : Z) : M mem Z :=
  ASSERT_block block size;; memchr_loop (Z.to_nat size) block (u8 ch).

Fixpoint strchr_loop (fuel : nat) (string c : Z) : M mem Z :=
  match fuel with
  | O => out_of_fuel
  | S fuel =>
      x ← load string;
      if x =? c then ret string
      else if x =? 0 then ret NULL
      else strchr_loop fuel (string + 1) c
  end.
Definition strchr (fuel : nat) (string c : Z) : M mem Z :=
  ASSERT (negb (string =? NULL));; strchr_loop fuel string (u8 c).

Fixpoint strcspn_loop (fuel : nat) (string length stop : Z) (slen : nat) : M mem Z :=
  match fuel with
  | O => out_of_fuel
  | S fuel =>
      x ← load (string + length);
      if negb (x =? 0) then
        p ← strchr slen stop x;
        if negb (p =? NULL) then ret length
        else strcspn_loop fuel string (length + 1) stop slen
      else ret length
  end.
Definition strcspn (fuel : nat) (string stop : Z) : M mem Z :=
  strcspn_loop fuel string 0 stop fuel.

Fixpoint strpbrk_loop (fuel : nat) (string stop : Z) (slen : nat) : M mem Z :=
  match fuel with
  | O => out_of_fuel
  | S fuel =>
      x ← load string;
      if negb (x =? 0) then
        p ← strchr slen stop x;
        if negb (p =? NULL) then ret string else strpbrk_loop fuel (string + 1) stop slen
      else ret NULL
  end.
Definition strpbrk (fuel : nat) (string stop : Z) : M mem Z :=
  strpbrk_loop fuel string stop fuel.

Fixpoint strrchr_loop (fuel : nat) (string c p : Z) : M mem Z :=
  match fuel with
  | O => out_of_fuel
  | S fuel =>
      x ← load string;
      if negb (x =? 0) then
        strrchr_loop fuel (string + 1) c (if x =? c then string else p)
      else ret p
  end.
Definition strrchr (fuel : nat) (string c : Z) : M mem Z :=
  strrchr_loop fuel string (u8 c) NULL.

Fixpoint strspn_loop (fuel : nat) (string length skip : Z) (slen : nat) : M mem Z :=
  match fuel with
  | O => out_of_fuel
  | S fuel =>
      x ← load (string + length);
      if negb (x =? 0) then
        p ← strchr slen skip x;
        if p =? NULL then ret length
        else strspn_loop fuel string (length + 1) skip slen
      else ret length
  end.
Definition strspn (fuel : nat) (string skip : Z) : M mem Z :=
  strspn_loop fuel string 0 skip fuel.

Fixpoint strlen_loop (fuel : nat) (p : Z) : M mem Z :=
  match fuel with
  | O => out_of_fuel
  | S fuel => x ← load p; if negb (x =? 0) then strlen_loop fuel (p + 1) else ret p
  end.
Definition strlen (fuel : nat) (string : Z) : M mem Z :=
  ASSERT (negb (string =? NULL));; p ← strlen_loop fuel string; ret (p - string).

(** [for (i = 0; i <= haystack_len - needle_len; i++)]: [n] iterations are
    left. *)
Fixpoint strstr_loop (n : nat) (haystack needle needle_len i : Z) : M mem Z :=
  match n with
  | O => ret NULL
  | S n =>
      c ← memcmp (haystack + i) needle needle_len;
      if c =? 0 then ret (haystack + i)
      else strstr_loop n haystack needle needle_len (i + 1)
  end.
Definition strstr (fuel : nat) (haystack needle : Z) : M mem Z :=
  haystack_len ← strlen fuel haystack;
  needle_len ← strlen fuel needle;
  if needle_len <=? haystack_len then
    strstr_loop (Z.to_nat (haystack_len - needle_len + 1)) haystack needle needle_len 0
  else ret NULL.

(** The two loops of [strtok_r]; the first gives [None] at the end of the
    string. *)
Fixpoint skip_delimiters (fuel : nat) (s delimiters : Z) (dlen : nat) : M mem (option Z * Z) :=
  match fuel with
  | O => out_of_fuel
  | S fuel =>
      x ← load s;
      p ← strchr dlen delimiters x;
      if negb (p =? NULL) then
        if x =? 0 then ret (None, s) else skip_delimiters fuel (s + 1) delimiters dlen
      else ret (Some s, s)
  end.
Fixpoint skip_token (fuel : nat) (s delimiters : Z) (dlen : nat) : M mem Z :=
  match fuel with
  | O => out_of_fuel
  | S fuel =>
      x ← load s;
      p ← strchr dlen delimiters x;
      if p =? NULL then skip_token fuel (s + 1) delimiters dlen else ret s
  end.

(** [strtok_r]: [save] is the value of [*save_ptr] on entry; the result is the
    token and the value of [*save_ptr] on return. *)
Definition strtok_r (fuel : nat) (s delimiters save : Z) : M mem (Z * Z) :=
  ASSERT (negb (delimiters =? NULL));;
  let s := if s =? NULL then save else s in
  ASSERT (negb (s =? NULL));;
  r ← skip_delimiters fuel s delimiters fuel;
  match r with
  | (None, s) => ret (NULL, s)
  | (Some token, _) =>
      s ← skip_token fuel token delimiters fuel;
      x ← load s;
      if negb (x =? 0) then store s 0;; ret (token, s + 1)
      else ret (token, s)
  end.

Fixpoint memset_loop (n : nat) (dst value : Z) : M mem unit :=
  match n with
  | O => ret tt
  | S n => store dst (u8 value);; memset_loop n (dst + 1) value
  end.
Definition memset (dst value size : Z) : M mem Z :=
  ASSERT_block dst size;; memset_loop (Z.to_nat size) dst value;; ret dst.

(** [string[length]] is read before [length < maxlen] is tested. *)
Fixpoint strnlen_loop (fuel : nat) (string length maxlen : Z) : M mem Z :=
  match fuel with
  | O => out_of_fuel
  | S fuel =>
      x ← load (string + length);
      if negb (x =? 0) && (length <? maxlen)
      then strnlen_loop fuel string (length + 1) maxlen else ret length
  end.
Definition strnlen (fuel : nat) (string maxlen : Z) : M mem Z :=
  strnlen_loop fuel string 0 maxlen.

Definition strlcpy (fuel : nat) (dst src size : Z) : M mem Z :=
  ASSERT (negb (dst =? NULL));; ASSERT (negb (src =? NULL));;
  src_len ← strlen fuel src;
  (if 0 <? size then
     let dst_len := if src_len <? size - 1 then src_len else size - 1 in
     memcpy dst src dst_len;; store (dst + dst_len) 0
   else ret tt);;
  ret src_len.

Definition strlcat (fuel : nat) (dst src size : Z) : M mem Z :=
  ASSERT (negb (dst =? NULL));; ASSERT (negb (src =? NULL));;
  src_len ← strlen fuel src;
  dst_len ← strlen fuel dst;
  (if (0 <? size) && (dst_len <? size) then
     let copy_cnt := if src_len <? size - dst_len - 1 then src_len else size - dst_len - 1 in
     memcpy (dst + dst_len) src copy_cnt;; store (dst + dst_len + copy_cnt) 0
   else ret tt);;
  ret (u64 (src_len + dst_len)).

(** ** Contents of memory *)

(** The bytes [bs] stand at [a]. *)
Definition bytes_at (m : mem) (a : Z) (bs : list Z) : Prop :=
  forall i b, bs !! i = Some b -> m (a + Z.of_nat i) = Some b.
(** [s] is a valid string with the characters [l]. *)
Definition cstr (m : mem) (s : Z) (l : list Z) : Prop :=
  0 < s /\ Forall (fun b => 0 < b < 256) l /\ bytes_at m s (l ++ [0]).
(** [n] bytes at [a] can be written. *)
Definition mapped (m : mem) (a : Z) (n : nat) : Prop :=
  forall x, a <= x < a + Z.of_nat n -> is_Some (m x).
Definition inside (a : Z) (n : nat) (x : Z) : bool := (a <=? x) && (x <? a + Z.of_nat n).
(** [m] with [bs] written at [a]. *)
Definition write_bytes (m : mem) (a : Z) (bs : list Z) : mem := fun x =>
  if inside a (length bs) x then bs !! Z.to_nat (x - a) else m x.

Lemma inside_spec a n x : inside a n x = true <-> a <= x < a + Z.of_nat n.
Proof. unfold inside. rewrite andb_true_iff, Z.leb_le, Z.ltb_lt. lia. Qed.

Lemma bytes_at_nil m a : bytes_at m a [].
Proof. by intros i b H. Qed.

Lemma bytes_at_cons m a b bs : bytes_at m a (b :: bs) <-> m a = Some b /\ bytes_at m (a + 1) bs.
Proof.
  split.
  - intros H. split.
    + rewrite <- (Z.add_0_r a). by apply (H 0%nat).
    + intros i c Hi. specialize (H (S i) c Hi). rewrite <- H. f_equal. lia.
  - intros [H1 H2] [|i] c Hi; cbn in Hi.
    + injection Hi as <-. by rewrite Z.add_0_r.
    + rewrite <- (H2 _ _ Hi). f_equal. lia.
Qed.

Lemma bytes_at_app m a l k :
  bytes_at m a (l ++ k) <-> bytes_at m a l /\ bytes_at m (a + Z.of_nat (length l)) k.
Proof.
  revert a. induction l as [|x l IH]; intros a; cbn [app length].
  - rewrite Z.add_0_r. split; [intros; split; [apply bytes_at_nil|done]|by intros []].
  - rewrite !bytes_at_cons, IH. replace (a + Z.of_nat (S (length l))) with (a + 1 + Z.of_nat (length l)) by lia.
    tauto.
Qed.

Lemma bytes_at_mapped m a bs : bytes_at m a bs -> mapped m a (length bs).
Proof.
  intros H x Hx. destruct (lookup_lt_is_Some_2 bs (Z.to_nat (x - a))) as [b Hb]; [lia|].
  exists b. rewrite <- (H _ _ Hb). f_equal. lia.
Qed.

Lemma mapped_bytes m a n : mapped m a n -> exists bs, length bs = n /\ bytes_at m a bs.
Proof.
  revert a. induction n as [|n IH]; intros a H.
  - exists []. split; [done|apply bytes_at_nil].
  - destruct (H a ltac:(lia)) as [b Hb]. destruct (IH (a + 1)) as (bs & <- & Hbs).
    { intros x Hx. apply H. lia. }
    exists (b :: bs). split; [done|]. by apply bytes_at_cons.
Qed.

Lemma load_run m a b : m a = Some b -> load a m = Ok (b, m).
Proof. unfold load. by intros ->. Qed.

Lemma store_run m a b : is_Some (m a) -> store a b m = Ok (tt, upd m a b).
Proof. unfold store. by intros [x ->]. Qed.

Lemma write_bytes_at m a bs : bytes_at (write_bytes m a bs) a bs.
Proof.
  intros i b Hi. pose proof (lookup_lt_Some _ _ _ Hi). unfold write_bytes.
  rewrite (proj2 (inside_spec _ _ _)) by lia. rewrite <- Hi. f_equal. lia.
Qed.

(** [m'] is [m] with [bs] written at [a], and nothing else changed. *)
Definition written (m m' : mem) (a : Z) (bs : list Z) : Prop :=
  forall x, m' x = write_bytes m a bs x.

Lemma written_nil m a : written m m a [].
Proof. intros x. unfold write_bytes. destruct (inside a (length []) x) eqn:E; [|done]. apply inside_spec in E. cbn in E. lia. Qed.

Lemma written_cons m m' a b bs :
  written (upd m a b) m' (a + 1) bs -> written m m' a (b :: bs).
Proof.
  intros H x. rewrite H. unfold write_bytes, upd.
  destruct (inside (a + 1) (length bs) x) eqn:E1, (inside a (length (b :: bs)) x) eqn:E2;
    rewrite <- ?not_true_iff_false, ?inside_spec in *; cbn [length] in *; try lia.
  - replace (Z.to_nat (x - a)) with (S (Z.to_nat (x - (a + 1)))) by lia. done.
  - destruct (Z.eqb_spec x a) as [->|]; [|lia]. by rewrite Z.sub_diag.
  - by destruct (Z.eqb_spec x a) as [->|]; [lia|].
Qed.

Lemma written_snoc m m' m'' a bs b :
  written m m' a bs -> m'' = upd m' (a + Z.of_nat (length bs)) b -> written m m'' a (bs ++ [b]).
Proof.
  intros H -> x. unfold upd. rewrite H. unfold write_bytes.
  destruct (inside a (length (bs ++ [b])) x) eqn:E2, (inside a (length bs) x) eqn:E1;
    rewrite <- ?not_true_iff_false, ?inside_spec in *; rewrite ?length_app in *; cbn [length] in *; try lia.
  - destruct (Z.eqb_spec x (a + Z.of_nat (length bs))); [lia|]. rewrite lookup_app_l by lia. done.
  - destruct (Z.eqb_spec x (a + Z.of_nat (length bs))) as [->|]; [|lia].
    replace (Z.to_nat (a + Z.of_nat (length bs) - a)) with (length bs) by lia.
    by rewrite lookup_app_r, Nat.sub_diag by lia.
  - destruct (Z.eqb_spec x (a + Z.of_nat (length bs))); [lia|done].
Qed.

Lemma written_in m m' a bs : written m m' a bs -> bytes_at m' a bs.
Proof. intros H i b Hi. rewrite H. by apply write_bytes_at. Qed.

Lemma written_some m m' a bs x : written m m' a bs -> is_Some (m x) -> is_Some (m' x).
Proof.
  intros W Hx. rewrite W. unfold write_bytes. destruct (inside a (length bs) x) eqn:E; [|done].
  apply inside_spec in E. apply lookup_lt_is_Some_2. lia.
Qed.

Lemma written_out m m' a bs x :
  written m m' a bs -> ~ (a <= x < a + Z.of_nat (length bs)) -> m' x = m x.
Proof.
  intros H Hx. rewrite H. unfold write_bytes.
  destruct (inside a (length bs) x) eqn:E; [|done]. by apply inside_spec in E.
Qed.

(** ** Blocks *)

Lemma bytes_at_upd m a bs x b :
  bytes_at m a bs -> ~ (a <= x < a + Z.of_nat (length bs)) -> bytes_at (upd m x b) a bs.
Proof.
  intros H Hx i c Hi. unfold upd. pose proof (lookup_lt_Some _ _ _ Hi).
  destruct (Z.eqb_spec (a + Z.of_nat i) x); [lia|]. by apply H.
Qed.

Lemma mapped_upd m a n x b : mapped m a n -> mapped (upd m x b) a n.
Proof. intros H y Hy. unfold upd. destruct (y =? x); [done|]. by apply H. Qed.

Lemma mapped_S m a n : mapped m a (S n) -> is_Some (m a) /\ mapped m (a + 1) n.
Proof. intros H. split; [apply H; lia|]. intros x Hx. apply H. lia. Qed.

(** Copying forwards is right when the destination does not lie above the
    source inside it. *)
Lemma copy_forward_spec m dst src bs :
  bytes_at m src bs -> mapped m dst (length bs) ->
  dst <= src \/ src + Z.of_nat (length bs) <= dst ->
  exists m', copy_forward (length bs) dst src m = Ok (tt, m') /\ written m m' dst bs.
Proof.
  revert m dst src. induction bs as [|b bs IH]; intros m dst src Hs Hd Ho; cbn [length copy_forward].
  - exists m. split; [done|apply written_nil].
  - apply bytes_at_cons in Hs as [Hb Hs]. apply mapped_S in Hd as [Hd1 Hd]. cbn [length] in Ho.
    mstep (load_run _ _ _ Hb). mstep (store_run _ _ b Hd1).
    destruct (IH (upd m dst b) (dst + 1) (src + 1)) as (m' & E & W).
    + apply bytes_at_upd; [done|lia].
    + by apply mapped_upd.
    + lia.
    + exists m'. split; [done|]. by apply written_cons.
Qed.

(** Copying backwards is right when it does not lie below. *)
Lemma copy_backward_spec m dst src bs :
  bytes_at m src bs -> mapped m dst (length bs) -> src <= dst ->
  exists m', copy_backward (length bs) (dst + Z.of_nat (length bs)) (src + Z.of_nat (length bs)) m
             = Ok (tt, m') /\ written m m' dst bs.
Proof.
  revert m. induction bs as [|b bs IH] using rev_ind; intros m Hs Hd Ho.
  - exists m. split; [done|apply written_nil].
  - rewrite length_app in *; cbn [length] in *. rewrite Nat.add_1_r in *; cbn [copy_backward].
    apply bytes_at_app in Hs as [Hs Hb]. apply bytes_at_cons in Hb as [Hb _].
    replace (src + Z.of_nat (S (length bs)) - 1) with (src + Z.of_nat (length bs)) by lia.
    replace (dst + Z.of_nat (S (length bs)) - 1) with (dst + Z.of_nat (length bs)) by lia.
    mstep (load_run _ _ _ Hb). mstep (store_run m (dst + Z.of_nat (length bs)) b ltac:(apply Hd; lia)).
    destruct (IH (upd m (dst + Z.of_nat (length bs)) b)) as (m' & E & W).
    + apply bytes_at_upd; [done|lia].
    + apply mapped_upd. intros x Hx. apply Hd. lia.
    + done.
    + exists m'. split; [done|]. intros x. rewrite W. unfold write_bytes, upd. rewrite length_app; cbn [length].
      destruct (inside dst (length bs) x) eqn:E1, (inside dst (length bs + 1) x) eqn:E2;
        rewrite <- ?not_true_iff_false, ?inside_spec in *; try lia.
      * by rewrite lookup_app_l by lia.
      * destruct (Z.eqb_spec x (dst + Z.of_nat (length bs))) as [->|]; [|lia].
        replace (Z.to_nat (dst + Z.of_nat (length bs) - dst)) with (length bs) by lia.
        by rewrite lookup_app_r, Nat.sub_diag by lia.
      * by destruct (Z.eqb_spec x (dst + Z.of_nat (length bs))) as [->|]; [lia|].
Qed.

Lemma ASSERT_block_run p size m : p <> NULL \/ size = 0 -> ASSERT_block p size m = Ok (tt, m).
Proof.
  intros H. apply ASSERT_true. destruct (Z.eqb_spec p NULL), (Z.eqb_spec size 0); cbn; try done. lia.
Qed.

Lemma memcpy_spec m dst src bs :
  0 < dst -> 0 < src -> bytes_at m src bs -> mapped m dst (length bs) ->
  dst <= src \/ src + Z.of_nat (length bs) <= dst ->
  exists m', memcpy dst src (Z.of_nat (length bs)) m = Ok (dst, m') /\ written m m' dst bs.
Proof.
  intros Hd0 Hs0 Hs Hd Ho. unfold memcpy.
  mstep (ASSERT_block_run dst (Z.of_nat (length bs)) m ltac:(unfold NULL; lia)).
  mstep (ASSERT_block_run src (Z.of_nat (length bs)) m ltac:(unfold NULL; lia)).
  destruct (copy_forward_spec m dst src bs Hs Hd Ho) as (m' & E & W).
  rewrite Nat2Z.id. mstep E. by exists m'.
Qed.

Lemma memset_loop_spec n m dst v :
  mapped m dst n ->
  exists m', memset_loop n dst v m = Ok (tt, m') /\ written m m' dst (replicate n (u8 v)).
Proof.
  revert m dst. induction n as [|n IH]; intros m dst Hd; cbn [memset_loop replicate].
  - exists m. split; [done|apply written_nil].
  - apply mapped_S in Hd as [Hd1 Hd]. mstep (store_run _ _ (u8 v) Hd1).
    destruct (IH (upd m dst (u8 v)) (dst + 1)) as (m' & E & W); [by apply mapped_upd|].
    exists m'. split; [done|]. by apply written_cons.
Qed.

Lemma memset_spec n m dst v :
  0 < dst -> mapped m dst n ->
  exists m', memset dst v (Z.of_nat n) m = Ok (dst, m') /\ written m m' dst (replicate n (u8 v)).
Proof.
  intros H0 Hd. unfold memset.
  mstep (ASSERT_block_run dst (Z.of_nat n) m ltac:(unfold NULL; lia)).
  destruct (memset_loop_spec n m dst v Hd) as (m' & E & W). rewrite Nat2Z.id. mstep E. by exists m'.
Qed.

(** ** Strings *)

(** Results that agree up to arithmetic. *)
Ltac ok_lia :=
  unfold ret;
  match goal with
  |- Ok (?a, ?m) = Ok (?b, ?m) => apply (f_equal (fun z => Ok (z, m))); lia
  end.

Lemma cstr_cons m s x l : cstr m s (x :: l) -> 0 < x < 256 /\ m s = Some x /\ cstr m (s + 1) l.
Proof.
  intros (H0 & Hl & Hb). inversion Hl as [|? ? Hx Hl']; subst. cbn [app] in Hb.
  apply bytes_at_cons in Hb as [H1 H2]. split_and!; [lia|lia|done|split; [lia|done]].
Qed.

Lemma cstr_nil m s : cstr m s [] -> m s = Some 0.
Proof. intros (_ & _ & H). cbn in H. by apply bytes_at_cons in H as [? _]. Qed.

(** Position of the first element with a property. *)
Fixpoint index (f : Z -> bool) (l : list Z) : option nat :=
  match l with [] => None | x :: l => if f x then Some O else S <$> index f l end.
(** Position of the last one. *)
Fixpoint rindex (f : Z -> bool) (l : list Z) : option nat :=
  match l with
  | [] => None
  | x :: l => match rindex f l with Some i => Some (S i) | None => if f x then Some O else None end
  end.
Definition ptr (s : Z) (o : option nat) : Z := from_option (fun i => s + Z.of_nat i) NULL o.
Definition mem_of (k : list Z) (x : Z) : bool := bool_decide (x ∈ k).

Lemma ptr_S s o : ptr (s + 1) o = ptr s (S <$> o).
Proof. destruct o; cbn; lia. Qed.

Lemma ptr_null s o : 0 < s -> (ptr s o =? NULL) = bool_decide (o = None).
Proof.
  intros. destruct o as [i|]; cbn; [|done]. by destruct (Z.eqb_spec (s + Z.of_nat i) NULL) as [E|];
    [unfold NULL in E; lia|].
Qed.

Lemma index_None f l : index f l = None <-> Forall (fun x => f x = false) l.
Proof.
  induction l as [|x l IH]; cbn; [done|]. rewrite Forall_cons. destruct (f x).
  - by split; [|intros []].
  - rewrite fmap_None, IH. tauto.
Qed.

Lemma strlen_loop_spec fuel m s l :
  cstr m s l -> (length l < fuel)%nat -> strlen_loop fuel s m = Ok (s + Z.of_nat (length l), m).
Proof.
  revert s l. induction fuel as [|fuel IH]; intros s [|x l] H Hf; cbn [length strlen_loop] in *; try lia.
  - mstep (load_run _ _ _ (cstr_nil _ _ H)). cbn. by rewrite Z.add_0_r.
  - apply cstr_cons in H as (Hx & H1 & H2). mstep (load_run _ _ _ H1).
    destruct (Z.eqb_spec x 0); [lia|]. cbn [negb]. rewrite (IH (s + 1) l) by (done || lia). ok_lia.
Qed.

Lemma nonnull s : 0 < s -> negb (s =? NULL) = true.
Proof. intros. destruct (Z.eqb_spec s NULL) as [E|]; [unfold NULL in E; lia|done]. Qed.

Lemma strlen_spec fuel m s l :
  cstr m s l -> (length l < fuel)%nat -> strlen fuel s m = Ok (Z.of_nat (length l), m).
Proof.
  intros H Hf. unfold strlen. rewrite nonnull by apply H. mnorm.
  mstep (strlen_loop_spec _ _ _ _ H Hf). ok_lia.
Qed.

Lemma strchr_loop_spec fuel m s l c :
  cstr m s l -> (length l < fuel)%nat ->
  strchr_loop fuel s c m = Ok (ptr s (index (Z.eqb c) (l ++ [0])), m).
Proof.
  revert s l. induction fuel as [|fuel IH]; intros s [|x l] H Hf; cbn [length strchr_loop app index] in *; try lia.
  - mstep (load_run _ _ _ (cstr_nil _ _ H)). rewrite Z.eqb_sym. destruct (c =? 0); cbn; [by rewrite Z.add_0_r|done].
  - apply cstr_cons in H as (Hx & H1 & H2). mstep (load_run _ _ _ H1). rewrite Z.eqb_sym.
    destruct (c =? x); cbn [fmap option_fmap]; [cbn; by rewrite Z.add_0_r|].
    destruct (Z.eqb_spec x 0); [lia|]. rewrite (IH (s + 1) l) by (done || lia). by rewrite ptr_S.
Qed.

Lemma strchr_spec fuel m s l c :
  cstr m s l -> (length l < fuel)%nat -> is_u8 c ->
  strchr fuel s c m = Ok (ptr s (index (Z.eqb c) (l ++ [0])), m).
Proof.
  intros H Hf Hc. unfold strchr. rewrite nonnull by apply H. mnorm. rewrite wrapu_id by done.
  by apply strchr_loop_spec.
Qed.

(** The membership test the other functions make with [strchr]. *)
Lemma strchr_test fuel m s l c :
  cstr m s l -> (length l < fuel)%nat -> is_u8 c ->
  exists p, strchr fuel s c m = Ok (p, m) /\ (p =? NULL) = negb (mem_of (l ++ [0]) c).
Proof.
  intros H Hf Hc. eexists. split; [by apply strchr_spec|]. rewrite ptr_null by apply H.
  unfold mem_of. rewrite <- bool_decide_not. apply bool_decide_ext. rewrite index_None, Forall_forall. split.
  - intros F Hin. specialize (F c Hin). by rewrite Z.eqb_refl in F.
  - intros F x Hx. apply Z.eqb_neq. by intros ->.
Qed.

Lemma mem_of_nonzero k c : c <> 0 -> mem_of (k ++ [0]) c = mem_of k c.
Proof.
  intros Hc. unfold mem_of. apply bool_decide_ext. rewrite elem_of_app, list_elem_of_singleton. tauto.
Qed.

Lemma strcspn_loop_spec fuel m string n stop slen l k :
  cstr m (string + Z.of_nat n) l -> (length l < fuel)%nat -> cstr m stop k -> (length k < slen)%nat ->
  strcspn_loop fuel string (Z.of_nat n) stop slen m =
    Ok (Z.of_nat (n + default (length l) (index (mem_of k) l)), m).
Proof.
  revert n l. induction fuel as [|fuel IH]; intros n [|x l] H Hf Hk Hs; cbn [length strcspn_loop index] in *; try lia.
  - mstep (load_run _ _ _ (cstr_nil _ _ H)). cbn. by rewrite Nat.add_0_r.
  - apply cstr_cons in H as (Hx & H1 & H2). mstep (load_run _ _ _ H1). destruct (Z.eqb_spec x 0); [lia|]. cbn [negb].
    destruct (strchr_test slen m stop k x Hk Hs) as (p & E & Hp); [split; lia|]. mstep E.
    rewrite Hp, mem_of_nonzero by lia. destruct (mem_of k x); cbn [negb default].
    + cbn. by rewrite Nat.add_0_r.
    + replace (Z.of_nat n + 1) with (Z.of_nat (S n)) by lia. rewrite (IH (S n) l); try done; [|by replace (string + Z.of_nat (S n)) with (string + Z.of_nat n + 1) by lia|lia].
      destruct (index (mem_of k) l); cbn; ok_lia.
Qed.

Lemma strspn_loop_spec fuel m string n skip slen l k :
  cstr m (string + Z.of_nat n) l -> (length l < fuel)%nat -> cstr m skip k -> (length k < slen)%nat ->
  strspn_loop fuel string (Z.of_nat n) skip slen m =
    Ok (Z.of_nat (n + default (length l) (index (fun x => negb (mem_of k x)) l)), m).
Proof.
  revert n l. induction fuel as [|fuel IH]; intros n [|x l] H Hf Hk Hs; cbn [length strspn_loop index] in *; try lia.
  - mstep (load_run _ _ _ (cstr_nil _ _ H)). cbn. by rewrite Nat.add_0_r.
  - apply cstr_cons in H as (Hx & H1 & H2). mstep (load_run _ _ _ H1). destruct (Z.eqb_spec x 0); [lia|]. cbn [negb].
    destruct (strchr_test slen m skip k x Hk Hs) as (p & E & Hp); [split; lia|]. mstep E.
    rewrite Hp, mem_of_nonzero by lia. destruct (mem_of k x); cbn [negb default].
    + replace (Z.of_nat n + 1) with (Z.of_nat (S n)) by lia. rewrite (IH (S n) l); try done; [|by replace (string + Z.of_nat (S n)) with (string + Z.of_nat n + 1) by lia|lia].
      destruct (index (fun x => negb (mem_of k x)) l); cbn; ok_lia.
    + cbn. by rewrite Nat.add_0_r.
Qed.

Lemma strpbrk_loop_spec fuel m string stop slen l k :
  cstr m string l -> (length l < fuel)%nat -> cstr m stop k -> (length k < slen)%nat ->
  strpbrk_loop fuel string stop slen m = Ok (ptr string (index (mem_of k) l), m).
Proof.
  revert string l. induction fuel as [|fuel IH]; intros s [|x l] H Hf Hk Hs; cbn [length strpbrk_loop index] in *; try lia.
  - by mstep (load_run _ _ _ (cstr_nil _ _ H)).
  - apply cstr_cons in H as (Hx & H1 & H2). mstep (load_run _ _ _ H1). destruct (Z.eqb_spec x 0); [lia|]. cbn [negb].
    destruct (strchr_test slen m stop k x Hk Hs) as (p & E & Hp); [split; lia|]. mstep E.
    rewrite Hp, mem_of_nonzero by lia. destruct (mem_of k x); cbn [negb].
    + cbn. by rewrite Z.add_0_r.
    + rewrite (IH (s + 1) l) by (done || lia). by rewrite ptr_S.
Qed.

Lemma strrchr_loop_spec fuel m s l c p :
  cstr m s l -> (length l < fuel)%nat ->
  strrchr_loop fuel s c p m =
    Ok (match rindex (Z.eqb c) l with Some i => s + Z.of_nat i | None => p end, m).
Proof.
  revert s l p. induction fuel as [|fuel IH]; intros s [|x l] p H Hf; cbn [length strrchr_loop rindex] in *; try lia.
  - by mstep (load_run _ _ _ (cstr_nil _ _ H)).
  - apply cstr_cons in H as (Hx & H1 & H2). mstep (load_run _ _ _ H1).
    destruct (Z.eqb_spec x 0); [lia|]. cbn [negb]. rewrite (IH (s + 1) l) by (done || lia).
    rewrite Z.eqb_sym. destruct (rindex (Z.eqb c) l) as [i|]; [ok_lia|].
    destruct (c =? x); [ok_lia|done].
Qed.

Lemma strnlen_loop_spec fuel m string n l maxlen :
  cstr m (string + Z.of_nat n) l -> (length l < fuel)%nat -> Z.of_nat n <= maxlen ->
  strnlen_loop fuel string (Z.of_nat n) maxlen m = Ok (Z.min (Z.of_nat (n + length l)) maxlen, m).
Proof.
  revert n l. induction fuel as [|fuel IH]; intros n [|x l] H Hf Hm; cbn [length strnlen_loop] in *; try lia.
  - mstep (load_run _ _ _ (cstr_nil _ _ H)). cbn. ok_lia.
  - apply cstr_cons in H as (Hx & H1 & H2). mstep (load_run _ _ _ H1). destruct (Z.eqb_spec x 0); [lia|]. cbn [negb andb].
    destruct (Z.ltb_spec (Z.of_nat n) maxlen).
    + replace (Z.of_nat n + 1) with (Z.of_nat (S n)) by lia. rewrite (IH (S n) l); [ok_lia| |lia|lia].
      by replace (string + Z.of_nat (S n)) with (string + Z.of_nat n + 1) by lia.
    + ok_lia.
Qed.

(** ** Comparison *)

(** Lexicographic order of byte sequences. *)
Inductive lex_lt : list Z -> list Z -> Prop :=
  | lex_end y k : lex_lt [] (y :: k)
  | lex_byte x y l k : x < y -> lex_lt (x :: l) (y :: k)
  | lex_next x l k : lex_lt l k -> lex_lt (x :: l) (x :: k).

(** [r] is the sign of the comparison of [l] and [k]. *)
Definition lex_sign (r : Z) (l k : list Z) : Prop :=
  (r = 0 /\ l = k) \/ (r = -1 /\ lex_lt l k) \/ (r = 1 /\ lex_lt k l).

Lemma lex_lt_irrefl l : ~ lex_lt l l.
Proof. induction l as [|x l IH]; inversion 1; subst; [lia|by apply IH]. Qed.

Lemma lex_lt_trans l k j : lex_lt l k -> lex_lt k j -> lex_lt l j.
Proof.
  intros H. revert j. induction H; intros j Hj; inversion Hj; subst;
    try (by constructor); try (constructor; lia). apply lex_next. by apply IHlex_lt.
Qed.

Lemma lex_sign_next r x l k : lex_sign r l k -> lex_sign r (x :: l) (x :: k).
Proof.
  intros [[-> ->]|[[-> H]|[-> H]]]; [by left| |].
  - right. left. split; [done|]. by constructor.
  - right. right. split; [done|]. by constructor.
Qed.

(** The sign determines which of the three cases holds. *)
Lemma lex_sign_iff r l k :
  lex_sign r l k -> (r = 0 <-> l = k) /\ (r < 0 <-> lex_lt l k) /\ (0 < r <-> lex_lt k l).
Proof.
  intros [[-> ->]|[[-> H]|[-> H]]].
  - split_and!; (split; [done || lia|]); try done; by intros ?%lex_lt_irrefl.
  - split_and!; split; try done; try lia.
    + intros ->. by apply lex_lt_irrefl in H.
    + intros H2. by destruct (lex_lt_irrefl l (lex_lt_trans _ _ _ H H2)).
  - split_and!; split; try done; try lia.
    + intros ->. by apply lex_lt_irrefl in H.
    + intros H2. by destruct (lex_lt_irrefl l (lex_lt_trans _ _ _ H2 H)).
Qed.

Lemma memcmp_loop_spec m a b l k :
  bytes_at m a l -> bytes_at m b k -> length l = length k ->
  exists r, memcmp_loop (length l) a b m = Ok (r, m) /\ lex_sign r l k.
Proof.
  revert a b k. induction l as [|x l IH]; intros a b [|y k] Hl Hk He; cbn [length memcmp_loop] in *; try lia.
  - exists 0. by split; [|left].
  - apply bytes_at_cons in Hl as [Hx Hl], Hk as [Hy Hk].
    mstep (load_run _ _ _ Hx). mstep (load_run _ _ _ Hy). destruct (Z.eqb_spec x y) as [->|Hne]; cbn [negb].
    + destruct (IH (a + 1) (b + 1) k Hl Hk) as (r & E & Hr); [lia|]. exists r. split; [done|]. by apply lex_sign_next.
    + eexists. split; [done|]. destruct (Z.ltb_spec y x).
      * right. right. split; [done|]. constructor. lia.
      * right. left. split; [done|]. constructor. lia.
Qed.

Lemma memcmp_spec m a b l k :
  0 < a -> 0 < b -> bytes_at m a l -> bytes_at m b k -> length l = length k ->
  exists r, memcmp a b (Z.of_nat (length l)) m = Ok (r, m) /\ lex_sign r l k.
Proof.
  intros Ha Hb Hl Hk He. unfold memcmp.
  mstep (ASSERT_block_run a (Z.of_nat (length l)) m ltac:(unfold NULL; lia)).
  mstep (ASSERT_block_run b (Z.of_nat (length l)) m ltac:(unfold NULL; lia)).
  rewrite Nat2Z.id. by apply memcmp_loop_spec.
Qed.

Lemma strcmp_loop_spec fuel m a b l k :
  cstr m a l -> cstr m b k -> (length l < fuel)%nat ->
  exists r, strcmp_loop fuel a b m = Ok (r, m) /\ lex_sign r l k.
Proof.
  revert a b l k. induction fuel as [|fuel IH]; intros a b [|x l] [|y k] Hl Hk Hf;
    cbn [length strcmp_loop] in *; try lia.
  - mstep (load_run _ _ _ (cstr_nil _ _ Hl)). cbn [Z.eqb]. mstep (load_run _ _ _ (cstr_nil _ _ Hk)).
    exists 0. by split; [|left].
  - apply cstr_cons in Hk as (Hy & Hy1 & _). mstep (load_run _ _ _ (cstr_nil _ _ Hl)).
    cbn [Z.eqb]. mstep (load_run _ _ _ Hy1). exists (-1). destruct (Z.ltb_spec 0 y); [|lia]. split; [done|]. right. left. split; [done|constructor].
  - apply cstr_cons in Hl as (Hx & Hx1 & _). mstep (load_run _ _ _ Hx1).
    exists 1. destruct (Z.eqb_spec x 0); [lia|]. mstep (load_run _ _ _ (cstr_nil _ _ Hk)).
    destruct (Z.eqb_spec x 0); [lia|]. destruct (Z.ltb_spec x 0), (Z.ltb_spec 0 x); try lia.
    split; [done|]. right. right. split; [done|constructor].
  - apply cstr_cons in Hl as (Hx & Hx1 & Hl), Hk as (Hy & Hy1 & Hk).
    mstep (load_run _ _ _ Hx1). destruct (Z.eqb_spec x 0); [lia|]. mstep (load_run _ _ _ Hy1).
    destruct (Z.eqb_spec x y) as [->|Hne].
    + destruct (IH _ _ _ _ Hl Hk) as (r & E & Hr); [lia|]. exists r. split; [done|]. by apply lex_sign_next.
    + eexists. split; [done|]. destruct (Z.ltb_spec x y), (Z.ltb_spec y x); try lia.
      * right. left. split; [done|]. by constructor.
      * right. right. split; [done|]. by constructor.
Qed.

Lemma strcmp_spec fuel m a b l k :
  cstr m a l -> cstr m b k -> (length l < fuel)%nat ->
  exists r, strcmp fuel a b m = Ok (r, m) /\ lex_sign r l k.
Proof.
  intros Hl Hk Hf. unfold strcmp. rewrite !nonnull by (apply Hl || apply Hk). mnorm.
  by apply strcmp_loop_spec.
Qed.

(** ** Substrings *)

(** [needle] occurs in [l] at position [i]. *)
Definition occurs (needle l : list Z) (i : nat) : Prop := slice i (length needle) l = needle.
(** [r] is the first occurrence. *)
Definition first_occurrence (needle l : list Z) (r : option nat) : Prop :=
  match r with
  | Some i => (i + length needle <= length l)%nat /\ occurs needle l i /\
              forall j, (j < i)%nat -> ~ occurs needle l j
  | None => forall j, (j + length needle <= length l)%nat -> ~ occurs needle l j
  end.

Lemma cstr_slice m s l i n :
  cstr m s l -> (i + n <= length l)%nat -> bytes_at m (s + Z.of_nat i) (slice i n l).
Proof.
  intros (_ & _ & H) Hi j b Hj. pose proof (lookup_lt_Some _ _ _ Hj) as Hlt. rewrite length_slice in Hlt by lia.
  rewrite lookup_slice in Hj by lia. replace (s + Z.of_nat i + Z.of_nat j) with (s + Z.of_nat (i + j)) by lia.
  apply H. rewrite lookup_app_l by lia. done.
Qed.

Lemma strstr_loop_spec n m haystack needle l k i :
  cstr m haystack l -> cstr m needle k -> (i + n + length k = S (length l))%nat ->
  (forall j, (j < i)%nat -> ~ occurs k l j) ->
  exists r, strstr_loop n haystack needle (Z.of_nat (length k)) (Z.of_nat i) m = Ok (ptr haystack r, m) /\
    first_occurrence k l r.
Proof.
  intros Hl Hk. revert i. induction n as [|n IH]; intros i Hi Hno; cbn [strstr_loop].
  - exists None. split; [done|]. intros j Hj. apply Hno. lia.
  - destruct (memcmp_spec m (haystack + Z.of_nat i) needle (slice i (length k) l) k) as (c & E & Hc).
    + destruct Hl. lia.
    + apply Hk.
    + apply cstr_slice; [done|lia].
    + by apply bytes_at_app with [0], Hk.
    + rewrite length_slice; lia.
    + rewrite length_slice in E by lia. mstep E. apply lex_sign_iff in Hc as (Hc & _).
      destruct (Z.eqb_spec c 0) as [->|Hne].
      * exists (Some i). split; [done|]. split_and!; [lia|by apply Hc|done].
      * replace (Z.of_nat i + 1) with (Z.of_nat (S i)) by lia. apply IH; [lia|].
        intros j Hj. destruct (decide (j = i)) as [->|]; [|apply Hno; lia]. unfold occurs. by intros ?%Hc.
Qed.

Lemma strstr_spec fuel m haystack needle l k :
  cstr m haystack l -> cstr m needle k -> (length l < fuel)%nat -> (length k < fuel)%nat ->
  exists r, strstr fuel haystack needle m = Ok (ptr haystack r, m) /\ first_occurrence k l r.
Proof.
  intros Hl Hk Hfl Hfk. unfold strstr. mstep (strlen_spec _ _ _ _ Hl Hfl). mstep (strlen_spec _ _ _ _ Hk Hfk).
  destruct (Z.leb_spec (Z.of_nat (length k)) (Z.of_nat (length l))).
  - apply (strstr_loop_spec _ m haystack needle l k 0%nat); [done|done|lia|]. intros j Hj. lia.
  - exists None. split; [done|]. intros j Hj. lia.
Qed.

(** ** Tokens *)

(** The fields of [l] between delimiters; [cur] is the field being read. *)
Fixpoint fields (d l cur : list Z) : list (list Z) :=
  match l with
  | [] => [cur]
  | x :: l => if mem_of d x then cur :: fields d l [] else fields d l (cur ++ [x])
  end.
(** The tokens of [l]: its non-empty fields. *)
Definition nonempty (t : list Z) : bool := negb (bool_decide (t = [])).
Definition tokens (d l : list Z) : list (list Z) := List.filter nonempty (fields d l []).

Lemma fields_token d tok cur rest :
  Forall (fun x => mem_of d x = false) tok -> fields d (tok ++ rest) cur = fields d rest (cur ++ tok).
Proof.
  intros H. revert cur. induction H as [|x tok Hx _ IH]; intros cur; cbn [app fields].
  - by rewrite app_nil_r.
  - rewrite Hx, IH. by rewrite <- app_assoc.
Qed.

Lemma tokens_delims d pre l :
  Forall (fun x => mem_of d x = true) pre -> tokens d (pre ++ l) = tokens d l.
Proof. intros H. unfold tokens. induction H as [|x pre Hx _ IH]; cbn; [done|]. by rewrite Hx. Qed.

Lemma tokens_token d tok rest :
  Forall (fun x => mem_of d x = false) tok -> tok <> [] ->
  (forall x r, rest = x :: r -> mem_of d x = true) ->
  tokens d (tok ++ rest) = tok :: tokens d (tail rest).
Proof.
  intros H Hne Hr. unfold tokens. rewrite fields_token by done. cbn [app].
  assert (nonempty tok = true) as Ht by (unfold nonempty; by rewrite bool_decide_eq_false_2).
  destruct rest as [|x r]; cbn [fields tail List.filter].
  - by rewrite Ht.
  - rewrite (Hr x r eq_refl). cbn [List.filter]. by rewrite Ht.
Qed.

Lemma cstr_app m s l k : cstr m s (l ++ k) -> cstr m (s + Z.of_nat (length l)) k.
Proof.
  intros (H0 & Hf & Hb). rewrite <- app_assoc in Hb. apply bytes_at_app in Hb as [_ Hb].
  apply Forall_app in Hf as [_ Hf]. split_and!; [lia|done|done].
Qed.

Lemma skip_delimiters_spec fuel m s delims dlen l d :
  cstr m s l -> (length l < fuel)%nat -> cstr m delims d -> (length d < dlen)%nat ->
  exists pre rest, l = pre ++ rest /\ Forall (fun x => mem_of d x = true) pre /\
    (forall x r, rest = x :: r -> mem_of d x = false) /\
    skip_delimiters fuel s delims dlen m =
      let p := s + Z.of_nat (length pre) in
      Ok (if bool_decide (rest = []) then None else Some p, p, m).
Proof.
  revert s l. induction fuel as [|fuel IH]; intros s [|x l] H Hf Hd Hl; cbn [length skip_delimiters] in *; try lia.
  - exists [], []. split_and!; [done|by constructor|done|]. mstep (load_run _ _ _ (cstr_nil _ _ H)).
    destruct (strchr_test dlen m delims d 0 Hd Hl) as (p & E & Hp); [split; lia|]. mstep E. rewrite Hp.
    unfold mem_of. rewrite bool_decide_eq_true_2 by set_solver. cbn. by rewrite Z.add_0_r.
  - apply cstr_cons in H as (Hx & H1 & H2). mstep (load_run _ _ _ H1).
    destruct (strchr_test dlen m delims d x Hd Hl) as (p & E & Hp); [split; lia|]. mstep E.
    rewrite Hp, negb_involutive, mem_of_nonzero by lia. destruct (mem_of d x) eqn:Ex.
    + destruct (Z.eqb_spec x 0); [lia|].
      destruct (IH (s + 1) l H2) as (pre & rest & -> & Hpre & Hrest & E2); [lia|done|done|].
      exists (x :: pre), rest. split_and!; [done|by constructor|done|]. rewrite E2. cbn zeta.
      by replace (s + 1 + Z.of_nat (length pre)) with (s + Z.of_nat (length (x :: pre))) by (cbn [length]; lia).
    + exists [], (x :: l). split_and!; [done|by constructor| |].
      * intros y r Hy. by injection Hy as <- <-.
      * rewrite bool_decide_eq_false_2 by done. cbn. by rewrite Z.add_0_r.
Qed.

Lemma skip_token_spec fuel m s delims dlen l d :
  cstr m s l -> (length l < fuel)%nat -> cstr m delims d -> (length d < dlen)%nat ->
  exists tok rest, l = tok ++ rest /\ Forall (fun x => mem_of d x = false) tok /\
    (forall x r, rest = x :: r -> mem_of d x = true) /\
    skip_token fuel s delims dlen m = Ok (s + Z.of_nat (length tok), m).
Proof.
  revert s l. induction fuel as [|fuel IH]; intros s [|x l] H Hf Hd Hl; cbn [length skip_token] in *; try lia.
  - exists [], []. split_and!; [done|by constructor|done|]. mstep (load_run _ _ _ (cstr_nil _ _ H)).
    destruct (strchr_test dlen m delims d 0 Hd Hl) as (p & E & Hp); [split; lia|]. mstep E. rewrite Hp.
    unfold mem_of. rewrite bool_decide_eq_true_2 by set_solver. cbn. by rewrite Z.add_0_r.
  - apply cstr_cons in H as (Hx & H1 & H2). mstep (load_run _ _ _ H1).
    destruct (strchr_test dlen m delims d x Hd Hl) as (p & E & Hp); [split; lia|]. mstep E.
    rewrite Hp, mem_of_nonzero by lia. destruct (mem_of d x) eqn:Ex; cbn [negb].
    + exists [], (x :: l). split_and!; [done|by constructor| |].
      * intros y r Hy. by injection Hy as <- <-.
      * cbn. by rewrite Z.add_0_r.
    + destruct (IH (s + 1) l H2) as (tok & rest & -> & Htok & Hrest & E2); [lia|done|done|].
      exists (x :: tok), rest. split_and!; [done|by constructor|done|]. rewrite E2.
      by replace (s + 1 + Z.of_nat (length tok)) with (s + Z.of_nat (length (x :: tok))) by (cbn [length]; lia).
Qed.

(** The memory [m'] differs from [m] at most in the [n] bytes from [a] on. *)
Definition unchanged_outside (m m' : mem) (a : Z) (n : nat) : Prop :=
  forall x, ~ (a <= x < a + Z.of_nat n) -> m' x = m x.

Lemma bytes_at_frame m m' a n b bs :
  unchanged_outside m m' a n -> bytes_at m b bs ->
  b + Z.of_nat (length bs) <= a \/ a + Z.of_nat n <= b -> bytes_at m' b bs.
Proof.
  intros U H Hd i c Hi. pose proof (lookup_lt_Some _ _ _ Hi). rewrite U by lia. by apply H.
Qed.

Lemma cstr_frame m m' a n s l :
  unchanged_outside m m' a n -> cstr m s l ->
  s + Z.of_nat (length l) < a \/ a + Z.of_nat n <= s -> cstr m' s l.
Proof.
  intros U (H0 & Hf & Hb) Hd. split_and!; [done|done|].
  apply (bytes_at_frame m m' a n); [done|done|]. rewrite length_app; cbn [length]. lia.
Qed.

(** One call: either there is no token left and the memory is unchanged, or
    the token is split off and the rest starts at the saved position. *)
Lemma strtok_r_step fuel m s save delims l d :
  let s0 := if s =? NULL then save else s in
  cstr m s0 l -> cstr m delims d -> (length l < fuel)%nat -> (length d < fuel)%nat ->
  exists p q m', strtok_r fuel s delims save m = Ok (p, q, m') /\
    unchanged_outside m m' s0 (length l) /\ s0 <= q /\
    match tokens d l with
    | [] => p = NULL /\ m' = m
    | tok :: toks => exists l', cstr m' p tok /\ cstr m' q l' /\ tokens d l' = toks /\
        s0 <= p /\ p + Z.of_nat (length tok) <= q /\
        q + Z.of_nat (length l') = s0 + Z.of_nat (length l) /\ (p + Z.of_nat (length tok) = q -> l' = [])
    end.
Proof.
  intros s0 Hl Hd Hfl Hfd. unfold strtok_r. rewrite nonnull by apply Hd. mnorm.
  fold s0. rewrite nonnull by apply Hl. mnorm.
  destruct (skip_delimiters_spec fuel m s0 delims fuel l d Hl Hfl Hd Hfd) as (pre & rest & -> & Hpre & Hrest & E).
  mstep E. rewrite tokens_delims by done. destruct (bool_decide_reflect (rest = [])) as [->|Hne].
  { exists NULL, (s0 + Z.of_nat (length pre)), m. split_and!; [done|by intros x|lia|]. done. }
  pose proof (cstr_app _ _ _ _ Hl) as Hr. rewrite length_app in Hfl |- *.
  destruct (skip_token_spec fuel m (s0 + Z.of_nat (length pre)) delims fuel rest d Hr)
    as (tok & rest' & -> & Htok & Hrest' & E2); [lia|done|done|].
  assert (tok <> []) as Htne.
  { intros ->. destruct rest' as [|x r]; [done|]. specialize (Hrest x r eq_refl). by rewrite (Hrest' x r eq_refl) in Hrest. }
  mstep E2. rewrite tokens_token by done. set (p := s0 + Z.of_nat (length pre)) in *.
  rewrite length_app in *. pose proof (cstr_app _ _ _ _ Hr) as Hr'.
  destruct rest' as [|x r]; cbn [length tail] in *.
  - mstep (load_run _ _ _ (cstr_nil _ _ Hr')). cbn [negb Z.eqb].
    exists p, (p + Z.of_nat (length tok)), m. split_and!; [done|by intros x|lia|]. exists [].
    rewrite app_nil_r in Hr. split_and!; try done; cbn [length]; lia.
  - pose proof Hr' as Hr''. apply cstr_cons in Hr'' as (Hx & H1 & H2). mstep (load_run _ _ _ H1).
    destruct (Z.eqb_spec x 0); [lia|]. cbn [negb]. set (q := p + Z.of_nat (length tok)) in *.
    mstep (store_run m q 0 ltac:(by exists x)). exists p, (q + 1), (upd m q 0). split_and!; [done| |lia|].
    { intros y Hy. unfold upd. destruct (Z.eqb_spec y q); [lia|done]. }
    assert (unchanged_outside m (upd m q 0) q 1) as U.
    { intros y Hy. unfold upd. destruct (Z.eqb_spec y q); [lia|done]. }
    exists r. split_and!; [ | | done | lia | lia | lia | lia].
    + destruct Hr as (Hp & Hf & Hb). rewrite <- app_assoc in Hb. apply bytes_at_app in Hb as [Hb _].
      apply Forall_app in Hf as [Hf _]. split_and!; [done|done|]. apply bytes_at_app. split.
      * apply (bytes_at_frame m _ q 1); [done|done|lia].
      * apply bytes_at_cons. split; [|apply bytes_at_nil]. fold q. unfold upd. by rewrite Z.eqb_refl.
    + apply (cstr_frame m _ q 1); [done|done|lia].
Qed.

(** The loop of the comment above [strtok_r]:
    [for (token = strtok_r (s, d, &save); token != NULL;
          token = strtok_r (NULL, d, &save))], collecting the tokens. *)
Fixpoint strtok_all (n fuel : nat) (s delims save : Z) : M mem (list Z) :=
  match n with
  | O => out_of_fuel
  | S n =>
      r ← strtok_r fuel s delims save;
      if fst r =? NULL then ret []
      else ts ← strtok_all n fuel NULL delims (snd r); ret (fst r :: ts)
  end.

(** ** Bounded copies *)

(** The end of [strlcpy] and [strlcat]: [n] characters and a terminator. *)
Lemma copy_string m dst src k n :
  cstr m src k -> 0 < dst -> (n <= length k)%nat -> mapped m dst (S n) ->
  src + Z.of_nat (length k) < dst \/ dst + Z.of_nat n < src ->
  exists m', (memcpy dst src (Z.of_nat n);; store (dst + Z.of_nat n) 0) m = Ok (tt, m') /\
    written m m' dst (take n k ++ [0]).
Proof.
  intros (Hs & _ & Hb) Hd Hn Hm Ho. apply bytes_at_app in Hb as [Hb _].
  rewrite <- (take_drop n k) in Hb. apply bytes_at_app in Hb as [Hb _].
  assert (length (take n k) = n) as El by (rewrite length_take; lia).
  destruct (memcpy_spec m dst src (take n k) Hd Hs Hb) as (m1 & E & W).
  - rewrite El. intros x Hx. apply Hm. lia.
  - rewrite El. lia.
  - rewrite El in E. mstep E. assert (m1 (dst + Z.of_nat n) = m (dst + Z.of_nat n)) as Em.
    { apply (written_out _ _ _ _ _ W). lia. }
    rewrite store_run by (rewrite Em; apply Hm; lia). eexists. split; [done|].
    apply (written_snoc _ _ _ _ _ _ W). by rewrite El.
Qed.

Lemma written_cstr m m' dst l :
  0 < dst -> Forall (fun b => 0 < b < 256) l -> written m m' dst (l ++ [0]) -> cstr m' dst l.
Proof. intros Hd Hl W. split_and!; [done|done|]. by apply written_in in W. Qed.

(** ** Properties *)

(** [memmove] copies [size] bytes under every overlap of source and
    destination: afterwards the destination holds what the source held
    before, and no other byte has changed.  The pointer it returns is the
    destination only when it does not lie below the source: otherwise the code
    returns the advanced pointer, behind the copy, although the comment says
    that it returns [DST]. *)
Theorem memmove_copies m dst src bs :
  0 < dst -> 0 < src -> bytes_at m src bs -> mapped m dst (length bs) ->
  exists m', memmove dst src (Z.of_nat (length bs)) m =
      Ok (if dst <? src then dst + Z.of_nat (length bs) else dst, m') /\
    bytes_at m' dst bs /\ unchanged_outside m m' dst (length bs).
Proof.
  intros Hd0 Hs0 Hs Hd. unfold memmove.
  mstep (ASSERT_block_run dst (Z.of_nat (length bs)) m ltac:(unfold NULL; lia)).
  mstep (ASSERT_block_run src (Z.of_nat (length bs)) m ltac:(unfold NULL; lia)). rewrite Nat2Z.id.
  assert (forall m', written m m' dst bs -> bytes_at m' dst bs /\ unchanged_outside m m' dst (length bs)) as Hw.
  { intros m' W. split; [by apply written_in in W|]. intros x Hx. by apply written_out with dst bs. }
  destruct (Z.ltb_spec dst src).
  - destruct (copy_forward_spec m dst src bs Hs Hd ltac:(lia)) as (m' & E & W). mstep E. exists m'. auto.
  - destruct (copy_backward_spec m dst src bs Hs Hd ltac:(lia)) as (m' & E & W). mstep E. exists m'. auto.
Qed.

(** The bytes 1..5 at address 100. *)
Definition demo_mem : mem := fun a => if inside 100 32 a then Some (if a <? 105 then a - 99 else 0) else None.

Lemma memmove_copies_witness :
  (exists m', memmove 102 100 3 demo_mem = Ok (102, m') /\ bytes_at m' 102 [1; 2; 3]) /\
  (exists m', memmove 100 102 3 demo_mem = Ok (103, m') /\ bytes_at m' 100 [3; 4; 5]).
Proof.
  assert (forall a n, 100 <= a -> a + Z.of_nat n <= 132 -> mapped demo_mem a n) as Hm.
  { intros a n ? ? x Hx. unfold demo_mem. rewrite (proj2 (inside_spec _ _ _)) by lia. by eexists. }
  split.
  - destruct (memmove_copies demo_mem 102 100 [1; 2; 3]) as (m' & E & B & _); [lia|lia| |apply Hm; cbn; lia|eauto].
    intros [|[|[|i]]] b Hb; cbn in Hb; try done; by injection Hb as <-.
  - destruct (memmove_copies demo_mem 100 102 [3; 4; 5]) as (m' & E & B & _); [lia|lia| |apply Hm; cbn; lia|eauto].
    intros [|[|[|i]]] b Hb; cbn in Hb; try done; by injection Hb as <-.
Defined.

(** [strcmp] and [memcmp] decide the lexicographic order of their
    arguments as unsigned bytes: the result is zero exactly for equal
    contents, negative exactly when the first is smaller and positive exactly
    when it is larger, and memory is not written. *)
Theorem strcmp_lexicographic fuel m a b l k :
  cstr m a l -> cstr m b k -> (length l < fuel)%nat ->
  (exists r, strcmp fuel a b m = Ok (r, m) /\
     (r = 0 <-> l = k) /\ (r < 0 <-> lex_lt l k) /\ (0 < r <-> lex_lt k l)) /\
  (length l = length k ->
   exists r, memcmp a b (Z.of_nat (length l)) m = Ok (r, m) /\
     (r = 0 <-> l = k) /\ (r < 0 <-> lex_lt l k) /\ (0 < r <-> lex_lt k l)).
Proof.
  intros Hl Hk Hf. split.
  - destruct (strcmp_spec fuel m a b l k Hl Hk Hf) as (r & E & Hr). exists r. split; [done|]. by apply lex_sign_iff.
  - intros He. destruct (memcmp_spec m a b l k) as (r & E & Hr); [apply Hl|apply Hk| | |done|].
    + by apply bytes_at_app with [0], Hl.
    + by apply bytes_at_app with [0], Hk.
    + exists r. split; [done|]. by apply lex_sign_iff.
Qed.

(** A memory that holds the bytes [bs] at [a] and nothing else. *)
Definition mem_at (a : Z) (bs : list Z) : mem := write_bytes (fun _ => None) a bs.

Lemma mem_at_cstr a bs s l k :
  0 < a -> bs = k ++ l ++ [0] ++ drop (length k + length l + 1) bs -> s = a + Z.of_nat (length k) ->
  Forall (fun b => 0 < b < 256) l -> cstr (mem_at a bs) s l.
Proof.
  intros Ha Hb -> Hl. split_and!; [lia|done|].
  pose proof (write_bytes_at (fun _ => None) a bs) as W. fold (mem_at a bs) in W.
  rewrite Hb in W at 2. apply bytes_at_app in W as [_ W]. rewrite app_assoc in W. by apply bytes_at_app in W as [W _].
Qed.

(** ["abc"] at 10, ["ab"] at 14, ["bc"] at 17. *)
Definition demo_strings : mem := mem_at 10 [97; 98; 99; 0; 97; 98; 0; 98; 99; 0].
Ltac demo_cstr k := apply (mem_at_cstr _ _ _ _ k); [lia|reflexivity|reflexivity|repeat constructor; lia].

Lemma strcmp_lexicographic_witness :
  exists r, strcmp 10 10 14 demo_strings = Ok (r, demo_strings) /\ 0 < r.
Proof.
  destruct (strcmp_lexicographic 10 demo_strings 10 14 [97; 98; 99] [97; 98]) as [(r & E & _ & _ & H) _].
  - demo_cstr (@nil Z).
  - demo_cstr [97; 98; 99; 0].
  - cbn. lia.
  - exists r. split; [done|]. apply H. apply lex_next, lex_next, lex_end.
Defined.

(** The searching functions return what their comments promise, without
    writing memory or reading behind the terminators: [strlen] and [strnlen]
    the length, [strchr] the first occurrence (the terminator counts as a
    character), [strrchr] the last one, [strpbrk] and [strcspn] the first
    character of a set, [strspn] the first character outside a set, and
    [strstr] the first occurrence of a substring. *)
Theorem string_search_spec fuel m s l t k c n :
  cstr m s l -> cstr m t k -> (length l < fuel)%nat -> (length k < fuel)%nat -> is_u8 c -> 0 <= n ->
  strlen fuel s m = Ok (Z.of_nat (length l), m) /\
  strnlen fuel s n m = Ok (Z.min (Z.of_nat (length l)) n, m) /\
  strchr fuel s c m = Ok (ptr s (index (Z.eqb c) (l ++ [0])), m) /\
  strrchr fuel s c m = Ok (ptr s (rindex (Z.eqb c) l), m) /\
  strpbrk fuel s t m = Ok (ptr s (index (mem_of k) l), m) /\
  strcspn fuel s t m = Ok (Z.of_nat (default (length l) (index (mem_of k) l)), m) /\
  strspn fuel s t m = Ok (Z.of_nat (default (length l) (index (fun x => negb (mem_of k x)) l)), m) /\
  exists r, strstr fuel s t m = Ok (ptr s r, m) /\ first_occurrence k l r.
Proof.
  intros Hl Hk Hfl Hfk Hc Hn. assert (cstr m (s + Z.of_nat 0) l) as Hl0 by by rewrite Z.add_0_r.
  split_and!.
  - by apply strlen_spec.
  - by apply (strnlen_loop_spec fuel m s 0 l n).
  - by apply strchr_spec.
  - unfold strrchr. rewrite wrapu_id by done. rewrite (strrchr_loop_spec _ _ _ _ _ _ Hl Hfl).
    by destruct (rindex (Z.eqb c) l).
  - by apply strpbrk_loop_spec.
  - by apply (strcspn_loop_spec fuel m s 0 t fuel l k).
  - by apply (strspn_loop_spec fuel m s 0 t fuel l k).
  - by apply strstr_spec.
Qed.

Lemma string_search_spec_witness :
  strrchr 10 10 98 demo_strings = Ok (11, demo_strings) /\
  strcspn 10 10 17 demo_strings = Ok (1, demo_strings) /\
  exists r, strstr 10 10 17 demo_strings = Ok (ptr 10 r, demo_strings) /\
    first_occurrence [98; 99] [97; 98; 99] r.
Proof.
  destruct (string_search_spec 10 demo_strings 10 [97; 98; 99] 17 [98; 99] 98 2)
    as (_ & _ & _ & H1 & _ & H2 & _ & H3).
  - demo_cstr (@nil Z).
  - demo_cstr [97; 98; 99; 0; 97; 98; 0].
  - cbn. lia.
  - cbn. lia.
  - by split.
  - lia.
  - split_and!; [done|done|exact H3].
Defined.

(** Calling [strtok_r] until it returns null yields exactly the non-empty
    fields of the string between delimiter characters, in order: the returned
    pointers are valid strings in the final memory with those contents.  Only
    bytes of the string itself are written, and the number of calls is at
    most the number of tokens plus one. *)
Theorem strtok_r_tokens fuel m s save delims l d :
  let s0 := if s =? NULL then save else s in
  cstr m s0 l -> cstr m delims d ->
  delims + Z.of_nat (length d) < s0 \/ s0 + Z.of_nat (length l) <= delims ->
  (length l < fuel)%nat -> (length d < fuel)%nat ->
  forall n, (length (tokens d l) < n)%nat ->
  exists ps m', strtok_all n fuel s delims save m = Ok (ps, m') /\
    Forall2 (cstr m') ps (tokens d l) /\ unchanged_outside m m' s0 (length l).
Proof.
  intros s0 Hl Hd Ho Hfl Hfd n. revert m s save s0 l Hl Hd Ho Hfl.
  induction n as [|n IH]; intros m s save s0 l Hl Hd Ho Hfl Hn; [lia|]. cbn [strtok_all].
  destruct (strtok_r_step fuel m s save delims l d Hl Hd Hfl Hfd) as (p & q & m1 & E & U & Hq & H).
  fold s0 in U, Hq, H. mstep E. cbn [fst snd].
  destruct (tokens d l) as [|tok toks] eqn:Et.
  { destruct H as [-> ->]. exists [], m. split_and!; [done|constructor|by intros x]. }
  destruct H as (l' & Hp & Hl' & <- & Hsp & Hpq & Hlen & Hend).
  destruct (Z.eqb_spec p NULL) as [E0|_]; [destruct Hp as [Hp _]; unfold NULL in E0; lia|].
  destruct (IH m1 NULL q l') as (ps & m' & E2 & HF & U2); try done.
  - by apply (cstr_frame m m1 s0 (length l)).
  - cbn. lia.
  - lia.
  - cbn [length] in Hn. lia.
  - mstep E2. exists (p :: ps), m'. split_and!; [done| |].
    + constructor; [|done]. destruct (decide (p + Z.of_nat (length tok) = q)) as [e|].
      * (* nothing is left: the last call writes nothing *)
        rewrite (Hend e) in *. cbn in U2, Hlen. apply (cstr_frame m1 m' (q + 1) 0); [|done|lia].
        intros x _. apply U2. lia.
      * apply (cstr_frame m1 m' q (length l')); [done|done|lia].
    + intros x Hx. cbn in U2. rewrite U2 by lia. apply U. lia.
Qed.

(** ["/a//bc"] at 10, the delimiter ["/"] at 20. *)
Definition demo_path : mem := mem_at 10 [47; 97; 47; 47; 98; 99; 0; 0; 0; 0; 47; 0].

Lemma strtok_r_tokens_witness :
  exists ps m', strtok_all 3 10 10 20 0 demo_path = Ok (ps, m') /\ Forall2 (cstr m') ps [[97]; [98; 99]].
Proof.
  destruct (strtok_r_tokens 10 demo_path 10 0 20 [47; 97; 47; 47; 98; 99] [47]) with (n := 3%nat)
    as (ps & m' & E & HF & _).
  - demo_cstr (@nil Z).
  - demo_cstr [47; 97; 47; 47; 98; 99; 0; 0; 0; 0].
  - right. by_eval.
  - cbn. lia.
  - cbn. lia.
  - by_eval.
  - exists ps, m'. split; [done|exact HF].
Defined.

(** [strlcpy] and [strlcat] never write outside the [size] bytes at the
    destination, always leave a terminated string there, and return the length
    they would have needed: [strlcpy] leaves the first [size - 1] characters
    of the source, [strlcat] the destination followed by as much of the source
    as fits. *)
Theorem strlcpy_strlcat_bounded fuel m dst src size k :
  cstr m src k -> 0 < dst -> 0 < size -> mapped m dst (Z.to_nat size) ->
  (length k < fuel)%nat ->
  src + Z.of_nat (length k) < dst \/ dst + size <= src ->
  (exists m', strlcpy fuel dst src size m = Ok (Z.of_nat (length k), m') /\
     cstr m' dst (take (Z.to_nat (size - 1)) k) /\ unchanged_outside m m' dst (Z.to_nat size)) /\
  (forall l, cstr m dst l -> Z.of_nat (length l) < size -> (length l < fuel)%nat ->
     Z.of_nat (length k) + Z.of_nat (length l) < 2 ^ 64 ->
   exists m', strlcat fuel dst src size m = Ok (Z.of_nat (length k) + Z.of_nat (length l), m') /\
     cstr m' dst (take (Z.to_nat (size - 1)) (l ++ k)) /\ unchanged_outside m m' dst (Z.to_nat size)).
Proof.
  intros Hk Hd Hs Hm Hf Ho. pose proof Hk as (Hs0 & Hkc & _). split.
  - unfold strlcpy. rewrite !nonnull by done. mnorm. mstep (strlen_spec _ _ _ _ Hk Hf).
    destruct (Z.ltb_spec 0 size); [|lia]. cbv zeta. set (n := Nat.min (length k) (Z.to_nat (size - 1))).
    destruct (copy_string m dst src k n) as (m' & E & W); try done; try lia.
    { intros x Hx. apply Hm. lia. }
    assert ((if Z.of_nat (length k) <? size - 1 then Z.of_nat (length k) else size - 1) = Z.of_nat n) as ->.
    { destruct (Z.ltb_spec (Z.of_nat (length k)) (size - 1)); lia. }
    mstep E. exists m'.
    assert (take n k = take (Z.to_nat (size - 1)) k) as En.
    { unfold n. destruct (Nat.min_spec (length k) (Z.to_nat (size - 1))) as [[? ->]|[? ->]]; [|done].
      by rewrite !take_ge by lia. }
    rewrite En in W. split_and!; [done| |].
    + apply (written_cstr m); [done|by apply Forall_take|done].
    + intros x Hx. apply (written_out _ _ _ _ _ W). rewrite length_app, length_take. cbn [length]. lia.
  - intros l Hl Hls Hfl Hsum. unfold strlcat. rewrite !nonnull by done. mnorm.
    mstep (strlen_spec _ _ _ _ Hk Hf). mstep (strlen_spec _ _ _ _ Hl Hfl).
    destruct (Z.ltb_spec 0 size), (Z.ltb_spec (Z.of_nat (length l)) size); try lia. cbn [andb]. cbv zeta.
    set (n := Nat.min (length k) (Z.to_nat (size - 1 - Z.of_nat (length l)))).
    destruct (copy_string m (dst + Z.of_nat (length l)) src k n) as (m' & E & W); try done; try lia.
    { intros x Hx. apply Hm. lia. }
    assert ((if Z.of_nat (length k) <? size - Z.of_nat (length l) - 1 then Z.of_nat (length k)
             else size - Z.of_nat (length l) - 1) = Z.of_nat n) as ->.
    { destruct (Z.ltb_spec (Z.of_nat (length k)) (size - Z.of_nat (length l) - 1)); lia. }
    mstep E. exists m'. rewrite wrapu_id by (split; lia).
    assert (take (Z.to_nat (size - 1)) (l ++ k) = l ++ take n k) as ->.
    { rewrite take_app, take_ge by lia. f_equal. unfold n.
      destruct (Nat.min_spec (length k) (Z.to_nat (size - 1 - Z.of_nat (length l)))) as [[? ->]|[? ->]]; [|f_equal; lia].
      by rewrite !take_ge by lia. }
    destruct Hl as (_ & Hlc & Hlb). apply bytes_at_app in Hlb as [Hlb _]. split_and!; [done| |].
    + split_and!; [done|apply Forall_app; split; [done|by apply Forall_take]|].
      rewrite <- app_assoc. apply bytes_at_app. split; [|by apply written_in in W].
      intros i b Hi. pose proof (lookup_lt_Some _ _ _ Hi). rewrite (written_out _ _ _ _ _ W) by lia. by apply Hlb.
    + intros x Hx. apply (written_out _ _ _ _ _ W). rewrite length_app, length_take. cbn [length]. lia.
Qed.

(** ["abc"] at 10, room for 5 bytes at 20 holding ["x"]. *)
Definition demo_copy : mem := mem_at 10 [97; 98; 99; 0; 0; 0; 0; 0; 0; 0; 120; 0; 0; 0; 0].

Lemma strlcpy_strlcat_bounded_witness :
  (exists m', strlcpy 10 20 10 3 demo_copy = Ok (3, m') /\ cstr m' 20 [97; 98]) /\
  (exists m', strlcat 10 20 10 4 demo_copy = Ok (4, m') /\ cstr m' 20 [120; 97; 98]).
Proof.
  assert (cstr demo_copy 10 [97; 98; 99]) as Hs by demo_cstr (@nil Z).
  assert (cstr demo_copy 20 [120]) as Hd by demo_cstr [97; 98; 99; 0; 0; 0; 0; 0; 0; 0].
  assert (forall n, (n <= 5)%nat -> mapped demo_copy 20 n) as Hm.
  { intros n Hn x Hx. unfold demo_copy, mem_at, write_bytes.
    rewrite (proj2 (inside_spec _ _ _)) by (cbn [length]; lia). apply lookup_lt_is_Some_2. cbn [length]. lia. }
  split.
  - destruct (strlcpy_strlcat_bounded 10 demo_copy 20 10 3 [97; 98; 99]) as [(m' & E & C & _) _];
      [done|lia|lia|apply Hm; lia|cbn; lia|cbn; lia|]. exists m'. split; [done|exact C].
  - destruct (strlcpy_strlcat_bounded 10 demo_copy 20 10 4 [97; 98; 99]) as [_ H];
      [done|lia|lia|apply Hm; lia|cbn; lia|cbn; lia|].
    destruct (H [120]) as (m' & E & C & _); [done|cbn; lia|cbn; lia|cbn; lia|].
    exists m'. split; [done|exact C].
Defined.
