(* ===== verification/CStdlib.v ===== *)
(** * Sorting, searching and conversion (lib/stdlib.c, include/lib/ctype.h)

    An array of [cnt] elements of [size] bytes is a list of [cnt] blocks of
    bytes; [compare] looks at the bytes of two elements.  Counts and indices
    are [nat]: the array lies in memory, so no index or byte offset can
    overflow.  The elements are exchanged byte by byte, as in the code.  An
    access outside the array is [Fault]. *)

From S2P Require Import Prelude CString.

(** ** Characters (ctype.h) *)

Definition islower (c : Z) : bool := (97 <=? c) && (c <=? 122).
Definition isupper (c : Z) : bool := (65 <=? c) && (c <=? 90).
Definition isalpha (c : Z) : bool := islower c || isupper c.
Definition isdigit (c : Z) : bool := (48 <=? c) && (c <=? 57).
Definition isalnum (c : Z) : bool := isalpha c || isdigit c.
Definition isxdigit (c : Z) : bool := isdigit c || ((97 <=? c) && (c <=? 102)) || ((65 <=? c) && (c <=? 70)).
Definition isspace (c : Z) : bool := (c =? 32) || (c =? 12) || (c =? 10) || (c =? 13) || (c =? 9) || (c =? 11).
Definition isblank (c : Z) : bool := (c =? 32) || (c =? 9).
Definition isgraph (c : Z) : bool := (32 <? c) && (c <? 127).
Definition isprint (c : Z) : bool := (32 <=? c) && (c <? 127).
Definition iscntrl (c : Z) : bool := ((0 <=? c) && (c <? 32)) || (c =? 127).
Definition isascii (c : Z) : bool := (0 <=? c) && (c <? 128).
Definition ispunct (c : Z) : bool := isprint c && negb (isalnum c) && negb (isspace c).
Definition tolower (c : Z) : Z := if isupper c then c - 65 + 97 else c.
Definition toupper (c : Z) : Z := if islower c then c - 97 + 65 else c.

(** ** Conversion *)

Fixpoint skip_space (fuel : nat) (s : Z) : M mem Z :=
  match fuel with
  | O => out_of_fuel
  | S fuel => c ← load s; if isspace c then skip_space fuel (s + 1) else ret s
  end.

(** The value is built up as a negative number; each operation wraps at 32
    bits. *)
Fixpoint parse_digits (fuel : nat) (s value : Z) : M mem Z :=
  match fuel with
  | O => out_of_fuel
  | S fuel =>
      c ← load s;
      if isdigit c then parse_digits fuel (s + 1) (s32 (s32 (value * 10) - (c - 48))) else ret value
  end.

Definition atoi (fuel : nat) (s : Z) : M mem Z :=
  ASSERT (negb (s =? NULL));;
  s ← skip_space fuel s;
  c ← load s;
  let '(negative, s) := if c =? 43 then (false, s + 1) else if c =? 45 then (true, s + 1) else (false, s) in
  value ← parse_digits fuel s 0;
  ret (if negb negative then s32 (- value) else value).

(** ** Sorting *)

Section Sort.
Variable compare : list Z -> list Z -> Z.

(** The element with the 1-based index [idx]. *)
Definition elem (array : list (list Z)) (idx : nat) : result (list Z) := deref (array !! (idx - 1)%nat).

(** Exchanges the bytes [i], ..., [i + n - 1]. *)
Fixpoint swap_loop (n i : nat) (array : list (list Z)) (a_idx b_idx : nat) : result (list (list Z)) :=
  match n with
  | O => Ok array
  | S n =>
      let! a := elem array a_idx in
      let! t := deref (a !! i) in
      let! b := elem array b_idx in
      let! u := deref (b !! i) in
      let array := <[(a_idx - 1)%nat := <[i := u]> a]> array in
      let! b := elem array b_idx in
      let array := <[(b_idx - 1)%nat := <[i := t]> b]> array in
      swap_loop n (S i) array a_idx b_idx
  end.
Definition do_swap (array : list (list Z)) (a_idx b_idx size : nat) : result (list (list Z)) :=
  swap_loop size 0 array a_idx b_idx.

Definition do_compare (array : list (list Z)) (a_idx b_idx : nat) : result Z :=
  let! a := elem array a_idx in let! b := elem array b_idx in Ok (compare a b).

(** [if (idx <= cnt && do_compare (array, idx, max) > 0) max = idx]. *)
Definition larger (array : list (list Z)) (idx max cnt : nat) : result nat :=
  if (idx <=? cnt)%nat then
    let! c := do_compare array idx max in Ok (if 0 <? c then idx else max)
  else Ok max.

(** The index grows in every round, so [cnt] rounds are enough. *)
Fixpoint heapify (fuel : nat) (array : list (list Z)) (i cnt size : nat) : result (list (list Z)) :=
  match fuel with
  | O => NoFuel
  | S fuel =>
      let left := (2 * i)%nat in
      let right := (2 * i + 1)%nat in
      let! max := larger array left i cnt in
      let! max := larger array right max cnt in
      if (max =? i)%nat then Ok array
      else
        let! array := do_swap array i max size in
        heapify fuel array max cnt size
  end.

(** [for (i = cnt / 2; i > 0; i--) heapify (...)]. *)
Fixpoint build_heap (i : nat) (array : list (list Z)) (cnt size : nat) : result (list (list Z)) :=
  match i with
  | O => Ok array
  | S i' => let! array := heapify (S cnt) array i cnt size in build_heap i' array cnt size
  end.

(** [for (i = cnt; i > 1; i--) { do_swap (...); heapify (...); }]. *)
Fixpoint sort_heap (i : nat) (array : list (list Z)) (size : nat) : result (list (list Z)) :=
  match i with
  | O | S O => Ok array
  | S i' =>
      let! array := do_swap array 1 i size in
      let! array := heapify (S i') array 1 i' size in
      sort_heap i' array size
  end.

Definition sort (array : list (list Z)) (cnt size : nat) : result (list (list Z)) :=
  let! _ := rassert (0 <? size)%nat in
  let! array := build_heap (cnt / 2) array cnt size in
  sort_heap cnt array size.

(** [qsort] passes its function through [compare_thunk]. *)
Definition qsort (array : list (list Z)) (cnt size : nat) : result (list (list Z)) := sort array cnt size.

(** ** Searching

    [first], [last] and [middle] are addresses; the array starts at
    [base]. *)
Fixpoint search_loop (fuel : nat) (key : list Z) (array : list (list Z)) (base first last size : Z) : result Z :=
  if first <? last then
    match fuel with
    | O => NoFuel
    | S fuel =>
        let range := (last - first) / size in
        let middle := first + range / 2 * size in
        let! m := deref (array !! Z.to_nat ((middle - base) / size)) in
        let cmp := compare key m in
        if cmp <? 0 then search_loop fuel key array base first middle size
        else if 0 <? cmp then search_loop fuel key array base (middle + size) last size
        else Ok middle
    end
  else Ok NULL.
Definition binary_search (key : list Z) (array : list (list Z)) (base cnt size : Z) : result Z :=
  search_loop (S (Z.to_nat cnt)) key array base base (base + size * cnt) size.
Definition bsearch (key : list Z) (array : list (list Z)) (base cnt size : Z) : result Z :=
  binary_search key array base cnt size.
End Sort.

(** ** Exchanging elements *)

Definition blocks (size : nat) (array : list (list Z)) : Prop := Forall (fun x => length x = size) array.

Definition exchange {A} (a b : nat) (l : list A) : list A :=
  match l !! a, l !! b with
  | Some x, Some y => <[b := x]> (<[a := y]> l)
  | _, _ => l
  end.

(** [x] with its first [i] bytes taken from [y]. *)
Definition mixed (i : nat) (x y : list Z) : list Z := take i y ++ drop i x.

Lemma mixed_step i x y u : length x = length y -> y !! i = Some u -> <[i := u]> (mixed i x y) = mixed (S i) x y.
Proof.
  intros Hl Hu. pose proof (lookup_lt_Some _ _ _ Hu). unfold mixed.
  rewrite insert_app_r_alt by (rewrite length_take; lia). rewrite length_take. replace (i - i `min` length y)%nat with 0%nat by lia.
  destruct (drop i x) as [|z t] eqn:E; [apply (f_equal length) in E; rewrite length_drop in E; cbn in E; lia|]. cbn [list_insert insert].
  rewrite (take_S_r _ _ _ Hu), <- app_assoc. cbn [app]. do 2 f_equal.
  replace (S i) with (i + 1)%nat by lia. rewrite <- drop_drop, E. done.
Qed.

Lemma lookup_mixed i x y : length x = length y -> mixed i x y !! i = x !! i.
Proof.
  intros Hl. unfold mixed. destruct (decide (i < length y)%nat).
  - rewrite lookup_app_r by (rewrite length_take; lia). rewrite length_take, lookup_drop. f_equal. lia.
  - rewrite !lookup_ge_None_2; [done|lia|]. rewrite length_app, length_take, length_drop. lia.
Qed.

Lemma elem_run (array : list (list Z)) idx x : array !! (idx - 1)%nat = Some x -> elem array idx = Ok x.
Proof. intros H. unfold elem. by rewrite H. Qed.

Lemma swap_loop_same size array a x n : forall i,
  array !! (a - 1)%nat = Some x -> length x = size -> (i + n = size)%nat -> swap_loop n i array a a = Ok array.
Proof.
  induction n as [|n IH]; intros i Ha Hl Hi; cbn [swap_loop]; [done|]. rewrite (elem_run _ _ _ Ha). cbn [rbind].
  destruct (lookup_lt_is_Some_2 x i) as [t Ht]; [lia|]. rewrite Ht. cbn [deref rbind].
  rewrite (list_insert_id x i t Ht), (list_insert_id array _ x Ha), (elem_run _ _ _ Ha). cbn [rbind].
  rewrite (list_insert_id x i t Ht), (list_insert_id array _ x Ha). apply IH; [done|done|lia].
Qed.

Lemma swap_loop_run size array a b x y n : (a - 1 <> b - 1)%nat ->
  array !! (a - 1)%nat = Some x -> array !! (b - 1)%nat = Some y -> length x = size -> length y = size -> forall i, (i + n = size)%nat ->
  swap_loop n i (<[(b - 1)%nat := mixed i y x]> (<[(a - 1)%nat := mixed i x y]> array)) a b
    = Ok (<[(b - 1)%nat := x]> (<[(a - 1)%nat := y]> array)).
Proof.
  intros Hne Ha Hb Lx Ly. pose proof (lookup_lt_Some _ _ _ Ha). pose proof (lookup_lt_Some _ _ _ Hb).
  induction n as [|n IH]; intros i Hi; cbn [swap_loop].
  { rewrite Nat.add_0_r in Hi. unfold mixed. by rewrite !take_ge, !drop_ge, !app_nil_r by lia. }
  destruct (lookup_lt_is_Some_2 x i) as [t Ht]; [lia|]. destruct (lookup_lt_is_Some_2 y i) as [u Hu]; [lia|].
  erewrite (elem_run _ a) by (rewrite list_lookup_insert_ne, list_lookup_insert_eq by lia; reflexivity). cbn [rbind].
  rewrite lookup_mixed, Ht by lia. cbn [deref rbind].
  erewrite (elem_run _ b) by (rewrite list_lookup_insert_eq by (rewrite length_insert; lia); reflexivity). cbn [rbind].
  rewrite lookup_mixed, Hu by lia. cbn [deref rbind].
  erewrite (elem_run _ b) by (rewrite list_lookup_insert_ne, list_lookup_insert_eq by (try rewrite !length_insert; lia); reflexivity). cbn [rbind].
  rewrite (list_insert_insert_ne _ (a - 1) (b - 1)) by done. rewrite !list_insert_insert_eq.
  rewrite !mixed_step by (done || lia). apply IH. lia.
Qed.

Lemma do_swap_run size array a b :
  blocks size array -> (1 <= a <= length array)%nat -> (1 <= b <= length array)%nat ->
  do_swap array a b size = Ok (exchange (a - 1) (b - 1) array).
Proof.
  intros Hb Ha Hb'. unfold do_swap, exchange. destruct (lookup_lt_is_Some_2 array (a - 1)%nat) as [x Hx]; [lia|].
  destruct (lookup_lt_is_Some_2 array (b - 1)%nat) as [y Hy]; [lia|]. rewrite Hx, Hy.
  pose proof (Forall_lookup_1 _ _ _ _ Hb Hx) as Lx. pose proof (Forall_lookup_1 _ _ _ _ Hb Hy) as Ly. cbn in Lx, Ly.
  destruct (decide (a - 1 = b - 1)%nat) as [E|Hne].
  - assert (a = b) as -> by lia. rewrite Hx in Hy. injection Hy as ->. rewrite list_insert_insert_eq, list_insert_id by done.
    by apply (swap_loop_same size array b y size 0).
  - pose proof (swap_loop_run size array a b x y size Hne Hx Hy Lx Ly 0 ltac:(lia)) as E.
    change (mixed 0 x y) with x in E. change (mixed 0 y x) with y in E.
    by rewrite (list_insert_id array (a - 1) x Hx), (list_insert_id array (b - 1) y Hy) in E.
Qed.

Section Exchange.
Context {A : Type}.
Implicit Types (l : list A) (a b k : nat).

Lemma length_exchange a b l : length (exchange a b l) = length l.
Proof. unfold exchange. destruct (l !! a), (l !! b); by rewrite ?length_insert. Qed.

Lemma lookup_exchange a b k l : (a < length l)%nat -> (b < length l)%nat ->
  exchange a b l !! k = l !! (if decide (k = a) then b else if decide (k = b) then a else k).
Proof.
  intros Ha Hb. unfold exchange. destruct (lookup_lt_is_Some_2 l a Ha) as [x Hx], (lookup_lt_is_Some_2 l b Hb) as [y Hy]. rewrite Hx, Hy.
  destruct (decide (k = a)) as [->|]; [destruct (decide (a = b)) as [->|]|destruct (decide (k = b)) as [->|]].
  - rewrite list_lookup_insert_eq by (rewrite length_insert; lia). congruence.
  - rewrite list_lookup_insert_ne, list_lookup_insert_eq by (done || lia). done.
  - rewrite list_lookup_insert_eq by (rewrite length_insert; lia). done.
  - by rewrite !list_lookup_insert_ne by done.
Qed.

Lemma exchange_perm a b l : exchange a b l ≡ₚ l.
Proof.
  destruct (decide (a < length l)%nat) as [Ha|]; [destruct (decide (b < length l)%nat) as [Hb|]|].
  - apply Permutation_inj. split; [apply length_exchange|].
    exists (fun k => if decide (k = a) then b else if decide (k = b) then a else k). split.
    + intros k1 k2. repeat case_decide; congruence.
    + intros k. by apply lookup_exchange.
  - unfold exchange. rewrite (lookup_ge_None_2 l b) by lia. by destruct (l !! a).
  - unfold exchange. by rewrite (lookup_ge_None_2 l a) by lia.
Qed.

(** Exchanging inside a prefix. *)
Lemma exchange_prefix n a b l : (a < n)%nat -> (b < n)%nat -> (n <= length l)%nat ->
  take n (exchange a b l) = exchange a b (take n l) /\ drop n (exchange a b l) = drop n l.
Proof.
  intros Ha Hb Hn. split; apply list_eq; intros k.
  - destruct (decide (k < n)%nat).
    + rewrite lookup_take_lt by done. rewrite !lookup_exchange by (rewrite ?length_take; lia). rewrite lookup_take_lt; [done|]. repeat case_decide; lia.
    + rewrite !lookup_ge_None_2; [done|rewrite length_exchange, length_take; lia|rewrite length_take; lia].
  - rewrite !lookup_drop, lookup_exchange by lia. rewrite !decide_False by lia. done.
Qed.
End Exchange.

Lemma exchange_blocks size a b array : blocks size array -> blocks size (exchange a b array).
Proof. unfold blocks. by rewrite exchange_perm. Qed.

(** ** Heap order *)

(** What [sort] and [binary_search] require of [compare]. *)
Class Strcmp (compare : list Z -> list Z -> Z) : Prop := {
  cmp_opp x y : 0 < compare x y <-> compare y x < 0;
  cmp_trans x y z : compare x y <= 0 -> compare y z <= 0 -> compare x z <= 0
}.

Section Heap.
Context (compare : list Z -> list Z -> Z) `{!Strcmp compare}.
Implicit Types (array : list (list Z)) (i j k n p : nat).

(** The element at [j] is not larger than the one at [p] (1-based). *)
Definition ord array j p : Prop :=
  forall x y, array !! (j - 1)%nat = Some x -> array !! (p - 1)%nat = Some y -> compare x y <= 0.

Lemma cmp_refl x : compare x x <= 0.
Proof. destruct (Z.le_gt_cases (compare x x) 0); [done|]. assert (compare x x < 0) by (apply cmp_opp; lia). lia. Qed.

Lemma cmp_pos x y : 0 < compare x y -> compare y x <= 0.
Proof. intros H%cmp_opp. lia. Qed.

Lemma ord_refl array p : ord array p p.
Proof. intros x y Hx Hy. rewrite Hx in Hy. injection Hy as ->. apply cmp_refl. Qed.

Lemma ord_trans array a b c : (1 <= b <= length array)%nat -> ord array a b -> ord array b c -> ord array a c.
Proof.
  intros Hb H1 H2 x z Hx Hz. destruct (lookup_lt_is_Some_2 array (b - 1)%nat) as [y Hy]; [lia|].
  eapply cmp_trans; [by apply H1|by apply H2].
Qed.

Definition sw (a b k : nat) : nat := if decide (k = a) then b else if decide (k = b) then a else k.

Lemma ord_exchange array a b j p :
  (1 <= a <= length array)%nat -> (1 <= b <= length array)%nat -> (1 <= j)%nat -> (1 <= p)%nat ->
  ord array (sw a b j) (sw a b p) -> ord (exchange (a - 1) (b - 1) array) j p.
Proof.
  intros Ha Hb Hj Hp H x y Hx Hy. rewrite lookup_exchange in Hx, Hy by lia.
  apply H; [rewrite <- Hx|rewrite <- Hy]; unfold sw; f_equal; repeat case_decide; lia.
Qed.

Lemma larger_run array idx max cnt :
  (cnt <= length array)%nat -> (1 <= idx)%nat -> (1 <= max <= cnt)%nat ->
  exists m, larger compare array idx max cnt = Ok m /\ (m = max \/ m = idx /\ (idx <= cnt)%nat) /\
    ord array max m /\ ((idx <= cnt)%nat -> ord array idx m).
Proof.
  intros Hc Hi Hm. unfold larger. destruct (Nat.leb_spec idx cnt) as [Hle|Hgt].
  2: { exists max. split_and!; [done|by left|apply ord_refl|lia]. }
  destruct (lookup_lt_is_Some_2 array (idx - 1)%nat) as [x Hx]; [lia|]. destruct (lookup_lt_is_Some_2 array (max - 1)%nat) as [y Hy]; [lia|].
  unfold do_compare. rewrite (elem_run _ _ _ Hx), (elem_run _ _ _ Hy). cbn [rbind]. destruct (Z.ltb_spec 0 (compare x y)) as [Hlt|Hge].
  - exists idx. split_and!; [done|by right| |intros _; apply ord_refl]. intros u v Hu Hv. assert (u = y /\ v = x) as [-> ->] by (split; congruence).
    by apply cmp_pos.
  - exists max. split_and!; [done|by left|apply ord_refl|]. intros _ u v Hu Hv. assert (u = x /\ v = y) as [-> ->] by (split; congruence). done.
Qed.

Definition child p j : Prop := j = (2 * p)%nat \/ j = (2 * p + 1)%nat.

(** The nodes from [k] on are not smaller than their children. *)
Definition heap_from k n array : Prop := forall p j, (k <= p)%nat -> (1 <= p)%nat -> child p j -> (j <= n)%nat -> ord array j p.

(** The same but for the node [i]; its children are not larger than its
    parent. *)
Definition hole k n array i : Prop :=
  (forall p j, (k <= p)%nat -> (1 <= p)%nat -> child p j -> (j <= n)%nat -> p <> i -> ord array j p) /\
  (forall j, child i j -> (j <= n)%nat -> (k <= i / 2)%nat -> (1 <= i / 2)%nat -> ord array j (i / 2)).

(** The result of work on the first [n] elements. *)
Record prefix_perm (size n : nat) (l l' : list (list Z)) : Prop := {
  pp_take : take n l' ≡ₚ take n l;
  pp_drop : drop n l' = drop n l;
  pp_blocks : blocks size l';
  pp_length : length l' = length l
}.

Lemma prefix_perm_refl size n l : blocks size l -> prefix_perm size n l l.
Proof. by split. Qed.
Lemma prefix_perm_trans size n l1 l2 l3 : prefix_perm size n l1 l2 -> prefix_perm size n l2 l3 -> prefix_perm size n l1 l3.
Proof. intros [A1 A2 A3 A4] [B1 B2 B3 B4]. split; [by rewrite B1|congruence|done|congruence]. Qed.

Lemma prefix_perm_mono size n m l l' : (n <= m)%nat -> prefix_perm size n l l' -> prefix_perm size m l l'.
Proof.
  intros Hn [A1 A2 A3 A4]. replace m with (n + (m - n))%nat by lia. split; [|by rewrite <- !drop_drop, A2|done|done].
  rewrite <- !take_take_drop. by rewrite A1, A2.
Qed.

Lemma exchange_prefix_perm size n a b l : blocks size l -> (1 <= a <= n)%nat -> (1 <= b <= n)%nat -> (n <= length l)%nat ->
  prefix_perm size n l (exchange (a - 1) (b - 1) l).
Proof.
  intros Hb Ha Hb' Hn. destruct (exchange_prefix n (a - 1) (b - 1) l) as [E1 E2]; [lia..|].
  split; [rewrite E1; apply exchange_perm|done|by apply exchange_blocks|apply length_exchange].
Qed.

(** One round moves the hole to the larger child. *)
Lemma hole_down k n array i m :
  (1 <= i)%nat -> (k <= i)%nat -> (n <= length array)%nat -> child i m -> (m <= n)%nat ->
  hole k n array i -> ord array i m -> (forall j, child i j -> (j <= n)%nat -> ord array j m) ->
  hole k n (exchange (i - 1) (m - 1) array) m.
Proof.
  intros Hi Hk Hn Hc Hm [H1 H2] Him Hmax. assert (m / 2 = i)%nat as Em by (destruct Hc as [-> | ->]; [rewrite Nat.mul_comm, Nat.div_mul by lia; done|]; rewrite Nat.add_comm, (Nat.mul_comm 2), Nat.div_add by lia; done).
  split.
  - intros p j Hp Hp1 Hj Hjn Hpm. apply ord_exchange; [unfold child in *; lia..|]. unfold sw.
    assert (i / 2 * 2 <= i < i / 2 * 2 + 2)%nat as Hdiv by (pose proof (Nat.div_mod_eq i 2); pose proof (Nat.mod_upper_bound i 2); lia).
    destruct (decide (p = i)) as [->|Hpi].
    + rewrite (decide_False (P := j = i)) by (unfold child in *; lia). destruct (decide (j = m)) as [->|]; [done|]. by apply Hmax.
    + rewrite (decide_False (P := p = m)) by done. destruct (decide (j = i)) as [->|].
      * assert (p = i / 2)%nat as -> by (unfold child in Hj; lia). apply H2; [done|done|lia|lia].
      * rewrite decide_False; [by apply H1|]. intros ->. unfold child in *. lia.
  - intros j Hj Hjn Hkm _. rewrite Em. apply ord_exchange; [unfold child in *; lia..|]. unfold sw.
    rewrite (decide_False (P := j = i)), (decide_False (P := j = m)), (decide_True (P := i = i)) by (unfold child in *; lia || done).
    apply H1; [unfold child in *; lia|unfold child in *; lia|done|done|unfold child in *; lia].
Qed.

Lemma heapify_run size k cnt : forall fuel array i,
  blocks size array -> (1 <= i <= cnt)%nat -> (k <= i)%nat -> (cnt <= length array)%nat -> (cnt < i + fuel)%nat -> hole k cnt array i ->
  exists array', heapify compare fuel array i cnt size = Ok array' /\ heap_from k cnt array' /\ prefix_perm size cnt array array'.
Proof.
  induction fuel as [|fuel IH]; intros array i Hb Hi Hk Hc Hf Hh; [lia|]. cbn [heapify].
  destruct (larger_run array (2 * i) i cnt Hc) as (m1 & -> & M1 & O1 & L1); [lia..|]. cbn [rbind].
  destruct (larger_run array (2 * i + 1) m1 cnt Hc) as (m & -> & M2 & O2 & L2); [lia|lia|]. cbn [rbind].
  assert (1 <= m1 <= length array)%nat as Hm1 by lia. assert (ord array i m) as Oi by (eapply ord_trans; [exact Hm1|done|done]).
  assert (forall j, child i j -> (j <= cnt)%nat -> ord array j m) as Hmax.
  { intros j [->| ->] Hj; [|by apply L2]. eapply ord_trans; [exact Hm1|by apply L1|done]. }
  destruct (Nat.eqb_spec m i) as [->|Hne].
  - exists array. split_and!; [done| |by apply prefix_perm_refl]. intros p j Hp Hp1 Hj Hjn.
    destruct (decide (p = i)) as [->|]; [by apply Hmax|by apply Hh].
  - assert (child i m /\ (m <= cnt)%nat) as [Hcm Hmc] by (unfold child; lia).
    rewrite (do_swap_run size) by (done || unfold child in *; lia). cbn [rbind].
    pose proof (exchange_prefix_perm size cnt i m array Hb ltac:(lia) ltac:(unfold child in *; lia) Hc) as HP.
    destruct (IH (exchange (i - 1) (m - 1) array) m) as (a' & E & Hheap & HP'); [by apply exchange_blocks|unfold child in *; lia|unfold child in *; lia|rewrite length_exchange; lia|unfold child in *; lia| |].
    + by apply hole_down; try lia.
    + exists a'. split_and!; [done|done|by eapply prefix_perm_trans].
Qed.

Lemma build_heap_run size cnt : forall i array,
  blocks size array -> (i <= cnt)%nat -> (cnt <= length array)%nat -> heap_from (S i) cnt array ->
  exists array', build_heap compare i array cnt size = Ok array' /\ heap_from 1 cnt array' /\ prefix_perm size cnt array array'.
Proof.
  induction i as [|i IH]; intros array Hb Hi Hc Hh; cbn [build_heap].
  { exists array. split_and!; [done|done|by apply prefix_perm_refl]. }
  destruct (heapify_run size (S i) cnt (S cnt) array (S i)) as (a1 & E1 & H1 & P1); [done|lia|lia|done|lia| |].
  { split; [|intros j _ _ Hk; pose proof (Nat.div_lt (S i) 2); lia].
    intros p j Hp Hp1 Hj Hjn Hne. apply Hh; [lia|done|done|done]. }
  rewrite E1. cbn [rbind]. destruct (IH a1) as (a2 & E2 & H2 & P2); [apply P1|lia|rewrite (pp_length _ _ _ _ P1); lia|done|].
  exists a2. split_and!; [done|done|by eapply prefix_perm_trans].
Qed.

(** The root of a heap is its largest element. *)
Lemma heap_root n array p : (n <= length array)%nat -> heap_from 1 n array -> (1 <= p <= n)%nat -> ord array p 1.
Proof.
  intros Hn Hh. induction p as [p IH] using lt_wf_ind. intros Hp. destruct (decide (p = 1%nat)) as [->|]; [apply ord_refl|].
  assert (p / 2 * 2 <= p < p / 2 * 2 + 2)%nat as Hdiv by (pose proof (Nat.div_mod_eq p 2); pose proof (Nat.mod_upper_bound p 2); lia).
  eapply (ord_trans array p (p / 2)); [lia| |apply IH; lia]. apply Hh; [lia|lia|unfold child; lia|lia].
Qed.

(** The state of the second loop: the first [n] elements are a heap, the
    others are sorted and not smaller. *)
Record sorting n array : Prop := {
  so_heap : heap_from 1 n array;
  so_suffix a b : (n < a)%nat -> (a <= b)%nat -> ord array a b;
  so_split a b : (1 <= a <= n)%nat -> (n < b)%nat -> ord array a b
}.

Lemma prefix_lookup size n l l' p : prefix_perm size n l l' -> (n <= length l)%nat ->
  ((n < p)%nat -> l' !! (p - 1)%nat = l !! (p - 1)%nat) /\
  (forall x, (1 <= p <= n)%nat -> l' !! (p - 1)%nat = Some x -> exists p', (1 <= p' <= n)%nat /\ l !! (p' - 1)%nat = Some x).
Proof.
  intros [P1 P2 _ P4] Hn. split.
  - intros Hp. replace (p - 1)%nat with (n + (p - 1 - n))%nat by lia. by rewrite <- !lookup_drop, P2.
  - intros x Hp Hx. assert (x ∈ take n l') as Hin.
    { apply list_elem_of_lookup. exists (p - 1)%nat. by rewrite lookup_take_lt by lia. }
    rewrite P1 in Hin. apply list_elem_of_lookup in Hin as [q Hq]. apply lookup_take_Some in Hq as [Hq Hlt]. exists (S q).
    split; [lia|]. by replace (S q - 1)%nat with q by lia.
Qed.

Lemma sorting_step size n array :
  blocks size array -> (1 <= n)%nat -> (S n <= length array)%nat -> sorting (S n) array ->
  exists array', (let! array := do_swap array 1 (S n) size in heapify compare (S n) array 1 n size) = Ok array' /\
    sorting n array' /\ prefix_perm size (S n) array array'.
Proof.
  intros Hb H1 Hn [S1 S2 S3]. rewrite (do_swap_run size) by (done || lia). cbn [rbind].
  set (a1 := exchange (1 - 1) (S n - 1) array). pose proof (exchange_prefix_perm size (S n) 1 (S n) array Hb ltac:(lia) ltac:(lia) Hn) as P1. fold a1 in P1.
  assert (length a1 = length array) as L1 by apply length_exchange.
  assert (forall j p, (1 <= j)%nat -> (1 <= p)%nat -> ord array (sw 1 (S n) j) (sw 1 (S n) p) -> ord a1 j p) as Hex.
  { intros j p Hj Hp. by apply ord_exchange; lia. }
  destruct (heapify_run size 1 n (S n) a1 1) as (a2 & E2 & Hh2 & P2); [apply P1|lia|lia|lia|lia| |].
  { split; [|intros j _ _ Hk; change (1 / 2)%nat with 0%nat in Hk; lia]. intros p j Hp Hp1 Hj Hjn Hne. apply Hex; [unfold child in *; lia|done|].
    unfold sw. rewrite !decide_False by (unfold child in *; lia). apply S1; [done|done|done|lia]. }
  assert (forall a b, (1 <= a <= n)%nat -> (n < b)%nat -> ord a1 a b) as Hsplit.
  { intros a b Ha Hb'. apply Hex; [lia|lia|]. unfold sw. destruct (decide (b = 1%nat)); [lia|]. destruct (decide (b = S n)) as [->|].
    - apply (heap_root (S n)); [lia|done|]. repeat case_decide; lia.
    - apply S3; [repeat case_decide; lia|lia]. }
  assert (forall a b, (n < a)%nat -> (a <= b)%nat -> ord a1 a b) as Hsuf.
  { intros a b Ha Hab. apply Hex; [lia|lia|]. unfold sw. destruct (decide (a = 1%nat)), (decide (b = 1%nat)); [lia..|].
    destruct (decide (a = S n)), (decide (b = S n)); [apply ord_refl|apply S3; lia|lia|apply S2; lia]. }
  exists a2. split_and!; [done| |].
  - split; [done| |].
    + intros a b Ha Hab x y Hx Hy. destruct (prefix_lookup size n a1 a2 a P2) as [Ea _]; [lia|]. destruct (prefix_lookup size n a1 a2 b P2) as [Eb _]; [lia|].
      rewrite Ea in Hx by lia. rewrite Eb in Hy by lia. by apply (Hsuf a b).
    + intros a b Ha Hab x y Hx Hy. destruct (prefix_lookup size n a1 a2 a P2) as [_ Ea]; [lia|]. destruct (prefix_lookup size n a1 a2 b P2) as [Eb _]; [lia|].
      rewrite Eb in Hy by lia. destruct (Ea x Ha Hx) as (a' & Ha' & Hx'). by apply (Hsplit a' b).
  - eapply prefix_perm_trans; [exact P1|]. eapply (prefix_perm_mono size n (S n)), P2; lia.
Qed.

Lemma sort_heap_run size : forall n array,
  blocks size array -> (n <= length array)%nat -> sorting n array ->
  exists array', sort_heap compare n array size = Ok array' /\ sorting (Nat.min n 1) array' /\ prefix_perm size n array array'.
Proof.
  induction n as [|n IH]; intros array Hb Hn Hs; [exists array; split_and!; [done|done|by apply prefix_perm_refl]|].
  destruct n as [|n]; [exists array; split_and!; [done|done|by apply prefix_perm_refl]|].
  destruct (sorting_step size (S n) array Hb ltac:(lia) Hn Hs) as (a1 & E1 & H1 & P1).
  destruct (IH a1) as (a2 & E2 & H2 & P2); [apply P1|rewrite (pp_length _ _ _ _ P1); lia|done|].
  exists a2. split_and!; [|by replace (Nat.min (S (S n)) 1) with (Nat.min (S n) 1) by lia|].
  - revert E1 E2. cbn [sort_heap]. destruct (do_swap array 1 (S (S n)) size) as [a'| | | |]; cbn [rbind]; try done.
    destruct (heapify compare _ a' 1 (S n) size) as [a''| | | |]; cbn [rbind]; try done. by intros [= ->] ->.
  - eapply prefix_perm_trans; [exact P1|]. eapply prefix_perm_mono, P2. lia.
Qed.

Lemma sort_run size array :
  blocks size array -> (0 < size)%nat ->
  exists array', sort compare array (length array) size = Ok array' /\ array' ≡ₚ array /\ blocks size array' /\
    forall i j x y, (i <= j)%nat -> array' !! i = Some x -> array' !! j = Some y -> compare x y <= 0.
Proof.
  intros Hb Hs. unfold sort. rewrite (proj2 (Nat.ltb_lt _ _) Hs). cbn [rassert rbind]. set (n := length array).
  destruct (build_heap_run size n (n / 2) array Hb) as (a1 & E1 & H1 & P1); [apply Nat.div_le_upper_bound; lia|done| |].
  { intros p j Hp _ Hj Hjn. pose proof (Nat.div_mod_eq n 2). pose proof (Nat.mod_upper_bound n 2). unfold child in Hj. lia. }
  rewrite E1. cbn [rbind]. pose proof (pp_length _ _ _ _ P1) as L1.
  destruct (sort_heap_run size n a1) as (a2 & E2 & [T1 T2 T3] & P2); [apply P1|unfold n; lia| |].
  { split; [done| |].
    - intros a b Ha Hab x y Hx. rewrite lookup_ge_None_2 in Hx by (unfold n in *; lia). done.
    - intros a b Ha Hab x y _ Hy. rewrite lookup_ge_None_2 in Hy by (unfold n in *; lia). done. }
  exists a2. pose proof (prefix_perm_trans _ _ _ _ _ P1 P2) as [Q1 _ Q3 Q4]. split_and!; [done| |done|].
  - rewrite !take_ge in Q1 by (unfold n; lia). done.
  - intros i j x y Hij Hx Hy. destruct (decide (i = j)) as [->|]; [rewrite Hx in Hy; injection Hy as ->; apply cmp_refl|].
    pose proof (lookup_lt_Some _ _ _ Hy).
    assert (ord a2 (S i) (S j)) as Ho.
    { destruct (decide (S i <= Nat.min n 1)%nat); [apply T3; lia|apply T2; lia]. }
    apply Ho; [by replace (S i - 1)%nat with i by lia|by replace (S j - 1)%nat with j by lia].
Qed.
End Heap.

(** ** Binary search *)

Section Search.
Context (compare : list Z -> list Z -> Z) `{!Strcmp compare}.

Definition sorted (array : list (list Z)) : Prop :=
  forall i j x y, (i <= j)%nat -> array !! i = Some x -> array !! j = Some y -> compare x y <= 0.

Lemma cmp_below key m y : compare key m < 0 -> compare m y <= 0 -> compare key y < 0.
Proof.
  intros H1 H2. destruct (Z.lt_ge_cases (compare key y) 0) as [|Hge]; [done|]. exfalso.
  assert (compare y key <= 0) as H3. { destruct (Z.le_gt_cases (compare y key) 0); [done|]. assert (compare key y < 0) by (apply cmp_opp; lia). lia. }
  pose proof (cmp_trans m y key H2 H3). assert (0 < compare m key) by by apply cmp_opp. lia.
Qed.

Lemma cmp_above key m y : 0 < compare key m -> compare y m <= 0 -> 0 < compare key y.
Proof.
  intros H1 H2. destruct (Z.lt_ge_cases 0 (compare key y)) as [|Hge]; [done|]. exfalso.
  pose proof (cmp_trans key y m Hge H2). lia.
Qed.

Lemma search_loop_run key array base size : sorted array -> 0 < size -> forall fuel lo hi,
  0 <= lo <= hi -> hi <= Z.of_nat (length array) -> hi - lo < Z.of_nat fuel ->
  (forall i x, array !! i = Some x -> Z.of_nat i < lo -> 0 < compare key x) ->
  (forall i x, array !! i = Some x -> hi <= Z.of_nat i -> compare key x < 0) ->
  (exists i x, search_loop compare fuel key array base (base + size * lo) (base + size * hi) size = Ok (base + size * Z.of_nat i) /\
     array !! i = Some x /\ compare key x = 0) \/
  (search_loop compare fuel key array base (base + size * lo) (base + size * hi) size = Ok NULL /\ forall x, x ∈ array -> compare key x <> 0).
Proof.
  intros Hs Hsz. induction fuel as [|fuel IH]; intros lo hi Hr Hl Hf Hlo Hhi; [lia|]. cbn [search_loop].
  destruct (Z.ltb_spec (base + size * lo) (base + size * hi)) as [Hlt|Hge].
  - assert (lo < hi) by nia. replace (base + size * hi - (base + size * lo)) with ((hi - lo) * size) by lia. rewrite Z.div_mul by lia.
    pose proof (Z.div_mod (hi - lo) 2 ltac:(lia)). pose proof (Z.mod_pos_bound (hi - lo) 2 ltac:(lia)).
    set (mid := lo + (hi - lo) / 2). replace (base + size * lo + (hi - lo) / 2 * size) with (base + size * mid) by (unfold mid; lia).
    replace (base + size * mid - base) with (mid * size) by lia. rewrite Z.div_mul by lia. assert (lo <= mid < hi) as Hm by (unfold mid; lia).
    destruct (lookup_lt_is_Some_2 array (Z.to_nat mid)) as [m Hmid]; [lia|]. rewrite Hmid. cbn [deref rbind].
    destruct (Z.ltb_spec (compare key m) 0) as [Hc|Hc]; [|destruct (Z.ltb_spec 0 (compare key m)) as [Hc'|Hc']].
    + apply IH; [lia|lia|lia|done|]. intros i x Hx Hi. apply (cmp_below key m); [done|]. eapply Hs; [|done|done]. lia.
    + replace (base + size * mid + size) with (base + size * (mid + 1)) by lia. apply IH; [lia|lia|lia| |done].
      intros i x Hx Hi. apply (cmp_above key m); [done|]. eapply Hs; [|done|done]. lia.
    + left. exists (Z.to_nat mid), m. split_and!; [by rewrite Z2Nat.id by lia|done|lia].
  - right. split; [done|]. assert (lo = hi) as -> by nia. intros x Hx. apply list_elem_of_lookup in Hx as [i Hx].
    destruct (Z.lt_ge_cases (Z.of_nat i) hi); [specialize (Hlo i x Hx)|specialize (Hhi i x Hx)]; lia.
Qed.

(** ** Properties *)

(** C39: [sort] and [qsort] return the same elements in ascending order, for
    every array, element size and comparison function that orders its
    elements totally (up to ties); [binary_search] and [bsearch] on the
    result return the address of an element equal to the key exactly when the
    array has one, and null otherwise.  Both always end and access only
    elements of the array. *)
Theorem sort_and_search size array key base :
  blocks size array -> (0 < size)%nat -> 0 < base ->
  exists array', sort compare array (length array) size = Ok array' /\ qsort compare array (length array) size = Ok array' /\
    array' ≡ₚ array /\ sorted array' /\
    exists r, binary_search compare key array' base (Z.of_nat (length array)) (Z.of_nat size) = Ok r /\
      bsearch compare key array' base (Z.of_nat (length array)) (Z.of_nat size) = Ok r /\
      ((exists i x, r = base + Z.of_nat size * Z.of_nat i /\ array' !! i = Some x /\ compare key x = 0) \/
       (r = NULL /\ forall x, x ∈ array -> compare key x <> 0)).
Proof.
  intros Hb Hs H0. destruct (sort_run compare size array Hb Hs) as (a' & E & HP & _ & Hso). exists a'.
  split_and!; [exact E|exact E|exact HP|exact Hso|]. unfold bsearch, binary_search. rewrite <- (Permutation_length HP), Nat2Z.id.
  pose proof (search_loop_run key a' base (Z.of_nat size) Hso ltac:(lia) (S (length a')) 0 (Z.of_nat (length a'))) as Hr.
  rewrite Z.mul_0_r, Z.add_0_r in Hr. destruct Hr as [(i & x & Er & Hx & Hc)|[Er Hn]]; [lia|lia|lia|lia| | |].
  - intros i x Hx Hi. apply lookup_lt_Some in Hx. lia.
  - eexists. split_and!; [exact Er|exact Er|]. left. eauto.
  - eexists. split_and!; [exact Er|exact Er|]. right. split; [done|]. intros x Hx. apply Hn. by rewrite HP.
Qed.
End Search.

(** The order of the first byte. *)
Definition demo_compare (x y : list Z) : Z := nth 0 x 0 - nth 0 y 0.
#[export] Instance demo_strcmp : Strcmp demo_compare.
Proof. unfold demo_compare. split; intros; lia. Qed.

Lemma sort_and_search_witness : exists array',
  sort demo_compare [[3; 9]; [1; 8]; [2; 7]] 3 2 = Ok array' /\ array' = [[1; 8]; [2; 7]; [3; 9]] /\
  exists r, binary_search demo_compare [2; 0] array' 1000 3 2 = Ok r.
Proof.
  destruct (sort_and_search demo_compare 2 [[3; 9]; [1; 8]; [2; 7]] [2; 0] 1000) as (a' & E & _ & _ & _ & r & Er & _).
  - repeat constructor.
  - lia.
  - lia.
  - exists a'. split; [exact E|]. split; [|exists r; exact Er]. revert E. vm_compute. intros [= <-]. reflexivity.
Defined.

(** ** Decimal strings *)

(** The number with the digits [ds]. *)
Definition decimal (ds : list Z) : Z := foldl (fun v c => 10 * v + (c - 48)) 0 ds.

Lemma decimal_snoc ds c : decimal (ds ++ [c]) = 10 * decimal ds + (c - 48).
Proof. unfold decimal. by rewrite foldl_app. Qed.

Lemma digit_step v c : s32 (s32 (s32 (- v) * 10) - (c - 48)) = s32 (- (10 * v + (c - 48))).
Proof.
  apply wraps_eq. rewrite Zminus_mod, wraps_mod, Zmult_mod, wraps_mod, <- Zmult_mod, <- Zminus_mod by lia. f_equal. lia.
Qed.

Lemma parse_digits_run m ds : forall fuel s v rest,
  cstr m s (ds ++ rest) -> Forall (fun c => isdigit c = true) ds -> match rest with [] => True | c :: _ => isdigit c = false end ->
  (length ds < fuel)%nat ->
  parse_digits fuel s (s32 (- v)) m = Ok (s32 (- foldl (fun v c => 10 * v + (c - 48)) v ds), m).
Proof.
  induction ds as [|c ds IH]; intros fuel s v rest Hc Hd Hr Hf; (destruct fuel as [|fuel]; [lia|]); cbn [parse_digits foldl app] in *.
  - destruct rest as [|c rest].
    + by mstep (load_run m s 0 (cstr_nil _ _ Hc)).
    + apply cstr_cons in Hc as (_ & Hb & _). mstep (load_run m s c Hb). by rewrite Hr.
  - apply cstr_cons in Hc as (_ & Hb & Hc). apply Forall_cons in Hd as [Hd1 Hd2]. mstep (load_run m s c Hb). rewrite Hd1, digit_step.
    apply (IH fuel _ _ rest); [done|done|done|cbn in Hf; lia].
Qed.

Lemma skip_space_run m sp : forall fuel s c rest,
  cstr m s (sp ++ c :: rest) -> Forall (fun c => isspace c = true) sp -> isspace c = false -> (length sp < fuel)%nat ->
  skip_space fuel s m = Ok (s + Z.of_nat (length sp), m) /\ cstr m (s + Z.of_nat (length sp)) (c :: rest).
Proof.
  induction sp as [|b sp IH]; intros fuel s c rest Hc Hs Hn Hf; (destruct fuel as [|fuel]; [lia|]); cbn [skip_space app] in *.
  - pose proof Hc as (_ & Hb & _)%cstr_cons. mstep (load_run m s c Hb). rewrite Hn. cbn [length]. by rewrite Z.add_0_r.
  - apply cstr_cons in Hc as (_ & Hb & Hc). apply Forall_cons in Hs as [Hs1 Hs2]. mstep (load_run m s b Hb). rewrite Hs1.
    destruct (IH fuel (s + 1) c rest Hc Hs2 Hn) as [E Hc']; [cbn in Hf; lia|]. cbn [length].
    replace (s + Z.of_nat (S (length sp))) with (s + 1 + Z.of_nat (length sp)) by lia. done.
Qed.

(** The character of a sign, or none. *)
Definition sign_char (neg : option bool) : list Z := match neg with None => [] | Some false => [43] | Some true => [45] end.

Lemma digit_class c : isdigit c = true -> isspace c = false /\ (c =? 43) = false /\ (c =? 45) = false.
Proof.
  unfold isdigit, isspace. intros [H1%Z.leb_le H2%Z.leb_le]%andb_true_iff.
  repeat (rewrite (proj2 (Z.eqb_neq _ _)) by lia). done.
Qed.

(** [atoi] of optional white space, an optional sign and digits: the number,
    wrapped to 32 bits, whatever follows the digits. *)
Lemma atoi_run fuel m s sp neg d ds rest :
  cstr m s (sp ++ sign_char neg ++ d :: ds ++ rest) -> Forall (fun c => isspace c = true) sp ->
  Forall (fun c => isdigit c = true) (d :: ds) -> match rest with [] => True | c :: _ => isdigit c = false end ->
  (length sp + length ds + 1 < fuel)%nat ->
  atoi fuel s m = Ok (s32 (if neg is Some true then - decimal (d :: ds) else decimal (d :: ds)), m).
Proof.
  intros Hc Hs Hd Hr Hf. pose proof Hc as (H0 & _). unfold atoi. rewrite (nonnull s H0). mnorm.
  assert (Forall (fun c => isdigit c = true) (d :: ds)) as Hd' by done. apply Forall_cons in Hd' as [Hd1 _].
  destruct (digit_class d Hd1) as (C1 & C2 & C3).
  assert (exists c t, sign_char neg ++ d :: ds ++ rest = c :: t /\ isspace c = false) as (c & t & Et & Hsp) by (destruct neg as [[]|]; cbn; eauto).
  rewrite Et in Hc. destruct (skip_space_run m sp fuel s c t Hc Hs Hsp ltac:(lia)) as [E Hc']. mstep E.
  set (s1 := s + Z.of_nat (length sp)) in *. pose proof Hc' as (_ & Hb & Hc2)%cstr_cons. mstep (load_run m s1 c Hb).
  assert (forall s2, cstr m s2 (d :: ds ++ rest) -> parse_digits fuel s2 0 m = Ok (s32 (- decimal (d :: ds)), m)) as Hp.
  { intros s2 H2. apply (parse_digits_run m (d :: ds) fuel s2 0 rest); [done|done|done|cbn; lia]. }
  assert (s32 (- s32 (- decimal (d :: ds))) = s32 (decimal (d :: ds))) as Hneg by (rewrite wraps_opp by lia; f_equal; lia).
  destruct neg as [[]|]; cbn [sign_char app] in Et; injection Et as <- <-.
  - change (45 =? 43) with false. change (45 =? 45) with true. cbv iota. by mstep (Hp (s1 + 1) Hc2).
  - change (43 =? 43) with true. cbv iota. mstep (Hp (s1 + 1) Hc2). cbn [negb]. by rewrite Hneg.
  - rewrite C2, C3. mstep (Hp s1 Hc'). cbn [negb]. by rewrite Hneg.
Qed.
