(* ===== verification/Init.v ===== *)
(** * The kernel command line (threads/init.c)

    The words that the loader leaves in the boot sector, the options and the
    actions.  Memory and strings are those of CString.v. *)

From Stdlib Require Import String Ascii.
From S2P Require Import Prelude Bitmap CString CStdlib Random.
Local Open Scope string_scope.
Local Open Scope Z_scope.
Local Notation length := List.length.

(** The characters of a string literal. *)
Definition codes (s : string) : list Z := (fun a => Z.of_nat (nat_of_ascii a)) <$> list_ascii_of_string s.

(** ** State *)

Definition LOADER_PHYS : Z := 0x8004000000.
Definition LOADER_SIG_LEN : Z := 2.
Definition LOADER_ARGS_LEN : Z := 128.
Definition LOADER_ARG_CNT_LEN : Z := 4.
Definition LOADER_SIG : Z := 0x7e00 - LOADER_SIG_LEN.
Definition LOADER_ARGS : Z := LOADER_SIG - LOADER_ARGS_LEN.
Definition LOADER_ARG_CNT : Z := LOADER_ARGS - LOADER_ARG_CNT_LEN.
(** [ptov] of an address of the boot sector. *)
Definition at_phys (paddr : Z) : Z := LOADER_PHYS + paddr.

(** The variables that options set; [rng] is the state of lib/random.c. *)
Record options := Options {
  format_filesys : bool; power_off_when_done : bool; thread_mlfqs : bool; thread_tests : bool; user_page_limit : Z; rng : prng }.
(** [argv] is the array of [read_command_line], [out] what has been printed. *)
Record bstate := BState { bmem : mem; argv : list Z; out : list Z; opts : options }.
Definition ARGV_LEN : Z := LOADER_ARGS_LEN / 2 + 1.

Definition on_mem {A} (f : M mem A) : M bstate A := fun s => let! (a, m) := f (bmem s) in Ok (a, BState m (argv s) (out s) (opts s)).
Definition set_argv (l : list Z) (s : bstate) := BState (bmem s) l (out s) (opts s).
Definition set_opts (o : options) (s : bstate) := BState (bmem s) (argv s) (out s) o.
Definition print (l : list Z) : M bstate unit := modify (fun s => BState (bmem s) (argv s) (out s ++ l)%list (opts s)).
Definition newline : list Z := [10].

Definition get_argv (i : Z) : M bstate Z := s ← get; if 0 <=? i then lift (deref (argv s !! Z.to_nat i)) else lift Fault.
Definition put_argv (i p : Z) : M bstate unit := s ← get; if (0 <=? i) && (i <? Z.of_nat (length (argv s))) then modify (set_argv (<[Z.to_nat i := p]> (argv s))) else lift Fault.

Section Init.
(** Fuel for the string functions, and the addresses of string literals. *)
Context (fuel : nat) (lit : string -> Z).

(** ** bss_init *)

Definition bss_init (start_bss end_bss : Z) : M bstate Z := on_mem (memset start_bss 0 (end_bss - start_bss)).

(** ** read_command_line *)

(** The [uint32_t] at [a]. *)
Definition load32 (a : Z) : M mem Z :=
  b0 ← load a; b1 ← load (a + 1); b2 ← load (a + 2); b3 ← load (a + 3); ret (b0 + 256 * (b1 + 256 * (b2 + 256 * b3))).

(** Each round advances [p], so that 129 rounds reach [end]. *)
Fixpoint read_loop (n : nat) (argc i p endp : Z) : M bstate Z :=
  match n with
  | O => out_of_fuel
  | S n =>
      if i <? argc then
        if endp <=? p then lift Panic
        else
          put_argv i p;;
          l ← on_mem (strnlen fuel p (endp - p));
          read_loop n argc (i + 1) (p + (l + 1)) endp
      else ret p
  end.

(** What [%s] prints. *)
Fixpoint string_at (n : nat) (p : Z) : M mem (list Z) :=
  match n with
  | O => out_of_fuel
  | S n => c ← load p; if c =? 0 then ret [] else l ← string_at n (p + 1); ret (c :: l)
  end.
Fixpoint print_loop (n : nat) (i : Z) : M bstate unit :=
  match n with
  | O => ret tt
  | S n =>
      p ← get_argv i;
      blank ← on_mem (strchr fuel p 32);
      w ← on_mem (string_at fuel p);
      (if blank =? NULL then print (codes " " ++ w) else print (codes " '" ++ w ++ codes "'"));;
      print_loop n (i + 1)
  end.

Definition read_command_line : M bstate unit :=
  c ← on_mem (load32 (at_phys LOADER_ARG_CNT));
  let argc := s32 c in
  let p := at_phys LOADER_ARGS in
  let endp := p + LOADER_ARGS_LEN in
  read_loop 130 argc 0 p endp;;
  put_argv argc NULL;;
  print (codes "Kernel command line:");;
  print_loop (Z.to_nat argc) 0;;
  print newline.

(** ** parse_options *)

Definition streq (name : Z) (s : string) : M bstate bool := r ← on_mem (strcmp fuel name (lit s)); ret (r =? 0).

Definition usage_text : string :=
"
Command line syntax: [OPTION...] [ACTION...]
Options must precede actions.
Actions are executed in the order specified.

Available actions:
  run 'PROG [ARG...]' Run PROG and wait for it to complete.
  ls                 List files in the root directory.
  cat FILE           Print FILE to the console.
  rm FILE            Delete FILE.
Use these actions indirectly via `pintos' -g and -p options:
  put FILE           Put FILE into file system from scratch disk.
  get FILE           Get FILE from file system into scratch disk.

Options:
  -h                 Print this help message and power off.
  -q                 Power off VM after actions or on panic.
  -f                 Format file system disk during startup.
  -rs=SEED           Set random number seed to SEED.
  -mlfqs             Use multi-level feedback queue scheduler.
  -ul=COUNT          Limit user memory to COUNT pages.
".
(** [usage] powers the machine off and does not return. *)
Definition usage : M bstate unit := print (codes usage_text).

Definition with_power_off (o : options) := Options (format_filesys o) true (thread_mlfqs o) (thread_tests o) (user_page_limit o) (rng o).
Definition with_format (o : options) := Options true (power_off_when_done o) (thread_mlfqs o) (thread_tests o) (user_page_limit o) (rng o).
Definition with_mlfqs (o : options) := Options (format_filesys o) (power_off_when_done o) true (thread_tests o) (user_page_limit o) (rng o).
Definition with_tests (o : options) := Options (format_filesys o) (power_off_when_done o) (thread_mlfqs o) true (user_page_limit o) (rng o).
Definition with_limit (n : Z) (o : options) := Options (format_filesys o) (power_off_when_done o) (thread_mlfqs o) (thread_tests o) n (rng o).
Definition with_rng (r : prng) (o : options) := Options (format_filesys o) (power_off_when_done o) (thread_mlfqs o) (thread_tests o) (user_page_limit o) r.
Definition on_opts (f : options -> options) : M bstate unit := modify (fun s => set_opts (f (opts s)) s).
Definition on_rng {A} (f : M prng A) : M bstate A := fun s => let! (a, r) := f (rng (opts s)) in Ok (a, set_opts (with_rng r (opts s)) s).

(** The chain of comparisons; the result is false when the machine has been
    powered off. *)
Definition set_option (name value : Z) : M bstate bool :=
  b ← streq name "-h"; if b then usage;; ret false else
  b ← streq name "-q"; if b then on_opts with_power_off;; ret true else
  b ← streq name "-f"; if b then on_opts with_format;; ret true else
  b ← streq name "-rs"; if b then n ← on_mem (atoi fuel value); on_rng (random_init n);; ret true else
  b ← streq name "-mlfqs"; if b then on_opts with_mlfqs;; ret true else
  b ← streq name "-ul"; if b then n ← on_mem (atoi fuel value); on_opts (with_limit (u64 n));; ret true else
  b ← streq name "-threads-tests"; if b then on_opts with_tests;; ret true else
  lift Panic.

(** The index of the first argument that is not an option; [None] when the
    machine has been powered off. *)
Fixpoint parse_options (n : nat) (i : Z) : M bstate (option Z) :=
  match n with
  | O => out_of_fuel
  | S n =>
      p ← get_argv i;
      if p =? NULL then ret (Some i)
      else
        c ← on_mem (load p);
        if c =? 45 then
          name ← on_mem (strtok_r fuel p (lit "=") NULL);
          value ← on_mem (strtok_r fuel NULL (lit "") name.2);
          on ← set_option name.1 value.1;
          if on then parse_options n (i + 1) else ret None
        else ret (Some i)
  end.

(** ** run_actions *)

(** The actions and their number of arguments, the name included. *)
Definition actions : list (string * nat) := [("run", 2%nat); ("ls", 1%nat); ("cat", 2%nat); ("rm", 2%nat); ("put", 2%nat); ("get", 2%nat)].

Fixpoint find_action (l : list (string * nat)) (p : Z) : M bstate (string * nat) :=
  match l with
  | [] => lift Panic
  | a :: l => b ← streq p a.1; if b then ret a else find_action l p
  end.
(** [for (i = 1; i < a->argc; i++)]: [n] rounds are left. *)
Fixpoint check_args (n : nat) (i : Z) : M bstate unit :=
  match n with
  | O => ret tt
  | S n => p ← get_argv i; if p =? NULL then lift Panic else check_args n (i + 1)
  end.

(** [call name i] is the function of the action on the arguments from [i] on. *)
Context (call : string -> Z -> M bstate unit).
Fixpoint run_actions (n : nat) (i : Z) : M bstate unit :=
  match n with
  | O => out_of_fuel
  | S n =>
      p ← get_argv i;
      if negb (p =? NULL) then
        a ← find_action actions p;
        check_args (a.2 - 1) (i + 1);;
        call a.1 i;;
        run_actions n (i + Z.of_nat a.2)
      else ret tt
  end.

(** [run_task]: [run_test] and [execute] (a new process that is waited for) are
    given the task. *)
Definition run_task (run_test execute : Z -> M bstate unit) (i : Z) : M bstate unit :=
  task ← get_argv (i + 1);
  w ← on_mem (string_at fuel task);
  print (codes "Executing '" ++ w ++ codes "':" ++ newline);;
  s ← get;
  (if thread_tests (opts s) then run_test task else execute task);;
  w ← on_mem (string_at fuel task);
  print (codes "Execution of '" ++ w ++ codes "' complete." ++ newline).

(** The part of [main] that deals with the command line; the initialisation of
    the components, between the second and the third step, is that of their
    models.  The result is false when the machine has been powered off. *)
Definition command_line : M bstate bool :=
  read_command_line;;
  r ← parse_options 66 0;
  match r with
  | None => ret false
  | Some i => run_actions 66 i;; ret true
  end.

End Init.
