(* ===== verification/InitSpec.v ===== *)
(** * Theorems on the kernel command line (threads/init.c) *)

From Stdlib Require Import String Ascii.
From S2P Require Import Prelude Bitmap CString CStdlib Random Init.
Local Open Scope string_scope.
Local Open Scope list_scope.
Local Open Scope Z_scope.
Local Notation length := List.length.

(** ** Words in memory *)

Definition word (w : list Z) : Prop := Forall (fun b => 0 < b < 256) w.
(** The words one after the other, each with its terminator. *)
Fixpoint encode (ws : list (list Z)) : list Z := match ws with [] => [] | w :: ws => w ++ 0 :: encode ws end.
Fixpoint offsets (p : Z) (ws : list (list Z)) : list Z := match ws with [] => [] | w :: ws => p :: offsets (p + Z.of_nat (length w) + 1) ws end.
Definition size (ws : list (list Z)) : Z := Z.of_nat (length (encode ws)).
Definition words_at (m : mem) (p : Z) (ws : list (list Z)) : Prop := 0 < p /\ Forall word ws /\ bytes_at m p (encode ws).

Lemma size_cons w ws : size (w :: ws) = Z.of_nat (length w) + 1 + size ws.
Proof. unfold size. cbn [encode]. rewrite length_app. cbn [length]. lia. Qed.
Lemma size_nonneg ws : Z.of_nat (length ws) <= size ws.
Proof. induction ws as [|w ws IH]; [done|]. rewrite size_cons. cbn [length]. lia. Qed.

Lemma words_at_cons m p w ws : words_at m p (w :: ws) -> cstr m p w /\ words_at m (p + Z.of_nat (length w) + 1) ws.
Proof.
  intros (Hp & [Hw Hws]%Forall_cons & Hb). cbn [encode] in Hb. change (w ++ 0 :: encode ws) with (w ++ [0] ++ encode ws) in Hb. rewrite app_assoc in Hb. apply bytes_at_app in Hb as [Hb1 Hb2].
  split; [done|]. split; [lia|]. split; [done|]. rewrite length_app in Hb2. cbn [length] in Hb2. by replace (p + Z.of_nat (length w) + 1) with (p + Z.of_nat (length w + 1)) by lia.
Qed.

Lemma length_offsets p ws : length (offsets p ws) = length ws.
Proof. revert p. induction ws as [|w ws IH]; intros p; cbn; [done|]. by rewrite IH. Qed.

(** [l] stands in the array from index [i] on. *)
Definition holds (arr : list Z) (i : nat) (l : list Z) : Prop := forall j x, l !! j = Some x -> arr !! (i + j)%nat = Some x.

Lemma holds_cons arr i x l : holds arr i (x :: l) <-> arr !! i = Some x /\ holds arr (S i) l.
Proof.
  split.
  - intros H. split; [rewrite <- (H 0%nat x eq_refl); f_equal; lia|]. intros j y Hy. rewrite <- (H (S j) y Hy). f_equal. lia.
  - intros [H1 H2] [|j] y Hy; cbn in Hy; [injection Hy as <-; by rewrite Nat.add_0_r|]. rewrite <- (H2 j y Hy). f_equal. lia.
Qed.

Lemma on_mem_run {A} (f : M mem A) s a m : f (bmem s) = Ok (a, m) -> on_mem f s = Ok (a, BState m (argv s) (out s) (opts s)).
Proof. unfold on_mem. by intros ->. Qed.
Lemma on_mem_pure {A} (f : M mem A) s a : f (bmem s) = Ok (a, bmem s) -> on_mem f s = Ok (a, s).
Proof. unfold on_mem. intros ->. by destruct s. Qed.

Lemma get_argv_run i x s : argv s !! i = Some x -> get_argv (Z.of_nat i) s = Ok (x, s).
Proof. intros H. unfold get_argv. mnorm. rewrite (proj2 (Z.leb_le _ _)) by lia. by rewrite Nat2Z.id, H. Qed.
Lemma put_argv_run i p s : (i < length (argv s))%nat -> put_argv (Z.of_nat i) p s = Ok (tt, set_argv (<[i := p]> (argv s)) s).
Proof. intros H. unfold put_argv. mnorm. rewrite (proj2 (Z.leb_le _ _)), (proj2 (Z.ltb_lt _ _)) by lia. cbn [andb]. by rewrite Nat2Z.id. Qed.
Lemma put_argv_out i p s : Z.of_nat (length (argv s)) <= i \/ i < 0 -> put_argv i p s = Fault.
Proof. intros H. unfold put_argv. mnorm. assert ((0 <=? i) && (i <? Z.of_nat (length (argv s))) = false) as ->; [|done]. apply andb_false_iff. rewrite Z.leb_gt, Z.ltb_ge. lia. Qed.

Lemma string_at_run m : forall n p w, cstr m p w -> (length w < n)%nat -> string_at n p m = Ok (w, m).
Proof.
  induction n as [|n IH]; intros p [|x w] Hc Hn; cbn [length string_at] in *; try lia.
  - by mstep (load_run _ _ _ (cstr_nil _ _ Hc)).
  - apply cstr_cons in Hc as (Hx & H1 & H2). mstep (load_run _ _ _ H1). rewrite (proj2 (Z.eqb_neq _ _)) by lia. by mstep (IH (p + 1) w H2 ltac:(lia)).
Qed.

(** ** Numbers *)

Fixpoint drop_spaces (l : list Z) : list Z := match l with [] => [] | x :: t => if isspace x then drop_spaces t else l end.
Fixpoint digits (l : list Z) : list Z := match l with [] => [] | x :: t => if isdigit x then x :: digits t else [] end.
(** What [atoi] makes of a string: the digits after white space and a sign. *)
Definition number (l : list Z) : Z :=
  match drop_spaces l with
  | c :: t => if c =? 43 then s32 (decimal (digits t)) else if c =? 45 then s32 (- decimal (digits t)) else s32 (decimal (digits (c :: t)))
  | [] => 0
  end.

Lemma digits_rest l : exists rest, l = digits l ++ rest /\ Forall (fun c => isdigit c = true) (digits l) /\ match rest with [] => True | c :: _ => isdigit c = false end.
Proof.
  induction l as [|x l (rest & E & Hd & Hr)]; [by exists []|]. cbn [digits]. destruct (isdigit x) eqn:Ex.
  - exists rest. cbn. rewrite <- E. split; [done|]. split; [by constructor|done].
  - exists (x :: l). by split.
Qed.

Lemma skip_space_any m : forall n s l, cstr m s l -> (length l < n)%nat -> exists s', skip_space n s m = Ok (s', m) /\ cstr m s' (drop_spaces l).
Proof.
  induction n as [|n IH]; intros s [|x l] Hc Hn; cbn [length skip_space drop_spaces] in *; try lia.
  - mstep (load_run _ _ _ (cstr_nil _ _ Hc)). by exists s.
  - pose proof Hc as (Hx & H1 & H2)%cstr_cons. mstep (load_run _ _ _ H1). destruct (isspace x); [apply IH; [done|lia]|]. by exists s.
Qed.

Lemma digits_any m n s l : cstr m s l -> (length l < n)%nat -> parse_digits n s 0 m = Ok (s32 (- decimal (digits l)), m).
Proof.
  intros Hc Hn. destruct (digits_rest l) as (rest & E & Hd & Hr). pose proof (f_equal length E) as El. rewrite length_app in El. rewrite E in Hc.
  apply (parse_digits_run m (digits l) n s 0 rest); [done|done|done|lia].
Qed.

Section Spec.
Context (fuel : nat) (Hfuel : (130 <= fuel)%nat).

(** ** Reading the words *)

Lemma read_loop_run argc endp ws : forall n i p s, words_at (bmem s) p ws -> (i + length ws <= length (argv s))%nat -> Z.of_nat i + Z.of_nat (length ws) <= argc -> p + size ws <= endp -> endp <= p + 128 -> (length ws < n)%nat ->
  exists arr n', read_loop fuel n argc (Z.of_nat i) p endp s = read_loop fuel n' argc (Z.of_nat (i + length ws)) (p + size ws) endp (set_argv arr s) /\
    n = (length ws + n')%nat /\ length arr = length (argv s) /\ holds arr i (offsets p ws) /\ forall k, (k < i)%nat -> arr !! k = argv s !! k.
Proof using Hfuel.
  induction ws as [|w ws IH]; intros n i p s Hw Hi Ha Hp He Hn.
  - exists (argv s), n. cbn [length size encode offsets]. rewrite Nat.add_0_r. change (size []) with 0. rewrite Z.add_0_r. split; [by destruct s|]. split; [done|]. split; [done|]. split; [by intros ? ?|done].
  - destruct n as [|n]; [cbn in Hn; lia|]. apply words_at_cons in Hw as [Hc Hw]. rewrite size_cons in *. cbn [length] in *. pose proof (size_nonneg ws). cbn [read_loop].
    rewrite (proj2 (Z.ltb_lt _ _)), (proj2 (Z.leb_gt _ _)) by lia. mstep (put_argv_run i p s ltac:(lia)).
    assert (on_mem (strnlen fuel p (endp - p)) (set_argv (<[i := p]> (argv s)) s) = Ok (Z.of_nat (length w), set_argv (<[i := p]> (argv s)) s)) as El.
    { apply on_mem_pure. unfold strnlen. change 0 with (Z.of_nat 0) at 1. rewrite (strnlen_loop_spec fuel _ p 0 w); [|by rewrite Z.add_0_r|lia|lia]. cbn [bmem set_argv]. do 2 f_equal. lia. }
    mstep El. destruct (IH n (S i) (p + Z.of_nat (length w) + 1) (set_argv (<[i := p]> (argv s)) s)) as (arr & n' & E & En & La & Hh & Hk); [done|cbn; rewrite length_insert; lia|lia|lia|lia|lia|].
    exists arr, n'. replace (Z.of_nat i + 1) with (Z.of_nat (S i)) by lia. replace (p + (Z.of_nat (length w) + 1)) with (p + Z.of_nat (length w) + 1) by lia.
    split; [rewrite E; f_equal; lia|]. split; [lia|]. split; [rewrite La; cbn; apply length_insert|]. split.
    + cbn [offsets]. apply holds_cons. split; [|done]. rewrite Hk by lia. cbn. apply list_lookup_insert_eq. lia.
    + intros k Hki. rewrite Hk by lia. cbn. apply list_lookup_insert_ne. lia.
Qed.

(** ** Printing them *)

(** How a word is printed. *)
Definition shown (w : list Z) : list Z := if mem_of w 32 then codes " '" ++ w ++ codes "'" else codes " " ++ w.
Fixpoint line (ws : list (list Z)) : list Z := match ws with [] => [] | w :: ws => shown w ++ line ws end.

Lemma print_loop_run ws : forall i p s, words_at (bmem s) p ws -> size ws <= 128 -> holds (argv s) i (offsets p ws) ->
  print_loop fuel (length ws) (Z.of_nat i) s = Ok (tt, BState (bmem s) (argv s) (out s ++ line ws) (opts s)).
Proof using Hfuel.
  induction ws as [|w ws IH]; intros i p s Hw Hs Hh; cbn [length print_loop line].
  - rewrite app_nil_r. by destruct s.
  - apply words_at_cons in Hw as [Hc Hw]. rewrite size_cons in Hs. pose proof (size_nonneg ws). cbn [offsets] in Hh. apply holds_cons in Hh as [Hi Hh].
    mstep (get_argv_run i p s Hi). destruct (strchr_test fuel (bmem s) p w 32 Hc ltac:(lia) ltac:(split; lia)) as (b & Eb & Hb). mstep (on_mem_pure _ s b Eb).
    mstep (on_mem_pure _ s w (string_at_run (bmem s) fuel p w Hc ltac:(lia))). rewrite Hb, mem_of_nonzero by lia.
    replace (Z.of_nat i + 1) with (Z.of_nat (S i)) by lia.
    assert (forall l, print_loop fuel (length ws) (Z.of_nat (S i)) (BState (bmem s) (argv s) (out s ++ l) (opts s)) = Ok (tt, BState (bmem s) (argv s) ((out s ++ l) ++ line ws) (opts s))) as IH'.
    { intros l. by apply (IH (S i) (p + Z.of_nat (length w) + 1) (BState (bmem s) (argv s) (out s ++ l) (opts s))); [|lia|]. }
    unfold shown, print. destruct (mem_of w 32); cbn [negb]; mnorm; rewrite IH'; by rewrite <- !app_assoc.
Qed.

(** ** Splitting options *)

Fixpoint before (c : Z) (l : list Z) : list Z := match l with [] => [] | x :: l => if x =? c then [] else x :: before c l end.
Fixpoint after (c : Z) (l : list Z) : list Z := match l with [] => [] | x :: l => if x =? c then l else after c l end.

Lemma split_at c tok rest : Forall (fun x => mem_of [c] x = false) tok -> (forall x r, rest = x :: r -> mem_of [c] x = true) ->
  before c (tok ++ rest) = tok /\ after c (tok ++ rest) = tail rest.
Proof using Type.
  intros Ht Hr. assert (forall x, mem_of [c] x = (x =? c)) as Hm.
  { intros x. unfold mem_of. destruct (Z.eqb_spec x c) as [->|Hn]; [apply bool_decide_true; by left|apply bool_decide_false]. intros Hin. by apply list_elem_of_singleton in Hin. }
  induction Ht as [|x tok Hx _ IH]; cbn [app before after].
  - destruct rest as [|x r]; [done|]. specialize (Hr x r eq_refl). rewrite Hm in Hr. cbn. by rewrite Hr.
  - rewrite Hm in Hx. rewrite Hx. destruct IH as [-> ->]. done.
Qed.

Lemma first_token m s x l e : cstr m s (x :: l) -> (length (x :: l) < fuel)%nat -> x <> 61 -> cstr m e [61] ->
  exists q m', strtok_r fuel s e NULL m = Ok ((s, q), m') /\ cstr m' s (before 61 (x :: l)) /\ cstr m' q (after 61 (x :: l)) /\
    unchanged_outside m m' s (length (x :: l)) /\ s <= q /\ q + Z.of_nat (length (after 61 (x :: l))) = s + Z.of_nat (length (x :: l)).
Proof using Hfuel.
  intros Hc Hf Hx He. unfold strtok_r. rewrite nonnull by apply He. mnorm. assert (s =? NULL = false) as -> by (apply Z.eqb_neq; destruct Hc; unfold NULL; lia).
  rewrite nonnull by apply Hc. mnorm.
  destruct (skip_delimiters_spec fuel m s e fuel (x :: l) [61] Hc Hf He ltac:(cbn; lia)) as (pre & rest & Epr & Hpre & Hrest & E).
  assert (pre = []) as ->.
  { destruct pre as [|y pre]; [done|]. injection Epr as <- _. apply Forall_cons in Hpre as [Hy _]. unfold mem_of in Hy. apply bool_decide_eq_true, list_elem_of_singleton in Hy. done. }
  cbn [app length] in Epr, E. subst rest. rewrite Z.add_0_r in E. mstep E. rewrite bool_decide_false by done.
  destruct (skip_token_spec fuel m s e fuel (x :: l) [61] Hc Hf He ltac:(cbn; lia)) as (tok & rest' & Etr & Htok & Hrest' & E2). mstep E2.
  destruct (split_at 61 tok rest' Htok Hrest') as [Hb Ha]. rewrite Etr, Hb, Ha. rewrite Etr in Hc. pose proof (cstr_app _ _ _ _ Hc) as Hr. set (q := s + Z.of_nat (length tok)) in *. rewrite length_app.
  destruct rest' as [|y r]; cbn [length tail].
  - mstep (load_run _ _ _ (cstr_nil _ _ Hr)). exists q, m. rewrite app_nil_r in Hc. split; [done|]. split; [done|]. split; [done|]. split; [by intros z|]. unfold q. lia.
  - pose proof Hr as Hr2. apply cstr_cons in Hr2 as (Hy & H1 & H2). mstep (load_run _ _ _ H1). rewrite (proj2 (Z.eqb_neq y 0)) by lia. cbn [negb]. mstep (store_run m q 0 ltac:(by exists y)).
    assert (unchanged_outside m (upd m q 0) q 1) as U. { intros z Hz. unfold upd. destruct (Z.eqb_spec z q); [lia|done]. }
    exists (q + 1), (upd m q 0). split; [done|]. split; [|split; [|split; [|unfold q; lia]]].
    + destruct Hc as (Hp & Hfa & Hbt). rewrite <- app_assoc in Hbt. apply bytes_at_app in Hbt as [Hbt _]. apply Forall_app in Hfa as [Hfa _]. split; [done|]. split; [done|]. apply bytes_at_app. split.
      * apply (bytes_at_frame m _ q 1); [done|done|unfold q; lia].
      * apply bytes_at_cons. split; [|apply bytes_at_nil]. fold q. unfold upd. by rewrite Z.eqb_refl.
    + apply (cstr_frame m _ q 1); [done|done|lia].
    + intros z Hz. unfold upd. destruct (Z.eqb_spec z q); [unfold q in *; lia|done].
Qed.

(** The value is all that follows, or null when nothing does. *)
Lemma second_token m q l e : cstr m q l -> (length l < fuel)%nat -> cstr m e [] ->
  exists r, strtok_r fuel NULL e q m = Ok ((if bool_decide (l = []) then NULL else q, r), m).
Proof using Hfuel.
  intros Hc Hf He. unfold strtok_r. rewrite nonnull by apply He. mnorm. cbn [Z.eqb NULL]. rewrite nonnull by apply Hc. mnorm.
  destruct (skip_delimiters_spec fuel m q e fuel l [] Hc Hf He ltac:(cbn; lia)) as (pre & rest & -> & Hpre & Hrest & E).
  assert (pre = []) as -> by (destruct pre as [|y pre]; [done|]; by apply Forall_cons in Hpre as [Hy _]). cbn [app length] in *. rewrite Z.add_0_r in E. mstep E.
  case_bool_decide as Hr; [by eexists|].
  destruct (skip_token_spec fuel m q e fuel rest [] Hc Hf He ltac:(cbn; lia)) as (tok & rest' & Etr & Htok & Hrest' & E2). mstep E2.
  destruct rest' as [|y r]; [|by specialize (Hrest' y r eq_refl)]. rewrite app_nil_r in Etr. subst tok.
  pose proof (cstr_app m q rest []) as H0. rewrite app_nil_r in H0. mstep (load_run _ _ _ (cstr_nil _ _ (H0 Hc))). by eexists.
Qed.

Lemma atoi_any m s l : cstr m s l -> (length l < fuel)%nat -> atoi fuel s m = Ok (number l, m).
Proof using Hfuel.
  intros Hc Hf. unfold atoi. rewrite nonnull by apply Hc. mnorm. destruct (skip_space_any m fuel s l Hc Hf) as (s' & E & Hs). mstep E. unfold number.
  assert (length (drop_spaces l) <= length l)%nat as Hle. { clear. induction l as [|x l IH]; cbn; [done|]. destruct (isspace x); cbn; lia. }
  assert (forall k, s32 (- s32 (- k)) = s32 k) as Hneg by (intros k; rewrite wraps_opp by lia; f_equal; lia).
  destruct (drop_spaces l) as [|c t]; cbn [length] in Hle.
  - mstep (load_run _ _ _ (cstr_nil _ _ Hs)). cbn [Z.eqb]. mstep (digits_any m fuel s' [] Hs ltac:(cbn; lia)). done.
  - pose proof Hs as (Hc0 & H1 & H2)%cstr_cons. mstep (load_run _ _ _ H1). destruct (Z.eqb_spec c 43) as [->|H43].
    + mstep (digits_any m fuel (s' + 1) t H2 ltac:(lia)). cbn [negb]. by rewrite Hneg.
    + destruct (Z.eqb_spec c 45) as [->|H45].
      * mstep (digits_any m fuel (s' + 1) t H2 ltac:(lia)). done.
      * mstep (digits_any m fuel s' (c :: t) Hs ltac:(cbn; lia)). cbn [negb]. by rewrite Hneg.
Qed.

(** ** Options *)

Context (lit : string -> Z) (lo hi : Z).
Definition literals : list string := ["="; ""; "-h"; "-q"; "-f"; "-rs"; "-mlfqs"; "-ul"; "-threads-tests"; "run"; "ls"; "cat"; "rm"; "put"; "get"]%string.
(** The string literals are in memory, away from the command line. *)
Definition lits_at (m : mem) : Prop := Forall (fun x => cstr m (lit x) (codes x) /\ (lit x + Z.of_nat (length (codes x)) < lo \/ hi <= lit x)) literals.

Lemma lits_frame m m' a n : lits_at m -> unchanged_outside m m' a n -> lo <= a -> a + Z.of_nat n <= hi -> lits_at m'.
Proof using Type.
  clear Hfuel. intros H U H1 H2. eapply Forall_impl; [exact H|]. cbn. intros x [Hc Hd]. split; [|done]. apply (cstr_frame m m' a n _ _ U Hc). lia.
Qed.

Lemma streq_run s p w x : cstr (bmem s) p w -> lits_at (bmem s) -> x ∈ literals -> (length w < fuel)%nat ->
  streq fuel lit p x s = Ok (bool_decide (w = codes x), s).
Proof using Type.
  intros Hw Hl Hx Hf. destruct (proj1 (Forall_forall _ _) Hl x Hx) as [Hc _]. destruct (strcmp_spec fuel (bmem s) p (lit x) w (codes x) Hw Hc Hf) as (r & E & Hr).
  unfold streq. mstep (on_mem_pure _ s r E). unfold ret. do 2 f_equal. destruct Hr as [[-> ->]|[[-> Hlt]|[-> Hlt]]].
  - by rewrite bool_decide_true.
  - rewrite bool_decide_false; [done|]. intros ->. by apply lex_lt_irrefl in Hlt.
  - rewrite bool_decide_false; [done|]. intros ->. by apply lex_lt_irrefl in Hlt.
Qed.

(** What an option does; [None]: the machine is powered off. *)
Definition effect (name value : list Z) (o : options) : result (option options) :=
  if bool_decide (name = codes "-h") then Ok None
  else if bool_decide (name = codes "-q") then Ok (Some (with_power_off o))
  else if bool_decide (name = codes "-f") then Ok (Some (with_format o))
  else if bool_decide (name = codes "-rs") then if bool_decide (value = []) then Panic else let! (_, r) := random_init (number value) (rng o) in Ok (Some (with_rng r o))
  else if bool_decide (name = codes "-mlfqs") then Ok (Some (with_mlfqs o))
  else if bool_decide (name = codes "-ul") then if bool_decide (value = []) then Panic else Ok (Some (with_limit (u64 (number value)) o))
  else if bool_decide (name = codes "-threads-tests") then Ok (Some (with_tests o))
  else Panic.

Ltac literal := match goal with |- context [bind (streq _ _ ?p ?x) _ ?s] => erewrite (bind_ok (streq _ _ p x)) by (eapply streq_run; [eassumption|eassumption|set_solver|eassumption]); cbv beta end.

Lemma set_option_run s p v w x : cstr (bmem s) p w -> lits_at (bmem s) -> (length w < fuel)%nat -> cstr (bmem s) v x -> (length x < fuel)%nat ->
  set_option fuel lit p (if bool_decide (x = []) then NULL else v) s =
    let! r := effect w x (opts s) in Ok (match r with None => (false, BState (bmem s) (argv s) (out s ++ codes usage_text) (opts s)) | Some o => (true, set_opts o s) end).
Proof using Hfuel.
  intros Hw Hl Hf Hx Hfx. unfold set_option, effect.
  assert (forall k : Z -> M bstate bool, bind (on_mem (atoi fuel (if bool_decide (x = []) then NULL else v))) k s = if bool_decide (x = []) then Panic else k (number x) s) as Hatoi.
  { intros k. destruct (bool_decide (x = [])); [done|]. by mstep (on_mem_pure _ s _ (atoi_any (bmem s) v x Hx Hfx)). }
  literal. destruct (bool_decide (w = codes "-h")); [done|].
  literal. destruct (bool_decide (w = codes "-q")); [done|].
  literal. destruct (bool_decide (w = codes "-f")); [done|].
  literal. destruct (bool_decide (w = codes "-rs")).
  { rewrite Hatoi. destruct (bool_decide (x = [])); [done|]. unfold on_rng, bind. by destruct (random_init (number x) (rng (opts s))) as [[? ?]| | | |]. }
  literal. destruct (bool_decide (w = codes "-mlfqs")); [done|].
  literal. destruct (bool_decide (w = codes "-ul")).
  { rewrite Hatoi. by destruct (bool_decide (x = [])). }
  literal. by destruct (bool_decide (w = codes "-threads-tests")).
Qed.

(** The options at the front of the words: their number and effect. *)
Fixpoint parse_words (ws : list (list Z)) (o : options) : result (option (nat * options)) :=
  match ws with
  | [] => Ok (Some (0%nat, o))
  | w :: ws =>
      if bool_decide (head w = Some 45) then
        let! r := effect (before 61 w) (after 61 w) o in
        match r with
        | None => Ok None
        | Some o => let! r := parse_words ws o in Ok (match r with None => None | Some (k, o) => Some (S k, o) end)
        end
      else Ok (Some (0%nat, o))
  end.

Lemma words_frame m m' p ws a n : words_at m p ws -> unchanged_outside m m' a n -> a + Z.of_nat n <= p -> words_at m' p ws.
Proof using Type. intros (Hp & Hw & Hb) U Ha. split; [done|]. split; [done|]. apply (bytes_at_frame m m' a n _ _ U Hb). by right. Qed.

Lemma unchanged_trans m1 m2 m3 a n b k c l : unchanged_outside m1 m2 a n -> unchanged_outside m2 m3 b k -> c <= a -> a + Z.of_nat n <= c + Z.of_nat l -> c <= b -> b + Z.of_nat k <= c + Z.of_nat l -> unchanged_outside m1 m3 c l.
Proof using Type. intros U V. clear Hfuel. intros. intros x Hx. rewrite V, U by lia. done. Qed.

Lemma length_after c l : (length (after c l) <= length l)%nat /\ (length (before c l) <= length l)%nat.
Proof using Type. clear Hfuel. induction l as [|x l IH]; cbn; [done|]. destruct (x =? c); cbn; lia. Qed.

Definition start (p : Z) (ws : list (list Z)) (k : nat) : Z := p + size (take k ws).
Lemma start_S p w ws k : start p (w :: ws) (S k) = start (p + Z.of_nat (length w) + 1) ws k.
Proof using Type. clear Hfuel. unfold start. cbn [take]. rewrite size_cons. lia. Qed.

(** [parse_options] does what the words say. *)
Definition parsed (n i : nat) (p : Z) (ws : list (list Z)) (s : bstate) (m' : mem) : Prop :=
  match parse_words ws (opts s) with
  | Ok (Some (k, o)) => parse_options fuel lit n (Z.of_nat i) s = Ok (Some (Z.of_nat (i + k)), BState m' (argv s) (out s) o) /\ (k <= length ws)%nat /\ words_at m' (start p ws k) (drop k ws) /\
      holds (argv s) (i + k) (offsets (start p ws k) (drop k ws) ++ [NULL])
  | Ok None => exists s', parse_options fuel lit n (Z.of_nat i) s = Ok (None, s') /\ out s' = out s ++ codes usage_text
  | r => parse_options fuel lit n (Z.of_nat i) s = let! _ := r in Panic
  end.

Lemma parse_stops n i p ws s : words_at (bmem s) p ws -> holds (argv s) i (offsets p ws ++ [NULL]) -> (forall w r, ws = w :: r -> head w <> Some 45) ->
  parse_options fuel lit (S n) (Z.of_nat i) s = Ok (Some (Z.of_nat i), s).
Proof using Hfuel.
  intros Hw Hh Hn. cbn [parse_options]. destruct ws as [|w ws]; cbn [offsets app] in Hh; apply holds_cons in Hh as [Hi _]; mstep (get_argv_run i _ s Hi); [done|].
  apply words_at_cons in Hw as [Hc _]. rewrite (proj2 (Z.eqb_neq p NULL)) by (destruct Hc; unfold NULL; lia).
  destruct w as [|c w].
  - mstep (on_mem_pure _ s 0 (load_run _ _ _ (cstr_nil _ _ Hc))). done.
  - pose proof Hc as (Hc0 & H1 & _)%cstr_cons. mstep (on_mem_pure _ s c (load_run _ _ _ H1)). destruct (Z.eqb_spec c 45) as [->|]; [by destruct (Hn (45 :: w) ws eq_refl)|done].
Qed.

Lemma parse_options_run ws : forall n i p s, words_at (bmem s) p ws -> size ws <= 128 -> holds (argv s) i (offsets p ws ++ [NULL]) -> lits_at (bmem s) -> lo <= p -> p + size ws <= hi -> (length ws < n)%nat ->
  exists m', unchanged_outside (bmem s) m' p (length (encode ws)) /\ lits_at m' /\ parsed n i p ws s m'.
Proof using Hfuel.
  induction ws as [|w ws IH]; intros n i p s Hw Hs Hh Hl Hlo Hhi Hn; (destruct n as [|n]; [lia|]).
  - exists (bmem s). split; [by intros x|]. split; [done|]. unfold parsed. cbn [parse_words]. rewrite (parse_stops n i p []) by done.
    rewrite Nat.add_0_r. split; [by destruct s|]. split; [done|]. unfold start, size. cbn [take encode length]. rewrite Z.add_0_r. by split.
  - assert (words_at (bmem s) p (w :: ws)) as Hw0 by done. apply words_at_cons in Hw as [Hc Hw]. pose proof Hh as Hh0. cbn [offsets app] in Hh. apply holds_cons in Hh as [Hi Hh]. rewrite size_cons in *. pose proof (size_nonneg ws) as Hsn. cbn [length] in Hn.
    destruct (decide (head w = Some 45)) as [Hd|Hno].
    + destruct w as [|c t]; [done|]. injection Hd as ->. unfold parsed. cbn [parse_words parse_options]. rewrite bool_decide_true by done. mstep (get_argv_run i _ s Hi). rewrite (proj2 (Z.eqb_neq p NULL)) by (destruct Hc; unfold NULL; lia).
      pose proof Hc as (_ & H1 & _)%cstr_cons. mstep (on_mem_pure _ s 45 (load_run _ _ _ H1)). cbn [Z.eqb Pos.eqb].
      assert (cstr (bmem s) (lit "="%string) [61]) as Heq by (apply (proj1 (Forall_forall _ _) Hl "="%string); set_solver).
      destruct (first_token (bmem s) p 45 t (lit "="%string) Hc ltac:(lia) ltac:(done) Heq) as (q & m1 & E1 & Hb & Ha & U1 & Hq1 & Hq2). mstep (on_mem_run _ s _ _ E1). cbn [snd fst].
      set (s1 := BState m1 (argv s) (out s) (opts s)). pose proof (lits_frame _ _ _ _ Hl U1 Hlo ltac:(lia)) as Hl1. destruct (length_after 61 (45 :: t)) as [La Lb].
      assert (cstr (bmem s1) (lit ""%string) []) as Hem by (apply (proj1 (Forall_forall _ _) Hl1 ""%string); set_solver).
      destruct (second_token m1 q (after 61 (45 :: t)) (lit ""%string) Ha ltac:(lia) Hem) as (r & E2). mstep (on_mem_pure _ s1 _ E2). cbn [fst].
      pose proof (set_option_run s1 p q (before 61 (45 :: t)) (after 61 (45 :: t)) Hb Hl1 ltac:(lia) Ha ltac:(lia)) as E3. change (opts s1) with (opts s) in E3.
      assert (unchanged_outside (bmem s) m1 p (length (encode ((45 :: t) :: ws)))) as W1 by (intros x Hx; apply U1; cbn [encode] in Hx; rewrite length_app in Hx; lia).
      unfold bind. rewrite E3. destruct (effect (before 61 (45 :: t)) (after 61 (45 :: t)) (opts s)) as [[o|]| | | |]; cbn [rbind].
      * destruct (IH n (S i) (p + Z.of_nat (length (45 :: t)) + 1) (set_opts o s1)) as (m2 & U2 & L2 & P); [|lia|done|done|lia|lia|lia|].
        { by apply (words_frame (bmem s) m1 _ _ p (length (45 :: t))); [|done|lia]. }
        exists m2. split. { eapply unchanged_trans; [exact U1|exact U2|lia| |lia|]; cbn [encode]; rewrite length_app; cbn [length] in *; lia. }
        split; [done|]. unfold parsed in P. change (opts (set_opts o s1)) with o in P. replace (Z.of_nat i + 1) with (Z.of_nat (S i)) by lia.
        destruct (parse_words ws o) as [[[k o']|]| | | |]; cbn [rbind] in *; [|exact P..].
        destruct P as (P1 & P2 & P3 & P4). rewrite start_S. cbn [drop length]. rewrite P1. split; [do 3 f_equal; lia|]. split; [lia|]. split; [done|]. by replace (i + S k)%nat with (S i + k)%nat by lia.
      * exists m1. split; [done|]. split; [done|]. by eexists.
      * by exists m1.
      * by exists m1.
      * by exists m1.
      * by exists m1.
    + exists (bmem s). split; [by intros x|]. split; [done|]. unfold parsed.
      rewrite (parse_stops n i p (w :: ws)) by (try done; by intros ? ? [= <- <-]). cbn [parse_words]. rewrite bool_decide_false by done.
      rewrite Nat.add_0_r. split; [by destruct s|]. split; [lia|]. unfold start. cbn [take]. change (size []) with 0. rewrite Z.add_0_r. by split.
Qed.

(** ** Actions *)

Context (call : string -> Z -> M bstate unit).
(** The actions leave the command line alone. *)
Definition keeps_words : Prop := forall name j s s', call name j s = Ok (tt, s') -> bmem s' = bmem s /\ argv s' = argv s.

Definition action_of (w : list Z) : option (string * nat) := head (List.filter (fun a => bool_decide (w = codes a.1)) actions).
(** What the words say: each action is called with the index of its own word,
    once its arguments are there; [skip] words are arguments. *)
Fixpoint run_words (ws : list (list Z)) (i : nat) (skip : nat) : M bstate unit :=
  match ws with
  | [] => ret tt
  | w :: ws =>
      match skip with
      | S k => run_words ws (S i) k
      | O => match action_of w with
             | None => lift Panic
             | Some a => if (length (w :: ws) <? a.2)%nat then lift Panic else call a.1 (Z.of_nat i);; run_words ws (S i) (a.2 - 1)
             end
      end
  end.

Lemma run_words_skip k : forall ws i, (k <= length ws)%nat -> run_words ws i k = run_words (drop k ws) (i + k) 0.
Proof using Type.
  clear Hfuel. induction k as [|k IH]; intros ws i Hk; [by rewrite Nat.add_0_r|]. destruct ws as [|w ws]; [cbn in Hk; lia|]. cbn [run_words drop]. rewrite IH by (cbn in Hk; lia). f_equal. lia.
Qed.

Lemma find_action_run s p w l : cstr (bmem s) p w -> lits_at (bmem s) -> (length w < fuel)%nat -> Forall (fun a => a.1 ∈ literals) l ->
  find_action fuel lit l p s = match head (List.filter (fun a => bool_decide (w = codes a.1)) l) with Some a => Ok (a, s) | None => Panic end.
Proof using Type.
  intros Hw Hl Hf Ha. induction Ha as [|a l Hin _ IH]; cbn [find_action List.filter]; [done|]. erewrite (bind_ok (streq _ _ p _)) by (eapply streq_run; eassumption). cbv beta.
  by destruct (bool_decide (w = codes a.1)).
Qed.

Lemma check_args_run k : forall i p ws s, 0 < p -> holds (argv s) i (offsets p ws ++ [NULL]) -> check_args k (Z.of_nat i) s = if (length ws <? k)%nat then Panic else Ok (tt, s).
Proof using Type.
  clear Hfuel. induction k as [|k IH]; intros i p ws s Hp Hh; cbn [check_args]; [done|]. destruct ws as [|w ws]; cbn [offsets app] in Hh; apply holds_cons in Hh as [Hi Hh]; mstep (get_argv_run i _ s Hi); [done|].
  rewrite (proj2 (Z.eqb_neq p NULL)) by (unfold NULL; lia). replace (Z.of_nat i + 1) with (Z.of_nat (S i)) by lia. rewrite (IH (S i) (p + Z.of_nat (length w) + 1) ws) by (done || lia). done.
Qed.

Lemma words_drop m k : forall p ws, words_at m p ws -> words_at m (start p ws k) (drop k ws).
Proof using Type.
  induction k as [|k IH]; intros p ws Hw; [unfold start; cbn [take]; change (size []) with 0; by rewrite Z.add_0_r|]. destruct ws as [|w ws]; [unfold start; cbn [take]; change (size []) with 0; by rewrite Z.add_0_r|].
  rewrite start_S. apply words_at_cons in Hw as [_ Hw]. by apply IH.
Qed.
Lemma holds_drop arr k : forall i p ws, (k <= length ws)%nat -> holds arr i (offsets p ws ++ [NULL]) -> holds arr (i + k) (offsets (start p ws k) (drop k ws) ++ [NULL]).
Proof using Type.
  clear Hfuel. induction k as [|k IH]; intros i p ws Hk Hh; [unfold start; cbn [take]; change (size []) with 0; by rewrite Z.add_0_r, Nat.add_0_r|]. destruct ws as [|w ws]; [cbn in Hk; lia|].
  rewrite start_S. cbn [offsets app] in Hh. apply holds_cons in Hh as [_ Hh]. replace (i + S k)%nat with (S i + k)%nat by lia. apply IH; [cbn in Hk; lia|done].
Qed.
Lemma size_drop ws k : size (drop k ws) <= size ws.
Proof using Type.
  clear Hfuel. revert k. induction ws as [|w ws IH]; intros [|k]; cbn [drop]; try lia. rewrite size_cons. specialize (IH k). lia.
Qed.

Lemma run_actions_run (Hcall : keeps_words) n : forall ws i p s, words_at (bmem s) p ws -> size ws <= 128 -> holds (argv s) i (offsets p ws ++ [NULL]) -> lits_at (bmem s) -> (length ws < n)%nat ->
  run_actions fuel lit call n (Z.of_nat i) s = run_words ws i 0 s.
Proof using Hfuel.
  induction n as [|n IH]; intros ws i p s Hw Hs Hh Hl Hn; [clear - Hn; lia|]. cbn [run_actions]. pose proof Hh as Hh0. pose proof Hw as Hw0.
  destruct ws as [|w ws]; cbn [offsets app] in Hh; apply holds_cons in Hh as [Hi Hh]; mstep (get_argv_run i _ s Hi); [done|].
  apply words_at_cons in Hw as [Hc Hw]. rewrite (proj2 (Z.eqb_neq p NULL)) by (destruct Hc; unfold NULL; lia). cbn [negb run_words]. pose proof (size_nonneg ws). pose proof Hs as Hs0. rewrite size_cons in Hs.
  pose proof (find_action_run s p w actions Hc Hl ltac:(lia) ltac:(repeat constructor; set_solver)) as Ef. fold (action_of w) in Ef.
  destruct (action_of w) as [a|] eqn:Ea; [|unfold bind; by rewrite Ef]. mstep Ef.
  assert (0 < p) as Hp0 by apply Hc. assert (1 <= a.2)%nat as Ha.
  { unfold action_of in Ea. apply head_Some_elem_of, list_elem_of_In, filter_In in Ea as [Hin _]. cbn in Hin. by destruct Hin as [<-|[<-|[<-|[<-|[<-|[<-|[]]]]]]]; cbn; lia. }
  pose proof (check_args_run (a.2 - 1) (S i) (p + Z.of_nat (length w) + 1) ws s ltac:(lia) Hh) as Ec. replace (Z.of_nat (S i)) with (Z.of_nat i + 1) in Ec by lia.
  assert ((length (w :: ws) <? a.2)%nat = (length ws <? a.2 - 1)%nat) as -> by (cbn [length]; destruct (Nat.ltb_spec (S (length ws)) a.2), (Nat.ltb_spec (length ws) (a.2 - 1)); lia).
  destruct (Nat.ltb_spec (length ws) (a.2 - 1)) as [Hlt|Hge]; [unfold bind; by rewrite Ec|]. mstep Ec.
  unfold bind. destruct (call a.1 (Z.of_nat i) s) as [[[] s']| | | |] eqn:E; cbn [rbind]; try done.
  destruct (Hcall _ _ _ _ E) as [Em Ev]. rewrite run_words_skip by done.
  replace (Z.of_nat i + Z.of_nat a.2) with (Z.of_nat (i + a.2)) by lia. replace (S i + (a.2 - 1))%nat with (i + a.2)%nat by lia.
  assert (drop (a.2 - 1) ws = drop a.2 (w :: ws)) as -> by (replace a.2 with (S (a.2 - 1)) at 2 by lia; done).
  apply (IH _ _ (start p (w :: ws) a.2)).
  - rewrite Em. by apply words_drop.
  - pose proof (size_drop (w :: ws) a.2). lia.
  - rewrite Ev. apply holds_drop; [cbn [length]; lia|done].
  - by rewrite Em.
  - rewrite length_drop. cbn [length] in *. lia.
Qed.

End Spec.

(** ** Properties *)

(** The number of words that the loader left. *)
Definition count_is (m : mem) (c : Z) : Prop := load32 (at_phys LOADER_ARG_CNT) m = Ok (c, m).
Notation args := (at_phys LOADER_ARGS).
Notation args_end := (args + LOADER_ARGS_LEN).

(** C29: The kernel obeys its command line.  When the loader has left at most 64
    words, terminated, in the 128 bytes of the boot sector, they are printed,
    those with blanks in quotes; the leading words with a dash have the effect
    of the options they name, with the text after the first equals sign as
    value, and the remaining words are carried out as actions, in order, each
    called with the index of its own word and only when its arguments are
    there.  An unknown option, an option without the value it needs, an
    unknown action and a missing argument panic; -h prints the help and powers
    off.  Nothing but the words themselves is written. *)
Theorem command_line_meaning fuel lit call ws s : (130 <= fuel)%nat -> lits_at lit args args_end (bmem s) -> keeps_words call ->
  count_is (bmem s) (Z.of_nat (length ws)) -> words_at (bmem s) args ws -> (length ws <= 64)%nat -> size ws <= 128 -> Z.of_nat (length (argv s)) = ARGV_LEN ->
  exists m' arr, unchanged_outside (bmem s) m' args (length (encode ws)) /\
    let printed := out s ++ codes "Kernel command line:" ++ line ws ++ newline in
    match parse_words ws (opts s) with
    | Ok (Some (k, o)) => command_line fuel lit call s = (run_words call (drop k ws) k 0;; ret true) (BState m' arr printed o) /\
        holds arr 0 (offsets args ws ++ [NULL]) /\ words_at m' (start args ws k) (drop k ws)
    | Ok None => exists s', command_line fuel lit call s = Ok (false, s') /\ out s' = printed ++ codes usage_text
    | r => command_line fuel lit call s = let! _ := r in Panic
    end.
Proof.
  intros Hf Hl Hk Hc Hw Hn Hs Hlen. change ARGV_LEN with 65 in Hlen. unfold command_line, read_command_line. mnorm. mstep (on_mem_pure _ s _ Hc).
  assert (s32 (Z.of_nat (length ws)) = Z.of_nat (length ws)) as -> by (apply wraps_id; [lia|unfold is_s; lia]).
  destruct (read_loop_run fuel Hf (Z.of_nat (length ws)) args_end ws 130 0 args s Hw ltac:(lia) ltac:(lia) ltac:(unfold LOADER_ARGS_LEN; lia) ltac:(unfold LOADER_ARGS_LEN; lia) ltac:(lia)) as (arr & n' & E & En & La & Hh & _).
  cbn [Nat.add] in E. change (Z.of_nat 0) with 0 in E.
  assert (read_loop fuel n' (Z.of_nat (length ws)) (Z.of_nat (length ws)) (args + size ws) args_end (set_argv arr s) = Ok (args + size ws, set_argv arr s)) as E'.
  { destruct n' as [|n']; [lia|]. cbn [read_loop]. by rewrite Z.ltb_irrefl. }
  rewrite E' in E. mstep E. clear E E'. set (s1 := set_argv arr s). mstep (put_argv_run (length ws) NULL s1 ltac:(cbn; lia)). set (arr' := <[length ws := NULL]> arr).
  assert (holds arr' 0 (offsets args ws ++ [NULL])) as Hh'.
  { intros j x Hj. cbn [Nat.add]. pose proof (length_offsets args ws) as Lo. destruct (decide (j < length ws)%nat) as [Hjl|Hjl].
    - rewrite lookup_app_l in Hj by lia. unfold arr'. rewrite list_lookup_insert_ne by lia. by apply (Hh j).
    - rewrite lookup_app_r in Hj by lia. rewrite Lo in Hj. destruct (j - length ws)%nat as [|?] eqn:Ej; [|done]. injection Hj as <-. replace j with (length ws) by lia. apply list_lookup_insert_eq. lia. }
  unfold print. mnorm. rewrite Nat2Z.id. cbn [bmem argv out opts set_argv s1].
  set (s2 := BState (bmem s) arr' (out s ++ codes "Kernel command line:") (opts s)).
  assert (holds (argv s2) 0 (offsets args ws)) as Hh2 by (intros j x Hj; apply (Hh' j x), lookup_app_l_Some; done).
  mstep (print_loop_run fuel Hf ws 0 args s2 Hw Hs Hh2). cbn [bmem argv out opts s2].
  set (s3 := BState (bmem s) arr' (((out s ++ codes "Kernel command line:") ++ line ws) ++ newline) (opts s)).
  destruct (parse_options_run fuel Hf lit args args_end ws 66 0 args s3 Hw Hs Hh' Hl ltac:(lia) ltac:(unfold LOADER_ARGS_LEN; lia) ltac:(lia)) as (m' & U & L & P).
  exists m', arr'. split; [done|]. unfold parsed in P. change (opts s3) with (opts s) in P. replace (out s ++ codes "Kernel command line:" ++ line ws ++ newline) with (out s3) by (cbn [out s3]; by rewrite <- !app_assoc).
  change (Z.of_nat 0) with 0 in P. cbn zeta.
  destruct (parse_words ws (opts s)) as [[[k o]|]| | | |]; cbn [rbind Nat.add] in *.
  - destruct P as (P1 & P2 & P3 & P4). mstep P1. split; [|by split]. unfold bind. rewrite (run_actions_run fuel Hf lit args args_end call Hk 66 (drop k ws) k (start args ws k)); [done|done| |done|done|].
    + pose proof (size_drop ws k). lia.
    + rewrite length_drop. lia.
  - destruct P as (s' & P & Po). mstep P. exists s'. split; [done|exact Po].
  - unfold bind. by rewrite P.
  - unfold bind. by rewrite P.
  - unfold bind. by rewrite P.
  - unfold bind. by rewrite P.
Qed.

Lemma read_loop_end fuel n argc i p e s : argc <= i -> read_loop fuel (S n) argc i p e s = Ok (p, s).
Proof. intros H. cbn [read_loop]. by rewrite (proj2 (Z.ltb_ge _ _)). Qed.

(** What does not fit.  A count that exceeds the words in the 128 bytes
    panics.  But the array has room for 64 words and the null pointer, which is
    enough only when no word is empty: 65 words or more, as an equally long
    series of empty arguments makes them, are stored past its end, and a count
    that is negative as an [int] stores the null pointer before it. *)
Theorem command_line_limits fuel ws s c : (130 <= fuel)%nat -> count_is (bmem s) c -> 0 <= c < 2 ^ 32 -> words_at (bmem s) args ws -> Z.of_nat (length (argv s)) = ARGV_LEN ->
  (Z.of_nat (length ws) < c < 2 ^ 31 -> (length ws <= 65)%nat -> size ws = LOADER_ARGS_LEN -> read_command_line fuel s = Panic) /\
  (65 <= c < 2 ^ 31 -> length ws = 65%nat -> size ws < LOADER_ARGS_LEN -> read_command_line fuel s = Fault) /\
  (2 ^ 31 <= c -> read_command_line fuel s = Fault).
Proof.
  intros Hf Hc Hc32 Hw Hlen. change ARGV_LEN with 65 in Hlen. unfold read_command_line, LOADER_ARGS_LEN. mnorm.
  assert (c < 2 ^ 31 -> Z.of_nat (length ws) <= c -> (length ws <= 65)%nat -> size ws <= 128 -> s32 c = c /\
    exists arr n, length arr = 65%nat /\ read_loop fuel 130 c 0 args (args + 128) s = read_loop fuel (S n) c (Z.of_nat (length ws)) (args + size ws) (args + 128) (set_argv arr s)) as Hr.
  { intros H31 Hcw Hlw Hsz. split; [apply wraps_id; [lia|unfold is_s; lia]|].
    destruct (read_loop_run fuel Hf c (args + 128) ws 130 0 args s Hw ltac:(lia) ltac:(lia) ltac:(lia) ltac:(lia) ltac:(lia)) as (arr & n' & E & En & La & _).
    exists arr, (n' - 1)%nat. split; [lia|]. change (Z.of_nat 0) with 0 in E. rewrite E. f_equal. lia. }
  split; [|split].
  - intros Hlt Hl Hs. mstep (on_mem_pure _ s _ Hc). destruct (Hr ltac:(lia) ltac:(lia) Hl ltac:(lia)) as (-> & arr & n & _ & E). unfold bind. rewrite E.
    cbn [read_loop]. rewrite (proj2 (Z.ltb_lt _ _)), Hs, (proj2 (Z.leb_le _ _)) by lia. done.
  - intros Hlt Hl Hs. mstep (on_mem_pure _ s _ Hc). destruct (Hr ltac:(lia) ltac:(lia) ltac:(lia) ltac:(lia)) as (-> & arr & n & La & E). rewrite Hl in E. destruct (decide (c = 65)) as [->|].
    + rewrite (read_loop_end fuel n) in E by lia. mstep E. unfold bind. by rewrite put_argv_out by (cbn; lia).
    + unfold bind. rewrite E. cbn [read_loop]. rewrite (proj2 (Z.ltb_lt _ _)), (proj2 (Z.leb_gt _ _)) by lia. unfold bind. by rewrite put_argv_out by (cbn; lia).
  - intros H31. mstep (on_mem_pure _ s _ Hc). assert (s32 c = c - 2 ^ 32) as ->.
    { unfold wraps. rewrite (Z.mod_small c) by lia. change (2 ^ (32 - 1)) with (2 ^ 31). by rewrite (proj2 (Z.ltb_ge _ _)) by lia. }
    mstep (read_loop_end fuel 129 (c - 2 ^ 32) 0 args (args + 128) s ltac:(lia)). unfold bind. by rewrite put_argv_out by lia.
Qed.

(** ** Witnesses *)

Lemma cstr_check m s l : 0 < s -> forallb (fun b => (0 <? b) && (b <? 256)) l = true -> m <$> seqZ s (Z.of_nat (length l) + 1) = Some <$> (l ++ [0]) -> cstr m s l.
Proof.
  intros Hs Hl Hm. split; [done|]. split.
  - apply Forall_forall. intros b Hb. rewrite forallb_forall in Hl. specialize (Hl b ltac:(by apply list_elem_of_In)). apply andb_prop in Hl as [H1 H2]. lia.
  - intros i b Hi. assert ((Some <$> (l ++ [0])) !! i = Some (Some b)) as E by (rewrite list_lookup_fmap, Hi; done). rewrite <- Hm, list_lookup_fmap in E.
    destruct (seqZ s (Z.of_nat (length l) + 1) !! i) as [x|] eqn:Ex; [|done]. apply lookup_seqZ in Ex as [-> _]. cbn in E. congruence.
Qed.

(** The literals in slots of 32 bytes from 4096 on, the command line in the boot
    sector. *)
Definition demo_lit (x : string) : Z := 4096 + 32 * from_option (fun p => Z.of_nat p.1) 0 (list_find (x =.) literals).
Definition demo_boot (count : Z) (block : list Z) : mem := fun a =>
  if inside (at_phys LOADER_ARG_CNT) (4 + length block) a then (count :: 0 :: 0 :: 0 :: block) !! Z.to_nat (a - at_phys LOADER_ARG_CNT)
  else match literals !! Z.to_nat ((a - 4096) / 32) with Some x => Some (default 0 (codes x !! Z.to_nat ((a - 4096) mod 32))) | None => None end.
Definition demo_rng : prng := Prng (replicate 256 0) 0 0 false.
Definition demo_bstate (count : Z) (block : list Z) : bstate := BState (demo_boot count block) (replicate 65 0) [] (Options false false false false SIZE_MAX demo_rng).
Definition demo_words : list (list Z) := [codes "-q"; codes "run"; codes "a b"].
Definition demo_run (name : string) (i : Z) : M bstate unit := print (codes name).

Lemma command_line_meaning_witness : exists s', command_line 200 demo_lit demo_run (demo_bstate 3 (encode demo_words)) = Ok (true, s') /\
  power_off_when_done (opts s') = true /\ out s' = codes "Kernel command line: -q run 'a b'" ++ newline ++ codes "run".
Proof.
  destruct (command_line_meaning 200 demo_lit demo_run demo_words (demo_bstate 3 (encode demo_words))) as (m' & arr & _ & H).
  - lia.
  - repeat apply Forall_cons_2; try apply Forall_nil_2; (split; [apply cstr_check; [by_eval|reflexivity|vm_compute; reflexivity]|left; by_eval]).
  - intros name j s s' E. injection E as <-. by split.
  - reflexivity.
  - split; [by_eval|]. split; [repeat constructor|]. intros i b Hb. pose proof (lookup_lt_Some _ _ _ Hb) as Hlt. change (length (encode demo_words)) with 11%nat in Hlt.
    do 11 (destruct i as [|i]; [injection Hb as <-; reflexivity|]). lia.
  - by_eval.
  - by_eval.
  - reflexivity.
  - cbv zeta in H. destruct H as [H _]. eexists. split; [etransitivity; [exact H|reflexivity]|]. split; reflexivity.
Defined.

(** 65 empty arguments. *)
Lemma command_line_limits_witness : read_command_line 200 (demo_bstate 65 (replicate 65 0)) = Fault.
Proof.
  destruct (command_line_limits 200 (replicate 65 []) (demo_bstate 65 (replicate 65 0)) 65) as (_ & H & _).
  - lia.
  - reflexivity.
  - lia.
  - split; [by_eval|]. split; [repeat constructor|]. intros i b Hb. change (encode (replicate 65 [])) with (replicate 65 0) in Hb. apply lookup_replicate in Hb as [-> Hi]. cbn [bmem demo_bstate].
    unfold demo_boot. rewrite length_replicate. rewrite (proj2 (inside_spec _ _ _)) by (unfold at_phys, LOADER_PHYS, LOADER_ARG_CNT, LOADER_ARG_CNT_LEN; lia).
    replace (Z.to_nat (at_phys LOADER_ARGS + Z.of_nat i - at_phys LOADER_ARG_CNT)) with (4 + i)%nat by (unfold at_phys, LOADER_PHYS, LOADER_ARG_CNT, LOADER_ARG_CNT_LEN; lia). cbn [lookup Nat.add list_lookup]. by apply lookup_replicate_2.
  - reflexivity.
  - apply H; [lia|reflexivity|by_eval].
Defined.
