(* ===== verification/Kbd.v ===== *)
(** * Keyboard (devices/kbd.c)

    Scancodes, the state of the shift keys, and the characters they deliver
    into the input buffer of Serial. *)

From S2P Require Import Prelude CStdlib Intq Ports Serial SerialSpec.

Definition DATA_REG : Z := 0x60.

(** [line] is the state of the input buffer and the devices. *)
Record kbd := Kbd {
  line : uart; left_shift : bool; right_shift : bool; left_alt : bool; right_alt : bool;
  left_ctrl : bool; right_ctrl : bool; caps_lock : bool; key_cnt : Z }.

Definition on_line {A} (f : M uart A) : M kbd A := fun s =>
  let! (a, u) := f (line s) in
  Ok (a, Kbd u (left_shift s) (right_shift s) (left_alt s) (right_alt s) (left_ctrl s) (right_ctrl s) (caps_lock s) (key_cnt s)).

Definition kbd_init : M kbd unit := on_line (intr_register_ext 0x21).

(** ** Keymaps *)

(** [struct keymap]: the first scancode and the characters; the terminating
    entry is the end of the list. *)
Definition invariant_keymap : list (Z * list Z) :=
  [(0x01, [27]); (0x0e, [8]); (0x0f, [9; 81; 87; 69; 82; 84; 89; 85; 73; 79; 80]); (0x1c, [13]);
   (0x1e, [65; 83; 68; 70; 71; 72; 74; 75; 76]); (0x2c, [90; 88; 67; 86; 66; 78; 77]); (0x37, [42]); (0x39, [32])].
Definition unshifted_keymap : list (Z * list Z) :=
  [(0x02, [49; 50; 51; 52; 53; 54; 55; 56; 57; 48; 45; 61]); (0x1a, [91; 93]); (0x27, [59; 39; 96]); (0x2b, [92]); (0x33, [44; 46; 47])].
Definition shifted_keymap : list (Z * list Z) :=
  [(0x02, [33; 64; 35; 36; 37; 94; 38; 42; 40; 41; 95; 43]); (0x1a, [123; 125]); (0x27, [58; 34; 126]); (0x2b, [124]); (0x33, [60; 62; 63])].

Fixpoint map_key (k : list (Z * list Z)) (scancode : Z) : option Z :=
  match k with
  | [] => None
  | (first, chars) :: k =>
      if (first <=? scancode) && (scancode <? first + Z.of_nat (length chars)) then chars !! Z.to_nat (scancode - first)
      else map_key k scancode
  end.

(** ** Shift keys *)

Inductive shift_var := LeftShift | RightShift | LeftAlt | RightAlt | LeftCtrl | RightCtrl.

#[export] Instance shift_var_eq_dec : EqDecision shift_var.
Proof. solve_decision. Defined.

Definition get_var (v : shift_var) (s : kbd) : bool :=
  match v with
  | LeftShift => left_shift s | RightShift => right_shift s | LeftAlt => left_alt s
  | RightAlt => right_alt s | LeftCtrl => left_ctrl s | RightCtrl => right_ctrl s
  end.
Definition set_var (v : shift_var) (b : bool) (s : kbd) : kbd :=
  let pick w old := if bool_decide (w = v) then b else old in
  Kbd (line s) (pick LeftShift (left_shift s)) (pick RightShift (right_shift s)) (pick LeftAlt (left_alt s)) (pick RightAlt (right_alt s))
    (pick LeftCtrl (left_ctrl s)) (pick RightCtrl (right_ctrl s)) (caps_lock s) (key_cnt s).

Definition shift_keys : list (Z * shift_var) :=
  [(0x2a, LeftShift); (0x36, RightShift); (0x38, LeftAlt); (0xe038, RightAlt); (0x1d, LeftCtrl); (0xe01d, RightCtrl)].
Fixpoint find_shift (l : list (Z * shift_var)) (code : Z) : option shift_var :=
  match l with [] => None | (c, v) :: l => if c =? code then Some v else find_shift l code end.

(** ** The interrupt handler *)

(** The character of a key: [c] is what the keymaps give. *)
Definition key_char (shift alt ctrl caps : bool) (c : Z) : Z :=
  let c := if ctrl && (0x40 <=? c) && (c <? 0x60) then u8 (c - 0x40)
           else if eqb shift caps then u8 (tolower c) else c in
  if alt then u8 (c + 0x80) else c.

Definition keyboard_interrupt : M kbd unit :=
  s ← get;
  let shift := left_shift s || right_shift s in
  let alt := left_alt s || right_alt s in
  let ctrl := left_ctrl s || right_ctrl s in
  code ← on_line (on_dev (inb DATA_REG));
  code ← (if code =? 0xe0 then b ← on_line (on_dev (inb DATA_REG)); ret (Z.lor (Z.shiftl code 8) b) else ret code);
  let release := negb (Z.land code 0x80 =? 0) in
  let code := Z.land code (u32 (Z.lnot 0x80)) in
  if code =? 0x3a then
    if negb release then
      modify (fun s => Kbd (line s) (left_shift s) (right_shift s) (left_alt s) (right_alt s) (left_ctrl s) (right_ctrl s) (negb (caps_lock s)) (key_cnt s))
    else ret tt
  else
    match (match map_key invariant_keymap code with
           | Some c => Some c
           | None => if shift then map_key shifted_keymap code else map_key unshifted_keymap code
           end) with
    | Some c =>
        if negb release then
          let c := key_char shift alt ctrl (caps_lock s) c in
          full ← on_line input_full;
          if negb full then
            modify (fun s => Kbd (line s) (left_shift s) (right_shift s) (left_alt s) (right_alt s) (left_ctrl s) (right_ctrl s) (caps_lock s) (s64 (key_cnt s + 1)));;
            on_line (input_putc c)
          else ret tt
        else ret tt
    | None =>
        match find_shift shift_keys code with
        | Some v => modify (set_var v (negb release))
        | None => ret tt
        end
    end.

(** ** The keyboard as it is built

    A US keyboard: the rows of keys with their scancodes and the two characters
    on each key. *)

Definition rows : list (Z * list Z * list Z) :=
  [ (0x02, [49; 50; 51; 52; 53; 54; 55; 56; 57; 48; 45; 61], [33; 64; 35; 36; 37; 94; 38; 42; 40; 41; 95; 43]);
    (0x10, [113; 119; 101; 114; 116; 121; 117; 105; 111; 112; 91; 93], [81; 87; 69; 82; 84; 89; 85; 73; 79; 80; 123; 125]);
    (0x1e, [97; 115; 100; 102; 103; 104; 106; 107; 108; 59; 39; 96], [65; 83; 68; 70; 71; 72; 74; 75; 76; 58; 34; 126]);
    (0x2b, [92; 122; 120; 99; 118; 98; 110; 109; 44; 46; 47], [124; 90; 88; 67; 86; 66; 78; 77; 60; 62; 63]);
    (0x01, [27], [27]); (0x0e, [8; 9], [8; 9]); (0x1c, [13], [13]); (0x37, [42], [42]); (0x39, [32], [32]) ].
Definition on_key (shift : bool) (code : Z) : option Z := map_key ((fun r : Z * list Z * list Z => (r.1.1, if shift then r.2 else r.1.2)) <$> rows) code.

Definition swap_case (c : Z) : Z := if isupper c then tolower c else toupper c.
(** The character of a key: Control takes precedence over the shift keys and
    applies to the characters 0x40 to 0x5f; Caps Lock exchanges the cases of
    letters; Alt sets the high bit. *)
Definition typed (shift alt ctrl caps : bool) (code : Z) : option Z :=
  (fun c =>
     let c := if ctrl && (0x40 <=? toupper c) && (toupper c <? 0x60) then toupper c - 0x40 else if caps then swap_case c else c in
     if alt then c + 0x80 else c) <$> on_key shift code.

(** A key is pressed or released. *)
Record event := Event { code : Z; release : bool }.
(** What the keyboard controller delivers for it. *)
Definition scan_bytes (e : event) : list Z :=
  let b := code e mod 256 + (if release e then 0x80 else 0) in if code e <? 256 then [b] else [0xe0; b].
(** Codes that have seven bits, with or without prefix; the release of 0x60 looks
    like the prefix. *)
Definition event_ok (e : event) : Prop := 0 < code e < 0x80 /\ (release e = true -> code e <> 0x60) \/ 0xe000 < code e < 0xe080.

(** The keys that are down, Caps Lock, and the characters typed that nobody has
    read; of these the buffer holds 63.  [entered] counts them all. *)
Record board := Board { held : gset Z; caps : bool; text : list Z; entered : Z }.

Definition down (b : board) (k1 k2 : Z) : bool := bool_decide (k1 ∈ held b) || bool_decide (k2 ∈ held b).
Definition typed_on (b : board) (k : Z) : option Z := typed (down b 0x2a 0x36) (down b 0x38 0xe038) (down b 0x1d 0xe01d) (caps b) k.
Definition fresh_chars (b : board) (e : event) : list Z :=
  if release e || (length (text b) =? 63)%nat then [] else option_list (typed_on b (code e)).
Definition strike (b : board) (e : event) : board :=
  Board (if release e then held b ∖ {[code e]} else {[code e]} ∪ held b)
        (if (code e =? 0x3a) && negb (release e) then negb (caps b) else caps b)
        (text b ++ fresh_chars b e) (entered b + Z.of_nat (length (fresh_chars b e))).

Definition var_code (v : shift_var) : Z :=
  match v with LeftShift => 0x2a | RightShift => 0x36 | LeftAlt => 0x38 | RightAlt => 0xe038 | LeftCtrl => 0x1d | RightCtrl => 0xe01d end.

(** ** Proofs *)

(** All codes that can occur. *)
Definition all_codes : list Z := seqZ 0 0x80 ++ seqZ 0xe000 0x80.
Lemma event_code e : event_ok e -> code e ∈ all_codes.
Proof. intros H. apply elem_of_app. rewrite !elem_of_seqZ. unfold event_ok in H. lia. Qed.

Definition mapped_char (shift : bool) (k : Z) : option Z :=
  match map_key invariant_keymap k with Some c => Some c | None => if shift then map_key shifted_keymap k else map_key unshifted_keymap k end.

Definition all_bools : list bool := [false; true].
Lemma bool_in b : b ∈ all_bools.
Proof. destruct b; unfold all_bools; set_solver. Qed.

Lemma for_bool (P : bool -> Prop) : Forall P all_bools -> forall b, P b.
Proof. intros H b. rewrite Forall_forall in H. apply H, bool_in. Qed.

(** The keymaps and the case rule give the characters of the keyboard. *)
Lemma keymaps_typed shift alt ctrl caps k : k ∈ all_codes -> key_char shift alt ctrl caps <$> mapped_char shift k = typed shift alt ctrl caps k.
Proof.
  intros Hk. assert (Forall (fun k => Forall (fun s => Forall (fun a => Forall (fun c => Forall (fun l =>
    key_char s a c l <$> mapped_char s k = typed s a c l k) all_bools) all_bools) all_bools) all_bools) all_codes) as H by by_eval.
  rewrite Forall_forall in H. exact (for_bool _ (for_bool _ (for_bool _ (for_bool _ (H k Hk) shift) alt) ctrl) caps).
Qed.

Lemma special_unmapped k : k ∈ all_codes -> (k = 0x3a -> forall s, mapped_char s k = None) /\
  (forall v, k = var_code v -> forall s, mapped_char s k = None) /\ find_shift shift_keys k = (List.find (fun v => var_code v =? k) [LeftShift; RightShift; LeftAlt; RightAlt; LeftCtrl; RightCtrl]).
Proof.
  intros Hk. split; [intros -> s; by destruct s|]. split; [intros v -> s; by destruct v, s|].
  assert (Forall (fun k => find_shift shift_keys k = (List.find (fun v => var_code v =? k) [LeftShift; RightShift; LeftAlt; RightAlt; LeftCtrl; RightCtrl])) all_codes) as H by by_eval.
  rewrite Forall_forall in H. by apply H.
Qed.

(** The code that the handler reads, and what it makes of it. *)
Definition raw_of (k : Z) (r : bool) : Z :=
  if k <? 256 then k + (if r then 0x80 else 0) else Z.lor (Z.shiftl 0xe0 8) (k mod 256 + (if r then 0x80 else 0)).

Lemma raw_code e : event_ok e -> negb (Z.land (raw_of (code e) (release e)) 0x80 =? 0) = release e /\ Z.land (raw_of (code e) (release e)) (u32 (Z.lnot 0x80)) = code e.
Proof.
  intros H. assert (Forall (fun k => Forall (fun r => negb (Z.land (raw_of k r) 0x80 =? 0) = r /\ Z.land (raw_of k r) (u32 (Z.lnot 0x80)) = k) all_bools) all_codes) as Ha by by_eval.
  rewrite Forall_forall in Ha. specialize (Ha _ (event_code e H)). exact (for_bool _ Ha (release e)).
Qed.

Record kbd_ok (s : kbd) (b : board) (tx : list Z) : Prop := {
  ko_line : uart_ok (line s) tx (text b);
  ko_var v : get_var v s = bool_decide (var_code v ∈ held b);
  ko_caps : caps_lock s = caps b;
  ko_cnt : key_cnt s = s64 (entered b)
}.

(** The state with another line. *)
Definition with_line (s : kbd) (u : uart) : kbd :=
  Kbd u (left_shift s) (right_shift s) (left_alt s) (right_alt s) (left_ctrl s) (right_ctrl s) (caps_lock s) (key_cnt s).

Lemma on_line_run {A} (f : M uart A) s a u : f (line s) = Ok (a, u) -> on_line f s = Ok (a, with_line s u).
Proof. intros E. unfold on_line. by rewrite E. Qed.

(** The port accesses of reading a scancode. *)
Lemma scancode_run s b tx e rest : kbd_ok s b tx -> event_ok e -> answers (dev (line s)) = scan_bytes e ++ rest ->
  exists u, step (line s) u tx (text b) (In DATA_REG <$> scan_bytes e) /\ answers (dev u) = rest /\
    forall {B} (k : Z -> M kbd B),
      (c ← on_line (on_dev (inb DATA_REG)); c ← (if c =? 0xe0 then b ← on_line (on_dev (inb DATA_REG)); ret (Z.lor (Z.shiftl c 8) b) else ret c); k c) s =
      k (raw_of (code e) (release e)) (with_line s u).
Proof.
  intros H He Ha. pose proof (in_run (line s) DATA_REG tx (text b) (ko_line _ _ _ H)) as R. rewrite Ha in R. unfold scan_bytes in *.
  assert (code e < 256 -> code e mod 256 + (if release e then 128 else 0) <> 0xe0 /\ code e mod 256 = code e) as Hne.
  { intros. unfold event_ok in He. rewrite Z.mod_small by lia. destruct (release e) eqn:Er; lia. }
  unfold raw_of. destruct (code e <? 256) eqn:Ek; cbn [app] in R; destruct R as (u & E & S); pose proof S as [_ _ _ _ _ _ (w & Ew & Hw)]; rewrite Ha in Ew; cbn in Hw.
  - destruct w as [|? [|? ?]]; try done. cbn in Ew. injection Ew as <- Ew. exists u. split; [done|]. split; [done|]. intros B k.
    mstep (on_line_run _ _ _ _ E). destruct (Hne ltac:(lia)) as [Hn Hm]. rewrite (proj2 (Z.eqb_neq _ _) Hn). mnorm. by rewrite Hm.
  - destruct w as [|? [|? ?]]; try done. cbn in Ew. injection Ew as <- Ew. pose proof (in_run u DATA_REG tx (text b) (sp_ok _ _ _ _ _ S)) as R2. rewrite <- Ew in R2.
    destruct R2 as (u2 & E2 & S2). exists u2. split; [exact (step_trans _ _ _ _ _ _ _ _ _ S S2)|]. destruct (sp_ans _ _ _ _ _ S2) as (w & Ew2 & Hw2). rewrite <- Ew in Ew2. cbn in Hw2.
    destruct w as [|? [|? ?]]; try done. cbn in Ew2. injection Ew2 as <- Ew2. split; [done|]. intros B k. mstep (on_line_run _ _ _ _ E). cbn [Z.eqb Pos.eqb]. mnorm.
    assert (on_dev (inb DATA_REG) (line (with_line s u)) = Ok (code e mod 256 + (if release e then 128 else 0), u2)) as E3 by exact E2.
    by mstep (on_line_run _ (with_line s u) _ _ E3).
Qed.

(** A shift key changes the variable that it names. *)
Lemma get_set_var v w x s : get_var w (set_var v x s) = if bool_decide (w = v) then x else get_var w s.
Proof. by destruct v, w. Qed.

Lemma var_code_inj v w : var_code v = var_code w -> v = w.
Proof. by destruct v, w. Qed.

Lemma find_shift_None k v : k ∈ all_codes -> find_shift shift_keys k = None -> k <> var_code v.
Proof. intros _ H ->. by destruct v. Qed.
Lemma find_shift_Some k v : find_shift shift_keys k = Some v -> k = var_code v.
Proof. unfold find_shift, shift_keys. repeat case_match; intros; simplify_eq; cbn; lia. Qed.
Lemma mapped_not_var s k c v : mapped_char s k = Some c -> k <> var_code v /\ k <> 0x3a.
Proof. intros H. split; intros ->; [by destruct v, s|by destruct s]. Qed.

(** A key that is no shift key leaves the shift keys alone. *)
Lemma held_other b e v : code e <> var_code v -> bool_decide (var_code v ∈ held (strike b e)) = bool_decide (var_code v ∈ held b).
Proof. intros Hk. apply bool_decide_ext. unfold strike. cbn [held]. destruct (release e); set_solver. Qed.
Lemma held_same b e : bool_decide (code e ∈ held (strike b e)) = negb (release e).
Proof. unfold strike. cbn [held]. destruct (release e); [rewrite bool_decide_false by set_solver|rewrite bool_decide_true by set_solver]; done. Qed.

(** A key that enters no character. *)
Lemma strike_silent b e : fresh_chars b e = [] -> text (strike b e) = text b /\ entered (strike b e) = entered b.
Proof. intros H. unfold strike. cbn. rewrite H, app_nil_r. cbn. split; [done|lia]. Qed.

(** The shift keys as the handler tests them. *)
Lemma down_vars s b tx : kbd_ok s b tx ->
  (left_shift s || right_shift s) = down b 0x2a 0x36 /\ (left_alt s || right_alt s) = down b 0x38 0xe038 /\ (left_ctrl s || right_ctrl s) = down b 0x1d 0xe01d.
Proof.
  intros H. unfold down. pose proof (ko_var _ _ _ H) as Hv.
  split; [exact (f_equal2 orb (Hv LeftShift) (Hv RightShift))|split; [exact (f_equal2 orb (Hv LeftAlt) (Hv RightAlt))|exact (f_equal2 orb (Hv LeftCtrl) (Hv RightCtrl))]].
Qed.

Definition settled (s s' : kbd) (b' : board) (tx rest : list Z) : Prop :=
  kbd_ok s' b' tx /\ off (line s') = true /\ ctx (line s') = ctx (line s) /\ answers (dev (line s')) = rest.

(** A state in which nothing but the line and the shift keys changed. *)
Lemma settled_keys s s' b tx e rest : kbd_ok s b tx -> fresh_chars b e = [] -> uart_ok (line s') tx (text b) -> off (line s') = true -> ctx (line s') = ctx (line s) ->
  answers (dev (line s')) = rest -> (forall v, get_var v s' = bool_decide (var_code v ∈ held (strike b e))) -> caps_lock s' = caps (strike b e) -> key_cnt s' = key_cnt s ->
  settled s s' (strike b e) tx rest.
Proof.
  intros H Hf Hu Ho Hc Ha Hv Hk Hn. split; [|done]. destruct (strike_silent b e Hf) as [Et Ee]. split; [by rewrite Et|done|done|]. by rewrite Hn, Ee, (ko_cnt _ _ _ H).
Qed.

(** The branches of the handler, from the state [with_line s u] after the scancode
    has been read. *)
Section Branches.
  Context (s : kbd) (b : board) (tx : list Z) (e : event) (u : uart).
  Context (H : kbd_ok s b tx) (He : event_ok e) (Hu : uart_ok u tx (text b)) (Ho : off u = true) (Hc : ctx u = ctx (line s)).

Lemma caps_settled (c' : bool) : code e = 0x3a -> c' = (if release e then caps b else negb (caps b)) ->
  settled s (Kbd u (left_shift s) (right_shift s) (left_alt s) (right_alt s) (left_ctrl s) (right_ctrl s) c' (key_cnt s)) (strike b e) tx (answers (dev u)).
Proof using H Hu Ho Hc.
  intros Ek ->. apply settled_keys; try done.
  - unfold fresh_chars. destruct (release e || _); [done|]. rewrite Ek. unfold typed_on, typed. by destruct (down b 42 54).
  - intros v. rewrite held_other; [|rewrite Ek; by destruct v]. rewrite <- (ko_var _ _ _ H v). by destruct v.
  - cbn. rewrite Ek. by destruct (release e).
Qed.

Lemma shift_settled : code e <> 0x3a -> typed_on b (code e) = None ->
  settled s (match find_shift shift_keys (code e) with Some v => set_var v (negb (release e)) (with_line s u) | None => with_line s u end) (strike b e) tx (answers (dev u)).
Proof using H He Hu Ho Hc.
  intros Ek Et. assert (fresh_chars b e = []) as Hf by (unfold fresh_chars; rewrite Et; by destruct (release e || _)).
  assert (caps_lock s = caps (strike b e)) as Hk by (cbn; rewrite (proj2 (Z.eqb_neq _ _) Ek); exact (ko_caps _ _ _ H)).
  destruct (find_shift shift_keys (code e)) as [v|] eqn:Ev; apply settled_keys; try done; intros w.
  - apply find_shift_Some in Ev. rewrite get_set_var. destruct (decide (w = v)) as [->|Hw].
    + rewrite bool_decide_true by done. by rewrite <- Ev, held_same.
    + rewrite bool_decide_false, held_other, <- (ko_var _ _ _ H w); [by destruct w|rewrite Ev; intros ?%var_code_inj; by subst|done].
  - rewrite held_other, <- (ko_var _ _ _ H w); [by destruct w|]. exact (find_shift_None _ w (event_code e He) Ev).
Qed.

Lemma char_settled s' : (forall v, code e <> var_code v) -> code e <> 0x3a -> line s' = u -> (forall v, get_var v s' = get_var v s) -> caps_lock s' = caps_lock s -> key_cnt s' = key_cnt s ->
  fresh_chars b e = [] -> settled s s' (strike b e) tx (answers (dev u)).
Proof using H Hu Ho Hc.
  intros Hn Ek El Hv Hk Ht Hf. apply settled_keys; try done; rewrite ?El; try done.
  - intros v. by rewrite held_other, Hv, (ko_var _ _ _ H v).
  - rewrite Hk, (ko_caps _ _ _ H). cbn. by rewrite (proj2 (Z.eqb_neq _ _) Ek).
Qed.

(** A character that is entered. *)
Lemma enter_settled c : (forall v, code e <> var_code v) -> code e <> 0x3a -> typed_on b (code e) = Some c -> release e = false -> length (text b) <> 63%nat ->
  exists s', on_line (input_putc c) (Kbd u (left_shift s) (right_shift s) (left_alt s) (right_alt s) (left_ctrl s) (right_ctrl s) (caps_lock s) (s64 (key_cnt s + 1))) = Ok (tt, s') /\
    settled s s' (strike b e) tx (answers (dev u)).
Proof using H Hu Ho Hc.
  intros Hn Ek Et Er Hl. destruct (input_putc_run u c tx (text b) Hu Ho Hl) as (u' & E & S). eexists. split; [unfold on_line; cbn [line]; by rewrite E|].
  assert (fresh_chars b e = [c]) as Hf by (unfold fresh_chars; rewrite Er, (proj2 (Nat.eqb_neq _ _) Hl), Et; done).
  destruct S as [S1 S2 S3 S4 S5 S6 (w & S7 & S8)]. unfold settled. cbn [line]. rewrite S4, S5, S7.
  assert (w = []) as -> by (unfold notice in S8; destruct w; [done|]; by destruct (bool_decide (mode u = QUEUE))).
  split; [|done]. split; cbn [line caps_lock key_cnt].
  - cbn [strike text]. by rewrite Hf.
  - intros v. rewrite held_other, <- (ko_var _ _ _ H v) by done. by destruct v.
  - rewrite (ko_caps _ _ _ H). cbn. by rewrite (proj2 (Z.eqb_neq _ _) Ek).
  - cbn [strike entered]. rewrite Hf, (ko_cnt _ _ _ H). cbn [length Z.of_nat Pos.of_succ_nat]. apply wraps_eq.
    by rewrite Z.add_mod, wraps_mod, <- Z.add_mod by done.
Qed.

End Branches.

(** One interrupt. *)
Lemma keyboard_interrupt_run s b tx e rest : kbd_ok s b tx -> off (line s) = true -> event_ok e -> answers (dev (line s)) = scan_bytes e ++ rest ->
  exists s', keyboard_interrupt s = Ok (tt, s') /\ settled s s' (strike b e) tx rest.
Proof.
  intros H Ho He Ha. destruct (scancode_run s b tx e rest H He Ha) as (u & S & <- & Hscan). destruct (down_vars s b tx H) as (D1 & D2 & D3).
  pose proof (sp_ok _ _ _ _ _ S) as Hu. assert (off u = true) as Hou by (rewrite (sp_off _ _ _ _ _ S); exact Ho). pose proof (sp_ctx _ _ _ _ _ S) as Hcu.
  unfold keyboard_interrupt. mnorm. rewrite Hscan. destruct (raw_code e He) as [Hr Hc]. rewrite Hr, Hc, D1, D2, D3. clear Hr Hc Hscan.
  pose proof (keymaps_typed (down b 0x2a 0x36) (down b 0x38 0xe038) (down b 0x1d 0xe01d) (caps b) (code e) (event_code e He)) as Hty.
  fold (typed_on b (code e)) (mapped_char (down b 0x2a 0x36) (code e)) in *. destruct (code e =? 0x3a) eqn:Ek.
  { apply Z.eqb_eq in Ek. destruct (release e) eqn:Er; (eexists; split; [reflexivity|]);
      [apply (caps_settled s b tx e u H Hu Hou Hcu (caps_lock s))|apply (caps_settled s b tx e u H Hu Hou Hcu (negb (caps_lock s)))]; try done; by rewrite Er, (ko_caps _ _ _ H). }
  apply Z.eqb_neq in Ek. destruct (mapped_char (down b 0x2a 0x36) (code e)) as [c|] eqn:Em; cbn [fmap option_fmap option_map] in Hty.
  2: { pose proof (shift_settled s b tx e u H He Hu Hou Hcu Ek (eq_sym Hty)) as P. eexists. split; [|exact P]. by destruct (find_shift shift_keys (code e)). }
  assert (forall v, code e <> var_code v) as Hn by (intros v; apply (mapped_not_var _ _ _ v Em)).
  destruct (release e) eqn:Er; cbn [negb].
  { eexists. split; [reflexivity|]. apply char_settled; try done. unfold fresh_chars. by rewrite Er. }
  mstep (on_line_run _ (with_line s u) _ _ (input_full_run u tx (text b) Hu Hou)).
  destruct (length (text b) =? 63)%nat eqn:Ef; cbn [negb].
  { eexists. split; [reflexivity|]. apply char_settled; try done. unfold fresh_chars. by rewrite Ef, orb_true_r. }
  mnorm. apply Nat.eqb_neq in Ef. rewrite (ko_caps _ _ _ H).
  destruct (enter_settled s b tx e u H Hu Hou Hcu _ Hn Ek (eq_sym Hty) Er Ef) as (s' & E & P). exists s'. split; [exact E|exact P].
Qed.

(** ** Sessions *)

(** What happens at the keyboard, and a thread that reads a character. *)
Inductive kop := Key (e : event) | Getc.

Fixpoint session (l : list kop) : M kbd (list Z) :=
  match l with
  | [] => ret []
  | Key e :: l => keyboard_interrupt;; session l
  | Getc :: l => c ← on_line input_getc; cs ← session l; ret (c :: cs)
  end.
Definition delivered (o : kop) : list Z := match o with Key e => scan_bytes e | Getc => [] end.

(** The same with the keys alone; a read needs a character. *)
Fixpoint play (b : board) (l : list kop) : option (list Z * board) :=
  match l with
  | [] => Some ([], b)
  | Key e :: l => play (strike b e) l
  | Getc :: l =>
      match text b with
      | [] => None
      | c :: t => (fun p : list Z * board => (c :: p.1, p.2)) <$> play (Board (held b) (caps b) t (entered b)) l
      end
  end.

(** C21: The keyboard driver types what is on the keys.  For every sequence of key
    presses and releases and of reads, whatever is held down, the driver
    delivers the characters that the keys of a US keyboard stand for, in
    order: shifted with Shift, with the cases of letters exchanged under Caps
    Lock, as control characters with Ctrl, with the high bit under Alt; shift
    keys count from press to release, on each side alone, and what arrives
    when 63 characters wait is dropped.  Nothing else that the keyboard sends
    has an effect, and [key_cnt] is the number of characters that were
    entered. *)
Theorem keyboard_refines_board l s b tx rest ks b' :
  kbd_ok s b tx -> off (line s) = true -> ctx (line s) = false -> Forall (fun o => match o with Key e => event_ok e | Getc => True end) l ->
  answers (dev (line s)) = concat (delivered <$> l) ++ rest -> play b l = Some (ks, b') ->
  exists s', session l s = Ok (ks, s') /\ kbd_ok s' b' tx /\ answers (dev (line s')) = rest.
Proof.
  revert s b ks. induction l as [|[e|] l IH]; intros s b ks H Ho Hx Hl Ha Hp; cbn [session play] in *.
  - injection Hp as <- <-. by exists s.
  - apply Forall_cons in Hl as [He Hl]. cbn in Ha. rewrite <- app_assoc in Ha.
    destruct (keyboard_interrupt_run s b tx e _ H Ho He Ha) as (s1 & E & Hs & Ho1 & Hx1 & Ha1). mstep E. apply (IH s1 (strike b e)); [done..|congruence|done|done|done].
  - apply Forall_cons in Hl as [_ Hl]. destruct (text b) as [|c t] eqn:Et; [done|]. destruct (play _ l) as [[ks' b'']|] eqn:Ep; [|done]. injection Hp as <- <-.
    pose proof (ko_line _ _ _ H) as Hu. rewrite Et in Hu.
    destruct (input_getc_run (line s) tx c t Hu ltac:(unfold level_ok; congruence)) as (u & E & S). mstep (on_line_run _ _ _ _ E).
    destruct S as [S1 S2 S3 S4 S5 S6 (w & S7 & S8)].
    assert (w = []) as -> by (unfold notice in S8; destruct w; [done|]; by destruct (bool_decide (mode (line s) = QUEUE))).
    destruct (IH (with_line s u) (Board (held b) (caps b) t (entered b)) ks') as (s' & E' & R); cbn [with_line line]; [|congruence|congruence|done| |done|].
    + destruct H as [H1 H2 H3 H4]. by split.
    + cbn in S7. by rewrite <- S7, Ha.
    + mstep E'. by exists s'.
Qed.

(** "aB" with Caps Lock: shift down, a, shift up, Caps Lock, b, Ctrl-Alt-c, and
    two reads. *)
Definition demo_keys : list kop :=
  Key <$> [Event 0x2a false; Event 0x1e false; Event 0x2a true; Event 0x1e true; Event 0x3a false; Event 0x3a true; Event 0x30 false; Event 0xe01d false; Event 0x38 false; Event 0x2e false].
Definition demo_kbd : kbd := Kbd (demo_uart (concat (delivered <$> demo_keys))) false false false false false false false 0.

Lemma keyboard_refines_board_witness : exists s' b', session (demo_keys ++ [Getc; Getc]) demo_kbd = Ok ([65; 66], s') /\
  kbd_ok s' b' [] /\ text b' = [131] /\ caps b' = true /\ entered b' = 3.
Proof.
  assert (exists b', play (Board ∅ false [] 0) (demo_keys ++ [Getc; Getc]) = Some ([65; 66], b') /\ text b' = [131] /\ caps b' = true /\ entered b' = 3) as (b' & Ep & Hb)
    by (eexists; split; [vm_compute; reflexivity|]; by repeat split).
  destruct (keyboard_refines_board (demo_keys ++ [Getc; Getc]) demo_kbd (Board ∅ false [] 0) [] [] [65; 66] b') as (s' & E & H & _); [|reflexivity|reflexivity| |by vm_compute|exact Ep|].
  - split; [split; apply Build_intq_ok; vm_compute; intuition congruence|by intros []|reflexivity|reflexivity].
  - repeat apply Forall_cons_2; try exact I; try apply Forall_nil_2; unfold event_ok; cbn [code release]; lia.
  - exists s', b'. split; [exact E|]. split; [exact H|exact Hb].
Defined.
