(* ===== verification/Stdio.v ===== *)
(** * Formatted output (lib/stdio.c)

    The conversions of [__vprintf], for any function [output] that takes the
    characters, and [vsnprintf], which stores them into a buffer.

    A format is the list of its characters with the terminating null byte;
    reading behind the terminator faults.  The arguments are the 8-byte slots
    in which they are passed, and [va_arg] reads as many low bytes of a slot as
    its type has; strings are read from the byte memory.  The state is that
    memory and what [aux] points to. *)

From Stdlib Require Import Ascii String.
From S2P Require Import Prelude Bitmap CString CStdlib.

Definition ch (c : ascii) : Z := Z.of_N (N_of_ascii c).
(** A string literal, without its terminator. *)
Definition chars (s : string) : list Z := ch <$> list_ascii_of_string s.

(** ** Data *)

Definition MINUS : Z := 1.
Definition PLUS : Z := 2.
Definition SPACE : Z := 4.
Definition POUND : Z := 8.
Definition ZERO : Z := 16.
Definition GROUP : Z := 32.
Definition flag_set (flags f : Z) : bool := negb (Z.land flags f =? 0).
(** [flags &= ~f], at the width of the enumeration. *)
Definition flag_clear (flags f : Z) : Z := Z.land flags (u32 (Z.lnot f)).

(** The type of the argument. *)
Inductive arg_type := CHAR | SHORT | INT | INTMAX | LONG | LONGLONG | PTRDIFFT | SIZET.

Record printf_conversion := Conversion { flags : Z; width : Z; precision : Z; type : arg_type }.
Record integer_base := IntegerBase { base : Z; digits : list Z; x_char : Z; group : Z }.

Definition base_d : integer_base := IntegerBase 10 (chars "0123456789") 0 3.
Definition base_o : integer_base := IntegerBase 8 (chars "01234567") 0 3.
Definition base_x : integer_base := IntegerBase 16 (chars "0123456789abcdef") (ch "x") 4.
Definition base_X : integer_base := IntegerBase 16 (chars "0123456789ABCDEF") (ch "X") 4.

(** ** Parsing *)

Definition peek (format : list Z) : result Z := match format with c :: _ => Ok c | [] => Fault end.
Definition va_arg (args : list Z) : result (Z * list Z) := match args with a :: args => Ok (a, args) | [] => Fault end.

(** The loop over the flag characters. *)
Fixpoint parse_flags (format : list Z) (flags : Z) : result (Z * list Z) :=
  match format with
  | [] => Fault
  | c :: rest =>
      if c =? ch "-" then parse_flags rest (Z.lor flags MINUS)
      else if c =? ch "+" then parse_flags rest (Z.lor flags PLUS)
      else if c =? ch " " then parse_flags rest (Z.lor flags SPACE)
      else if c =? ch "#" then parse_flags rest (Z.lor flags POUND)
      else if c =? ch "0" then parse_flags rest (Z.lor flags ZERO)
      else if c =? ch "'" then parse_flags rest (Z.lor flags GROUP)
      else Ok (flags, format)
  end.

(** [for (; isdigit ( *format); format++) n = n * 10 + *format - '0';] *)
Fixpoint parse_number (format : list Z) (n : Z) : result (Z * list Z) :=
  match format with
  | [] => Fault
  | c :: rest => if isdigit c then parse_number rest (s32 (s32 (s32 (n * 10) + c) - ch "0")) else Ok (n, format)
  end.

Definition parse_width (format args : list Z) : result (Z * list Z * list Z) :=
  let! c := peek format in
  if c =? ch "*" then let! (a, args) := va_arg args in Ok (s32 a, tail format, args)
  else let! (n, format) := parse_number format 0 in Ok (n, format, args).

Definition parse_precision (format args : list Z) : result (Z * list Z * list Z) :=
  let! c := peek format in
  if c =? ch "." then
    let! (p, format, args) := parse_width (tail format) args in
    Ok (if p <? 0 then -1 else p, format, args)
  else Ok (-1, format, args).

Definition parse_type (format : list Z) : result (arg_type * list Z) :=
  let! c := peek format in
  let rest := tail format in
  if c =? ch "h" then let! d := peek rest in Ok (if d =? ch "h" then (CHAR, tail rest) else (SHORT, rest))
  else if c =? ch "j" then Ok (INTMAX, rest)
  else if c =? ch "l" then let! d := peek rest in Ok (if d =? ch "l" then (LONGLONG, tail rest) else (LONG, rest))
  else if c =? ch "t" then Ok (PTRDIFFT, rest)
  else if c =? ch "z" then Ok (SIZET, rest)
  else Ok (INT, format).

Definition parse_conversion (format args : list Z) : result (printf_conversion * list Z * list Z) :=
  let! (fl, format) := parse_flags format 0 in
  let fl := if flag_set fl MINUS then flag_clear fl ZERO else fl in
  let fl := if flag_set fl PLUS then flag_clear fl SPACE else fl in
  let! (w, format, args) := parse_width format args in
  let '(w, fl) := if w <? 0 then (s32 (- w), Z.lor fl MINUS) else (w, fl) in
  let! (p, format, args) := parse_precision format args in
  let fl := if 0 <=? p then flag_clear fl ZERO else fl in
  let! (t, format) := parse_type format in
  Ok (Conversion fl w p t, format, args).

(** ** Arguments *)

(** The value of a signed conversion, as an [intmax_t]; [SIZE_MAX] is the
    32-bit maximum. *)
Definition signed_arg (t : arg_type) (a : Z) : Z :=
  match t with
  | CHAR => wraps 8 a
  | SHORT => wraps 16 a
  | INT => s32 a
  | INTMAX | LONG | LONGLONG | PTRDIFFT => s64 a
  | SIZET => let value := s64 a in if SIZE_MAX / 2 <? value then value - SIZE_MAX - 1 else value
  end.
(** The value of an unsigned conversion; [PTRDIFF_MAX] is the 32-bit maximum. *)
Definition unsigned_arg (t : arg_type) (a : Z) : Z :=
  match t with
  | CHAR => u8 a
  | SHORT => u16 a
  | INT => u32 a
  | INTMAX | LONG | LONGLONG | SIZET => u64 a
  | PTRDIFFT => Z.land (u64 a) (Z.lor (Z.shiftl 2147483647 1) 1)
  end.

(** ** Integers *)

(** [char buf[64]], the characters in it with the last one first. *)
Definition BUF_SIZE : nat := 64.
Definition push (c : Z) (buf : list Z) : result (list Z) :=
  if (List.length buf <? BUF_SIZE)%nat then Ok (c :: buf) else Fault.

(** The digits of [value], with commas between groups; 64 rounds are enough for
    a 64-bit value. *)
Fixpoint digits_loop (fuel : nat) (b : integer_base) (grouped : bool) (value digit_cnt : Z) (buf : list Z) : result (list Z) :=
  if 0 <? value then
    match fuel with
    | O => NoFuel
    | S fuel =>
        let! buf := (if grouped && (0 <? digit_cnt) && (Z.rem digit_cnt (group b) =? 0) then push (ch ",") buf else Ok buf) in
        let! d := deref (digits b !! Z.to_nat (Z.rem value (base b))) in
        let! buf := push d buf in
        digits_loop fuel b grouped (Z.quot value (base b)) (digit_cnt + 1) buf
    end
  else Ok buf.

(** [while (cp - buf < precision && cp < buf + sizeof buf - 1) *cp++ = '0';] *)
Fixpoint zeros_loop (fuel : nat) (precision : Z) (buf : list Z) : result (list Z) :=
  if (Z.of_nat (List.length buf) <? precision) && (List.length buf <? BUF_SIZE - 1)%nat then
    match fuel with
    | O => NoFuel
    | S fuel => let! buf := push (ch "0") buf in zeros_loop fuel precision buf
    end
  else Ok buf.

(** The characters of the number, before padding. *)
Definition integer_chars (value : Z) (b : integer_base) (c : printf_conversion) : result (list Z) :=
  let! buf := digits_loop 64 b (flag_set (flags c) GROUP) value 0 [] in
  let! buf := zeros_loop 64 (if precision c <? 0 then 1 else precision c) buf in
  if flag_set (flags c) POUND && (base b =? 8) && match buf with [] => true | d :: _ => negb (d =? ch "0") end
  then push (ch "0") buf else Ok buf.

Definition sign_of (is_signed negative : bool) (flags : Z) : Z :=
  if is_signed then
    if flag_set flags PLUS then if negative then ch "-" else ch "+"
    else if flag_set flags SPACE then if negative then ch "-" else ch " "
    else if negative then ch "-" else 0
  else 0.

(** ** Conversions *)

Section Output.
Context {A : Type}.
(** [output (ch, aux)]. *)
Variable output : Z -> M (mem * A) unit.
(** A bound on the length of the strings. *)
Variable fuel : nat.

Definition on_mem {B} (f : M mem B) : M (mem * A) B := fun '(m, x) => let! (b, m) := f m in Ok (b, (m, x)).

Fixpoint output_all (l : list Z) : M (mem * A) unit :=
  match l with [] => ret tt | c :: l => output c;; output_all l end.
Fixpoint output_loop (n : nat) (c : Z) : M (mem * A) unit :=
  match n with O => ret tt | S n => output c;; output_loop n c end.
Definition output_dup (c cnt : Z) : M (mem * A) unit := output_loop (Z.to_nat cnt) c.

Definition format_integer (value : Z) (is_signed negative : bool) (b : integer_base) (c : printf_conversion) : M (mem * A) unit :=
  let sign := sign_of is_signed negative (flags c) in
  let x := if flag_set (flags c) POUND && negb (value =? 0) then x_char b else 0 in
  buf ← lift (integer_chars value b c);
  let pad_cnt := s32 (width c - Z.of_nat (List.length buf) - (if negb (x =? 0) then 2 else 0) - (if negb (sign =? 0) then 1 else 0)) in
  let pad_cnt := if pad_cnt <? 0 then 0 else pad_cnt in
  (if negb (flag_set (flags c) (Z.lor MINUS ZERO)) then output_dup (ch " ") pad_cnt else ret tt);;
  (if negb (sign =? 0) then output sign else ret tt);;
  (if negb (x =? 0) then output (ch "0");; output x else ret tt);;
  (if flag_set (flags c) ZERO then output_dup (ch "0") pad_cnt else ret tt);;
  output_all buf;;
  (if flag_set (flags c) MINUS then output_dup (ch " ") pad_cnt else ret tt).

(** [for (i = 0; i < length; i++) output (string[i], aux);] where [string]
    reads one character. *)
Fixpoint string_loop (n : nat) (i : Z) (string : Z -> M (mem * A) Z) : M (mem * A) unit :=
  match n with O => ret tt | S n => c ← string i; output c;; string_loop n (i + 1) string end.
Definition format_string (string : Z -> M (mem * A) Z) (length : Z) (c : printf_conversion) : M (mem * A) unit :=
  (if (length <? width c) && negb (flag_set (flags c) MINUS) then output_dup (ch " ") (width c - length) else ret tt);;
  string_loop (Z.to_nat length) 0 string;;
  (if (length <? width c) && flag_set (flags c) MINUS then output_dup (ch " ") (width c - length) else ret tt).

(** The string of [%s]: the literal stands for a null pointer. *)
Definition format_pointer (s : Z) (c : printf_conversion) : M (mem * A) unit :=
  if s =? NULL then
    let l := chars "(null)" in
    let n := if (0 <=? precision c) && (precision c <? Z.of_nat (List.length l)) then precision c else Z.of_nat (List.length l) in
    format_string (fun i => lift (deref (l !! Z.to_nat i))) n c
  else
    n ← on_mem (strnlen fuel s (u64 (precision c)));
    format_string (fun i => on_mem (load (s + i))) (s32 n) c.

(** [__vprintf] and [__printf]: [n] bounds the characters of the format and of
    the message for a conversion that is not supported. *)
Fixpoint __vprintf (n : nat) (format args : list Z) : M (mem * A) unit :=
  match n with
  | O => out_of_fuel
  | S n =>
      f ← lift (peek format);
      if f =? 0 then ret tt
      else if negb (f =? ch "%") then output f;; __vprintf n (tail format) args
      else
        let format := tail format in
        f ← lift (peek format);
        if f =? ch "%" then output (ch "%");; __vprintf n (tail format) args
        else
          r ← lift (parse_conversion format args);
          let '(c, format, args) := r in
          f ← lift (peek format);
          args ←
            (if (f =? ch "d") || (f =? ch "i") then
               a ← lift (va_arg args);
               let value := signed_arg (type c) a.1 in
               format_integer (u64 (if value <? 0 then - value else value)) true (value <? 0) base_d c;; ret a.2
             else if (f =? ch "o") || (f =? ch "u") || (f =? ch "x") || (f =? ch "X") then
               a ← lift (va_arg args);
               let b := if f =? ch "o" then base_o else if f =? ch "u" then base_d else if f =? ch "x" then base_x else base_X in
               format_integer (unsigned_arg (type c) a.1) false false b c;; ret a.2
             else if f =? ch "c" then
               a ← lift (va_arg args);
               format_string (fun _ => ret (u8 a.1)) 1 c;; ret a.2
             else if f =? ch "s" then
               a ← lift (va_arg args);
               format_pointer (u64 a.1) c;; ret a.2
             else if f =? ch "p" then
               a ← lift (va_arg args);
               format_integer (u64 a.1) false false base_x (Conversion POUND (width c) (precision c) (type c));; ret a.2
             else if (f =? ch "f") || (f =? ch "e") || (f =? ch "E") || (f =? ch "g") || (f =? ch "G") || (f =? ch "n") then
               __vprintf n (chars "<<no %%%c in kernel>>" ++ [0]) [f];; ret args
             else
               __vprintf n (chars "<<no %%%c conversion>>" ++ [0]) [f];; ret args);
          __vprintf n (tail format) args
  end.
End Output.

(** ** Output into a buffer *)

Record vsnprintf_aux := Aux { p : Z; length : Z; max_length : Z }.

Definition vsnprintf_helper (c : Z) : M (mem * vsnprintf_aux) unit := fun '(m, aux) =>
  let len := s32 (length aux + 1) in
  if length aux <? max_length aux then
    let! (_, m) := store (p aux) c m in Ok (tt, (m, Aux (p aux + 1) len (max_length aux)))
  else Ok (tt, (m, Aux (p aux) len (max_length aux))).

Definition vsnprintf (fuel n : nat) (buffer buf_size : Z) (format args : list Z) : M mem Z := fun m =>
  let aux := Aux buffer 0 (if 0 <? buf_size then s32 (buf_size - 1) else 0) in
  let! (_, (m, aux)) := __vprintf vsnprintf_helper fuel n format args (m, aux) in
  let! (_, m) := (if 0 <? buf_size then store (p aux) 0 else ret tt) m in
  Ok (length aux, m).

Definition snprintf (fuel n : nat) (buffer buf_size : Z) (format args : list Z) : M mem Z :=
  vsnprintf fuel n buffer buf_size format args.
