(* ===== verification/StdioSpec.v ===== *)
(** * Formatted output: properties

    What an integer conversion prints, for every conversion and base; that
    [vsnprintf] stores the beginning of exactly what [__vprintf] prints; and
    that [atoi] reads back what [%d] prints. *)

From Stdlib Require Import Ascii String.
From S2P Require Import Prelude Bitmap CString CStdlib Stdio.

(** ** Digits *)

Inductive is_base : integer_base -> Prop :=
  | is_d : is_base base_d
  | is_o : is_base base_o
  | is_x : is_base base_x
  | is_X : is_base base_X.

(** The value of a digit: its position among the digits. *)
Definition digit_value (b : integer_base) (c : Z) : Z :=
  Z.of_nat (default 0%nat (fst <$> list_find (eq c) (digits b))).
(** The value of a sequence of digits; the commas between groups do not count. *)
Definition value_of (b : integer_base) (ds : list Z) : Z :=
  foldl (fun v c => base b * v + digit_value b c) 0 (List.filter (fun c => negb (c =? ch ",")) ds).

Record base_facts (b : integer_base) : Prop := {
  bf_base : 8 <= base b <= 16;
  bf_octal : 2 ^ 64 <= base b ^ 22;
  bf_group : 0 < group b;
  bf_digit k : 0 <= k < base b -> exists d, digits b !! Z.to_nat k = Some d /\ digit_value b d = k /\ 0 < d < 256 /\ d <> ch "," /\ (d = ch "0" <-> k = 0)
}.

Lemma is_base_facts b : is_base b -> base_facts b.
Proof.
  intros H. assert (forall n (P : nat -> bool), forallb P (seq 0 n) = true -> forall k, 0 <= k < Z.of_nat n -> P (Z.to_nat k) = true) as Hall.
  { intros n P Hf k Hk. rewrite forallb_forall in Hf. apply Hf, in_seq. lia. }
  set (P b k := match digits b !! k with
    Some d => (digit_value b d =? Z.of_nat k) && (0 <? d) && (d <? 256) && negb (d =? ch ",") && eqb (d =? ch "0") (k =? 0)%nat | None => false end).
  assert (forallb (P b) (seq 0 (Z.to_nat (base b))) = true) as Hf by (destruct H; by vm_compute).
  split; [destruct H; cbn [base base_d base_o base_x base_X]; lia|destruct H; by vm_compute|destruct H; by vm_compute|]. intros k Hk.
  specialize (Hall _ _ Hf k). rewrite Z2Nat.id in Hall by lia. specialize (Hall Hk). unfold P in Hall.
  destruct (digits b !! Z.to_nat k) as [d|]; [|done]. exists d. rewrite !andb_true_iff, negb_true_iff, eqb_true_iff in Hall.
  destruct Hall as [[[[H1 H2] H3] H4] H5]. clear Hf P.
  apply Z.eqb_eq in H1. rewrite Z2Nat.id in H1 by lia. apply Z.ltb_lt in H2, H3. apply Z.eqb_neq in H4. split_and!; [done..|].
  destruct (Z.eqb_spec d (ch "0")), (Nat.eqb_spec (Z.to_nat k) 0); split; intros; try done; lia.
Qed.

Lemma value_of_snoc b ds c : c <> ch "," -> value_of b (ds ++ [c]) = base b * value_of b ds + digit_value b c.
Proof.
  intros Hc. unfold value_of. rewrite List.filter_app. cbn [List.filter]. rewrite (proj2 (Z.eqb_neq _ _) Hc). cbn [negb]. by rewrite foldl_app.
Qed.

Lemma value_of_comma b ds : value_of b (ds ++ [ch ","]) = value_of b ds.
Proof. unfold value_of. rewrite List.filter_app. cbn [List.filter]. rewrite Z.eqb_refl. cbn [negb]. by rewrite app_nil_r. Qed.

Lemma value_of_zeros b n ds : is_base b -> value_of b (replicate n (ch "0") ++ ds) = value_of b ds.
Proof.
  intros H. induction n as [|n IH]; [done|]. cbn [replicate app]. rewrite <- IH. unfold value_of. cbn [List.filter].
  change (negb (ch "0" =? ch ",")) with true. cbn [foldl]. f_equal. assert (digit_value b (ch "0") = 0) as -> by (by destruct H). lia.
Qed.

Lemma push_run c buf : (List.length buf < 64)%nat -> push c buf = Ok (c :: buf).
Proof. intros H. unfold push, BUF_SIZE. by rewrite (proj2 (Nat.ltb_lt _ _)). Qed.

(** The characters an integer conversion may put into its buffer. *)
Definition digit_char (b : integer_base) (g : bool) (c : Z) : Prop := c ∈ digits b /\ 0 < c < 256 /\ c <> ch "," \/ g = true /\ c = ch ",".

Lemma digits_loop_run b g n : is_base b -> forall fuel value cnt buf,
  0 <= value < base b ^ Z.of_nat n -> (n <= fuel)%nat -> 0 <= cnt -> (List.length buf + 2 * n <= 64)%nat ->
  exists ds, digits_loop fuel b g value cnt buf = Ok (ds ++ buf) /\ (List.length ds <= (if g then 2 else 1) * n)%nat /\ value_of b ds = value /\
    Forall (digit_char b g) ds /\ (value = 0 -> ds = []) /\ (0 < value -> exists d ds', ds = d :: ds' /\ d ∈ digits b /\ d <> ch "0" /\ d <> ch ",").
Proof.
  intros Hb. pose proof (is_base_facts b Hb) as [B1 B2 B3 B4]. induction n as [|n IH]; intros fuel value cnt buf Hv Hf Hc Hl.
  - exists []. replace value with 0 by (cbn in Hv; lia). destruct fuel; cbn; split_and!; try done; lia.
  - destruct (Z.ltb_spec 0 value) as [Hp|Hz].
    2:{ exists []. replace value with 0 by lia. destruct fuel; cbn; split_and!; try done; lia. }
    destruct fuel as [|fuel]; [lia|]. cbn [digits_loop]. rewrite (proj2 (Z.ltb_lt 0 value)) by lia.
    rewrite (Z.rem_mod_nonneg value (base b)), (Z.quot_div_nonneg value (base b)) by lia. pose proof (Z.mod_pos_bound value (base b) ltac:(lia)) as Hm.
    destruct (B4 _ Hm) as (d & Hd & Ed & Hd8 & Hdc & Hd0). rewrite Hd. cbn [deref rbind].
    set (comma := g && (0 <? cnt) && (Z.rem cnt (group b) =? 0)).
    set (buf1 := if comma then ch "," :: buf else buf).
    assert ((if comma then push (ch ",") buf else Ok buf) = Ok buf1) as -> by (unfold buf1; destruct comma; [apply push_run; lia|done]).
    cbn [rbind]. assert (List.length buf1 <= S (List.length buf))%nat as Hl1 by (unfold buf1; destruct comma; cbn; lia).
    rewrite push_run by lia. cbn [rbind].
    assert (0 <= value / base b < base b ^ Z.of_nat n) as Hq.
    { split; [apply Z.div_pos; lia|]. apply Z.div_lt_upper_bound; [lia|]. rewrite Nat2Z.inj_succ, Z.pow_succ_r in Hv by lia. lia. }
    destruct (IH fuel (value / base b) (cnt + 1) (d :: buf1) Hq) as (ds & E & L & V & F & Z0 & Zp); [lia|lia|cbn; lia|].
    assert (d ∈ digits b) as Hin by (by apply list_elem_of_lookup_2 in Hd).
    pose proof (Z.div_mod value (base b) ltac:(lia)) as Ev.
    assert (exists d0 ds0, ds ++ [d] = d0 :: ds0 /\ d0 ∈ digits b /\ d0 <> ch "0" /\ d0 <> ch ",") as Hhead.
    { destruct (Z.ltb_spec 0 (value / base b)) as [Hqp|Hq0].
      - destruct (Zp Hqp) as (d0 & ds0 & -> & H1 & H2 & H3). by exists d0, (ds0 ++ [d]).
      - rewrite Z0 by lia. exists d, []. split_and!; [done|done| |done]. rewrite Hd0. intros H0. replace (value / base b) with 0 in Ev by lia. lia. }
    assert (value_of b (ds ++ [d]) = value) as Vd by (rewrite value_of_snoc, V, Ed by done; lia).
    exists (ds ++ [d] ++ (if comma then [ch ","] else [])). rewrite E. split_and!.
    + unfold buf1. destruct comma; rewrite <- ?app_assoc; cbn; try done; by rewrite <- !app_assoc.
    + rewrite !length_app. unfold comma. destruct g; [destruct (_ && _)|]; cbn [andb List.length] in *; lia.
    + destruct comma; [by rewrite app_assoc, value_of_comma|by rewrite app_nil_r].
    + apply Forall_app. split; [done|]. constructor; [by left|]. destruct comma eqn:Ec; constructor; [|constructor].
      right. split; [|done]. unfold comma in Ec. by apply andb_true_iff in Ec as [[? _]%andb_true_iff _].
    + lia.
    + intros _. destruct Hhead as (d0 & ds0 & E0 & H0). exists d0, (ds0 ++ (if comma then [ch ","] else [])). by rewrite app_assoc, E0.
Qed.

Lemma zeros_loop_run precision fuel : forall buf,
  (List.length buf <= 63)%nat -> (63 <= List.length buf + fuel)%nat ->
  exists z, zeros_loop fuel precision buf = Ok (replicate z (ch "0") ++ buf) /\ (z + List.length buf <= 63)%nat /\
    Z.min precision 63 <= Z.of_nat (z + List.length buf) /\ (precision <= Z.of_nat (List.length buf) -> z = 0%nat) /\
    (Z.of_nat (List.length buf) < precision -> Z.of_nat (z + List.length buf) <= precision).
Proof.
  induction fuel as [|fuel IH]; intros buf Hn Hf; cbn [zeros_loop].
  - exists 0%nat. unfold BUF_SIZE. rewrite (proj2 (Nat.ltb_ge (List.length buf) (64 - 1))) by lia. rewrite andb_false_r. split_and!; try done; lia.
  - destruct (Z.ltb_spec (Z.of_nat (List.length buf)) precision) as [Hp|Hp]; cbn [andb].
    + unfold BUF_SIZE. destruct (Nat.ltb_spec (List.length buf) (64 - 1)) as [Hl|Hl].
      * rewrite push_run by lia. cbn [rbind]. destruct (IH (ch "0" :: buf)) as (z & E & Hz & Hlen & H0 & Hle); [cbn; lia|cbn; lia|].
        exists (S z). rewrite E. cbn [List.length] in *. split_and!; [|lia|lia|lia|].
        -- cbn [replicate]. rewrite replicate_cons_app, <- app_assoc. done.
        -- intros _. destruct (Z.ltb_spec (Z.of_nat (S (List.length buf))) precision); [lia|]. rewrite H0 in * by lia. lia.
      * exists 0%nat. split_and!; try done; lia.
    + exists 0%nat. split_and!; try done; lia.
Qed.

(** Integer conversions fit into the buffer, whatever the flags. *)
Lemma integer_chars_run b c value :
  is_base b -> is_u64 value ->
  exists buf, integer_chars value b c = Ok buf /\ (List.length buf <= 64)%nat /\ value_of b buf = value /\
    Forall (digit_char b (flag_set (flags c) GROUP)) buf /\
    Z.min (if precision c <? 0 then 1 else precision c) 63 <= Z.of_nat (List.length buf) /\
    (flags c = 0 -> precision c = -1 -> value = 0 /\ buf = [ch "0"] \/ 0 < value /\ exists d ds, buf = d :: ds /\ d <> ch "0").
Proof.
  intros Hb Hv. pose proof (is_base_facts b Hb) as [B1 B2 B3 B4]. unfold integer_chars.
  destruct (digits_loop_run b (flag_set (flags c) GROUP) 22 Hb 64 value 0 []) as (ds & E & L & V & F & Z0 & Zp); [unfold is_u in Hv; lia|lia|lia|cbn; lia|].
  assert (List.length ds <= 44)%nat as L44 by (destruct (flag_set (flags c) GROUP); lia). rewrite E, app_nil_r. cbn [rbind]. set (pr := if precision c <? 0 then 1 else precision c).
  destruct (zeros_loop_run pr 64 ds) as (z & Ez & Lz & Hmin & Hz0 & Hle); [lia|lia|]. rewrite Ez. cbn [rbind].
  assert (forall n, Forall (digit_char b (flag_set (flags c) GROUP)) (replicate n (ch "0"))) as Fz.
  { intros n. apply Forall_replicate. left. destruct (B4 0 ltac:(lia)) as (d & Hd & _ & H8 & Hc & H0). rewrite <- (proj2 H0 eq_refl).
    split_and!; [by apply list_elem_of_lookup_2 in Hd|lia|lia|done]. }
  set (buf := replicate z (ch "0") ++ ds) in *. assert (value_of b buf = value) as Vb by (unfold buf; by rewrite value_of_zeros).
  assert (List.length buf = z + List.length ds)%nat as Lb by (unfold buf; by rewrite length_app, length_replicate).
  assert (Forall (digit_char b (flag_set (flags c) GROUP)) buf) as Fb by (apply Forall_app; by split).
  destruct (_ && match buf with [] => true | _ => _ end) eqn:Eo.
  - rewrite push_run by lia. exists (ch "0" :: buf). split_and!; [done|cbn; lia|rewrite <- Vb; by apply (value_of_zeros b 1)| |cbn; lia|].
    + constructor; [|done]. pose proof (Fz 1%nat) as F1. by apply Forall_cons in F1 as [? _].
    + intros Hf. rewrite Hf in Eo. done.
  - exists buf. split_and!; [done|lia|done|done|lia|]. intros Hf Hp. unfold pr in *. rewrite Hp in *. cbn [Z.ltb Z.compare] in *.
    destruct (Z.eq_dec value 0) as [->|Hne].
    + left. split; [done|]. unfold buf. rewrite Z0 in * by done. cbn in Lz, Hmin, Hle. destruct z as [|[|z]]; [lia|done|lia].
    + right. split; [unfold is_u in Hv; lia|]. destruct (Zp ltac:(unfold is_u in Hv; lia)) as (d & ds' & Ed & _ & H0 & _). exists d, ds'. split; [|done].
      unfold buf. rewrite Hz0; [done|]. rewrite Ed. cbn. lia.
Qed.

(** ** The text of an integer conversion *)

(** The output that is collected in a list. *)
Definition collect (c : Z) : M (mem * list Z) unit := fun '(m, l) => Ok (tt, (m, l ++ [c])).

(** [f] puts out [l] and changes nothing else. *)
Definition appends (f : M (mem * list Z) unit) (l : list Z) : Prop := forall m out, f (m, out) = Ok (tt, (m, out ++ l)).

Lemma appends_ret : appends (ret tt) [].
Proof. intros m out. by rewrite app_nil_r. Qed.

Lemma appends_bind f g l k : appends f l -> appends g k -> appends (f;; g) (l ++ k).
Proof. intros Hf Hg m out. mstep (Hf m out). by rewrite Hg, <- app_assoc. Qed.

Lemma appends_if (b : bool) f l : appends f l -> appends (if b then f else ret tt) (if b then l else []).
Proof. intros Hf. destruct b; [done|apply appends_ret]. Qed.

Lemma appends_collect c : appends (collect c) [c].
Proof. done. Qed.

Lemma appends_all l : appends (output_all collect l) l.
Proof. induction l as [|c l IH]; [apply appends_ret|]. apply (appends_bind _ _ [c] l); [apply appends_collect|done]. Qed.

Lemma appends_dup c cnt : appends (output_dup collect c cnt) (replicate (Z.to_nat cnt) c).
Proof.
  unfold output_dup. induction (Z.to_nat cnt) as [|n IH]; [apply appends_ret|].
  apply (appends_bind _ _ [c] (replicate n c)); [apply appends_collect|done].
Qed.

(** The parts of the text, given the digits [buf]. *)
Definition sign_text (is_signed negative : bool) (fl : Z) : list Z :=
  let s := sign_of is_signed negative fl in if s =? 0 then [] else [s].
Definition prefix_text (value : Z) (b : integer_base) (fl : Z) : list Z :=
  let x := if flag_set fl POUND && negb (value =? 0) then x_char b else 0 in if x =? 0 then [] else [ch "0"; x].
Definition integer_text (value : Z) (is_signed negative : bool) (b : integer_base) (c : printf_conversion) (buf : list Z) : list Z :=
  let s := sign_text is_signed negative (flags c) in
  let x := prefix_text value b (flags c) in
  let pad := (Z.to_nat (width c) - List.length s - List.length x - List.length buf)%nat in
  (if flag_set (flags c) MINUS || flag_set (flags c) ZERO then [] else replicate pad (ch " ")) ++ s ++ x ++
  (if flag_set (flags c) ZERO then replicate pad (ch "0") else []) ++ buf ++
  (if flag_set (flags c) MINUS then replicate pad (ch " ") else []).

Lemma flag_set_lor fl a b : flag_set fl (Z.lor a b) = flag_set fl a || flag_set fl b.
Proof.
  unfold flag_set. rewrite Z.land_lor_distr_r. destruct (Z.eqb_spec (Z.land fl a) 0) as [->|Ha]; [by rewrite Z.lor_0_l|].
  destruct (Z.eqb_spec (Z.lor (Z.land fl a) (Z.land fl b)) 0) as [H|]; [|done]. by apply Z.lor_eq_0_iff in H as [? _].
Qed.

Lemma format_integer_run value sg ng b c :
  is_base b -> is_u64 value -> 0 <= width c < 2 ^ 31 ->
  exists buf, integer_chars value b c = Ok buf /\
    appends (format_integer collect value sg ng b c) (integer_text value sg ng b c buf).
Proof.
  intros Hb Hv Hw. destruct (integer_chars_run b c value Hb Hv) as (buf & E & Hl & _). exists buf. split; [done|].
  intros m out. unfold format_integer. rewrite E. mstep (eq_refl : lift (Ok buf) (m, out) = Ok (buf, (m, out))).
  unfold integer_text, sign_text, prefix_text. rewrite flag_set_lor.
  set (s := sign_of sg ng (flags c)). set (x := if flag_set (flags c) POUND && negb (value =? 0) then x_char b else 0).
  set (pad := if s32 _ <? 0 then 0 else _).
  assert (Z.to_nat pad = Z.to_nat (width c) - List.length (if (s =? 0)%Z then [] else [s]) - List.length (if (x =? 0)%Z then [] else [ch "0"; x]) - List.length buf)%nat as <-.
  { unfold pad. rewrite wraps_id; [|lia|unfold is_s; destruct (s =? 0), (x =? 0); cbn; lia].
    match goal with |- context [if ?a <? 0 then _ else _] => destruct (Z.ltb_spec a 0) end; destruct (s =? 0), (x =? 0); cbn in *; lia. }
  clearbody pad. revert m out.
  assert (forall (c0 : bool) (l : list Z), (if c0 then [] else l) = if negb c0 then l else []) as Hn by (by intros []). rewrite !Hn.
  repeat (apply appends_bind; [apply appends_if|]); [apply appends_dup|apply appends_collect|..].
  - apply (appends_bind _ _ [ch "0"] [x]); apply appends_collect.
  - apply appends_dup.
  - apply appends_bind; [apply appends_all|]. apply appends_if, appends_dup.
Qed.

(** The field is as wide as asked for, or as the number needs. *)
Lemma integer_text_width value sg ng b c buf :
  0 <= width c -> flag_set (flags c) MINUS && flag_set (flags c) ZERO = false ->
  Z.of_nat (List.length (integer_text value sg ng b c buf)) =
  Z.max (width c) (Z.of_nat (List.length (sign_text sg ng (flags c)) + List.length (prefix_text value b (flags c)) + List.length buf)).
Proof.
  intros Hw Hz. unfold integer_text. rewrite !length_app.
  destruct (flag_set (flags c) MINUS), (flag_set (flags c) ZERO); try done; cbn [orb]; rewrite length_replicate; cbn [List.length]; lia.
Qed.

(** An integer conversion prints, for every 64-bit value, base, flags, width
    and precision: blanks, the sign, the prefix of the base, zeros, the digits
    and blanks, as the flags demand.  The digits, apart from the commas between
    groups, denote the value; there are at least as many as the precision asks
    for (up to 63), and they never leave the buffer of 64 bytes.  The field has
    exactly the width asked for unless the number needs more. *)
Theorem format_integer_renders value sg ng b c m out :
  is_base b -> is_u64 value -> 0 <= width c < 2 ^ 31 ->
  exists buf, format_integer collect value sg ng b c (m, out) = Ok (tt, (m, out ++ integer_text value sg ng b c buf)) /\
    value_of b buf = value /\ (List.length buf <= 64)%nat /\ Forall (digit_char b (flag_set (flags c) GROUP)) buf /\
    Z.min (if precision c <? 0 then 1 else precision c) 63 <= Z.of_nat (List.length buf) /\
    (flag_set (flags c) MINUS && flag_set (flags c) ZERO = false ->
       Z.of_nat (List.length (integer_text value sg ng b c buf)) =
       Z.max (width c) (Z.of_nat (List.length (sign_text sg ng (flags c)) + List.length (prefix_text value b (flags c)) + List.length buf))).
Proof.
  intros Hb Hv Hw. destruct (format_integer_run value sg ng b c Hb Hv Hw) as (buf & E & Ha).
  destruct (integer_chars_run b c value Hb Hv) as (buf' & E' & H1 & H2 & H3 & H4 & _). rewrite E in E'. injection E' as <-.
  exists buf. split_and!; [apply Ha|done|done|done|done|]. apply integer_text_width. lia.
Qed.

(** [%'10d] of 1234567. *)
Lemma format_integer_renders_witness :
  exists buf, format_integer collect 1234567 true true base_d (Conversion GROUP 12 (-1) INT) (fun _ => None, []) =
    Ok (tt, (fun _ => None, chars "  -1,234,567")) /\ value_of base_d buf = 1234567.
Proof.
  destruct (format_integer_renders 1234567 true true base_d (Conversion GROUP 12 (-1) INT) (fun _ => None) [] is_d) as (buf & E & V & _);
    [split; lia|cbn; lia|]. exists buf. split; [|exact V]. by vm_compute.
Defined.

(** ** Output into a buffer

    [vsnprintf] is compared with the same conversion that collects its output,
    in a memory in which the buffer is not mapped: so no string that is printed
    may overlap the buffer. *)

Definition hide (buffer : Z) (n : nat) (m : mem) : mem := fun a => if inside buffer n a then None else m a.

(** *** Simulation

    [R] relates the run that collects the output to a run with another output
    function, and is kept by every character put out and every byte read. *)
Section simulation.
Context {A : Type} (R : mem * list Z -> mem * A -> Prop) (output : Z -> M (mem * A) unit).

(** When [f] collects some output, less than 2^31 characters in all, [g] does
    the corresponding thing. *)
Definition sim {B} (f : M (mem * list Z) B) (g : M (mem * A) B) : Prop :=
  forall s1 b s1', f s1 = Ok (b, s1') ->
    (List.length s1.2 <= List.length s1'.2)%nat /\
    (forall s2, R s1 s2 -> Z.of_nat (List.length s1'.2) < 2 ^ 31 -> exists s2', g s2 = Ok (b, s2') /\ R s1' s2').

Lemma sim_ret {B} (b : B) : sim (ret b) (ret b).
Proof using Type. intros s1 b' s1' [= <- <-]. split; [done|]. intros s2 H _. by exists s2. Qed.

Lemma sim_lift {B} (r : result B) : sim (lift r) (lift r).
Proof using Type.
  intros s1 b s1' H. unfold lift in H. apply rbind_inv in H as (a & -> & [= <- <-]). split; [done|]. intros s2 Hs _. by exists s2.
Qed.

Lemma sim_fuel {B} : sim (B := B) out_of_fuel out_of_fuel.
Proof using Type. by intros s1 b s1' H. Qed.

Lemma sim_bind {B C} (f : M _ B) (f' : M _ B) (g : B -> M _ C) (g' : B -> M _ C) :
  sim f f' -> (forall b, sim (g b) (g' b)) -> sim (bind f g) (bind f' g').
Proof using Type.
  intros Hf Hg s1 c s1'' H. apply bind_inv in H as (b & s1' & E1 & E2). destruct (Hf _ _ _ E1) as [L1 F1]. destruct (Hg b _ _ _ E2) as [L2 F2].
  split; [lia|]. intros s2 Hs Hl. destruct (F1 s2 Hs ltac:(lia)) as (s2' & E1' & Hs'). destruct (F2 s2' Hs' Hl) as (s2'' & E2' & Hs'').
  exists s2''. split; [|done]. by rewrite (bind_ok _ _ _ _ _ E1').
Qed.

Lemma sim_if {B} (c : bool) (f g : M _ B) (f' g' : M _ B) : sim f f' -> sim g g' -> sim (if c then f else g) (if c then f' else g').
Proof using Type. by destruct c. Qed.

Hypothesis sim_output : forall c, sim (collect c) (output c).
Hypothesis sim_load : forall a, sim (on_mem (load a)) (on_mem (load a)).

Lemma sim_on_mem_bind {B C} (f : M mem B) (g : B -> M mem C) :
  sim (on_mem f) (on_mem f) -> (forall b, sim (on_mem (g b)) (on_mem (g b))) -> sim (on_mem (bind f g)) (on_mem (bind f g)).
Proof using Type.
  intros Hf Hg. assert (forall X (s : mem * X), on_mem (bind f g) s = bind (on_mem f) (fun b => on_mem (g b)) s) as E.
  { intros X [m x]. unfold on_mem, bind. destruct (f m) as [[b m']| | | |]; cbn; try done. }
  intros s1 c s1' H. rewrite E in H. destruct (sim_bind _ _ _ _ Hf Hg _ _ _ H) as [L F]. split; [done|]. intros s2. rewrite E. apply F.
Qed.

Lemma sim_strnlen fuel s k mx : sim (on_mem (strnlen_loop fuel s k mx)) (on_mem (strnlen_loop fuel s k mx)).
Proof using sim_load.
  revert k. induction fuel as [|fuel IH]; intros k; cbn [strnlen_loop]; [by intros [] ? ?|].
  apply sim_on_mem_bind; [apply sim_load|]. intros b. destruct (_ && _); [apply IH|].
  intros [m1 l] c s1' [= <- <-]. split; [done|]. intros [m2 aux] Hs _. by exists (m2, aux).
Qed.

Lemma sim_dup c cnt : sim (output_dup collect c cnt) (output_dup output c cnt).
Proof using sim_output.
  unfold output_dup. induction (Z.to_nat cnt) as [|k IH]; cbn [output_loop]; [apply sim_ret|]. apply sim_bind; [apply sim_output|done].
Qed.

Lemma sim_all l : sim (output_all collect l) (output_all output l).
Proof using sim_output. induction l as [|c l IH]; cbn [output_all]; [apply sim_ret|]. apply sim_bind; [apply sim_output|done]. Qed.

Lemma sim_string k i f g : (forall i, sim (f i) (g i)) -> sim (string_loop collect k i f) (string_loop output k i g).
Proof using sim_output.
  intros H. revert i. induction k as [|k IH]; intros i; cbn [string_loop]; [apply sim_ret|]. apply sim_bind; [apply H|].
  intros c. apply sim_bind; [apply sim_output|intros _; apply IH].
Qed.

Hint Resolve sim_ret sim_lift sim_fuel sim_output sim_load sim_strnlen sim_dup sim_all : sim.
Ltac sim := repeat first [ solve [auto with sim] | apply sim_if | apply sim_bind; [|intros] ].

Lemma sim_integer value sg ng b c : sim (format_integer collect value sg ng b c) (format_integer output value sg ng b c).
Proof using sim_output. unfold format_integer. sim. Qed.

Lemma sim_format_string f g len c : (forall i, sim (f i) (g i)) -> sim (format_string collect f len c) (format_string output g len c).
Proof using sim_output. intros H. unfold format_string. sim. by apply sim_string. Qed.

Lemma sim_pointer fuel s c : sim (format_pointer collect fuel s c) (format_pointer output fuel s c).
Proof using sim_output sim_load.
  unfold format_pointer, strnlen. apply sim_if; [apply sim_format_string; auto with sim|].
  apply sim_bind; [apply sim_strnlen|]. intros k. apply sim_format_string. auto with sim.
Qed.

Hint Resolve sim_integer sim_format_string sim_pointer : sim.

Lemma sim_vprintf fuel k format args : sim (__vprintf collect fuel k format args) (__vprintf output fuel k format args).
Proof using sim_output sim_load.
  revert format args. induction k as [|k IH]; intros format args; cbn [__vprintf]; [apply sim_fuel|].
  sim. destruct b1 as [[c format'] args']. sim.
Qed.
End simulation.

Section truncation.
Context {m0 : mem} {buffer : Z} {n max : nat}.
Hypothesis Hmax : (max <= n)%nat.
Hypothesis Hmap : mapped m0 buffer n.

(** The buffer after the output [l]. *)
Record stored (s1 : mem * list Z) (s2 : mem * vsnprintf_aux) : Prop := {
  st_hide : s1.1 = hide buffer n m0;
  st_aux : s2.2 = Aux (buffer + Z.of_nat (Nat.min (List.length s1.2) max)) (Z.of_nat (List.length s1.2)) (Z.of_nat max);
  st_mem : written m0 s2.1 buffer (take max s1.2)
}.

Lemma stored_output c : sim stored (collect c) (vsnprintf_helper c).
Proof using Hmax Hmap.
  intros [m1 l] [] s1' [= <-]. cbn [snd]. rewrite length_app. cbn [List.length]. split; [lia|]. intros [m2 aux] [H1 H2 H3] Hl. cbn [fst snd] in *. subst aux m1.
  unfold vsnprintf_helper. cbn [p length max_length]. rewrite wraps_id by (unfold is_s; lia).
  destruct (Z.ltb_spec (Z.of_nat (List.length l)) (Z.of_nat max)) as [Hlt|Hge].
  - assert (is_Some (m2 (buffer + Z.of_nat (Nat.min (List.length l) max)))) as Hs.
    { apply (written_some _ _ _ _ _ H3), Hmap. lia. }
    rewrite (store_run _ _ c Hs). cbn [rbind]. eexists. split; [reflexivity|]. split; cbn [fst snd]; [done| |].
    + rewrite length_app. cbn [List.length]. f_equal; lia.
    + rewrite take_ge in H3 by lia. rewrite take_ge by (rewrite length_app; cbn; lia). rewrite Nat.min_l by lia. by eapply written_snoc.
  - eexists. split; [reflexivity|]. split; cbn [fst snd]; [done| |].
    + rewrite length_app. cbn [List.length]. f_equal; lia.
    + by rewrite take_app_le by lia.
Qed.

Lemma stored_load a : sim stored (on_mem (load a)) (on_mem (load a)).
Proof using Hmax.
  intros [m1 l] b s1' H. unfold on_mem, load in H. destruct (m1 a) as [b'|] eqn:E; [|done]. injection H as -> <-. split; [done|].
  intros [m2 aux] [H1 H2 H3] _. cbn [fst snd] in *. subst m1. unfold hide in E. destruct (inside buffer n a) eqn:Ei; [done|].
  exists (m2, aux). split; [|by split]. unfold on_mem, load. rewrite (written_out _ _ _ _ _ H3), E; [done|].
  rewrite length_take. intros Ha. assert (inside buffer n a = true) by (apply inside_spec; lia). congruence.
Qed.

End truncation.

Lemma sim_vsnprintf fuel k m buffer size format args out m1 :
  0 <= size < 2 ^ 31 -> mapped m buffer (Z.to_nat size) ->
  __vprintf collect fuel k format args (hide buffer (Z.to_nat size) m, []) = Ok (tt, (m1, out)) -> Z.of_nat (List.length out) < 2 ^ 31 ->
  exists m', vsnprintf fuel k buffer size format args m = Ok (Z.of_nat (List.length out), m') /\
    written m m' buffer (if 0 <? size then take (Z.to_nat size - 1) out ++ [0] else []).
Proof.
  intros Hs Hm E Hl. set (max := (Z.to_nat size - 1)%nat).
  assert (max <= Z.to_nat size)%nat as Hmax by lia.
  destruct (sim_vprintf _ _ (stored_output Hmax Hm) (stored_load Hmax) fuel k format args _ _ _ E) as [_ H].
  destruct (H (m, Aux buffer 0 (Z.of_nat max))) as ([m2 aux] & E2 & [H1 H2 H3]); [|done|].
  { split; cbn [fst snd List.length]; [done|f_equal; lia|]. rewrite take_nil. apply written_nil. }
  cbn [fst snd] in *. subst aux. unfold vsnprintf.
  assert ((if 0 <? size then s32 (size - 1) else 0) = Z.of_nat max) as ->.
  { destruct (Z.ltb_spec 0 size); [rewrite wraps_id by (unfold is_s; lia); unfold max; lia|unfold max; lia]. }
  rewrite E2. cbn [rbind p length]. destruct (Z.ltb_spec 0 size) as [Hp|Hz].
  - assert (is_Some (m2 (buffer + Z.of_nat (Nat.min (List.length out) max)))) as Hst by (apply (written_some _ _ _ _ _ H3), Hm; unfold max; lia).
    rewrite (store_run _ _ 0 Hst). cbn [rbind]. eexists. split; [reflexivity|]. eapply written_snoc; [exact H3|].
    rewrite length_take. by rewrite Nat.min_comm.
  - exists m2. split; [done|]. replace max with 0%nat in H3 by (unfold max; lia). done.
Qed.

(** C40: [vsnprintf] returns the number of characters that the conversion prints
    in full, stores as many of them as fit, and a null byte behind them; it
    writes nothing behind the [size] bytes of the buffer and nothing at all
    when [size] is 0.  This holds for every format and all arguments for which
    the conversion ends and prints less than 2^31 characters, as long as the
    strings it reads lie outside the buffer. *)
Theorem vsnprintf_truncates fuel k m buffer size format args out m1 :
  0 <= size < 2 ^ 31 -> mapped m buffer (Z.to_nat size) ->
  __vprintf collect fuel k format args (hide buffer (Z.to_nat size) m, []) = Ok (tt, (m1, out)) -> Z.of_nat (List.length out) < 2 ^ 31 ->
  exists m', vsnprintf fuel k buffer size format args m = Ok (Z.of_nat (List.length out), m') /\
    written m m' buffer (if 0 <? size then take (Z.to_nat size - 1) out ++ [0] else []).
Proof. apply sim_vsnprintf. Qed.

(** The string "kernel" at 100 and a buffer of 8 bytes at 200. *)
Definition demo_text : mem := fun a =>
  if inside 100 7 a then (chars "kernel" ++ [0]) !! Z.to_nat (a - 100) else if inside 200 8 a then Some 1 else None.

Lemma vsnprintf_truncates_witness : exists m',
  vsnprintf 10 20 200 8 (chars "%-4d|%s %#x" ++ [0]) [42; 100; 255] demo_text = Ok (16, m') /\
  written demo_text m' 200 (chars "42  |ke" ++ [0]).
Proof.
  apply (vsnprintf_truncates 10 20 demo_text 200 8 (chars "%-4d|%s %#x" ++ [0]) [42; 100; 255] (chars "42  |kernel 0xff") (hide 200 (Z.to_nat 8) demo_text)).
  - lia.
  - intros x Hx. unfold demo_text. rewrite (proj2 (inside_spec 200 8 x)) by lia. destruct (inside 100 7 x) eqn:E; [|by eexists].
    apply inside_spec in E. lia.
  - by vm_compute.
  - by vm_compute.
Defined.

(** ** Decimal numbers *)

Lemma decimal_value ds : Forall (digit_char base_d false) ds -> Forall (fun c => isdigit c = true) ds /\ value_of base_d ds = decimal ds.
Proof.
  induction ds as [|c ds IH] using rev_ind; intros F; [done|]. apply Forall_app in F as [F Fc]. apply Forall_cons in Fc as [[(Hc & _ & Hn)|[? _]] _]; [|done].
  destruct (IH F) as [Hd Hv].
  assert (isdigit c = true /\ digit_value base_d c = c - 48) as [Hcd Hcv].
  { revert Hc. change (digits base_d) with (seqZ 48 10). intros Hc. apply elem_of_seqZ in Hc.
    assert (c = 48 \/ c = 49 \/ c = 50 \/ c = 51 \/ c = 52 \/ c = 53 \/ c = 54 \/ c = 55 \/ c = 56 \/ c = 57) as H by lia.
    repeat (destruct H as [->|H]; [by vm_compute|]). subst c. by vm_compute. }
  rewrite value_of_snoc, decimal_snoc, Hv, Hcv by done. split; [|done]. apply Forall_app. split; [done|]. by constructor.
Qed.

Lemma decimal_chars_length c value buf k :
  flags c = 0 -> precision c = -1 -> 0 <= value < 10 ^ Z.of_nat k -> (0 < k <= 22)%nat ->
  integer_chars value base_d c = Ok buf -> (List.length buf <= k)%nat.
Proof.
  intros Hf Hp Hv Hk. unfold integer_chars. rewrite Hf, Hp. change (flag_set 0 GROUP) with false. change (flag_set 0 POUND) with false. cbn [andb].
  destruct (digits_loop_run base_d false k is_d 64 value 0 []) as (ds & E & L & _); [done|lia|lia|cbn; lia|]. rewrite E, app_nil_r. cbn [rbind].
  change (if -1 <? 0 then 1 else -1) with 1.
  destruct (zeros_loop_run 1 64 ds) as (z & Ez & Lz & Hmin & Hz0 & Hle); [lia|lia|]. rewrite Ez. cbn [rbind]. intros [= <-]. rewrite length_app, length_replicate.
  destruct ds as [|d ds]; cbn [List.length] in *; [lia|]. rewrite Hz0 by lia. lia.
Qed.

(** What [%d] prints. *)
Lemma print_decimal fuel k m a :
  exists buf, __vprintf collect fuel (S (S k)) (chars "%d" ++ [0]) [a] (m, []) = Ok (tt, (m, (if s32 a <? 0 then [ch "-"] else []) ++ buf)) /\
    Forall (fun c => isdigit c = true) buf /\ decimal buf = Z.abs (s32 a) /\ (0 < List.length buf <= 10)%nat.
Proof.
  pose proof (wraps_range 32 a ltac:(lia)) as Hr. unfold is_s in Hr. set (v := s32 a) in *. set (c := Conversion 0 0 (-1) INT).
  assert (u64 (if v <? 0 then - v else v) = Z.abs v) as Ea by (rewrite wrapu_id; destruct (Z.ltb_spec v 0); unfold is_u; lia).
  assert (is_u64 (Z.abs v)) as Hu by (unfold is_u; lia).
  destruct (integer_chars_run base_d c (Z.abs v) is_d Hu) as (buf & E & _ & V & F & Hmin & _).
  destruct (format_integer_run (Z.abs v) true (v <? 0) base_d c is_d Hu) as (buf' & E' & Ha); [cbn; lia|]. rewrite E in E'. injection E' as <-.
  exists buf. destruct (decimal_value buf F) as [Fd Hd]. split_and!; [|done|by rewrite <- Hd, V| |].
  - assert (format_integer collect (u64 (if v <? 0 then - v else v)) true (v <? 0) base_d c (m, []) = Ok (tt, (m, (if v <? 0 then [ch "-"] else []) ++ buf))) as Ef.
    { rewrite Ea, Ha. do 3 f_equal. unfold integer_text, sign_text. cbn [flags width c]. change (flag_set 0 MINUS) with false. change (flag_set 0 ZERO) with false.
      cbn [orb Z.to_nat Nat.sub replicate app]. rewrite app_nil_r. unfold prefix_text. change (flag_set 0 POUND) with false. cbn [andb].
      unfold sign_of. change (flag_set 0 PLUS) with false. change (flag_set 0 SPACE) with false. by destruct (v <? 0). }
    change (__vprintf collect fuel (S (S k)) (chars "%d" ++ [0]) [a] (m, [])) with
      (bind (format_integer collect (u64 (if v <? 0 then - v else v)) true (v <? 0) base_d c;; ret (@nil Z))
        (fun args => __vprintf collect fuel (S k) [0] args) (m, [])).
    mnorm. by mstep Ef.
  - cbn [precision c] in Hmin. change (if -1 <? 0 then 1 else -1) with 1 in Hmin. lia.
  - eapply (decimal_chars_length c (Z.abs v) buf 10); [done|done|lia|lia|done].
Qed.

(** ** Text and strings in a format *)

Lemma vprintf_text fuel l n fmt args m out : Forall (fun c => c <> 0 /\ c <> ch "%") l ->
  __vprintf collect fuel (List.length l + n) (l ++ fmt) args (m, out) = __vprintf collect fuel n fmt args (m, out ++ l).
Proof.
  intros H. revert out. induction H as [|c l [Hc Hp] _ IH]; intros out; cbn [List.length Nat.add app]; [by rewrite app_nil_r|].
  cbn [__vprintf]. change (lift (peek (c :: l ++ fmt))) with (ret (S := mem * list Z) c). mnorm.
  rewrite (proj2 (Z.eqb_neq _ _) Hc), (proj2 (Z.eqb_neq _ _) Hp). cbn [negb]. mstep (appends_collect c m out). cbn [tail]. by rewrite IH, <- app_assoc.
Qed.

Lemma string_loop_run l : forall m out s i, bytes_at m (s + i) l ->
  string_loop collect (List.length l) i (fun i => on_mem (load (s + i))) (m, out) = Ok (tt, (m, out ++ l)).
Proof.
  induction l as [|c l IH]; intros m out s i Hb; cbn [List.length string_loop]; [by rewrite app_nil_r|].
  apply bytes_at_cons in Hb as [Hc Hb]. assert (on_mem (load (s + i)) (m, out) = Ok (c, (m, out))) as E by (cbn; unfold load; by rewrite Hc).
  mstep E. mstep (appends_collect c m out). rewrite (IH _ _ s (i + 1)); [by rewrite <- app_assoc|]. by replace (s + (i + 1)) with (s + i + 1) by lia.
Qed.

(** What [%s] prints. *)
Lemma vprintf_string fuel n fmt args m out s l :
  0 < s < 2 ^ 64 -> cstr m s l -> (List.length l < fuel)%nat -> Z.of_nat (List.length l) < 2 ^ 31 ->
  __vprintf collect fuel (S n) (chars "%s" ++ fmt) (s :: args) (m, out) = __vprintf collect fuel n fmt args (m, out ++ l).
Proof.
  intros Hs Hc Hl Hl2. set (c := Conversion 0 0 (-1) INT).
  change (__vprintf collect fuel (S n) (chars "%s" ++ fmt) (s :: args) (m, out)) with
    (bind (format_pointer collect fuel (u64 s) c;; ret args) (fun args => __vprintf collect fuel n fmt args) (m, out)).
  assert (format_pointer collect fuel (u64 s) c (m, out) = Ok (tt, (m, out ++ l))) as E.
  { rewrite wrapu_id by (split; lia). unfold format_pointer. rewrite (proj2 (Z.eqb_neq s NULL)) by (unfold NULL; lia).
    assert (on_mem (strnlen fuel s (u64 (precision c))) (m, out) = Ok (Z.of_nat (List.length l), (m, out))) as E.
    { unfold on_mem, strnlen. change (u64 (precision c)) with (2 ^ 64 - 1). rewrite (strnlen_loop_spec fuel m s 0 l) by (rewrite ?Z.add_0_r; done || lia).
      cbn [rbind]. rewrite Z.min_l by lia. done. }
    mstep E. rewrite wraps_id by (unfold is_s; lia). unfold format_string. cbn [width flags c]. rewrite (proj2 (Z.ltb_ge _ 0)) by lia. cbn [andb]. mnorm.
    rewrite Nat2Z.id. assert (bytes_at m (s + 0) l) as Hb by (rewrite Z.add_0_r; destruct Hc as (_ & _ & Hc); by apply bytes_at_app in Hc as [? _]).
    by mstep (string_loop_run l m out s 0 Hb). }
  rewrite bind_bind. by mstep E.
Qed.

(** Printing an integer with [%d] and reading it with [atoi] gives it back,
    for every 32-bit integer: a buffer of 12 bytes is always large enough. *)
Theorem print_atoi_roundtrip fuel k m buffer size a :
  0 < buffer -> 12 <= size < 2 ^ 31 -> mapped m buffer (Z.to_nat size) ->
  exists len m', snprintf fuel (S (S k)) buffer size (chars "%d" ++ [0]) [a] m = Ok (len, m') /\ 1 <= len <= 11 /\
    atoi 16 buffer m' = Ok (s32 a, m').
Proof.
  intros Hb Hs Hm. destruct (print_decimal fuel k (hide buffer (Z.to_nat size) m) a) as (buf & E & F & D & L).
  set (v := s32 a) in *. set (out := (if v <? 0 then [ch "-"] else []) ++ buf) in *.
  assert (1 <= List.length out <= 11)%nat as Lo by (unfold out; rewrite length_app; destruct (v <? 0); cbn; lia).
  destruct (sim_vsnprintf fuel (S (S k)) m buffer size _ _ out _ ltac:(lia) Hm E ltac:(lia)) as (m' & E' & W).
  exists (Z.of_nat (List.length out)), m'. split_and!; [exact E'|lia|lia|].
  rewrite (proj2 (Z.ltb_lt 0 size)), take_ge in W by lia. apply written_in in W.
  destruct buf as [|d ds]; [cbn in L; lia|].
  assert (cstr m' buffer ([] ++ sign_char (if v <? 0 then Some true else None) ++ d :: ds ++ [])) as Hc.
  { split; [done|]. rewrite app_nil_r. cbn [app]. split.
    - apply Forall_app. split; [destruct (v <? 0); repeat constructor; cbn; lia|].
      eapply Forall_impl; [exact F|]. intros c Hc. unfold isdigit in Hc. lia.
    - unfold out in W. by destruct (v <? 0). }
  rewrite (atoi_run 16 m' buffer [] (if v <? 0 then Some true else None) d ds [] Hc); [|done|done|done|cbn in *; lia].
  pose proof (wraps_range 32 a ltac:(lia)) as Hr. fold v in Hr. do 2 f_equal. rewrite D. destruct (Z.ltb_spec v 0).
  - rewrite wraps_id; [f_equal; lia|lia|]. replace (- Z.abs v) with v by lia. done.
  - rewrite wraps_id; [f_equal; lia|lia|]. replace (Z.abs v) with v by lia. done.
Qed.

Lemma print_atoi_roundtrip_witness : exists len m',
  snprintf 10 20 200 12 (chars "%d" ++ [0]) [-2147483648] (fun a => if inside 200 12 a then Some 1 else None) = Ok (len, m') /\
  atoi 16 200 m' = Ok (-2147483648, m').
Proof.
  destruct (print_atoi_roundtrip 10 18 (fun a => if inside 200 12 a then Some 1 else None) 200 12 (-2147483648)) as (len & m' & E & _ & Ea);
    [lia|lia| |exists len, m'; split; [exact E|exact Ea]].
  intros x Hx. change (Z.to_nat 12) with 12%nat in Hx. rewrite (proj2 (inside_spec 200 12 x)) by lia. by eexists.
Defined.

(** ** Conversions that print something else *)

(** A format that ends within a conversion: the loop steps over the terminator
    and reads behind the string. *)
Example open_conversion_faults : __vprintf collect 0 50 (chars "100%" ++ [0]) [] (fun _ => None, []) = Fault.
Proof. by vm_compute. Qed.

(** [%zd] takes sizes above 2^31 for negative numbers, and [%tu] drops the high
    half of a difference. *)
Example size_conversion_wraps : signed_arg SIZET (3 * 2 ^ 30) = - 2 ^ 30 /\ unsigned_arg PTRDIFFT (2 ^ 32 + 5) = 5.
Proof. by vm_compute. Qed.
