(* ===== verification/UserLib.v ===== *)
(** * The user library (lib/user/syscall.c, lib/user/console.c)

    System calls as a user program issues them: the registers that the
    [syscall] instruction finds, and what the program makes of the answer.
    The kernel's side is any function of the calls so far. *)

From Stdlib Require Import Ascii String.
From S2P Require Import Prelude CString CStdlib Bitmap Stdio StdioSpec.
Local Open Scope Z_scope.
Local Notation length := List.length.

(** ** System calls (syscall.c) *)

Record regs := Regs { rax : Z; rdi : Z; rsi : Z; rdx : Z; r10 : Z; r8 : Z; r9 : Z }.
(** The calls so far, with the bytes that a [write] hands over. *)
Definition history : Type := list (regs * list Z).

Definition SYS_EXIT : Z := 1.
Definition SYS_WRITE : Z := 10.

Section User.
(** The answer of the kernel to the last call of a history. *)
Context (kernel : history -> Z).

Definition syscall_with (contents : list Z) (num a1 a2 a3 a4 a5 a6 : Z) : M history Z := fun h =>
  let h := (h ++ [(Regs num a1 a2 a3 a4 a5 a6, contents)])%list in Ok (s64 (kernel h), h).
Definition syscall (num a1 a2 a3 a4 a5 a6 : Z) : M history Z := syscall_with [] num a1 a2 a3 a4 a5 a6.
Definition syscall1 (number arg0 : Z) : M history Z := syscall (u64 number) (u64 arg0) 0 0 0 0 0.

Definition as_int (f : M history Z) : M history Z := r ← f; ret (s32 r).

(** [NOT_REACHED] ends the program's own code: it does not come back.  What it
    does then, a message and another [exit] in [debug_panic], is output and is
    left out; the calls made before it stay in the history. *)
Inductive aborted := Aborted.
Definition NOT_REACHED : M history aborted := ret Aborted.
Definition exit (status : Z) : M history aborted := syscall1 SYS_EXIT status;; NOT_REACHED.
(** [contents] are the bytes at [buffer]. *)
Definition write (contents : list Z) (fd buffer size : Z) : M history Z := as_int (syscall_with contents (u64 SYS_WRITE) (u64 fd) (u64 buffer) (u64 size) 0 0 0).

(** The entry point of a program (entry.c). *)
Definition _start (main : Z -> Z -> M history Z) (argc argv : Z) : M history aborted := r ← main argc argv; exit r.

(** ** Output (console.c) *)

Definition STDOUT_FILENO : Z := 1.
Definition BUF : Z := 64.
(** [struct vhprintf_aux]; [p] is the position in the buffer, whose address is
    [buf_addr]. *)
Record vhprintf_aux := Aux { buf : list Z; p : Z; char_cnt : Z; handle : Z }.
Context (buf_addr : Z).

Definition on_history {X B} (f : M history B) : M (mem * (X * history)) B := fun '(m, (x, h)) => let! (b, h) := f h in Ok (b, (m, (x, h))).

Definition flush : M (vhprintf_aux * history) unit := fun '(aux, h) =>
  let! h := (if 0 <? p aux then let! (_, h) := write (take (Z.to_nat (p aux)) (buf aux)) (handle aux) buf_addr (u32 (p aux)) h in Ok h else Ok h) in
  Ok (tt, (Aux (buf aux) 0 (char_cnt aux) (handle aux), h)).
Definition add_char (c : Z) : M (mem * (vhprintf_aux * history)) unit := fun '(m, (aux, h)) =>
  if (0 <=? p aux) && (p aux <? Z.of_nat (length (buf aux))) then
    let aux := Aux (<[Z.to_nat (p aux) := c]> (buf aux)) (p aux + 1) (char_cnt aux) (handle aux) in
    let! (_, (aux, h)) := (if BUF <=? p aux then flush (aux, h) else Ok (tt, (aux, h))) in
    Ok (tt, (m, (Aux (buf aux) (p aux) (s32 (char_cnt aux + 1)) (handle aux), h)))
  else Fault.
(** [garbage] is what the buffer holds before. *)
Definition vhprintf (garbage : list Z) (fuel n : nat) (handle : Z) (format args : list Z) : M (mem * history) Z := fun '(m, h) =>
  let! (_, (m, (aux, h))) := __vprintf add_char fuel n format args (m, (Aux garbage 0 0 handle, h)) in
  let! (_, (aux, h)) := flush (aux, h) in
  Ok (char_cnt aux, (m, h)).
Definition vprintf (garbage : list Z) (fuel n : nat) (format args : list Z) : M (mem * history) Z := vhprintf garbage fuel n STDOUT_FILENO format args.
Definition hprintf (garbage : list Z) (fuel n : nat) (handle : Z) (format args : list Z) : M (mem * history) Z := vhprintf garbage fuel n handle format args.

(** [c2] is at [c2_addr]. *)
Definition putchar (c2_addr c : Z) : M history Z := write [u8 c] STDOUT_FILENO c2_addr 1;; ret c.
Fixpoint bytes_from (n : nat) (a : Z) : M mem (list Z) := match n with O => ret [] | S n => b ← load a; l ← bytes_from n (a + 1); ret (b :: l) end.
Definition puts (fuel : nat) (c2_addr s : Z) : M (mem * history) Z := fun '(m, h) =>
  let! (n, m) := strlen fuel s m in
  let! (l, m) := bytes_from (Z.to_nat n) s m in
  let! (_, h) := write l STDOUT_FILENO s (u32 n) h in
  let! (_, h) := putchar c2_addr 10 h in
  Ok (0, (m, h)).

(** ** Calls as values *)


End User.


(** ** Properties of system calls *)

Lemma mod_mod_pow a v w : 0 <= v <= w -> (a mod 2 ^ w) mod 2 ^ v = a mod 2 ^ v.
Proof.
  intros H. symmetry. apply Znumtheory.Zmod_div_mod; [apply pow2_pos; lia..|]. exists (2 ^ (w - v)). rewrite <- Z.pow_add_r by lia. f_equal. lia.
Qed.
Lemma s32_u64 x : s32 (u64 x) = s32 x.
Proof. unfold wrapu. apply wraps_eq, mod_mod_pow. lia. Qed.
Lemma u32_u64 x : u32 (u64 x) = u32 x.
Proof. unfold wrapu. apply mod_mod_pow. lia. Qed.
Lemma s32_s64 x : s32 (s64 x) = s32 x.
Proof.
  apply wraps_eq. rewrite <- (mod_mod_pow (wraps 64 x) 32 64) by lia. rewrite wraps_mod by lia. apply mod_mod_pow. lia.
Qed.
Lemma u64_s64 x : u64 (s64 x) = u64 x.
Proof. unfold wrapu. apply wraps_mod. lia. Qed.
Lemma u32_s64 x : u32 (s64 x) = u32 x.
Proof. rewrite <- u32_u64, u64_s64. apply u32_u64. Qed.
Lemma u32_id x : is_u32 x -> u32 x = x.
Proof. by apply wrapu_id. Qed.
Lemma u64_id x : is_u64 x -> u64 x = x.
Proof. by apply wrapu_id. Qed.

Create HintDb user.
#[export] Hint Rewrite s32_u64 u32_u64 s32_s64 u64_s64 u32_s64 : user.







(** ** Properties of the output *)

Section buffered.
Context (kernel : history -> Z) (buf_addr fd : Z) (h0 : history).

(** The call that writes [l] from the buffer. *)
Definition write_call (l : list Z) : regs * list Z := (Regs SYS_WRITE (u64 fd) (u64 buf_addr) (Z.of_nat (length l)) 0 0 0, l).
(** The first [n] pieces of [l] of the size of the buffer. *)
Definition writes (n : nat) (l : list Z) : history := (fun i => write_call (slice (64 * i) 64 l)) <$> seq 0 n.

Lemma write_call_run l h : (length l <= 64)%nat -> exists r, write kernel l fd buf_addr (u32 (Z.of_nat (length l))) h = Ok (r, (h ++ [write_call l])%list).
Proof using Type.
  intros H. unfold write, as_int, syscall_with, bind, ret, write_call. cbn [rbind]. change (u64 SYS_WRITE) with SYS_WRITE.
  rewrite (u32_id (Z.of_nat _)), (u64_id (Z.of_nat _)) by (unfold is_u; lia). eauto.
Qed.

Lemma writes_app n l k : (64 * n <= length l)%nat -> writes n (l ++ k) = writes n l.
Proof using Type.
  intros H. unfold writes. apply list_fmap_ext. intros i x [-> Hi]%lookup_seq. f_equal. unfold slice.
  rewrite drop_app_le by lia. apply take_app_le. rewrite length_drop. lia.
Qed.
Lemma writes_S n l : writes (S n) l = (writes n l ++ [write_call (slice (64 * n) 64 l)])%list.
Proof using Type. unfold writes. rewrite seq_S, fmap_app. done. Qed.
Lemma length_writes n l : length (writes n l) = n.
Proof using Type. unfold writes. by rewrite length_fmap, length_seq. Qed.
Lemma writes_lookup n l i e : writes n l !! i = Some e -> (i < n)%nat /\ e = write_call (slice (64 * i) 64 l).
Proof using Type. unfold writes. intros (j & -> & Hj)%list_lookup_fmap_Some. by apply lookup_seq in Hj as [-> ?]. Qed.
Lemma concat_writes n l : concat (writes n l).*2 = take (64 * n) l.
Proof using Type.
  induction n as [|n IH]; [done|]. rewrite writes_S, fmap_app, concat_app, IH. cbn [fmap list_fmap concat snd write_call]. rewrite app_nil_r.
  unfold slice. replace (64 * S n)%nat with (64 * n + 64)%nat by lia. by rewrite take_take_drop.
Qed.

Record buffered (s1 : mem * list Z) (s2 : mem * (vhprintf_aux * history)) : Prop := {
  bu_mem : s2.1 = s1.1;
  bu_len : length (buf s2.2.1) = 64%nat;
  bu_p : p s2.2.1 = Z.of_nat (length s1.2 mod 64);
  bu_buf : take (length s1.2 mod 64) (buf s2.2.1) = drop (64 * (length s1.2 / 64)) s1.2;
  bu_cnt : char_cnt s2.2.1 = Z.of_nat (length s1.2);
  bu_handle : handle s2.2.1 = fd;
  bu_history : s2.2.2 = (h0 ++ writes (length s1.2 / 64) s1.2)%list
}.

Lemma flush_run aux h k : p aux = Z.of_nat (length k) -> take (length k) (buf aux) = k -> handle aux = fd -> (length k <= 64)%nat ->
  flush kernel buf_addr (aux, h) = Ok (tt, (Aux (buf aux) 0 (char_cnt aux) fd, h ++ match k with [] => [] | _ => [write_call k] end)%list).
Proof using Type.
  intros Hp Hk Hh Hl. unfold flush. rewrite Hp, Hh, Nat2Z.id, Hk. destruct k as [|c k]; [by rewrite app_nil_r|].
  destruct (write_call_run (c :: k) h Hl) as [r E]. rewrite (proj2 (Z.ltb_lt 0 _)) by (cbn [length]; lia). by rewrite E.
Qed.

Lemma buffered_output c : sim buffered (collect c) (add_char kernel buf_addr c).
Proof using Type.
  intros [m1 l] [] s1' [= <-]. cbn [snd]. rewrite length_app. cbn [length]. split; [lia|].
  intros [m2 [aux h]] [H1 H2 H3 H4 H5 H6 H7] Hl. cbn [fst snd] in *. subst m2 h.
  pose proof (Nat.div_mod_eq (length l) 64) as Ed. pose proof (Nat.mod_upper_bound (length l) 64 ltac:(lia)) as Hm.
  unfold add_char. rewrite H2, H3, Nat2Z.id. rewrite (proj2 (Z.leb_le 0 _)), (proj2 (Z.ltb_lt _ (Z.of_nat 64))) by lia. cbn [andb p].
  set (q := (length l / 64)%nat) in *. set (r := (length l mod 64)%nat) in *. set (k := (drop (64 * q) l ++ [c])%list).
  assert (length k = S r) as Lk by (unfold k; rewrite length_app, length_drop; cbn [length]; lia).
  assert (take (S r) (<[r:=c]> (buf aux)) = k) as Ek.
  { rewrite (take_S_r _ _ c) by (apply list_lookup_insert_eq; lia). rewrite take_insert_ge by lia. by rewrite H4. }
  assert (drop (64 * q) (l ++ [c]) = k) as Edk by (unfold k; by rewrite drop_app_le by lia).
  unfold BUF. destruct (Z.leb_spec 64 (Z.of_nat r + 1)) as [Hf|Hf].
  - rewrite (flush_run _ _ k); [|cbn [p]; lia|cbn [buf]; by rewrite Lk|done|lia]. cbn [rbind buf p char_cnt handle].
    eexists. split; [reflexivity|]. assert (length l + 1 = 64 * S q)%nat as E64 by lia.
    assert ((length (l ++ [c]) / 64 = S q /\ length (l ++ [c]) mod 64 = 0)%nat) as [Eq Er].
    { rewrite length_app. cbn [length]. rewrite E64, Nat.mul_comm. split; [by apply Nat.div_mul|by apply Nat.Div0.mod_mul]. }
    split; cbn [fst snd buf p char_cnt handle]; rewrite ?Eq, ?Er; [done|by rewrite length_insert|done| | |done|].
    + rewrite drop_ge; [done|]. rewrite length_app. cbn [length]. lia.
    + rewrite H5, length_app. cbn [length]. rewrite wraps_id by (unfold is_s; lia). lia.
    + rewrite writes_S, writes_app by lia. unfold slice. rewrite Edk, (take_ge k) by lia. rewrite <- app_assoc. destruct k; [done|done].
  - cbn [rbind buf p char_cnt handle]. eexists. split; [reflexivity|].
    assert ((length (l ++ [c]) / 64 = q /\ length (l ++ [c]) mod 64 = S r)%nat) as [Eq Er].
    { rewrite length_app. cbn [length]. split; symmetry; [apply (Nat.div_unique _ 64 q (S r))|apply (Nat.mod_unique _ 64 q (S r))]; lia. }
    split; cbn [fst snd buf p char_cnt handle]; rewrite ?Eq, ?Er; [done|by rewrite length_insert|lia|by rewrite Ek| |done|by rewrite writes_app by lia].
    rewrite H5, length_app. cbn [length]. rewrite wraps_id by (unfold is_s; lia). lia.
Qed.

Lemma buffered_load a : sim buffered (on_mem (load a)) (on_mem (load a)).
Proof using Type.
  intros [m1 l] b s1' H. unfold on_mem, load in H. destruct (m1 a) as [b'|] eqn:E; [|done]. injection H as -> <-. split; [done|].
  intros [m2 x] [H1 H2 H3 H4 H5 H6 H7] _. cbn [fst snd] in *. subst m2. exists (m1, x). split; [|by split]. unfold on_mem, load. by rewrite E.
Qed.

Lemma vhprintf_run garbage fuel n format args m m' out :
  length garbage = 64%nat -> __vprintf collect fuel n format args (m, []) = Ok (tt, (m', out)) -> Z.of_nat (length out) < 2 ^ 31 ->
  vhprintf kernel buf_addr garbage fuel n fd format args (m, h0) = Ok (Z.of_nat (length out), (m', h0 ++ writes ((length out + 63) / 64) out)%list).
Proof using Type.
  intros Hg E Hl. destruct (sim_vprintf _ _ buffered_output buffered_load fuel n format args _ _ _ E) as [_ H].
  destruct (H (m, (Aux garbage 0 0 fd, h0))) as ([m2 [aux h]] & E2 & [H1 H2 H3 H4 H5 H6 H7]); [|done|].
  { split; cbn [fst snd buf p char_cnt handle length]; [done|done|done|done|done|done|]. by rewrite app_nil_r. }
  cbn [fst snd] in *. subst m2 h. unfold vhprintf. rewrite E2. cbn [rbind].
  pose proof (Nat.div_mod_eq (length out) 64) as Ed. pose proof (Nat.mod_upper_bound (length out) 64 ltac:(lia)) as Hm.
  set (q := (length out / 64)%nat) in *. set (r := (length out mod 64)%nat) in *. set (k := drop (64 * q) out) in *.
  assert (length k = r) as Lk by (unfold k; rewrite length_drop; lia).
  rewrite (flush_run _ _ k) by (rewrite ?Lk; done || lia). cbn [rbind char_cnt]. rewrite H5. do 3 f_equal. rewrite <- app_assoc. f_equal.
  destruct (Nat.eq_dec r 0%nat) as [Hr|Hr].
  - replace ((length out + 63) / 64)%nat with q by (apply (Nat.div_unique _ 64 q 63); lia).
    destruct k; [by rewrite app_nil_r|cbn [length] in Lk; lia].
  - replace ((length out + 63) / 64)%nat with (S q) by (apply (Nat.div_unique _ 64 (S q) (r - 1)); lia).
    rewrite writes_S. f_equal. unfold slice. fold k. rewrite take_ge by lia. destruct k; [cbn [length] in Lk; lia|done].
Qed.
End buffered.

(** C31: [vhprintf] of the user library hands the text of a conversion to the kernel
    in order and in full buffers.  For every format and all arguments for which
    the conversion prints [out], less than 2^31 characters, it returns the
    number of characters and makes one [write] call to the handle for each
    piece of 64 characters, the last of which may be shorter but is not empty;
    nothing is printed twice or left in the buffer, whatever the buffer held
    before and whatever the kernel answers. *)
Theorem user_printf_buffers kernel buf_addr fd garbage fuel n format args m m' out h :
  length garbage = 64%nat -> __vprintf collect fuel n format args (m, []) = Ok (tt, (m', out)) -> Z.of_nat (length out) < 2 ^ 31 ->
  exists es, vhprintf kernel buf_addr garbage fuel n fd format args (m, h) = Ok (Z.of_nat (length out), (m', (h ++ es)%list)) /\
    concat es.*2 = out /\
    forall i e, es !! i = Some e ->
      e.1 = Regs SYS_WRITE (u64 fd) (u64 buf_addr) (Z.of_nat (length e.2)) 0 0 0 /\ (0 < length e.2)%nat /\
      (length e.2 = if (S i <? length es)%nat then 64%nat else length out - 64 * i)%nat.
Proof.
  intros Hg E Hl. eexists. split; [by apply vhprintf_run|]. set (n' := ((length out + 63) / 64)%nat).
  assert (64 * n' < length out + 64 /\ length out <= 64 * n')%nat as Hn.
  { pose proof (Nat.div_mod_eq (length out + 63) 64). pose proof (Nat.mod_upper_bound (length out + 63) 64 ltac:(lia)). unfold n'. lia. }
  split; [rewrite concat_writes; apply take_ge; lia|]. intros i e He. apply writes_lookup in He as [Hi ->].
  rewrite length_writes. unfold write_call. cbn [fst snd]. split; [done|]. unfold slice. rewrite length_take, length_drop.
  destruct (Nat.ltb_spec (S i) n'); lia.
Qed.

Definition demo_words : mem := fun a => if inside 100 7 a then (chars "kernel" ++ [0])%list !! Z.to_nat (a - 100) else None.
Lemma user_printf_buffers_witness : exists es,
  vhprintf (fun _ => 64) 4096 (replicate 64 0) 10 20 1 (chars "%80s!" ++ [0]) [100] (demo_words, []) = Ok (81, (demo_words, ([] ++ es)%list)) /\
  concat es.*2 = (replicate 74 (ch " ") ++ chars "kernel!")%list /\
    forall i e, es !! i = Some e ->
      e.1 = Regs SYS_WRITE (u64 1) (u64 4096) (Z.of_nat (length e.2)) 0 0 0 /\ (0 < length e.2)%nat /\
      (length e.2 = if (S i <? length es)%nat then 64%nat else 81 - 64 * i)%nat.
Proof.
  apply (user_printf_buffers (fun _ => 64) 4096 1 (replicate 64 0) 10 20 (chars "%80s!" ++ [0]) [100] demo_words demo_words (replicate 74 (ch " ") ++ chars "kernel!") []).
  - done.
  - by vm_compute.
  - by vm_compute.
Defined.
