(* ===== verification/Console.v ===== *)
(** * The console (lib/kernel/console.c) and [hex_dump] (lib/stdio.c)

    The console is the two devices a character is sent to, the counter and the
    lock, which a thread that has it may take again.  A call that finds the
    lock taken by another thread has to wait and is [Block]. *)

From Stdlib Require Import Ascii String.
From S2P Require Import Prelude CString CStdlib Bitmap Stdio StdioSpec.

(** ** State *)

(** [holder] is the thread that has [console_lock], [current] the running
    thread, [in_intr] whether an interrupt is handled; [serial] and [vga] are
    what has been sent to the devices. *)
Record console := Console {
  in_intr : bool; current : Z; use_console_lock : bool; holder : option Z;
  console_lock_depth : Z; write_cnt : Z; serial : list Z; vga : list Z }.

Definition set_lock (h : option Z) (depth : Z) (c : console) : console :=
  Console (in_intr c) (current c) (use_console_lock c) h depth (write_cnt c) (serial c) (vga c).
Definition lock_held_by_current_thread (c : console) : bool := bool_decide (holder c = Some (current c)).

Definition console_init : M console unit := modify (fun c =>
  Console (in_intr c) (current c) true None (console_lock_depth c) (write_cnt c) (serial c) (vga c)).
Definition console_panic : M console unit := modify (fun c =>
  Console (in_intr c) (current c) false (holder c) (console_lock_depth c) (write_cnt c) (serial c) (vga c)).

(** ** The lock *)

Definition acquire_console : M console unit :=
  c ← get;
  if negb (in_intr c) && use_console_lock c then
    if lock_held_by_current_thread c then put (set_lock (holder c) (s32 (console_lock_depth c + 1)) c)
    else match holder c with
         | None => put (set_lock (Some (current c)) (console_lock_depth c) c)
         | Some _ => lift Block
         end
  else ret tt.

Definition release_console : M console unit :=
  c ← get;
  if negb (in_intr c) && use_console_lock c then
    if 0 <? console_lock_depth c then put (set_lock (holder c) (console_lock_depth c - 1) c)
    else (ASSERT (lock_held_by_current_thread c);; put (set_lock None (console_lock_depth c) c))
  else ret tt.

Definition console_locked_by_current_thread (c : console) : bool :=
  in_intr c || negb (use_console_lock c) || lock_held_by_current_thread c.

(** ** Output *)

Definition putchar_have_lock (ch : Z) : M console unit :=
  c ← get;
  ASSERT (console_locked_by_current_thread c);;
  put (Console (in_intr c) (current c) (use_console_lock c) (holder c) (console_lock_depth c)
         (s64 (write_cnt c + 1)) (serial c ++ [ch]) (vga c ++ [ch])).

Definition putchar (ch : Z) : M console Z :=
  acquire_console;; putchar_have_lock (u8 ch);; release_console;; ret ch.

(** What runs on the memory and the console. *)
Definition on_console {X B} (f : M console B) : M (mem * (console * X)) B := fun '(m, (c, x)) =>
  let! (b, c) := f c in Ok (b, (m, (c, x))).

Fixpoint puts_loop (fuel : nat) (s : Z) : M (mem * (console * unit)) unit :=
  match fuel with
  | O => out_of_fuel
  | S fuel => b ← on_mem (load s); if b =? 0 then ret tt else on_console (putchar_have_lock b);; puts_loop fuel (s + 1)
  end.
Definition puts (fuel : nat) (s : Z) : M (mem * (console * unit)) Z :=
  on_console acquire_console;; puts_loop fuel s;; on_console (putchar_have_lock 10);; on_console release_console;; ret 0.

Fixpoint putbuf_loop (n : nat) (buffer : Z) : M (mem * (console * unit)) unit :=
  match n with
  | O => ret tt
  | S n => b ← on_mem (load buffer); on_console (putchar_have_lock b);; putbuf_loop n (buffer + 1)
  end.
Definition putbuf (buffer n : Z) : M (mem * (console * unit)) unit :=
  on_console acquire_console;; putbuf_loop (Z.to_nat n) buffer;; on_console release_console.

(** [vprintf_helper]: [aux] is the counter [char_cnt]. *)
Definition vprintf_helper (ch : Z) : M (mem * (console * Z)) unit := fun '(m, (c, cnt)) =>
  on_console (putchar_have_lock ch) (m, (c, s32 (cnt + 1))).

Definition vprintf (fuel n : nat) (format args : list Z) : M (mem * (console * unit)) Z := fun '(m, (c, x)) =>
  let! (cnt, (m, (c, _))) :=
    (on_console acquire_console;; __vprintf vprintf_helper fuel n format args;; on_console release_console;;
     s ← get; ret s.2.2) (m, (c, 0)) in
  Ok (cnt, (m, (c, x))).

Definition printf (fuel n : nat) (format args : list Z) : M (mem * (console * unit)) Z := vprintf fuel n format args.

Definition console_print_stats (fuel n : nat) : M (mem * (console * unit)) unit :=
  s ← get; printf fuel n (chars "Console: %lld characters output" ++ [10; 0]) [u64 (write_cnt s.2.1)];; ret tt.

(** ** Dumps (lib/stdio.c) *)

(** [for (; n > 0; n--) printf (format);] *)
Fixpoint print_times (k : nat) (n : nat) (format : list Z) : M (mem * (console * unit)) unit :=
  match n with O => ret tt | S n => printf 0 k format [];; print_times k n format end.

(** The bytes [i], ..., [i + n - 1] of the line, as numbers. *)
Fixpoint dump_bytes (k n : nat) (buf start i : Z) : M (mem * (console * unit)) unit :=
  match n with
  | O => ret tt
  | S n =>
      b ← on_mem (load (buf + (i - start)));
      printf 0 k (chars "%02hhx%c" ++ [0]) [b; if i =? 16 / 2 - 1 then ch "-" else ch " "];;
      dump_bytes k n buf start (i + 1)
  end.
Fixpoint dump_chars (k n : nat) (buf start i : Z) : M (mem * (console * unit)) unit :=
  match n with
  | O => ret tt
  | S n =>
      b ← on_mem (load (buf + (i - start)));
      printf 0 k (chars "%c" ++ [0]) [if isprint b then b else ch "."];;
      dump_chars k n buf start (i + 1)
  end.

(** [hex_dump]: every line prints at least one byte, so [size] lines are enough. *)
Fixpoint hex_dump (k lines : nat) (ofs buf size : Z) (ascii : bool) : M (mem * (console * unit)) unit :=
  if 0 <? size then
    match lines with
    | O => out_of_fuel
    | S lines =>
        let start := Z.rem ofs 16 in
        let end_ := if size <? 16 - start then start + size else 16 in
        let n := end_ - start in
        printf 0 k (chars "%016llx  " ++ [0]) [ROUND_DOWN ofs 16];;
        print_times k (Z.to_nat start) (chars "   " ++ [0]);;
        dump_bytes k (Z.to_nat n) buf start start;;
        (if ascii then
           print_times k (Z.to_nat (16 - end_)) (chars "   " ++ [0]);;
           printf 0 k (chars "|" ++ [0]) [];;
           print_times k (Z.to_nat start) (chars " " ++ [0]);;
           dump_chars k (Z.to_nat n) buf start start;;
           print_times k (Z.to_nat (16 - end_)) (chars " " ++ [0]);;
           printf 0 k (chars "|" ++ [0]) [];; ret tt
         else ret tt);;
        printf 0 k [10; 0] [];;
        hex_dump k lines (u64 (ofs + n)) (buf + n) (size - n) ascii
    end
  else ret tt.

(** ** Properties *)

(** [c] after the characters [l]. *)
Definition printed (c : console) (l : list Z) : console :=
  Console (in_intr c) (current c) (use_console_lock c) (holder c) (console_lock_depth c)
    (s64 (write_cnt c + Z.of_nat (List.length l))) (serial c ++ l) (vga c ++ l).

(** The lock is counted only while it is held. *)
Definition lock_ok (c : console) : Prop :=
  0 <= console_lock_depth c < 2 ^ 31 - 1 /\ (holder c = None -> console_lock_depth c = 0) /\ is_s64 (write_cnt c).
(** Whether the running thread may print without waiting. *)
Definition available (c : console) : bool :=
  in_intr c || negb (use_console_lock c) || bool_decide (holder c = None) || lock_held_by_current_thread c.

(** The console between acquiring and releasing it. *)
Definition acquired (c : console) : console :=
  if negb (in_intr c) && use_console_lock c then
    if lock_held_by_current_thread c then set_lock (holder c) (console_lock_depth c + 1) c else set_lock (Some (current c)) (console_lock_depth c) c
  else c.

Lemma console_acquire_run c : lock_ok c -> available c = true ->
  acquire_console c = Ok (tt, acquired c) /\ console_locked_by_current_thread (acquired c) = true.
Proof.
  intros ((D1 & D2) & H & _) Ha. unfold acquire_console, acquired, available, console_locked_by_current_thread in *. mnorm.
  destruct (in_intr c) eqn:Ei; cbn [negb andb]; [rewrite Ei; done|]. destruct (use_console_lock c) eqn:Eu; [|rewrite Ei, Eu; done].
  destruct (lock_held_by_current_thread c) eqn:El; cbn [orb negb] in Ha.
  - rewrite wraps_id by (unfold is_s; lia). split; [done|]. unfold lock_held_by_current_thread in *. cbn. rewrite El. by rewrite orb_true_r.
  - rewrite orb_false_r in Ha. apply bool_decide_eq_true in Ha. rewrite Ha. split; [done|]. unfold lock_held_by_current_thread. cbn. rewrite bool_decide_true by done. by rewrite orb_true_r.
Qed.

Lemma console_release_run c l : lock_ok c -> available c = true -> release_console (printed (acquired c) l) = Ok (tt, printed c l).
Proof.
  intros ((D1 & D2) & H & _) Ha. unfold release_console, acquired, available in *. mnorm.
  destruct (in_intr c) eqn:Ei; cbn [negb andb]; [cbn; by rewrite Ei|]. destruct (use_console_lock c) eqn:Eu; [|cbn; by rewrite Ei, Eu].
  destruct (lock_held_by_current_thread c) eqn:El; cbn [orb negb] in Ha; unfold printed, set_lock; cbn [in_intr use_console_lock console_lock_depth holder current]; rewrite Ei, Eu; cbn [negb andb].
  - rewrite (proj2 (Z.ltb_lt _ _)) by lia. unfold put. do 3 f_equal. lia.
  - rewrite orb_false_r in Ha. apply bool_decide_eq_true in Ha. rewrite (H Ha). change (0 <? 0) with false. cbv iota.
    unfold lock_held_by_current_thread. cbn [holder current]. rewrite bool_decide_true by done. by rewrite Ha.
Qed.

Lemma blocked_run c : available c = false -> acquire_console c = Block.
Proof.
  unfold available, acquire_console. mnorm. destruct (in_intr c), (use_console_lock c); cbn; try done.
  destruct (lock_held_by_current_thread c); [by rewrite orb_true_r|]. by destruct (holder c).
Qed.

Lemma printed_snoc c l x : printed (printed c l) [x] = printed c (l ++ [x]).
Proof.
  unfold printed. cbn [in_intr current use_console_lock holder console_lock_depth write_cnt serial vga]. f_equal; [|by rewrite <- app_assoc..].
  rewrite length_app. cbn [List.length]. apply wraps_eq. rewrite <- Zplus_mod_idemp_l, wraps_mod, Zplus_mod_idemp_l by lia. f_equal. lia.
Qed.

Lemma putchar_run c l x : console_locked_by_current_thread c = true -> putchar_have_lock x (printed c l) = Ok (tt, printed c (l ++ [x])).
Proof.
  intros H. unfold putchar_have_lock. mnorm. change (console_locked_by_current_thread (printed c l)) with (console_locked_by_current_thread c).
  rewrite H. mnorm. rewrite <- printed_snoc. done.
Qed.

Lemma printed_nil c : is_s64 (write_cnt c) -> printed c [] = c.
Proof. intros H. unfold printed. cbn [List.length]. rewrite Z.add_0_r, wraps_id, !app_nil_r by (done || lia). by destruct c. Qed.

Lemma acquired_cnt c : is_s64 (write_cnt c) -> is_s64 (write_cnt (acquired c)).
Proof. unfold acquired. destruct (_ && _); [|done]. by destruct (lock_held_by_current_thread c). Qed.

Section printing.
Context {c0 : console}.
Hypothesis locked : console_locked_by_current_thread c0 = true.

(** The console and the counter after the output that has been collected. *)
Definition printing (s1 : mem * list Z) (s2 : mem * (console * Z)) : Prop :=
  s2 = (s1.1, (printed c0 s1.2, Z.of_nat (List.length s1.2))).

Lemma printing_output x : sim printing (collect x) (vprintf_helper x).
Proof using locked.
  intros [m l] [] s1' [= <-]. cbn [snd]. rewrite length_app. cbn [List.length]. split; [lia|]. intros s2 -> Hl. cbn [fst snd].
  eexists. split; [|reflexivity]. unfold vprintf_helper, on_console. rewrite putchar_run by done. cbn [rbind fst snd].
  rewrite wraps_id by (unfold is_s; lia). rewrite length_app. cbn [List.length]. do 4 f_equal. lia.
Qed.

Lemma printing_load a : sim printing (on_mem (load a)) (on_mem (load a)).
Proof using Type.
  intros [m l] b s1' H. unfold on_mem, load in H. destruct (m a) as [b'|] eqn:E; [|done]. injection H as -> <-. split; [done|].
  intros s2 -> _. eexists. split; [|reflexivity]. cbn. unfold load. by rewrite E.
Qed.

Lemma puts_loop_run fuel m s l out :
  cstr m s l -> (List.length l < fuel)%nat -> puts_loop fuel s (m, (printed c0 out, tt)) = Ok (tt, (m, (printed c0 (out ++ l), tt))).
Proof using locked.
  revert s l out. induction fuel as [|fuel IH]; intros s l out Hc Hf; [lia|]. cbn [puts_loop].
  assert (forall b, m s = Some b -> on_mem (load s) (m, (printed c0 out, tt)) = Ok (b, (m, (printed c0 out, tt)))) as Hload by (intros b Hb; cbn; unfold load; by rewrite Hb).
  destruct l as [|x l].
  - mstep (Hload 0 (cstr_nil _ _ Hc)). by rewrite app_nil_r.
  - pose proof Hc as (Hx & Hs & Hc')%cstr_cons. mstep (Hload x Hs). rewrite (proj2 (Z.eqb_neq x 0)) by lia.
    assert (on_console (putchar_have_lock x) (m, (printed c0 out, tt)) = Ok (tt, (m, (printed c0 (out ++ [x]), tt)))) as E by (unfold on_console; by rewrite putchar_run).
    mstep E. rewrite (IH (s + 1) l) by (done || cbn in Hf; lia). by rewrite <- app_assoc.
Qed.

Lemma putbuf_loop_run m a bs out :
  bytes_at m a bs -> putbuf_loop (List.length bs) a (m, (printed c0 out, tt)) = Ok (tt, (m, (printed c0 (out ++ bs), tt))).
Proof using locked.
  revert a out. induction bs as [|x bs IH]; intros a out Hb; cbn [putbuf_loop List.length]; [by rewrite app_nil_r|].
  apply bytes_at_cons in Hb as [Hx Hb].
  assert (on_mem (load a) (m, (printed c0 out, tt)) = Ok (x, (m, (printed c0 out, tt)))) as E1 by (cbn; unfold load; by rewrite Hx). mstep E1.
  assert (on_console (putchar_have_lock x) (m, (printed c0 out, tt)) = Ok (tt, (m, (printed c0 (out ++ [x]), tt)))) as E2 by (unfold on_console; by rewrite putchar_run).
  mstep E2. by rewrite IH, <- app_assoc.
Qed.
End printing.

Lemma on_console_run {X B} (f : M console B) m c (x : X) b c' : f c = Ok (b, c') -> on_console f (m, (c, x)) = Ok (b, (m, (c', x))).
Proof. unfold on_console. by intros ->. Qed.

(** [printf] sends what the conversions of its format deliver. *)
Lemma printf_run c m fuel k format args out m1 :
  lock_ok c -> available c = true -> __vprintf collect fuel k format args (m, []) = Ok (tt, (m1, out)) -> Z.of_nat (List.length out) < 2 ^ 31 ->
  printf fuel k format args (m, (c, tt)) = Ok (Z.of_nat (List.length out), (m1, (printed c out, tt))).
Proof.
  intros Hok Ha E Hlen. destruct (console_acquire_run c Hok Ha) as [Eacq Hl]. pose proof (acquired_cnt c ltac:(apply Hok)) as Hw.
  pose proof (printed_nil (acquired c) Hw) as En. unfold printf, vprintf. mstep (on_console_run (X := Z) _ m c 0 _ _ Eacq).
  destruct (sim_vprintf printing vprintf_helper (printing_output Hl) printing_load fuel k format args _ _ _ E) as [_ H].
  destruct (H (m, (acquired c, 0))) as (s2 & E2 & ->); [unfold printing; cbn [fst snd List.length]; by rewrite En|done|].
  cbn [fst snd] in E2. mstep E2. mstep (on_console_run (X := Z) _ m1 _ (Z.of_nat (List.length out)) _ _ (console_release_run c out Hok Ha)). done.
Qed.

(** [printf], [puts], [putbuf] and [putchar] send exactly their characters,
    in order and to both devices, count them and leave the lock as they found
    it, whether the running thread already has the console lock, nobody has it,
    an interrupt is handled or the lock is not in use; [printf] returns the
    number of characters.  When another thread has the lock all of them
    wait. *)
Theorem console_prints c m fuel :
  lock_ok c ->
  (available c = true ->
   (forall k format args out m1, __vprintf collect fuel k format args (m, []) = Ok (tt, (m1, out)) -> Z.of_nat (List.length out) < 2 ^ 31 ->
      printf fuel k format args (m, (c, tt)) = Ok (Z.of_nat (List.length out), (m1, (printed c out, tt)))) /\
   (forall s l, cstr m s l -> (List.length l < fuel)%nat -> puts fuel s (m, (c, tt)) = Ok (0, (m, (printed c (l ++ [10]), tt)))) /\
   (forall buffer bs, bytes_at m buffer bs -> putbuf buffer (Z.of_nat (List.length bs)) (m, (c, tt)) = Ok (tt, (m, (printed c bs, tt)))) /\
   (forall x, putchar x c = Ok (x, printed c [u8 x]))) /\
  (available c = false ->
   (forall k format args, printf fuel k format args (m, (c, tt)) = Block) /\ (forall s, puts fuel s (m, (c, tt)) = Block) /\
   (forall buffer n, putbuf buffer n (m, (c, tt)) = Block) /\ (forall x, putchar x c = Block)).
Proof.
  intros Hok. split; intros Ha.
  - destruct (console_acquire_run c Hok Ha) as [Eacq Hl]. pose proof (acquired_cnt c ltac:(apply Hok)) as Hw.
    pose proof (printed_nil (acquired c) Hw) as En. split_and!.
    + intros k format args out m1 E Hlen. by apply printf_run.
    + intros s l Hc Hf. unfold puts. mstep (on_console_run (X := unit) _ m c tt _ _ Eacq). rewrite <- En.
      mstep (puts_loop_run Hl fuel m s l [] Hc Hf). cbn [app]. mstep (on_console_run (X := unit) _ m _ tt _ _ (putchar_run (acquired c) l 10 Hl)).
      by mstep (on_console_run (X := unit) _ m _ tt _ _ (console_release_run c (l ++ [10]) Hok Ha)).
    + intros buffer bs Hb. unfold putbuf. mstep (on_console_run (X := unit) _ m c tt _ _ Eacq). rewrite <- En, Nat2Z.id.
      mstep (putbuf_loop_run Hl m buffer bs [] Hb). apply (on_console_run (X := unit)). by apply console_release_run.
    + intros x. unfold putchar. mstep Eacq. rewrite <- En. mstep (putchar_run (acquired c) [] (u8 x) Hl). by mstep (console_release_run c [u8 x] Hok Ha).
  - pose proof (blocked_run c Ha) as E. unfold printf, vprintf, puts, putbuf, putchar, bind, on_console.
    split_and!; intros; by rewrite E.
Qed.

(** Thread 1 prints while it has the lock. *)
Definition demo_console (h : option Z) : console := Console false 1 true h 0 0 [] [].

Lemma console_prints_witness :
  printf 10 20 (chars "%d!" ++ [0]) [7] (fun _ => None, (demo_console (Some 1), tt)) = Ok (2, (fun _ => None, (printed (demo_console (Some 1)) (chars "7!"), tt))) /\
  putchar 65 (demo_console (Some 2)) = Block.
Proof.
  assert (forall h, lock_ok (demo_console h)) as Hok by (intros h; split_and!; done).
  destruct (console_prints (demo_console (Some 1)) (fun _ => None) 10 (Hok _)) as [H1 _].
  destruct (console_prints (demo_console (Some 2)) (fun _ => None) 10 (Hok _)) as [_ H2]. split.
  - apply (proj1 (H1 eq_refl) 20%nat (chars "%d!" ++ [0]) [7] (chars "7!") (fun _ => None)); by vm_compute.
  - by apply H2.
Defined.
