(* ===== verification/Disk.v ===== *)
(** * ATA disks (devices/disk.c)

    The two channels with their devices, and the registers of the controller
    behind Ports.  The interrupts that will arrive while a thread sleeps are
    part of the state, as the answers of the controller are. *)

From Stdlib Require Import Ascii String.
From S2P Require Import Prelude CString CStdlib Stdio StdioSpec Ports.
Local Open Scope string_scope.
Local Open Scope Z_scope.
Local Notation length := List.length.

(** ** State *)

Definition DISK_SECTOR_SIZE : Z := 512.

Record disk := Disk { name : list Z; dev_no : Z; is_ata : bool; capacity : Z; read_cnt : Z; write_cnt : Z }.

(** [lock] is the holder of the lock, [completion_wait] the value of the
    semaphore. *)
Record channel := Channel {
  cname : list Z; reg_base : Z; irq : Z; lock : option Z; expecting_interrupt : bool; completion_wait : Z; devices : list disk }.

Definition CHANNEL_CNT : Z := 2.

(** [pending] are the vectors of the interrupts to come; [off] and [cur] are
    the interrupt level and the running thread; [slept] is the time slept in
    nanoseconds, [out] what has been printed, [vectors] the interrupts with a
    handler and their privilege. *)
Record dstate := DState {
  channels : list channel; port : io; pending : list Z; off : bool; cur : Z; slept : Z; out : list Z; vectors : list (Z * Z) }.

Definition on_port {A} (f : M io A) : M dstate A := fun s =>
  let! (a, d) := f (port s) in Ok (a, DState (channels s) d (pending s) (off s) (cur s) (slept s) (out s) (vectors s)).
Definition set_channels (l : list channel) : M dstate unit := modify (fun s => DState l (port s) (pending s) (off s) (cur s) (slept s) (out s) (vectors s)).

Definition chan (c : nat) : M dstate channel := s ← get; lift (deref (channels s !! c)).
Definition set_chan (c : nat) (f : channel -> channel) : M dstate unit := s ← get; x ← chan c; set_channels (<[c := f x]> (channels s)).

(** A [struct disk *] is the number of its channel and its own. *)
Definition dptr : Type := nat * nat.
Definition dev (d : dptr) : M dstate disk := x ← chan d.1; lift (deref (devices x !! d.2)).
Definition set_dev (d : dptr) (f : disk -> disk) : M dstate unit :=
  x ← dev d;
  set_chan d.1 (fun c => Channel (cname c) (reg_base c) (irq c) (lock c) (expecting_interrupt c) (completion_wait c) (<[d.2 := f x]> (devices c))).

Definition set_lock (l : option Z) (c : channel) : channel := Channel (cname c) (reg_base c) (irq c) l (expecting_interrupt c) (completion_wait c) (devices c).
Definition set_expecting (b : bool) (c : channel) : channel := Channel (cname c) (reg_base c) (irq c) (lock c) b (completion_wait c) (devices c).
Definition set_completion (v : Z) (c : channel) : channel := Channel (cname c) (reg_base c) (irq c) (lock c) (expecting_interrupt c) v (devices c).
Definition set_ata (b : bool) (d : disk) : disk := Disk (name d) (dev_no d) b (capacity d) (read_cnt d) (write_cnt d).
Definition set_capacity (n : Z) (d : disk) : disk := Disk (name d) (dev_no d) (is_ata d) n (read_cnt d) (write_cnt d).
Definition count_read (d : disk) : disk := Disk (name d) (dev_no d) (is_ata d) (capacity d) (s64 (read_cnt d + 1)) (write_cnt d).
Definition count_write (d : disk) : disk := Disk (name d) (dev_no d) (is_ata d) (capacity d) (read_cnt d) (s64 (write_cnt d + 1)).

(** [printf]; the string [str] is in memory at address 1. *)
Definition string_mem (str : list Z) : mem := fun a =>
  if (1 <=? a) && (a <=? Z.of_nat (length str)) then str !! Z.to_nat (a - 1) else if a =? Z.of_nat (length str) + 1 then Some 0 else None.
Definition text_of (str format args : list Z) : result (list Z) :=
  let! (_, (_, l)) := __vprintf collect 64 (S (length format)) (format ++ [0])%list args (string_mem str, []) in Ok l.
Definition printf (str format args : list Z) : M dstate unit :=
  l ← lift (text_of str format args);
  modify (fun s => DState (channels s) (port s) (pending s) (off s) (cur s) (slept s) (out s ++ l)%list (vectors s)).

(** [timer_nsleep], [timer_usleep] and [timer_msleep]. *)
Definition timer_nsleep (ns : Z) : M dstate unit :=
  s ← get; ASSERT (negb (off s));;
  put (DState (channels s) (port s) (pending s) (off s) (cur s) (slept s + ns) (out s) (vectors s)).
Definition timer_usleep (us : Z) : M dstate unit := timer_nsleep (us * 1000).
Definition timer_msleep (ms : Z) : M dstate unit := timer_nsleep (ms * 1000000).

Definition intr_register_ext (vec : Z) : M dstate unit :=
  ASSERT ((0x20 <=? vec) && (vec <=? 0x2f));;
  s ← get; ASSERT (bool_decide (vec ∉ (vectors s).*1));;
  put (DState (channels s) (port s) (pending s) (off s) (cur s) (slept s) (out s) ((vec, 0) :: vectors s)).
Definition intr_register_int (vec dpl : Z) : M dstate unit :=
  ASSERT ((vec <? 0x20) || (0x2f <? vec));;
  s ← get; ASSERT (bool_decide (vec ∉ (vectors s).*1));;
  put (DState (channels s) (port s) (pending s) (off s) (cur s) (slept s) (out s) ((vec, dpl) :: vectors s)).

(** ** Registers *)

Definition reg_data (c : channel) : Z := reg_base c + 0.
Definition reg_error (c : channel) : Z := reg_base c + 1.
Definition reg_nsect (c : channel) : Z := reg_base c + 2.
Definition reg_lbal (c : channel) : Z := reg_base c + 3.
Definition reg_lbam (c : channel) : Z := reg_base c + 4.
Definition reg_lbah (c : channel) : Z := reg_base c + 5.
Definition reg_device (c : channel) : Z := reg_base c + 6.
Definition reg_status (c : channel) : Z := reg_base c + 7.
Definition reg_command (c : channel) : Z := reg_status c.
Definition reg_ctl (c : channel) : Z := reg_base c + 0x206.
Definition reg_alt_status (c : channel) : Z := reg_ctl c.
Definition STA_BSY : Z := 0x80.
Definition STA_DRDY : Z := 0x40.
Definition STA_DRQ : Z := 0x08.
Definition CTL_SRST : Z := 0x04.
Definition DEV_MBS : Z := 0xa0.
Definition DEV_LBA : Z := 0x40.
Definition DEV_DEV : Z := 0x10.
Definition CMD_IDENTIFY_DEVICE : Z := 0xec.
Definition CMD_READ_SECTOR_RETRY : Z := 0x20.
Definition CMD_WRITE_SECTOR_RETRY : Z := 0x30.
Definition bits (v flags : Z) : bool := negb (Z.land v flags =? 0).

(** ** Primitives *)

(** [for (i = 0; i < 1000; i++)]: [n] rounds are left. *)
Fixpoint idle_loop (n : nat) (d : dptr) : M dstate unit :=
  match n with
  | O => x ← dev d; printf (name x) (chars "%s: idle timeout" ++ [10])%list [1]
  | S n =>
      c ← chan d.1; v ← on_port (inb (reg_status c));
      if negb (bits v (Z.lor STA_BSY STA_DRQ)) then ret tt else timer_usleep 10;; idle_loop n d
  end.
Definition wait_until_idle (d : dptr) : M dstate unit := idle_loop 1000 d.

(** [for (i = 0; i < 3000; i++)] with [n = 3000 - i]. *)
Fixpoint busy_loop (n : nat) (d : dptr) : M dstate bool :=
  match n with
  | O => printf [] (chars "failed" ++ [10])%list [];; ret false
  | S n =>
      let i := 2999 - Z.of_nat n in
      (if i =? 700 then x ← dev d; printf (name x) (chars "%s: busy, waiting...") [1] else ret tt);;
      c ← chan d.1; v ← on_port (inb (reg_alt_status c));
      if negb (bits v STA_BSY) then
        (if 700 <=? i then printf [] (chars "ok" ++ [10])%list [] else ret tt);;
        w ← on_port (inb (reg_alt_status c)); ret (bits w STA_DRQ)
      else timer_msleep 10;; busy_loop n d
  end.
Definition wait_while_busy (d : dptr) : M dstate bool := busy_loop 3000 d.

Definition select_device (d : dptr) : M dstate unit :=
  c ← chan d.1; x ← dev d;
  let dv := if dev_no x =? 1 then Z.lor DEV_MBS DEV_DEV else DEV_MBS in
  on_port (outb (reg_device c) dv);;
  on_port (inb (reg_alt_status c));;
  timer_nsleep 400.
Definition select_device_wait (d : dptr) : M dstate unit :=
  wait_until_idle d;; select_device d;; wait_until_idle d.

Definition select_sector (d : dptr) (sec_no : Z) : M dstate unit :=
  c ← chan d.1; x ← dev d;
  ASSERT (sec_no <? capacity x);;
  ASSERT (sec_no <? 2 ^ 28);;
  select_device_wait d;;
  on_port (outb (reg_nsect c) 1);;
  on_port (outb (reg_lbal c) (u8 sec_no));;
  on_port (outb (reg_lbam c) (u8 (Z.shiftr sec_no 8)));;
  on_port (outb (reg_lbah c) (u8 (Z.shiftr sec_no 16)));;
  on_port (outb (reg_device c) (u8 (Z.lor (Z.lor (Z.lor DEV_MBS DEV_LBA) (if dev_no x =? 1 then DEV_DEV else 0)) (Z.shiftr sec_no 24)))).

Definition issue_pio_command (c : nat) (command : Z) : M dstate unit :=
  s ← get; ASSERT (negb (off s));;
  set_chan c (set_expecting true);;
  x ← chan c; on_port (outb (reg_command x) command).

(** A sector is transferred as 256 words, low byte first. *)
Fixpoint bytes_of (ws : list Z) : list Z := match ws with [] => [] | w :: ws => w mod 256 :: w / 256 mod 256 :: bytes_of ws end.
Fixpoint words_of (bs : list Z) : list Z := match bs with a :: b :: bs => a + 256 * b :: words_of bs | _ => [] end.
Definition input_sector (c : nat) : M dstate (list Z) :=
  x ← chan c; ws ← on_port (insw (reg_data x) (Z.to_nat (DISK_SECTOR_SIZE / 2))); ret (bytes_of ws).
Definition output_sector (c : nat) (sector : list Z) : M dstate unit :=
  x ← chan c;
  if (length sector <? Z.to_nat DISK_SECTOR_SIZE)%nat then lift Fault
  else on_port (outsw (reg_data x) (words_of (take (Z.to_nat DISK_SECTOR_SIZE) sector))).

(** ** Interrupts *)

(** [for (c = channels; c < channels + CHANNEL_CNT; c++)] with [l] the channels
    from number [i] on. *)
Fixpoint handler_loop (l : list channel) (i : nat) (vec_no : Z) : M dstate unit :=
  match l with
  | [] => lift Panic
  | c :: l =>
      if vec_no =? irq c then
        if expecting_interrupt c then
          on_port (inb (reg_status c));;
          set_chan i (fun c => set_completion (u32 (completion_wait c + 1)) c)
        else printf (cname c) (chars "%s: unexpected interrupt" ++ [10])%list [1]
      else handler_loop l (S i) vec_no
  end.
Definition interrupt_handler (vec_no : Z) : M dstate unit := s ← get; handler_loop (channels s) 0 vec_no.

(** [sema_down (&c->completion_wait)]: while the value is 0 the thread sleeps,
    interrupts arrive and their handler runs.  When none is left to come the
    thread sleeps for ever. *)
Fixpoint down_loop (n : nat) (c : nat) : M dstate unit :=
  x ← chan c;
  if 0 <? completion_wait x then set_chan c (set_completion (completion_wait x - 1))
  else
    s ← get;
    match n, pending s with
    | S n, v :: l =>
        put (DState (channels s) (port s) l (off s) (cur s) (slept s) (out s) (vectors s));;
        interrupt_handler v;; down_loop n c
    | _, _ => lift Block
    end.
Definition sema_down (c : nat) : M dstate unit := s ← get; down_loop (length (pending s)) c.

Definition lock_acquire (c : nat) : M dstate unit :=
  s ← get; x ← chan c;
  match lock x with
  | None => set_chan c (set_lock (Some (cur s)))
  | Some h => if h =? cur s then lift Panic else lift Block
  end.
Definition lock_release (c : nat) : M dstate unit :=
  s ← get; x ← chan c; ASSERT (bool_decide (lock x = Some (cur s)));; set_chan c (set_lock None).

(** ** Sectors *)

Definition disk_get (chan_no dev_no : Z) : M dstate (option dptr) :=
  ASSERT ((dev_no =? 0) || (dev_no =? 1));;
  if chan_no <? CHANNEL_CNT then
    (if chan_no <? 0 then lift Fault else ret tt);;
    x ← dev (Z.to_nat chan_no, Z.to_nat dev_no);
    ret (if is_ata x then Some (Z.to_nat chan_no, Z.to_nat dev_no) else None)
  else ret None.
Definition disk_size (d : option dptr) : M dstate Z :=
  match d with None => lift Panic | Some d => x ← dev d; ret (capacity x) end.

Definition disk_read (d : option dptr) (sec_no : Z) : M dstate (list Z) :=
  match d with
  | None => lift Panic
  | Some d =>
      lock_acquire d.1;;
      select_sector d sec_no;;
      issue_pio_command d.1 CMD_READ_SECTOR_RETRY;;
      sema_down d.1;;
      ok ← wait_while_busy d;
      (if ok : bool then ret tt else lift Panic);;
      buffer ← input_sector d.1;
      set_dev d count_read;;
      lock_release d.1;;
      ret buffer
  end.

Definition disk_write (d : option dptr) (sec_no : Z) (buffer : list Z) : M dstate unit :=
  match d with
  | None => lift Panic
  | Some d =>
      lock_acquire d.1;;
      select_sector d sec_no;;
      issue_pio_command d.1 CMD_WRITE_SECTOR_RETRY;;
      ok ← wait_while_busy d;
      (if ok : bool then ret tt else lift Panic);;
      output_sector d.1 buffer;;
      sema_down d.1;;
      set_dev d count_write;;
      lock_release d.1
  end.

(** ** Detection *)

Definition probe_device (d : dptr) : M dstate bool :=
  select_device d;;
  c ← chan d.1;
  on_port (outb (reg_nsect c) 0x55);; on_port (outb (reg_lbal c) 0xaa);;
  on_port (outb (reg_nsect c) 0xaa);; on_port (outb (reg_lbal c) 0x55);;
  on_port (outb (reg_nsect c) 0x55);; on_port (outb (reg_lbal c) 0xaa);;
  n ← on_port (inb (reg_nsect c));
  if n =? 0x55 then l ← on_port (inb (reg_lbal c)); ret (l =? 0xaa) else ret false.

(** The loop over [i] in [reset_channel]. *)
Fixpoint slave_loop (n : nat) (c : channel) : M dstate unit :=
  match n with
  | O => ret tt
  | S n =>
      v ← on_port (inb (reg_nsect c));
      ok ← (if v =? 1 then l ← on_port (inb (reg_lbal c)); ret (l =? 1) else ret false);
      if ok : bool then ret tt else timer_msleep 10;; slave_loop n c
  end.

Definition reset_channel (cn : nat) : M dstate unit :=
  present0 ← probe_device (cn, 0%nat);
  present1 ← probe_device (cn, 1%nat);
  c ← chan cn;
  on_port (outb (reg_ctl c) 0);; timer_usleep 10;;
  on_port (outb (reg_ctl c) CTL_SRST);; timer_usleep 10;;
  on_port (outb (reg_ctl c) 0);;
  timer_msleep 150;;
  (if present0 : bool then select_device (cn, 0%nat);; wait_while_busy (cn, 0%nat);; ret tt else ret tt);;
  (if present1 : bool then
     select_device (cn, 1%nat);;
     slave_loop 3000 c;;
     wait_while_busy (cn, 1%nat);; ret tt
   else ret tt).

Definition check_device_type (d : dptr) : M dstate bool :=
  c ← chan d.1; x ← dev d;
  select_device d;;
  error ← on_port (inb (reg_error c));
  lbam ← on_port (inb (reg_lbam c));
  lbah ← on_port (inb (reg_lbah c));
  status ← on_port (inb (reg_status c));
  if (negb (error =? 1) && (negb (error =? 0x81) || (dev_no x =? 1))) || negb (bits status STA_DRDY) || bits status STA_BSY then
    set_dev d (set_ata false);; ret (negb (error =? 0x81))
  else
    set_dev d (set_ata (((lbam =? 0) && (lbah =? 0)) || ((lbam =? 0x3c) && (lbah =? 0xc3))));; ret true.

(** [print_ata_string]: the first loop gives the new [size]. *)
Fixpoint trim_loop (string : list Z) (size : nat) : nat :=
  match size with
  | O => O
  | S n => let c := nth (Nat.lxor n 1) string 0 in if negb (c =? 0) && negb (isspace (wraps 8 c)) then size else trim_loop string n
  end.
Fixpoint print_chars (string : list Z) (n : nat) (i : nat) : M dstate unit :=
  match n with O => ret tt | S n => printf [] (chars "%c") [nth (Nat.lxor i 1) string 0];; print_chars string n (S i) end.
Definition print_ata_string (string : list Z) (size : nat) : M dstate unit := print_chars string (trim_loop string size) 0.

Definition identify_ata_device (d : dptr) : M dstate unit :=
  x ← dev d;
  ASSERT (is_ata x);;
  select_device_wait d;;
  issue_pio_command d.1 CMD_IDENTIFY_DEVICE;;
  sema_down d.1;;
  ok ← wait_while_busy d;
  if negb ok then set_dev d (set_ata false)
  else
    id ← input_sector d.1;
    let word i := nth (2 * i) id 0 + 256 * nth (2 * i + 1) id 0 in
    let cap := Z.lor (word 60%nat) (u32 (Z.shiftl (word 61%nat) 16)) in
    set_dev d (set_capacity cap);;
    printf (name x) (chars "%s: detected %'u sector (") [1; cap];;
    let k := Z.quot 1024 DISK_SECTOR_SIZE in
    (if k * 1024 * 1024 <? cap then printf [] (chars "%u GB") [cap / (k * 1024 * 1024)]
     else if k * 1024 <? cap then printf [] (chars "%u MB") [cap / (k * 1024)]
     else if k <? cap then printf [] (chars "%u kB") [cap / k]
     else printf [] (chars "%u byte") [u32 (cap * DISK_SECTOR_SIZE)]);;
    printf [] (chars ") disk, model " ++ [34])%list [];;
    print_ata_string (drop 54 id) 40;;
    printf [] ([34] ++ chars ", serial " ++ [34])%list [];;
    print_ata_string (drop 20 id) 20;;
    printf [] [34; 10] [].

Definition register_disk_inspect_intr : M dstate unit := intr_register_int 0x43 3;; intr_register_int 0x44 3.

Definition init_channel (chan_no : nat) : M dstate unit :=
  nm ← lift (text_of [] (chars "hd%zu") [Z.of_nat chan_no]);
  n0 ← lift (text_of nm (chars "%s:%d") [1; 0]);
  n1 ← lift (text_of nm (chars "%s:%d") [1; 1]);
  let base := if (chan_no =? 0)%nat then 0x1f0 else 0x170 in
  let vec := if (chan_no =? 0)%nat then 14 + 0x20 else 15 + 0x20 in
  set_chan chan_no (fun _ => Channel (take 7 nm) base vec None false 0
    [Disk (take 7 n0) 0 false 0 0 0; Disk (take 7 n1) 1 false 0 0 0]);;
  intr_register_ext vec;;
  reset_channel chan_no;;
  slave ← check_device_type (chan_no, 0%nat);
  (if slave : bool then check_device_type (chan_no, 1%nat);; ret tt else ret tt);;
  x ← dev (chan_no, 0%nat); (if is_ata x then identify_ata_device (chan_no, 0%nat) else ret tt);;
  x ← dev (chan_no, 1%nat); (if is_ata x then identify_ata_device (chan_no, 1%nat) else ret tt).
Definition disk_init : M dstate unit := init_channel 0;; init_channel 1;; register_disk_inspect_intr.

(** ** Statistics *)

Definition print_disk_stats (chan_no dev_no : Z) : M dstate unit :=
  d ← disk_get chan_no dev_no;
  match d with
  | None => ret tt
  | Some d =>
      x ← dev d;
      if is_ata x then printf (name x) (chars "%s: %lld reads, %lld writes" ++ [10])%list [1; u64 (read_cnt x); u64 (write_cnt x)] else ret tt
  end.
Definition disk_print_stats : M dstate unit :=
  print_disk_stats 0 0;; print_disk_stats 0 1;; print_disk_stats 1 0;; print_disk_stats 1 1.

(** The registers are 64 bits wide, the parameters of [disk_get] 32. *)
Definition inspect_read_cnt (rdx rcx : Z) : M dstate Z :=
  d ← disk_get (s32 rdx) (s32 rcx); match d with None => lift Fault | Some d => x ← dev d; ret (u64 (read_cnt x)) end.
Definition inspect_write_cnt (rdx rcx : Z) : M dstate Z :=
  d ← disk_get (s32 rdx) (s32 rcx); match d with None => lift Fault | Some d => x ← dev d; ret (u64 (write_cnt x)) end.
