(* ===== verification/DiskSpec.v ===== *)
(** * Requests and the ATA protocol (devices/disk.c)

    What the driver writes to the registers of a channel is read as an ATA
    controller reads it, and gives back the requests. *)

From S2P Require Import Prelude CString Stdio StdioSpec Ports Disk.
Local Notation length := List.length.

(** ** The controller's view *)

(** Commands with the device and the sector they are for and the words that went
    through the data register. *)
Inductive op := AtaRead (dv lba : Z) (words : list Z) | AtaWrite (dv lba : Z) (words : list Z) | AtaOther (command : Z).

(** The register file, and the commands so far, the latest first. *)
Record regs := Regs { nsect : Z; lbal : Z; lbam : Z; lbah : Z; device : Z; ops : list op }.

(** The sector in linear addressing. *)
Definition lba (r : regs) : Z := lbal r + 2 ^ 8 * lbam r + 2 ^ 16 * lbah r + 2 ^ 24 * (device r mod 16).
Definition selected (r : regs) : Z := device r / 16 mod 2.
Definition one_sector (r : regs) : bool := (nsect r =? 1) && Z.testbit (device r) 6.

Definition command (r : regs) (v : Z) : op :=
  if (v =? 0x20) && one_sector r then AtaRead (selected r) (lba r) []
  else if (v =? 0x30) && one_sector r then AtaWrite (selected r) (lba r) []
  else AtaOther v.
Definition read_word (v : Z) (l : list op) : list op := match l with AtaRead d n ws :: l => AtaRead d n (ws ++ [v]) :: l | _ => l end.
Definition write_word (v : Z) (l : list op) : list op := match l with AtaWrite d n ws :: l => AtaWrite d n (ws ++ [v]) :: l | _ => l end.

(** One access to the ports of the channel with base [b]. *)
Definition ata_step (b : Z) (r : regs) (a : access) : regs :=
  match a with
  | In p v => if p =? b then Regs (nsect r) (lbal r) (lbam r) (lbah r) (device r) (read_word v (ops r)) else r
  | Out p v =>
      if p =? b then Regs (nsect r) (lbal r) (lbam r) (lbah r) (device r) (write_word v (ops r))
      else if p =? b + 2 then Regs v (lbal r) (lbam r) (lbah r) (device r) (ops r)
      else if p =? b + 3 then Regs (nsect r) v (lbam r) (lbah r) (device r) (ops r)
      else if p =? b + 4 then Regs (nsect r) (lbal r) v (lbah r) (device r) (ops r)
      else if p =? b + 5 then Regs (nsect r) (lbal r) (lbam r) v (device r) (ops r)
      else if p =? b + 6 then Regs (nsect r) (lbal r) (lbam r) (lbah r) v (ops r)
      else if p =? b + 7 then Regs (nsect r) (lbal r) (lbam r) (lbah r) (device r) (command r v :: ops r)
      else r
  end.
Definition ata (b : Z) (r : regs) (l : list access) : regs := foldl (ata_step b) r l.

(** ** Effects *)

(** What never changes after the detection. *)
Definition static_disk (d : disk) : list Z * Z * bool * Z := (name d, dev_no d, is_ata d, capacity d).
Definition static (c : channel) : list Z * Z * Z * list (list Z * Z * bool * Z) := (cname c, reg_base c, irq c, static_disk <$> devices c).

(** From [s] to [s'] the controller at [b] sees its registers change by [F]. *)
Record effect (b : Z) (s s' : dstate) (F : regs -> regs) : Prop := {
  ef_static : static <$> channels s' = static <$> channels s;
  ef_off : off s' = off s;
  ef_cur : cur s' = cur s;
  ef_trace : exists l, trace (port s') = trace (port s) ++ l /\ forall r, ata b r l = F r
}.

Lemma effect_refl b s : effect b s s id.
Proof. split; try done. exists []. by rewrite app_nil_r. Qed.

Lemma effect_trans b s1 s2 s3 F G : effect b s1 s2 F -> effect b s2 s3 G -> effect b s1 s3 (fun r => G (F r)).
Proof.
  intros [A1 A2 A3 (l & A4 & A5)] [B1 B2 B3 (k & B4 & B5)]. split; [congruence..|]. exists (l ++ k). split; [by rewrite B4, A4, app_assoc|].
  intros r. unfold ata in *. by rewrite foldl_app, A5, B5.
Qed.

(** The channel under consideration, and the other ones do not share its data
    register. *)
Record wired (b : Z) (c : nat) (s : dstate) : Prop := {
  wr_base : exists x, channels s !! c = Some x /\ reg_base x = b /\ (dev_no <$> devices x) = [0; 1];
  wr_status : Forall (fun x => reg_status x <> b) (channels s)
}.

Lemma wired_static b c s s' : wired b c s -> static <$> channels s' = static <$> channels s -> wired b c s'.
Proof.
  intros [(x & Hx & Hb & Hd) Hf] E. split.
  - pose proof (f_equal (fun l => l !! c) E) as Ec. cbn in Ec. rewrite !list_lookup_fmap, Hx in Ec. cbn in Ec. destruct (channels s' !! c) as [y|]; [|done].
    exists y. split; [done|]. unfold static in Ec. cbn in Ec. injection Ec as _ E1 _ E2. split; [congruence|]. pose proof (f_equal (fmap (fun p => p.1.1.2)) E2) as E3.
    rewrite <- !list_fmap_compose in E3. rewrite <- Hd. exact E3.
  - rewrite Forall_forall in *. intros y Hy. assert (static y ∈ static <$> channels s) as Hy2 by (rewrite <- E; by apply list_elem_of_fmap_2).
    apply list_elem_of_fmap in Hy2 as (z & Ez & Hz). specialize (Hf z Hz). unfold static in Ez. unfold reg_status in *. injection Ez as _ Er _ _. by rewrite Er.
Qed.

(** A computation that the controller does not notice. *)
Definition unnoticed {A} (b : Z) (c : nat) (f : M dstate A) : Prop := forall s a s', wired b c s -> f s = Ok (a, s') -> effect b s s' id.

Lemma unnoticed_ret {A} b c (a : A) : unnoticed b c (ret a).
Proof. intros s a' s' _ [= <- <-]. apply effect_refl. Qed.

Lemma unnoticed_bind {A B} b c (f : M dstate A) (g : A -> M dstate B) : unnoticed b c f -> (forall a, unnoticed b c (g a)) -> unnoticed b c (bind f g).
Proof.
  intros Hf Hg s a s' Hw E. minv. eapply (effect_trans _ _ _ _ id id); [by eapply Hf|]. eapply Hg; [|done]. eapply wired_static; [done|]. by eapply ef_static, Hf.
Qed.

Lemma unnoticed_fail {A} b c (r : result A) : (forall a, r <> Ok a) -> unnoticed b c (lift r).
Proof. intros Hr s a s' _ E. unfold lift in E. destruct r; try done. by destruct (Hr a0). Qed.

Lemma unnoticed_get {A} b c (f : dstate -> M dstate A) : (forall t, unnoticed b c (f t)) -> unnoticed b c (s ← get; f s).
Proof. intros H. apply unnoticed_bind; [|done]. intros s a s' _ [= <- <-]. apply effect_refl. Qed.

(** A state in which only time, output, interrupts to come and registered vectors differ. *)
Lemma effect_same b s s' : channels s' = channels s -> port s' = port s -> off s' = off s -> cur s' = cur s -> effect b s s' id.
Proof. intros H1 H2 H3 H4. split; [by rewrite H1|done|done|]. exists []. rewrite H2. by rewrite app_nil_r. Qed.

Section Quiet.
  Context (b : Z) (c : nat).
  Local Notation quiet := (unnoticed b c).

Lemma unnoticed_if {A} (t : bool) (f g : M dstate A) : quiet f -> quiet g -> quiet (if t then f else g).
Proof. by destruct t. Qed.

Lemma quiet_assert t : quiet (ASSERT t).
Proof. intros s a s' _ E. unfold ASSERT in E. destruct t; [|done]. injection E as <- <-. apply effect_refl. Qed.

Lemma quiet_chan {B} (f : channel -> M dstate B) : (forall x, reg_base x = b -> quiet (f x)) -> quiet (x ← chan c; f x).
Proof.
  intros Hf s a s' Hw E. apply bind_inv in E as (x & s1 & E1 & E). unfold chan in E1. rewrite bind_get in E1. destruct (wr_base _ _ _ Hw) as (y & Hy & Hb & _).
  rewrite Hy in E1. injection E1 as <- <-. by eapply Hf.
Qed.

Lemma chan_inv k s x s' : chan k s = Ok (x, s') -> s' = s /\ channels s !! k = Some x.
Proof. unfold chan. rewrite bind_get. unfold lift, deref. destruct (channels s !! k) as [y|]; [|done]. intros E. cbn in E. by injection E as <- <-. Qed.
Lemma dev_inv d s x s' : dev d s = Ok (x, s') -> s' = s /\ exists y, channels s !! d.1 = Some y /\ devices y !! d.2 = Some x.
Proof.
  intros E. apply bind_inv in E as (y & s1 & E1 & E). apply chan_inv in E1 as [-> Hy]. unfold lift, deref in E. destruct (devices y !! d.2) as [z|] eqn:Ez; [|done].
  injection E as <- <-. split; [done|]. by exists y.
Qed.

Lemma quiet_any_chan k : quiet (chan k).
Proof. intros s a s' _ E. apply chan_inv in E as [-> _]. apply effect_refl. Qed.
Lemma quiet_dev d : quiet (dev d).
Proof. intros s a s' _ E. apply dev_inv in E as [-> _]. apply effect_refl. Qed.

Lemma quiet_in p : p <> b -> quiet (on_port (inb p)).
Proof.
  intros Hp s a s' _ E. unfold on_port, inb in E. destruct (answers (port s)) as [|v l]; [done|]. injection E as <- <-. split; try done. exists [In p v]. split; [done|].
  intros r. cbn. by rewrite (proj2 (Z.eqb_neq _ _) Hp).
Qed.

Lemma quiet_printf str fmt args : quiet (printf str fmt args).
Proof. intros s a s' _ E. unfold printf in E. minv. unfold lift in H. destruct (text_of str fmt args); [|done..]. injection H as <- <-. injection E as <- <-. by apply effect_same. Qed.

Lemma quiet_sleep ns : quiet (timer_nsleep ns).
Proof.
  intros s a s' _ E. unfold timer_nsleep in E. rewrite bind_get in E. apply bind_inv in E as (u & s1 & E1 & E). unfold ASSERT in E1. destruct (negb (off s)); [|done].
  injection E1 as <- <-. injection E as <- <-. by apply effect_same.
Qed.

Lemma set_chan_inv k f s a s' : set_chan k f s = Ok (a, s') -> exists x, channels s !! k = Some x /\
  s' = DState (<[k := f x]> (channels s)) (port s) (pending s) (off s) (cur s) (slept s) (out s) (vectors s).
Proof. intros E. unfold set_chan in E. rewrite bind_get in E. apply bind_inv in E as (x & s1 & E1 & E). apply chan_inv in E1 as [-> Hx]. injection E as <- <-. by exists x. Qed.

Lemma static_insert (k : nat) (f : channel -> channel) x (l : list channel) : l !! k = Some x -> static (f x) = static x -> static <$> <[k := f x]> l = static <$> l.
Proof. intros Hx Hf. rewrite list_fmap_insert, Hf. apply list_insert_id. by rewrite list_lookup_fmap, Hx. Qed.

Lemma quiet_set_chan k f : (forall x, static (f x) = static x) -> quiet (set_chan k f).
Proof.
  intros Hf s a s' _ E. apply set_chan_inv in E as (x & Hx & ->). split; cbn; [by apply static_insert|done|done|]. exists []. by rewrite app_nil_r.
Qed.

Lemma quiet_set_dev d f : (forall x, static_disk (f x) = static_disk x) -> quiet (set_dev d f).
Proof.
  intros Hf s a s' _ E. apply bind_inv in E as (x & s1 & E1 & E). apply dev_inv in E1 as (-> & y & Hy & Hx). apply set_chan_inv in E as (z & Hz & ->).
  rewrite Hy in Hz. injection Hz as <-. split; cbn; [|done|done|exists []; by rewrite app_nil_r].
  apply (static_insert d.1 (fun c => Channel (cname c) (reg_base c) (irq c) (lock c) (expecting_interrupt c) (completion_wait c) (<[d.2 := f x]> (devices c))) y); [done|].
  unfold static. cbn. f_equal. rewrite list_fmap_insert, Hf. apply list_insert_id. by rewrite list_lookup_fmap, Hx.
Qed.

(** The waiting loops. *)
Lemma quiet_idle n i : quiet (idle_loop n (c, i)).
Proof.
  induction n as [|n IH]; cbn [idle_loop].
  - apply unnoticed_bind; [apply quiet_dev|]. intros x. apply quiet_printf.
  - apply quiet_chan. intros x Hx. apply unnoticed_bind; [apply quiet_in; unfold reg_status; lia|]. intros v. apply unnoticed_if; [apply unnoticed_ret|].
    apply unnoticed_bind; [apply quiet_sleep|done].
Qed.

Lemma quiet_busy n i : quiet (busy_loop n (c, i)).
Proof.
  induction n as [|n IH]; cbn [busy_loop].
  - apply unnoticed_bind; [apply quiet_printf|]. intros x. apply unnoticed_ret.
  - apply unnoticed_bind; [apply unnoticed_if; [apply unnoticed_bind; [apply quiet_dev|]; intros x; apply quiet_printf|apply unnoticed_ret]|]. intros _.
    apply quiet_chan. intros x Hx. apply unnoticed_bind; [apply quiet_in; unfold reg_alt_status, reg_ctl; lia|]. intros v. apply unnoticed_if.
    + apply unnoticed_bind; [apply unnoticed_if; [apply quiet_printf|apply unnoticed_ret]|]. intros _. apply unnoticed_bind; [apply quiet_in; unfold reg_alt_status, reg_ctl; lia|]. intros w. apply unnoticed_ret.
    + apply unnoticed_bind; [apply quiet_sleep|done].
Qed.

(** An interrupt of any channel, and waiting for one. *)
Lemma quiet_handler v : quiet (interrupt_handler v).
Proof.
  intros s a s' Hw E. unfold interrupt_handler in E. rewrite bind_get in E. pose proof (wr_status _ _ _ Hw) as Hf. revert E. generalize 0%nat. revert Hf.
  induction (channels s) as [|x l IH]; intros Hf i E; [done|]. apply Forall_cons in Hf as [Hx Hf]. cbn [handler_loop] in E. destruct (v =? irq x); [|by eapply IH].
  destruct (expecting_interrupt x); [|by eapply quiet_printf]. revert E. apply (unnoticed_bind b c); [by apply quiet_in| |done]. intros _. by apply quiet_set_chan.
Qed.

Lemma quiet_down n k : quiet (down_loop n k).
Proof.
  induction n as [|n IH]; cbn [down_loop]; (apply unnoticed_bind; [apply quiet_any_chan|]; intros x; apply unnoticed_if; [by apply quiet_set_chan|]; intros s a s' Hw E; rewrite bind_get in E); [done|].
  destruct (pending s) as [|v l]; [done|]. apply bind_inv in E as (u & s1 & E1 & E). injection E1 as <- <-.
  assert (effect b s (DState (channels s) (port s) l (off s) (cur s) (slept s) (out s) (vectors s)) id) as H1 by (by apply effect_same).
  eapply (effect_trans _ _ _ _ id id); [exact H1|]. revert E. apply (unnoticed_bind b c); [apply quiet_handler|done|]. eapply wired_static; [done|by apply H1].
Qed.

(** ** Commands *)

Lemma out_effect p v s a s' : on_port (outb p v) s = Ok (a, s') -> effect b s s' (fun r => ata_step b r (Out p v)).
Proof using Type. intros [= <- <-]. split; try done. by exists [Out p v]. Qed.

Definition read_words (ws : list Z) (l : list op) : list op := foldl (fun l v => read_word v l) l ws.
Definition write_words (ws : list Z) (l : list op) : list op := foldl (fun l v => write_word v l) l ws.
Definition with_ops (l : list op) (r : regs) : regs := Regs (nsect r) (lbal r) (lbam r) (lbah r) (device r) l.

Lemma read_words_run ws d n w0 l : read_words ws (AtaRead d n w0 :: l) = AtaRead d n (w0 ++ ws) :: l.
Proof using Type. revert w0. induction ws as [|w ws IH]; intros w0; [by rewrite app_nil_r|]. unfold read_words in *. cbn [foldl read_word]. by rewrite IH, <- app_assoc. Qed.
Lemma write_words_run ws d n w0 l : write_words ws (AtaWrite d n w0 :: l) = AtaWrite d n (w0 ++ ws) :: l.
Proof using Type. revert w0. induction ws as [|w ws IH]; intros w0; [by rewrite app_nil_r|]. unfold write_words in *. cbn [foldl write_word]. by rewrite IH, <- app_assoc. Qed.

Lemma ata_in ws r : ata b r (In b <$> ws) = with_ops (read_words ws (ops r)) r.
Proof using Type. revert r. induction ws as [|w ws IH]; intros r; [by destruct r|]. cbn [fmap list_fmap ata foldl ata_step]. unfold ata in IH. rewrite Z.eqb_refl, IH. done. Qed.
Lemma ata_out ws r : ata b r (Out b <$> ws) = with_ops (write_words ws (ops r)) r.
Proof using Type. revert r. induction ws as [|w ws IH]; intros r; [by destruct r|]. cbn [fmap list_fmap ata foldl ata_step]. unfold ata in IH. rewrite Z.eqb_refl, IH. done. Qed.

Lemma insw_inv p n d ws d' : insw p n d = Ok (ws, d') -> length ws = n /\ answers d = ws ++ answers d' /\ trace d' = trace d ++ (In p <$> ws).
Proof using Type.
  revert d ws d'. induction n as [|n IH]; intros d ws d' E; cbn [insw] in E; [injection E as <- <-; by rewrite app_nil_r|].
  apply bind_inv in E as (v & d1 & E1 & E). apply bind_inv in E as (l & d2 & E2 & E). injection E as <- <-. apply IH in E2 as (Hl & Ha & Ht).
  unfold inb in E1. destruct (answers d) as [|w k]; [done|]. injection E1 as <- <-. cbn in *. subst k. split; [lia|]. split; [done|]. rewrite Ht. by rewrite <- app_assoc.
Qed.

Lemma input_effect s buf s' : wired b c s -> input_sector c s = Ok (buf, s') -> exists ws, effect b s s' (fun r => with_ops (read_words ws (ops r)) r) /\ buf = bytes_of ws /\ length ws = 256%nat.
Proof using Type.
  intros Hw E. unfold input_sector in E. apply bind_inv in E as (x & s1 & E1 & E). apply chan_inv in E1 as [-> Hx]. destruct (wr_base _ _ _ Hw) as (y & Hy & Hb & _).
  rewrite Hx in Hy. injection Hy as <-. apply bind_inv in E as (ws & s2 & E2 & E). injection E as <- <-. unfold on_port in E2. apply rbind_inv in E2 as ([ws' d'] & E2 & E3). injection E3 as -> <-.
  apply insw_inv in E2 as (Hl & _ & Ht). exists ws. split; [|done]. split; try done. exists (In b <$> ws). split; [cbn; rewrite Ht; unfold reg_data; by rewrite Hb, Z.add_0_r|]. intros r. apply ata_in.
Qed.

Lemma output_effect buf s a s' : wired b c s -> output_sector c buf s = Ok (a, s') ->
  effect b s s' (fun r => with_ops (write_words (words_of (take 512 buf)) (ops r)) r) /\ (512 <= length buf)%nat.
Proof using Type.
  intros Hw E. unfold output_sector in E. apply bind_inv in E as (x & s1 & E1 & E). apply chan_inv in E1 as [-> Hx]. destruct (wr_base _ _ _ Hw) as (y & Hy & Hb & _).
  rewrite Hx in Hy. injection Hy as <-. change (Z.to_nat DISK_SECTOR_SIZE) with 512%nat in E. destruct (length buf <? 512)%nat eqn:El; [done|]. apply Nat.ltb_ge in El. split; [|done].
  unfold on_port in E. rewrite outsw_run in E. injection E as <- <-. split; try done. exists (Out b <$> words_of (take 512 buf)).
  split; [cbn; unfold reg_data; by rewrite Hb, Z.add_0_r|]. intros r. apply ata_out.
Qed.

(** Selecting a sector. *)
Definition device_value (dv sec_no : Z) : Z := u8 (Z.lor (Z.lor (Z.lor DEV_MBS DEV_LBA) (if dv =? 1 then DEV_DEV else 0)) (Z.shiftr sec_no 24)).
Definition at_sector (dv sec_no : Z) (r : regs) : regs := Regs 1 (u8 sec_no) (u8 (Z.shiftr sec_no 8)) (u8 (Z.shiftr sec_no 16)) (device_value dv sec_no) (ops r).

Lemma device_bits dv k : (dv = 0 \/ dv = 1) -> 0 <= k < 16 -> Z.testbit (u8 (Z.lor (Z.lor (Z.lor DEV_MBS DEV_LBA) (if dv =? 1 then DEV_DEV else 0)) k)) 6 = true /\
  u8 (Z.lor (Z.lor (Z.lor DEV_MBS DEV_LBA) (if dv =? 1 then DEV_DEV else 0)) k) / 16 mod 2 = dv /\ u8 (Z.lor (Z.lor (Z.lor DEV_MBS DEV_LBA) (if dv =? 1 then DEV_DEV else 0)) k) mod 16 = k.
Proof using Type.
  intros Hd Hk. set (v dv k := u8 (Z.lor (Z.lor (Z.lor DEV_MBS DEV_LBA) (if dv =? 1 then DEV_DEV else 0)) k)).
  assert (forallb (fun dv => forallb (fun k => Z.testbit (v dv k) 6 && (v dv k / 16 mod 2 =? dv) && (v dv k mod 16 =? k)) (seqZ 0 16)) [0; 1] = true) as Ha by reflexivity.
  rewrite forallb_forall in Ha. specialize (Ha dv ltac:(destruct Hd as [->| ->]; cbn; tauto)). rewrite forallb_forall in Ha. specialize (Ha k ltac:(apply list_elem_of_In, elem_of_seqZ; lia)).
  fold (v dv k). apply andb_prop in Ha as [Ha H3]. apply andb_prop in Ha as [H1 H2]. apply Z.eqb_eq in H2, H3. done.
Qed.

Lemma at_sector_spec dv sec_no r : (dv = 0 \/ dv = 1) -> 0 <= sec_no < 2 ^ 28 ->
  one_sector (at_sector dv sec_no r) = true /\ selected (at_sector dv sec_no r) = dv /\ lba (at_sector dv sec_no r) = sec_no.
Proof using Type.
  intros Hd Hs. unfold one_sector, selected, lba, at_sector. cbn [nsect lbal lbam lbah device]. unfold device_value. rewrite !Z.shiftr_div_pow2 by lia. unfold wrapu at 3 4 5.
  assert (0 <= sec_no / 2 ^ 24 < 16) as Hk by (split; [apply Z.div_pos; lia|apply Z.div_lt_upper_bound; lia]).
  destruct (device_bits dv (sec_no / 2 ^ 24) Hd Hk) as (H6 & Hsel & Hm). rewrite H6, Hsel, Hm. split; [done|]. split; [done|].
  pose proof (Z.div_mod sec_no (2 ^ 8) ltac:(lia)). pose proof (Z.div_mod (sec_no / 2 ^ 8) (2 ^ 8) ltac:(lia)). pose proof (Z.div_mod (sec_no / 2 ^ 16) (2 ^ 8) ltac:(lia)).
  rewrite !Zdiv.Zdiv_Zdiv in * by lia. change (2 ^ 8 * 2 ^ 8) with (2 ^ 16) in *. change (2 ^ 16 * 2 ^ 8) with (2 ^ 24) in *. unfold wrapu. lia.
Qed.

Lemma effect_ext s s' F G : effect b s s' F -> (forall r, F r = G r) -> effect b s s' G.
Proof using Type. intros [H1 H2 H3 (l & H4 & H5)] Hg. split; try done. exists l. split; [done|]. intros r. by rewrite H5. Qed.

(** Composition with a computation that is not noticed, after and before. *)
Lemma then_quiet {A} (f : M dstate A) s0 s a s' F : quiet f -> wired b c s0 -> effect b s0 s F -> f s = Ok (a, s') -> effect b s0 s' F.
Proof using Type. intros Hf Hw H E. eapply (effect_trans b s0 s s' F id H), Hf; [|done]. eapply wired_static; [done|apply H]. Qed.

Lemma then_effect s0 s s' F G : effect b s0 s F -> effect b s s' G -> effect b s0 s' (fun r => G (F r)).
Proof using Type. apply effect_trans. Qed.

Lemma wired_effect s s' F : wired b c s -> effect b s s' F -> wired b c s'.
Proof using Type. intros Hw H. eapply wired_static; [done|apply H]. Qed.

Lemma wired_dev s i x s' : wired b c s -> dev (c, i) s = Ok (x, s') -> s' = s /\ dev_no x = Z.of_nat i /\ (i < 2)%nat.
Proof using Type.
  intros Hw E. apply dev_inv in E as (-> & y & Hy & Hx). destruct (wr_base _ _ _ Hw) as (z & Hz & _ & Hd). cbn in *. rewrite Hy in Hz. injection Hz as <-.
  pose proof (f_equal (fun l => l !! i) Hd) as Hi. cbn in Hi. rewrite list_lookup_fmap, Hx in Hi. destruct i as [|[|i]]; cbn in Hi; [| |done]; injection Hi as Hi; (split; [done|split; [done|lia]]).
Qed.

Lemma wired_chan s x s' : wired b c s -> chan c s = Ok (x, s') -> s' = s /\ reg_base x = b.
Proof using Type. intros Hw E. apply chan_inv in E as [-> Hx]. destruct (wr_base _ _ _ Hw) as (z & Hz & Hb & _). rewrite Hx in Hz. by injection Hz as <-. Qed.

(** The registers one by one. *)
Ltac ata_port := cbn [ata_step]; rewrite !(proj2 (Z.eqb_neq _ _)), Z.eqb_refl by lia; done.
Lemma step_nsect r v : ata_step b r (Out (b + 2) v) = Regs v (lbal r) (lbam r) (lbah r) (device r) (ops r).
Proof using Type. ata_port. Qed.
Lemma step_lbal r v : ata_step b r (Out (b + 3) v) = Regs (nsect r) v (lbam r) (lbah r) (device r) (ops r).
Proof using Type. ata_port. Qed.
Lemma step_lbam r v : ata_step b r (Out (b + 4) v) = Regs (nsect r) (lbal r) v (lbah r) (device r) (ops r).
Proof using Type. ata_port. Qed.
Lemma step_lbah r v : ata_step b r (Out (b + 5) v) = Regs (nsect r) (lbal r) (lbam r) v (device r) (ops r).
Proof using Type. ata_port. Qed.
Lemma step_device r v : ata_step b r (Out (b + 6) v) = Regs (nsect r) (lbal r) (lbam r) (lbah r) v (ops r).
Proof using Type. ata_port. Qed.
Lemma step_command r v : ata_step b r (Out (b + 7) v) = Regs (nsect r) (lbal r) (lbam r) (lbah r) (device r) (command r v :: ops r).
Proof using Type. ata_port. Qed.

Lemma select_device_effect i s a s' : wired b c s -> select_device (c, i) s = Ok (a, s') -> exists F, effect b s s' F /\ forall r, ops (F r) = ops r.
Proof using Type.
  intros Hw E. unfold select_device in E. apply bind_inv in E as (x & s1 & E1 & E). apply (wired_chan _ _ _ Hw) in E1 as [-> Hb].
  apply bind_inv in E as (y & s2 & E2 & E). apply (wired_dev _ _ _ _ Hw) in E2 as (-> & _). apply bind_inv in E as (u & s3 & E3 & E). apply out_effect in E3.
  eexists. split.
  - eapply then_quiet; [|exact Hw|exact E3|exact E]. apply unnoticed_bind; [apply quiet_in; unfold reg_alt_status, reg_ctl; lia|]. intros _. apply quiet_sleep.
  - intros r. unfold reg_device. rewrite Hb. by rewrite step_device.
Qed.

Lemma select_sector_effect i sec_no s a s' : wired b c s -> select_sector (c, i) sec_no s = Ok (a, s') ->
  effect b s s' (at_sector (Z.of_nat i) sec_no) /\ sec_no < 2 ^ 28 /\ (i < 2)%nat.
Proof using Type.
  intros Hw E. unfold select_sector in E. apply bind_inv in E as (x & s1 & E1 & E). apply (wired_chan _ _ _ Hw) in E1 as [-> Hb].
  apply bind_inv in E as (y & s2 & E2 & E). apply (wired_dev _ _ _ _ Hw) in E2 as (-> & Hd & Hi). rewrite Hd in E.
  apply bind_inv in E as (u & s3 & E3 & E). unfold ASSERT in E3. destruct (sec_no <? capacity y); [|done]. injection E3 as <- <-.
  apply bind_inv in E as (u & s4 & E4 & E). unfold ASSERT in E4. destruct (sec_no <? 2 ^ 28) eqn:E28; [|done]. apply Z.ltb_lt in E28. injection E4 as <- <-. split; [|done].
  unfold select_device_wait in E. apply bind_inv in E as (v & s5 & E5 & E). apply bind_inv in E5 as (u5 & s6 & E6 & E5). apply bind_inv in E5 as (u6 & s7 & E7 & E5).
  pose proof (quiet_idle _ _ _ _ _ Hw E6) as H6. destruct (select_device_effect _ _ _ _ (wired_effect _ _ _ Hw H6) E7) as (F & H7 & HF).
  pose proof (then_quiet _ _ _ _ _ _ (quiet_idle 1000 i) Hw (then_effect _ _ _ _ _ H6 H7) E5) as H5. clear E6 E7 E5.
  apply bind_inv in E as (v1 & t1 & T1 & E). apply bind_inv in E as (v2 & t2 & T2 & E). apply bind_inv in E as (v3 & t3 & T3 & E). apply bind_inv in E as (v4 & t4 & T4 & E).
  apply out_effect in T1, T2, T3, T4, E. eapply effect_ext; [exact (then_effect _ _ _ _ _ (then_effect _ _ _ _ _ (then_effect _ _ _ _ _ (then_effect _ _ _ _ _ (then_effect _ _ _ _ _ H5 T1) T2) T3) T4) E)|].
  intros r. unfold reg_nsect, reg_lbal, reg_lbam, reg_lbah, reg_device. rewrite Hb. unfold at_sector. rewrite <- (HF (id r) : _ = ops r). generalize (F (id r)). intros r0.
  change (id r0) with r0. rewrite step_nsect, step_lbal. cbn [nsect lbam lbah device ops]. rewrite step_lbam. cbn [nsect lbal lbah device ops]. rewrite step_lbah. cbn [nsect lbal lbam device ops]. by rewrite step_device.
Qed.

Lemma issue_effect v s a s' : wired b c s -> issue_pio_command c v s = Ok (a, s') -> effect b s s' (fun r => with_ops (command r v :: ops r) r).
Proof using Type.
  intros Hw E. unfold issue_pio_command in E. rewrite bind_get in E. apply bind_inv in E as (u & s1 & E1 & E). pose proof (quiet_assert _ _ _ _ Hw E1) as H1.
  apply bind_inv in E as (u2 & s2 & E2 & E). pose proof (quiet_set_chan c (set_expecting true) ltac:(done) _ _ _ (wired_effect _ _ _ Hw H1) E2) as H2.
  pose proof (then_effect _ _ _ _ _ H1 H2) as H12. apply bind_inv in E as (x & s3 & E3 & E). apply (wired_chan _ _ _ (wired_effect _ _ _ Hw H12)) in E3 as [-> Hb]. apply out_effect in E.
  eapply effect_ext; [exact (then_effect _ _ _ _ _ H12 E)|]. intros r. unfold reg_command, reg_status. rewrite Hb. by rewrite step_command.
Qed.

Lemma quiet_acquire : quiet (lock_acquire c).
Proof using Type.
  apply unnoticed_get. intros t. apply unnoticed_bind; [apply quiet_any_chan|]. intros x. destruct (lock x) as [h|]; [|by apply quiet_set_chan].
  apply unnoticed_if; by apply unnoticed_fail.
Qed.
Lemma quiet_release : quiet (lock_release c).
Proof using Type.
  apply unnoticed_get. intros t. apply unnoticed_bind; [apply quiet_any_chan|]. intros x. apply unnoticed_bind; [apply quiet_assert|]. intros _. by apply quiet_set_chan.
Qed.
Lemma quiet_sema : quiet (sema_down c).
Proof using Type. apply unnoticed_get. intros t. apply quiet_down. Qed.
Lemma quiet_while_busy i : quiet (wait_while_busy (c, i)).
Proof using Type. apply quiet_busy. Qed.
Lemma quiet_panic (ok : bool) : quiet (if ok then ret tt else lift Panic).
Proof using Type. apply unnoticed_if; [apply unnoticed_ret|by apply unnoticed_fail]. Qed.

(** The commands of the two requests. *)
Lemma command_read i sec_no r : (i < 2)%nat -> 0 <= sec_no < 2 ^ 28 -> command (at_sector (Z.of_nat i) sec_no r) CMD_READ_SECTOR_RETRY = AtaRead (Z.of_nat i) sec_no [].
Proof using Type. intros Hi Hs. destruct (at_sector_spec (Z.of_nat i) sec_no r ltac:(lia) Hs) as (H1 & H2 & H3). unfold command. by rewrite H1, H2, H3. Qed.
Lemma command_write i sec_no r : (i < 2)%nat -> 0 <= sec_no < 2 ^ 28 -> command (at_sector (Z.of_nat i) sec_no r) CMD_WRITE_SECTOR_RETRY = AtaWrite (Z.of_nat i) sec_no [].
Proof using Type. intros Hi Hs. destruct (at_sector_spec (Z.of_nat i) sec_no r ltac:(lia) Hs) as (H1 & H2 & H3). unfold command. by rewrite H1, H2, H3. Qed.

Lemma disk_read_effect i sec_no s buf s' : wired b c s -> 0 <= sec_no -> disk_read (Some (c, i)) sec_no s = Ok (buf, s') ->
  exists F ws, effect b s s' F /\ (forall r, ops (F r) = AtaRead (Z.of_nat i) sec_no ws :: ops r) /\ buf = bytes_of ws /\ length ws = 256%nat.
Proof using Type.
  intros Hw Hs E. cbn [disk_read fst] in E. apply bind_inv in E as (a1 & s1 & E1 & E). apply bind_inv in E as (a2 & s2 & E2 & E). apply bind_inv in E as (a3 & s3 & E3 & E).
  apply bind_inv in E as (a4 & s4 & E4 & E). apply bind_inv in E as (a5 & s5 & E5 & E). apply bind_inv in E as (a6 & s6 & E6 & E). apply bind_inv in E as (a7 & s7 & E7 & E).
  apply bind_inv in E as (a8 & s8 & E8 & E). apply bind_inv in E as (a9 & s9 & E9 & E). injection E as <- <-.
  pose proof (quiet_acquire _ _ _ Hw E1) as H1. destruct (select_sector_effect _ _ _ _ _ (wired_effect _ _ _ Hw H1) E2) as (H2 & H28 & Hi). pose proof (then_effect _ _ _ _ _ H1 H2) as H12.
  pose proof (then_effect _ _ _ _ _ H12 (issue_effect _ _ _ _ (wired_effect _ _ _ Hw H12) E3)) as H3.
  pose proof (then_quiet _ _ _ _ _ _ quiet_sema Hw H3 E4) as H4. pose proof (then_quiet _ _ _ _ _ _ (quiet_while_busy i) Hw H4 E5) as H5. pose proof (then_quiet _ _ _ _ _ _ (quiet_panic a5) Hw H5 E6) as H6.
  destruct (input_effect _ _ _ (wired_effect _ _ _ Hw H6) E7) as (ws & H7 & -> & Hl). pose proof (then_effect _ _ _ _ _ H6 H7) as H67.
  pose proof (then_quiet _ _ _ _ _ _ (quiet_set_dev (c, i) count_read ltac:(done)) Hw H67 E8) as H8. pose proof (then_quiet _ _ _ _ _ _ quiet_release Hw H8 E9) as H9.
  eexists _, ws. split; [exact H9|]. split; [|done]. intros r. cbn [with_ops ops]. rewrite command_read by (done || lia). by rewrite read_words_run.
Qed.

Lemma disk_write_effect i sec_no buf s a s' : wired b c s -> 0 <= sec_no -> disk_write (Some (c, i)) sec_no buf s = Ok (a, s') ->
  (512 <= length buf)%nat /\ exists F, effect b s s' F /\ forall r, ops (F r) = AtaWrite (Z.of_nat i) sec_no (words_of (take 512 buf)) :: ops r.
Proof using Type.
  intros Hw Hs E. cbn [disk_write fst] in E. apply bind_inv in E as (a1 & s1 & E1 & E). apply bind_inv in E as (a2 & s2 & E2 & E). apply bind_inv in E as (a3 & s3 & E3 & E).
  apply bind_inv in E as (a4 & s4 & E4 & E). apply bind_inv in E as (a5 & s5 & E5 & E). apply bind_inv in E as (a6 & s6 & E6 & E). apply bind_inv in E as (a7 & s7 & E7 & E).
  apply bind_inv in E as (a8 & s8 & E8 & E).
  pose proof (quiet_acquire _ _ _ Hw E1) as H1. destruct (select_sector_effect _ _ _ _ _ (wired_effect _ _ _ Hw H1) E2) as (H2 & H28 & Hi). pose proof (then_effect _ _ _ _ _ H1 H2) as H12.
  pose proof (then_effect _ _ _ _ _ H12 (issue_effect _ _ _ _ (wired_effect _ _ _ Hw H12) E3)) as H3.
  pose proof (then_quiet _ _ _ _ _ _ (quiet_while_busy i) Hw H3 E4) as H4. pose proof (then_quiet _ _ _ _ _ _ (quiet_panic a4) Hw H4 E5) as H5.
  destruct (output_effect buf _ _ _ (wired_effect _ _ _ Hw H5) E6) as (H6 & Hl). pose proof (then_effect _ _ _ _ _ H5 H6) as H56.
  pose proof (then_quiet _ _ _ _ _ _ quiet_sema Hw H56 E7) as H7. pose proof (then_quiet _ _ _ _ _ _ (quiet_set_dev (c, i) count_write ltac:(done)) Hw H7 E8) as H8.
  pose proof (then_quiet _ _ _ _ _ _ quiet_release Hw H8 E) as H9. split; [done|]. eexists. split; [exact H9|]. intros r. cbn [with_ops ops]. rewrite command_write by (done || lia). by rewrite write_words_run.
Qed.

End Quiet.

(** ** Sectors as bytes *)

Lemma words_bytes bs : Nat.Even (length bs) -> Forall (fun v => 0 <= v < 256) bs -> bytes_of (words_of bs) = bs.
Proof.
  intros He. remember (length bs) as n eqn:En. revert bs En He. induction n as [n IH] using lt_wf_ind. intros bs En He Hb. destruct bs as [|x [|y bs]]; [done|destruct He as [k He]; cbn in En; lia|].
  apply Forall_cons in Hb as [Hx Hb]. apply Forall_cons in Hb as [Hy Hb]. cbn [words_of bytes_of].
  assert ((x + 256 * y) mod 256 = x) as -> by (rewrite (Z.mul_comm 256), Z_mod_plus_full; apply Z.mod_small; lia).
  assert ((x + 256 * y) / 256 mod 256 = y) as -> by (rewrite (Z.mul_comm 256), Z.div_add, (Z.div_small x) by lia; apply Z.mod_small; lia).
  f_equal. f_equal. cbn in En. apply (IH (length bs)); [lia|done| |done]. destruct He as [k He]. exists (k - 1)%nat. lia.
Qed.

(** A request and what the controller did for it, in bytes. *)
Inductive request := Rd (i : nat) (sec_no : Z) | Wr (i : nat) (sec_no : Z) (buffer : list Z).
Inductive transfer := Sent (i sec_no : Z) (bytes : list Z) | Received (i sec_no : Z) (bytes : list Z).
Definition op_transfer (o : op) : option transfer :=
  match o with AtaRead i n ws => Some (Received i n (bytes_of ws)) | AtaWrite i n ws => Some (Sent i n (bytes_of ws)) | AtaOther _ => None end.

Fixpoint serve (c : nat) (l : list request) : M dstate (list (list Z)) :=
  match l with
  | [] => ret []
  | Rd i n :: l => buf ← disk_read (Some (c, i)) n; res ← serve c l; ret (buf :: res)
  | Wr i n buf :: l => disk_write (Some (c, i)) n buf;; serve c l
  end.

(** What the controller should be asked for; the data of the reads are [res]. *)
Fixpoint wanted (l : list request) (res : list (list Z)) : list transfer :=
  match l, res with
  | Rd i n :: l, buf :: res => Received (Z.of_nat i) n buf :: wanted l res
  | Wr i n buf :: l, res => Sent (Z.of_nat i) n (take 512 buf) :: wanted l res
  | _, _ => []
  end.

(** Sectors on the two devices, and a controller that stores what it is sent and
    gives back what it has stored. *)
Definition store : Type := Z -> Z -> list Z.
Fixpoint honest (m : store) (l : list transfer) : Prop :=
  match l with
  | [] => True
  | Sent i n bs :: l => honest (fun j k => if (j =? i) && (k =? n) then bs else m j k) l
  | Received i n bs :: l => bs = m i n /\ honest m l
  end.
(** The array of sectors itself. *)
Fixpoint array (m : store) (l : list request) : list (list Z) :=
  match l with
  | [] => []
  | Rd i n :: l => m (Z.of_nat i) n :: array m l
  | Wr i n buf :: l => array (fun j k => if (j =? Z.of_nat i) && (k =? n) then take 512 buf else m j k) l
  end.

Definition request_ok (q : request) : Prop :=
  match q with Rd _ n => 0 <= n | Wr _ n buf => 0 <= n /\ Forall (fun v => 0 <= v < 256) buf end.

Lemma serve_wanted b c l s res s' : wired b c s -> Forall request_ok l -> serve c l s = Ok (res, s') ->
  exists F, effect b s s' F /\ forall r, exists new, ops (F r) = new ++ ops r /\ omap op_transfer (rev new) = wanted l res.
Proof.
  revert s res. induction l as [|q l IH]; intros s res Hw Hl E; cbn [serve] in E.
  { injection E as <- <-. exists id. split; [apply effect_refl|]. intros r. by exists []. }
  apply Forall_cons in Hl as [Hq Hl]. destruct q as [i n|i n buf].
  - apply bind_inv in E as (buf & s1 & E1 & E). apply bind_inv in E as (res1 & s2 & E2 & E). injection E as <- <-.
    destruct (disk_read_effect b c i n s buf s1 Hw Hq E1) as (F & ws & H1 & HF & -> & _). destruct (IH s1 res1 (wired_effect _ _ _ _ _ Hw H1) Hl E2) as (G & H2 & HG).
    exists (fun r => G (F r)). split; [exact (effect_trans _ _ _ _ _ _ H1 H2)|]. intros r. destruct (HG (F r)) as (new & En & Ew). exists (new ++ [AtaRead (Z.of_nat i) n ws]).
    rewrite En, HF, <- app_assoc. split; [done|]. rewrite rev_app_distr. cbn. by rewrite Ew.
  - destruct Hq as [Hn Hb]. apply bind_inv in E as (u & s1 & E1 & E). destruct (disk_write_effect b c i n buf s u s1 Hw Hn E1) as (Hlen & F & H1 & HF).
    destruct (IH s1 res (wired_effect _ _ _ _ _ Hw H1) Hl E) as (G & H2 & HG). exists (fun r => G (F r)). split; [exact (effect_trans _ _ _ _ _ _ H1 H2)|]. intros r.
    destruct (HG (F r)) as (new & En & Ew). exists (new ++ [AtaWrite (Z.of_nat i) n (words_of (take 512 buf))]). rewrite En, HF, <- app_assoc. split; [done|].
    rewrite rev_app_distr. cbn. rewrite Ew, words_bytes; [by destruct res|exists 256%nat; rewrite length_take, Nat.min_l by lia; reflexivity|by apply Forall_take].
Qed.

Lemma serve_length c l s res s' : serve c l s = Ok (res, s') -> length res = length (List.filter (fun q => match q with Rd _ _ => true | _ => false end) l).
Proof.
  revert s res. induction l as [|[i n|i n buf] l IH]; intros s res E; cbn [serve] in E; [by injection E as <- <-| |].
  - apply bind_inv in E as (buf & s1 & E1 & E). apply bind_inv in E as (res1 & s2 & E2 & E). injection E as <- <-. cbn. f_equal. by eapply IH.
  - apply bind_inv in E as (u & s1 & E1 & E). cbn. by eapply IH.
Qed.

Lemma honest_array l : forall m res, length res = length (List.filter (fun q => match q with Rd _ _ => true | _ => false end) l) -> honest m (wanted l res) -> res = array m l.
Proof.
  induction l as [|[i n|i n buf] l IH]; intros m res Hl Hh; cbn in *.
  - by destruct res.
  - destruct res as [|buf res]; [done|]. destruct Hh as [-> Hh]. f_equal. apply IH; [by injection Hl|done].
  - apply IH; [done|]. by destruct res.
Qed.

(** ** Completion *)

(** What waiting changes. *)
Definition waited (s s' : dstate) (rest : list Z) : Prop :=
  channels s' = channels s /\ pending s' = pending s /\ off s' = off s /\ cur s' = cur s /\ answers (port s') = rest.

Lemma waited_trans s1 s2 s3 r1 r2 : waited s1 s2 r1 -> waited s2 s3 r2 -> waited s1 s3 r2.
Proof. intros (A1 & A2 & A3 & A4 & A5) (B1 & B2 & B3 & B4 & B5). unfold waited. rewrite B1, B2, B3, B4. by rewrite A1, A2, A3, A4. Qed.

Lemma inb_run s p v rest : answers (port s) = v :: rest -> exists s', on_port (inb p) s = Ok (v, s') /\ waited s s' rest.
Proof. intros Ha. unfold on_port, inb. rewrite Ha. by eexists. Qed.
Lemma outb_run s p v : exists s', on_port (outb p v) s = Ok (tt, s') /\ waited s s' (answers (port s)).
Proof. by eexists. Qed.
Lemma sleep_run s ns : off s = false -> exists s', timer_nsleep ns s = Ok (tt, s') /\ waited s s' (answers (port s)).
Proof. intros Ho. unfold timer_nsleep. rewrite bind_get, Ho. by eexists. Qed.
Lemma chan_run s c x : channels s !! c = Some x -> chan c s = Ok (x, s).
Proof. intros H. unfold chan. by rewrite bind_get, H. Qed.
Lemma dev_run s c i x y : channels s !! c = Some x -> devices x !! i = Some y -> dev (c, i) s = Ok (y, s).
Proof. intros H Hy. unfold dev. mstep (chan_run s c x H). cbn. by rewrite Hy. Qed.

Lemma idle_loop_run bs : forall n d s x v rest, channels s !! d.1 = Some x -> off s = false -> answers (port s) = bs ++ v :: rest ->
  Forall (fun v => bits v (Z.lor STA_BSY STA_DRQ) = true) bs -> bits v (Z.lor STA_BSY STA_DRQ) = false -> (length bs < n)%nat ->
  exists s', idle_loop n d s = Ok (tt, s') /\ waited s s' rest.
Proof.
  induction bs as [|w bs IH]; intros n d s x v rest Hx Ho Ha Hb Hv Hn; (destruct n as [|n]; [lia|]); cbn [idle_loop]; mstep (chan_run s d.1 x Hx).
  - destruct (inb_run s (reg_status x) v rest Ha) as (s1 & E & W). mstep E. rewrite Hv. by exists s1.
  - apply Forall_cons in Hb as [Hw Hb]. destruct (inb_run s (reg_status x) w (bs ++ v :: rest) Ha) as (s1 & E & W). mstep E. rewrite Hw. cbn [negb].
    destruct W as (W1 & W2 & W3 & W4 & W5). destruct (sleep_run s1 (10 * 1000) ltac:(congruence)) as (s2 & E2 & V1 & V2 & V3 & V4 & V5). mstep E2.
    destruct (IH n d s2 x v rest) as (s3 & E3 & U); [congruence..|done|done|cbn in Hn; lia|]. exists s3. split; [done|]. eapply waited_trans; [|exact U]. unfold waited. rewrite V1, V2, V3, V4. done.
Qed.

Lemma busy_loop_run bs : forall n d s x v w rest, channels s !! d.1 = Some x -> off s = false -> answers (port s) = bs ++ v :: w :: rest ->
  Forall (fun v => bits v STA_BSY = true) bs -> bits v STA_BSY = false -> (2300 + length bs < n)%nat -> (n <= 3000)%nat ->
  exists s', busy_loop n d s = Ok (bits w STA_DRQ, s') /\ waited s s' rest.
Proof.
  induction bs as [|y bs IH]; intros n d s x v w rest Hx Ho Ha Hb Hv Hn Hn2; (destruct n as [|n]; [lia|]); cbn [busy_loop];
    rewrite (proj2 (Z.eqb_neq (2999 - Z.of_nat n) 700)) by (cbn [length] in Hn; lia); mnorm; mstep (chan_run s d.1 x Hx).
  - destruct (inb_run s (reg_alt_status x) v (w :: rest) Ha) as (s1 & E & W). mstep E. rewrite Hv. cbn [negb]. rewrite (proj2 (Z.leb_gt 700 _)) by (cbn [length] in Hn; lia). mnorm.
    destruct (inb_run s1 (reg_alt_status x) w rest) as (s2 & E2 & W2); [apply W|]. mstep E2. exists s2. split; [done|]. by eapply waited_trans.
  - apply Forall_cons in Hb as [Hy Hb]. destruct (inb_run s (reg_alt_status x) y (bs ++ v :: w :: rest) Ha) as (s1 & E & W). mstep E. rewrite Hy. cbn [negb].
    destruct W as (W1 & W2 & W3 & W4 & W5). destruct (sleep_run s1 (10 * 1000000) ltac:(congruence)) as (s2 & E2 & V1 & V2 & V3 & V4 & V5). mstep E2.
    destruct (IH n d s2 x v w rest) as (s3 & E3 & U); [congruence..|done|done|cbn [length] in Hn; lia|lia|]. exists s3. split; [done|]. eapply waited_trans; [|exact U]. unfold waited. rewrite V1, V2, V3, V4. done.
Qed.

(** The answers of a device that is idle in the end, twice. *)
Definition idle_answers (bs1 : list Z) (v1 a : Z) (bs2 : list Z) (v2 : Z) (rest : list Z) : list Z := bs1 ++ v1 :: a :: bs2 ++ v2 :: rest.
Definition becomes_idle (bs : list Z) (v : Z) : Prop :=
  Forall (fun v => bits v (Z.lor STA_BSY STA_DRQ) = true) bs /\ bits v (Z.lor STA_BSY STA_DRQ) = false /\ (length bs < 1000)%nat.

Lemma select_sector_run s c i x y sec_no bs1 v1 a bs2 v2 rest : channels s !! c = Some x -> devices x !! i = Some y -> off s = false -> sec_no < capacity y -> sec_no < 2 ^ 28 ->
  answers (port s) = idle_answers bs1 v1 a bs2 v2 rest -> becomes_idle bs1 v1 -> becomes_idle bs2 v2 ->
  exists s', select_sector (c, i) sec_no s = Ok (tt, s') /\ waited s s' rest.
Proof.
  intros Hx Hy Ho Hc H28 Ha (P1 & P2 & P3) (Q1 & Q2 & Q3). unfold select_sector. mstep (chan_run s (c, i).1 x Hx). mstep (dev_run s c i x y Hx Hy).
  rewrite (proj2 (Z.ltb_lt _ _) Hc), (proj2 (Z.ltb_lt _ _) H28). mnorm. unfold select_device_wait. mnorm.
  destruct (idle_loop_run bs1 1000 (c, i) s x v1 (a :: bs2 ++ v2 :: rest) Hx Ho Ha P1 P2 P3) as (s1 & E1 & W1). unfold wait_until_idle. mstep E1.
  destruct W1 as (A1 & A2 & A3 & A4 & A5). unfold select_device. mnorm. rewrite <- A1 in Hx. mstep (chan_run s1 (c, i).1 x Hx). mstep (dev_run s1 c i x y Hx Hy).
  destruct (outb_run s1 (reg_device x) (if dev_no y =? 1 then Z.lor DEV_MBS DEV_DEV else DEV_MBS)) as (s2 & E2 & W2). mstep E2. rewrite A5 in W2.
  destruct (inb_run s2 (reg_alt_status x) a (bs2 ++ v2 :: rest)) as (s3 & E3 & W3); [apply W2|]. mstep E3. pose proof (waited_trans _ _ _ _ _ W2 W3) as W23.
  destruct W23 as (B1 & B2 & B3 & B4 & B5). destruct (sleep_run s3 400 ltac:(congruence)) as (s4 & E4 & D1 & D2 & D3 & D4 & D5). mstep E4.
  destruct (idle_loop_run bs2 1000 (c, i) s4 x v2 rest) as (s5 & E5 & W5); [cbn [fst]; congruence|congruence|congruence|done|done|done|]. mstep E5.
  unfold on_port, outb, modify, bind. cbn. eexists. split; [reflexivity|]. destruct W5 as (G1 & G2 & G3 & G4 & G5). unfold waited. cbn. split; [congruence|]. split; [congruence|]. split; [congruence|]. split; [congruence|done].
Qed.

(** The handler finds the channel. *)
Lemma handler_run s c x v rest : channels s !! c = Some x -> (forall j y, (j < c)%nat -> channels s !! j = Some y -> irq y <> irq x) -> expecting_interrupt x = true ->
  answers (port s) = v :: rest -> exists s', interrupt_handler (irq x) s = Ok (tt, s') /\ channels s' = <[c := set_completion (u32 (completion_wait x + 1)) x]> (channels s) /\
    pending s' = pending s /\ off s' = off s /\ cur s' = cur s /\ answers (port s') = rest.
Proof.
  intros Hx Hd He Ha. unfold interrupt_handler. mnorm.
  assert (forall k l, channels s = take k (channels s) ++ l -> length (take k (channels s)) = k -> (k <= c)%nat -> exists s', handler_loop l k (irq x) s = Ok (tt, s') /\
    channels s' = <[c := set_completion (u32 (completion_wait x + 1)) x]> (channels s) /\ pending s' = pending s /\ off s' = off s /\ cur s' = cur s /\ answers (port s') = rest) as Hg.
  2: { apply (Hg 0%nat (channels s)); [done|done|lia]. }
  intros k l. revert k. induction l as [|y l IH]; intros k Hl Hk Hc.
  { rewrite app_nil_r in Hl. apply lookup_lt_Some in Hx. rewrite Hl, Hk in Hx. lia. }
  assert (channels s !! k = Some y) as Hy by (rewrite Hl, lookup_app_r, Hk, Nat.sub_diag by lia; done). cbn [handler_loop]. destruct (decide (k = c)) as [->|Hne].
  - rewrite Hx in Hy. injection Hy as <-. rewrite Z.eqb_refl, He. destruct (inb_run s (reg_status x) v rest Ha) as (s1 & E1 & W1 & W2 & W3 & W4 & W5). mstep E1.
    unfold set_chan. mnorm. rewrite <- W1 in Hx. mstep (chan_run s1 c x Hx). eexists. split; [reflexivity|]. cbn. rewrite W1. done.
  - rewrite (proj2 (Z.eqb_neq (irq x) (irq y))) by (intros E; apply (Hd k y); [lia|done|done]). apply (IH (S k)); [|rewrite length_take; pose proof (lookup_lt_Some _ _ _ Hy); lia|lia].
    rewrite (take_S_r _ _ y Hy), <- app_assoc. exact Hl.
Qed.

Lemma set_chan_run s c x f : channels s !! c = Some x -> set_chan c f s = Ok (tt, DState (<[c := f x]> (channels s)) (port s) (pending s) (off s) (cur s) (slept s) (out s) (vectors s)).
Proof. intros H. unfold set_chan. mnorm. by mstep (chan_run s c x H). Qed.

(** The channel of a disk that is ready for a request, with its interrupt on the
    way. *)
Record prompt (s : dstate) (c i : nat) (x : channel) (y : disk) (sec_no : Z) : Prop := {
  pr_chan : channels s !! c = Some x;
  pr_dev : devices x !! i = Some y;
  pr_free : lock x = None;
  pr_wait : completion_wait x = 0;
  pr_on : off s = false;
  pr_irq j z : (j < c)%nat -> channels s !! j = Some z -> irq z <> irq x;
  pr_next : exists l, pending s = irq x :: l;
  pr_range : sec_no < capacity y /\ sec_no < 2 ^ 28
}.

(** Channel [c] becomes [x'], and [rest] are the answers to come. *)
Record turns (s s' : dstate) (c : nat) (x' : channel) (p rest : list Z) : Prop := {
  tn_chan : channels s' = <[c := x']> (channels s);
  tn_pending : pending s' = p;
  tn_off : off s' = off s;
  tn_cur : cur s' = cur s;
  tn_answers : answers (port s') = rest
}.

Lemma turns_lookup s s' c x x' p rest : channels s !! c = Some x -> turns s s' c x' p rest -> channels s' !! c = Some x'.
Proof. intros Hx H. rewrite (tn_chan _ _ _ _ _ _ H). apply list_lookup_insert_eq. by eapply lookup_lt_Some. Qed.
Lemma turns_trans s1 s2 s3 c x2 x3 p2 p3 r2 r3 : turns s1 s2 c x2 p2 r2 -> turns s2 s3 c x3 p3 r3 -> turns s1 s3 c x3 p3 r3.
Proof. intros [A1 A2 A3 A4 A5] [B1 B2 B3 B4 B5]. split; [by rewrite B1, A1, list_insert_insert_eq|done|congruence|congruence|done]. Qed.
Lemma waited_turns s1 s2 s3 c x2 p2 r2 r3 : turns s1 s2 c x2 p2 r2 -> waited s2 s3 r3 -> turns s1 s3 c x2 p2 r3.
Proof. intros [A1 A2 A3 A4 A5] (B1 & B2 & B3 & B4 & B5). split; congruence. Qed.

Lemma set_chan_turns s c x f : channels s !! c = Some x -> exists s', set_chan c f s = Ok (tt, s') /\ turns s s' c (f x) (pending s) (answers (port s)).
Proof. intros H. rewrite (set_chan_run s c x f H). eexists. split; [reflexivity|]. done. Qed.

Lemma acquire_turns s c x : channels s !! c = Some x -> lock x = None -> exists s', lock_acquire c s = Ok (tt, s') /\ turns s s' c (set_lock (Some (cur s)) x) (pending s) (answers (port s)).
Proof. intros H Hl. unfold lock_acquire. mnorm. mstep (chan_run s c x H). rewrite Hl. by apply set_chan_turns. Qed.

Lemma release_turns s c x : channels s !! c = Some x -> lock x = Some (cur s) -> exists s', lock_release c s = Ok (tt, s') /\ turns s s' c (set_lock None x) (pending s) (answers (port s)).
Proof. intros H Hl. unfold lock_release. mnorm. mstep (chan_run s c x H). rewrite bool_decide_true by done. mnorm. by apply set_chan_turns. Qed.

Lemma issue_turns s c x v : channels s !! c = Some x -> off s = false -> exists s', issue_pio_command c v s = Ok (tt, s') /\ turns s s' c (set_expecting true x) (pending s) (answers (port s)).
Proof.
  intros H Ho. unfold issue_pio_command. mnorm. rewrite Ho. cbn [negb]. mnorm. destruct (set_chan_turns s c x (set_expecting true) H) as (s1 & E1 & T1). mstep E1.
  mstep (chan_run s1 c _ (turns_lookup _ _ _ _ _ _ _ H T1)). destruct (outb_run s1 (reg_command (set_expecting true x)) v) as (s2 & E2 & W2). exists s2. split; [done|].
  pose proof (waited_turns _ _ _ _ _ _ _ _ T1 W2) as T2. by rewrite (tn_answers _ _ _ _ _ _ T1) in T2.
Qed.

Lemma down_turns n s c x : channels s !! c = Some x -> 0 < completion_wait x -> exists s', down_loop n c s = Ok (tt, s') /\ turns s s' c (set_completion (completion_wait x - 1) x) (pending s) (answers (port s)).
Proof. intros H Hc. destruct n; cbn [down_loop]; mstep (chan_run s c x H); rewrite (proj2 (Z.ltb_lt _ _) Hc); by apply set_chan_turns. Qed.

(** Sleeping until the interrupt. *)
Lemma sema_turns s c x l ack rest : channels s !! c = Some x -> completion_wait x = 0 -> expecting_interrupt x = true -> pending s = irq x :: l -> answers (port s) = ack :: rest ->
  (forall j z, (j < c)%nat -> channels s !! j = Some z -> irq z <> irq x) -> exists s', sema_down c s = Ok (tt, s') /\ turns s s' c (set_completion 0 x) l rest.
Proof.
  intros H Hc He Hp Ha Hi. unfold sema_down. mnorm. rewrite Hp. cbn [length down_loop]. mstep (chan_run s c x H). rewrite Hc. cbn [Z.ltb Z.compare]. mnorm. rewrite Hp.
  set (s1 := DState (channels s) (port s) l (off s) (cur s) (slept s) (out s) (vectors s)). change (put s1) with (modify (fun _ : dstate => s1)). mnorm.
  destruct (handler_run s1 c x ack rest H Hi He Ha) as (s2 & E2 & V1 & V2 & V3 & V4 & V5). mstep E2. set (x2 := set_completion (u32 (completion_wait x + 1)) x) in *.
  assert (channels s2 !! c = Some x2) as X2 by (rewrite V1; apply list_lookup_insert_eq; exact (lookup_lt_Some _ _ _ H)).
  destruct (down_turns (length l) s2 c x2 X2) as (s3 & E3 & T3); [unfold x2; cbn; by rewrite Hc|]. exists s3. split; [done|]. destruct T3 as [T1 T2 T4 T5 T6].
  split; [rewrite T1, V1, list_insert_insert_eq; unfold x2; cbn; rewrite Hc; by destruct x|by rewrite T2, V2|by rewrite T4, V3|by rewrite T5, V4|by rewrite T6, V5].
Qed.

Lemma set_dev_turns s c i x y f : channels s !! c = Some x -> devices x !! i = Some y ->
  exists s', set_dev (c, i) f s = Ok (tt, s') /\ turns s s' c (Channel (cname x) (reg_base x) (irq x) (lock x) (expecting_interrupt x) (completion_wait x) (<[i := f y]> (devices x))) (pending s) (answers (port s)).
Proof. intros H Hy. unfold set_dev. mstep (dev_run s c i x y H Hy). by apply (set_chan_turns s c x (fun c => Channel (cname c) (reg_base c) (irq c) (lock c) (expecting_interrupt c) (completion_wait c) (<[i := f y]> (devices c)))). Qed.

Lemma input_run s c x ws rest : channels s !! c = Some x -> answers (port s) = ws ++ rest -> length ws = 256%nat -> exists s', input_sector c s = Ok (bytes_of ws, s') /\ waited s s' rest.
Proof.
  intros H Ha Hl. unfold input_sector. mstep (chan_run s c x H). assert (insw (reg_data x) (Z.to_nat (DISK_SECTOR_SIZE / 2)) (port s) = Ok (ws, IO rest (trace (port s) ++ (In (reg_data x) <$> ws)))) as E.
  { pose proof (insw_run (reg_data x) 256 ws rest (trace (port s)) Hl) as E. rewrite <- Ha in E. by destruct (port s). }
  assert (on_port (insw (reg_data x) (Z.to_nat (DISK_SECTOR_SIZE / 2))) s = Ok (ws, DState (channels s) (IO rest (trace (port s) ++ (In (reg_data x) <$> ws))) (pending s) (off s) (cur s) (slept s) (out s) (vectors s))) as E2 by (unfold on_port; by rewrite E).
  mstep E2. by eexists.
Qed.

Lemma disk_read_run s c i x y sec_no bs1 v1 a bs2 v2 ack bs3 v3 w ws rest : prompt s c i x y sec_no ->
  answers (port s) = idle_answers bs1 v1 a bs2 v2 (ack :: bs3 ++ v3 :: w :: ws ++ rest) -> becomes_idle bs1 v1 -> becomes_idle bs2 v2 ->
  Forall (fun v => bits v STA_BSY = true) bs3 -> bits v3 STA_BSY = false -> (length bs3 < 700)%nat -> bits w STA_DRQ = true -> length ws = 256%nat ->
  exists s', disk_read (Some (c, i)) sec_no s = Ok (bytes_of ws, s') /\ answers (port s') = rest.
Proof.
  intros [P1 P2 P3 P4 P5 P6 [pl P7] [P8 P9]] Ha I1 I2 B1 B2 B3 Hw Hws. cbn [disk_read fst].
  destruct (acquire_turns s c x P1 P3) as (s1 & E1 & T1). mstep E1. pose proof (turns_lookup _ _ _ _ _ _ _ P1 T1) as X1.
  destruct (select_sector_run s1 c i _ y sec_no bs1 v1 a bs2 v2 (ack :: bs3 ++ v3 :: w :: ws ++ rest) X1 P2) as (s2 & E2 & W2); [by rewrite (tn_off _ _ _ _ _ _ T1)|done|done|by rewrite (tn_answers _ _ _ _ _ _ T1)|done|done|].
  mstep E2. pose proof (waited_turns _ _ _ _ _ _ _ _ T1 W2) as T2. pose proof (turns_lookup _ _ _ _ _ _ _ P1 T2) as X2.
  destruct (issue_turns s2 c _ CMD_READ_SECTOR_RETRY X2) as (s3 & E3 & T3); [by rewrite (tn_off _ _ _ _ _ _ T2)|]. mstep E3. pose proof (turns_trans _ _ _ _ _ _ _ _ _ _ T2 T3) as T13. pose proof (turns_lookup _ _ _ _ _ _ _ P1 T13) as X3.
  destruct (sema_turns s3 c _ pl ack (bs3 ++ v3 :: w :: ws ++ rest) X3) as (s4 & E4 & T4); [done|done|by rewrite (tn_pending _ _ _ _ _ _ T13), (tn_pending _ _ _ _ _ _ T2)|by rewrite (tn_answers _ _ _ _ _ _ T13), (tn_answers _ _ _ _ _ _ T2)| |].
  { intros j z Hj Hz. rewrite (tn_chan _ _ _ _ _ _ T13), list_lookup_insert_ne in Hz by lia. by apply (P6 j z Hj). }
  mstep E4. pose proof (turns_trans _ _ _ _ _ _ _ _ _ _ T13 T4) as T14. pose proof (turns_lookup _ _ _ _ _ _ _ P1 T14) as X4.
  destruct (busy_loop_run bs3 3000 (c, i) s4 _ v3 w (ws ++ rest) X4) as (s5 & E5 & W5); [by rewrite (tn_off _ _ _ _ _ _ T14)|by rewrite (tn_answers _ _ _ _ _ _ T14)|done|done|lia|lia|].
  unfold wait_while_busy. mstep E5. rewrite Hw. mnorm. pose proof (waited_turns _ _ _ _ _ _ _ _ T14 W5) as T15. pose proof (turns_lookup _ _ _ _ _ _ _ P1 T15) as X5.
  destruct (input_run s5 c _ ws rest X5) as (s6 & E6 & W6); [apply (tn_answers _ _ _ _ _ _ T15)|done|]. mstep E6. pose proof (waited_turns _ _ _ _ _ _ _ _ T15 W6) as T16. pose proof (turns_lookup _ _ _ _ _ _ _ P1 T16) as X6.
  destruct (set_dev_turns s6 c i _ y count_read X6 P2) as (s7 & E7 & T7). mstep E7. pose proof (turns_trans _ _ _ _ _ _ _ _ _ _ T16 T7) as T17. pose proof (turns_lookup _ _ _ _ _ _ _ P1 T17) as X7.
  destruct (release_turns s7 c _ X7) as (s8 & E8 & T8); [cbn; by rewrite (tn_cur _ _ _ _ _ _ T17)|]. mstep E8. exists s8. split; [done|].
  by rewrite (tn_answers _ _ _ _ _ _ T8), (tn_answers _ _ _ _ _ _ T17), (tn_answers _ _ _ _ _ _ T16).
Qed.

(** Waiting for an idle controller takes at most 10 milliseconds, not the 10
    seconds that the comment gives. *)
Lemma idle_wait_bound n d s s' : idle_loop n d s = Ok (tt, s') -> slept s <= slept s' <= slept s + 10000 * Z.of_nat n.
Proof.
  revert s. induction n as [|n IH]; intros s E; cbn [idle_loop] in E.
  - apply bind_inv in E as (x & s1 & E1 & E). apply dev_inv in E1 as [-> _]. unfold printf in E. apply bind_inv in E as (t & s2 & E2 & E). unfold lift in E2.
    destruct (text_of _ _ _); [|done..]. injection E2 as <- <-. injection E as <-. cbn. lia.
  - apply bind_inv in E as (x & s1 & E1 & E). apply chan_inv in E1 as [-> _]. apply bind_inv in E as (v & s2 & E2 & E). unfold on_port, inb in E2. destruct (answers (port s)) as [|w l]; [done|]. injection E2 as <- <-.
    destruct (negb _); [injection E as <-; cbn; lia|]. apply bind_inv in E as (u & s3 & E3 & E). unfold timer_usleep, timer_nsleep in E3. rewrite bind_get in E3. cbn [off] in E3.
    apply bind_inv in E3 as (u1 & s4 & E4 & E3). unfold ASSERT in E4. destruct (negb (off s)); [|done]. injection E4 as <- <-. injection E3 as <- <-. apply IH in E. cbn [slept] in E. lia.
Qed.

(** ** Properties *)

(** C23: The disk driver asks the controller for exactly what was requested.  For
    every sequence of sector reads and writes on the devices of a channel that
    completes, and whatever the controller answers and whichever interrupts
    arrive, the port accesses mean to an ATA controller those reads and
    writes, each of one sector, of the right device and sector number, in
    order, with the bytes of the buffers.  So over a controller that gives
    back what it was sent the results are those of an array of sectors, which
    is what the file system is built on. *)
Theorem disk_requests_refine_array b c l s res s' : wired b c s -> Forall request_ok l -> serve c l s = Ok (res, s') ->
  exists t, trace (port s') = trace (port s) ++ t /\ forall r, exists new, ops (ata b r t) = new ++ ops r /\ omap op_transfer (rev new) = wanted l res /\
    forall m, honest m (omap op_transfer (rev new)) -> res = array m l.
Proof.
  intros Hw Hl E. destruct (serve_wanted b c l s res s' Hw Hl E) as (F & [_ _ _ (t & Ht & HF)] & Hnew). exists t. split; [done|]. intros r. rewrite HF.
  destruct (Hnew r) as (new & En & Ew). exists new. split; [done|]. split; [done|]. intros m Hm. rewrite Ew in Hm. eapply honest_array; [|done]. by eapply serve_length.
Qed.

(** A request completes.  When the controller is idle within a thousand polls,
    raises its interrupt, and shows data within 700 polls, [disk_read]
    returns the 256 words that it delivers, whatever else it answers. *)
Theorem disk_read_completes s c i x y sec_no bs1 v1 a bs2 v2 ack bs3 v3 w ws rest : prompt s c i x y sec_no ->
  answers (port s) = idle_answers bs1 v1 a bs2 v2 (ack :: bs3 ++ v3 :: w :: ws ++ rest) -> becomes_idle bs1 v1 -> becomes_idle bs2 v2 ->
  Forall (fun v => bits v STA_BSY = true) bs3 -> bits v3 STA_BSY = false -> (length bs3 < 700)%nat -> bits w STA_DRQ = true -> length ws = 256%nat ->
  exists s', disk_read (Some (c, i)) sec_no s = Ok (bytes_of ws, s') /\ answers (port s') = rest.
Proof. apply disk_read_run. Qed.

Definition demo_channel (base vec : Z) : channel := Channel [104; 100] base vec None false 0 [Disk [48] 0 true 100 0 0; Disk [49] 1 true 100 0 0].
Definition demo_dstate (a p : list Z) : dstate := DState [demo_channel 0x1f0 46; demo_channel 0x170 47] (IO a []) p false 1 0 [] [].

Lemma demo_wired a p : wired 0x170 1 (demo_dstate a p).
Proof. split; [by eexists|]. by repeat constructor. Qed.

(** A write and a read of sector 77 of the second device, with a spurious interrupt
    of the other channel, and a controller that answers with what was sent. *)
Definition demo_requests : list request := [Wr 1 77 (replicate 512 65); Rd 1 77].
Definition demo_answers : list Z := [0x80; 0; 0; 0] ++ [0; 8; 0] ++ [0; 0; 0; 0; 0x80; 0; 8] ++ replicate 256 (65 + 256 * 65).

Lemma disk_requests_refine_array_witness :
  match serve 1 demo_requests (demo_dstate demo_answers [46; 47; 47]) with
  | Ok (res, s') => exists t, trace (port s') = t /\ omap op_transfer (rev (ops (ata 0x170 (Regs 0 0 0 0 0 []) t))) = wanted demo_requests res /\ res = [replicate 512 65]
  | _ => False
  end.
Proof.
  assert (Forall request_ok demo_requests) as Hok.
  { apply Forall_cons_2; [split; [lia|apply Forall_replicate; lia]|]. apply Forall_cons_2; [cbn; lia|apply Forall_nil_2]. }
  destruct (serve 1 demo_requests (demo_dstate demo_answers [46; 47; 47])) as [[res s']| | | |] eqn:E; [|vm_compute in E; discriminate E..].
  destruct (disk_requests_refine_array 0x170 1 demo_requests _ res s' (demo_wired _ _) Hok E) as (t & Ht & Hops). exists t. split; [exact Ht|].
  destruct (Hops (Regs 0 0 0 0 0 [])) as (new & En & Ew & _). rewrite En. cbn [ops]. rewrite app_nil_r. split; [exact Ew|].
  vm_compute in E. injection E as <- _. reflexivity.
Defined.

Lemma disk_read_completes_witness : exists s', disk_read (Some (1%nat, 0%nat)) 99 (demo_dstate (idle_answers [0x80] 0 0 [] 0 (0 :: [0x80; 0x80] ++ 0 :: 8 :: replicate 256 513 ++ [7])) [47]) = Ok (bytes_of (replicate 256 513), s') /\ answers (port s') = [7].
Proof.
  apply (disk_read_completes _ 1 0 (demo_channel 0x170 47) (Disk [48] 0 true 100 0 0) 99 [0x80] 0 0 [] 0 0 [0x80; 0x80] 0 8 (replicate 256 513) [7]); try reflexivity.
  - split; try reflexivity; [|by eexists|cbn; lia]. intros [|j] z Hj Hz; [|lia]. injection Hz as <-. discriminate.
  - split; [by repeat constructor|]. split; [reflexivity|cbn; lia].
  - split; [constructor|]. split; [reflexivity|cbn; lia].
  - by repeat constructor.
  - cbn. lia.
Defined.
