(* ===== verification/Hash.v ===== *)
(** * Hash tables (lib/kernel/hash.c)

    A table is an array of [struct list] buckets in the heap of list elements
    of KList.v, and the code runs on that heap through the list operations.
    [struct hash] is the record [hash]; its function pointers and [aux] never
    change after [hash_init] and are the section variables [hash_fn] and
    [less].  [struct hash_elem] has one member, so the address of a hash element is the
    address of its list element.

    Memory for the buckets comes from the parameter [malloc], which looks at
    the heap and returns an address or [NULL]; [junk] is what the new memory
    holds.  What the table relies on is that a block is fresh memory; Malloc.v
    shows that the kernel's allocator provides this.

    [user] is the state that actions and destructors work on besides the
    heap. *)

From S2P Require Import Prelude Bitmap CString KList KListSort.

(** ** Hash functions for bytes, strings and integers *)

Definition FNV_64_PRIME : Z := 0x00000100000001B3.
Definition FNV_64_BASIS : Z := 0xcbf29ce484222325.

Fixpoint hash_bytes_loop (size : nat) (buf hash : Z) : M mem Z :=
  match size with
  | O => ret hash
  | S size => b ← CString.load buf; hash_bytes_loop size (buf + 1) (Z.lxor (u64 (hash * FNV_64_PRIME)) b)
  end.
Definition hash_bytes (buf size : Z) : M mem Z :=
  ASSERT (negb (buf =? NULL));; hash_bytes_loop (Z.to_nat size) buf FNV_64_BASIS.

Fixpoint hash_string_loop (fuel : nat) (s hash : Z) : M mem Z :=
  match fuel with
  | O => out_of_fuel
  | S fuel =>
      b ← CString.load s;
      if negb (b =? 0) then hash_string_loop fuel (s + 1) (Z.lxor (u64 (hash * FNV_64_PRIME)) b)
      else ret hash
  end.
Definition hash_string (fuel : nat) (s : Z) : M mem Z :=
  ASSERT (negb (s =? NULL));; hash_string_loop fuel s FNV_64_BASIS.

(** [hash_int]: [i] is stored at the address [slot] of the parameter on the
    stack. *)
Definition hash_int (slot i : Z) : M mem Z :=
  modify (fun m => write_bytes m slot (word_bytes 4 (u32 i)));; hash_bytes slot 4.

(** ** Tables *)

(** [struct hash]. *)
Record hash := Hash { elem_cnt : Z; bucket_cnt : Z; buckets : Z }.
(** [struct hash_iterator]. *)
Record hash_iterator := HashIterator { it_bucket : Z; it_elem : Z }.

(** [sizeof (struct list)]. *)
Definition LIST_SIZE : Z := 32.

Section Table.
Context {U : Type}.
Variable hash_fn : Z -> Z.
Variable less : Z -> Z -> bool.
Variable malloc : heap -> Z -> Z.
Variable junk : Z -> list_elem.

Record hst := HSt { hp : heap; tab : hash; user : U }.

Definition on_heap {A} (f : M heap A) : M hst A := fun s =>
  let! (a, h) := f (hp s) in Ok (a, HSt h (tab s) (user s)).
Definition set_tab (f : hash -> hash) : M hst unit := modify (fun s => HSt (hp s) (f (tab s)) (user s)).

(** The address of bucket [i] of an array at [b]. *)
Definition bucket_at (b i : Z) : Z := b + LIST_SIZE * i.

(** The list elements in the memory of an array of [n] lists. *)
Fixpoint bucket_cells (b : Z) (n : nat) : list Z :=
  match n with
  | O => []
  | S n => b :: b + TAIL_OFS :: bucket_cells (b + LIST_SIZE) n
  end.

(** [malloc (sizeof (struct list) * cnt)] and [free (buckets)]. *)
Definition malloc_buckets (cnt : Z) : M hst Z := fun s =>
  let p := malloc (hp s) (u64 (LIST_SIZE * cnt)) in
  if p =? NULL then Ok (NULL, s)
  else Ok (p, HSt (foldr (fun a h => <[a := junk a]> h) (hp s) (bucket_cells p (Z.to_nat cnt))) (tab s) (user s)).
Definition free_buckets (p cnt : Z) : M hst unit := modify (fun s =>
  HSt (foldr (fun a h => delete a h) (hp s) (bucket_cells p (Z.to_nat cnt))) (tab s) (user s)).

Definition find_bucket (e : Z) : M hst Z :=
  s ← get;
  let bucket_idx := Z.land (hash_fn e) (bucket_cnt (tab s) - 1) in
  ret (bucket_at (buckets (tab s)) bucket_idx).

Fixpoint find_elem_loop (fuel : nat) (i end_ e : Z) : M heap Z :=
  if i =? end_ then ret NULL
  else
    match fuel with
    | O => out_of_fuel
    | S fuel =>
        if negb (less i e) && negb (less e i) then ret i
        else i ← list_next i; find_elem_loop fuel i end_ e
    end.
Definition find_elem (bucket e : Z) : M hst Z := on_heap (
  h ← get; i ← list_begin bucket; end_ ← list_end bucket;
  find_elem_loop (fuel_of h) i end_ e).

Definition turn_off_least_1bit (x : Z) : Z := Z.land x (u64 (x - 1)).
Definition is_power_of_2 (x : Z) : bool := negb (x =? 0) && (turn_off_least_1bit x =? 0).

(** [while (!is_power_of_2 (n)) n = turn_off_least_1bit (n)]: every round
    clears a bit, so 64 rounds are enough. *)
Fixpoint round_to_power (fuel : nat) (n : Z) : result Z :=
  if is_power_of_2 n then Ok n
  else match fuel with
       | O => NoFuel
       | S fuel => round_to_power fuel (turn_off_least_1bit n)
       end.

(** [for (i = 0; i < cnt; i++) list_init (&buckets[i])]. *)
Fixpoint init_buckets (n : nat) (b : Z) : M heap unit :=
  match n with
  | O => ret tt
  | S n => list_init b;; init_buckets n (b + LIST_SIZE)
  end.

(** Moves the elements of one old bucket, from [elem] on. *)
Fixpoint move_elems (fuel : nat) (elem end_ : Z) : M hst unit :=
  if elem =? end_ then ret tt
  else
    match fuel with
    | O => out_of_fuel
    | S fuel =>
        new_bucket ← find_bucket elem;
        next ← on_heap (list_next elem);
        on_heap (list_remove elem);;
        on_heap (list_push_front new_bucket elem);;
        move_elems fuel next end_
    end.
Fixpoint move_buckets (n : nat) (old_bucket : Z) : M hst unit :=
  match n with
  | O => ret tt
  | S n =>
      s ← get;
      elem ← on_heap (list_begin old_bucket); end_ ← on_heap (list_end old_bucket);
      move_elems (fuel_of (hp s)) elem end_;;
      move_buckets n (old_bucket + LIST_SIZE)
  end.

Definition rehash : M hst unit :=
  s ← get;
  let old_buckets := buckets (tab s) in
  let old_bucket_cnt := bucket_cnt (tab s) in
  let n := elem_cnt (tab s) / 2 in
  let n := if n <? 4 then 4 else n in
  new_bucket_cnt ← lift (round_to_power 64 n);
  if new_bucket_cnt =? old_bucket_cnt then ret tt
  else
    new_buckets ← malloc_buckets new_bucket_cnt;
    if new_buckets =? NULL then ret tt
    else
      on_heap (init_buckets (Z.to_nat new_bucket_cnt) new_buckets);;
      set_tab (fun t => Hash (elem_cnt t) new_bucket_cnt new_buckets);;
      move_buckets (Z.to_nat old_bucket_cnt) old_buckets;;
      free_buckets old_buckets old_bucket_cnt.

Definition insert_elem (bucket e : Z) : M hst unit :=
  set_tab (fun t => Hash (u64 (elem_cnt t + 1)) (bucket_cnt t) (buckets t));;
  on_heap (list_push_front bucket e).
Definition remove_elem (e : Z) : M hst unit :=
  set_tab (fun t => Hash (u64 (elem_cnt t - 1)) (bucket_cnt t) (buckets t));;
  on_heap (list_remove e);; ret tt.

(** ** Operations *)

(** [while (!list_empty (bucket)) destructor (list_pop_front (bucket), aux)]. *)
Fixpoint destroy_elems (fuel : nat) (destructor : Z -> M hst unit) (bucket : Z) : M hst unit :=
  b ← on_heap (list_empty bucket);
  if b then ret tt
  else
    match fuel with
    | O => out_of_fuel
    | S fuel =>
        e ← on_heap (list_pop_front bucket);
        destructor e;;
        destroy_elems fuel destructor bucket
    end.
Fixpoint clear_buckets (n : nat) (destructor : option (Z -> M hst unit)) (bucket : Z) : M hst unit :=
  match n with
  | O => ret tt
  | S n =>
      s ← get;
      (match destructor with
       | Some d => destroy_elems (fuel_of (hp s)) d bucket
       | None => ret tt
       end);;
      on_heap (list_init bucket);;
      clear_buckets n destructor (bucket + LIST_SIZE)
  end.
Definition hash_clear (destructor : option (Z -> M hst unit)) : M hst unit :=
  s ← get;
  clear_buckets (Z.to_nat (bucket_cnt (tab s))) destructor (buckets (tab s));;
  set_tab (fun t => Hash 0 (bucket_cnt t) (buckets t)).

Definition hash_init : M hst bool :=
  p ← malloc_buckets 4;
  set_tab (fun _ => Hash 0 4 p);;
  if negb (p =? NULL) then hash_clear None;; ret true else ret false.

Definition hash_destroy (destructor : option (Z -> M hst unit)) : M hst unit :=
  (match destructor with Some _ => hash_clear destructor | None => ret tt end);;
  s ← get;
  free_buckets (buckets (tab s)) (bucket_cnt (tab s)).

Definition hash_insert (new : Z) : M hst Z :=
  bucket ← find_bucket new;
  old ← find_elem bucket new;
  (if old =? NULL then insert_elem bucket new else ret tt);;
  rehash;; ret old.

Definition hash_replace (new : Z) : M hst Z :=
  bucket ← find_bucket new;
  old ← find_elem bucket new;
  (if negb (old =? NULL) then remove_elem old else ret tt);;
  insert_elem bucket new;;
  rehash;; ret old.

Definition hash_find (e : Z) : M hst Z := bucket ← find_bucket e; find_elem bucket e.

Definition hash_delete (e : Z) : M hst Z :=
  bucket ← find_bucket e;
  found ← find_elem bucket e;
  (if negb (found =? NULL) then remove_elem found;; rehash else ret tt);;
  ret found.

Fixpoint apply_elems (fuel : nat) (action : Z -> M hst unit) (elem end_ : Z) : M hst unit :=
  if elem =? end_ then ret tt
  else
    match fuel with
    | O => out_of_fuel
    | S fuel => next ← on_heap (list_next elem); action elem;; apply_elems fuel action next end_
    end.
Fixpoint apply_buckets (n : nat) (action : Z -> M hst unit) (bucket : Z) : M hst unit :=
  match n with
  | O => ret tt
  | S n =>
      s ← get;
      elem ← on_heap (list_begin bucket); end_ ← on_heap (list_end bucket);
      apply_elems (fuel_of (hp s)) action elem end_;;
      apply_buckets n action (bucket + LIST_SIZE)
  end.
Definition hash_apply (action : Z -> M hst unit) : M hst unit :=
  s ← get; apply_buckets (Z.to_nat (bucket_cnt (tab s))) action (buckets (tab s)).

Definition hash_first : M hst hash_iterator :=
  s ← get;
  let b := buckets (tab s) in
  e ← on_heap (list_head b); ret (HashIterator b e).

(** The loop of [hash_next]: at most one round per bucket. *)
Fixpoint next_loop (fuel : nat) (i : hash_iterator) : M hst hash_iterator :=
  end_ ← on_heap (list_end (it_bucket i));
  if it_elem i =? end_ then
    match fuel with
    | O => out_of_fuel
    | S fuel =>
        s ← get;
        let b := it_bucket i + LIST_SIZE in
        if buckets (tab s) + LIST_SIZE * bucket_cnt (tab s) <=? b then ret (HashIterator b NULL)
        else e ← on_heap (list_begin b); next_loop fuel (HashIterator b e)
    end
  else ret i.
Definition hash_next (i : hash_iterator) : M hst (Z * hash_iterator) :=
  e ← on_heap (list_next (it_elem i));
  s ← get;
  i ← next_loop (Z.to_nat (bucket_cnt (tab s))) (HashIterator (it_bucket i) e);
  ret (it_elem i, i).
Definition hash_cur (i : hash_iterator) : Z := it_elem i.

(** The iteration idiom in the comment of [hash_first]: the elements in the
    order in which [hash_next] returns them. *)
Fixpoint iterate (fuel : nat) (i : hash_iterator) : M hst (list Z) :=
  match fuel with
  | O => out_of_fuel
  | S fuel =>
      x ← hash_next i;
      if x.1 =? NULL then ret []
      else rest ← iterate fuel x.2; ret (hash_cur x.2 :: rest)
  end.

Definition hash_size : M hst Z := s ← get; ret (elem_cnt (tab s)).
Definition hash_empty : M hst bool := s ← get; ret (elem_cnt (tab s) =? 0).
End Table.
