(* ===== verification/HashSpec.v ===== *)
(** * Hash tables: correctness

    The buckets of a table are a family of lists that share one heap; the
    first part of the file lifts the specifications of list.c to families.
    [hash_ok] is the representation invariant of a table: it relates the
    buckets in the heap to the set of elements [X].  The operations of hash.c
    refine the operations on that set, through every rehash, whether memory for
    the new buckets is available or not. *)

From S2P Require Import Prelude Bitmap CString KList KListSort KListSpec Hash.

(** ** Families of lists in one heap *)

Record Lists (h : heap) (F : gmap Z (list Z)) : Prop := {
  ls_list l xs : F !! l = Some xs -> is_list h l xs;
  ls_disj l l' xs xs' x :
    F !! l = Some xs -> F !! l' = Some xs' -> x ∈ cells l xs -> x ∈ cells l' xs' -> l = l'
}.

Definition outside (F : gmap Z (list Z)) (x : Z) : Prop := forall l xs, F !! l = Some xs -> x ∉ cells l xs.

Lemma elem_cells x l xs : x ∈ cells l xs <-> x = l \/ x ∈ xs \/ x = l + TAIL_OFS.
Proof. unfold cells. set_solver. Qed.

Lemma Lists_subseteq h F F' : F' ⊆ F -> Lists h F -> Lists h F'.
Proof.
  intros Hs [H1 H2]. split.
  - intros l xs H. apply H1. by eapply lookup_weaken.
  - intros l l' xs xs' x Hl Hl'. apply (H2 l l' xs xs'); by eapply lookup_weaken.
Qed.

Lemma Lists_heap h h' F : (forall l xs x, F !! l = Some xs -> x ∈ cells l xs -> h' !! x = h !! x) -> Lists h F -> Lists h' F.
Proof.
  intros Hh [H1 H2]. split; [|done]. intros l xs H. eapply dll_frame; [|by apply H1].
  intros x Hx. by eapply Hh.
Qed.

Lemma Lists_dom h F l xs x : Lists h F -> F !! l = Some xs -> x ∈ cells l xs -> is_Some (h !! x).
Proof. intros [H1 _] H Hx. destruct (H1 _ _ H) as [Hs _]. by eapply seg_elem_of. Qed.

(** One list of the family changes; it may take the cells [new]. *)
Lemma Lists_update h h' F l ys new :
  Lists h F -> is_list h' l ys -> agree_off (new ++ from_option (cells l) [] (F !! l)) h h' ->
  (forall x, x ∈ new -> outside F x) ->
  (forall x, x ∈ cells l ys -> x ∈ new \/ x ∈ from_option (cells l) [] (F !! l)) ->
  Lists h' (<[l := ys]> F).
Proof.
  intros [H1 H2] Hl Ha Hn Hc.
  assert (forall l' xs' x, l <> l' -> F !! l' = Some xs' -> x ∈ cells l' xs' ->
    x ∉ new ++ from_option (cells l) [] (F !! l)) as Hfar.
  { intros l' xs' x Hne H' Hx [Hx'|Hx']%elem_of_app; [by apply (Hn x Hx' l' xs')|].
    destruct (F !! l) as [xs|] eqn:El; cbn in Hx'; [|by apply elem_of_nil in Hx'].
    by eapply Hne, (H2 l l'). }
  split.
  - intros l' xs' [[<- <-]|[Hne H']]%lookup_insert_Some; [done|].
    eapply is_list_frame; [exact Ha| |by apply H1]. intros x Hx. by eapply Hfar.
  - intros l1 l2 xs1 xs2 x [[<- <-]|[N1 E1]]%lookup_insert_Some [[<- <-]|[N2 E2]]%lookup_insert_Some X1 X2; [done| | |by eapply H2].
    + exfalso. apply (Hfar l2 xs2 x N2 E2 X2). apply elem_of_app. by apply Hc.
    + exfalso. apply (Hfar l1 xs1 x N1 E1 X1). apply elem_of_app. by apply Hc.
Qed.

Lemma Lists_push h F l xs e :
  Lists h F -> F !! l = Some xs -> outside F e -> e <> NULL -> is_Some (h !! e) ->
  exists h', list_push_front l e h = Ok (tt, h') /\ Lists h' (<[l := e :: xs]> F) /\ dom h' = dom h.
Proof.
  intros HL Hl He H0 Hd. destruct (list_push_front_spec h l xs e (ls_list _ _ HL _ _ Hl)) as (h' & E & Hl' & Ha).
  { split; [by apply (He l xs)|done]. }
  exists h'. split_and!; [done| |apply Ha]. apply (Lists_update h h' F l _ [e]); try done; rewrite ?Hl; cbn [from_option].
  - done.
  - by intros x ->%list_elem_of_singleton.
  - intros x. rewrite !elem_cells. set_solver.
Qed.

Lemma Lists_remove h F l xs e ys :
  Lists h F -> F !! l = Some (xs ++ e :: ys) ->
  exists h', list_remove e h = Ok (first ys (l + TAIL_OFS), h') /\ Lists h' (<[l := xs ++ ys]> F) /\ dom h' = dom h /\
    outside (<[l := xs ++ ys]> F) e.
Proof.
  intros HL Hl. pose proof (ls_list _ _ HL _ _ Hl) as Hil.
  destruct (list_remove_spec h l xs e ys Hil) as (h' & E & Hl' & Ha).
  exists h'. split_and!; [done| |apply Ha|].
  - apply (Lists_update h h' F l _ []); try done; rewrite ?Hl; cbn [from_option app].
    + eapply agree_off_mono; [|exact Ha]. unfold cells. set_solver.
    + by intros x ?%elem_of_nil.
    + intros x. rewrite !elem_cells. set_solver.
  - intros l' xs' [[<- <-]|[Hne H']]%lookup_insert_Some.
    + destruct Hil as (_ & Hnd & _). rewrite <- app_assoc in Hnd. cbn in Hnd. rewrite elem_cells.
      rewrite NoDup_cons in Hnd. destruct Hnd as [Hn1 Hn2]. apply NoDup_app in Hn2 as (_ & Hn3 & Hn4).
      apply NoDup_cons in Hn4 as [Hn4 _]. set_solver.
    + intros Hx. apply Hne. apply (ls_disj _ _ HL l l' _ xs' e Hl H'); [|done]. apply elem_cells. set_solver.
Qed.

Lemma Lists_init h F l :
  Lists h F -> l <> NULL -> l + TAIL_OFS <> NULL -> is_Some (h !! l) -> is_Some (h !! (l + TAIL_OFS)) ->
  (F !! l = None -> outside F l /\ outside F (l + TAIL_OFS)) ->
  exists h', list_init l h = Ok (tt, h') /\ Lists h' (<[l := []]> F) /\ dom h' = dom h.
Proof.
  intros HL H0 H1 Hd1 Hd2 Ho. destruct (list_init_spec h l H0 H1 Hd1 Hd2) as (h' & E & Hl' & Ha).
  exists h'. split_and!; [done| |apply Ha]. destruct (F !! l) as [xs|] eqn:El.
  - apply (Lists_update h h' F l _ []); try done; rewrite ?El; cbn [from_option app].
    + eapply agree_off_mono; [|exact Ha]. unfold cells. set_solver.
    + by intros x ?%elem_of_nil.
    + intros x. rewrite !elem_cells. set_solver.
  - destruct (Ho eq_refl). apply (Lists_update h h' F l _ [l; l + TAIL_OFS]); try done; rewrite ?El; cbn [from_option app].
    + done.
    + set_solver.
    + intros x. rewrite !elem_cells. set_solver.
Qed.

(** ** Numbers of buckets *)

Lemma land_le_l a b : 0 <= a -> 0 <= b -> Z.land a b <= a.
Proof.
  intros Ha Hb. rewrite <- (Z2N.id a), <- (Z2N.id b) by done. rewrite <- N2Z.inj_land. apply N2Z.inj_le, N.land_le_l.
Qed.

(** Clearing the lowest bit that is set makes the number divisible by a
    higher power of two ... *)
Lemma clear_bit_divides x j :
  0 <= j -> 0 < x -> x mod 2 ^ j = 0 -> Z.land x (x - 1) mod 2 ^ (j + 1) = 0.
Proof.
  intros Hj Hx Hm. set (y := Z.land x (x - 1)).
  assert (0 <= y) as Hy by (apply Z.land_nonneg; lia).
  rewrite <- Z.land_ones by lia. apply Z.bits_inj'. intros i Hi. rewrite Z.land_spec, Z.bits_0.
  destruct (Z.lt_ge_cases i (j + 1)); [|rewrite Z.ones_spec_high by lia; by rewrite andb_false_r].
  unfold y. rewrite Z.land_spec. destruct (Z.eq_dec i j) as [->|].
  - pose proof (Z.div_mod x (2 ^ j) ltac:(lia)) as Hdm. set (q := x / 2 ^ j) in *.
    destruct (Z.testbit x j) eqn:Ex; [|done]. cbn.
    assert (Z.odd q = true) as Hodd.
    { rewrite <- Ex. replace x with (q * 2 ^ j) by lia. rewrite Z.mul_pow2_bits by lia. by rewrite Z.sub_diag, Z.bit0_odd. }
    replace (Z.testbit (x - 1) j) with false; [done|]. symmetry.
    pose proof (Z.pow_pos_nonneg 2 j ltac:(lia) ltac:(lia)).
    replace (Z.testbit (x - 1) j) with (Z.odd ((x - 1) / 2 ^ j)).
    + replace ((x - 1) / 2 ^ j) with (q - 1); [rewrite Z.sub_1_r, Z.odd_pred, <- Z.negb_odd, Hodd; done|].
      apply (Z.div_unique _ _ _ (2 ^ j - 1)); lia.
    + rewrite <- Z.shiftr_div_pow2, <- Z.bit0_odd, Z.shiftr_spec by lia. by rewrite Z.add_0_l.
  - replace (Z.testbit x i) with false; [done|]. symmetry.
    assert (x = x / 2 ^ j * 2 ^ j) as -> by (pose proof (Z.div_mod x (2 ^ j) ltac:(lia)); lia).
    rewrite Z.mul_pow2_bits by lia. apply Z.testbit_neg_r. lia.
Qed.

(** ... and keeps the highest one, unless it was the only one. *)
Lemma clear_bit_log2 x :
  0 < x -> Z.land x (x - 1) <> 0 -> x <> 2 ^ Z.log2 x /\ 0 < Z.land x (x - 1) /\ Z.log2 (Z.land x (x - 1)) = Z.log2 x.
Proof.
  intros Hx Hne. pose proof (Z.log2_spec x Hx) as Hl. set (k := Z.log2 x) in *. pose proof (Z.log2_nonneg x). fold k in H.
  assert (x <> 2 ^ k) as Hp.
  { intros E. apply Hne. rewrite E. rewrite land_ones_mod by lia. apply Z.mod_same. lia. }
  assert (0 <= Z.land x (x - 1)) by (apply Z.land_nonneg; lia). split_and!; [done|lia|].
  apply Z.log2_unique; [lia|].
  assert (Z.land x (x - 1) <= x) by (apply land_le_l; lia). split; [|lia].
  assert (Z.testbit (Z.land x (x - 1)) k = true) as Hb.
  { rewrite Z.land_spec. unfold k at 1. rewrite Z.bit_log2 by done. cbn.
    assert (Z.log2 (x - 1) = k) as <- by (apply Z.log2_unique; lia). apply Z.bit_log2. lia. }
  destruct (Z.lt_ge_cases (Z.land x (x - 1)) (2 ^ k)) as [Hlt|]; [|done].
  destruct (decide (Z.land x (x - 1) = 0)); [lia|].
  rewrite Z.bits_above_log2 in Hb; [done|lia|]. apply Z.log2_lt_pow2; lia.
Qed.

(** The loop in [rehash] ends, with the highest power of two. *)
Lemma round_to_power_spec fuel j n :
  0 < n < 2 ^ 64 -> 0 <= j <= 64 -> n mod 2 ^ j = 0 -> (64 - j <= Z.of_nat fuel) ->
  round_to_power fuel n = Ok (2 ^ Z.log2 n).
Proof.
  revert j n. induction fuel as [|fuel IH]; intros j n Hn Hj Hd Hf; cbn [round_to_power];
    unfold is_power_of_2, turn_off_least_1bit; rewrite (wrapu_id 64 (n - 1)) by (unfold is_u; lia);
    destruct (Z.eqb_spec n 0); [lia| |lia|]; cbn [negb andb].
  - assert (j = 64) as -> by lia. rewrite Z.mod_small in Hd; lia.
  - destruct (Z.eqb_spec (Z.land n (n - 1)) 0) as [E|E].
    + f_equal. destruct (decide (n = 2 ^ Z.log2 n)) as [|Hp]; [done|]. exfalso.
      pose proof (Z.log2_spec n ltac:(lia)) as Hl. set (k := Z.log2 n) in *. pose proof (Z.log2_nonneg n). fold k in H.
      assert (Z.testbit (Z.land n (n - 1)) k = true) as Hb; [|by rewrite E, Z.bits_0 in Hb].
      rewrite Z.land_spec. unfold k at 1. rewrite Z.bit_log2 by lia. cbn.
      assert (Z.log2 (n - 1) = k) as <- by (apply Z.log2_unique; lia). apply Z.bit_log2. lia.
    + destruct (clear_bit_log2 n ltac:(lia) E) as (_ & Hp & Hl). rewrite <- Hl.
      assert (j < 64) by (destruct (decide (j = 64)) as [->|]; [rewrite Z.mod_small in Hd; lia|lia]).
      assert (Z.land n (n - 1) <= n) by (apply land_le_l; lia).
      apply (IH (j + 1)); [lia|lia|by apply clear_bit_divides; lia|lia].
Qed.

(** ** Arrays of buckets *)

Definition bucket (F : gmap Z (list Z)) (l : Z) : list Z := default [] (F !! l).

(** The elements of [n] buckets from [b] on, in the order of the array. *)
Fixpoint elems (F : gmap Z (list Z)) (b : Z) (n : nat) : list Z :=
  match n with
  | O => []
  | S n => bucket F b ++ elems F (b + LIST_SIZE) n
  end.

(** [l] is one of [n] buckets from [b] on. *)
Definition header (b n l : Z) : Prop := exists i, 0 <= i < n /\ l = bucket_at b i.

#[export] Instance header_dec b n l : Decision (header b n l).
Proof.
  refine (cast_if (decide ((l - b) mod LIST_SIZE = 0 /\ 0 <= (l - b) / LIST_SIZE < n))); unfold header, bucket_at, LIST_SIZE in *.
  - abstract (exists ((l - b) / 32); pose proof (Z.div_mod (l - b) 32 ltac:(lia)); lia).
  - abstract (intros (i & Hi & ->); apply n0; replace (b + 32 * i - b) with (i * 32) by lia;
      rewrite Z.mod_mul, Z.div_mul by lia; lia).
Defined.

Lemma header_S b n l : 0 <= n -> header b (n + 1) l <-> l = b \/ header (b + LIST_SIZE) n l.
Proof.
  intros Hn. unfold header, bucket_at, LIST_SIZE. split.
  - intros (i & Hi & ->). destruct (decide (i = 0)) as [->|]; [left; lia|]. right. exists (i - 1). lia.
  - intros [->|(i & Hi & ->)]; [exists 0; lia|]. exists (i + 1). lia.
Qed.

Lemma header_nat_S b n l : header b (Z.of_nat (S n)) l <-> l = b \/ header (b + LIST_SIZE) (Z.of_nat n) l.
Proof. rewrite Nat2Z.inj_succ. apply header_S. lia. Qed.

Lemma header_not b n : ~ header (b + LIST_SIZE) n b.
Proof. unfold header, bucket_at, LIST_SIZE. intros (i & Hi & E). lia. Qed.

Lemma elem_bucket_cells x b n :
  x ∈ bucket_cells b n <-> exists l, header b (Z.of_nat n) l /\ (x = l \/ x = l + TAIL_OFS).
Proof.
  revert b. induction n as [|n IH]; intros b; cbn [bucket_cells].
  - rewrite elem_of_nil. split; [done|]. intros (l & (i & Hi & _) & _). lia.
  - rewrite !elem_of_cons, IH. setoid_rewrite header_nat_S. naive_solver.
Qed.

Lemma elem_elems x F b n : x ∈ elems F b n <-> exists l, header b (Z.of_nat n) l /\ x ∈ bucket F l.
Proof.
  revert b. induction n as [|n IH]; intros b; cbn [elems].
  - rewrite elem_of_nil. split; [done|]. intros (l & (i & Hi & _) & _). lia.
  - rewrite elem_of_app, IH. setoid_rewrite header_nat_S. naive_solver.
Qed.

Lemma elems_ext F F' b n : (forall l, header b (Z.of_nat n) l -> F' !! l = F !! l) -> elems F' b n = elems F b n.
Proof.
  revert b. induction n as [|n IH]; intros b H; cbn [elems]; [done|]. unfold bucket. rewrite (H b) by (apply header_nat_S; by left).
  f_equal. apply IH. intros l Hl. apply H. apply header_nat_S. by right.
Qed.

(** One bucket changes. *)
Lemma elems_update F b n l ys :
  header b (Z.of_nat n) l -> exists P Q, elems F b n = P ++ bucket F l ++ Q /\ elems (<[l := ys]> F) b n = P ++ ys ++ Q.
Proof.
  revert b. induction n as [|n IH]; intros b Hl; [destruct Hl as (i & Hi & _); lia|]. cbn [elems].
  apply header_nat_S in Hl as [->|Hl].
  - exists [], (elems F (b + LIST_SIZE) n). split; [done|]. unfold bucket at 1. rewrite lookup_insert_eq. cbn [default app]. f_equal.
    apply elems_ext. intros l Hl. rewrite lookup_insert_ne; [done|]. intros ->. by apply header_not in Hl.
  - destruct (IH _ Hl) as (P & Q & E1 & E2). exists (bucket F b ++ P), Q. rewrite E1, E2, <- !app_assoc. split; [done|].
    unfold bucket at 1. rewrite lookup_insert_ne; [done|]. intros ->. by apply header_not in Hl.
Qed.

(** ** Filling a new array *)

Fixpoint add_empty (F : gmap Z (list Z)) (b : Z) (n : nat) : gmap Z (list Z) :=
  match n with O => F | S n => add_empty (<[b := []]> F) (b + LIST_SIZE) n end.

Lemma add_empty_in F b n l : header b (Z.of_nat n) l -> add_empty F b n !! l = Some [].
Proof.
  revert F b. induction n as [|n IH]; intros F b Hl; [destruct Hl as (i & Hi & _); lia|]. cbn [add_empty].
  apply header_nat_S in Hl as [->|Hl]; [|by apply IH].
  assert (forall F b', (forall i, 0 <= i -> b <> bucket_at b' i) -> add_empty F b' n !! b = F !! b) as Hout.
  { clear. induction n as [|n IH]; intros F b' H; cbn [add_empty]; [done|]. rewrite IH.
    - rewrite lookup_insert_ne; [done|]. intros ->. apply (H 0); [lia|]. unfold bucket_at. lia.
    - intros i Hi E. apply (H (i + 1)); [lia|]. unfold bucket_at, LIST_SIZE in *. lia. }
  rewrite Hout; [apply lookup_insert_eq|]. intros i Hi. unfold bucket_at, LIST_SIZE. lia.
Qed.

Lemma add_empty_out F b n l : ~ header b (Z.of_nat n) l -> add_empty F b n !! l = F !! l.
Proof.
  revert F b. induction n as [|n IH]; intros F b Hl; cbn [add_empty]; [done|]. rewrite header_nat_S in Hl.
  rewrite IH by tauto. rewrite lookup_insert_ne; [done|]. intros ->. tauto.
Qed.

Lemma init_buckets_spec n b h F :
  Lists h F -> 0 < b ->
  (forall x, x ∈ bucket_cells b n -> is_Some (h !! x)) ->
  (forall l, header b (Z.of_nat n) l -> F !! l = None -> outside F l /\ outside F (l + TAIL_OFS)) ->
  exists h', init_buckets n b h = Ok (tt, h') /\ Lists h' (add_empty F b n) /\ dom h' = dom h.
Proof.
  revert b h F. induction n as [|n IH]; intros b h F HL Hb Hc Ho; cbn [init_buckets add_empty].
  { by exists h. }
  unfold NULL, LIST_SIZE, TAIL_OFS in *. cbn [bucket_cells] in Hc.
  destruct (Lists_init h F b) as (h1 & E & HL1 & Hd1); unfold NULL, TAIL_OFS; [done|lia|lia|apply Hc; set_solver..| |].
  { apply Ho. apply header_nat_S. by left. }
  mstep E. destruct (IH (b + 32) h1 (<[b := []]> F) HL1 ltac:(lia)) as (h2 & E2 & HL2 & Hd2).
  - intros x Hx. apply elem_of_dom. rewrite Hd1. apply elem_of_dom, Hc. set_solver.
  - intros l Hl Hn. destruct (decide (l = b)) as [->|Hne]; [by rewrite lookup_insert_eq in Hn|].
    rewrite lookup_insert_ne in Hn by done. pose proof Hl as (i & Hi & Ei). unfold bucket_at, LIST_SIZE in Ei.
    destruct (Ho l) as [O1 O2]; [apply header_nat_S; by right|done|].
    split; intros l' xs' [[<- <-]|[N E']]%lookup_insert_Some; [rewrite elem_cells|by eapply O1|rewrite elem_cells|by eapply O2];
      rewrite elem_of_nil; unfold TAIL_OFS; lia.
  - exists h2. split_and!; [done|done|by rewrite Hd2].
Qed.

(** Adding and removing the cells of an array. *)
Lemma lookup_add_cells (junk : Z -> list_elem) (ps : list Z) (h : heap) x :
  foldr (fun a h => <[a := junk a]> h) h ps !! x = if decide (x ∈ ps) then Some (junk x) else h !! x.
Proof.
  induction ps as [|p ps IH]; cbn [foldr]; [by rewrite decide_False by apply not_elem_of_nil|].
  destruct (decide (x = p)) as [->|]; [rewrite lookup_insert_eq, decide_True by set_solver; done|].
  rewrite lookup_insert_ne, IH by done. by repeat case_decide; set_solver.
Qed.

Lemma lookup_del_cells (ps : list Z) (h : heap) x :
  foldr (fun a h => delete a h) h ps !! x = if decide (x ∈ ps) then None else h !! x.
Proof.
  induction ps as [|p ps IH]; cbn [foldr]; [by rewrite decide_False by apply not_elem_of_nil|].
  destruct (decide (x = p)) as [->|]; [rewrite lookup_delete_eq, decide_True by set_solver; done|].
  rewrite lookup_delete_ne, IH by done. by repeat case_decide; set_solver.
Qed.

(** ** Tables *)

(** What a table relies on: its functions are a strict weak order and a hash
    that agrees on equal elements, and memory is fresh when it is allocated. *)
Class HashClient (hash_fn : Z -> Z) (less : Z -> Z -> bool) : Prop := {
  hc_less :: StrictWeak less;
  hc_hash a b : eqv less a b = true -> hash_fn a = hash_fn b
}.
Class Allocator (malloc : heap -> Z -> Z) : Prop := {
  malloc_fresh h size : malloc h size <> NULL ->
    0 < malloc h size /\ forall x, malloc h size <= x < malloc h size + size -> h !! x = None
}.

Section Spec.
Context {U : Type} (hash_fn : Z -> Z) (less : Z -> Z -> bool) (malloc : heap -> Z -> Z) (junk : Z -> list_elem).
Context `{!HashClient hash_fn less, !Allocator malloc}.
Notation hst := (@hst U).
Notation eqv := (KListSort.eqv less).

(** The bucket of [e] among [n]. *)
Definition idx (n e : Z) : Z := Z.land (hash_fn e) (n - 1).

(** All buckets exist and hold only elements that belong there. *)
Record buckets_ok (F : gmap Z (list Z)) (b n : Z) : Prop := {
  b_pow : exists k, 0 <= k /\ n = 2 ^ k;
  b_some l : header b n l -> is_Some (F !! l);
  b_place i x : 0 <= i < n -> x ∈ bucket F (bucket_at b i) -> idx n x = i
}.

(** [X] are the elements of the table, [C] the list elements its clients own. *)
Record hash_rep (s : hst) (C X : gset Z) (F : gmap Z (list Z)) : Prop := {
  h_lists : Lists (hp s) F;
  h_dom l : is_Some (F !! l) -> header (buckets (tab s)) (bucket_cnt (tab s)) l;
  h_ok : buckets_ok F (buckets (tab s)) (bucket_cnt (tab s));
  h_pos : 0 < buckets (tab s);
  h_elems : elems F (buckets (tab s)) (Z.to_nat (bucket_cnt (tab s))) ≡ₚ elements X;
  h_size : elem_cnt (tab s) = Z.of_nat (size X);
  h_uniq x y : x ∈ X -> y ∈ X -> eqv x y = true -> x = y;
  h_sub : X ⊆ C;
  h_own x : x ∈ C -> x <> NULL /\ is_Some (hp s !! x);
  h_clear l : header (buckets (tab s)) (bucket_cnt (tab s)) l -> l ∉ C /\ l + TAIL_OFS ∉ C;
  h_room : Z.of_nat (size C) < 2 ^ 58
}.
Definition hash_ok (s : hst) (C X : gset Z) : Prop := exists F, hash_rep s C X F.

Lemma idx_range k e : 0 <= k -> 0 <= idx (2 ^ k) e < 2 ^ k.
Proof. intros Hk. unfold idx. rewrite land_ones_mod by done. apply Z.mod_pos_bound. by apply pow2_pos. Qed.

Lemma on_heap_run {A} (f : M heap A) (s : hst) a h : f (hp s) = Ok (a, h) -> on_heap f s = Ok (a, HSt h (tab s) (user s)).
Proof. intros E. unfold on_heap. by rewrite E. Qed.

Lemma on_heap_read {A} (f : M heap A) (s : hst) a : f (hp s) = Ok (a, hp s) -> on_heap f s = Ok (a, s).
Proof. intros E. rewrite (on_heap_run _ _ _ _ E). by destruct s. Qed.

Lemma find_bucket_run (s : hst) e :
  find_bucket hash_fn e s = Ok (bucket_at (buckets (tab s)) (idx (bucket_cnt (tab s)) e), s).
Proof. done. Qed.

(** *** Moving elements to new buckets *)

Record moved (s s' : hst) (F F' : gmap Z (list Z)) (b n : Z) (old : Z -> Prop) (ys : list Z) : Prop := {
  m_lists : Lists (hp s') F';
  m_state : tab s' = tab s /\ user s' = user s /\ dom (hp s') = dom (hp s);
  m_ok : buckets_ok F' b n;
  m_old l : old l -> F' !! l = Some [];
  m_same l : ~ old l -> ~ header b n l -> F' !! l = F !! l;
  m_elems : elems F' b (Z.to_nat n) ≡ₚ ys ++ elems F b (Z.to_nat n)
}.

Lemma move_elems_spec ys : forall fuel (s : hst) F l,
  let b := buckets (tab s) in let n := bucket_cnt (tab s) in
  Lists (hp s) F -> buckets_ok F b n -> F !! l = Some ys -> ~ header b n l -> (length ys <= fuel)%nat ->
  exists s' F', move_elems hash_fn fuel (first ys (l + TAIL_OFS)) (l + TAIL_OFS) s = Ok (tt, s') /\
    moved s s' F F' b n (eq l) ys.
Proof.
  induction ys as [|y ys IH]; intros fuel s F l b n HL Hok Hl Hh Hf; pose proof (ls_list _ _ HL _ _ Hl) as Hil.
  - exists s, F. split; [destruct fuel; cbn [move_elems]; by rewrite first_eq_tail by apply not_elem_of_nil|].
    split; try done. by intros ? <-.
  - destruct fuel as [|fuel]; [cbn in Hf; lia|]. cbn [move_elems].
    rewrite first_eq_tail by apply (is_list_tail_fresh _ _ _ Hil). change (first (y :: ys) (l + TAIL_OFS)) with y.
    mstep (find_bucket_run s y). fold b n. pose proof Hok as [(k & Hk & Ek) Hs Hp].
    set (nb := bucket_at b (idx n y)). pose proof (idx_range k y Hk) as Hi. rewrite <- Ek in Hi.
    assert (header b n nb) as Hnb by (by exists (idx n y)). assert (nb <> l) as Hne by (by intros ->).
    mstep (on_heap_run (list_next y) s _ _ (list_next_first (hp s) [l] y ys (l + TAIL_OFS) [] Hil)).
    destruct (Lists_remove (hp s) F l [] y ys HL Hl) as (h1 & E1 & HL1 & Hd1 & Ho1). cbn [app] in HL1, Ho1.
    mstep (on_heap_run (list_remove y) (HSt (hp s) (tab s) (user s)) _ _ E1).
    destruct (Hs nb Hnb) as [zs Hzs].
    assert (y <> NULL) as Hy0. { destruct Hil as (_ & _ & Hnn). intros ->. apply Hnn. set_solver. }
    assert (is_Some (h1 !! y)) as Hyd.
    { apply elem_of_dom. rewrite Hd1. apply elem_of_dom. eapply Lists_dom; [done|exact Hl|]. apply elem_cells. set_solver. }
    destruct (Lists_push h1 (<[l := ys]> F) nb zs y HL1) as (h2 & E2 & HL2 & Hd2); [by rewrite lookup_insert_ne|done..|].
    mstep (on_heap_run (list_push_front nb y) (HSt h1 (tab s) (user s)) _ _ E2).
    set (s2 := HSt h2 (tab s) (user s)). set (F2 := <[nb := y :: zs]> (<[l := ys]> F)) in *.
    assert (forall l', header b n l' -> l' <> nb -> F2 !! l' = F !! l') as HF2.
    { intros l' Hl' N. unfold F2. rewrite !lookup_insert_ne; [done| |done]. by intros ->. }
    destruct (IH fuel s2 F2 l) as (s' & F' & E & [M1 M2 M3 M4 M5 M6]); [done| | |done|cbn in Hf; lia|].
    { split; [by exists k| |].
      - intros l' Hl'. destruct (decide (l' = nb)) as [->|]; [unfold F2; rewrite lookup_insert_eq; eauto|].
        rewrite HF2 by done. by apply Hs.
      - intros i x Hi' Hx. destruct (decide (bucket_at b i = nb)) as [Ei|].
        + assert (i = idx n y) as -> by (unfold nb, bucket_at, LIST_SIZE in Ei; lia). fold nb in Hx.
          unfold bucket, F2 in Hx. rewrite lookup_insert_eq in Hx. cbn in Hx. apply elem_of_cons in Hx as [->|Hx]; [done|].
          apply Hp; [done|]. fold nb. unfold bucket. by rewrite Hzs.
        + apply Hp; [done|]. revert Hx. unfold bucket. cbn [tab s2]. fold b. rewrite HF2; [done|by exists i|done]. }
    { unfold F2. by rewrite lookup_insert_ne, lookup_insert_eq. }
    exists s', F'. split; [exact E|]. destruct M2 as (T1 & T2 & T3). split.
    + exact M1.
    + split_and!; [done|done|]. rewrite T3. cbn. by rewrite Hd2.
    + exact M3.
    + exact M4.
    + intros l' N1 N2. rewrite M5 by done. unfold F2. rewrite !lookup_insert_ne; [done|congruence|]. by intros ->.
    + etransitivity; [exact M6|]. cbn [app tab s2] in *. fold b n.
      destruct (elems_update (<[l := ys]> F) b (Z.to_nat n) nb (y :: zs)) as (P & Q & P1 & P2); [rewrite Z2Nat.id; [done|lia]|].
      fold F2 in P2. rewrite P2. unfold bucket in P1. rewrite lookup_insert_ne, Hzs in P1 by done. cbn [default] in P1.
      rewrite (elems_ext F (<[l := ys]> F)) in P1; [|intros l' Hl'; apply lookup_insert_ne; intros ->; apply Hh; by rewrite Z2Nat.id in Hl' by lia].
      rewrite P1. cbn [app]. rewrite <- !Permutation_middle. done.
Qed.

Lemma move_buckets_spec m : forall (s : hst) F ob,
  let b := buckets (tab s) in let n := bucket_cnt (tab s) in
  Lists (hp s) F -> buckets_ok F b n ->
  (forall l, header ob (Z.of_nat m) l -> is_Some (F !! l) /\ ~ header b n l) ->
  exists s' F', move_buckets hash_fn m ob s = Ok (tt, s') /\
    moved s s' F F' b n (header ob (Z.of_nat m)) (elems F ob m).
Proof.
  induction m as [|m IH]; intros s F ob b n HL Hok Hold; cbn [move_buckets elems].
  { exists s, F. split; [done|]. split; try done. intros l (i & Hi & _). lia. }
  destruct (Hold ob) as [[ys Hys] Hnh]; [apply header_nat_S; by left|]. pose proof (ls_list _ _ HL _ _ Hys) as Hil.
  mnorm. mstep (on_heap_run _ s _ _ (list_begin_run _ _ _ Hil)).
  mstep (on_heap_run _ (HSt (hp s) (tab s) (user s)) _ _ (list_end_run _ _ _ Hil)).
  destruct (move_elems_spec ys (fuel_of (hp s)) (HSt (hp s) (tab s) (user s)) F ob) as (s1 & F1 & E1 & [M1 M2 M3 M4 M5 M6]); try done.
  { unfold fuel_of. pose proof (is_list_length _ _ _ Hil). cbn [hp]. lia. }
  cbn [hp tab user] in *. mstep E1. subst b n. destruct M2 as (T1 & T2 & T3).
  destruct (IH s1 F1 (ob + LIST_SIZE)) as (s2 & F2 & E2 & [N1 N2 N3 N4 N5 N6]).
  { done. }
  { by rewrite T1. }
  { intros l Hl. destruct (Hold l) as [S1 S2]; [apply header_nat_S; by right|]. rewrite T1. split; [|done].
    rewrite M5; [done| |done]. intros <-. by apply header_not in Hl. }
  destruct N2 as (T1' & T2' & T3'). rewrite T1 in *. exists s2, F2. split; [exact E2|]. split.
  - done.
  - split_and!; congruence.
  - done.
  - intros l [->|Hl]%header_nat_S; [|by apply N4].
    rewrite N5; [by apply M4|apply header_not|done].
  - intros l Hl Hl'. rewrite header_nat_S in Hl. rewrite N5; [|tauto|done]. apply M5; [|done]. intros <-. tauto.
  - rewrite N6, M6. unfold bucket. rewrite Hys. cbn [default].
    rewrite (elems_ext F F1 (ob + LIST_SIZE)).
    + rewrite !app_assoc. apply Permutation_app_tail, Permutation_app_comm.
    + intros l Hl. apply M5; [intros <-; by apply header_not in Hl|]. apply Hold, header_nat_S. by right.
Qed.

(** *** Rehashing *)

(** A new array of empty buckets in fresh memory. *)
Lemma malloc_buckets_spec (s : hst) cnt :
  0 <= cnt < 2 ^ 59 ->
  (malloc (hp s) (u64 (LIST_SIZE * cnt)) = NULL /\ malloc_buckets malloc junk cnt s = Ok (NULL, s)) \/
  exists p h, malloc_buckets malloc junk cnt s = Ok (p, HSt h (tab s) (user s)) /\ 0 < p /\
    (forall x, x ∈ bucket_cells p (Z.to_nat cnt) -> hp s !! x = None /\ is_Some (h !! x)) /\
    (forall x, is_Some (hp s !! x) -> h !! x = hp s !! x).
Proof.
  intros Hc. unfold malloc_buckets. set (p := malloc (hp s) (u64 (LIST_SIZE * cnt))).
  destruct (Z.eqb_spec p NULL) as [|Hp]; [by left|]. right.
  destruct (malloc_fresh (hp s) (u64 (LIST_SIZE * cnt)) Hp) as [H0 Hf]. fold p in H0, Hf.
  rewrite wrapu_id in Hf by (unfold is_u, LIST_SIZE; lia).
  assert (forall x, x ∈ bucket_cells p (Z.to_nat cnt) -> hp s !! x = None) as Hfr.
  { intros x (l & (i & Hi & ->) & Hx)%elem_bucket_cells. apply Hf. unfold bucket_at, LIST_SIZE, TAIL_OFS in *. lia. }
  eexists p, _. split; [reflexivity|]. split; [done|]. split.
  - intros x Hx. split; [by apply Hfr|]. rewrite lookup_add_cells, decide_True by done. eauto.
  - intros x [e He]. rewrite lookup_add_cells, decide_False; [done|]. intros Hx. by rewrite (Hfr x Hx) in He.
Qed.

Lemma hash_size_bound s C X F : hash_rep s C X F -> 0 <= elem_cnt (tab s) < 2 ^ 58.
Proof.
  intros H. pose proof (subseteq_size _ _ (h_sub _ _ _ _ H)). pose proof (h_room _ _ _ _ H). rewrite (h_size _ _ _ _ H). lia.
Qed.

(** The number of buckets [rehash] aims at. *)
Definition best_cnt (cnt : Z) : Z := 2 ^ Z.log2 (Z.max 4 (cnt / 2)).

Lemma best_cnt_spec cnt : 0 <= cnt < 2 ^ 58 ->
  round_to_power 64 (if cnt / 2 <? 4 then 4 else cnt / 2) = Ok (best_cnt cnt) /\
  exists k, 0 <= k /\ best_cnt cnt = 2 ^ k /\ 0 < best_cnt cnt < 2 ^ 59.
Proof.
  intros Hc. assert ((if cnt / 2 <? 4 then 4 else cnt / 2) = Z.max 4 (cnt / 2)) as -> by (destruct (Z.ltb_spec (cnt / 2) 4); lia).
  assert (cnt / 2 <= cnt) by (apply Z.div_le_upper_bound; lia). unfold best_cnt. split.
  - apply (round_to_power_spec 64 0); [lia|lia|by rewrite Z.mod_1_r|done].
  - exists (Z.log2 (Z.max 4 (cnt / 2))). pose proof (Z.log2_nonneg (Z.max 4 (cnt / 2))).
    pose proof (Z.log2_spec (Z.max 4 (cnt / 2)) ltac:(lia)). split_and!; [done|done|by apply pow2_pos|lia].
Qed.

Lemma elems_nil F b n : (forall l, header b (Z.of_nat n) l -> F !! l = Some []) -> elems F b n = [].
Proof.
  revert b. induction n as [|n IH]; intros b H; cbn [elems]; [done|]. unfold bucket. rewrite (H b) by (apply header_nat_S; by left).
  apply IH. intros l Hl. apply H, header_nat_S. by right.
Qed.

(** The state in the middle of [rehash]: the new array is in place and empty. *)
Lemma rehash_array (s : hst) C X F cnt k :
  hash_rep s C X F -> 0 <= k -> cnt = 2 ^ k -> 0 < cnt < 2 ^ 59 ->
  (malloc (hp s) (u64 (LIST_SIZE * cnt)) = NULL /\ malloc_buckets malloc junk cnt s = Ok (NULL, s)) \/
  exists p h h1, malloc_buckets malloc junk cnt s = Ok (p, HSt h (tab s) (user s)) /\ 0 < p /\
    init_buckets (Z.to_nat cnt) p h = Ok (tt, h1) /\ Lists h1 (add_empty F p (Z.to_nat cnt)) /\
    buckets_ok (add_empty F p (Z.to_nat cnt)) p cnt /\
    (forall l, header p cnt l -> hp s !! l = None /\ hp s !! (l + TAIL_OFS) = None) /\
    (forall x, is_Some (hp s !! x) -> is_Some (h1 !! x)).
Proof.
  intros R Hk Ek Hc. destruct (malloc_buckets_spec s cnt ltac:(lia)) as [|(p & h & E & Hp & Hcell & Hsame)]; [by left|right].
  assert (forall l, header p cnt l -> hp s !! l = None /\ hp s !! (l + TAIL_OFS) = None) as Hnone.
  { intros l Hl. split; apply Hcell, elem_bucket_cells; exists l; (rewrite Z2Nat.id by lia); tauto. }
  assert (Lists h F) as HL.
  { eapply Lists_heap; [|apply (h_lists _ _ _ _ R)]. intros l xs x Hl Hx. apply Hsame. eapply Lists_dom; [apply (h_lists _ _ _ _ R)|done|done]. }
  destruct (init_buckets_spec (Z.to_nat cnt) p h F HL Hp) as (h1 & E1 & HL1 & Hd1).
  { intros x Hx. by apply Hcell. }
  { intros l Hl _. rewrite Z2Nat.id in Hl by lia. destruct (Hnone l Hl) as [N1 N2].
    split; intros l' xs' Hl' Hx; eapply (Lists_dom _ _ _ _ _ (h_lists _ _ _ _ R) Hl') in Hx as [? Hx]; congruence. }
  exists p, h, h1. split_and!; try done.
  - split; [by exists k| |].
    + intros l Hl. rewrite add_empty_in; [eauto|]. by rewrite Z2Nat.id by lia.
    + intros i x Hi Hx. unfold bucket in Hx. rewrite add_empty_in in Hx; [by apply elem_of_nil in Hx|].
      rewrite Z2Nat.id by lia. by exists i.
  - intros x Hx. apply elem_of_dom. rewrite Hd1. apply elem_of_dom. by rewrite Hsame.
Qed.

(** The old array is empty and can be given back. *)
Lemma rehash_free (s : hst) C X F p cnt h1 s2 F2 :
  hash_rep s C X F -> 0 < p -> 0 < cnt ->
  (forall l, header p cnt l -> hp s !! l = None /\ hp s !! (l + TAIL_OFS) = None) ->
  (forall x, is_Some (hp s !! x) -> is_Some (h1 !! x)) ->
  moved (HSt h1 (Hash (elem_cnt (tab s)) cnt p) (user s)) s2 (add_empty F p (Z.to_nat cnt)) F2 p cnt
    (header (buckets (tab s)) (bucket_cnt (tab s))) (elements X) ->
  (forall l, header (buckets (tab s)) (bucket_cnt (tab s)) l -> ~ header p cnt l) -> 0 <= bucket_cnt (tab s) ->
  hash_ok (HSt (foldr (fun a h => delete a h) (hp s2) (bucket_cells (buckets (tab s)) (Z.to_nat (bucket_cnt (tab s)))))
    (tab s2) (user s2)) C X.
Proof.
  intros [R1 R2 R3 R4 R5 R6 R7 R8 R9 R10 R11] Hp Hc Hfr Hd [M1 (T1 & T2 & T3) M3 M4 M5 M6] Hdis Hn.
  set (F3 := filter (fun kv : Z * list Z => header p cnt kv.1) F2). exists F3. rewrite T1.
  assert (forall l xs, F3 !! l = Some xs <-> F2 !! l = Some xs /\ header p cnt l) as Hflt by (intros; apply map_lookup_filter_Some).
  assert (forall l, header p cnt l -> F3 !! l = F2 !! l) as Hin.
  { intros l Hl. destruct (b_some _ _ _ M3 l Hl) as [xs Hxs]. rewrite Hxs. by apply Hflt. }
  split; cbn [hp tab buckets bucket_cnt elem_cnt]; try done.
  - eapply Lists_heap; [|eapply Lists_subseteq, M1; apply map_filter_subseteq].
    intros l xs x [Hl Hh]%Hflt Hx. rewrite lookup_del_cells, decide_False; [done|].
    intros (l' & Hl' & Hx')%elem_bucket_cells. rewrite Z2Nat.id in Hl' by done. apply (Hdis l' Hl').
    replace l' with l; [done|]. apply (ls_disj _ _ M1 l l' xs [] x Hl (M4 l' Hl') Hx). apply elem_cells. tauto.
  - intros l [xs Hxs]. by apply Hflt in Hxs as [_ ?].
  - destruct M3 as [B1 B2 B3]. split; [done| |].
    + intros l Hl. rewrite Hin by done. by apply B2.
    + intros i x Hi. unfold bucket. rewrite Hin by (by exists i). by apply B3.
  - rewrite (elems_ext F2); [|intros l Hl; apply Hin; by rewrite Z2Nat.id in Hl by lia]. rewrite M6.
    by rewrite (elems_nil _ p), app_nil_r by (intros; by apply add_empty_in).
  - intros x Hx. destruct (R9 x Hx) as [X1 X2]. split; [done|]. rewrite lookup_del_cells, decide_False.
    + apply elem_of_dom. rewrite T3. by apply elem_of_dom, Hd.
    + intros (l' & Hl' & Hx')%elem_bucket_cells. rewrite Z2Nat.id in Hl' by done. destruct (R10 l' Hl'). by destruct Hx' as [->| ->].
  - intros l Hl. destruct (Hfr l Hl) as [N1 N2]. split; intros Hx; apply R9 in Hx as [_ [? ?]]; congruence.
Qed.

Lemma moved_perm (s s' : hst) F F' b n old ys zs : ys ≡ₚ zs -> moved s s' F F' b n old ys -> moved s s' F F' b n old zs.
Proof. intros E [M1 M2 M3 M4 M5 M6]. split; try done. by rewrite <- E. Qed.

Lemma rehash_spec (s : hst) C X :
  hash_ok s C X -> exists s', rehash hash_fn malloc junk s = Ok (tt, s') /\ hash_ok s' C X /\ user s' = user s /\
    elem_cnt (tab s') = elem_cnt (tab s) /\
    (bucket_cnt (tab s') = best_cnt (elem_cnt (tab s)) \/
     s' = s /\ malloc (hp s) (u64 (LIST_SIZE * best_cnt (elem_cnt (tab s)))) = NULL).
Proof.
  intros [F R]. unfold rehash. mnorm. destruct (best_cnt_spec _ (hash_size_bound _ _ _ _ R)) as [E0 (k & Hk & Ek & Hc)].
  set (cnt := best_cnt (elem_cnt (tab s))) in *.
  assert (lift (round_to_power 64 (if elem_cnt (tab s) / 2 <? 4 then 4 else elem_cnt (tab s) / 2)) s = Ok (cnt, s)) as El by (unfold lift; by rewrite E0).
  mstep El. destruct (Z.eqb_spec cnt (bucket_cnt (tab s))) as [|Hne]; [exists s; split_and!; [done|by exists F|done|done|by left]|].
  destruct (rehash_array s C X F cnt k R Hk Ek Hc) as [[Em En]|(p & h & h1 & En & Hp & Ei & HL1 & Hok1 & Hfr & Hd)]; mstep En; [|].
  { exists s. split_and!; [done|by exists F|done|done|by right]. }
  destruct (Z.eqb_spec p NULL) as [->|_]; [unfold NULL in Hp; lia|].
  mstep (on_heap_run _ (HSt h (tab s) (user s)) _ _ Ei). unfold set_tab at 1. mnorm. cbn [hp tab user].
  pose proof (h_ok _ _ _ _ R) as R3. pose proof (h_lists _ _ _ _ R) as R1.
  assert (0 <= bucket_cnt (tab s)) as Hn by (destruct (b_pow _ _ _ R3) as (k' & Hk' & ->); by apply Z.lt_le_incl, pow2_pos).
  assert (forall l, header (buckets (tab s)) (bucket_cnt (tab s)) l -> ~ header p cnt l) as Hdis.
  { intros l Hl Hl'. destruct (b_some _ _ _ R3 l Hl) as [xs Hxs]. destruct (Hfr l Hl') as [N _].
    destruct (Lists_dom _ _ _ _ l R1 Hxs) as [? ?]; [apply elem_cells; by left|congruence]. }
  assert (forall l, ~ header p cnt l -> add_empty F p (Z.to_nat cnt) !! l = F !! l) as HF1.
  { intros l Hl. apply add_empty_out. by rewrite Z2Nat.id by lia. }
  destruct (move_buckets_spec (Z.to_nat (bucket_cnt (tab s))) (HSt h1 (Hash (elem_cnt (tab s)) cnt p) (user s)) _ (buckets (tab s)) HL1 Hok1)
    as (s2 & F2 & E2 & HM).
  { intros l Hl. rewrite Z2Nat.id in Hl by done. split; [|by apply Hdis]. rewrite HF1 by by apply Hdis. by apply (b_some _ _ _ R3). }
  mstep E2. eexists. split; [reflexivity|]. pose proof (m_state _ _ _ _ _ _ _ _ HM) as (T1 & T2 & _).
  split; [|split_and!; [cbn; by rewrite T2|cbn; by rewrite T1|left; cbn; by rewrite T1]].
  eapply (rehash_free s C X F p cnt h1); try done; [lia|]. rewrite Z2Nat.id in HM by done. eapply moved_perm, HM.
  rewrite (elems_ext F); [apply (h_elems _ _ _ _ R)|]. intros l Hl. apply HF1, Hdis. by rewrite Z2Nat.id in Hl by lia.
Qed.

(** *** Searching *)

Lemma find_elem_loop_run e t Q ys : forall fuel h P,
  dll h (P ++ ys ++ t :: Q) -> t ∉ ys -> P <> [] -> (length ys <= fuel)%nat ->
  find_elem_loop less fuel (first ys t) t e h = Ok (default NULL (head (List.filter (fun x => eqv x e) ys)), h).
Proof.
  induction ys as [|y ys IH]; intros fuel h P Hd Ht HP Hf.
  - destruct fuel; cbn [find_elem_loop]; by rewrite first_eq_tail by done.
  - destruct fuel as [|fuel]; [cbn in Hf; lia|]. cbn [find_elem_loop]. rewrite first_eq_tail by done.
    change (first (y :: ys) t) with y. cbn [List.filter]. unfold KListSort.eqv at 1. destruct (negb (less y e) && negb (less e y)); [done|].
    mstep (list_next_first h P y ys t Q Hd). apply (IH fuel h (P ++ [y])); [by rewrite <- app_assoc|set_solver|by destruct P|cbn in Hf; lia].
Qed.

Lemma head_filter {A} (p : A -> bool) xs :
  match head (List.filter p xs) with
  | Some x => x ∈ xs /\ p x = true
  | None => forall x, x ∈ xs -> p x = false
  end.
Proof.
  induction xs as [|y xs IH]; cbn; [by intros x ?%elem_of_nil|]. destruct (p y) eqn:E; cbn; [split; [by left|done]|].
  destruct (head (List.filter p xs)); [destruct IH; split; [by right|done]|].
  intros x [->|Hx]%elem_of_cons; [done|by apply IH].
Qed.

Lemma member s C X F x : hash_rep s C X F ->
  x ∈ X <-> x ∈ bucket F (bucket_at (buckets (tab s)) (idx (bucket_cnt (tab s)) x)).
Proof.
  intros R. pose proof (h_ok _ _ _ _ R) as [(k & Hk & Ek) Hs Hp].
  assert (0 < bucket_cnt (tab s)) as Hn by (rewrite Ek; by apply pow2_pos).
  rewrite <- elem_of_elements, <- (h_elems _ _ _ _ R), elem_elems, Z2Nat.id by lia. split.
  - intros (l & (i & Hi & ->) & Hx). rewrite (Hp i x Hi Hx). done.
  - intros Hx. exists (bucket_at (buckets (tab s)) (idx (bucket_cnt (tab s)) x)). split; [|done].
    eexists. split; [|reflexivity]. rewrite Ek. by apply idx_range.
Qed.

Lemma bucket_list s C X F e : hash_rep s C X F ->
  let l := bucket_at (buckets (tab s)) (idx (bucket_cnt (tab s)) e) in
  header (buckets (tab s)) (bucket_cnt (tab s)) l /\ F !! l = Some (bucket F l) /\ is_list (hp s) l (bucket F l).
Proof.
  intros R l. pose proof (h_ok _ _ _ _ R) as [(k & Hk & Ek) Hs Hp].
  assert (header (buckets (tab s)) (bucket_cnt (tab s)) l) as Hl.
  { eexists. split; [|reflexivity]. rewrite Ek. by apply idx_range. }
  destruct (Hs l Hl) as [xs Hxs]. unfold bucket. rewrite Hxs. split_and!; [done|done|]. by apply (h_lists _ _ _ _ R).
Qed.

(** The element equal to [e], or [NULL]. *)
Definition is_find (X : gset Z) (e r : Z) : Prop :=
  (r = NULL /\ forall x, x ∈ X -> eqv x e = false) \/ (r <> NULL /\ r ∈ X /\ eqv r e = true).

Lemma find_spec s C X e : hash_ok s C X ->
  exists r, find_elem less (bucket_at (buckets (tab s)) (idx (bucket_cnt (tab s)) e)) e s = Ok (r, s) /\ is_find X e r.
Proof.
  intros [F R]. destruct (bucket_list s C X F e R) as (Hh & Hl & Hil). set (l := bucket_at _ _) in *. set (xs := bucket F l) in *.
  exists (default NULL (head (List.filter (fun x => eqv x e) xs))). split.
  - unfold find_elem. apply on_heap_read. mnorm. mstep (list_begin_run _ _ _ Hil). mstep (list_end_run _ _ _ Hil).
    apply (find_elem_loop_run e (l + TAIL_OFS) [] xs (fuel_of (hp s)) (hp s) [l]); [done|apply (is_list_tail_fresh _ _ _ Hil)|done|].
    unfold fuel_of. pose proof (is_list_length _ _ _ Hil). lia.
  - pose proof (head_filter (fun x => eqv x e) xs) as Hf. destruct (head _) as [x|]; cbn.
    + right. destruct Hf as [Hx He].
      assert (x ∈ X) as HX by (apply (member s C X F x R); unfold idx; by rewrite (hc_hash (hash_fn := hash_fn) x e He)).
      split_and!; [by apply (h_own _ _ _ _ R), (h_sub _ _ _ _ R)|done|done].
    + left. split; [done|]. intros x Hx. destruct (eqv x e) eqn:He; [|done]. rewrite <- He. apply Hf.
      apply (member s C X F x R) in Hx. unfold idx in Hx. rewrite (hc_hash (hash_fn := hash_fn) x e He) in Hx. done.
Qed.

(** *** Changing one bucket *)

Lemma hash_rep_update s C X F l ys h X' :
  hash_rep s C X F -> header (buckets (tab s)) (bucket_cnt (tab s)) l ->
  Lists h (<[l := ys]> F) -> dom h = dom (hp s) -> X' ⊆ C ->
  (forall x, x ∈ ys -> bucket_at (buckets (tab s)) (idx (bucket_cnt (tab s)) x) = l) ->
  (forall P Q, P ++ bucket F l ++ Q ≡ₚ elements X -> P ++ ys ++ Q ≡ₚ elements X') ->
  (forall x y, x ∈ X' -> y ∈ X' -> eqv x y = true -> x = y) ->
  hash_rep (HSt h (Hash (Z.of_nat (size X')) (bucket_cnt (tab s)) (buckets (tab s))) (user s)) C X' (<[l := ys]> F).
Proof.
  intros [R1 R2 R3 R4 R5 R6 R7 R8 R9 R10 R11] Hh HL Hd HC Hys HP Hu. split; cbn [hp tab buckets bucket_cnt elem_cnt]; try done.
  - intros l' [ys' [[<- _]|[_ H]]%lookup_insert_Some]; [done|]. apply R2. eauto.
  - destruct R3 as [B1 B2 B3]. split; [done| |].
    + intros l' Hl'. destruct (decide (l' = l)) as [->|]; [rewrite lookup_insert_eq; eauto|]. rewrite lookup_insert_ne by done. by apply B2.
    + intros i x Hi. unfold bucket. destruct (decide (bucket_at (buckets (tab s)) i = l)) as [<-|Hne].
      * rewrite lookup_insert_eq. cbn. intros Hx. pose proof (Hys x Hx) as E. unfold bucket_at, LIST_SIZE in E. lia.
      * rewrite lookup_insert_ne by done. by apply B3.
  - destruct Hh as (i & Hi & El). destruct (elems_update F (buckets (tab s)) (Z.to_nat (bucket_cnt (tab s))) l ys) as (P & Q & E1 & E2).
    { exists i. split; [lia|done]. }
    rewrite E2. apply HP. by rewrite <- E1.
  - intros x Hx. destruct (R9 x Hx) as [X1 X2]. split; [done|]. apply elem_of_dom. rewrite Hd. by apply elem_of_dom.
Qed.

Lemma insert_spec s C X e : hash_ok s C X -> e ∈ C -> (forall x, x ∈ X -> eqv x e = false) ->
  exists s', insert_elem (bucket_at (buckets (tab s)) (idx (bucket_cnt (tab s)) e)) e s = Ok (tt, s') /\
    hash_ok s' C ({[ e ]} ∪ X) /\ user s' = user s.
Proof.
  intros [F R] He Hn. destruct (bucket_list s C X F e R) as (Hh & Hl & Hil). set (l := bucket_at _ _) in *.
  assert (e ∉ X) as HeX. { intros Hx. pose proof (Hn e Hx) as Ee. unfold KListSort.eqv in Ee. destruct (less e e) eqn:Ell; [|done].
    pose proof (less_asym e e Ell). congruence. }
  destruct (h_own _ _ _ _ R e He) as [He0 Hed].
  destruct (Lists_push (hp s) F l (bucket F l) e (h_lists _ _ _ _ R) Hl) as (h' & E & HL & Hd); [|done|done|].
  { intros l' xs' Hl'. pose proof (h_dom _ _ _ _ R l' ltac:(eauto)) as Hh'. destruct (h_clear _ _ _ _ R l' Hh') as [C1 C2].
    rewrite elem_cells. intros [->|[Hx| ->]]; [done| |done]. apply HeX.
    destruct (b_pow _ _ _ (h_ok _ _ _ _ R)) as (k & Hk & Ek). pose proof (pow2_pos k Hk).
    rewrite <- elem_of_elements, <- (h_elems _ _ _ _ R), elem_elems, Z2Nat.id by lia. exists l'. split; [done|]. unfold bucket. by rewrite Hl'. }
  assert (size ({[ e ]} ∪ X) = S (size X)) as Hsz by (rewrite size_union by set_solver; rewrite size_singleton; done).
  eexists. split; [unfold insert_elem, set_tab; mnorm; apply on_heap_run; cbn [hp]; exact E|]. split; [|done].
  exists (<[l := e :: bucket F l]> F). cbn [hp tab user]. rewrite wrapu_id.
  2: { pose proof (hash_size_bound _ _ _ _ R). unfold is_u. lia. }
  rewrite (h_size _ _ _ _ R). replace (Z.of_nat (size X) + 1) with (Z.of_nat (size ({[ e ]} ∪ X))) by lia.
  apply (hash_rep_update s C X); try done.
  - pose proof (h_sub _ _ _ _ R). set_solver.
  - intros x [->|Hx]%elem_of_cons; [done|]. destruct Hh as (i & Hi & El). rewrite El in Hx. rewrite El. f_equal.
    by apply (b_place _ _ _ (h_ok _ _ _ _ R)).
  - intros P Q HP. rewrite elements_union_singleton by done. rewrite <- HP. cbn [app]. by rewrite <- Permutation_middle.
  - intros x y [->%elem_of_singleton|Hx]%elem_of_union [->%elem_of_singleton|Hy]%elem_of_union Hxy; [done| | |by apply (h_uniq _ _ _ _ R)].
    + unfold KListSort.eqv in Hxy, Hn. specialize (Hn y Hy). rewrite andb_comm in Hn. congruence.
    + by rewrite Hn in Hxy.
Qed.

Lemma remove_spec s C X y : hash_ok s C X -> y ∈ X ->
  exists s', remove_elem y s = Ok (tt, s') /\ hash_ok s' C (X ∖ {[ y ]}) /\ user s' = user s /\
    buckets (tab s') = buckets (tab s) /\ bucket_cnt (tab s') = bucket_cnt (tab s).
Proof.
  intros [F R] Hy. destruct (bucket_list s C X F y R) as (Hh & Hl & Hil). set (l := bucket_at _ _) in *.
  assert (y ∈ bucket F l) as Hb by by apply (member s C X F y R).
  apply list_elem_of_split in Hb as (xs & ys & Eb). rewrite Eb in Hl.
  destruct (Lists_remove (hp s) F l xs y ys (h_lists _ _ _ _ R) Hl) as (h' & E & HL & Hd & _).
  assert (size (X ∖ {[ y ]}) = (size X - 1)%nat) as Hsz by (rewrite size_difference by set_solver; by rewrite size_singleton).
  assert (size X <> 0%nat) as Hnz by (intros H0%size_empty_inv; set_solver).
  eexists. split; [unfold remove_elem, set_tab; mnorm; mstep (on_heap_run (list_remove y) (HSt (hp s) (Hash (u64 (elem_cnt (tab s) - 1)) (bucket_cnt (tab s)) (buckets (tab s))) (user s)) _ _ E); reflexivity|].
  split_and!; [|done|done|done]. exists (<[l := xs ++ ys]> F). cbn [hp tab user]. rewrite wrapu_id.
  2: { pose proof (hash_size_bound _ _ _ _ R). pose proof (h_size _ _ _ _ R). unfold is_u. lia. }
  rewrite (h_size _ _ _ _ R). replace (Z.of_nat (size X) - 1) with (Z.of_nat (size (X ∖ {[ y ]}))) by lia.
  apply (hash_rep_update s C X); try done.
  - pose proof (h_sub _ _ _ _ R). set_solver.
  - intros x Hx. destruct Hh as (i & Hi & El). assert (x ∈ bucket F l) as Hx' by (rewrite Eb; set_solver). rewrite El in Hx'. rewrite El. f_equal.
    by apply (b_place _ _ _ (h_ok _ _ _ _ R)).
  - intros P Q HP. rewrite Eb in HP. apply (Permutation_cons_inv (a := y)).
    rewrite <- elements_union_singleton by set_solver. replace ({[y]} ∪ X ∖ {[y]}) with X by (apply union_difference_singleton_L; done).
    rewrite <- HP. rewrite <- !app_assoc. cbn [app]. rewrite !(app_assoc P). apply Permutation_middle.
  - intros x y' Hx Hy'. apply (h_uniq _ _ _ _ R); set_solver.
Qed.

(** *** Clearing *)

(** A destructor that leaves the table alone; it may free its element. *)
Definition destroys (d : Z -> M hst unit) : Prop := forall e s, exists s', d e s = Ok (tt, s') /\ tab s' = tab s /\
  (forall x, x <> e -> hp s' !! x = hp s !! x).

Lemma destroy_elems_spec d xs : destroys d -> forall fuel (s : hst) F l,
  Lists (hp s) F -> F !! l = Some xs -> (length xs <= fuel)%nat ->
  exists s', destroy_elems fuel d l s = Ok (tt, s') /\ Lists (hp s') (<[l := []]> F) /\ tab s' = tab s /\
    (forall x, x ∉ xs -> is_Some (hp s !! x) -> is_Some (hp s' !! x)).
Proof.
  intros D. induction xs as [|y xs IH]; intros fuel s F l HL Hl Hf; pose proof (ls_list _ _ HL _ _ Hl) as Hil.
  - exists s. destruct fuel; cbn [destroy_elems]; mstep (on_heap_read (list_empty l) s _ (list_empty_run _ _ _ Hil)); by rewrite insert_id.
  - destruct fuel as [|fuel]; [cbn in Hf; lia|]. cbn [destroy_elems]. mstep (on_heap_read (list_empty l) s _ (list_empty_run _ _ _ Hil)).
    destruct (list_pop_front_spec _ _ _ _ Hil) as (h1 & E1 & Hl1 & Ha1). mstep (on_heap_run (list_pop_front l) s _ _ E1).
    destruct (D y (HSt h1 (tab s) (user s))) as (s1 & E2 & T1 & Hh1). mstep E2. cbn [tab hp] in *.
    assert (Lists h1 (<[l := xs]> F)) as HL1.
    { apply (Lists_update (hp s) h1 F l _ []); try done; rewrite ?Hl; cbn [from_option app].
      - eapply agree_off_mono; [|exact Ha1]. unfold cells. set_solver.
      - by intros x ?%elem_of_nil.
      - intros x. rewrite !elem_cells. set_solver. }
    assert (y ∉ xs /\ y <> l /\ y <> l + TAIL_OFS) as (Y1 & Y2 & Y3).
    { destruct Hil as (_ & [Hn1 Hn2]%NoDup_cons & _). cbn in Hn1, Hn2. apply NoDup_cons in Hn2 as [Hn2 _]. set_solver. }
    destruct (IH fuel s1 (<[l := xs]> F) l) as (s2 & E3 & HL3 & T3 & Hh3); [|by rewrite lookup_insert_eq|cbn in Hf; lia|].
    { eapply Lists_heap; [|exact HL1]. intros l' xs' x Hl' Hx. apply Hh1. intros ->.
      apply lookup_insert_Some in Hl' as [[<- <-]|[Hne Hl']]; [rewrite elem_cells in Hx; tauto|].
      apply Hne. apply (ls_disj _ _ HL l l' (y :: xs) xs' y Hl Hl'); [|done]. apply elem_cells. set_solver. }
    exists s2. rewrite insert_insert_eq in HL3. split_and!; [exact E3|done|congruence|].
    intros x Hx Hd. apply Hh3; [set_solver|]. rewrite Hh1 by set_solver. apply elem_of_dom. rewrite (proj1 Ha1). by apply elem_of_dom.
Qed.

(** The heap after the elements of the table were given to the destructor. *)
Definition after_clear (d : option (Z -> M hst unit)) (C X : gset Z) : gset Z := match d with Some _ => C ∖ X | None => C end.

Lemma clear_buckets_spec m d : from_option destroys True d -> forall (s : hst) F b,
  Lists (hp s) F -> 0 < b -> (forall l, header b (Z.of_nat m) l -> is_Some (F !! l)) ->
  exists s' F', clear_buckets m d b s = Ok (tt, s') /\ Lists (hp s') F' /\ tab s' = tab s /\
    (forall l, header b (Z.of_nat m) l -> F' !! l = Some []) /\ (forall l, ~ header b (Z.of_nat m) l -> F' !! l = F !! l) /\
    (forall x, (d = None \/ x ∉ elems F b m) -> is_Some (hp s !! x) -> is_Some (hp s' !! x)).
Proof.
  intros D. induction m as [|m IH]; intros s F b HL Hb Hs; cbn [clear_buckets].
  { exists s, F. split_and!; try done. intros l (i & Hi & _). lia. }
  mnorm. destruct (Hs b) as [xs Hxs]; [apply header_nat_S; by left|]. pose proof (ls_list _ _ HL _ _ Hxs) as Hil.
  assert (exists s1 xs', (match d with Some d => destroy_elems (fuel_of (hp s)) d b | None => ret tt end) s = Ok (tt, s1) /\
    Lists (hp s1) (<[b := xs']> F) /\ tab s1 = tab s /\ (forall x, (d = None \/ x ∉ xs) -> is_Some (hp s !! x) -> is_Some (hp s1 !! x))) as (s1 & xs' & E1 & HL1 & T1 & D1).
  { destruct d as [d|].
    - destruct (destroy_elems_spec d xs D (fuel_of (hp s)) s F b HL Hxs) as (s1 & E & ? & ? & Hd); [unfold fuel_of; pose proof (is_list_length _ _ _ Hil); lia|].
      exists s1, []. split_and!; try done. intros x [?|Hx]; [done|by apply Hd].
    - exists s, xs. rewrite insert_id by done. split_and!; done. }
  mstep E1. assert (forall x, x = b \/ x = b + TAIL_OFS -> is_Some (hp s1 !! x)) as Hc.
  { intros x Hx. eapply (Lists_dom _ _ _ _ x HL1); [apply lookup_insert_eq|]. apply elem_cells. tauto. }
  destruct (Lists_init (hp s1) (<[b := xs']> F) b HL1) as (h2 & E2 & HL2 & Hd2); [unfold NULL, TAIL_OFS; lia..|apply Hc; tauto|apply Hc; tauto|by rewrite lookup_insert_eq|].
  mstep (on_heap_run (list_init b) s1 _ _ E2). rewrite insert_insert_eq in HL2.
  destruct (IH (HSt h2 (tab s1) (user s1)) (<[b := []]> F) (b + LIST_SIZE)) as (s3 & F3 & E3 & HL3 & T3 & I3 & O3 & D3); [done|unfold LIST_SIZE; lia| |].
  { intros l Hl. rewrite lookup_insert_ne; [|intros <-; by apply header_not in Hl]. apply Hs, header_nat_S. by right. }
  cbn [tab hp] in *. exists s3, F3. split_and!; [exact E3|done|congruence| | |].
  - intros l [->|Hl]%header_nat_S; [|by apply I3]. rewrite O3 by apply header_not. apply lookup_insert_eq.
  - intros l Hl. rewrite header_nat_S in Hl. rewrite O3 by tauto. rewrite lookup_insert_ne; [done|]. intros <-. tauto.
  - intros x Hx Hd. cbn [elems] in Hx. unfold bucket in Hx. rewrite Hxs in Hx. cbn in Hx. rewrite elem_of_app in Hx. apply D3.
    + rewrite (elems_ext F); [tauto|]. intros l Hl. apply lookup_insert_ne. intros <-. by apply header_not in Hl.
    + apply elem_of_dom. rewrite Hd2. apply elem_of_dom. apply D1; [tauto|done].
Qed.

Lemma clear_spec d (s : hst) C X : from_option destroys True d -> hash_ok s C X ->
  exists s', hash_clear d s = Ok (tt, s') /\ hash_ok s' (after_clear d C X) ∅.
Proof.
  intros D [F [R1 R2 R3 R4 R5 R6 R7 R8 R9 R10 R11]]. destruct (b_pow _ _ _ R3) as (k & Hk & Ek). pose proof (pow2_pos k Hk) as Hp.
  destruct (clear_buckets_spec (Z.to_nat (bucket_cnt (tab s))) d D s F (buckets (tab s)) R1 R4) as (s' & F' & E & HL & T & I & O & Hd).
  { rewrite Z2Nat.id by lia. apply (b_some _ _ _ R3). }
  rewrite Z2Nat.id in I, O by lia. unfold hash_clear. mnorm. mstep E. eexists. split; [reflexivity|]. rewrite T.
  assert (after_clear d C X ⊆ C) as Hac by (destruct d; cbn; set_solver).
  exists F'. split; cbn [hp tab buckets bucket_cnt elem_cnt]; try done.
  - intros l Hl. destruct (decide (header (buckets (tab s)) (bucket_cnt (tab s)) l)); [done|]. apply R2. by rewrite <- O.
  - split; [by exists k|intros l Hl; rewrite I by done; eauto|]. intros i x Hi Hx. unfold bucket in Hx. rewrite I in Hx by (by exists i).
    by apply elem_of_nil in Hx.
  - rewrite elems_nil; [by rewrite elements_empty|]. rewrite Z2Nat.id by lia. done.
  - intros x Hx. destruct (R9 x ltac:(set_solver)) as [X1 X2]. split; [done|]. apply Hd; [|done].
    destruct d; [right|by left]. rewrite R5, elem_of_elements. cbn in Hx. set_solver.
  - intros l Hl. destruct (R10 l Hl). set_solver.
  - pose proof (subseteq_size _ _ Hac). lia.
Qed.

Lemma init_spec (s : hst) C :
  (forall x, x ∈ C -> x <> NULL /\ is_Some (hp s !! x)) -> Z.of_nat (size C) < 2 ^ 58 ->
  exists b s', hash_init malloc junk s = Ok (b, s') /\ (malloc (hp s) 128 <> NULL -> b = true) /\ (b = true -> hash_ok s' C ∅).
Proof.
  intros HC Hr. unfold hash_init. destruct (malloc_buckets_spec s 4 ltac:(lia)) as [[Em E]|(p & h & E & Hp & Hcell & Hsame)]; mstep E.
  { by eexists false, _. }
  unfold set_tab at 1. mnorm. destruct (Z.eqb_spec p NULL) as [->|_]; [unfold NULL in Hp; lia|]. cbn [negb hp tab user]. clear E.
  unfold hash_clear. mnorm. cbn [tab bucket_cnt buckets].
  destruct (init_buckets_spec 4 p h ∅) as (h' & E & HL & Hd); [by split|done|intros x Hx; by apply Hcell|done|].
  assert (clear_buckets 4 None p (HSt h (Hash 0 4 p) (user s)) = Ok (tt, HSt h' (Hash 0 4 p) (user s))) as Ec.
  { revert E. change (Z.to_nat 4) with 4%nat. cbn [clear_buckets init_buckets]. unfold on_heap, bind, get, ret. cbn [hp tab user rbind].
    repeat (destruct (list_init _ _) as [[[] ?]| | | |]; cbn [rbind hp tab user]; [|done..]). by intros [= ->]. }
  change (Z.to_nat 4) with 4%nat. mstep Ec. eexists true, _. split; [reflexivity|]. split; [done|]. intros _.
  assert (forall l, header p 4 l -> hp s !! l = None /\ hp s !! (l + TAIL_OFS) = None) as Hnone.
  { intros l Hl. split; apply Hcell, elem_bucket_cells; exists l; tauto. }
  exists (add_empty ∅ p 4). split; cbn [hp tab buckets bucket_cnt elem_cnt]; try done.
  - intros l [xs Hl]. destruct (decide (header p 4 l)) as [|Hn]; [done|]. by rewrite (add_empty_out ∅ p 4 l Hn) in Hl.
  - split; [by exists 2|intros l Hl; rewrite (add_empty_in ∅ p 4 l Hl); eauto|]. intros i x Hi Hx. unfold bucket in Hx.
    rewrite (add_empty_in ∅ p 4) in Hx by (by exists i). by apply elem_of_nil in Hx.
  - rewrite elements_empty. change (Z.to_nat 4) with 4%nat. rewrite elems_nil; [done|]. intros l Hl. by apply (add_empty_in ∅ p 4).
  - intros x Hx. destruct (HC x Hx) as [X1 X2]. split; [done|]. apply elem_of_dom. rewrite Hd. apply elem_of_dom. by rewrite Hsame.
  - intros l Hl. destruct (Hnone l Hl) as [N1 N2]. split; intros Hx; apply HC in Hx as [_ [? ?]]; congruence.
Qed.

(** *** Iteration *)

(** An action on the user's state only. *)
Definition acts (action : Z -> M hst unit) (act : U -> Z -> U) : Prop :=
  forall e s, action e s = Ok (tt, HSt (hp s) (tab s) (act (user s) e)).

Lemma apply_elems_spec action act ys : acts action act -> forall fuel (s : hst) P t Q,
  dll (hp s) (P ++ ys ++ t :: Q) -> t ∉ ys -> P <> [] -> (length ys <= fuel)%nat ->
  apply_elems fuel action (first ys t) t s = Ok (tt, HSt (hp s) (tab s) (foldl act (user s) ys)).
Proof using Type.
  intros A. induction ys as [|y ys IH]; intros fuel s P t Q Hd Ht HP Hf.
  - destruct fuel; cbn [apply_elems]; rewrite first_eq_tail by done; by destruct s.
  - destruct fuel as [|fuel]; [cbn in Hf; lia|]. cbn [apply_elems]. rewrite first_eq_tail by done.
    change (first (y :: ys) t) with y. mstep (on_heap_read (list_next y) s _ (list_next_first (hp s) P y ys t Q Hd)). mstep (A y s).
    rewrite (IH fuel (HSt (hp s) (tab s) (act (user s) y)) (P ++ [y]) t Q); [done|cbn [hp]; by rewrite <- app_assoc|intros ?; apply Ht; by right|by destruct P|cbn in Hf; lia].
Qed.

Lemma apply_buckets_spec action act m : acts action act -> forall (s : hst) F b,
  Lists (hp s) F -> (forall l, header b (Z.of_nat m) l -> is_Some (F !! l)) ->
  apply_buckets m action b s = Ok (tt, HSt (hp s) (tab s) (foldl act (user s) (elems F b m))).
Proof using Type.
  intros A. induction m as [|m IH]; intros s F b HL Hs; cbn [apply_buckets elems]; [by destruct s|].
  destruct (Hs b) as [xs Hxs]; [apply header_nat_S; by left|]. pose proof (ls_list _ _ HL _ _ Hxs) as Hil.
  mnorm. mstep (on_heap_read _ s _ (list_begin_run _ _ _ Hil)). mstep (on_heap_read _ s _ (list_end_run _ _ _ Hil)).
  pose proof (apply_elems_spec action act xs A (fuel_of (hp s)) s [b] (b + TAIL_OFS) []) as E.
  rewrite (bind_ok _ _ _ _ _ (E Hil (proj1 (is_list_tail_fresh _ _ _ Hil)) ltac:(done) ltac:(unfold fuel_of; pose proof (is_list_length _ _ _ Hil); lia))).
  erewrite (IH (HSt (hp s) (tab s) (foldl act (user s) xs)) F (b + LIST_SIZE)); [|done|intros l Hl; apply Hs, header_nat_S; by right].
  cbn [hp tab user]. unfold bucket. rewrite Hxs. cbn [default]. by rewrite foldl_app.
Qed.

(** The iterator stands on a cell; [rest] are the elements still to come,
    [b] and [e] the ends of the array. *)
Definition cursor (F : gmap Z (list Z)) (b e : Z) (i : hash_iterator) (rest : list Z) : Prop :=
  b <= it_bucket i /\
  exists xs pre ys m, F !! it_bucket i = Some xs /\ it_bucket i :: xs = pre ++ it_elem i :: ys /\
    rest = ys ++ elems F (it_bucket i + LIST_SIZE) m /\ it_bucket i + LIST_SIZE * (Z.of_nat m + 1) = e /\
    (forall l, header (it_bucket i + LIST_SIZE) (Z.of_nat m) l -> is_Some (F !! l)).

Lemma next_loop_spec (s : hst) F m : forall fuel l xs pre ys,
  Lists (hp s) F -> F !! l = Some xs -> l :: xs = pre ++ ys -> pre <> [] -> buckets (tab s) <= l ->
  l + LIST_SIZE * (Z.of_nat m + 1) = buckets (tab s) + LIST_SIZE * bucket_cnt (tab s) ->
  (forall l', header (l + LIST_SIZE) (Z.of_nat m) l' -> is_Some (F !! l')) -> (m < fuel)%nat ->
  exists i', next_loop fuel (HashIterator l (first ys (l + TAIL_OFS))) s = Ok (i', s) /\
    match ys ++ elems F (l + LIST_SIZE) m with
    | [] => it_elem i' = NULL
    | y :: rest => it_elem i' = y /\ cursor F (buckets (tab s)) (buckets (tab s) + LIST_SIZE * bucket_cnt (tab s)) i' rest
    end.
Proof using Type.
  induction m as [|m IH]; intros fuel l xs pre ys HL Hl Ex Hpre Hb Hend Hs Hf; (destruct fuel as [|fuel]; [lia|]);
    pose proof (ls_list _ _ HL _ _ Hl) as Hil; cbn [next_loop it_bucket it_elem];
    mstep (on_heap_read _ s _ (list_end_run _ _ _ Hil));
    (rewrite first_eq_tail; [|destruct (is_list_tail_fresh _ _ _ Hil) as [N1 N2]; intros Hin;
      assert (l + TAIL_OFS ∈ l :: xs) as [E|?]%elem_of_cons by (rewrite Ex; apply elem_of_app; by right); [unfold TAIL_OFS in E; lia|done]]).
  1, 2: destruct ys as [|y ys].
  - mnorm. rewrite (proj2 (Z.leb_le _ _)) by lia. eexists. split; [reflexivity|]. done.
  - eexists. split; [reflexivity|]. cbn. split; [done|]. split; [done|]. by exists xs, pre, ys, 0%nat.
  - mnorm. destruct (Z.leb_spec (buckets (tab s) + LIST_SIZE * bucket_cnt (tab s)) (l + LIST_SIZE)); [unfold LIST_SIZE in *; lia|].
    destruct (Hs (l + LIST_SIZE)) as [zs Hzs]; [apply header_nat_S; by left|].
    mstep (on_heap_read _ s _ (list_begin_run _ _ _ (ls_list _ _ HL _ _ Hzs))).
    destruct (IH fuel (l + LIST_SIZE) zs [l + LIST_SIZE] zs HL Hzs) as (i' & E & Hi'); [done|done|unfold LIST_SIZE in *; lia|unfold LIST_SIZE in *; lia| |lia|].
    { intros l' Hl'. apply Hs, header_nat_S. by right. }
    exists i'. split; [exact E|]. cbn [app elems]. unfold bucket. rewrite Hzs. exact Hi'.
  - eexists. split; [reflexivity|]. cbn [app it_elem]. split; [done|]. split; [done|]. by exists xs, pre, ys, (S m).
Qed.

Lemma hash_next_spec (s : hst) F i rest :
  Lists (hp s) F -> cursor F (buckets (tab s)) (buckets (tab s) + LIST_SIZE * bucket_cnt (tab s)) i rest ->
  exists i', hash_next i s = Ok ((it_elem i', i'), s) /\
    match rest with
    | [] => it_elem i' = NULL
    | y :: rest => it_elem i' = y /\ cursor F (buckets (tab s)) (buckets (tab s) + LIST_SIZE * bucket_cnt (tab s)) i' rest
    end.
Proof using Type.
  intros HL (Hb & xs & pre & ys & m & Hl & Ex & -> & Hend & Hs). pose proof (ls_list _ _ HL _ _ Hl) as Hil. unfold hash_next.
  assert (list_next (it_elem i) (hp s) = Ok (first ys (it_bucket i + TAIL_OFS), hp s)) as En.
  { apply (list_next_first (hp s) pre (it_elem i) ys (it_bucket i + TAIL_OFS) []). unfold is_list in Hil.
    by rewrite app_comm_cons, Ex, <- app_assoc in Hil. }
  mstep (on_heap_read _ s _ En).
  destruct (next_loop_spec s F m (Z.to_nat (bucket_cnt (tab s))) (it_bucket i) xs (pre ++ [it_elem i]) ys) as (i' & E & Hi'); try done.
  { by rewrite <- app_assoc. }
  { by destruct pre. }
  { unfold LIST_SIZE in *. lia. }
  mstep E. exists i'. split; [reflexivity|]. exact Hi'.
Qed.

Lemma iterate_spec (s : hst) F rest : forall fuel i,
  Lists (hp s) F -> cursor F (buckets (tab s)) (buckets (tab s) + LIST_SIZE * bucket_cnt (tab s)) i rest ->
  (forall y, y ∈ rest -> y <> NULL) -> (length rest < fuel)%nat -> iterate fuel i s = Ok (rest, s).
Proof using Type.
  induction rest as [|y rest IH]; intros fuel i HL Hc Hn Hf; (destruct fuel as [|fuel]; [lia|]); cbn [iterate];
    destruct (hash_next_spec s F i _ HL Hc) as (i' & E & Hi'); mstep E; cbn [fst snd].
  - by rewrite Hi'.
  - destruct Hi' as [Ei Hc']. rewrite Ei. destruct (Z.eqb_spec y NULL) as [->|_]; [exfalso; by apply (Hn NULL); [left|]|].
    assert (iterate fuel i' s = Ok (rest, s)) as Er by (apply IH; [done|done|intros z Hz; apply Hn; by right|cbn in Hf; lia]).
    mstep Er. unfold hash_cur. by rewrite Ei.
Qed.

Lemma first_cursor (s : hst) C X F : hash_rep s C X F ->
  exists i, hash_first s = Ok (i, s) /\
    cursor F (buckets (tab s)) (buckets (tab s) + LIST_SIZE * bucket_cnt (tab s)) i
      (elems F (buckets (tab s)) (Z.to_nat (bucket_cnt (tab s)))).
Proof.
  intros R. pose proof (h_pos _ _ _ _ R) as Hb. destruct (b_pow _ _ _ (h_ok _ _ _ _ R)) as (k & Hk & Ek). pose proof (pow2_pos k Hk).
  exists (HashIterator (buckets (tab s)) (buckets (tab s))). split.
  - unfold hash_first. mnorm. erewrite bind_ok; [reflexivity|]. apply on_heap_read. unfold list_head.
    destruct (Z.eqb_spec (buckets (tab s)) NULL) as [E|]; [unfold NULL in E; lia|done].
  - destruct (Z.to_nat (bucket_cnt (tab s))) as [|m] eqn:Em; [lia|]. split; [done|].
    assert (header (buckets (tab s)) (bucket_cnt (tab s)) (buckets (tab s))) as Hh by (exists 0; unfold bucket_at, LIST_SIZE; lia).
    destruct (b_some _ _ _ (h_ok _ _ _ _ R) _ Hh) as [xs Hxs]. cbn [it_bucket it_elem]. exists xs, [], xs, m. split_and!; [done|done| |lia|].
    + cbn [elems]. unfold bucket. by rewrite Hxs.
    + intros l Hl. apply (b_some _ _ _ (h_ok _ _ _ _ R)). replace (bucket_cnt (tab s)) with (Z.of_nat (S m)) by lia.
      apply header_nat_S. by right.
Qed.

(** ** The abstract table: a set of elements *)

Inductive hop : Type :=
  | HInsert (e : Z) | HReplace (e : Z) | HFind (e : Z) | HDelete (e : Z) | HSize | HEmpty | HClear.

(** The element of the set equal to [e]. *)
Definition sfind (X : gset Z) (e : Z) : Z := default NULL (head (List.filter (fun x => eqv x e) (elements X))).

Definition spec_hop (o : hop) (X : gset Z) : Z * gset Z :=
  match o with
  | HInsert e => let r := sfind X e in (r, if r =? NULL then {[ e ]} ∪ X else X)
  | HReplace e => let r := sfind X e in (r, {[ e ]} ∪ X ∖ {[ r ]})
  | HFind e => (sfind X e, X)
  | HDelete e => let r := sfind X e in (r, X ∖ {[ r ]})
  | HSize => (Z.of_nat (size X), X)
  | HEmpty => (if decide (X = ∅) then 1 else 0, X)
  | HClear => (0, ∅)
  end.

Definition impl_hop (o : hop) : M hst Z :=
  match o with
  | HInsert e => hash_insert hash_fn less malloc junk e
  | HReplace e => hash_replace hash_fn less malloc junk e
  | HFind e => hash_find hash_fn less e
  | HDelete e => hash_delete hash_fn less malloc junk e
  | HSize => hash_size
  | HEmpty => b ← hash_empty; ret (if b then 1 else 0)
  | HClear => hash_clear None;; ret 0
  end.

(** The clients may insert the elements they own. *)
Definition hop_pre (C : gset Z) (o : hop) : Prop :=
  match o with HInsert e | HReplace e => e ∈ C | _ => True end.

Lemma is_find_sfind s C X e r : hash_ok s C X -> is_find X e r -> r = sfind X e.
Proof.
  intros [F R] Hr. unfold sfind. pose proof (head_filter (fun x => eqv x e) (elements X)) as Hf.
  destruct (head _) as [x|]; cbn; destruct Hr as [[-> Hn]|(H0 & Hr & He)].
  - destruct Hf as [Hx%elem_of_elements He]. by rewrite Hn in He.
  - destruct Hf as [Hx%elem_of_elements He']. apply (h_uniq _ _ _ _ R); [done|done|].
    apply (eqv_trans less r e x He). by rewrite eqv_sym.
  - done.
  - rewrite Hf in He; [done|by apply elem_of_elements].
Qed.

Lemma hash_find_run (s : hst) C X e : hash_ok s C X ->
  find_elem less (bucket_at (buckets (tab s)) (idx (bucket_cnt (tab s)) e)) e s = Ok (sfind X e, s) /\ is_find X e (sfind X e).
Proof.
  intros H. destruct (find_spec s C X e H) as (r & E & Hr). pose proof (is_find_sfind s C X e r H Hr). by subst r.
Qed.

Lemma null_not_in (s : hst) C X : hash_ok s C X -> NULL ∉ X.
Proof. intros [F R] H. apply (h_sub _ _ _ _ R), (h_own _ _ _ _ R) in H as [H _]. done. Qed.

Lemma uniq_others (s : hst) C X e r : hash_ok s C X -> is_find X e r -> forall x, x ∈ X ∖ {[ r ]} -> eqv x e = false.
Proof.
  intros [F R] Hr x [Hx Hne]%elem_of_difference. destruct (eqv x e) eqn:E; [|done]. exfalso. destruct Hr as [[-> Hn]|(_ & Hr & He)].
  - by rewrite Hn in E.
  - apply Hne, elem_of_singleton. apply (h_uniq _ _ _ _ R); [done|done|]. apply (eqv_trans less x e r E). by rewrite eqv_sym.
Qed.

Lemma hop_refines (s : hst) C X o :
  hash_ok s C X -> hop_pre C o ->
  exists s', impl_hop o s = Ok ((spec_hop o X).1, s') /\ hash_ok s' C (spec_hop o X).2.
Proof.
  intros H Hp. pose proof (null_not_in _ _ _ H) as HN. destruct o as [e|e|e|e| | |]; cbn [impl_hop spec_hop fst snd].
  1-4: destruct (hash_find_run s C X e H) as [Ef Hf].
  - unfold hash_insert. mstep (find_bucket_run s e). mstep Ef. destruct (Z.eqb_spec (sfind X e) NULL) as [E0|Hne].
    + destruct (insert_spec s C X e H Hp) as (s1 & E1 & H1 & _); [by destruct Hf as [[_ ?]|[? _]]|]. mstep E1.
      destruct (rehash_spec s1 _ _ H1) as (s2 & E2 & H2 & _). mstep E2. by exists s2.
    + mnorm. destruct (rehash_spec s _ _ H) as (s2 & E2 & H2 & _). mstep E2. by exists s2.
  - unfold hash_replace. mstep (find_bucket_run s e). mstep Ef. pose proof (uniq_others _ _ _ _ _ H Hf) as Hu.
    assert (exists s1, (if negb (sfind X e =? NULL) then remove_elem (sfind X e) else ret tt) s = Ok (tt, s1) /\
      hash_ok s1 C (X ∖ {[ sfind X e ]}) /\ buckets (tab s1) = buckets (tab s) /\ bucket_cnt (tab s1) = bucket_cnt (tab s)) as (s1 & E1 & H1 & B1 & B2).
    { destruct (Z.eqb_spec (sfind X e) NULL) as [E0|Hne]; cbn [negb].
      - exists s. rewrite E0. split_and!; [done| |done|done]. by rewrite difference_disjoint_L by set_solver.
      - destruct Hf as [[? _]|(_ & Hm & _)]; [done|]. destruct (remove_spec s C X _ H Hm) as (s1 & ? & ? & _ & ? & ?). eauto. }
    mstep E1. rewrite <- B1, <- B2. destruct (insert_spec s1 C _ e H1 Hp Hu) as (s2 & E2 & H2 & _). mstep E2.
    destruct (rehash_spec s2 _ _ H2) as (s3 & E3 & H3 & _). mstep E3. by exists s3.
  - exists s. split; [|done]. unfold hash_find. mstep (find_bucket_run s e). exact Ef.
  - unfold hash_delete. mstep (find_bucket_run s e). mstep Ef. destruct (Z.eqb_spec (sfind X e) NULL) as [E0|Hne]; cbn [negb].
    + exists s. split; [done|]. rewrite E0. by rewrite difference_disjoint_L by set_solver.
    + destruct Hf as [[? _]|(_ & Hm & _)]; [done|]. destruct (remove_spec s C X _ H Hm) as (s1 & E1 & H1 & _). rewrite bind_bind. mstep E1.
      destruct (rehash_spec s1 _ _ H1) as (s2 & E2 & H2 & _). mstep E2. by exists s2.
  - exists s. split; [|done]. unfold hash_size. mnorm. destruct H as [F R]. by rewrite (h_size _ _ _ _ R).
  - exists s. split; [|done]. unfold hash_empty. mnorm. destruct H as [F R]. rewrite (h_size _ _ _ _ R).
    destruct (decide (X = ∅)) as [->|Hne]; [by rewrite size_empty|].
    destruct (Z.eqb_spec (Z.of_nat (size X)) 0) as [E0|]; [|done]. exfalso. apply Hne, leibniz_equiv, size_empty_inv. lia.
  - destruct (clear_spec None s C X I H) as (s1 & E1 & H1). mstep E1. by exists s1.
Qed.

Fixpoint impl_hops (os : list hop) : M hst (list Z) :=
  match os with [] => ret [] | o :: os => r ← impl_hop o; rs ← impl_hops os; ret (r :: rs) end.
Fixpoint spec_hops (os : list hop) (X : gset Z) : list Z * gset Z :=
  match os with
  | [] => ([], X)
  | o :: os => let '(r, X) := spec_hop o X in let '(rs, X) := spec_hops os X in (r :: rs, X)
  end.

Lemma hops_refine os : forall (s : hst) C X,
  hash_ok s C X -> Forall (hop_pre C) os ->
  exists s', impl_hops os s = Ok ((spec_hops os X).1, s') /\ hash_ok s' C (spec_hops os X).2.
Proof.
  induction os as [|o os IH]; intros s C X H Hp; cbn [impl_hops spec_hops]; [by exists s|].
  apply Forall_cons in Hp as [Hp1 Hp2]. destruct (hop_refines s C X o H Hp1) as (s1 & E1 & H1). mstep E1.
  destruct (spec_hop o X) as [r X1]. cbn [fst snd] in *. destruct (IH s1 C X1 H1 Hp2) as (s2 & E2 & H2). mstep E2.
  destruct (spec_hops os X1) as [rs X2]. by exists s2.
Qed.

(** ** Properties *)

(** C34: A hash table is a set of elements that are pairwise different under
    the client's order.  From [hash_init] on, every sequence of insertions,
    replacements, searches, deletions, size queries and clearings returns what
    the operations on the set return and leaves the table representing that
    set, with no failed assertion and no access outside the lists, through every
    rehash, also when memory for the new buckets is not available. *)
Theorem hash_refines_set (s : hst) C os :
  (forall x, x ∈ C -> x <> NULL /\ is_Some (hp s !! x)) -> Z.of_nat (size C) < 2 ^ 58 ->
  Forall (hop_pre C) os ->
  exists b s0, hash_init malloc junk s = Ok (b, s0) /\ (malloc (hp s) 128 <> NULL -> b = true) /\
    (b = true -> exists s', impl_hops os s0 = Ok ((spec_hops os ∅).1, s') /\ hash_ok s' C (spec_hops os ∅).2).
Proof.
  intros HC Hr Hp. destruct (init_spec s C HC Hr) as (b & s0 & E & Hb & Hok). exists b, s0. split_and!; [done|done|].
  intros Et. by apply hops_refine, Hp; apply Hok.
Qed.

(** Iteration and [hash_apply] reach every element of the table exactly
    once: the idiom [hash_first], [hash_next] until it returns null, [hash_cur]
    yields a permutation of the elements and changes nothing, and [hash_apply]
    performs its action on the same elements in the same order. *)
Theorem hash_iteration_complete (s : hst) C X action act :
  hash_ok s C X -> acts action act ->
  exists L, L ≡ₚ elements X /\
    (i ← hash_first; iterate (S (size X)) i) s = Ok (L, s) /\
    hash_apply action s = Ok (tt, HSt (hp s) (tab s) (foldl act (user s) L)).
Proof using Type.
  intros [F R] A. exists (elems F (buckets (tab s)) (Z.to_nat (bucket_cnt (tab s)))).
  pose proof (h_elems _ _ _ _ R) as HP. split; [done|]. split.
  - destruct (first_cursor s C X F R) as (i & E & Hc). mstep E. apply (iterate_spec s F _ _ i (h_lists _ _ _ _ R) Hc).
    + intros y Hy. rewrite HP, elem_of_elements in Hy. by apply (h_own _ _ _ _ R), (h_sub _ _ _ _ R).
    + rewrite (Permutation_length HP). change (length (elements X)) with (size X). lia.
  - unfold hash_apply. mnorm. destruct (b_pow _ _ _ (h_ok _ _ _ _ R)) as (k & Hk & Ek). pose proof (pow2_pos k Hk).
    apply (apply_buckets_spec action act _ A s F _ (h_lists _ _ _ _ R)). rewrite Z2Nat.id by lia. apply (b_some _ _ _ (h_ok _ _ _ _ R)).
Qed.

(** The target of [rehash] is balanced. *)
Lemma best_cnt_balanced (n : nat) : Z.of_nat n < 2 ^ 58 ->
  exists k, 2 <= k < 58 /\ best_cnt (Z.of_nat n) = 2 ^ k /\
    Z.of_nat n < 4 * 2 ^ k /\ (k = 2 \/ 2 * 2 ^ k <= Z.of_nat n).
Proof.
  clear. intros Hn. unfold best_cnt. set (z := Z.of_nat n) in *. pose proof (Z.log2_spec (Z.max 4 (z / 2)) ltac:(lia)) as Hl.
  pose proof (Z.log2_le_mono 4 (Z.max 4 (z / 2)) ltac:(lia)) as H4. change (Z.log2 4) with 2 in H4.
  exists (Z.log2 (Z.max 4 (z / 2))). split_and!; [lia| |done| |].
  - apply Z.log2_lt_pow2; [lia|]. apply Z.max_lub_lt; [by vm_compute|]. apply Z.div_lt_upper_bound; lia.
  - rewrite Z.pow_succ_r in Hl by lia. pose proof (Z.div_mod z 2 ltac:(lia)). pose proof (Z.mod_pos_bound z 2 ltac:(lia)). lia.
  - destruct (Z.le_gt_cases (z / 2) 4).
    + left. by rewrite Z.max_l by lia.
    + right. pose proof (Z.mul_div_le z 2 ltac:(lia)). lia.
Qed.

(** C35: [rehash] always returns, on every well formed table and for every
    allocator, one that fails included: the loop that clears low bits ends
    within 64 rounds.  The table still holds the same set.  The number of
    buckets it aims at is a power of two, at least four, with fewer than four
    elements per bucket on average, and, above the minimum of four buckets, at
    least two; the table has that many buckets afterwards, unless [malloc] has
    no memory for them, and then nothing has changed. *)
Theorem rehash_terminates_balanced (s : hst) C X :
  hash_ok s C X ->
  exists s', rehash hash_fn malloc junk s = Ok (tt, s') /\ hash_ok s' C X /\ user s' = user s /\
    exists k, 2 <= k /\ Z.of_nat (size X) < 4 * 2 ^ k /\ (k = 2 \/ 2 * 2 ^ k <= Z.of_nat (size X)) /\
      (bucket_cnt (tab s') = 2 ^ k \/ s' = s /\ malloc (hp s) (LIST_SIZE * 2 ^ k) = NULL).
Proof.
  intros H. destruct (rehash_spec s C X H) as (s' & E & H' & Hu & _ & Hb). exists s'. split_and!; [done|done|done|].
  destruct H as [F R]. pose proof (hash_size_bound _ _ _ _ R) as Hs. rewrite (h_size _ _ _ _ R) in Hb, Hs.
  destruct (best_cnt_balanced (size X)) as (k & Hk & Ek & H1 & H2); [apply Hs|]. exists k. split_and!; [lia|done|done|].
  rewrite Ek in Hb. destruct Hb as [?|[? Hn]]; [by left|right]. split; [done|].
  pose proof (pow2_pos k ltac:(lia)). pose proof (Z.pow_lt_mono_r 2 k 58 ltac:(lia) ltac:(lia) ltac:(lia)).
  rewrite wrapu_id in Hn; [done|]. unfold LIST_SIZE. split; lia.
Qed.
End Spec.

(** ** Hash functions *)

Definition fnv (bs : list Z) : Z := foldl (fun h b => Z.lxor (u64 (h * FNV_64_PRIME)) b) FNV_64_BASIS bs.

Lemma hash_bytes_loop_spec m bs : forall a h, bytes_at m a bs ->
  hash_bytes_loop (length bs) a h m = Ok (foldl (fun h b => Z.lxor (u64 (h * FNV_64_PRIME)) b) h bs, m).
Proof.
  induction bs as [|b bs IH]; intros a h H; cbn [length hash_bytes_loop foldl]; [done|].
  apply bytes_at_cons in H as [Hb H]. mstep (CString.load_run m a b Hb). by apply IH.
Qed.

Lemma hash_string_loop_spec m bs : forall fuel a h, cstr m a bs -> (length bs < fuel)%nat ->
  hash_string_loop fuel a h m = Ok (foldl (fun h b => Z.lxor (u64 (h * FNV_64_PRIME)) b) h bs, m).
Proof.
  induction bs as [|b bs IH]; intros fuel a h H Hf; (destruct fuel as [|fuel]; [lia|]); cbn [hash_string_loop foldl].
  - by mstep (CString.load_run m a 0 (cstr_nil _ _ H)).
  - apply cstr_cons in H as (Hr & Hb & H). mstep (CString.load_run m a b Hb). destruct (Z.eqb_spec b 0); [lia|]. apply IH; [done|cbn in Hf; lia].
Qed.

Lemma lxor_u64 a b : is_u64 a -> 0 <= b < 256 -> is_u64 (Z.lxor a b).
Proof.
  intros Ha Hb. assert (0 <= Z.lxor a b) as Hx by (apply Z.lxor_nonneg; unfold is_u in Ha; lia). split; [done|].
  destruct (Z.eq_dec (Z.lxor a b) 0) as [->|]; [done|]. apply Z.log2_lt_pow2; [lia|].
  eapply Z.le_lt_trans; [apply Z.log2_lxor; unfold is_u in Ha; lia|]. apply Z.max_lub_lt.
  - destruct (Z.eq_dec a 0) as [->|]; [done|]. apply Z.log2_lt_pow2; unfold is_u in Ha; lia.
  - destruct (Z.eq_dec b 0) as [->|]; [done|]. apply Z.log2_lt_pow2; lia.
Qed.

Lemma fnv_range bs : Forall (fun b => 0 <= b < 256) bs -> is_u64 (fnv bs).
Proof.
  unfold fnv. assert (is_u64 FNV_64_BASIS) as Hh by (split; by vm_compute). revert Hh. generalize FNV_64_BASIS as h.
  induction bs as [|b bs IH]; intros h Hh Hf; cbn [foldl]; [done|]. apply Forall_cons in Hf as [Hb Hf].
  apply IH; [|done]. apply lxor_u64; [by apply wrapu_range|done].
Qed.

(** The hash functions agree: [hash_string] of a string is [hash_bytes] of
    its characters without the terminator, and [hash_int] is [hash_bytes] of
    the four bytes of the integer; all of them compute the Fowler-Noll-Vo
    fold in 64-bit arithmetic and read only the bytes they are given. *)
Theorem hash_functions_agree fuel m s l slot i :
  cstr m s l -> (length l < fuel)%nat -> 0 < slot ->
  hash_string fuel s m = Ok (fnv l, m) /\ hash_bytes s (Z.of_nat (length l)) m = Ok (fnv l, m) /\ is_u64 (fnv l) /\
  exists m', hash_int slot i m = Ok (fnv (word_bytes 4 (u32 i)), m') /\ (forall x, inside slot 4 x = false -> m' x = m x) /\
    hash_bytes slot 4 m' = Ok (fnv (word_bytes 4 (u32 i)), m').
Proof.
  intros Hs Hf Hl. pose proof Hs as (H0 & Hr & Hb). assert (hash_bytes s (Z.of_nat (length l)) m = Ok (fnv l, m)) as Eb.
  { unfold hash_bytes. rewrite (nonnull s H0). mnorm. rewrite Nat2Z.id. apply hash_bytes_loop_spec. by apply bytes_at_app in Hb as [? _]. }
  split_and!; [|done| |].
  - unfold hash_string. rewrite (nonnull s H0). mnorm. by apply hash_string_loop_spec.
  - apply fnv_range. eapply Forall_impl; [exact Hr|]. cbn. lia.
  - set (bs := word_bytes 4 (u32 i)). exists (write_bytes m slot bs).
    assert (hash_bytes slot 4 (write_bytes m slot bs) = Ok (fnv bs, write_bytes m slot bs)) as E.
    { unfold hash_bytes. rewrite (nonnull slot Hl). mnorm. change (Z.to_nat 4) with (length bs). apply hash_bytes_loop_spec, write_bytes_at. }
    split_and!; [|intros x Hx|exact E].
    + unfold hash_int. mnorm. exact E.
    + unfold write_bytes. change (length bs) with 4%nat. by rewrite Hx.
Qed.

(** ** Witnesses *)

(** Ten elements, equal when their addresses agree modulo 1000. *)
Definition demo_owned : gset Z := list_to_set [1016; 1032; 1048; 2016; 2032; 3016; 3032; 3048; 3064; 3080].
Definition demo_hash (e : Z) : Z := e mod 1000.
Definition demo_order (a b : Z) : bool := a mod 1000 <? b mod 1000.
(** An allocator that returns memory above everything in use. *)
Definition demo_malloc (h : heap) (n : Z) : Z := 10000 + foldr Z.max 0 (map_to_list h).*1.
Definition demo_junk (a : Z) : list_elem := mkElem 5 5.
Definition demo_cells : heap := set_to_map (fun x => (x, mkElem 7 7)) demo_owned.
Definition demo_start : @hst (list Z) := HSt demo_cells (Hash 0 0 0) [].

#[export] Instance demo_client : HashClient demo_hash demo_order.
Proof.
  split; [split|]; unfold demo_order, demo_hash, KListSort.eqv.
  - intros a b ?%Z.ltb_lt. apply Z.ltb_ge. unfold demo_order in *. lia.
  - intros a b c ?%Z.ltb_ge ?%Z.ltb_ge. apply Z.ltb_ge. lia.
  - intros a b [?%negb_true_iff%Z.ltb_ge ?%negb_true_iff%Z.ltb_ge]%andb_true_iff. lia.
Qed.

Lemma foldr_max_ge x (l : list Z) : x ∈ l -> x <= foldr Z.max 0 l.
Proof. induction 1; cbn; lia. Qed.

#[export] Instance demo_allocator : Allocator demo_malloc.
Proof.
  split. intros h n _. unfold demo_malloc. assert (0 <= foldr Z.max 0 (map_to_list h).*1) as H0 by (induction (map_to_list h); cbn; lia).
  split; [lia|]. intros x Hx. destruct (h !! x) as [e|] eqn:E; [|done]. exfalso.
  assert (x ∈ (map_to_list h).*1) as Hin%foldr_max_ge; [|lia].
  apply list_elem_of_fmap. exists (x, e). split; [done|]. by apply elem_of_map_to_list.
Qed.

Lemma demo_owned_ok : forall x, x ∈ demo_owned -> x <> NULL /\ is_Some (hp demo_start !! x).
Proof.
  intros x Hx. split.
  - intros ->. revert Hx. change (NULL ∉ demo_owned). by_eval.
  - exists (mkElem 7 7). cbn [hp demo_start]. apply (lookup_set_to_map (fun x => (x, mkElem 7 7))); [done|]. by exists x.
Qed.

Definition demo_ops : list hop :=
  [HInsert 1016; HInsert 1032; HInsert 2016; HInsert 3048; HReplace 3032; HFind 5048; HDelete 7; HDelete 16; HSize].

Lemma hash_refines_set_witness :
  exists b s0, hash_init demo_malloc demo_junk demo_start = Ok (b, s0) /\
    exists s', impl_hops demo_hash demo_order demo_malloc demo_junk demo_ops s0 = Ok ([0; 0; 1016; 0; 1032; 3048; 0; 1016; 2], s').
Proof.
  destruct (hash_refines_set demo_hash demo_order demo_malloc demo_junk demo_start demo_owned demo_ops demo_owned_ok) as (b & s0 & E & Hb & H).
  - vm_compute. reflexivity.
  - repeat constructor; by_eval.
  - exists b, s0. split; [exact E|]. destruct (H (Hb ltac:(vm_compute; discriminate))) as (s' & Es & _). exists s'. rewrite Es.
    assert ((spec_hops demo_order demo_ops ∅).1 = [0; 0; 1016; 0; 1032; 3048; 0; 1016; 2]) as -> by (vm_compute; reflexivity). reflexivity.
Defined.

(** A table with three elements. *)
Lemma demo_table : exists s : @hst (list Z), hash_ok demo_hash demo_order s demo_owned {[ 1016; 1032; 3048 ]}.
Proof.
  destruct (init_spec demo_hash demo_order demo_malloc demo_junk demo_start demo_owned demo_owned_ok) as (b & s0 & E & Hb & H); [by vm_compute|].
  destruct (hops_refine demo_hash demo_order demo_malloc demo_junk [HInsert 3048; HInsert 1032; HInsert 1016] s0 demo_owned ∅) as (s' & _ & H').
  - apply H, Hb. vm_compute. discriminate.
  - repeat constructor; by_eval.
  - exists s'. assert ((spec_hops demo_order [HInsert 3048; HInsert 1032; HInsert 1016] ∅).2 = {[ 1016; 1032; 3048 ]}) as E2 by by_eval.
    by rewrite E2 in H'.
Qed.

(** The action that counts the elements and adds up their addresses. *)
Definition demo_act (u : list Z) (e : Z) : list Z := e :: u.
Definition demo_action (e : Z) : M (@hst (list Z)) unit := modify (fun s => HSt (hp s) (tab s) (demo_act (user s) e)).

Lemma hash_iteration_complete_witness : exists (s : @hst (list Z)) L, L ≡ₚ [1016; 1032; 3048] /\
  (i ← hash_first; iterate 4 i) s = Ok (L, s) /\
  hash_apply demo_action s = Ok (tt, HSt (hp s) (tab s) (foldl demo_act (user s) L)).
Proof.
  destruct demo_table as [s H].
  destruct (hash_iteration_complete demo_hash demo_order s demo_owned _ demo_action demo_act H) as (L & HL & E1 & E2); [done|].
  exists s, L. split; [|split; [exact E1|exact E2]]. rewrite HL. by_eval.
Defined.

Lemma rehash_terminates_balanced_witness : exists (s s' : @hst (list Z)),
  rehash demo_hash demo_malloc demo_junk s = Ok (tt, s') /\ bucket_cnt (tab s') = 4.
Proof.
  destruct demo_table as [s H]. exists s.
  destruct (rehash_terminates_balanced demo_hash demo_order demo_malloc demo_junk s demo_owned _ H)
    as (s' & E & _ & _ & k & Hk & H1 & H2 & [Eb|[_ Hm]]).
  - exists s'. split; [exact E|]. rewrite Eb. assert (size ({[ 1016; 1032; 3048 ]} : gset Z) = 3%nat) as Es by (vm_compute; reflexivity).
    rewrite Es in H2. destruct H2 as [->|H2]; [reflexivity|]. pose proof (Z.pow_le_mono_r 2 2 k ltac:(lia) Hk). lia.
  - exfalso. revert Hm. unfold demo_malloc, NULL.
    assert (0 <= foldr Z.max 0 (map_to_list (hp s)).*1) by (clear; induction (map_to_list (hp s)); cbn; lia). lia.
Defined.

Lemma hash_functions_agree_witness : exists h, hash_string 10 10 demo_strings = Ok (h, demo_strings) /\
  hash_bytes 10 3 demo_strings = Ok (h, demo_strings) /\ h = 0xd8dcca186bafadcb.
Proof.
  destruct (hash_functions_agree 10 demo_strings 10 [97; 98; 99] 500 7) as (E1 & E2 & _).
  - demo_cstr (@nil Z).
  - cbn. lia.
  - lia.
  - exists (fnv [97; 98; 99]). split; [exact E1|]. split; [exact E2|]. vm_compute. reflexivity.
Defined.
