(* ===== verification/Palloc.v ===== *)
(** * The page allocator (threads/palloc.c, include/threads/vaddr.h)

    Two pools of pages, each with a bitmap of the pages in use.  The state is
    the two pools and the byte memory they manage; a call that finds a pool's
    lock taken would have to wait and is [Block].  The memory map that the
    boot loader leaves behind is an argument of [palloc_init]. *)

From S2P Require Import Prelude Bitmap CString.

(** ** Virtual addresses (include/threads/vaddr.h) *)

Definition PGBITS : Z := 12.
Definition PGSIZE : Z := 4096.
Definition PGMASK : Z := 4095.
Definition KERN_BASE : Z := 0x8004000000.
Definition pg_ofs (va : Z) : Z := Z.land va PGMASK.
Definition pg_no (va : Z) : Z := Z.shiftr va PGBITS.
Definition pg_round_up (va : Z) : Z := Z.land (u64 (va + PGSIZE - 1)) (u64 (Z.lnot PGMASK)).
Definition pg_round_down (va : Z) : Z := Z.land va (u64 (Z.lnot PGMASK)).
Definition is_kernel_vaddr (va : Z) : bool := KERN_BASE <=? va.
Definition is_user_vaddr (va : Z) : bool := negb (is_kernel_vaddr va).
Definition ptov (paddr : Z) : Z := u64 (paddr + KERN_BASE).
Definition vtop (va : Z) : result Z :=
  let! _ := rassert (is_kernel_vaddr va) in Ok (u64 (va - KERN_BASE)).

(** ** Data *)

(** [struct pool]; the lock is represented by whether it is taken. *)
Record pool := Pool { lock : bool; used_map : bitmap; base : Z }.
Record pstate := PState { kernel_pool : pool; user_pool : pool; ram : mem }.

(** Which of the two pools. *)
Inductive which := KERNEL | USER.
Definition the_pool (w : which) (s : pstate) : pool :=
  match w with KERNEL => kernel_pool s | USER => user_pool s end.
Definition set_pool (w : which) (p : pool) (s : pstate) : pstate :=
  match w with
  | KERNEL => PState p (user_pool s) (ram s)
  | USER => PState (kernel_pool s) p (ram s)
  end.
Definition set_map (w : which) (b : bitmap) (s : pstate) : pstate :=
  set_pool w (Pool (lock (the_pool w s)) b (base (the_pool w s))) s.

(** Calls of the components below. *)
Definition on_map {A} (w : which) (f : M bitmap A) : M pstate A := fun s =>
  let! (a, b) := f (used_map (the_pool w s)) in Ok (a, set_map w b s).
Definition on_ram {A} (f : M mem A) : M pstate A := fun s =>
  let! (a, m) := f (ram s) in Ok (a, PState (kernel_pool s) (user_pool s) m).
Definition lock_acquire (w : which) : M pstate unit := fun s =>
  let p := the_pool w s in
  if lock p then Block else Ok (tt, set_pool w (Pool true (used_map p) (base p)) s).
Definition lock_release (w : which) : M pstate unit := fun s =>
  let p := the_pool w s in
  if lock p then Ok (tt, set_pool w (Pool false (used_map p) (base p)) s) else Panic.

(** [enum palloc_flags]. *)
Definition PAL_ASSERT : Z := 1.
Definition PAL_ZERO : Z := 2.
Definition PAL_USER : Z := 4.
Definition has_flag (flags f : Z) : bool := negb (Z.land flags f =? 0).

(** ** Operations *)

Definition page_from_pool (p : pool) (page : Z) : bool :=
  let page_no := pg_no page in
  let start_page := pg_no (base p) in
  let end_page := u64 (start_page + bit_cnt (used_map p)) in
  (start_page <=? page_no) && (page_no <? end_page).

Definition palloc_get_multiple (flags page_cnt : Z) : M pstate Z :=
  let w := if has_flag flags PAL_USER then USER else KERNEL in
  lock_acquire w;;
  page_idx ← on_map w (bitmap_scan_and_flip 0 page_cnt false);
  lock_release w;;
  s ← get;
  let pages := if negb (page_idx =? BITMAP_ERROR)
               then u64 (base (the_pool w s) + PGSIZE * page_idx) else NULL in
  (if negb (pages =? NULL) then
     if has_flag flags PAL_ZERO
     then (on_ram (memset pages 0 (u64 (PGSIZE * page_cnt)));; ret tt) else ret tt
   else if has_flag flags PAL_ASSERT then lift Panic else ret tt);;
  ret pages.

Definition palloc_get_page (flags : Z) : M pstate Z := palloc_get_multiple flags 1.

Definition palloc_free_multiple (pages page_cnt : Z) : M pstate unit :=
  ASSERT (pg_ofs pages =? 0);;
  if (pages =? NULL) || (page_cnt =? 0) then ret tt
  else
    s ← get;
    w ← (if page_from_pool (kernel_pool s) pages then ret KERNEL
         else if page_from_pool (user_pool s) pages then ret USER
         else lift Panic);
    let page_idx := u64 (pg_no pages - pg_no (base (the_pool w s))) in
    on_ram (memset pages 0xcc (u64 (PGSIZE * page_cnt)));;
    all ← on_map w (bitmap_all page_idx page_cnt);
    ASSERT all;;
    on_map w (bitmap_set_multiple page_idx page_cnt false).

Definition palloc_free_page (page : Z) : M pstate unit := palloc_free_multiple page 1.

(** ** Boot *)

(** [struct e820_entry]. *)
Record e820_entry := E820 { mem_lo : Z; mem_hi : Z; len_lo : Z; len_hi : Z; type : Z }.
(** [struct area]. *)
Record area := Area { a_start : Z; a_end : Z; a_size : Z }.

Definition BASE_MEM_THRESHOLD : Z := 0x100000.
Definition APPEND_HILO (hi lo : Z) : Z := u64 (u64 (Z.shiftl hi 32) + lo).
Definition usable_type (e : e820_entry) : bool := (type e =? 3) || (type e =? 1).

Definition extend_area (a : area) (start size : Z) : area :=
  let end_ := u64 (start + size) in
  if a_size a =? 0 then Area start end_ size
  else Area (if start <? a_start a then start else a_start a)
            (if a_end a <? end_ then end_ else a_end a)
            (u64 (a_size a + size)).

Fixpoint resolve_area_info (entries : list e820_entry) (base_mem ext_mem : area) : area * area :=
  match entries with
  | [] => (base_mem, ext_mem)
  | entry :: entries =>
      if usable_type entry then
        let start := APPEND_HILO (mem_hi entry) (mem_lo entry) in
        let size := APPEND_HILO (len_hi entry) (len_lo entry) in
        if start <? BASE_MEM_THRESHOLD
        then resolve_area_info entries (extend_area base_mem start size) ext_mem
        else resolve_area_info entries base_mem (extend_area ext_mem start size)
      else resolve_area_info entries base_mem ext_mem
  end.

(** The 64-bit words at [a]. *)
Definition words_at (m : mem) (a : Z) (n : nat) : list Z :=
  (fun i => bytes_word ((fun j => u8 (default 0 (m (a + 8 * i + j)))) <$> seqZ 0 8)) <$> seqZ 0 (Z.of_nat n).

(** [init_pool]: the new pool and the new [*bm_base].  The words the bitmap's
    storage happens to contain are those of the memory there. *)
Definition init_pool (m : mem) (bm_base start end_ : Z) : result (pool * Z) :=
  let pgcnt := u64 (end_ - start) / PGSIZE in
  let bm_pages := u64 (DIV_ROUND_UP (bitmap_buf_size pgcnt) PGSIZE * PGSIZE) in
  let! b := bitmap_create_in_buf pgcnt bm_pages
              (words_at m (bm_base + 16) (Z.to_nat (elem_cnt pgcnt))) in
  let! (_, b) := bitmap_set_all true b in
  Ok (Pool false b start, u64 (bm_base + bm_pages)).

(** The state of the first loop of [populate_pools]. *)
Inductive phase := KERN_START | KERN | USER_START | PUSER.
Record carve := Carve {
  state : phase; rem : Z; region_start : Z; region_end : Z;
  kpool : option pool; free_start : Z }.

(** One entry of the first loop of [populate_pools]; the assertion in state
    [USER] compares a number of pages with a number of bytes. *)
Definition carve_entry (m : mem) (user_pages : Z) (entry : e820_entry) (c : carve)
  : result carve :=
  if usable_type entry then
    let start := ptov (APPEND_HILO (mem_hi entry) (mem_lo entry)) in
    let size := APPEND_HILO (len_hi entry) (len_lo entry) in
    let end_ := u64 (start + size) in
    let size_in_pg := size / PGSIZE in
    let '(st, rs) := match state c with KERN_START => (KERN, start) | _ => (state c, region_start c) end in
    match st with
    | KERN =>
        if size_in_pg <? rem c then
          Ok (Carve KERN (rem c - size_in_pg) rs end_ (kpool c) (free_start c))
        else
          let split := u64 (start + u64 (rem c * PGSIZE)) in
          let! (p, fs) := init_pool m (free_start c) rs split in
          if rem c =? size_in_pg
          then Ok (Carve USER_START user_pages rs end_ (Some p) fs)
          else Ok (Carve PUSER (u64 (user_pages - size_in_pg + rem c)) split end_ (Some p) fs)
    | USER_START => Ok (Carve PUSER (rem c) start end_ (kpool c) (free_start c))
    | PUSER =>
        if size_in_pg <? rem c then
          Ok (Carve PUSER (rem c - size_in_pg) rs end_ (kpool c) (free_start c))
        else
          let! _ := rassert (rem c =? size) in
          Ok (Carve PUSER (rem c) rs end_ (kpool c) (free_start c))
    | KERN_START => Panic
    end
  else Ok c.

Fixpoint carve_pools (m : mem) (user_pages : Z) (entries : list e820_entry) (c : carve)
  : result carve :=
  match entries with
  | [] => Ok c
  | entry :: entries =>
      let! c := carve_entry m user_pages entry c in carve_pools m user_pages entries c
  end.

(** From the label [split] on: marks the pages of [start, end_) as usable, one
    pool after the other.  Two pools need at most two rounds. *)
Fixpoint split (fuel : nat) (start end_ : Z) : M pstate unit :=
  match fuel with
  | O => out_of_fuel
  | S fuel =>
      s ← get;
      w ← (if page_from_pool (kernel_pool s) start then ret KERNEL
           else if page_from_pool (user_pool s) start then ret USER
           else lift Panic);
      let p := the_pool w s in
      let pool_end := u64 (base p + u64 (bit_cnt (used_map p) * PGSIZE)) in
      let page_idx := u64 (pg_no start - pg_no (base p)) in
      if pool_end <? end_ then
        on_map w (bitmap_set_multiple page_idx (u64 (pool_end - start) / PGSIZE) false);;
        split fuel pool_end end_
      else
        on_map w (bitmap_set_multiple page_idx (u64 (end_ - start) / PGSIZE) false)
  end.

Fixpoint set_usable (entries : list e820_entry) (usable_bound : Z) : M pstate unit :=
  match entries with
  | [] => ret tt
  | entry :: entries =>
      (if usable_type entry then
         let start := ptov (APPEND_HILO (mem_hi entry) (mem_lo entry)) in
         let size := APPEND_HILO (len_hi entry) (len_lo entry) in
         let end_ := u64 (start + size) in
         if end_ <? usable_bound then ret tt
         else split 3 (pg_round_up (if usable_bound <=? start then start else usable_bound)) end_
       else ret tt);;
      set_usable entries usable_bound
  end.

(** [populate_pools]: [end_of_kernel] is the address of the linker symbol
    [_end]; a kernel pool that was never set up has a null bitmap, and the
    second loop faults on it. *)
Definition populate_pools (m : mem) (end_of_kernel user_page_limit : Z)
    (entries : list e820_entry) (base_mem ext_mem : area) : result pstate :=
  let free_start0 := pg_round_up end_of_kernel in
  let total_pages := u64 (a_size base_mem + a_size ext_mem) / PGSIZE in
  let user_pages := if user_page_limit <? total_pages / 2 then user_page_limit else total_pages / 2 in
  let kern_pages := total_pages - user_pages in
  let! c := carve_pools m user_pages entries (Carve KERN_START kern_pages 0 0 None free_start0) in
  let! (up, fs) := init_pool m (free_start c) (region_start c) (region_end c) in
  let! kp := match kpool c with Some p => Ok p | None => Fault end in
  let! (_, s) := set_usable entries fs (PState kp up m) in
  Ok s.

Definition palloc_init (m : mem) (end_of_kernel user_page_limit : Z)
    (entries : list e820_entry) : result (Z * pstate) :=
  let '(base_mem, ext_mem) := resolve_area_info entries (Area 0 0 0) (Area 0 0 0) in
  let! s := populate_pools m end_of_kernel user_page_limit entries base_mem ext_mem in
  Ok (a_end ext_mem, s).

(** ** Address arithmetic *)

Lemma pg_no_div va : pg_no va = va / PGSIZE.
Proof. unfold pg_no, PGBITS. by rewrite Z.shiftr_div_pow2. Qed.

Lemma pg_ofs_mod va : pg_ofs va = va mod PGSIZE.
Proof. unfold pg_ofs, PGMASK. change 4095 with (2 ^ 12 - 1). by rewrite land_ones_mod. Qed.

Lemma pg_round_down_sub va : is_u64 va -> pg_round_down va = va - va mod PGSIZE.
Proof.
  intros H. unfold pg_round_down. change (u64 (Z.lnot PGMASK)) with (2 ^ 64 - 2 ^ 12).
  by rewrite land_lnot_ones.
Qed.

Lemma pg_round_up_spec va :
  0 <= va -> va + PGSIZE <= 2 ^ 64 ->
  pg_round_up va mod PGSIZE = 0 /\ va <= pg_round_up va < va + PGSIZE.
Proof.
  intros H0 H1. unfold pg_round_up. change (u64 (Z.lnot PGMASK)) with (2 ^ 64 - 2 ^ 12).
  unfold PGSIZE in *. rewrite (wrapu_id 64) by (split; lia).
  rewrite land_lnot_ones by (split; lia). change (2 ^ 12) with 4096.
  pose proof (Z.mod_pos_bound (va + 4096 - 1) 4096). split; [|lia].
  by rewrite Zminus_mod_idemp_r, Z.sub_diag.
Qed.

(** ** Invariant *)

Definition page_addr (p : pool) (i : Z) : Z := base p + PGSIZE * i.
Definition page_used (p : pool) (i : Z) : bool := bit (used_map p) i.
(** The address [a] lies in the memory of [p]. *)
Definition pool_bytes (p : pool) (a : Z) : Prop :=
  base p <= a < page_addr p (bit_cnt (used_map p)).

Record pool_ok (m : mem) (p : pool) : Prop := {
  po_wf : wf (used_map p);
  po_lock : lock p = false;
  po_base : 0 < base p;
  po_align : base p mod PGSIZE = 0;
  po_end : page_addr p (bit_cnt (used_map p)) < 2 ^ 64;
  po_mapped : forall a, pool_bytes p a -> is_Some (m a)
}.

Record pools_ok (s : pstate) : Prop := {
  ok_pool w : pool_ok (ram s) (the_pool w s);
  ok_disjoint a : pool_bytes (kernel_pool s) a -> pool_bytes (user_pool s) a -> False
}.

(** The pages in [P] of pool [w] get the mark [v]; everything else of the two
    pools stays. *)
Record pages_updated (s s' : pstate) (w : which) (P : Z -> bool) (v : bool) : Prop := {
  pu_lock : lock (the_pool w s') = lock (the_pool w s);
  pu_base : base (the_pool w s') = base (the_pool w s);
  pu_map : updated (used_map (the_pool w s)) (used_map (the_pool w s')) P (fun _ => v);
  pu_other w' : w' <> w -> the_pool w' s' = the_pool w' s
}.

#[export] Instance which_eq_dec : EqDecision which.
Proof. solve_decision. Defined.

Lemma the_pool_set w w' p s :
  the_pool w' (set_pool w p s) = if decide (w' = w) then p else the_pool w' s.
Proof. by destruct w, w', s. Qed.

Lemma ram_set w p s : ram (set_pool w p s) = ram s.
Proof. by destruct w, s. Qed.

Lemma set_pool_set w p q s : set_pool w p (set_pool w q s) = set_pool w p s.
Proof. by destruct w, s. Qed.

Lemma set_pool_id w s : set_pool w (the_pool w s) s = s.
Proof. by destruct w, s. Qed.

Lemma pages_updated_ok s s' w P v :
  pools_ok s -> pages_updated s s' w P v -> (forall a, is_Some (ram s a) -> is_Some (ram s' a)) -> pools_ok s'.
Proof.
  intros [Hp Hd] [U1 U2 [V1 V2 V3] U4] Hm.
  assert (forall w' a, pool_bytes (the_pool w' s') a <-> pool_bytes (the_pool w' s) a) as Hb.
  { intros w' a. unfold pool_bytes, page_addr. destruct (decide (w' = w)) as [->|];
      [rewrite U2, V2|rewrite U4 by done]; done. }
  split.
  - intros w'. specialize (Hp w'). destruct (decide (w' = w)) as [->|Hne].
    + destruct Hp as [P1 P2 P3 P4 P5 P6]. split; unfold page_addr in *; rewrite ?U1, ?U2, ?V2; try done.
      intros a Ha. apply Hm, P6. by apply Hb.
    + rewrite U4 by done. destruct Hp as [P1 P2 P3 P4 P5 P6]. split; try done. intros a Ha. by apply Hm, P6.
  - intros a Hk Hu. apply (Hd a); [by apply (Hb KERNEL)|by apply (Hb USER)].
Qed.

Lemma the_pool_ram w s m : the_pool w (PState (kernel_pool s) (user_pool s) m) = the_pool w s.
Proof. by destruct w. Qed.

Lemma pages_updated_ram s s' m w P v :
  pages_updated s s' w P v -> pages_updated s (PState (kernel_pool s') (user_pool s') m) w P v.
Proof. intros [U1 U2 U3 U4]. split; intros; rewrite ?the_pool_ram; auto. Qed.

Lemma on_ram_run {A} (f : M mem A) s a m :
  f (ram s) = Ok (a, m) -> on_ram f s = Ok (a, PState (kernel_pool s) (user_pool s) m).
Proof. unfold on_ram. by intros ->. Qed.

Lemma on_map_run {A} w (f : M bitmap A) s a b :
  f (used_map (the_pool w s)) = Ok (a, b) -> on_map w f s = Ok (a, set_map w b s).
Proof. unfold on_map. by intros ->. Qed.

(** Setting or clearing the mark of some pages of a pool. *)
Lemma set_map_updated s w b P v :
  updated (used_map (the_pool w s)) b P (fun _ => v) -> pages_updated s (set_map w b s) w P v.
Proof.
  intros U. unfold set_map. split; rewrite ?the_pool_set, ?decide_True by done; try done.
  intros w' Hne. by rewrite the_pool_set, decide_False.
Qed.

(** Filling whole pages of a pool with a byte. *)
Lemma memset_pages s w i cnt v :
  pool_ok (ram s) (the_pool w s) -> 0 <= i -> 0 <= cnt -> i + cnt <= bit_cnt (used_map (the_pool w s)) ->
  exists m', on_ram (memset (page_addr (the_pool w s) i) v (u64 (PGSIZE * cnt))) s =
      Ok (page_addr (the_pool w s) i, PState (kernel_pool s) (user_pool s) m') /\
    written (ram s) m' (page_addr (the_pool w s) i) (replicate (Z.to_nat (PGSIZE * cnt)) (u8 v)).
Proof.
  intros [P1 P2 P3 P4 P5 P6] Hi Hc Hr. unfold page_addr, PGSIZE in *.
  rewrite wrapu_id by (split; lia).
  destruct (memset_spec (Z.to_nat (4096 * cnt)) (ram s) (base (the_pool w s) + 4096 * i) v) as (m' & E & W).
  - lia.
  - intros a Ha. apply P6. unfold pool_bytes, page_addr, PGSIZE. lia.
  - rewrite Z2Nat.id in E by lia. exists m'. split; [by apply on_ram_run|done].
Qed.

(** ** Allocation *)

Definition pool_of (flags : Z) : which := if has_flag flags PAL_USER then USER else KERNEL.

Lemma scan_error b cnt b' :
  wf b -> 0 <= cnt -> bitmap_scan_and_flip 0 cnt false b = Ok (BITMAP_ERROR, b') -> b' = b.
Proof.
  intros W Hc H. unfold bitmap_scan_and_flip in H.
  destruct (bitmap_scan_spec b 0 cnt false W Hc) as (r & E & _); [pose proof (wf_cnt _ W); lia|].
  rewrite (bind_ok _ _ _ _ _ E) in H. destruct (Z.eqb_spec r BITMAP_ERROR); cbn in H.
  - unfold ret in H. congruence.
  - apply bind_inv in H as (a & s & _ & H). unfold ret in H. congruence.
Qed.

(** The bitmap part of [palloc_get_multiple], with its lock. *)
Lemma take_pages w cnt s :
  pool_ok (ram s) (the_pool w s) -> 0 <= cnt ->
  exists r s', (lock_acquire w;;
     page_idx ← on_map w (bitmap_scan_and_flip 0 cnt false);
     lock_release w;; ret page_idx) s = Ok (r, s') /\
    first_run (used_map (the_pool w s)) 0 cnt false r /\
    ram s' = ram s /\ (r = BITMAP_ERROR -> s' = s) /\
    pages_updated s s' w (fun i => negb (r =? BITMAP_ERROR) && in_range r cnt i) true.
Proof.
  intros [P1 P2 P3 P4 P5 P6] Hc.
  destruct (bitmap_scan_and_flip_spec (used_map (the_pool w s)) 0 cnt false P1 Hc)
    as (r & b' & E & Hr & U); [pose proof (wf_cnt _ P1); lia|].
  set (s1 := set_pool w (Pool true (used_map (the_pool w s)) (base (the_pool w s))) s).
  assert (lock_acquire w s = Ok (tt, s1)) as E1 by (unfold lock_acquire; by rewrite P2).
  assert (the_pool w s1 = Pool true (used_map (the_pool w s)) (base (the_pool w s))) as Es1
    by (unfold s1; by rewrite the_pool_set, decide_True).
  mstep E1. assert (on_map w (bitmap_scan_and_flip 0 cnt false) s1 = Ok (r, set_map w b' s1)) as E2
    by (apply on_map_run; by rewrite Es1).
  mstep E2. set (s2 := set_map w b' s1).
  assert (the_pool w s2 = Pool true b' (base (the_pool w s))) as Es2
    by (unfold s2, set_map; by rewrite the_pool_set, decide_True, Es1).
  set (s3 := set_pool w (Pool false b' (base (the_pool w s))) s).
  assert (lock_release w s2 = Ok (tt, s3)) as E3.
  { unfold lock_release. rewrite Es2. cbn. unfold s2, s3, set_map, s1. by rewrite !set_pool_set. }
  mstep E3. exists r, s3. unfold s3. split_and!; [done|done|by rewrite ram_set| |].
  - intros ->. cbn in U. destruct (the_pool w s) as [lk um bs] eqn:Ep. cbn in *.
    assert (b' = um) as ->.
    { by apply (scan_error _ cnt). }
    rewrite <- P2 in *. rewrite <- Ep. by rewrite set_pool_id.
  - split; rewrite ?the_pool_set, ?decide_True by done; try done.
    intros w' Hne. by rewrite the_pool_set, decide_False.
Qed.

(** What a call of [palloc_get_multiple] does. *)
Inductive get_outcome (s : pstate) (flags cnt : Z) : result (Z * pstate) -> Prop :=
  | got i s' :
      let p := the_pool (pool_of flags) s in
      0 <= i -> i + cnt <= bit_cnt (used_map p) ->
      run_of (used_map p) i cnt false ->
      (forall j, 0 <= j < i -> ~ run_of (used_map p) j cnt false) ->
      pages_updated s s' (pool_of flags) (in_range i cnt) true ->
      (if has_flag flags PAL_ZERO
       then written (ram s) (ram s') (page_addr p i) (replicate (Z.to_nat (PGSIZE * cnt)) 0)
       else ram s' = ram s) ->
      get_outcome s flags cnt (Ok (page_addr p i, s'))
  | none_left r :
      let p := the_pool (pool_of flags) s in
      (forall i, 0 <= i -> i + cnt <= bit_cnt (used_map p) -> ~ run_of (used_map p) i cnt false) ->
      r = (if has_flag flags PAL_ASSERT then Panic else Ok (NULL, s)) ->
      get_outcome s flags cnt r.

Lemma pages_updated_ext s s' w P Q v :
  (forall i, P i = Q i) -> pages_updated s s' w P v -> pages_updated s s' w Q v.
Proof.
  intros H [U1 U2 [V1 V2 V3] U4]. split; try done. split; try done. intros i Hi. rewrite <- H. by apply V3.
Qed.

Lemma palloc_get_outcome s flags cnt :
  pools_ok s -> 0 <= cnt -> get_outcome s flags cnt (palloc_get_multiple flags cnt s).
Proof.
  intros Hok Hc. unfold palloc_get_multiple. fold (pool_of flags). set (w := pool_of flags).
  pose proof (ok_pool _ Hok w) as Hp. pose proof Hp as [P1 P2 P3 P4 P5 P6]. pose proof (wf_cnt _ P1).
  destruct (take_pages w cnt s Hp Hc) as (r & s' & E & Hr & Em & Es & U).
  assert (forall (B : Type) (f : Z -> M pstate B),
    (lock_acquire w;; page_idx ← on_map w (bitmap_scan_and_flip 0 cnt false); lock_release w;; f page_idx) s
    = f r s') as Ef.
  { intros B f. revert E. unfold bind, ret. destruct (lock_acquire w s) as [[? s1]| | | |]; cbn; try done.
    destruct (on_map w _ s1) as [[x s2]| | | |]; cbn; try done.
    destruct (lock_release w s2) as [[? s3]| | | |]; cbn; try done. by intros [= -> ->]. }
  rewrite Ef. mnorm. rewrite (pu_base _ _ _ _ _ U). destruct Hr as [[-> Hno]|(H1 & H2 & H3 & H4)].
  - rewrite (Z.eqb_refl BITMAP_ERROR). cbn [negb]. change (NULL =? NULL) with true. cbn [negb].
    rewrite (Es eq_refl). apply none_left; [done|]. by destruct (has_flag flags PAL_ASSERT).
  - assert (r <> BITMAP_ERROR) as Hne by (unfold BITMAP_ERROR; lia).
    rewrite (proj2 (Z.eqb_neq r BITMAP_ERROR) Hne) in U |- *. cbn [negb andb] in U |- *.
    assert (u64 (base (the_pool w s) + PGSIZE * r) = page_addr (the_pool w s) r) as ->.
    { apply wrapu_id. unfold page_addr, PGSIZE in *. split; lia. }
    assert (page_addr (the_pool w s) r <> NULL) as Hnn by (unfold page_addr, PGSIZE, NULL in *; lia).
    rewrite (proj2 (Z.eqb_neq _ _) Hnn). cbn [negb].
    destruct (has_flag flags PAL_ZERO) eqn:Ez.
    + assert (pools_ok s') as Hok' by (eapply pages_updated_ok; [done|done|by rewrite Em]).
      assert (the_pool w s' = Pool (lock (the_pool w s')) (used_map (the_pool w s')) (base (the_pool w s))) as Ep.
      { rewrite <- (pu_base _ _ _ _ _ U). by destruct (the_pool w s'). }
      destruct (memset_pages s' w r cnt 0) as (m' & E2 & W); [by apply ok_pool|lia|done| |].
      { by rewrite (up_cnt _ _ _ _ (pu_map _ _ _ _ _ U)). }
      assert (page_addr (the_pool w s') r = page_addr (the_pool w s) r) as Ea by (unfold page_addr; by rewrite (pu_base _ _ _ _ _ U)).
      rewrite Ea in *. rewrite bind_bind. mstep E2. apply got; try done.
      * by apply pages_updated_ram.
      * rewrite Ez. cbn [ram]. by rewrite Em in W.
    + mnorm. apply got; try done. by rewrite Ez.
Qed.

(** ** Release *)

Lemma page_from_pool_spec m p a : pool_ok m p -> 0 <= a -> page_from_pool p a = true <-> pool_bytes p a.
Proof.
  intros [P1 P2 P3 P4 P5 P6] Ha. pose proof (wf_cnt _ P1). unfold page_from_pool, pool_bytes, page_addr in *.
  rewrite !pg_no_div, andb_true_iff, Z.leb_le, Z.ltb_lt. unfold PGSIZE in *.
  pose proof (Z.div_mod (base p) 4096 ltac:(lia)). pose proof (Z.div_mod a 4096 ltac:(lia)).
  pose proof (Z.mod_pos_bound a 4096 ltac:(lia)). rewrite wrapu_id by (split; lia). lia.
Qed.

Lemma page_addr_ofs p i : base p mod PGSIZE = 0 -> pg_ofs (page_addr p i) = 0.
Proof. intros H. rewrite pg_ofs_mod. unfold page_addr. by rewrite Z.mul_comm, Z.mod_add. Qed.

Lemma page_addr_no p i : pg_no (page_addr p i) - pg_no (base p) = i.
Proof.
  rewrite !pg_no_div. unfold page_addr. rewrite (Z.mul_comm PGSIZE i), Z.div_add by done. lia.
Qed.

Lemma bitmap_all_spec b start cnt :
  wf b -> 0 <= start -> 0 <= cnt -> start + cnt <= bit_cnt b ->
  exists c, bitmap_all start cnt b = Ok (c, b) /\ (c = true <-> run_of b start cnt true).
Proof.
  intros W H1 H2 H3. destruct (bitmap_contains_spec b start cnt false W H1 H2 H3) as (c & E & Hc).
  exists (negb c). unfold bitmap_all. mstep E. split; [done|]. cbn [negb] in Hc. rewrite <- Hc. by destruct c.
Qed.

(** The pool a page belongs to. *)
Lemma find_pool s w i :
  pools_ok s -> 0 <= i < bit_cnt (used_map (the_pool w s)) ->
  (if page_from_pool (kernel_pool s) (page_addr (the_pool w s) i) then ret KERNEL
   else if page_from_pool (user_pool s) (page_addr (the_pool w s) i) then ret USER else lift Panic) s
  = Ok (w, s).
Proof.
  intros Hok Hi. pose proof (ok_pool _ Hok w) as [P1 P2 P3 P4 P5 P6].
  assert (0 <= page_addr (the_pool w s) i) as Ha by (unfold page_addr, PGSIZE; lia).
  assert (pool_bytes (the_pool w s) (page_addr (the_pool w s) i)) as Hb.
  { unfold pool_bytes, page_addr, PGSIZE. lia. }
  pose proof (page_from_pool_spec _ _ _ (ok_pool _ Hok KERNEL) Ha) as HK.
  pose proof (page_from_pool_spec _ _ _ (ok_pool _ Hok USER) Ha) as HU.
  cbn [the_pool] in HK, HU. destruct w; cbn [the_pool] in *.
  - by rewrite (proj2 HK Hb).
  - destruct (page_from_pool (kernel_pool s) _) eqn:E.
    + exfalso. apply (ok_disjoint _ Hok _ (proj1 HK eq_refl) Hb).
    + by rewrite (proj2 HU Hb).
Qed.

Lemma palloc_free_outcome s w i cnt :
  pools_ok s -> 0 <= i -> 0 < cnt -> i + cnt <= bit_cnt (used_map (the_pool w s)) ->
  (run_of (used_map (the_pool w s)) i cnt true /\
   exists s', palloc_free_multiple (page_addr (the_pool w s) i) cnt s = Ok (tt, s') /\
     pages_updated s s' w (in_range i cnt) false /\
     written (ram s) (ram s') (page_addr (the_pool w s) i) (replicate (Z.to_nat (PGSIZE * cnt)) 0xcc)) \/
  (~ run_of (used_map (the_pool w s)) i cnt true /\
   palloc_free_multiple (page_addr (the_pool w s) i) cnt s = Panic).
Proof.
  intros Hok Hi Hc Hr. pose proof (ok_pool _ Hok w) as Hp. pose proof Hp as [P1 P2 P3 P4 P5 P6].
  pose proof (wf_cnt _ P1). unfold palloc_free_multiple. rewrite page_addr_ofs by done. mnorm.
  assert (page_addr (the_pool w s) i <> NULL) as Hnn by (unfold page_addr, PGSIZE, NULL; lia).
  rewrite (proj2 (Z.eqb_neq _ _) Hnn), (proj2 (Z.eqb_neq cnt 0)) by lia. cbn [orb]. mnorm.
  mstep (find_pool s w i Hok ltac:(lia)). rewrite page_addr_no, (wrapu_id 64 i) by (unfold SIZE_MAX in *; split; lia).
  destruct (memset_pages s w i cnt 0xcc Hp Hi) as (m' & E & W); [lia|done|]. mstep E.
  set (s1 := PState (kernel_pool s) (user_pool s) m').
  assert (the_pool w s1 = the_pool w s) as Es1 by apply the_pool_ram.
  destruct (bitmap_all_spec (used_map (the_pool w s)) i cnt P1 Hi) as (c & Ec & Hcr); [lia|done|].
  assert (on_map w (bitmap_all i cnt) s1 = Ok (c, set_map w (used_map (the_pool w s)) s1)) as E1
    by (apply on_map_run; by rewrite Es1).
  mstep E1. assert (set_map w (used_map (the_pool w s)) s1 = s1) as ->.
  { unfold set_map. rewrite Es1. unfold s1. by destruct w; cbn; destruct s as [[] [] ?]. }
  destruct c.
  - left. split; [by apply Hcr|]. mnorm.
    destruct (bitmap_set_multiple_spec (used_map (the_pool w s)) i cnt false P1 Hi) as (b' & E2 & U); [lia|done|].
    rewrite (on_map_run w _ s1 tt b') by by rewrite Es1. eexists. split; [done|]. split.
    + destruct (set_map_updated s1 w b' _ false ltac:(rewrite Es1; exact U)) as [U1 U2 U3 U4].
      rewrite Es1 in *. split; done.
    + unfold set_map. by rewrite ram_set.
  - right. split; [|done]. by intros ?%Hcr.
Qed.

(** ** Clients

    A history of calls: [held] lists the blocks (address and number of pages)
    the clients got and have not freed; between calls they may write the
    memory. *)
Definition held : Type := list (Z * Z).
Definition covers (a : Z) (b : Z * Z) : bool := (fst b <=? a) && (a <? fst b + PGSIZE * snd b).
Definition cover_cnt (a : Z) (h : held) : nat := length (List.filter (covers a) h).

Inductive history : pstate * held -> pstate * held -> Prop :=
  | h_start c : history c c
  | h_get c s h flags cnt p s' :
      history c (s, h) -> 0 < cnt -> palloc_get_multiple flags cnt s = Ok (p, s') -> p <> NULL ->
      history c (s', (p, cnt) :: h)
  | h_fail c s h flags cnt s' :
      history c (s, h) -> 0 < cnt -> palloc_get_multiple flags cnt s = Ok (NULL, s') ->
      history c (s', h)
  | h_free c s h k p cnt s' :
      history c (s, h) -> h !! k = Some (p, cnt) -> palloc_free_multiple p cnt s = Ok (tt, s') ->
      history c (s', delete k h)
  | h_write c s h m :
      history c (s, h) -> (forall a, is_Some (ram s a) -> is_Some (m a)) ->
      history c (PState (kernel_pool s) (user_pool s) m, h).

Definition byte_used (p : pool) (a : Z) : bool := bit (used_map p) ((a - base p) / PGSIZE).

(** The pages in use are those in use at the start and, once each, those of
    the blocks that are held. *)
Record ledger (s0 s : pstate) (h : held) : Prop := {
  l_ok : pools_ok s;
  l_base w : base (the_pool w s) = base (the_pool w s0);
  l_size w : bit_cnt (used_map (the_pool w s)) = bit_cnt (used_map (the_pool w s0));
  l_in b : b ∈ h -> exists w i, fst b = page_addr (the_pool w s) i /\
     0 <= i /\ 0 < snd b /\ i + snd b <= bit_cnt (used_map (the_pool w s));
  l_used w a : pool_bytes (the_pool w s) a ->
     Nat.b2n (byte_used (the_pool w s) a) = (Nat.b2n (byte_used (the_pool w s0) a) + cover_cnt a h)%nat
}.

Lemma ledger_start s : pools_ok s -> ledger s s [].
Proof.
  intros H. split; [done|done|done|by intros b ?%elem_of_nil|]. intros w a _. cbn. lia.
Qed.

(** The pages of a block, seen from a byte of its pool. *)
Lemma covers_page p i cnt a :
  base p mod PGSIZE = 0 -> base p <= a ->
  in_range i cnt ((a - base p) / PGSIZE) = covers a (page_addr p i, cnt).
Proof.
  intros H Ha. unfold in_range, covers, page_addr, PGSIZE in *. cbn [fst snd].
  pose proof (Z.div_mod (a - base p) 4096 ltac:(lia)). pose proof (Z.mod_pos_bound (a - base p) 4096 ltac:(lia)).
  apply eq_true_iff_eq. rewrite !andb_true_iff, !Z.leb_le, !Z.ltb_lt. lia.
Qed.

(** A block lies inside its pool. *)
Lemma covers_inside p i cnt a :
  0 <= i -> i + cnt <= bit_cnt (used_map p) -> covers a (page_addr p i, cnt) = true -> pool_bytes p a.
Proof.
  intros Hi Hc H. unfold covers, pool_bytes, page_addr, PGSIZE in *. cbn [fst snd] in H.
  apply andb_true_iff in H as [H1%Z.leb_le H2%Z.ltb_lt]. lia.
Qed.

Lemma byte_used_updated s s' w P v a :
  pools_ok s -> pages_updated s s' w P v -> pool_bytes (the_pool w s) a ->
  byte_used (the_pool w s') a =
    if P ((a - base (the_pool w s)) / PGSIZE) then v else byte_used (the_pool w s) a.
Proof.
  intros Hok [U1 U2 [V1 V2 V3] U4] Ha. unfold byte_used. rewrite U2. apply V3.
  apply Z.div_pos; [destruct Ha; lia|done].
Qed.

(** The common part of both kinds of step: the pages of one block change from
    unused to used, or back. *)
Lemma ledger_pages s0 s s' h h' w i cnt v :
  ledger s0 s h -> pages_updated s s' w (in_range i cnt) v ->
  (forall a, is_Some (ram s a) -> is_Some (ram s' a)) ->
  0 <= i -> i + cnt <= bit_cnt (used_map (the_pool w s)) ->
  run_of (used_map (the_pool w s)) i cnt (negb v) ->
  (forall b, b ∈ h' -> b ∈ h \/ b = (page_addr (the_pool w s) i, cnt) /\ 0 < cnt) ->
  (forall a, (cover_cnt a h' + Nat.b2n (negb v && covers a (page_addr (the_pool w s) i, cnt)) =
              cover_cnt a h + Nat.b2n (v && covers a (page_addr (the_pool w s) i, cnt)))%nat) ->
  ledger s0 s' h'.
Proof.
  intros [L1 L2 L3 L4 L5] U Hm Hi Hc Hrun Hh Hcnt.
  pose proof (pages_updated_ok _ _ _ _ _ L1 U Hm) as Hok'.
  assert (forall w', base (the_pool w' s') = base (the_pool w' s)) as EB.
  { intros w'. destruct (decide (w' = w)) as [->|]; [apply (pu_base _ _ _ _ _ U)|by rewrite (pu_other _ _ _ _ _ U)]. }
  assert (forall w', bit_cnt (used_map (the_pool w' s')) = bit_cnt (used_map (the_pool w' s))) as ES.
  { intros w'. destruct (decide (w' = w)) as [->|]; [apply (up_cnt _ _ _ _ (pu_map _ _ _ _ _ U))|by rewrite (pu_other _ _ _ _ _ U)]. }
  split; [done|intros; by rewrite EB|intros; by rewrite ES| |].
  - intros b Hb. destruct (Hh b Hb) as [Hb'|[-> Hc0]].
    + destruct (L4 b Hb') as (w' & j & ? & ?). exists w', j. unfold page_addr. rewrite EB, ES. done.
    + exists w, i. unfold page_addr. cbn [fst snd]. rewrite EB, ES. done.
  - intros w' a Ha. assert (pool_bytes (the_pool w' s) a) as Ha'.
    { unfold pool_bytes, page_addr in *. by rewrite EB, ES in Ha. }
    specialize (L5 w' a Ha'). specialize (Hcnt a).
    pose proof (ok_pool _ L1 w) as Hp. destruct (decide (w' = w)) as [->|Hne].
    + rewrite (byte_used_updated _ _ _ _ _ _ L1 U Ha'), covers_page by (apply Hp || apply Ha').
      destruct (covers a (page_addr (the_pool w s) i, cnt)) eqn:Ecov; [|rewrite !andb_false_r in Hcnt; cbn in *; lia].
      rewrite !andb_true_r in Hcnt. assert (byte_used (the_pool w s) a = negb v) as Eu.
      { unfold byte_used. apply Hrun. rewrite <- covers_page in Ecov by (apply Hp || apply Ha').
        unfold in_range in Ecov. lia. }
      rewrite Eu in L5. destruct v; cbn in *; lia.
    + rewrite (pu_other _ _ _ _ _ U) by done.
      assert (covers a (page_addr (the_pool w s) i, cnt) = false) as Ecov.
      { apply not_true_iff_false. intros E. pose proof (covers_inside _ _ _ _ Hi Hc E) as Hb.
        destruct w, w'; try done; by apply (ok_disjoint _ L1 a). }
      rewrite Ecov, !andb_false_r in Hcnt. cbn in Hcnt. lia.
Qed.

Lemma cover_cnt_delete a h k b :
  h !! k = Some b -> cover_cnt a h = (cover_cnt a (delete k h) + Nat.b2n (covers a b))%nat.
Proof.
  revert k. induction h as [|c h IH]; intros [|k] H; cbn in H; try done.
  - injection H as ->. unfold cover_cnt. cbn. destruct (covers a b); cbn; lia.
  - specialize (IH _ H). change (delete (S k) (c :: h)) with (c :: delete k h).
    unfold cover_cnt in *. cbn [List.filter]. destruct (covers a c); cbn [length]; by rewrite IH.
Qed.

Lemma get_some_page s flags cnt p s' :
  pools_ok s -> 0 < cnt -> palloc_get_multiple flags cnt s = Ok (p, s') -> p <> NULL ->
  exists i, p = page_addr (the_pool (pool_of flags) s) i /\ 0 <= i /\
    i + cnt <= bit_cnt (used_map (the_pool (pool_of flags) s)) /\
    run_of (used_map (the_pool (pool_of flags) s)) i cnt false /\
    pages_updated s s' (pool_of flags) (in_range i cnt) true /\
    (forall a, is_Some (ram s a) -> is_Some (ram s' a)).
Proof.
  intros Hok Hc E Hp. pose proof (palloc_get_outcome s flags cnt Hok ltac:(lia)) as O. rewrite E in O.
  inversion O as [i s1 p1 H1 H2 H3 H4 H5 H6|r p1 H1 H2]; subst.
  - exists i. split_and!; try done. intros a Ha. destruct (has_flag flags PAL_ZERO).
    + by apply (written_some _ _ _ _ _ H6).
    + by rewrite H6.
  - destruct (has_flag flags PAL_ASSERT); [done|]. injection H2 as -> _. done.
Qed.

Lemma get_none s flags cnt s' :
  pools_ok s -> 0 <= cnt -> palloc_get_multiple flags cnt s = Ok (NULL, s') -> s' = s.
Proof.
  intros Hok Hc E. pose proof (palloc_get_outcome s flags cnt Hok Hc) as O. rewrite E in O.
  inversion O as [i s1 p1 H1 H2 H3 H4 H5 H6 H7|r p1 H1 H2]; subst.
  - exfalso. pose proof (ok_pool _ Hok (pool_of flags)) as [_ _ P3 _ _ _]. unfold p1, page_addr, PGSIZE, NULL in *. lia.
  - destruct (has_flag flags PAL_ASSERT); [done|]. by injection H2.
Qed.

(** Every byte of a held block is in use. *)
Lemma held_pages_used s0 s h b w i :
  ledger s0 s h -> b ∈ h -> fst b = page_addr (the_pool w s) i -> 0 <= i ->
  i + snd b <= bit_cnt (used_map (the_pool w s)) -> run_of (used_map (the_pool w s)) i (snd b) true.
Proof.
  intros [L1 L2 L3 L4 L5] Hb Eb Hi Hr j Hj. pose proof (ok_pool _ L1 w) as Hp.
  set (a := page_addr (the_pool w s) j).
  assert ((a - base (the_pool w s)) / PGSIZE = j) as Ej.
  { unfold a, page_addr. replace (_ + _ - _) with (j * PGSIZE) by lia. by apply Z.div_mul. }
  assert (covers a b = true) as Hcov.
  { destruct b as [p c]. cbn [fst snd] in *. rewrite Eb, <- covers_page, Ej; [unfold in_range; lia|apply Hp|].
    unfold a, page_addr, PGSIZE. lia. }
  assert (1 <= cover_cnt a h)%nat as Hone.
  { apply list_elem_of_lookup in Hb as [k Hk]. rewrite (cover_cnt_delete a h k b Hk), Hcov. cbn. lia. }
  assert (pool_bytes (the_pool w s) a) as Ha.
  { unfold pool_bytes, a, page_addr, PGSIZE. lia. }
  specialize (L5 w a Ha). unfold byte_used at 1 in L5. rewrite Ej in L5.
  destruct (bit (used_map (the_pool w s)) j); [done|]. cbn in L5. lia.
Qed.

Lemma cover_cnt_perm a h h' : h ≡ₚ h' -> cover_cnt a h = cover_cnt a h'.
Proof.
  unfold cover_cnt. induction 1 as [|b h h' _ IH|b c h|h1 h2 h3 _ IH1 _ IH2]; cbn; try done.
  - destruct (covers a b); cbn; lia.
  - by destruct (covers a b), (covers a c).
  - lia.
Qed.

Lemma ledger_perm s0 s h h' : h ≡ₚ h' -> ledger s0 s h -> ledger s0 s h'.
Proof.
  intros Hp [L1 L2 L3 L4 L5]. split; try done.
  - intros b Hb. apply L4. by rewrite Hp.
  - intros w a Ha. rewrite <- (cover_cnt_perm a h h' Hp). by apply L5.
Qed.

Lemma ledger_get s0 s h flags cnt p s' :
  ledger s0 s h -> 0 < cnt -> palloc_get_multiple flags cnt s = Ok (p, s') -> p <> NULL ->
  ledger s0 s' ((p, cnt) :: h).
Proof.
  intros L Hc E Hp.
  destruct (get_some_page s flags cnt p s' (l_ok _ _ _ L) Hc E Hp) as (i & -> & Hi & Hr & Hrun & U & Hm).
  eapply (ledger_pages s0 s s' h _ _ i cnt true); try done.
  - intros b [->|?]%elem_of_cons; auto.
  - intros a. unfold cover_cnt. cbn [List.filter negb andb]. destruct (covers a _); cbn; lia.
Qed.

Lemma ledger_free s0 s h p cnt :
  ledger s0 s ((p, cnt) :: h) ->
  exists s', palloc_free_multiple p cnt s = Ok (tt, s') /\ ledger s0 s' h /\
    forall a, covers a (p, cnt) = false -> ram s' a = ram s a.
Proof.
  intros L. assert ((p, cnt) ∈ (p, cnt) :: h) as Hin by apply list_elem_of_here.
  destruct (l_in _ _ _ L _ Hin) as (w & i & Ep & Hi & Hc & Hr).
  pose proof (held_pages_used _ _ _ _ w i L Hin Ep Hi Hr) as Hrun. cbn [fst snd] in *. subst p.
  destruct (palloc_free_outcome s w i cnt (l_ok _ _ _ L) Hi Hc Hr) as [(_ & s2 & E2 & U & W)|[Hn _]]; [|done].
  exists s2. split_and!; [done| |].
  - eapply (ledger_pages s0 s s2 _ h w i cnt false); try done.
    + intros a. apply (written_some _ _ _ _ _ W).
    + intros b Hb. left. by apply list_elem_of_further.
    + intros a. unfold cover_cnt. cbn [List.filter negb andb]. destruct (covers a _); cbn; lia.
  - intros a Ha. apply (written_out _ _ _ _ _ W). unfold covers in Ha. cbn [fst snd] in Ha.
    rewrite length_replicate. unfold PGSIZE in *. lia.
Qed.

Lemma ledger_write s0 s h m :
  ledger s0 s h -> (forall a, is_Some (ram s a) -> is_Some (m a)) ->
  ledger s0 (PState (kernel_pool s) (user_pool s) m) h.
Proof.
  intros [L1 L2 L3 L4 L5] Hm. split; intros; rewrite ?the_pool_ram in *; auto.
  destruct L1 as [P D]. split; [|done]. intros w. rewrite the_pool_ram. destruct (P w). split; auto.
Qed.

(** No two held blocks share a byte. *)
Lemma ledger_once s0 s h a : ledger s0 s h -> (cover_cnt a h <= 1)%nat.
Proof.
  intros [L1 L2 L3 L4 L5]. destruct (cover_cnt a h) as [|n] eqn:E; [lia|].
  assert (exists b, b ∈ h /\ covers a b = true) as (b & Hbh & Hc).
  { unfold cover_cnt in E. destruct (List.filter (covers a) h) as [|b l] eqn:Ef; [done|]. exists b.
    assert (List.In b (List.filter (covers a) h)) as Hi by (rewrite Ef; by left).
    apply filter_In in Hi as [Hi Hc]. split; [by apply list_elem_of_In|done]. }
  destruct (L4 b Hbh) as (w & i & Eb & Hi & Hs & Hr). destruct b as [p c]. cbn [fst snd] in *. subst p.
  specialize (L5 w a (covers_inside _ i c _ Hi Hr Hc)). rewrite E in L5.
  destruct (byte_used (the_pool w s) a); cbn in L5; lia.
Qed.

(** Where a held block lies. *)
Lemma ledger_block s0 s h p cnt :
  ledger s0 s h -> (p, cnt) ∈ h ->
  0 < p /\ 0 < cnt /\ p mod PGSIZE = 0 /\ p + PGSIZE * cnt < 2 ^ 64 /\
  (exists w, forall a, covers a (p, cnt) = true -> pool_bytes (the_pool w s) a) /\
  (forall a, covers a (p, cnt) = true -> is_Some (ram s a)).
Proof.
  intros L Hin. destruct (l_in _ _ _ L _ Hin) as (w & i & Ep & Hi & Hc & Hr). cbn [fst snd] in *. subst p.
  pose proof (ok_pool _ (l_ok _ _ _ L) w) as [P1 P2 P3 P4 P5 P6].
  assert (forall a, covers a (page_addr (the_pool w s) i, cnt) = true -> pool_bytes (the_pool w s) a) as Hb
    by (intros a; by apply covers_inside).
  split_and!; [|done|rewrite <- pg_ofs_mod; by apply page_addr_ofs| |by exists w|].
  - unfold page_addr, PGSIZE. lia.
  - unfold page_addr, PGSIZE in *. lia.
  - intros a Ha. apply P6. by apply Hb.
Qed.

Lemma delete_perm {A} (h : list A) k b : h !! k = Some b -> h ≡ₚ b :: delete k h.
Proof.
  intros H. rewrite delete_take_drop. rewrite <- (take_drop_middle h k b H) at 1. by rewrite Permutation_middle.
Qed.

Lemma history_ledger s0 s h : pools_ok s0 -> history (s0, []) (s, h) -> ledger s0 s h.
Proof.
  intros Hok H. remember (s0, []) as c eqn:Ec. remember (s, h) as d eqn:Ed. revert s h Ed.
  induction H as [c|c s h flags cnt p s' _ IH Hc E Hp|c s h flags cnt s' _ IH Hc E|c s h k p cnt s' _ IH Hk E|c s h m _ IH Hm];
    intros s1 h1 Ed; [rewrite Ec in Ed|..]; injection Ed as <- <-; [by apply ledger_start|..];
    specialize (IH Ec s h eq_refl).
  - by eapply ledger_get.
  - by rewrite (get_none s flags cnt s' (l_ok _ _ _ IH) ltac:(lia) E).
  - apply (ledger_perm _ _ _ _ (delete_perm h k _ Hk)) in IH. destruct (ledger_free _ _ _ _ _ IH) as (s2 & E2 & L & _).
    rewrite E2 in E. by injection E as <-.
  - by apply ledger_write.
Qed.

(** ** Boot *)

(** The memory of a usable entry, as kernel virtual addresses. *)
Definition entry_start (e : e820_entry) : Z := ptov (APPEND_HILO (mem_hi e) (mem_lo e)).
Definition entry_end (e : e820_entry) : Z := u64 (entry_start e + APPEND_HILO (len_hi e) (len_lo e)).
Definition usable_page (entries : list e820_entry) (bound a : Z) : Prop :=
  bound <= a /\ exists e, e ∈ entries /\ usable_type e = true /\ entry_start e <= a /\ a + PGSIZE <= entry_end e.

(** A memory map as the boot loader reports it: the usable entries start at page
    boundaries, come in the order of their addresses, do not overlap, and end
    below 15 TiB.  Their lengths are arbitrary. *)
Definition phys_start (e : e820_entry) : Z := APPEND_HILO (mem_hi e) (mem_lo e).
Definition phys_len (e : e820_entry) : Z := APPEND_HILO (len_hi e) (len_lo e).
Definition MEM_TOP : Z := 15 * 2 ^ 40.
Fixpoint sane_from (lo : Z) (entries : list e820_entry) : bool :=
  match entries with
  | [] => true
  | e :: entries =>
      if usable_type e then
        (lo <=? phys_start e) && (phys_start e mod PGSIZE =? 0) && (phys_start e + phys_len e <=? MEM_TOP) &&
        sane_from (phys_start e + phys_len e) entries
      else sane_from lo entries
  end.
Definition sane_map (entries : list e820_entry) : bool := sane_from 0 entries.

(** The bytes that the bitmap of a pool takes behind the kernel image, and the
    address behind both bitmaps. *)
Definition bitmap_bytes (p : pool) : Z := DIV_ROUND_UP (bitmap_buf_size (bit_cnt (used_map p))) PGSIZE * PGSIZE.
Definition bitmaps_end (end_of_kernel : Z) (s : pstate) : Z :=
  pg_round_up end_of_kernel + bitmap_bytes (kernel_pool s) + bitmap_bytes (user_pool s).

(** A pool in the direct map of physical memory, below 16 TiB, that starts at
    a page boundary. *)
Definition placed (p : pool) : Prop :=
  KERN_BASE <= base p /\ base p mod PGSIZE = 0 /\ page_addr p (bit_cnt (used_map p)) <= 2 ^ 44.

(** Both pools are well formed and every free page of theirs is usable. *)
Record boot_inv (entries : list e820_entry) (bound : Z) (s : pstate) : Prop := {
  bi_wf w : wf (used_map (the_pool w s));
  bi_placed w : placed (the_pool w s);
  bi_free w i : 0 <= i < bit_cnt (used_map (the_pool w s)) -> page_used (the_pool w s) i = false ->
    usable_page entries bound (page_addr (the_pool w s) i)
}.

Lemma page_from_pool_placed p a :
  0 <= bit_cnt (used_map p) -> placed p -> 0 <= a -> page_from_pool p a = true <-> pool_bytes p a.
Proof.
  intros H0 (H1 & H2 & H3) Ha. unfold page_from_pool, pool_bytes, page_addr in *.
  rewrite !pg_no_div, andb_true_iff, Z.leb_le, Z.ltb_lt. unfold PGSIZE, KERN_BASE in *.
  pose proof (Z.div_mod (base p) 4096 ltac:(lia)). pose proof (Z.div_mod a 4096 ltac:(lia)).
  pose proof (Z.mod_pos_bound a 4096 ltac:(lia)). rewrite wrapu_id by (split; lia). lia.
Qed.

(** What a call of [bitmap_set_multiple] that returns has done. *)
Lemma set_multiple_inv b start cnt v b' :
  wf b -> 0 <= start < 2 ^ 62 -> 0 <= cnt < 2 ^ 62 -> bitmap_set_multiple start cnt v b = Ok (tt, b') ->
  start + cnt <= bit_cnt b /\ updated b b' (in_range start cnt) (fun _ => v).
Proof.
  intros W Hs Hc H. pose proof H as H'. unfold bitmap_set_multiple, assert_range in H'. minv.
  assert (start + cnt <= bit_cnt b) as Hle.
  { unfold get in *. simplify_eq. unfold ASSERT in *. rewrite wrapu_id in * by (split; lia).
    repeat match goal with H : (if ?c then _ else _) = _ |- _ => destruct c eqn:?; [|done] end. simplify_eq. lia. }
  split; [done|]. destruct (bitmap_set_multiple_spec b start cnt v W) as (b2 & E & U); [lia|lia|done|].
  rewrite E in H. by injection H as <-.
Qed.

(** Freeing the pages of [start, start + cnt * PGSIZE) of one pool. *)
Lemma boot_inv_free entries bound s w start cnt s' :
  boot_inv entries bound s -> pool_bytes (the_pool w s) start -> start mod PGSIZE = 0 -> 0 <= cnt < 2 ^ 62 ->
  (forall a, start <= a < start + PGSIZE * cnt -> a mod PGSIZE = 0 -> usable_page entries bound a) ->
  on_map w (bitmap_set_multiple (u64 (pg_no start - pg_no (base (the_pool w s)))) cnt false) s = Ok (tt, s') ->
  boot_inv entries bound s'.
Proof.
  intros [B1 B2 B3] Hb Ha Hc Hgood H. pose proof (B2 w) as (P1 & P2 & P3). pose proof (wf_cnt _ (B1 w)) as Hn.
  set (idx := (start - base (the_pool w s)) / PGSIZE).
  assert (start = page_addr (the_pool w s) idx /\ 0 <= idx < bit_cnt (used_map (the_pool w s))) as [Es Hidx].
  { unfold idx, page_addr, pool_bytes, PGSIZE in *.
    pose proof (Z.div_mod (start - base (the_pool w s)) 4096 ltac:(lia)).
    assert ((start - base (the_pool w s)) mod 4096 = 0) by (rewrite Zminus_mod, Ha, P2; done).
    unfold page_addr, PGSIZE in Hb. lia. }
  unfold on_map in H. apply rbind_inv in H as ([[] b'] & E & H). injection H as <-.
  rewrite Es, page_addr_no, wrapu_id in E by (unfold SIZE_MAX in *; split; lia).
  apply set_multiple_inv in E as [Hle [U1 U2 U3]]; [|done|unfold SIZE_MAX in *; lia|done].
  assert (forall w', base (the_pool w' (set_map w b' s)) = base (the_pool w' s) /\
    bit_cnt (used_map (the_pool w' (set_map w b' s))) = bit_cnt (used_map (the_pool w' s))) as Hsame.
  { intros w'. unfold set_map. rewrite the_pool_set. destruct (decide (w' = w)) as [->|]; done. }
  split.
  - intros w'. unfold set_map. rewrite the_pool_set. by destruct (decide (w' = w)).
  - intros w'. unfold placed, page_addr. destruct (Hsame w') as [-> ->]. apply B2.
  - intros w' i Hi Hu. unfold page_addr. destruct (Hsame w') as [-> Ec]. rewrite Ec in Hi.
    unfold page_used, set_map in Hu. rewrite the_pool_set in Hu. destruct (decide (w' = w)) as [->|].
    + cbn [used_map] in Hu. rewrite U3 in Hu by lia. destruct (in_range idx cnt i) eqn:Er; [|by apply B3].
      unfold in_range in Er. apply Hgood; rewrite ?Es; unfold page_addr, PGSIZE in *; [lia|].
      by rewrite Z.mul_comm, Z.mod_add.
    + by apply B3.
Qed.

Lemma split_inv fuel entries bound e start s s' :
  boot_inv entries bound s -> e ∈ entries -> usable_type e = true ->
  start mod PGSIZE = 0 -> 0 <= start < 2 ^ 64 -> (start <> 0 -> bound <= start /\ entry_start e <= start) ->
  split fuel start (entry_end e) s = Ok (tt, s') -> boot_inv entries bound s'.
Proof.
  revert start s. induction fuel as [|fuel IH]; intros start s B He Ht Ha H64 Hst H; cbn [split] in H; [done|].
  apply bind_inv in H as (s1 & s2 & Hg & H). injection Hg as <- <-.
  apply bind_inv in H as (w & s2 & Hw & H).
  assert (s2 = s /\ pool_bytes (the_pool w s) start) as [-> Hb].
  { pose proof (wf_cnt _ (bi_wf _ _ _ B KERNEL)). pose proof (wf_cnt _ (bi_wf _ _ _ B USER)).
    destruct (page_from_pool (kernel_pool s) start) eqn:Ek.
    - injection Hw as <- <-. split; [done|]. apply page_from_pool_placed; [cbn in *; lia|apply (bi_placed _ _ _ B KERNEL)|lia|done].
    - destruct (page_from_pool (user_pool s) start) eqn:Eu; [|done]. injection Hw as <- <-. split; [done|].
      apply page_from_pool_placed; [cbn in *; lia|apply (bi_placed _ _ _ B USER)|lia|done]. }
  pose proof (bi_placed _ _ _ B w) as (P1 & P2 & P3). pose proof (wf_cnt _ (bi_wf _ _ _ B w)) as Hn.
  set (p := the_pool w s) in *. assert (u64 (base p + u64 (bit_cnt (used_map p) * PGSIZE)) =
    page_addr p (bit_cnt (used_map p))) as Epe.
  { unfold page_addr, PGSIZE, KERN_BASE, SIZE_MAX in *. rewrite (wrapu_id 64 (bit_cnt (used_map p) * 4096)), wrapu_id by (split; lia). lia. }
  rewrite Epe in H. set (pe := page_addr p (bit_cnt (used_map p))) in *.
  unfold pool_bytes in Hb. fold pe in Hb.
  destruct (Hst ltac:(unfold KERN_BASE in *; lia)) as [Hb1 Hb2].
  assert (0 <= entry_end e < 2 ^ 64) as He64 by (apply wrapu_range; lia).
  destruct (Z.ltb_spec pe (entry_end e)) as [Hlt|Hge].
  - apply bind_inv in H as ([] & s2 & Hs & H). rewrite (wrapu_id 64 (pe - start)) in Hs by (unfold KERN_BASE in *; split; lia).
    apply (IH pe s2); try done; [| | |].
    + eapply boot_inv_free; [done|exact Hb|done| | |exact Hs].
      * unfold PGSIZE. split; [apply Z.div_pos; lia|]. apply Z.div_lt_upper_bound; lia.
      * intros a Hr Ham. split; [lia|]. exists e. split_and!; try done; [lia|].
        pose proof (Z.mul_div_le (pe - start) PGSIZE ltac:(done)).
        assert (pe mod PGSIZE = 0) by (unfold pe, page_addr; by rewrite Z.mul_comm, Z.mod_add).
        unfold PGSIZE in *. pose proof (Z.div_mod pe 4096). pose proof (Z.div_mod a 4096). lia.
    + unfold pe, page_addr. by rewrite Z.mul_comm, Z.mod_add.
    + unfold KERN_BASE in *. lia.
    + lia.
  - destruct (Z.le_gt_cases start (entry_end e)) as [Hle|Hgt].
    + rewrite (wrapu_id 64 (entry_end e - start)) in H by (unfold KERN_BASE in *; split; lia).
      eapply boot_inv_free; [done|exact Hb|done| | |exact H].
      * unfold PGSIZE. split; [apply Z.div_pos; lia|]. apply Z.div_lt_upper_bound; lia.
      * intros a Hr Ham. split; [lia|]. exists e. split_and!; try done; [lia|].
        unfold PGSIZE in *. pose proof (Z.div_mod (entry_end e - start) 4096 ltac:(lia)).
        pose proof (Z.mod_pos_bound (entry_end e - start) 4096 ltac:(lia)).
        pose proof (Z.div_mod start 4096 ltac:(lia)). pose proof (Z.div_mod a 4096 ltac:(lia)). lia.
    + (* the rounded start lies behind the end: the assertion of [bitmap_set_multiple] fails *)
      exfalso. unfold on_map in H. apply rbind_inv in H as ([[] b'] & E & _).
      assert (u64 (entry_end e - start) = 2 ^ 64 + entry_end e - start) as Ew.
      { unfold wrapu. rewrite <- (Z.mod_add _ 1), Z.mod_small; lia. }
      assert (2 ^ 51 <= u64 (entry_end e - start) / PGSIZE < 2 ^ 53) as Hbig.
      { rewrite Ew. unfold PGSIZE. split; [apply Z.div_le_lower_bound; unfold KERN_BASE in *; lia|apply Z.div_lt_upper_bound; lia]. }
      apply set_multiple_inv in E as [Hle _]; [|apply (bi_wf _ _ _ B w)| |lia].
      * unfold SIZE_MAX in *. pose proof (wrapu_range 64 (pg_no start - pg_no (base p)) ltac:(lia)) as [? _]. fold p in Hle. lia.
      * fold p. rewrite !pg_no_div. unfold PGSIZE in *. pose proof (Z.div_le_mono (base p) start 4096 ltac:(lia) ltac:(lia)).
        pose proof (Z.div_lt_upper_bound start 4096 (2 ^ 52) ltac:(lia) ltac:(lia)).
        pose proof (Z.div_pos (base p) 4096). unfold KERN_BASE in *. rewrite wrapu_id by (split; lia). lia.
Qed.

(** No operation changes the size of a bitmap. *)
Definition keeps_cnt {A} (f : M bitmap A) : Prop := forall b a b', f b = Ok (a, b') -> bit_cnt b' = bit_cnt b.

Lemma keeps_bind {A B} (f : M bitmap A) (g : A -> M bitmap B) :
  keeps_cnt f -> (forall a, keeps_cnt (g a)) -> keeps_cnt (bind f g).
Proof. intros Hf Hg b a b' H. apply bind_inv in H as (x & b1 & H1 & H2). rewrite (Hg _ _ _ _ H2). by apply (Hf _ _ _ H1). Qed.

Lemma keeps_pure {A} (f : M bitmap A) : (forall b a b', f b = Ok (a, b') -> b' = b) -> keeps_cnt f.
Proof. intros H b a b' E. by rewrite (H _ _ _ E). Qed.

Lemma keeps_assert c : keeps_cnt (ASSERT c).
Proof. apply keeps_pure. intros b a b' H. unfold ASSERT in H. destruct c; [by injection H|done]. Qed.

Lemma keeps_get : keeps_cnt get.
Proof. apply keeps_pure. intros b a b' H. by injection H. Qed.

Lemma keeps_load i : keeps_cnt (load_elem i).
Proof. apply keeps_pure. intros b a b' H. unfold load_elem in H. by destruct (bits b !! Z.to_nat i); simplify_eq. Qed.

Lemma keeps_store i w : keeps_cnt (store_elem i w).
Proof. intros b a b' H. unfold store_elem in H. by destruct (bits b !! Z.to_nat i); simplify_eq. Qed.

Lemma keeps_set_multiple start cnt v : keeps_cnt (bitmap_set_multiple start cnt v).
Proof.
  assert (forall i, keeps_cnt (bitmap_set i v)) as Hset.
  { intros i. apply keeps_bind; [apply keeps_get|intros b]. apply keeps_bind; [apply keeps_assert|intros _].
    destruct v; (apply keeps_bind; [apply keeps_load|intros w; apply keeps_store]). }
  assert (forall n i, keeps_cnt (set_multiple_loop n start i v)) as Hloop.
  { induction n as [|n IH]; intros i; [by apply keeps_pure; intros b a b' [= _ <-]|].
    apply keeps_bind; [apply Hset|intros _; apply IH]. }
  apply keeps_bind; [|intros _; apply Hloop].
  apply keeps_bind; [apply keeps_get|intros b]. apply keeps_bind; [apply keeps_assert|intros _; apply keeps_assert].
Qed.

Lemma keeps_set_all v : keeps_cnt (bitmap_set_all v).
Proof.
  apply keeps_bind; [|intros n; apply keeps_set_multiple].
  by apply keeps_bind; [apply keeps_get|intros b; apply keeps_pure; intros ? ? ? [= _ <-]].
Qed.

(** Nor does marking pages move a pool. *)
Definition same_place (s s' : pstate) : Prop := forall w,
  base (the_pool w s') = base (the_pool w s) /\
  bit_cnt (used_map (the_pool w s')) = bit_cnt (used_map (the_pool w s)).

Lemma same_place_trans s1 s2 s3 : same_place s1 s2 -> same_place s2 s3 -> same_place s1 s3.
Proof. intros H1 H2 w. destruct (H1 w) as [<- <-]. apply H2. Qed.

Lemma on_map_place w start cnt v s s' :
  on_map w (bitmap_set_multiple start cnt v) s = Ok (tt, s') -> same_place s s'.
Proof.
  intros H. unfold on_map in H. apply rbind_inv in H as ([[] b'] & E & H). injection H as <-.
  intros w'. unfold set_map. rewrite the_pool_set. destruct (decide (w' = w)) as [->|]; [|done].
  by rewrite <- (keeps_set_multiple _ _ _ _ _ _ E).
Qed.

Lemma split_place fuel start end_ s s' : split fuel start end_ s = Ok (tt, s') -> same_place s s'.
Proof.
  revert start s. induction fuel as [|fuel IH]; intros start s H; cbn [split] in H; [done|].
  apply bind_inv in H as (s1 & s2 & Hg & H). injection Hg as <- <-.
  apply bind_inv in H as (w & s2 & Hw & H). assert (s2 = s) as ->.
  { destruct (page_from_pool (kernel_pool s) start); [by injection Hw|].
    destruct (page_from_pool (user_pool s) start); [by injection Hw|done]. }
  destruct (_ <? end_); [|by apply on_map_place in H].
  apply bind_inv in H as ([] & s2 & Hs & H). eapply same_place_trans; [by apply on_map_place in Hs|by apply IH in H].
Qed.

Lemma set_usable_place entries bound s s' : set_usable entries bound s = Ok (tt, s') -> same_place s s'.
Proof.
  revert s. induction entries as [|e entries IH]; intros s H; cbn [set_usable] in H; [by injection H as <-|].
  apply bind_inv in H as ([] & s1 & H1 & H). eapply same_place_trans; [|by apply IH in H].
  destruct (usable_type e); [|by injection H1 as <-]. destruct (_ <? bound); [by injection H1 as <-|].
  by apply split_place in H1.
Qed.

Lemma pg_round_up_start va :
  0 <= va < 2 ^ 64 -> pg_round_up va mod PGSIZE = 0 /\ 0 <= pg_round_up va < 2 ^ 64 /\
    (pg_round_up va <> 0 -> va <= pg_round_up va).
Proof.
  intros Hva. destruct (Z.le_gt_cases (va + PGSIZE) (2 ^ 64)) as [Hle|Hgt].
  - destruct (pg_round_up_spec va ltac:(lia) Hle) as [H1 H2]. split; [done|]. lia.
  - unfold pg_round_up. unfold PGSIZE in *. change (u64 (Z.lnot PGMASK)) with (2 ^ 64 - 2 ^ 12).
    rewrite land_lnot_ones by (lia || apply wrapu_range; lia). change (2 ^ 12) with 4096.
    destruct (Z.eq_dec va (2 ^ 64 - 4096)) as [->|]; [lia|].
    assert (u64 (va + 4096 - 1) = va + 4095 - 2 ^ 64) as ->.
    { unfold wrapu. rewrite <- (Z.mod_add _ (-1)), Z.mod_small; lia. }
    rewrite (Z.mod_small (va + 4095 - 2 ^ 64)) by lia. rewrite Z.sub_diag. split; [done|]. lia.
Qed.

Lemma set_usable_inv done_ entries bound s s' :
  0 <= bound < 2 ^ 64 -> boot_inv (done_ ++ entries) bound s ->
  set_usable entries bound s = Ok (tt, s') -> boot_inv (done_ ++ entries) bound s'.
Proof.
  intros Hb. revert done_ s. induction entries as [|e entries IH]; intros dn s B H; cbn [set_usable] in H.
  - by injection H as <-.
  - apply bind_inv in H as ([] & s1 & H1 & H).
    replace (dn ++ e :: entries) with ((dn ++ [e]) ++ entries) in * by by rewrite <- app_assoc.
    apply (IH _ s1); [|done]. destruct (usable_type e) eqn:Et; [|by injection H1 as <-].
    fold (entry_start e) in H1. fold (entry_end e) in H1.
    destruct (_ <? bound); [by injection H1 as <-|].
    assert (0 <= entry_start e < 2 ^ 64) as Hs by (apply wrapu_range; lia).
    set (va := if bound <=? entry_start e then entry_start e else bound) in *.
    assert (0 <= va < 2 ^ 64 /\ bound <= va /\ entry_start e <= va) as (Hva & Hv1 & Hv2)
      by (unfold va; destruct (Z.leb_spec bound (entry_start e)); lia).
    destruct (pg_round_up_start va Hva) as (Q1 & Q2 & Q3).
    eapply split_inv; [done| |done|exact Q1|exact Q2| |exact H1].
    + apply elem_of_app. left. apply elem_of_app. right. by apply list_elem_of_singleton.
    + intros Hne. specialize (Q3 Hne). lia.
Qed.

Lemma words_at_wf m a n : length (words_at m a n) = n /\ Forall (is_u 64) (words_at m a n).
Proof.
  unfold words_at. split; [rewrite length_fmap, length_seqZ; lia|].
  apply Forall_fmap, Forall_forall. intros i _. unfold compose.
  assert (forall bs, length bs = 8%nat -> Forall (is_u 8) bs -> is_u 64 (bytes_word bs)) as Hw.
  { intros bs El Hf. pose proof (bytes_word_range bs Hf) as H. rewrite El in H. exact H. }
  apply Hw; [done|]. apply Forall_fmap, Forall_forall. intros j _. by apply wrapu_range.
Qed.

(** All pages of the pool are marked as used. *)
Definition all_used (p : pool) : Prop :=
  wf (used_map p) /\ forall i, 0 <= i < bit_cnt (used_map p) -> page_used p i = true.

(** Where a new pool lies. *)
Lemma init_pool_place m bm start end_ p bm' :
  init_pool m bm start end_ = Ok (p, bm') ->
  base p = start /\ bit_cnt (used_map p) = u64 (end_ - start) / PGSIZE.
Proof.
  intros H. unfold init_pool in H. set (cnt := u64 (end_ - start) / PGSIZE) in *.
  unfold bitmap_create_in_buf in H. minv. unfold rassert in *.
  destruct (bitmap_buf_size cnt <=? _); [|done].
  match goal with H1 : bitmap_set_all false ?b0 = Ok ?r, H2 : _ = Ok a |- _ =>
    destruct r as [[] b1]; rename H1 into E1; injection H2 as <- end.
  destruct a0 as [[] b2]. injection H as <- <-. cbn [base used_map].
  by rewrite (keeps_set_all _ _ _ _ H1), (keeps_set_all _ _ _ _ E1).
Qed.

Lemma init_pool_placed m bm start end_ p bm' :
  init_pool m bm start end_ = Ok (p, bm') ->
  KERN_BASE <= start -> start mod PGSIZE = 0 -> start <= end_ <= 2 ^ 44 -> placed p.
Proof.
  intros H Hs Ha He. destruct (init_pool_place _ _ _ _ _ _ H) as [Eb Ec]. unfold placed, page_addr. rewrite Eb, Ec.
  rewrite wrapu_id by (unfold KERN_BASE in *; split; lia). split_and!; [done|done|].
  pose proof (Z.mul_div_le (end_ - start) PGSIZE ltac:(done)). lia.
Qed.

Lemma init_pool_inv m bm start end_ p bm' :
  init_pool m bm start end_ = Ok (p, bm') -> placed p -> 0 <= bm < 2 ^ 62 ->
  all_used p /\ bm' = bm + bitmap_bytes p /\ 0 <= bitmap_bytes p <= 2 ^ 34.
Proof.
  intros H (Hb & _ & Hp) Hbm. unfold init_pool in H. set (cnt := u64 (end_ - start) / PGSIZE) in *.
  unfold bitmap_create_in_buf in H. minv. unfold rassert in *.
  destruct (bitmap_buf_size cnt <=? _); [|done].
  match goal with H1 : bitmap_set_all false ?b0 = Ok ?r, H2 : _ = Ok a |- _ =>
    destruct r as [[] b1]; rename H1 into E1; injection H2 as <- end.
  destruct a0 as [[] b2]. injection H as <- <-. cbn [base used_map] in *.
  pose proof (keeps_set_all _ _ _ _ E1) as C1. pose proof (keeps_set_all _ _ _ _ H1) as C2. cbn [bit_cnt] in C1.
  assert (0 <= cnt < SIZE_MAX) as Hcnt.
  { split; [apply Z.div_pos; [by apply wrapu_range|done]|]. unfold page_addr, KERN_BASE, PGSIZE, SIZE_MAX in *.
    cbn [base used_map] in *. rewrite C2, C1 in Hp. lia. }
  destruct (words_at_wf m (bm + 16) (Z.to_nat (elem_cnt cnt))) as [Hl Hw].
  assert (0 <= elem_cnt cnt < 2 ^ 27) as Hec.
  { rewrite elem_cnt_spec by done. unfold SIZE_MAX in *. split; [apply Z.div_pos; lia|apply Z.div_lt_upper_bound; lia]. }
  assert (wf (Bitmap cnt (words_at m (bm + 16) (Z.to_nat (elem_cnt cnt))))) as W0.
  { split; cbn [bit_cnt bits]; [done|rewrite Hl; lia|done]. }
  destruct (bitmap_set_all_spec _ false W0) as (b1' & E1' & [W1 _ _]). rewrite E1 in E1'. injection E1' as <-.
  destruct (bitmap_set_all_spec b1 true W1) as (b2' & E2' & [W2 _ U2]). rewrite H1 in E2'. injection E2' as <-.
  split.
  - split; [done|]. cbn [used_map]. intros i Hi. unfold page_used. cbn [used_map]. rewrite U2 by lia.
    replace (in_range 0 (bit_cnt b1) i) with true; [done|]. unfold in_range. lia.
  - unfold bitmap_bytes. cbn [used_map]. rewrite C2, C1. unfold bitmap_buf_size, byte_cnt, DIV_ROUND_UP, PGSIZE.
    rewrite (wrapu_id 64 (8 * elem_cnt cnt)) by (split; lia).
    rewrite (wrapu_id 64 (16 + 8 * elem_cnt cnt)) by (split; lia).
    rewrite (wrapu_id 64 (16 + 8 * elem_cnt cnt + 4096)) by (split; lia).
    rewrite (wrapu_id 64 (16 + 8 * elem_cnt cnt + 4096 - 1)) by (split; lia).
    set (q := (16 + 8 * elem_cnt cnt + 4096 - 1) / 4096).
    assert (0 <= q < 2 ^ 20) as Hq by (split; [apply Z.div_pos; lia|apply Z.div_lt_upper_bound; lia]).
    rewrite (wrapu_id 64 (q * 4096)) by (split; lia). rewrite wrapu_id by (split; lia). lia.
Qed.

(** The kernel pool, once it exists, has all its pages marked as used. *)
Record carve_inv (fs0 : Z) (c : carve) : Prop := {
  ci_none : kpool c = None -> free_start c = fs0;
  ci_kern : state c = KERN_START \/ state c = KERN -> kpool c = None;
  ci_some p : kpool c = Some p -> placed p ->
    all_used p /\ free_start c = fs0 + bitmap_bytes p /\ 0 <= bitmap_bytes p <= 2 ^ 34
}.

Lemma carve_entry_inv m up e fs0 c c' :
  0 <= fs0 < 2 ^ 61 -> carve_inv fs0 c -> carve_entry m up e c = Ok c' -> carve_inv fs0 c'.
Proof.
  intros Hfs [C1 C2 C3] H. unfold carve_entry in H. destruct (usable_type e); [|by injection H as <-].
  destruct (state c) eqn:Es; cbv zeta beta in H.
  1, 2: assert (kpool c = None) as Ek by auto; pose proof (C1 Ek) as Ef;
    destruct (_ <? rem c); [injection H as <-; split; cbn; auto; congruence|];
    apply rbind_inv in H as ([p fs] & E & H);
    assert (forall p', Some p = Some p' -> placed p' -> all_used p' /\ fs = fs0 + bitmap_bytes p' /\ 0 <= bitmap_bytes p' <= 2 ^ 34) as Hp
      by (intros p' [= <-] Hpl; rewrite Ef in E; apply (init_pool_inv _ _ _ _ _ _ E Hpl); lia);
    destruct (rem c =? _); injection H as <-; split; cbn; try done; by intros [].
  - injection H as <-. split; cbn; auto; by intros [].
  - destruct (_ <? rem c); [injection H as <-; split; cbn; auto; by intros []|].
    apply rbind_inv in H as ([] & _ & H). injection H as <-. split; cbn; auto; by intros [].
Qed.

Lemma carve_pools_inv m up entries fs0 c c' :
  0 <= fs0 < 2 ^ 61 -> carve_inv fs0 c -> carve_pools m up entries c = Ok c' -> carve_inv fs0 c'.
Proof.
  intros Hfs. revert c. induction entries as [|e entries IH]; intros c C H; cbn [carve_pools] in H.
  - by injection H as <-.
  - apply rbind_inv in H as (c1 & E & H). apply (IH c1); [|done]. by apply (carve_entry_inv m up e _ c).
Qed.

(** The regions that the first loop cuts out of a sane map: [lo] is the end of
    the last usable entry. *)
Record carve_ok (lo : Z) (c : carve) : Prop := {
  co_rem : state c = KERN_START \/ state c = KERN -> 0 <= rem c;
  co_region : state c <> KERN_START ->
    KERN_BASE <= region_start c /\ region_start c mod PGSIZE = 0 /\ region_start c <= region_end c /\ region_end c = KERN_BASE + lo;
  co_some p : kpool c = Some p -> state c <> KERN_START /\ placed p
}.

Lemma carve_entry_ok m up e lo c c' :
  usable_type e = true -> lo <= phys_start e -> phys_start e mod PGSIZE = 0 -> phys_start e + phys_len e <= MEM_TOP ->
  carve_ok lo c -> carve_entry m up e c = Ok c' -> carve_ok (phys_start e + phys_len e) c'.
Proof.
  intros Ht Hlo Ha Hm [C1 C2 C3] H. unfold carve_entry in H. rewrite Ht in H. fold (phys_start e) (phys_len e) in H.
  assert (0 <= phys_start e /\ 0 <= phys_len e) as [Hs0 Hl0] by (split; apply wrapu_range; lia).
  unfold ptov in H. rewrite (wrapu_id 64 (phys_start e + KERN_BASE)) in H by (unfold MEM_TOP, KERN_BASE in *; split; lia).
  rewrite (wrapu_id 64 (_ + phys_len e)) in H by (unfold MEM_TOP, KERN_BASE in *; split; lia).
  set (st := phys_start e) in *. set (len := phys_len e) in *. cbv zeta in H.
  pose proof (Z.mul_div_le len PGSIZE ltac:(done)) as Hq. pose proof (Z.div_pos len PGSIZE Hl0 ltac:(done)) as Hq0.
  assert ((st + KERN_BASE) mod PGSIZE = 0) as Hast by (rewrite Zplus_mod, Ha; done).
  assert (forall rs, KERN_BASE <= rs -> rs mod PGSIZE = 0 -> rs <= st + KERN_BASE -> 0 <= rem c ->
    (if len / PGSIZE <? rem c then Ok (Carve KERN (rem c - len / PGSIZE) rs (st + KERN_BASE + len) (kpool c) (free_start c))
     else
       let split := u64 (st + KERN_BASE + u64 (rem c * PGSIZE)) in
       let! (p, fs) := init_pool m (free_start c) rs split in
       if rem c =? len / PGSIZE then Ok (Carve USER_START up rs (st + KERN_BASE + len) (Some p) fs)
       else Ok (Carve PUSER (u64 (up - len / PGSIZE + rem c)) split (st + KERN_BASE + len) (Some p) fs)) = Ok c' ->
    (forall p, kpool c = Some p -> placed p) -> carve_ok (st + len) c') as Hkern.
  { clear H. intros rs R1 R2 R3 R4 H Hp. destruct (Z.ltb_spec (len / PGSIZE) (rem c)) as [Hlt|Hge].
    - injection H as <-. split; cbn; [lia|intros _; split_and!; lia|]. intros p E. split; [done|by apply Hp].
    - assert (0 <= rem c * PGSIZE <= len) as Hr by (unfold PGSIZE in *; nia).
      rewrite (wrapu_id 64 (rem c * PGSIZE)), wrapu_id in H by (unfold MEM_TOP, KERN_BASE in *; split; lia). cbv zeta in H.
      apply rbind_inv in H as ([p fs] & E & H).
      assert (placed p) as Pp by (apply (init_pool_placed _ _ _ _ _ _ E); unfold MEM_TOP, KERN_BASE in *; lia || done).
      destruct (rem c =? _); injection H as <-; split; cbn; try (by intros []); try (by intros p' [= <-]); intros _; split_and!; try lia.
      rewrite Z.mod_add; done. }
  destruct (state c) eqn:Est; cbv beta iota zeta in H.
  - apply (Hkern (st + KERN_BASE)); try done; try lia; [apply C1; auto|]. intros p E. apply (C3 p E).
  - destruct C2 as (D1 & D2 & D3 & D4); [done|]. apply (Hkern (region_start c)); try done; try lia; [apply C1; auto|].
    intros p E. apply (C3 p E).
  - destruct C2 as (D1 & D2 & D3 & D4); [done|]. injection H as <-. split; cbn; [by intros []|intros _; split_and!; done || lia|].
    intros p E. split; [done|apply (C3 p E)].
  - destruct C2 as (D1 & D2 & D3 & D4); [done|].
    assert (exists r, c' = Carve PUSER r (region_start c) (st + KERN_BASE + len) (kpool c) (free_start c)) as [r ->].
    { destruct (_ <? rem c); [injection H as <-; by eexists|]. apply rbind_inv in H as ([] & _ & H). injection H as <-. by eexists. }
    split; cbn; [by intros []|intros _; split_and!; done || lia|]. intros p E. split; [done|apply (C3 p E)].
Qed.

Lemma carve_start_ok bytes user fs rs re :
  let total := u64 bytes / PGSIZE in
  carve_ok 0 (Carve KERN_START (total - (if user <? total / 2 then user else total / 2)) rs re None fs).
Proof.
  cbv zeta. assert (0 <= u64 bytes / PGSIZE) as H by (apply Z.div_pos; [apply wrapu_range; lia|done]).
  set (t := u64 bytes / PGSIZE) in *. pose proof (Z.mul_div_le t 2 ltac:(done)).
  split; cbn; [intros _|done|done]. destruct (Z.ltb_spec user (t / 2)); lia.
Qed.

Lemma carve_pools_ok m up entries lo c c' :
  sane_from lo entries = true -> lo <= MEM_TOP -> carve_ok lo c -> carve_pools m up entries c = Ok c' ->
  exists lo', carve_ok lo' c' /\ lo' <= MEM_TOP.
Proof.
  revert lo c. induction entries as [|e entries IH]; intros lo c Hs Hl C H; cbn [carve_pools sane_from] in *.
  - injection H as <-. by exists lo.
  - apply rbind_inv in H as (c1 & E & H). destruct (usable_type e) eqn:Et.
    + rewrite !andb_true_iff, !Z.leb_le, Z.eqb_eq in Hs. destruct Hs as (((H1 & H2) & H3) & H4).
      apply (IH _ c1 H4 H3); [|done]. by apply (carve_entry_ok m up e lo c c1).
    + apply (IH lo c1); try done. unfold carve_entry in E. rewrite Et in E. by injection E as <-.
Qed.

(** ** Properties *)

(** [palloc_get_multiple] returns the first group of contiguous free pages
    of the pool that the flags select, marks exactly those pages as used and
    nothing else, and fills them with zeros when [PAL_ZERO] is set; it returns
    a null pointer, or panics when [PAL_ASSERT] is set, exactly when the pool
    has no such group, and then changes nothing.  The invariant of the
    allocator is kept. *)
Theorem palloc_get_first_fit s flags cnt :
  pools_ok s -> 0 <= cnt ->
  get_outcome s flags cnt (palloc_get_multiple flags cnt s) /\
  forall p s', palloc_get_multiple flags cnt s = Ok (p, s') -> pools_ok s'.
Proof.
  intros Hok Hc. pose proof (palloc_get_outcome s flags cnt Hok Hc) as O. split; [done|].
  intros p s' E. rewrite E in O. inversion O as [i s1 p1 H1 H2 H3 H4 H5 H6|r p1 H1 H2]; subst.
  - eapply pages_updated_ok; [done|done|]. intros a Ha. destruct (has_flag flags PAL_ZERO).
    + by apply (written_some _ _ _ _ _ H6).
    + by rewrite H6.
  - destruct (has_flag flags PAL_ASSERT); [done|]. by injection H2 as _ ->.
Qed.

Definition demo_mapped (a : Z) : bool :=
  in_range 0x8004200000 0x3000 a || in_range 0x8004300000 0x2000 a.
Definition demo_ram : mem := fun a => if demo_mapped a then Some 7 else None.
(** A kernel pool of three pages, with the usage [k], and a user pool of two. *)
Definition demo_pools_at (k : Z) : pstate :=
  PState (Pool false (Bitmap 3 [k]) 0x8004200000) (Pool false (Bitmap 2 [0]) 0x8004300000) demo_ram.
Definition demo_pools : pstate := demo_pools_at 1.

Lemma demo_pools_ok : pools_ok demo_pools.
Proof.
  split.
  - assert (forall n w, 0 < n < 64 -> is_u 64 w -> wf (Bitmap n [w])) as Hwf.
    { intros n w Hn Hw. split; cbn; [unfold SIZE_MAX; lia| |by constructor].
      rewrite elem_cnt_spec by (unfold SIZE_MAX; lia). apply (Z.div_unique _ _ _ (n - 1)); lia. }
    assert (forall w a, pool_bytes (the_pool w demo_pools) a -> is_Some (ram demo_pools a)) as Hm.
    { intros w a Ha. change (is_Some (if demo_mapped a then Some 7 else None)).
      replace (demo_mapped a) with true; [by eexists|]. symmetry. unfold demo_mapped, pool_bytes, page_addr, PGSIZE in *.
      unfold in_range. destruct w; cbn in Ha; lia. }
    intros w. split; [destruct w; by apply Hwf|by destruct w..|apply Hm].
  - intros a. unfold pool_bytes, page_addr, PGSIZE. cbn. lia.
Qed.

Lemma palloc_get_first_fit_witness :
  get_outcome demo_pools PAL_ZERO 2 (palloc_get_multiple PAL_ZERO 2 demo_pools) /\
  get_outcome demo_pools PAL_USER 3 (Ok (NULL, demo_pools)).
Proof.
  split.
  - apply (palloc_get_first_fit demo_pools PAL_ZERO 2 demo_pools_ok). lia.
  - change (get_outcome demo_pools PAL_USER 3 (palloc_get_multiple PAL_USER 3 demo_pools)).
    apply (palloc_get_first_fit demo_pools PAL_USER 3 demo_pools_ok). lia.
Defined.

(** C7: Over any history of allocations, releases and writes to the memory,
    no two blocks that clients hold share a byte, every held block lies inside
    one pool on pages that were free at the start, the pages in use are
    exactly those in use at the start and those of the held blocks (so nothing
    is leaked), and releasing any held block succeeds. *)
Theorem palloc_blocks_exclusive s0 s h :
  pools_ok s0 -> history (s0, []) (s, h) ->
  (forall a, (cover_cnt a h <= 1)%nat) /\
  (forall a b, b ∈ h -> covers a b = true ->
     exists w, pool_bytes (the_pool w s0) a /\ byte_used (the_pool w s0) a = false) /\
  (forall w a, pool_bytes (the_pool w s0) a ->
     byte_used (the_pool w s) a = byte_used (the_pool w s0) a || (0 <? cover_cnt a h)%nat) /\
  (forall b, b ∈ h -> exists s', palloc_free_multiple (fst b) (snd b) s = Ok (tt, s')).
Proof.
  intros Hok Hh. pose proof (history_ledger s0 s h Hok Hh) as L. pose proof L as [L1 L2 L3 L4 L5].
  assert (forall w a, pool_bytes (the_pool w s) a <-> pool_bytes (the_pool w s0) a) as Hb.
  { intros w a. unfold pool_bytes, page_addr. by rewrite L2, L3. }
  assert (forall a b, b ∈ h -> covers a b = true ->
    (1 <= cover_cnt a h)%nat /\ exists w, pool_bytes (the_pool w s) a) as Hin.
  { intros a b Hbh Hc. split.
    - apply list_elem_of_lookup in Hbh as [k Hk]. rewrite (cover_cnt_delete a h k b Hk), Hc. cbn. lia.
    - destruct (L4 b Hbh) as (w & i & Eb & Hi & Hs & Hr). exists w. destruct b as [p c]. cbn [fst snd] in *. subst p.
      by apply (covers_inside _ i c). }
  split_and!.
  - intros a. by apply (ledger_once s0 s).
  - intros a b Hbh Hc. destruct (Hin a b Hbh Hc) as [H1 [w Ha]]. exists w. split; [by apply Hb|].
    specialize (L5 w a Ha). destruct (byte_used (the_pool w s0) a); [|done].
    destruct (byte_used (the_pool w s) a); cbn in L5; lia.
  - intros w a Ha. apply Hb in Ha. specialize (L5 w a Ha). destruct (Nat.ltb_spec 0 (cover_cnt a h));
      destruct (byte_used (the_pool w s) a), (byte_used (the_pool w s0) a); cbn in *; try done; lia.
  - intros [p c] Hbh. apply list_elem_of_lookup in Hbh as [k Hk].
    apply (ledger_perm _ _ _ _ (delete_perm h k _ Hk)), ledger_free in L as (s' & E & _). by exists s'.
Qed.

Lemma palloc_blocks_exclusive_witness :
  exists s, history (demo_pools, []) (s, [(0x8004202000, 1); (0x8004201000, 1)]) /\
    exists s', palloc_free_multiple 0x8004201000 1 s = Ok (tt, s').
Proof.
  assert (history (demo_pools, []) (demo_pools_at 7, [(0x8004202000, 1); (0x8004201000, 1)])) as H.
  { apply (h_get _ (demo_pools_at 3) _ 0); [|lia|reflexivity|done].
    apply (h_get _ demo_pools _ 0); [apply h_start|lia|reflexivity|done]. }
  exists (demo_pools_at 7). split; [exact H|].
  destruct (palloc_blocks_exclusive demo_pools _ _ demo_pools_ok H) as (_ & _ & _ & Hf).
  apply (Hf (0x8004201000, 1)). by_eval.
Defined.

(** C8: On a sane memory map (usable entries that start at page boundaries, in
    the order of their addresses, without overlap, below 15 TiB), and with the
    kernel image ending below 2^60, the following holds when [palloc_init]
    returns.  Both pools start at page boundaries in the direct map of physical
    memory, and every page that is marked free in either of them lies entirely
    inside a usable entry of the map, and behind the kernel image and the two
    bitmaps that follow it: the allocator never hands out memory that does not
    exist, that firmware owns, or that holds the kernel or the bitmaps.  (An
    entry that does not start at a page boundary can give pools whose pages
    cross the end of an entry; no claim is made about such maps.) *)
Theorem palloc_init_usable_pages m end_of_kernel limit entries top s :
  palloc_init m end_of_kernel limit entries = Ok (top, s) ->
  0 <= end_of_kernel < 2 ^ 60 -> sane_map entries = true ->
  end_of_kernel <= bitmaps_end end_of_kernel s /\
  forall w, placed (the_pool w s) /\
    forall i, 0 <= i < bit_cnt (used_map (the_pool w s)) -> page_used (the_pool w s) i = false ->
      usable_page entries (bitmaps_end end_of_kernel s) (page_addr (the_pool w s) i).
Proof.
  intros H Hk Hsane. unfold palloc_init in H. destruct (resolve_area_info entries _ _) as [bm em].
  apply rbind_inv in H as (s1 & H & E). injection E as _ ->. unfold populate_pools in H.
  apply rbind_inv in H as (c & Hc & H). apply rbind_inv in H as ([up fs] & Hu & H).
  apply rbind_inv in H as (kp & Hkp & H). apply rbind_inv in H as ([[] s2] & Hs & H). injection H as ->.
  destruct (pg_round_up_spec end_of_kernel) as [_ Hfs]; [lia|unfold PGSIZE; lia|]. unfold PGSIZE in Hfs.
  unfold bitmaps_end. set (fs0 := pg_round_up end_of_kernel) in *.
  destruct (kpool c) as [p|] eqn:Ekp; [|done]. injection Hkp as ->.
  destruct (carve_pools_ok _ _ _ 0 _ _ Hsane ltac:(unfold MEM_TOP; lia) (carve_start_ok _ _ _ _ _) Hc) as (lo & [_ Co Cs] & Hlo).
  destruct (Cs kp Ekp) as [Hst Pk]. destruct (Co Hst) as (R1 & R2 & R3 & R4).
  assert (placed up) as Pu by (apply (init_pool_placed _ _ _ _ _ _ Hu); unfold MEM_TOP, KERN_BASE in *; lia || done).
  assert (carve_inv fs0 c) as C by (eapply carve_pools_inv; [lia| |exact Hc]; by split).
  destruct (ci_some _ _ C kp Ekp Pk) as ([Wk Ak] & Fk & Bk).
  destruct (init_pool_inv _ _ _ _ _ _ Hu Pu) as ([Wu Au] & Fu & Bu); [lia|].
  assert (boot_inv entries fs (PState kp up m)) as B.
  { split; intros []; try done; intros i Hi Hf; exfalso;
      [pose proof (Ak i Hi)|pose proof (Au i Hi)]; cbn [the_pool kernel_pool user_pool] in Hf; congruence. }
  pose proof (set_usable_inv [] entries fs _ s ltac:(lia) B Hs) as [B1 B2 B3].
  assert (fs0 + bitmap_bytes (kernel_pool s) + bitmap_bytes (user_pool s) = fs) as ->.
  { pose proof (set_usable_place _ _ _ _ Hs) as Hplace. destruct (Hplace KERNEL) as [_ E1], (Hplace USER) as [_ E2].
    cbn in E1, E2. unfold bitmap_bytes in *. rewrite E1, E2. lia. }
  split; [lia|]. intros w. split; [apply B2|apply B3].
Qed.

(** Two usable regions, as the boot loader reports them: below 640 kB, and
    1 MB at address 1 MB. *)
Definition demo_e820 : list e820_entry :=
  [E820 0 0 0x9fc00 0 1; E820 0xf0000 0 0x10000 0 2; E820 0x100000 0 0x100000 0 1].
Definition demo_boot : result (Z * pstate) :=
  palloc_init demo_ram (KERN_BASE + 0x110000) SIZE_MAX demo_e820.
Definition boot_summary : list (Z * Z * list Z) :=
  match demo_boot with
  | Ok (_, s) => (fun p => (base p, bit_cnt (used_map p), bits (used_map p))) <$> [kernel_pool s; user_pool s]
  | _ => []
  end.

Lemma palloc_init_usable_pages_witness :
  exists top s, demo_boot = Ok (top, s) /\
    page_used (kernel_pool s) 0x112 = false /\
    usable_page demo_e820 (bitmaps_end (KERN_BASE + 0x110000) s) (page_addr (kernel_pool s) 0x112).
Proof.
  assert (boot_summary =
    [(549822922752, 305, [2 ^ 64 - 1; 2 ^ 64 - 1; 2 ^ 64 - 1; 2 ^ 64 - 1; 262143]);
     (549824172032, 207, [0; 0; 0; 0])]) as Hsum by (vm_compute; reflexivity).
  unfold boot_summary in Hsum. destruct demo_boot as [[top s]| | | |] eqn:E; try discriminate Hsum.
  cbn in Hsum. injection Hsum as Eb1 Ec1 Em1 Eb2 Ec2 Em2.
  assert (page_used (kernel_pool s) 0x112 = false) as Hfree.
  { unfold page_used, bit. rewrite Em1. reflexivity. }
  exists top, s. split; [reflexivity|]. split; [exact Hfree|].
  destruct (palloc_init_usable_pages demo_ram (KERN_BASE + 0x110000) SIZE_MAX demo_e820 top s E) as [_ Hw].
  - unfold KERN_BASE. lia.
  - reflexivity.
  - apply (Hw KERNEL); [cbn [the_pool]; rewrite Ec1; lia|exact Hfree].
Defined.

(** With a third usable region the last assertion of [populate_pools], which
    compares a number of pages with a number of bytes, panics at boot. *)
Lemma palloc_init_three_regions :
  palloc_init demo_ram (KERN_BASE + 0x110000) SIZE_MAX
    [E820 0 0 0x9f000 0 1; E820 0x100000 0 0x100000 0 1; E820 0x300000 0 0x1000 0 1] = Panic.
Proof. vm_compute. reflexivity. Qed.
