(* ===== verification/Malloc.v ===== *)
(** * The block allocator (threads/malloc.c)

    Blocks of 16 to 1024 bytes come from arenas, one page each, and larger
    ones directly from the page allocator.  The state is that of the page
    allocator, the descriptors, and the arena headers, one per page that
    starts with one: a page without a header fails the check of the magic
    number (the page allocator overwrites a page that is given back).  The
    free list of a descriptor is the sequence of the blocks on it, which is
    what KListSpec shows the linked list to be; headers and links lie in
    memory that no client owns, which is what [Inv] below says of them. *)

From S2P Require Import Prelude Bitmap CString Palloc.

(** ** Data *)

(** [struct desc]. *)
Record desc := Desc {
  block_size_of : Z; blocks_per_arena : Z; free_list : list Z; d_lock : bool }.
(** [struct arena]; [a_desc] is the index of the descriptor, [None] for a big
    block. *)
Record arena := Arena { a_desc : option nat; free_cnt : Z }.
Record mstate := MState { pal : pstate; descs : list desc; arenas : gmap Z arena }.

Definition SIZEOF_ARENA : Z := 24.

Definition set_descs (f : list desc -> list desc) (s : mstate) : mstate :=
  MState (pal s) (f (descs s)) (arenas s).
Definition set_arenas (f : gmap Z arena -> gmap Z arena) (s : mstate) : mstate :=
  MState (pal s) (descs s) (f (arenas s)).
Definition on_pal {A} (f : M pstate A) : M mstate A := fun s =>
  let! (a, p) := f (pal s) in Ok (a, MState p (descs s) (arenas s)).
Definition get_desc (d : nat) : M mstate desc := fun s =>
  let! x := deref (descs s !! d) in Ok (x, s).
Definition get_arena (a : Z) : M mstate arena := fun s =>
  match arenas s !! a with Some x => Ok (x, s) | None => Panic end.
Definition set_free_list (d : nat) (l : list Z) : M mstate unit :=
  x ← get_desc d;
  modify (set_descs (<[d := Desc (block_size_of x) (blocks_per_arena x) l (d_lock x)]>)).
Definition set_arena (a : Z) (x : arena) : M mstate unit := modify (set_arenas (<[a := x]>)).

Definition d_acquire (d : nat) : M mstate unit :=
  x ← get_desc d;
  if d_lock x then lift Block
  else modify (set_descs (<[d := Desc (block_size_of x) (blocks_per_arena x) (free_list x) true]>)).
Definition d_release (d : nat) : M mstate unit :=
  x ← get_desc d;
  ASSERT (d_lock x);;
  modify (set_descs (<[d := Desc (block_size_of x) (blocks_per_arena x) (free_list x) false]>)).

(** A page that is given back loses its header: the page allocator overwrites
    it, unless it was asked to free no page at all. *)
Definition forget_arena (a page_cnt : Z) : M mstate unit :=
  modify (set_arenas (fun m => if page_cnt =? 0 then m else delete a m)).

(** ** Operations *)

(** [for (block_size = 16; block_size < PGSIZE / 2; block_size *= 2)]. *)
Fixpoint malloc_init_loop (fuel : nat) (block_size : Z) (ds : list desc) : result (list desc) :=
  if block_size <? PGSIZE / 2 then
    match fuel with
    | O => NoFuel
    | S fuel =>
        let! _ := rassert (length ds <? 10)%nat in
        malloc_init_loop fuel (block_size * 2)
          (ds ++ [Desc block_size ((PGSIZE - SIZEOF_ARENA) / block_size) [] false])
    end
  else Ok ds.
Definition malloc_init (p : pstate) : result mstate :=
  let! ds := malloc_init_loop 10 16 [] in Ok (MState p ds ∅).

Definition block_to_arena (b : Z) : M mstate Z :=
  let a := pg_round_down b in
  ASSERT (negb (a =? NULL));;
  x ← get_arena a;
  match a_desc x with
  | Some d =>
      y ← get_desc d;
      ASSERT (u64 (pg_ofs b - SIZEOF_ARENA) mod block_size_of y =? 0);; ret a
  | None => ASSERT (pg_ofs b =? SIZEOF_ARENA);; ret a
  end.

Definition arena_to_block (a idx : Z) : M mstate Z :=
  ASSERT (negb (a =? NULL));;
  x ← get_arena a;
  match a_desc x with
  | Some d =>
      y ← get_desc d;
      ASSERT (idx <? blocks_per_arena y);;
      ret (u64 (a + SIZEOF_ARENA + idx * block_size_of y))
  | None => lift Fault
  end.

(** The loop that finds the descriptor. *)
Fixpoint find_desc (ds : list desc) (size : Z) : option nat :=
  match ds with
  | [] => None
  | d :: ds => if size <=? block_size_of d then Some O else S <$> find_desc ds size
  end.

(** Adds the blocks of arena [a], from [i] on, to the free list of [d]. *)
Fixpoint fill_arena (n : nat) (a i : Z) (d : nat) : M mstate unit :=
  match n with
  | O => ret tt
  | S n =>
      b ← arena_to_block a i;
      x ← get_desc d;
      set_free_list d (free_list x ++ [b]);;
      fill_arena n a (i + 1) d
  end.

Definition malloc (size : Z) : M mstate Z :=
  if size =? 0 then ret NULL
  else
    s ← get;
    match find_desc (descs s) size with
    | None =>
        let page_cnt := DIV_ROUND_UP (u64 (size + SIZEOF_ARENA)) PGSIZE in
        a ← on_pal (palloc_get_multiple 0 page_cnt);
        if a =? NULL then ret NULL
        else set_arena a (Arena None page_cnt);; ret (u64 (a + SIZEOF_ARENA))
    | Some d =>
        d_acquire d;;
        x ← get_desc d;
        ok ← (if bool_decide (free_list x = []) then
                a ← on_pal (palloc_get_page 0);
                if a =? NULL then d_release d;; ret false
                else
                  set_arena a (Arena (Some d) (blocks_per_arena x));;
                  fill_arena (Z.to_nat (blocks_per_arena x)) a 0 d;; ret true
              else ret true);
        if negb ok then ret NULL
        else
          x ← get_desc d;
          match free_list x with
          | [] => lift Panic
          | b :: l =>
              set_free_list d l;;
              a ← block_to_arena b;
              y ← get_arena a;
              set_arena a (Arena (a_desc y) (u64 (free_cnt y - 1)));;
              d_release d;;
              ret b
          end
    end.

(** Takes the blocks of arena [a], from [i] on, off the free list of [d]; a
    block that is not on the list would corrupt memory. *)
Fixpoint drain_arena (n : nat) (a i : Z) (d : nat) : M mstate unit :=
  match n with
  | O => ret tt
  | S n =>
      b ← arena_to_block a i;
      x ← get_desc d;
      if bool_decide (b ∈ free_list x) then
        set_free_list d (List.filter (fun c => negb (c =? b)) (free_list x));;
        drain_arena n a (i + 1) d
      else lift Fault
  end.

Definition free (p : Z) : M mstate unit :=
  if p =? NULL then ret tt
  else
    a ← block_to_arena p;
    x ← get_arena a;
    match a_desc x with
    | Some d =>
        y ← get_desc d;
        on_pal (on_ram (memset p 0xcc (block_size_of y)));;
        d_acquire d;;
        z ← get_desc d;
        set_free_list d (p :: free_list z);;
        let n := u64 (free_cnt x + 1) in
        set_arena a (Arena (Some d) n);;
        (if blocks_per_arena y <=? n then
           ASSERT (n =? blocks_per_arena y);;
           drain_arena (Z.to_nat (blocks_per_arena y)) a 0 d;;
           on_pal (palloc_free_page a);;
           forget_arena a 1
         else ret tt);;
        d_release d
    | None =>
        on_pal (palloc_free_multiple a (free_cnt x));;
        forget_arena a (free_cnt x)
    end.

Definition calloc (a b : Z) : M mstate Z :=
  let size := u64 (a * b) in
  if (size <? a) || (size <? b) then ret NULL
  else
    p ← malloc size;
    (if negb (p =? NULL) then (on_pal (on_ram (memset p 0 size));; ret tt) else ret tt);;
    ret p.

Definition block_size (block : Z) : M mstate Z :=
  a ← block_to_arena block;
  x ← get_arena a;
  match a_desc x with
  | Some d => y ← get_desc d; ret (block_size_of y)
  | None => ret (u64 (u64 (PGSIZE * free_cnt x) - pg_ofs block))
  end.

Definition realloc (old_block new_size : Z) : M mstate Z :=
  if new_size =? 0 then free old_block;; ret NULL
  else
    new_block ← malloc new_size;
    (if negb (old_block =? NULL) && negb (new_block =? NULL) then
       old_size ← block_size old_block;
       let min_size := if new_size <? old_size then new_size else old_size in
       on_pal (on_ram (memcpy new_block old_block min_size));;
       free old_block
     else ret tt);;
    ret new_block.

(** ** Geometry of arenas *)

(** The page of an address. *)
Definition page_of (x : Z) : Z := x - x mod PGSIZE.
(** [x] is a block of an arena with blocks of [bs] bytes. *)
Definition block_pos (bs x : Z) : bool :=
  let o := x mod PGSIZE - SIZEOF_ARENA in
  (0 <=? o) && (o mod bs =? 0) && (o / bs <? (PGSIZE - SIZEOF_ARENA) / bs).
Definition arena_block (a bs i : Z) : Z := a + SIZEOF_ARENA + i * bs.

Definition good_size (bs : Z) : Prop := 16 <= bs <= 1024.

Lemma arena_blocks_fit bs i :
  good_size bs -> 0 <= i < (PGSIZE - SIZEOF_ARENA) / bs ->
  SIZEOF_ARENA <= SIZEOF_ARENA + i * bs /\ SIZEOF_ARENA + i * bs + bs <= PGSIZE.
Proof.
  unfold good_size, PGSIZE, SIZEOF_ARENA. intros Hb Hi.
  pose proof (Z.mul_div_le (4096 - 24) bs ltac:(lia)). nia.
Qed.

Lemma blocks_per_arena_pos bs : good_size bs -> 3 <= (PGSIZE - SIZEOF_ARENA) / bs < 256.
Proof.
  unfold good_size, PGSIZE, SIZEOF_ARENA. intros Hb. split.
  - apply Z.div_le_lower_bound; lia.
  - apply Z.div_lt_upper_bound; lia.
Qed.

Lemma page_of_add a o : a mod PGSIZE = 0 -> 0 <= o < PGSIZE -> page_of (a + o) = a /\ (a + o) mod PGSIZE = o.
Proof.
  intros Ha Ho. assert ((a + o) mod PGSIZE = o) as E.
  { rewrite Z.add_mod, Ha, Z.add_0_l, Z.mod_mod by done. by apply Z.mod_small. }
  unfold page_of. rewrite E. split; [lia|done].
Qed.

(** The blocks of arena [a] are its addresses at block positions. *)
Lemma arena_block_pos a bs x :
  good_size bs -> a mod PGSIZE = 0 ->
  (exists i, 0 <= i < (PGSIZE - SIZEOF_ARENA) / bs /\ x = arena_block a bs i) <->
  (page_of x = a /\ block_pos bs x = true).
Proof.
  intros Hb Ha. unfold block_pos, arena_block. split.
  - intros (i & Hi & ->). pose proof (arena_blocks_fit bs i Hb Hi) as [F1 F2]. unfold good_size in Hb.
    rewrite <- Z.add_assoc.
    destruct (page_of_add a (SIZEOF_ARENA + i * bs) Ha ltac:(unfold SIZEOF_ARENA in *; lia)) as [E1 E2].
    rewrite E2. split; [done|]. replace (SIZEOF_ARENA + i * bs - SIZEOF_ARENA) with (i * bs) by lia.
    rewrite Z.mod_mul, Z.div_mul by lia. lia.
  - intros [Hp Hx]. apply andb_true_iff in Hx as [Hx H3]. apply andb_true_iff in Hx as [H1 H2].
    unfold good_size in Hb. unfold page_of in Hp. set (o := x mod PGSIZE - SIZEOF_ARENA) in *.
    exists (o / bs). pose proof (Z.div_mod o bs ltac:(lia)). split; [split; [apply Z.div_pos; lia|lia]|].
    unfold o in *. lia.
Qed.

Lemma page_of_round x : is_u64 x -> pg_round_down x = page_of x.
Proof. intros H. by rewrite pg_round_down_sub. Qed.

(** ** Invariant *)

Definition count (x : Z) (l : list Z) : nat := count_occ Z.eq_dec l x.
Definition in_page (a : Z) (l : list Z) : list Z := List.filter (fun x => page_of x =? a) l.

(** Pages of an arena. *)
Definition arena_pages (x : arena) : Z := match a_desc x with Some _ => 1 | None => free_cnt x end.

(** The pages of all arenas. *)
Definition held_pages (m : gmap Z arena) : held := prod_map id arena_pages <$> map_to_list m.

(** The descriptors, with the lock of [locked] taken. *)
Definition descs_ok (locked : option nat) (ds : list desc) : Prop :=
  length ds = 7%nat /\
  forall i d, ds !! i = Some d ->
    block_size_of d = 2 ^ (4 + Z.of_nat i) /\
    blocks_per_arena d = (PGSIZE - SIZEOF_ARENA) / block_size_of d /\
    d_lock d = bool_decide (locked = Some i).

Definition free_of (s : mstate) (d : nat) : list Z := from_option free_list [] (descs s !! d).
Definition size_of (d : nat) : Z := 2 ^ (4 + Z.of_nat d).

(** Every block of every arena is exactly once either on the free list of its
    descriptor or in the hands of a client ([live]: address and size asked
    for), [free_cnt] counts the former, and the pages of the arenas are what
    the allocator holds from the page allocator. *)
Record Inv (s0 : pstate) (locked : option nat) (s : mstate) (live : list (Z * Z)) : Prop := {
  i_descs : descs_ok locked (descs s);
  i_free d x : x ∈ free_of s d -> exists n, arenas s !! page_of x = Some (Arena (Some d) n);
  i_blocks x : match arenas s !! page_of x with
    | None => count x (live.*1) = O
    | Some (Arena (Some d) _) =>
        (d < 7)%nat /\ (count x (live.*1) + count x (free_of s d))%nat = Nat.b2n (block_pos (size_of d) x)
    | Some (Arena None _) => count x (live.*1) = Nat.b2n (x mod PGSIZE =? SIZEOF_ARENA)
    end;
  i_count a d n : arenas s !! a = Some (Arena (Some d) n) ->
    n = Z.of_nat (length (in_page a (free_of s d)));
  i_size x n : (x, n) ∈ live -> 0 < n /\ match arenas s !! page_of x with
    | None => False
    | Some (Arena (Some d) _) => n <= size_of d
    | Some (Arena None c) => n + SIZEOF_ARENA <= c * PGSIZE
    end;
  i_pages : ledger s0 (pal s) (held_pages (arenas s))
}.

(** ** Steps on the state *)

Lemma held_fresh m k v : m !! k = None -> held_pages (<[k := v]> m) ≡ₚ (k, arena_pages v) :: held_pages m.
Proof. intros H. unfold held_pages. by rewrite map_to_list_insert. Qed.

Lemma held_delete m k v : m !! k = Some v -> held_pages m ≡ₚ (k, arena_pages v) :: held_pages (delete k m).
Proof. intros H. unfold held_pages. by rewrite <- (map_to_list_delete m k v H). Qed.

Lemma held_update m k v v' :
  m !! k = Some v -> arena_pages v' = arena_pages v -> held_pages (<[k := v']> m) ≡ₚ held_pages m.
Proof.
  intros H E. rewrite (held_delete m k v H), <- E.
  rewrite <- (insert_delete_eq m k v'). apply held_fresh, lookup_delete_eq.
Qed.

Lemma held_in m k v : m !! k = Some v -> (k, arena_pages v) ∈ held_pages m.
Proof.
  intros H. unfold held_pages. apply list_elem_of_fmap. exists (k, v). split; [done|]. by apply elem_of_map_to_list.
Qed.

Lemma size_of_good d : (d < 7)%nat -> good_size (size_of d).
Proof.
  intros H. unfold good_size, size_of. change 16 with (2 ^ 4). change 1024 with (2 ^ 10).
  split; apply Z.pow_le_mono_r; lia.
Qed.

Lemma get_desc_run s d x : descs s !! d = Some x -> get_desc d s = Ok (x, s).
Proof. unfold get_desc. by intros ->. Qed.

Lemma get_arena_run s a x : arenas s !! a = Some x -> get_arena a s = Ok (x, s).
Proof. unfold get_arena. by intros ->. Qed.

Lemma set_free_list_run s d x l :
  descs s !! d = Some x ->
  set_free_list d l s = Ok (tt, set_descs (<[d := Desc (block_size_of x) (blocks_per_arena x) l (d_lock x)]>) s).
Proof. intros H. unfold set_free_list. by mstep (get_desc_run _ _ _ H). Qed.

Lemma desc_of lk ds d :
  descs_ok lk ds -> (d < 7)%nat ->
  exists l, ds !! d = Some (Desc (size_of d) ((PGSIZE - SIZEOF_ARENA) / size_of d) l (bool_decide (lk = Some d))).
Proof.
  intros [Hl H] Hd. destruct (lookup_lt_is_Some_2 ds d) as [x Hx]; [lia|]. exists (free_list x).
  destruct (H d x Hx) as (E1 & E2 & E3). rewrite Hx. destruct x. cbn in *. unfold size_of. by subst.
Qed.

Lemma descs_ok_insert lk lk' ds d l :
  descs_ok lk ds -> (d < 7)%nat -> (forall i, i <> d -> lk = Some i <-> lk' = Some i) ->
  descs_ok lk' (<[d := Desc (size_of d) ((PGSIZE - SIZEOF_ARENA) / size_of d) l (bool_decide (lk' = Some d))]> ds).
Proof.
  intros [Hl H] Hd Hlk. split; [by rewrite length_insert|]. intros i x Hx.
  destruct (decide (i = d)) as [->|Hne].
  - rewrite list_lookup_insert_eq in Hx by lia. by injection Hx as <-.
  - rewrite list_lookup_insert_ne in Hx by done. destruct (H i x Hx) as (? & ? & E). split_and!; [done|done|].
    rewrite E. by apply bool_decide_ext, Hlk.
Qed.

Lemma free_of_insert s d y d' :
  (d < length (descs s))%nat ->
  free_of (set_descs (<[d := y]>) s) d' = if decide (d' = d) then free_list y else free_of s d'.
Proof.
  intros Hd. unfold free_of, set_descs. cbn [descs]. destruct (decide (d' = d)) as [->|].
  - by rewrite list_lookup_insert_eq.
  - by rewrite list_lookup_insert_ne.
Qed.

Lemma count_in_page x a l : (count x (in_page a l) <= count x l)%nat.
Proof.
  unfold in_page, count. induction l as [|y l IH]; cbn; [lia|].
  destruct (page_of y =? a); cbn; destruct (Z.eq_dec y x); lia.
Qed.

(** ** Consequences of the invariant *)

Section inv.
Context (s0 : pstate) (lk : option nat) (s : mstate) (live : list (Z * Z)).
Context (I : Inv s0 lk s live).

Lemma arena_key a ar :
  arenas s !! a = Some ar ->
  0 < a /\ 0 < arena_pages ar /\ a mod PGSIZE = 0 /\ a + PGSIZE * arena_pages ar < 2 ^ 64 /\
  (forall x, covers x (a, arena_pages ar) = true -> is_Some (ram (pal s) x)).
Proof.
  intros H. destruct (ledger_block _ _ _ _ _ (i_pages _ _ _ _ I) (held_in _ _ _ H)) as (? & ? & ? & ? & _ & ?).
  done.
Qed.

Lemma arena_desc a d n : arenas s !! a = Some (Arena (Some d) n) -> (d < 7)%nat.
Proof.
  intros H. destruct (arena_key _ _ H) as (_ & _ & Ha & _). pose proof (i_blocks _ _ _ _ I a) as B.
  unfold page_of in B. rewrite Ha, Z.sub_0_r, H in B. by destruct B.
Qed.

(** A block, free or in use, is at a block position of its arena. *)
Lemma known_block x d n :
  arenas s !! page_of x = Some (Arena (Some d) n) ->
  (0 < count x (live.*1) + count x (free_of s d))%nat ->
  block_pos (size_of d) x = true /\ 0 < x < 2 ^ 64 /\
  (forall y, x <= y < x + size_of d -> page_of y = page_of x /\ is_Some (ram (pal s) y)) /\
  block_to_arena x s = Ok (page_of x, s).
Proof.
  intros H Hc. pose proof (i_blocks _ _ _ _ I x) as B. rewrite H in B. destruct B as [Hd B].
  destruct (arena_key _ _ H) as (K1 & K2 & K3 & K4 & K5). cbn [arena_pages a_desc] in *.
  assert (block_pos (size_of d) x = true) as Hp by (destruct (block_pos (size_of d) x); [done|cbn in B; lia]).
  pose proof (size_of_good d Hd) as Hg.
  destruct (proj2 (arena_block_pos (page_of x) (size_of d) x Hg K3) (conj eq_refl Hp)) as (i & Hi & Ex).
  destruct (arena_blocks_fit _ i Hg Hi) as [F1 F2]. unfold arena_block in Ex. unfold good_size in Hg.
  assert (0 < x < 2 ^ 64) as Hx by (unfold PGSIZE, SIZEOF_ARENA in *; lia).
  split_and!; [done|lia|lia| |].
  - intros y Hy. assert (page_of y = page_of x) as Ey.
    { replace y with (page_of x + (y - page_of x)) at 1 by lia. apply page_of_add; [done|]. unfold SIZEOF_ARENA in *. lia. }
    split; [done|]. apply K5. unfold covers. cbn [fst snd]. unfold PGSIZE, SIZEOF_ARENA in *. lia.
  - unfold block_to_arena. rewrite page_of_round by (split; lia).
    rewrite (proj2 (Z.eqb_neq (page_of x) NULL)) by (unfold NULL; lia). mnorm.
    mstep (get_arena_run _ _ _ H). destruct (desc_of _ _ _ (i_descs _ _ _ _ I) Hd) as [l Hl].
    cbn [a_desc]. mstep (get_desc_run _ _ _ Hl). cbn [block_size_of].
    rewrite pg_ofs_mod. unfold block_pos in Hp. apply andb_true_iff in Hp as [Hp _]. apply andb_true_iff in Hp as [H1 H2].
    rewrite wrapu_id by (pose proof (Z.mod_pos_bound x PGSIZE); unfold PGSIZE, SIZEOF_ARENA in *; split; lia).
    by rewrite H2.
Qed.

Lemma count_in x n : (x, n) ∈ live -> (0 < count x (live.*1))%nat.
Proof.
  intros H. apply count_occ_In, list_elem_of_In, list_elem_of_fmap. by exists (x, n).
Qed.

(** The free blocks of an arena: no more than it has blocks. *)
Lemma arena_free_nodup a d n :
  arenas s !! a = Some (Arena (Some d) n) ->
  NoDup (in_page a (free_of s d)) /\
  forall x, x ∈ in_page a (free_of s d) ->
    x ∈ (arena_block a (size_of d)) <$> seqZ 0 ((PGSIZE - SIZEOF_ARENA) / size_of d).
Proof.
  intros H. destruct (arena_key _ _ H) as (_ & _ & Ha & _). pose proof (arena_desc _ _ _ H) as Hd.
  assert (forall x, x ∈ in_page a (free_of s d) -> page_of x = a /\ x ∈ free_of s d) as Hin.
  { intros x Hx. apply list_elem_of_In, filter_In in Hx as [Hx Hp]. apply Z.eqb_eq in Hp. split; [done|by apply list_elem_of_In]. }
  split.
  - apply NoDup_ListNoDup, (NoDup_count_occ Z.eq_dec). intros x.
    destruct (in_dec Z.eq_dec x (in_page a (free_of s d))) as [Hx|Hx]; [|apply (count_occ_not_In Z.eq_dec) in Hx; lia].
    destruct (Hin x ltac:(by apply list_elem_of_In)) as [Hp _].
    pose proof (i_blocks _ _ _ _ I x) as B. rewrite Hp, H in B. destruct B as [_ B].
    pose proof (count_in_page x a (free_of s d)) as Hle. unfold count at 1 in Hle.
    destruct (block_pos (size_of d) x); cbn in B; lia.
  - intros x Hx. destruct (Hin x Hx) as [Hp Hf].
    destruct (known_block x d n) as (B & _); [by rewrite Hp|apply list_elem_of_In, (count_occ_In Z.eq_dec) in Hf; unfold count; lia|].
    destruct (proj2 (arena_block_pos a (size_of d) x (size_of_good d Hd) Ha) (conj Hp B)) as (i & Hi & ->).
    apply list_elem_of_fmap. exists i. split; [done|]. apply elem_of_seqZ. lia.
Qed.
End inv.

Lemma count_elem x l : x ∈ l <-> (0 < count x l)%nat.
Proof. rewrite list_elem_of_In. unfold count. rewrite (count_occ_In Z.eq_dec). lia. Qed.

Lemma count_cons x y l : count x (y :: l) = (Nat.b2n (bool_decide (y = x)) + count x l)%nat.
Proof.
  unfold count. cbn. destruct (Z.eq_dec y x) as [->|]; [by rewrite bool_decide_eq_true_2|by rewrite bool_decide_eq_false_2].
Qed.

(** The descriptor [d] with free list [l]. *)
Definition std_desc (lk : option nat) (d : nat) (l : list Z) : desc :=
  Desc (size_of d) ((PGSIZE - SIZEOF_ARENA) / size_of d) l (bool_decide (lk = Some d)).

(** A block of arena [a] changes hands between the clients and the free list
    of the arena's descriptor. *)
Lemma Inv_move s0 lk lk' s live live' d a n l' :
  Inv s0 lk s live -> arenas s !! a = Some (Arena (Some d) n) ->
  (forall i, i <> d -> lk = Some i <-> lk' = Some i) ->
  (forall x, (count x (live'.*1) + count x l')%nat = (count x (live.*1) + count x (free_of s d))%nat) ->
  (forall x, page_of x <> a -> count x l' = count x (free_of s d)) ->
  (forall x m, (x, m) ∈ live' -> (x, m) ∈ live \/ page_of x = a /\ 0 < m <= size_of d) ->
  (forall a', a' <> a -> length (in_page a' l') = length (in_page a' (free_of s d))) ->
  Inv s0 lk' (MState (pal s) (<[d := std_desc lk' d l']> (descs s))
                (<[a := Arena (Some d) (Z.of_nat (length (in_page a l')))]> (arenas s))) live'.
Proof.
  intros I Ha Hlk Hcnt Hout Hlive Hpages. pose proof (arena_desc _ _ _ _ I _ _ _ Ha) as Hd.
  pose proof (i_descs _ _ _ _ I) as D. pose proof (proj1 D) as Hlen.
  set (s' := MState _ _ _).
  assert (forall d', free_of s' d' = if decide (d' = d) then l' else free_of s d') as Hf.
  { intros d'. change s' with (set_arenas (fun _ => arenas s') (set_descs (<[d := std_desc lk' d l']>) s)).
    change (free_of (set_arenas ?f ?t) d') with (free_of t d'). rewrite free_of_insert by lia. done. }
  assert (forall x, page_of x <> a -> arenas s' !! page_of x = arenas s !! page_of x) as Hne
    by (intros x Hx; unfold s'; cbn; by rewrite lookup_insert_ne).
  assert (arenas s' !! a = Some (Arena (Some d) (Z.of_nat (length (in_page a l'))))) as Heq
    by (unfold s'; cbn; by rewrite lookup_insert_eq).
  split.
  - by apply descs_ok_insert with lk.
  - intros d' x Hx. rewrite Hf in Hx. destruct (decide (page_of x = a)) as [E|E].
    + rewrite E, Heq. destruct (decide (d' = d)) as [->|Hd']; [by eexists|].
      destruct (i_free _ _ _ _ I d' x Hx) as [m Hm]. rewrite E, Ha in Hm. congruence.
    + rewrite Hne by done. apply (i_free _ _ _ _ I). destruct (decide (d' = d)) as [->|]; [|done].
      apply count_elem. rewrite <- Hout by done. by apply count_elem.
  - intros x. pose proof (i_blocks _ _ _ _ I x) as B. destruct (decide (page_of x = a)) as [E|E].
    + rewrite E, Heq. rewrite E, Ha in B. rewrite Hf, decide_True by done. rewrite Hcnt. done.
    + rewrite Hne by done. specialize (Hcnt x). rewrite (Hout x E) in Hcnt.
      assert (count x (live'.*1) = count x (live.*1)) as Ec by lia. rewrite Ec.
      destruct (arenas s !! page_of x) as [[[d'|] m]|] eqn:Ex; [|done|done]. rewrite Hf.
      destruct (decide (d' = d)) as [->|]; [|done]. by rewrite Hout.
  - intros a' d' m Hm. rewrite Hf. destruct (decide (a' = a)) as [->|E].
    + rewrite Heq in Hm. injection Hm as <- <-. by rewrite decide_True.
    + unfold s' in Hm. cbn in Hm. rewrite lookup_insert_ne in Hm by done.
      rewrite (i_count _ _ _ _ I a' d' m Hm). destruct (decide (d' = d)) as [->|]; [|done]. by rewrite Hpages.
  - intros x m Hx. destruct (decide (page_of x = a)) as [E|E].
    + rewrite E, Heq. destruct (Hlive x m Hx) as [Hx'|[_ H]]; [|lia].
      pose proof (i_size _ _ _ _ I x m Hx') as B. by rewrite E, Ha in B.
    + rewrite Hne by done. destruct (Hlive x m Hx) as [Hx'|[? _]]; [|done]. by apply (i_size _ _ _ _ I).
  - eapply ledger_perm; [|apply (i_pages _ _ _ _ I)]. symmetry. unfold s'. cbn. by apply (held_update _ _ (Arena (Some d) n)).
Qed.

Lemma in_page_cons a x l : in_page a (x :: l) = if page_of x =? a then x :: in_page a l else in_page a l.
Proof. done. Qed.

(** The last part of [malloc]: a block leaves the free list. *)
Lemma take_block s0 d s live size b l :
  Inv s0 (Some d) s live -> (d < 7)%nat -> free_of s d = b :: l -> 0 < size <= size_of d ->
  exists s', (x ← get_desc d;
     match free_list x with
     | [] => lift Panic
     | b :: l =>
         set_free_list d l;; a ← block_to_arena b; y ← get_arena a;
         set_arena a (Arena (a_desc y) (u64 (free_cnt y - 1)));; d_release d;; ret b
     end) s = Ok (b, s') /\ Inv s0 None s' ((b, size) :: live).
Proof.
  intros I Hd Hf Hs. destruct (desc_of _ _ _ (i_descs _ _ _ _ I) Hd) as [l0 Hl0].
  assert (l0 = b :: l) as -> by (unfold free_of in Hf; by rewrite Hl0 in Hf).
  destruct (i_free _ _ _ _ I d b) as [n Hn]; [rewrite Hf; apply list_elem_of_here|].
  pose proof (i_count _ _ _ _ I _ _ _ Hn) as En. rewrite Hf, in_page_cons, Z.eqb_refl in En. cbn [length] in En.
  destruct (known_block _ _ _ _ I b d n Hn) as (_ & _ & _ & Eba).
  { rewrite Hf, count_cons, bool_decide_eq_true_2 by done. cbn. lia. }
  assert (length (in_page (page_of b) l) < 256)%nat as Hlt.
  { destruct (arena_free_nodup _ _ _ _ I _ _ _ Hn) as [Hnd Hsub].
    apply NoDup_ListNoDup in Hnd. assert (Hi : incl (in_page (page_of b) (free_of s d))
      ((arena_block (page_of b) (size_of d)) <$> seqZ 0 ((PGSIZE - SIZEOF_ARENA) / size_of d))).
    { intros x Hx. apply list_elem_of_In, Hsub. by apply list_elem_of_In. }
    pose proof (NoDup_incl_length Hnd Hi) as Hle. rewrite length_fmap, length_seqZ, Hf, in_page_cons, Z.eqb_refl in Hle.
    pose proof (blocks_per_arena_pos _ (size_of_good d Hd)). cbn [length] in Hle. lia. }
  mstep (get_desc_run _ _ _ Hl0). cbn [free_list]. mstep (set_free_list_run _ _ _ l Hl0).
  cbn [block_size_of blocks_per_arena d_lock].
  set (s1 := set_descs _ s).
  assert (block_to_arena b s1 = Ok (page_of b, s1)) as E1.
  { revert Eba. unfold block_to_arena. destruct (negb (pg_round_down b =? NULL)); [|done]. mnorm.
    unfold get_arena, bind, s1, set_descs. cbn [arenas]. destruct (arenas s !! pg_round_down b) as [ar|] eqn:Ea; [|done]. cbn.
    destruct (a_desc ar) as [d'|].
    - unfold get_desc. cbn [descs]. destruct (decide (d' = d)) as [->|Hne].
      + rewrite Hl0, list_lookup_insert_eq by (apply lookup_lt_Some in Hl0; done). cbn.
        unfold ASSERT. destruct (_ =? 0); cbn; [|done]. by intros [= ->].
      + rewrite list_lookup_insert_ne by done. destruct (descs s !! d'); cbn; [|done].
        unfold ASSERT. destruct (_ =? 0); cbn; [|done]. by intros [= ->].
    - unfold ASSERT. destruct (_ =? SIZEOF_ARENA); cbn; [|done]. by intros [= ->]. }
  mstep E1. assert (arenas s1 !! page_of b = Some (Arena (Some d) n)) as Hn1 by done.
  mstep (get_arena_run _ _ _ Hn1). cbn [a_desc free_cnt]. unfold set_arena. mnorm.
  unfold d_release. mnorm.
  set (s2 := set_arenas _ s1).
  assert (descs s2 !! d = Some (std_desc (Some d) d l)) as Hl2.
  { unfold s2, s1, set_arenas, set_descs. cbn [descs]. rewrite list_lookup_insert_eq by (apply lookup_lt_Some in Hl0; done). done. }
  mstep (get_desc_run _ _ _ Hl2). cbn [std_desc d_lock free_list]. rewrite bool_decide_eq_true_2 by done. mnorm.
  eexists. split; [done|].
  replace (set_descs _ s2) with (MState (pal s) (<[d := std_desc None d l]> (descs s))
    (<[page_of b := Arena (Some d) (Z.of_nat (length (in_page (page_of b) l)))]> (arenas s))).
  - eapply (Inv_move s0 (Some d) None s live _ d (page_of b) n l); try done.
    + intros i Hi. split; intros [=]; congruence.
    + intros x. cbn [fmap list_fmap fst]. rewrite Hf, !count_cons. lia.
    + intros x Hx. rewrite Hf, count_cons, bool_decide_eq_false_2; [done|]. by intros ->.
    + intros x m [[= -> ->]|Hx]%elem_of_cons; [right; split; [done|lia]|by left].
    + intros a' Ha'. rewrite Hf, in_page_cons. destruct (Z.eqb_spec (page_of b) a'); [congruence|done].
  - unfold s2, s1, set_arenas, set_descs. cbn [pal descs arenas]. rewrite list_insert_insert_eq. f_equal. f_equal.
    f_equal. rewrite En, wrapu_id by (split; lia). lia.
Qed.

(** ** New arenas *)

Lemma arena_to_block_run s a d n x i :
  arenas s !! a = Some (Arena (Some d) n) -> descs s !! d = Some x -> 0 < a -> 0 <= i < blocks_per_arena x ->
  0 <= block_size_of x -> a + SIZEOF_ARENA + i * block_size_of x < 2 ^ 64 ->
  arena_to_block a i s = Ok (arena_block a (block_size_of x) i, s).
Proof.
  intros Ha Hx H0 Hi Hb H64. unfold arena_to_block. rewrite (proj2 (Z.eqb_neq a NULL)) by (unfold NULL; lia). mnorm.
  mstep (get_arena_run _ _ _ Ha). cbn [a_desc]. mstep (get_desc_run _ _ _ Hx).
  rewrite (proj2 (Z.ltb_lt i _)) by lia. mnorm. rewrite wrapu_id; [done|]. unfold SIZEOF_ARENA in *. split; nia.
Qed.

(** An arena whose blocks all have valid addresses. *)
Definition arena_fits (a : Z) (x : desc) : Prop :=
  0 < a /\ 0 < block_size_of x /\ a + SIZEOF_ARENA + blocks_per_arena x * block_size_of x < 2 ^ 64.

Lemma fill_arena_run n s a i d m x :
  arenas s !! a = Some (Arena (Some d) m) -> descs s !! d = Some x -> arena_fits a x ->
  0 <= i -> i + Z.of_nat n <= blocks_per_arena x ->
  fill_arena n a i d s =
    Ok (tt, set_descs (<[d := Desc (block_size_of x) (blocks_per_arena x)
          (free_list x ++ (arena_block a (block_size_of x) <$> seqZ i (Z.of_nat n))) (d_lock x)]>) s).
Proof.
  revert s i x. induction n as [|n IH]; intros s i x Ha Hx Hfit Hi Hn; cbn [fill_arena].
  - rewrite app_nil_r. unfold ret, set_descs. rewrite list_insert_id; [by destruct s|]. rewrite Hx. by destruct x.
  - pose proof Hfit as (F1 & F2 & F3). mstep (arena_to_block_run s a d m x i Ha Hx F1 ltac:(lia) ltac:(lia) ltac:(nia)).
    mstep (get_desc_run _ _ _ Hx). mstep (set_free_list_run _ _ _ (free_list x ++ [arena_block a (block_size_of x) i]) Hx).
    set (y := Desc _ _ _ _). set (s1 := set_descs _ s).
    assert (descs s1 !! d = Some y) as Hy.
    { unfold s1, set_descs. cbn [descs]. by rewrite list_lookup_insert_eq by (apply lookup_lt_Some in Hx; done). }
    rewrite (IH s1 (i + 1) y Ha Hy Hfit) by (cbn; lia). unfold s1, set_descs. cbn [pal descs arenas y block_size_of blocks_per_arena free_list d_lock].
    rewrite list_insert_insert_eq, <- app_assoc, (seqZ_cons i (Z.of_nat (S n))) by lia.
    by replace (Z.pred (Z.of_nat (S n))) with (Z.of_nat n) by lia.
Qed.

(** A page that has just been obtained has no arena. *)
Lemma fresh_page s0 p' m a c : 0 < c -> ledger s0 p' ((a, c) :: held_pages m) -> m !! a = None.
Proof.
  intros Hc L. destruct (m !! a) as [ar|] eqn:E; [|done]. exfalso. pose proof (held_in _ _ _ E) as Hin.
  destruct (ledger_block _ _ _ a (arena_pages ar) L) as (_ & Hp & _); [by apply list_elem_of_further|].
  apply list_elem_of_lookup in Hin as [k Hk]. pose proof (ledger_once _ _ _ a L) as H1.
  unfold cover_cnt in H1. cbn [List.filter] in H1. fold (cover_cnt a (held_pages m)) in H1.
  assert (forall c, 0 < c -> covers a (a, c) = true) as Hcov by (intros; unfold covers, PGSIZE; cbn [fst snd]; lia).
  rewrite Hcov in H1 by done. cbn [length] in H1. fold (cover_cnt a (held_pages m)) in H1.
  rewrite (cover_cnt_delete a _ _ _ Hk), Hcov in H1 by done. cbn in H1. lia.
Qed.

Lemma count_blocks a bs x :
  good_size bs -> a mod PGSIZE = 0 ->
  count x (arena_block a bs <$> seqZ 0 ((PGSIZE - SIZEOF_ARENA) / bs)) =
    Nat.b2n ((page_of x =? a) && block_pos bs x).
Proof.
  intros Hb Ha. pose proof (arena_block_pos a bs x Hb Ha) as Hiff.
  assert (NoDup (arena_block a bs <$> seqZ 0 ((PGSIZE - SIZEOF_ARENA) / bs))) as Hnd.
  { apply NoDup_fmap_2; [|apply NoDup_seqZ]. intros i j E. unfold arena_block, good_size in *. nia. }
  apply NoDup_ListNoDup, (proj1 (NoDup_count_occ Z.eq_dec _)) with (x := x) in Hnd.
  assert (x ∈ (arena_block a bs <$> seqZ 0 ((PGSIZE - SIZEOF_ARENA) / bs)) <->
    (page_of x =? a) && block_pos bs x = true) as Hel.
  { rewrite andb_true_iff, Z.eqb_eq, <- Hiff, list_elem_of_fmap. split.
    - intros (i & -> & Hi). exists i. apply elem_of_seqZ in Hi. split; [lia|done].
    - intros (i & Hi & ->). exists i. split; [done|]. apply elem_of_seqZ. lia. }
  rewrite count_elem in Hel. unfold count in *. destruct (_ && _); cbn; [destruct Hel as [_ Hel]; specialize (Hel eq_refl); lia|].
  destruct (count_occ _ _ _); [done|]. destruct Hel as [Hel _]. by specialize (Hel ltac:(lia)).
Qed.

Lemma in_page_blocks a l :
  (forall x, x ∈ l -> page_of x = a) -> in_page a l = l /\ forall a', a' <> a -> in_page a' l = [].
Proof.
  intros H. unfold in_page. induction l as [|x l IH]; cbn; [done|].
  assert (page_of x = a) as Hx by (apply H, list_elem_of_here).
  destruct IH as [I1 I2]; [intros y Hy; by apply H, list_elem_of_further|]. rewrite Hx, Z.eqb_refl, I1. split; [done|].
  intros a' Ha'. destruct (Z.eqb_spec a a'); [congruence|]. by apply I2.
Qed.

Lemma Inv_new_arena s0 d s live a p' :
  Inv s0 (Some d) s live -> (d < 7)%nat -> free_of s d = [] ->
  ledger s0 p' ((a, 1) :: held_pages (arenas s)) ->
  let n := (PGSIZE - SIZEOF_ARENA) / size_of d in
  let blocks := arena_block a (size_of d) <$> seqZ 0 n in
  Inv s0 (Some d) (MState p' (<[d := std_desc (Some d) d blocks]> (descs s)) (<[a := Arena (Some d) n]> (arenas s))) live.
Proof.
  intros I Hd Hfr L n blocks. pose proof (fresh_page _ _ _ a 1 ltac:(lia) L) as Hna.
  destruct (ledger_block _ _ _ a 1 L) as (Ha0 & _ & Ha & _); [apply list_elem_of_here|].
  pose proof (size_of_good d Hd) as Hg. pose proof (i_descs _ _ _ _ I) as D. pose proof (proj1 D) as Hlen.
  set (s' := MState _ _ _).
  assert (forall d', free_of s' d' = if decide (d' = d) then blocks else free_of s d') as Hf.
  { intros d'. change s' with (MState p' (descs s') (arenas s')).
    change (free_of (MState p' (descs s') (arenas s')) d') with (free_of (set_descs (<[d := std_desc (Some d) d blocks]>) s) d').
    rewrite free_of_insert by lia. done. }
  assert (forall x, x ∈ blocks -> page_of x = a /\ block_pos (size_of d) x = true) as Hbl.
  { intros x Hx. apply count_elem in Hx. unfold blocks, n in Hx. rewrite count_blocks in Hx by done.
    destruct (Z.eqb_spec (page_of x) a), (block_pos (size_of d) x); cbn in Hx; first [done|lia]. }
  destruct (in_page_blocks a blocks) as [Hp1 Hp2]; [intros x Hx; by apply Hbl|].
  pose proof (blocks_per_arena_pos _ Hg) as Hbpa.
  split.
  - by apply descs_ok_insert with (Some d).
  - intros d' x Hx. rewrite Hf in Hx. unfold s'. cbn [arenas]. destruct (decide (d' = d)) as [->|].
    + destruct (Hbl x Hx) as [-> _]. rewrite lookup_insert_eq. by eexists.
    + destruct (i_free _ _ _ _ I d' x Hx) as [m Hm]. rewrite lookup_insert_ne by congruence. by exists m.
  - intros x. pose proof (i_blocks _ _ _ _ I x) as B. unfold s' at 1. cbn [arenas].
    destruct (decide (page_of x = a)) as [E|E].
    + rewrite E, lookup_insert_eq. rewrite E, Hna in B. rewrite Hf, decide_True by done. split; [done|].
      rewrite B. unfold blocks, n. rewrite count_blocks by done. by rewrite (proj2 (Z.eqb_eq _ _) E).
    + rewrite lookup_insert_ne by congruence. destruct (arenas s !! page_of x) as [[[d'|] m]|]; [|done|done].
      rewrite Hf. destruct (decide (d' = d)) as [->|]; [|done]. rewrite Hfr in B. unfold blocks, n.
      rewrite count_blocks by done. rewrite (proj2 (Z.eqb_neq _ _) E). done.
  - intros a' d' m Hm. rewrite Hf. unfold s' in Hm. cbn [arenas] in Hm. destruct (decide (a' = a)) as [->|E].
    + rewrite lookup_insert_eq in Hm. injection Hm as <- <-. rewrite decide_True, Hp1 by done.
      unfold blocks. rewrite length_fmap, length_seqZ. unfold n in *. lia.
    + rewrite lookup_insert_ne in Hm by done. pose proof (i_count _ _ _ _ I a' d' m Hm) as B.
      destruct (decide (d' = d)) as [->|]; [|done]. rewrite Hfr in B. by rewrite Hp2.
  - intros x m Hx. pose proof (i_size _ _ _ _ I x m Hx) as [B1 B2]. split; [done|]. unfold s'. cbn [arenas].
    destruct (decide (page_of x = a)) as [E|E]; [by rewrite E, Hna in B2|]. by rewrite lookup_insert_ne by congruence.
  - unfold s'. cbn [pal arenas]. eapply ledger_perm; [|exact L]. symmetry. by apply held_fresh.
Qed.

(** ** Allocation *)

Lemma find_desc_spec ds size :
  match find_desc ds size with
  | Some d => exists x, ds !! d = Some x /\ size <= block_size_of x
  | None => forall x, x ∈ ds -> block_size_of x < size
  end.
Proof.
  induction ds as [|y ds IH]; cbn [find_desc]; [by intros x ?%elem_of_nil|].
  destruct (Z.leb_spec size (block_size_of y)); [by exists y|].
  destruct (find_desc ds size) as [d|]; cbn; [exact IH|].
  intros x [->|Hx]%elem_of_cons; [lia|by apply IH].
Qed.

Lemma get_pages s0 s h cnt :
  ledger s0 s h -> 0 < cnt ->
  exists p s', palloc_get_multiple 0 cnt s = Ok (p, s') /\
    (p = NULL /\ s' = s \/ p <> NULL /\ ledger s0 s' ((p, cnt) :: h)).
Proof.
  intros L Hc. pose proof (palloc_get_outcome s 0 cnt (l_ok _ _ _ L) ltac:(lia)) as O.
  destruct (palloc_get_multiple 0 cnt s) as [[p s']| | | |] eqn:E.
  2-5: inversion O as [|r q H1 H2]; discriminate H2.
  exists p, s'. split; [done|]. destruct (Z.eq_dec p NULL) as [->|Hp].
  - left. split; [done|]. apply (get_none s 0 cnt); [apply L|lia|done].
  - right. split; [done|]. by apply (ledger_get _ s _ 0).
Qed.

(** Taking or releasing the lock of a descriptor. *)
Lemma Inv_lock s0 lk lk' s live d :
  Inv s0 lk s live -> (d < 7)%nat -> (forall i, i <> d -> lk = Some i <-> lk' = Some i) ->
  Inv s0 lk' (set_descs (<[d := std_desc lk' d (free_of s d)]>) s) live.
Proof.
  intros I Hd Hlk. pose proof (i_descs _ _ _ _ I) as D. pose proof (proj1 D) as Hlen.
  assert (forall d', free_of (set_descs (<[d := std_desc lk' d (free_of s d)]>) s) d' = free_of s d') as Hf.
  { intros d'. rewrite free_of_insert by lia. by destruct (decide (d' = d)) as [->|]. }
  split.
  - by apply descs_ok_insert with lk.
  - intros d' x Hx. rewrite Hf in Hx. by apply (i_free _ _ _ _ I).
  - intros x. pose proof (i_blocks _ _ _ _ I x) as B. cbn [arenas set_descs].
    destruct (arenas s !! page_of x) as [[[d'|] m]|]; [|done|done]. by rewrite Hf.
  - intros a d' n Ha. rewrite Hf. by apply (i_count _ _ _ _ I).
  - apply (i_size _ _ _ _ I).
  - apply (i_pages _ _ _ _ I).
Qed.

Lemma Inv_new_big s0 s live a cnt size p' :
  Inv s0 None s live -> ledger s0 p' ((a, cnt) :: held_pages (arenas s)) ->
  0 < size -> size + SIZEOF_ARENA <= cnt * PGSIZE ->
  Inv s0 None (MState p' (descs s) (<[a := Arena None cnt]> (arenas s))) ((a + SIZEOF_ARENA, size) :: live).
Proof.
  intros I L Hs Hc. destruct (ledger_block _ _ _ a cnt L) as (Ha0 & Hc0 & Ha & _); [apply list_elem_of_here|].
  pose proof (fresh_page _ _ _ a cnt Hc0 L) as Hna.
  destruct (page_of_add a SIZEOF_ARENA Ha) as [Ep Em]; [done|].
  set (s' := MState _ _ _). assert (forall d, free_of s' d = free_of s d) as Hf by done.
  split.
  - apply (i_descs _ _ _ _ I).
  - intros d x Hx. destruct (i_free _ _ _ _ I d x Hx) as [m Hm]. exists m. unfold s'. cbn [arenas].
    rewrite lookup_insert_ne by congruence. done.
  - intros x. pose proof (i_blocks _ _ _ _ I x) as B. unfold s' at 1. cbn [arenas].
    cbn [fmap list_fmap fst]. rewrite count_cons. destruct (decide (page_of x = a)) as [E|E].
    + rewrite E, lookup_insert_eq. rewrite E, Hna in B. rewrite B, Nat.add_0_r. f_equal.
      destruct (Z.eqb_spec (x mod PGSIZE) SIZEOF_ARENA) as [E2|E2].
      * apply bool_decide_eq_true_2. unfold page_of in E. lia.
      * apply bool_decide_eq_false_2. intros <-. by rewrite Em in E2.
    + rewrite lookup_insert_ne by congruence. rewrite bool_decide_eq_false_2 by (intros <-; congruence). exact B.
  - intros a' d n Hn. rewrite Hf. unfold s' in Hn. cbn [arenas] in Hn. destruct (decide (a' = a)) as [->|];
      [by rewrite lookup_insert_eq in Hn|]. rewrite lookup_insert_ne in Hn by done. by apply (i_count _ _ _ _ I).
  - intros x m Hx. unfold s'. cbn [arenas]. apply elem_of_cons in Hx as [[= -> ->]|Hx].
    + rewrite Ep, lookup_insert_eq. lia.
    + pose proof (i_size _ _ _ _ I x m Hx) as [B1 B2]. split; [done|].
      destruct (decide (page_of x = a)) as [E|E]; [by rewrite E, Hna in B2|]. by rewrite lookup_insert_ne by congruence.
  - unfold s'. cbn [pal arenas]. eapply ledger_perm; [|exact L]. symmetry. by apply held_fresh.
Qed.

Lemma on_pal_run {A} (f : M pstate A) s a p :
  f (pal s) = Ok (a, p) -> on_pal f s = Ok (a, MState p (descs s) (arenas s)).
Proof. unfold on_pal. by intros ->. Qed.

Lemma malloc_big s0 s live size :
  Inv s0 None s live -> 0 < size <= 2 ^ 63 -> find_desc (descs s) size = None ->
  exists p s', malloc size s = Ok (p, s') /\
    (p = NULL /\ Inv s0 None s' live \/ p <> NULL /\ Inv s0 None s' ((p, size) :: live)).
Proof.
  intros I Hs Hfd. unfold malloc. destruct (Z.eqb_spec size 0); [lia|]. mnorm. rewrite Hfd.
  set (cnt := DIV_ROUND_UP (u64 (size + SIZEOF_ARENA)) PGSIZE).
  assert (0 < cnt /\ size + SIZEOF_ARENA <= cnt * PGSIZE) as [Hc1 Hc2].
  { unfold cnt, DIV_ROUND_UP, SIZEOF_ARENA, PGSIZE. rewrite (wrapu_id 64 (size + 24)) by (split; lia).
    rewrite (wrapu_id 64 (size + 24 + 4096)) by (split; lia). rewrite wrapu_id by (split; lia).
    pose proof (Z.div_mod (size + 24 + 4096 - 1) 4096 ltac:(lia)). pose proof (Z.mod_pos_bound (size + 24 + 4096 - 1) 4096 ltac:(lia)). lia. }
  destruct (get_pages _ _ _ cnt (i_pages _ _ _ _ I) Hc1) as (a & p' & E & H).
  mstep (on_pal_run _ _ _ _ E). destruct H as [[-> ->]|[Ha L]].
  - cbn [Z.eqb NULL]. exists NULL, s. split; [by destruct s|]. by left.
  - rewrite (proj2 (Z.eqb_neq _ _) Ha). unfold set_arena. mnorm.
    destruct (ledger_block _ _ _ a cnt L) as (Ha0 & _ & _ & H64 & _); [apply list_elem_of_here|].
    rewrite wrapu_id by (unfold PGSIZE, SIZEOF_ARENA in *; split; lia).
    eexists _, _. split; [done|]. right. split; [unfold NULL, SIZEOF_ARENA; lia|]. exact (Inv_new_big s0 s live a cnt size p' I L ltac:(lia) Hc2).
Qed.

Lemma desc_run lk s d :
  descs_ok lk (descs s) -> (d < 7)%nat -> descs s !! d = Some (std_desc lk d (free_of s d)).
Proof.
  intros D Hd. destruct (desc_of _ _ _ D Hd) as [l Hl]. rewrite Hl. unfold free_of. by rewrite Hl.
Qed.

Lemma acquire_run s0 s live d :
  Inv s0 None s live -> (d < 7)%nat ->
  d_acquire d s = Ok (tt, set_descs (<[d := std_desc (Some d) d (free_of s d)]>) s) /\
  Inv s0 (Some d) (set_descs (<[d := std_desc (Some d) d (free_of s d)]>) s) live.
Proof.
  intros I Hd. split.
  - unfold d_acquire. mstep (get_desc_run _ _ _ (desc_run _ _ _ (i_descs _ _ _ _ I) Hd)).
    cbn [std_desc d_lock]. unfold std_desc. by rewrite bool_decide_eq_false_2, bool_decide_eq_true_2.
  - apply (Inv_lock s0 None); [done|done|]. intros i Hi. split; intros [=]; congruence.
Qed.

Lemma release_run s0 s live d :
  Inv s0 (Some d) s live -> (d < 7)%nat ->
  d_release d s = Ok (tt, set_descs (<[d := std_desc None d (free_of s d)]>) s) /\
  Inv s0 None (set_descs (<[d := std_desc None d (free_of s d)]>) s) live.
Proof.
  intros I Hd. split.
  - unfold d_release. mstep (get_desc_run _ _ _ (desc_run _ _ _ (i_descs _ _ _ _ I) Hd)).
    cbn [std_desc d_lock]. rewrite bool_decide_eq_true_2 by done. mnorm. done.
  - apply (Inv_lock s0 (Some d)); [done|done|]. intros i Hi. split; intros [=]; congruence.
Qed.

(** With the lock held and an empty free list: a new arena, or no memory. *)
Lemma refill s0 d s live :
  Inv s0 (Some d) s live -> (d < 7)%nat -> free_of s d = [] ->
  exists ok s', (a ← on_pal (palloc_get_page 0);
     if a =? NULL then d_release d;; ret false
     else
       set_arena a (Arena (Some d) (blocks_per_arena (std_desc (Some d) d (free_of s d))));;
       fill_arena (Z.to_nat (blocks_per_arena (std_desc (Some d) d (free_of s d)))) a 0 d;; ret true) s = Ok (ok, s') /\
    if ok : bool then Inv s0 (Some d) s' live /\ free_of s' d <> [] else Inv s0 None s' live.
Proof.
  intros I Hd Hf. pose proof (size_of_good d Hd) as Hg. pose proof (blocks_per_arena_pos _ Hg) as Hb.
  destruct (get_pages _ _ _ 1 (i_pages _ _ _ _ I) ltac:(lia)) as (a & p' & E & H).
  assert (on_pal (palloc_get_page 0) s = Ok (a, MState p' (descs s) (arenas s))) as E' by by apply on_pal_run.
  mstep E'. destruct H as [[-> ->]|[Ha L]].
  - change (NULL =? NULL) with true. cbv iota. replace (MState (pal s) (descs s) (arenas s)) with s by by destruct s.
    destruct (release_run _ _ _ _ I Hd) as [Er Ir]. mstep Er. by eexists false, _.
  - rewrite (proj2 (Z.eqb_neq _ _) Ha). unfold set_arena. mnorm. cbn [std_desc blocks_per_arena].
    set (n := (PGSIZE - SIZEOF_ARENA) / size_of d) in *. set (s1 := set_arenas _ _).
    assert (arenas s1 !! a = Some (Arena (Some d) n)) as Ha1 by apply lookup_insert_eq.
    pose proof (desc_run _ _ _ (i_descs _ _ _ _ I) Hd) as Hd1. change (descs s) with (descs s1) in Hd1.
    destruct (ledger_block _ _ _ a 1 L) as (Ha0 & _ & _ & H64 & _); [apply list_elem_of_here|].
    assert (arena_fits a (std_desc (Some d) d (free_of s d))) as Hfit.
    { unfold arena_fits. cbn [std_desc block_size_of blocks_per_arena]. fold n. unfold good_size in Hg.
      pose proof (arena_blocks_fit _ (n - 1) Hg ltac:(unfold n in *; lia)) as [_ F].
      unfold PGSIZE, SIZEOF_ARENA in *. split_and!; [lia|lia|nia]. }
    assert (fill_arena (Z.to_nat n) a 0 d s1 = Ok (tt, MState p'
      (<[d := std_desc (Some d) d (arena_block a (size_of d) <$> seqZ 0 n)]> (descs s)) (<[a := Arena (Some d) n]> (arenas s)))) as Ef.
    { rewrite (fill_arena_run _ s1 a 0 d n _ Ha1 Hd1 Hfit); [|lia|cbn [std_desc blocks_per_arena]; fold n; lia].
      rewrite Hf, Z2Nat.id by lia. cbn [std_desc free_list app block_size_of blocks_per_arena d_lock]. done. }
    mstep Ef. eexists true, _. split; [done|]. split; [by apply Inv_new_arena|].
    unfold free_of. cbn [descs]. rewrite list_lookup_insert_eq by (rewrite (proj1 (i_descs _ _ _ _ I)); lia).
    cbn [from_option std_desc free_list]. rewrite seqZ_cons by lia. done.
Qed.

Lemma malloc_small s0 s live size d :
  Inv s0 None s live -> 0 < size -> find_desc (descs s) size = Some d ->
  exists p s', malloc size s = Ok (p, s') /\
    (p = NULL /\ Inv s0 None s' live \/ p <> NULL /\ Inv s0 None s' ((p, size) :: live)).
Proof.
  intros I Hs Hfd. unfold malloc. destruct (Z.eqb_spec size 0); [lia|]. mnorm. rewrite Hfd.
  pose proof (find_desc_spec (descs s) size) as Hsp. rewrite Hfd in Hsp. destruct Hsp as (x & Hx & Hle).
  pose proof (lookup_lt_Some _ _ _ Hx) as Hd. rewrite (proj1 (i_descs _ _ _ _ I)) in Hd.
  destruct (proj2 (i_descs _ _ _ _ I) d x Hx) as (Eb & _). fold (size_of d) in Eb. rewrite Eb in Hle.
  destruct (acquire_run _ _ _ _ I Hd) as [Ea Ia]. mstep Ea.
  set (s1 := set_descs _ s) in *.
  mstep (get_desc_run _ _ _ (desc_run _ _ _ (i_descs _ _ _ _ Ia) Hd)).
  assert (forall s2, Inv s0 (Some d) s2 live -> free_of s2 d <> [] -> exists p s', (x ← get_desc d;
     match free_list x with
     | [] => lift Panic
     | b :: l =>
         set_free_list d l;; a ← block_to_arena b; y ← get_arena a;
         set_arena a (Arena (a_desc y) (u64 (free_cnt y - 1)));; d_release d;; ret b
     end) s2 = Ok (p, s') /\ p <> NULL /\ Inv s0 None s' ((p, size) :: live)) as Htake.
  { intros s2 I2 Hne. destruct (free_of s2 d) as [|b l] eqn:Ef; [done|].
    destruct (take_block _ _ _ _ size _ _ I2 Hd Ef ltac:(lia)) as (s' & E & I'). exists b, s'. split; [done|]. split; [|done].
    destruct (i_free _ _ _ _ I2 d b) as [k Hk]; [rewrite Ef; apply list_elem_of_here|].
    destruct (known_block _ _ _ _ I2 b d k Hk) as (_ & ? & _); [|unfold NULL; lia].
    rewrite Ef, count_cons, bool_decide_eq_true_2 by done. cbn. lia. }
  assert (free_list (std_desc (Some d) d (free_of s1 d)) = free_of s1 d) as -> by done.
  destruct (decide (free_of s1 d = [])) as [Ef|Ef].
  - rewrite bool_decide_eq_true_2 by done. destruct (refill _ _ _ _ Ia Hd Ef) as (ok & s2 & E2 & H2).
    mstep E2. destruct ok; cbn [negb].
    + destruct H2 as [I2 Hne]. destruct (Htake s2 I2 Hne) as (p & s' & E & Hp & I'). eauto 10.
    + by exists NULL, s2; split; [|left].
  - rewrite bool_decide_eq_false_2 by done. mnorm. destruct (Htake s1 Ia Ef) as (p & s' & E & Hp & I'). eauto 10.
Qed.

Lemma malloc_inv s0 s live size :
  Inv s0 None s live -> 0 <= size <= 2 ^ 63 ->
  exists p s', malloc size s = Ok (p, s') /\
    (p = NULL /\ Inv s0 None s' live \/ p <> NULL /\ 0 < size /\ Inv s0 None s' ((p, size) :: live)).
Proof.
  intros I Hs. destruct (decide (size = 0)) as [->|Hne]; [exists NULL, s; split; [done|by left]|].
  destruct (find_desc (descs s) size) as [d|] eqn:E.
  - destruct (malloc_small _ _ _ size _ I ltac:(lia) E) as (p & s' & Em & H). exists p, s'. split; [done|].
    destruct H as [?|[? ?]]; [by left|right; split_and!; [done|lia|done]].
  - destruct (malloc_big _ _ _ size I ltac:(lia) E) as (p & s' & Em & H). exists p, s'. split; [done|].
    destruct H as [?|[? ?]]; [by left|right; split_and!; [done|lia|done]].
Qed.

(** [malloc] leaves the contents of memory alone. *)
Lemma get_multiple_ram cnt s p s' : palloc_get_multiple 0 cnt s = Ok (p, s') -> ram s' = ram s.
Proof.
  intros H. unfold palloc_get_multiple in H. change (has_flag 0 PAL_USER) with false in H. cbv iota zeta in H.
  apply bind_inv in H as ([] & s1 & H1 & H). apply bind_inv in H as (i & s2 & H2 & H). apply bind_inv in H as ([] & s3 & H3 & H).
  apply bind_inv in H as (s4 & s5 & Hg & H). injection Hg as <- <-.
  assert (s' = s3) as ->.
  { change (has_flag 0 PAL_ZERO) with false in H. change (has_flag 0 PAL_ASSERT) with false in H.
    destruct (negb (_ =? NULL)); by injection H. }
  unfold lock_acquire in H1. destruct (lock (the_pool KERNEL s)); [done|]. injection H1 as <-.
  unfold on_map in H2. apply rbind_inv in H2 as ([x b] & _ & H2). injection H2 as _ <-.
  unfold lock_release in H3. destruct (lock _); [|done]. by injection H3 as <-.
Qed.

Definition keeps_ram {A} (f : M mstate A) : Prop := forall s a s', f s = Ok (a, s') -> ram (pal s') = ram (pal s).

Lemma keeps_ram_bind {A B} (f : M mstate A) (g : A -> M mstate B) :
  keeps_ram f -> (forall a, keeps_ram (g a)) -> keeps_ram (bind f g).
Proof. intros Hf Hg s a s' H. apply bind_inv in H as (x & s1 & H1 & H2). rewrite (Hg _ _ _ _ H2). by apply (Hf _ _ _ H1). Qed.

Lemma keeps_ram_pal {A} (f : M mstate A) : (forall s a s', f s = Ok (a, s') -> pal s' = pal s) -> keeps_ram f.
Proof. intros H s a s' E. by rewrite (H _ _ _ E). Qed.

Lemma keeps_ram_get {A} (g : mstate -> M mstate A) : (forall s, keeps_ram (g s)) -> keeps_ram (s ← get; g s).
Proof. intros H. apply keeps_ram_bind; [|done]. apply keeps_ram_pal. by intros s a s' [= <- <-]. Qed.

Ltac keeps_step :=
  cbv zeta;
  match goal with
  | |- keeps_ram (get_desc ?d) => apply keeps_ram_pal; intros ? ? ? H; unfold get_desc in H;
      apply rbind_inv in H as (? & ? & H); by injection H as <- <-
  | |- keeps_ram (get_arena ?a) => apply keeps_ram_pal; intros ? ? ? H; unfold get_arena in H;
      destruct (arenas _ !! _); [by injection H as <- <-|done]
  | |- keeps_ram (ASSERT ?b) => apply keeps_ram_pal; intros ? ? ? H; unfold ASSERT in H; destruct b; [injection H; intros; by subst|done]
  | |- keeps_ram (modify _) => apply keeps_ram_pal; intros ? ? ? H; injection H; intros; by subst
  | |- keeps_ram (ret _) => apply keeps_ram_pal; intros ? ? ? H; injection H; intros; by subst
  | |- keeps_ram (lift ?r) => apply keeps_ram_pal; intros ? ? ? H; by unfold lift in H
  | |- keeps_ram (bind get _) => apply keeps_ram_get; intros ?
  | |- keeps_ram (bind _ _) => apply keeps_ram_bind; [|intros ?]
  | |- keeps_ram (match ?x with _ => _ end) => destruct x
  end.

Lemma malloc_ram size : keeps_ram (malloc size).
Proof.
  assert (forall cnt, keeps_ram (on_pal (palloc_get_multiple 0 cnt))) as Hget.
  { intros cnt s a s' H. unfold on_pal in H. apply rbind_inv in H as ([x p] & E & H). injection H as <- <-.
    by apply get_multiple_ram in E. }
  assert (forall b, keeps_ram (block_to_arena b)) as Hb by (intros b; unfold block_to_arena; repeat keeps_step).
  assert (forall n a i d, keeps_ram (fill_arena n a i d)) as Hf.
  { induction n as [|n IH]; intros a i d; cbn [fill_arena]; [keeps_step|].
    apply keeps_ram_bind; [unfold arena_to_block; repeat keeps_step|intros b].
    apply keeps_ram_bind; [keeps_step|intros x].
    apply keeps_ram_bind; [unfold set_free_list; repeat keeps_step|intros _; apply IH]. }
  unfold malloc, palloc_get_page, set_arena, set_free_list, d_acquire, d_release.
  repeat first [apply Hget | apply Hb | apply Hf | keeps_step].
Qed.

(** ** Bytes of live blocks *)

(** The bytes from [x] on that belong to the block at [x]. *)
Definition extent (s : mstate) (x : Z) : Z :=
  match arenas s !! page_of x with
  | Some (Arena (Some d) _) => size_of d
  | Some (Arena None c) => c * PGSIZE - SIZEOF_ARENA
  | None => 0
  end.

Section live.
Context (s0 : pstate) (lk : option nat) (s : mstate) (live : list (Z * Z)).
Context (I : Inv s0 lk s live).

Lemma same_arena a ar b br z :
  arenas s !! a = Some ar -> arenas s !! b = Some br ->
  covers z (a, arena_pages ar) = true -> covers z (b, arena_pages br) = true -> a = b.
Proof.
  intros Ha Hb Ca Cb. destruct (decide (a = b)) as [|Hne]; [done|]. exfalso.
  pose proof (ledger_once _ _ _ z (i_pages _ _ _ _ I)) as H1. rewrite (cover_cnt_perm z _ _ (held_delete _ _ _ Ha)) in H1.
  assert ((b, arena_pages br) ∈ held_pages (delete a (arenas s))) as Hin by (apply held_in; by rewrite lookup_delete_ne).
  apply list_elem_of_lookup in Hin as [k Hk]. unfold cover_cnt in H1. cbn [List.filter] in H1. rewrite Ca in H1. cbn [length] in H1.
  fold (cover_cnt z (held_pages (delete a (arenas s)))) in H1. rewrite (cover_cnt_delete z _ _ _ Hk), Cb in H1. cbn in H1. lia.
Qed.

(** A live block lies inside its arena, behind the header. *)
Lemma live_block x n :
  (x, n) ∈ live -> exists ar, arenas s !! page_of x = Some ar /\ 0 < n <= extent s x /\ 0 < x /\
    page_of x + SIZEOF_ARENA <= x /\ x + extent s x <= page_of x + PGSIZE * arena_pages ar /\
    x + extent s x < 2 ^ 64 /\ forall z, x <= z < x + extent s x -> is_Some (ram (pal s) z).
Proof.
  intros Hx. destruct (i_size _ _ _ _ I x n Hx) as [Hn B]. pose proof (count_in live x n Hx) as Hc. unfold extent.
  destruct (arenas s !! page_of x) as [[[d|] c]|] eqn:Ha; [| |done].
  - eexists. split; [done|]. destruct (arena_key _ _ _ _ I _ _ Ha) as (K1 & K2 & K3 & K4 & K5). cbn [arena_pages a_desc] in *.
    destruct (known_block _ _ _ _ I x d c Ha ltac:(lia)) as (Hp & H64 & Hm & _). pose proof (arena_desc _ _ _ _ I _ _ _ Ha) as Hd.
    destruct (proj2 (arena_block_pos (page_of x) (size_of d) x (size_of_good d Hd) K3) (conj eq_refl Hp)) as (i & Hi & Ex).
    destruct (arena_blocks_fit _ i (size_of_good d Hd) Hi) as [F1 F2]. unfold arena_block in Ex.
    split_and!; try lia. intros z Hz. by apply Hm.
  - eexists. split; [done|]. destruct (arena_key _ _ _ _ I _ _ Ha) as (K1 & K2 & K3 & K4 & K5). cbn [arena_pages a_desc free_cnt] in *.
    pose proof (i_blocks _ _ _ _ I x) as B2. rewrite Ha in B2.
    destruct (Z.eqb_spec (x mod PGSIZE) SIZEOF_ARENA); [|cbn in B2; lia].
    assert (x = page_of x + SIZEOF_ARENA) by (unfold page_of; lia). unfold PGSIZE, SIZEOF_ARENA in *.
    split_and!; try lia. intros z Hz. apply K5. unfold covers, PGSIZE. cbn [fst snd]. lia.
Qed.

Lemma live_covers x n z :
  (x, n) ∈ live -> x <= z < x + extent s x ->
  exists ar, arenas s !! page_of x = Some ar /\ covers z (page_of x, arena_pages ar) = true.
Proof.
  intros Hx Hz. destruct (live_block x n Hx) as (ar & Ha & H1 & H2 & H3 & H4 & _). exists ar. split; [done|].
  unfold covers, PGSIZE, SIZEOF_ARENA in *. cbn [fst snd]. lia.
Qed.

(** Two positions of live blocks with a common byte are the same. *)
Lemma live_overlap x n y k z :
  (x, n) ∈ live -> (y, k) ∈ live -> x <= z < x + extent s x -> y <= z < y + extent s y -> x = y.
Proof.
  intros Hx Hy Hzx Hzy. destruct (live_covers x n z Hx Hzx) as (ar & Ha & Ca), (live_covers y k z Hy Hzy) as (br & Hb & Cb).
  pose proof (same_arena _ _ _ _ _ Ha Hb Ca Cb) as Hp. pose proof (count_in live x n Hx) as Cx. pose proof (count_in live y k Hy) as Cy.
  destruct (arena_key _ _ _ _ I _ _ Ha) as (_ & _ & Hal & _). unfold extent in *. rewrite <- Hp, Ha in *.
  destruct ar as [[d|] c].
  - pose proof (arena_desc _ _ _ _ I _ _ _ Ha) as Hd. pose proof (size_of_good d Hd) as Hg.
    destruct (known_block _ _ _ _ I x d c Ha ltac:(lia)) as (Bx & _). destruct (known_block _ _ _ _ I y d c ltac:(by rewrite <- Hp) ltac:(lia)) as (By & _).
    destruct (proj2 (arena_block_pos (page_of x) (size_of d) x Hg Hal) (conj eq_refl Bx)) as (i & Hi & Ex).
    destruct (proj2 (arena_block_pos (page_of x) (size_of d) y Hg Hal) (conj (eq_sym Hp) By)) as (j & Hj & Ey).
    unfold arena_block, good_size in *. assert (i = j) by nia. by subst.
  - pose proof (i_blocks _ _ _ _ I x) as Bx. pose proof (i_blocks _ _ _ _ I y) as By. rewrite <- Hp, Ha in By. rewrite Ha in Bx.
    destruct (Z.eqb_spec (x mod PGSIZE) SIZEOF_ARENA), (Z.eqb_spec (y mod PGSIZE) SIZEOF_ARENA); cbn in *; try lia.
    unfold page_of in Hp. lia.
Qed.
End live.

(** Distinct entries of [live] are at distinct positions. *)
Lemma live_once s0 lk s x n y k live : Inv s0 lk s ((x, n) :: (y, k) :: live) -> x <> y.
Proof.
  intros I <-. pose proof (i_blocks _ _ _ _ I x) as B. destruct (i_size _ _ _ _ I x n (list_elem_of_here _ _)) as [_ S].
  cbn [fmap list_fmap fst] in B. rewrite !count_cons, !bool_decide_eq_true_2 in B by done.
  destruct (arenas s !! page_of x) as [[[d|] c]|]; [destruct B as [_ B]| |done].
  - destruct (block_pos (size_of d) x); cbn in B; lia.
  - destruct (_ =? _); cbn in B; lia.
Qed.

(** The bytes of live blocks are the same in [s'] as in [s]. *)
Definition live_kept (s s' : mstate) (live : list (Z * Z)) : Prop :=
  forall y k z, (y, k) ∈ live -> y <= z < y + k -> ram (pal s') z = ram (pal s) z.

Lemma live_kept_trans s1 s2 s3 live : live_kept s1 s2 live -> live_kept s2 s3 live -> live_kept s1 s3 live.
Proof. intros H1 H2 y k z Hy Hz. rewrite (H2 y k z Hy Hz). by apply (H1 y k). Qed.

Lemma live_kept_ram s s' live : ram (pal s') = ram (pal s) -> live_kept s s' live.
Proof. intros H y k z _ _. by rewrite H. Qed.

(** Nothing but an arena without live blocks is written. *)
Lemma live_kept_arena s0 lk s s' live a ar :
  Inv s0 lk s live -> arenas s !! a = Some ar -> (forall x, page_of x = a -> count x (live.*1) = O) ->
  (forall z, covers z (a, arena_pages ar) = false -> ram (pal s') z = ram (pal s) z) -> live_kept s s' live.
Proof.
  intros I Ha Hno Hr y k z Hy Hz. apply Hr. apply not_true_iff_false. intros C.
  destruct (live_block _ _ _ _ I y k Hy) as (br & Hb & He & _).
  destruct (live_covers _ _ _ _ I y k z Hy ltac:(lia)) as (br' & Hb' & Cb).
  pose proof (same_arena _ _ _ _ I _ _ _ _ z Ha Hb' C Cb) as E. pose proof (count_in live y k Hy). specialize (Hno y (eq_sym E)). lia.
Qed.

(** ** Release *)

Lemma Inv_perm s0 lk s live live' : live ≡ₚ live' -> Inv s0 lk s live -> Inv s0 lk s live'.
Proof.
  intros Hp [I1 I2 I3 I4 I5 I6].
  assert (forall x, count x (live'.*1) = count x (live.*1)) as Hc.
  { intros x. unfold count. apply (Permutation_count_occ Z.eq_dec). by rewrite Hp. }
  split; try done.
  - intros x. specialize (I3 x). by rewrite Hc.
  - intros x n Hx. apply I5. by rewrite Hp.
Qed.

Lemma live_other s0 lk s live p n y k : Inv s0 lk s ((p, n) :: live) -> (y, k) ∈ live -> y <> p.
Proof.
  intros I Hy ->. apply list_elem_of_In, in_split in Hy as (l1 & l2 & ->).
  apply (live_once s0 lk s p n p k (l1 ++ l2)); [|done]. eapply Inv_perm; [|exact I]. apply perm_skip. symmetry. apply Permutation_middle.
Qed.

(** The page allocator's state changes, but not the pages held. *)
Lemma Inv_pal s0 lk s live p' :
  Inv s0 lk s live -> ledger s0 p' (held_pages (arenas s)) -> Inv s0 lk (MState p' (descs s) (arenas s)) live.
Proof. intros [I1 I2 I3 I4 I5 I6] L. by split. Qed.

Lemma known_memset s0 lk s live x d n v :
  Inv s0 lk s live -> arenas s !! page_of x = Some (Arena (Some d) n) ->
  (0 < count x (live.*1) + count x (free_of s d))%nat ->
  forall size, 0 <= size <= size_of d ->
  exists m, on_pal (on_ram (memset x v size)) s =
      Ok (x, MState (PState (kernel_pool (pal s)) (user_pool (pal s)) m) (descs s) (arenas s)) /\
    written (ram (pal s)) m x (replicate (Z.to_nat size) (u8 v)) /\
    Inv s0 lk (MState (PState (kernel_pool (pal s)) (user_pool (pal s)) m) (descs s) (arenas s)) live.
Proof.
  intros I Ha Hc size Hs. destruct (known_block _ _ _ _ I x d n Ha Hc) as (_ & Hx & Hm & _).
  destruct (memset_spec (Z.to_nat size) (ram (pal s)) x v) as (m & E & W).
  - lia.
  - intros y Hy. apply Hm. lia.
  - rewrite Z2Nat.id in E by lia. exists m. split_and!; [by apply on_pal_run, on_ram_run|done|].
    apply Inv_pal; [done|]. apply ledger_write; [apply I|]. intros y. by apply (written_some _ _ _ _ _ W).
Qed.

Lemma filter_not_in (b : Z) bs l :
  List.filter (fun c => negb (bool_decide (c ∈ bs))) (List.filter (fun c => negb (c =? b)) l) =
  List.filter (fun c => negb (bool_decide (c ∈ b :: bs))) l.
Proof.
  induction l as [|x l IH]; cbn [List.filter]; [done|].
  destruct (Z.eqb_spec x b) as [->|Hne]; cbn [negb List.filter].
  - rewrite IH, bool_decide_eq_true_2 by apply list_elem_of_here. done.
  - rewrite IH. replace (bool_decide (x ∈ b :: bs)) with (bool_decide (x ∈ bs)); [done|].
    apply bool_decide_ext. rewrite elem_of_cons. tauto.
Qed.

Lemma filter_elem (f : Z -> bool) l x : x ∈ List.filter f l <-> x ∈ l /\ f x = true.
Proof. by rewrite !list_elem_of_In, filter_In. Qed.

Lemma filter_all (f : Z -> bool) l : (forall c, c ∈ l -> f c = true) -> List.filter f l = l.
Proof.
  intros H. induction l as [|x l IH]; cbn; [done|]. rewrite H by apply list_elem_of_here. f_equal.
  apply IH. intros c Hc. by apply H, list_elem_of_further.
Qed.

Lemma drain_arena_run n s a i d m x :
  arenas s !! a = Some (Arena (Some d) m) -> descs s !! d = Some x -> arena_fits a x ->
  0 <= i -> i + Z.of_nat n <= blocks_per_arena x ->
  let blocks := arena_block a (block_size_of x) <$> seqZ i (Z.of_nat n) in
  (forall b, b ∈ blocks -> b ∈ free_list x) ->
  drain_arena n a i d s =
    Ok (tt, set_descs (<[d := Desc (block_size_of x) (blocks_per_arena x)
          (List.filter (fun c => negb (bool_decide (c ∈ blocks))) (free_list x)) (d_lock x)]>) s).
Proof.
  revert s i x. induction n as [|n IH]; intros s i x Ha Hx Hfit Hi Hn blocks Hin; cbn [drain_arena].
  - unfold ret, set_descs, blocks. cbn [seqZ fmap list_fmap].
    rewrite filter_all by (intros c _; apply negb_true_iff, bool_decide_eq_false_2, not_elem_of_nil).
    rewrite list_insert_id; [by destruct s|]. rewrite Hx. by destruct x.
  - pose proof Hfit as (F1 & F2 & F3). mstep (arena_to_block_run s a d m x i Ha Hx F1 ltac:(lia) ltac:(lia) ltac:(nia)).
    mstep (get_desc_run _ _ _ Hx). unfold blocks in Hin. rewrite (seqZ_cons i (Z.of_nat (S n))) in Hin by lia.
    replace (Z.pred (Z.of_nat (S n))) with (Z.of_nat n) in Hin by lia. cbn [fmap list_fmap] in Hin.
    set (b := arena_block a (block_size_of x) i) in *.
    rewrite bool_decide_eq_true_2 by apply Hin, list_elem_of_here.
    mstep (set_free_list_run _ _ _ (List.filter (fun c => negb (c =? b)) (free_list x)) Hx).
    set (y := Desc _ _ _ _). set (s1 := set_descs _ s).
    assert (descs s1 !! d = Some y) as Hy.
    { unfold s1, set_descs. cbn [descs]. by rewrite list_lookup_insert_eq by (apply lookup_lt_Some in Hx; done). }
    rewrite (IH s1 (i + 1) y Ha Hy Hfit); [|lia|cbn; lia|].
    + unfold s1, set_descs. cbn [pal descs arenas y block_size_of blocks_per_arena free_list d_lock].
      rewrite list_insert_insert_eq, filter_not_in. unfold blocks. rewrite (seqZ_cons i (Z.of_nat (S n))) by lia.
      by replace (Z.pred (Z.of_nat (S n))) with (Z.of_nat n) by lia.
    + intros c Hc. cbn [y free_list]. apply filter_elem. split; [by apply Hin, list_elem_of_further|].
      apply list_elem_of_fmap in Hc as (j & -> & Hj%elem_of_seqZ). cbn [y block_size_of]. unfold b, arena_block.
      destruct (Z.eqb_spec (a + SIZEOF_ARENA + j * block_size_of x) (a + SIZEOF_ARENA + i * block_size_of x)); [nia|done].
Qed.

(** An arena whose blocks are all free is given back. *)
Lemma Inv_drop s0 lk s live d a n l' p' :
  Inv s0 lk s live -> arenas s !! a = Some (Arena (Some d) n) ->
  (forall x, page_of x = a -> count x (live.*1) = O) ->
  (forall x, count x l' = if page_of x =? a then O else count x (free_of s d)) ->
  (forall a', a' <> a -> length (in_page a' l') = length (in_page a' (free_of s d))) ->
  ledger s0 p' (held_pages (delete a (arenas s))) ->
  Inv s0 lk (MState p' (<[d := std_desc lk d l']> (descs s)) (delete a (arenas s))) live.
Proof.
  intros I Ha Hl Hc Hpg L. pose proof (arena_desc _ _ _ _ I _ _ _ Ha) as Hd.
  pose proof (i_descs _ _ _ _ I) as D. pose proof (proj1 D) as Hlen. set (s' := MState _ _ _).
  assert (forall d', free_of s' d' = if decide (d' = d) then l' else free_of s d') as Hf.
  { intros d'. unfold free_of, s'. cbn [descs]. destruct (decide (d' = d)) as [->|].
    - by rewrite list_lookup_insert_eq by lia.
    - by rewrite list_lookup_insert_ne. }
  split.
  - by apply descs_ok_insert with lk.
  - intros d' x Hx. rewrite Hf in Hx. unfold s'. cbn [arenas]. destruct (decide (d' = d)) as [->|Hne].
    + apply count_elem in Hx. rewrite Hc in Hx. destruct (Z.eqb_spec (page_of x) a); [lia|].
      rewrite lookup_delete_ne by congruence. apply (i_free _ _ _ _ I). by apply count_elem.
    + destruct (i_free _ _ _ _ I d' x Hx) as [m Hm]. exists m. rewrite lookup_delete_ne by congruence. done.
  - intros x. pose proof (i_blocks _ _ _ _ I x) as B. unfold s' at 1. cbn [arenas].
    destruct (decide (page_of x = a)) as [E|E].
    + rewrite E, lookup_delete_eq. by apply Hl.
    + rewrite lookup_delete_ne by congruence. destruct (arenas s !! page_of x) as [[[d'|] m]|]; [|done|done].
      rewrite Hf. destruct (decide (d' = d)) as [->|]; [|done]. rewrite Hc. by destruct (Z.eqb_spec (page_of x) a).
  - intros a' d' m Hm. unfold s' in Hm. cbn [arenas] in Hm. rewrite lookup_delete_Some in Hm. destruct Hm as [Hne Hm].
    rewrite Hf, (i_count _ _ _ _ I a' d' m Hm). destruct (decide (d' = d)) as [->|]; [|done]. by rewrite Hpg.
  - intros x m Hx. pose proof (i_size _ _ _ _ I x m Hx) as [B1 B2]. split; [done|]. unfold s'. cbn [arenas].
    destruct (decide (page_of x = a)) as [E|E]; [|by rewrite lookup_delete_ne by congruence].
    exfalso. pose proof (count_in live x m Hx). specialize (Hl x E). lia.
  - done.
Qed.

Lemma Inv_drop_big s0 lk s live n a c p' :
  Inv s0 lk s ((a + SIZEOF_ARENA, n) :: live) -> arenas s !! a = Some (Arena None c) ->
  ledger s0 p' (held_pages (delete a (arenas s))) ->
  Inv s0 lk (MState p' (descs s) (delete a (arenas s))) live.
Proof.
  intros I Ha L. destruct (arena_key _ _ _ _ I a _ Ha) as (_ & _ & Hal & _).
  assert (forall x, page_of x = a -> count x (live.*1) = O) as Hno.
  { intros x E. pose proof (i_blocks _ _ _ _ I x) as B. rewrite E, Ha in B. cbn [fmap list_fmap fst] in B.
    rewrite count_cons in B. destruct (Z.eqb_spec (x mod PGSIZE) SIZEOF_ARENA) as [E2|]; cbn in B; [|lia].
    rewrite bool_decide_eq_true_2 in B by (unfold page_of in E; lia). cbn in B. lia. }
  set (s' := MState _ _ _). split.
  - apply (i_descs _ _ _ _ I).
  - intros d x Hx. destruct (i_free _ _ _ _ I d x Hx) as [m Hm]. exists m. unfold s'. cbn [arenas].
    rewrite lookup_delete_ne by congruence. done.
  - intros x. pose proof (i_blocks _ _ _ _ I x) as B. unfold s' at 1. cbn [arenas].
    destruct (decide (page_of x = a)) as [E|E]; [rewrite E, lookup_delete_eq; by apply Hno|].
    rewrite lookup_delete_ne by congruence. cbn [fmap list_fmap fst] in B.
    rewrite count_cons, bool_decide_eq_false_2 in B; [exact B|]. intros <-. apply E, page_of_add; done.
  - intros a' d m Hm. unfold s' in Hm. cbn [arenas] in Hm. rewrite lookup_delete_Some in Hm. by apply (i_count _ _ _ _ I), Hm.
  - intros x m Hx. pose proof (i_size _ _ _ _ I x m (list_elem_of_further _ _ _ Hx)) as [B1 B2]. split; [done|].
    unfold s'. cbn [arenas]. destruct (decide (page_of x = a)) as [E|E]; [|by rewrite lookup_delete_ne by congruence].
    pose proof (count_in live x m Hx). specialize (Hno x E). lia.
  - done.
Qed.

Lemma free_big s0 s live p n c :
  Inv s0 None s ((p, n) :: live) -> arenas s !! page_of p = Some (Arena None c) ->
  exists s', free p s = Ok (tt, s') /\ Inv s0 None s' live /\ live_kept s s' live.
Proof.
  intros I Ha. destruct (arena_key _ _ _ _ I _ _ Ha) as (H0 & Hc & Hal & H64 & _). cbn [arena_pages a_desc free_cnt] in *.
  pose proof (i_blocks _ _ _ _ I p) as B. rewrite Ha in B. cbn [fmap list_fmap fst] in B.
  rewrite count_cons, bool_decide_eq_true_2 in B by done.
  destruct (Z.eqb_spec (p mod PGSIZE) SIZEOF_ARENA) as [Ep|]; [|cbn in B; lia].
  assert (p = page_of p + SIZEOF_ARENA) as Epp by (unfold page_of; lia).
  assert (is_u64 p) as H64p by (unfold PGSIZE, SIZEOF_ARENA in *; split; lia).
  unfold free. rewrite (proj2 (Z.eqb_neq p NULL)) by (unfold NULL, SIZEOF_ARENA in *; lia).
  assert (block_to_arena p s = Ok (page_of p, s)) as E1.
  { unfold block_to_arena. rewrite page_of_round by done. rewrite (proj2 (Z.eqb_neq (page_of p) NULL)) by (unfold NULL; lia).
    mnorm. mstep (get_arena_run _ _ _ Ha). cbn [a_desc]. by rewrite pg_ofs_mod, Ep. }
  mstep E1. mstep (get_arena_run _ _ _ Ha). cbn [a_desc free_cnt].
  pose proof (i_pages _ _ _ _ I) as L. apply (ledger_perm _ _ _ _ (held_delete _ _ _ Ha)) in L.
  destruct (ledger_free _ _ _ _ _ L) as (p' & E2 & L' & Hram). cbn [arena_pages a_desc free_cnt] in E2.
  mstep (on_pal_run _ _ _ _ E2). unfold forget_arena. eexists. split; [done|].
  rewrite (proj2 (Z.eqb_neq c 0)) by lia. split.
  - rewrite Epp in I. by apply (Inv_drop_big s0 None s live n (page_of p) c).
  - intros y k z Hy Hz. apply Hram. apply not_true_iff_false. intros C. pose proof (list_elem_of_further _ (p, n) _ Hy) as Hy'.
    destruct (live_block _ _ _ _ I y k Hy') as (br & _ & He & _).
    destruct (live_covers _ _ _ _ I y k z Hy' ltac:(lia)) as (br' & Hb' & Cb).
    pose proof (same_arena _ _ _ _ I _ _ _ _ z Ha Hb' C Cb) as E.
    pose proof (i_blocks _ _ _ _ I y) as By. rewrite <- E, Ha in By. pose proof (count_in _ y k Hy') as Hc'. rewrite By in Hc'.
    destruct (Z.eqb_spec (y mod PGSIZE) SIZEOF_ARENA); [|cbn in Hc'; lia].
    apply (live_other _ _ _ _ _ _ _ _ I Hy). unfold page_of in E. lia.
Qed.

(** The arena is full of free blocks: all of them are on the free list. *)
Lemma all_free s0 lk s live a d n :
  Inv s0 lk s live -> arenas s !! a = Some (Arena (Some d) n) ->
  n <= (PGSIZE - SIZEOF_ARENA) / size_of d /\
  (n = (PGSIZE - SIZEOF_ARENA) / size_of d ->
   (forall b, b ∈ arena_block a (size_of d) <$> seqZ 0 n -> b ∈ free_of s d) /\
   (forall x, page_of x = a -> count x (live.*1) = O)).
Proof.
  intros I Ha. destruct (arena_key _ _ _ _ I _ _ Ha) as (_ & _ & Hal & _). pose proof (arena_desc _ _ _ _ I _ _ _ Ha) as Hd.
  pose proof (size_of_good d Hd) as Hg. pose proof (blocks_per_arena_pos _ Hg) as Hb.
  pose proof (i_count _ _ _ _ I _ _ _ Ha) as En. destruct (arena_free_nodup _ _ _ _ I _ _ _ Ha) as [Hnd Hsub].
  apply NoDup_ListNoDup in Hnd. set (blocks := arena_block a (size_of d) <$> seqZ 0 ((PGSIZE - SIZEOF_ARENA) / size_of d)) in *.
  assert (Hi : incl (in_page a (free_of s d)) blocks) by (intros x Hx; apply list_elem_of_In, Hsub; by apply list_elem_of_In).
  assert (length blocks = Z.to_nat ((PGSIZE - SIZEOF_ARENA) / size_of d)) as Hlb by (unfold blocks; by rewrite length_fmap, length_seqZ).
  pose proof (NoDup_incl_length Hnd Hi) as Hle. split; [lia|]. intros E.
  assert (forall b, b ∈ blocks -> b ∈ free_of s d) as Hall.
  { intros b Hb'. assert (incl blocks (in_page a (free_of s d))) as Hrev by (apply NoDup_length_incl; [done|lia|done]).
    apply list_elem_of_In, Hrev in Hb'. apply list_elem_of_In. by apply filter_In in Hb' as [? _]. }
  split; [by rewrite E|]. intros x Hx. pose proof (i_blocks _ _ _ _ I x) as B. rewrite Hx, Ha in B. destruct B as [_ B].
  destruct (block_pos (size_of d) x) eqn:Hp; cbn in B; [|lia].
  assert (x ∈ free_of s d) as Hxf.
  { apply Hall. apply count_elem. unfold blocks. rewrite count_blocks by done. rewrite (proj2 (Z.eqb_eq _ _) Hx), Hp. cbn. lia. }
  apply count_elem in Hxf. lia.
Qed.

Lemma count_filter_out x (blocks l : list Z) :
  (x ∈ l -> ~ x ∈ blocks) -> count x (List.filter (fun c => negb (bool_decide (c ∈ blocks))) l) = count x l.
Proof.
  induction l as [|y l IH]; intros H; cbn [List.filter]; [done|].
  specialize (IH ltac:(intros Hx; by apply H, list_elem_of_further)).
  destruct (bool_decide_reflect (y ∈ blocks)) as [Hy|Hy]; cbn [negb]; rewrite ?count_cons, IH; [|done].
  rewrite bool_decide_eq_false_2; [done|]. intros ->. by apply (H (list_elem_of_here _ _)).
Qed.

Lemma in_page_filter_out a (blocks l : list Z) :
  (forall x, x ∈ l -> x ∈ blocks -> page_of x <> a) ->
  in_page a (List.filter (fun c => negb (bool_decide (c ∈ blocks))) l) = in_page a l.
Proof.
  induction l as [|y l IH]; intros H; cbn [List.filter]; [done|].
  specialize (IH ltac:(intros x Hx; by apply H, list_elem_of_further)).
  rewrite in_page_cons. destruct (bool_decide_reflect (y ∈ blocks)) as [Hy|Hy]; cbn [negb]; rewrite ?in_page_cons, IH; [|done].
  destruct (Z.eqb_spec (page_of y) a) as [E|]; [|done]. by destruct (H y (list_elem_of_here _ _) Hy).
Qed.

(** The part of [free] after the block is back on the free list. *)
Lemma give_back s0 d s live a n :
  Inv s0 (Some d) s live -> arenas s !! a = Some (Arena (Some d) n) ->
  exists s', ((if (PGSIZE - SIZEOF_ARENA) / size_of d <=? n then
      ASSERT (n =? (PGSIZE - SIZEOF_ARENA) / size_of d);;
      drain_arena (Z.to_nat ((PGSIZE - SIZEOF_ARENA) / size_of d)) a 0 d;;
      on_pal (palloc_free_page a);;
      forget_arena a 1
    else ret tt);; d_release d) s = Ok (tt, s') /\ Inv s0 None s' live /\ live_kept s s' live.
Proof.
  intros I Ha. pose proof (arena_desc _ _ _ _ I _ _ _ Ha) as Hd. destruct (all_free _ _ _ _ _ _ _ I Ha) as [Hle Hall].
  pose proof (size_of_good d Hd) as Hg. pose proof (blocks_per_arena_pos _ Hg) as Hb.
  destruct (Z.leb_spec ((PGSIZE - SIZEOF_ARENA) / size_of d) n) as [Hge|Hlt].
  2: { mnorm. destruct (release_run _ _ _ _ I Hd) as [E I']. rewrite E. eexists. split_and!; [done|done|by apply live_kept_ram]. }
  assert (n = (PGSIZE - SIZEOF_ARENA) / size_of d) as En by lia. destruct (Hall En) as [Hin Hno].
  rewrite <- En, Z.eqb_refl. mnorm. destruct (arena_key _ _ _ _ I _ _ Ha) as (H0 & _ & Hal & H64 & _).
  pose proof (desc_run _ _ _ (i_descs _ _ _ _ I) Hd) as Hx.
  assert (arena_fits a (std_desc (Some d) d (free_of s d))) as Hfit.
  { unfold arena_fits. cbn [std_desc block_size_of blocks_per_arena]. rewrite <- En. unfold good_size in Hg.
    pose proof (arena_blocks_fit _ (n - 1) Hg ltac:(lia)) as [_ F].
    cbn in H64. unfold PGSIZE, SIZEOF_ARENA in *. split_and!; [lia|lia|nia]. }
  pose proof (drain_arena_run (Z.to_nat n) s a 0 d n _ Ha Hx Hfit ltac:(lia)) as Ed. cbn [std_desc block_size_of blocks_per_arena free_list d_lock] in Ed.
  rewrite Z2Nat.id, <- En in Ed by lia. specialize (Ed ltac:(lia) Hin). mstep Ed.
  set (blocks := arena_block a (size_of d) <$> seqZ 0 n) in *.
  set (l' := List.filter (fun c => negb (bool_decide (c ∈ blocks))) (free_of s d)) in *.
  pose proof (i_pages _ _ _ _ I) as L. apply (ledger_perm _ _ _ _ (held_delete _ _ _ Ha)) in L.
  destruct (ledger_free _ _ _ _ _ L) as (p' & E2 & L' & Hram).
  set (s1 := set_descs _ s). assert (on_pal (palloc_free_page a) s1 = Ok (tt, MState p' (descs s1) (arenas s1))) as E3 by by apply on_pal_run.
  mstep E3. unfold forget_arena. mnorm. cbn [Z.eqb].
  assert (forall x, x ∈ free_of s d -> (x ∈ blocks <-> page_of x = a)) as Hbl.
  { intros x Hxf. pose proof (count_blocks a (size_of d) x Hg Hal) as Hcb. rewrite <- En in Hcb. fold blocks in Hcb.
    rewrite count_elem, Hcb. destruct (Z.eqb_spec (page_of x) a) as [E|E]; cbn; [|split; [lia|done]].
    split; [done|]. intros _. destruct (known_block _ _ _ _ I x d n) as (-> & _); [by rewrite E|apply count_elem in Hxf; lia|cbn; lia]. }
  assert (Inv s0 (Some d) (MState p' (<[d := std_desc (Some d) d l']> (descs s)) (delete a (arenas s))) live) as I1.
  { apply (Inv_drop s0 (Some d) s live d a n l' p'); try done.
    - intros x. destruct (Z.eqb_spec (page_of x) a) as [E|E].
      + destruct (count x l') eqn:Ec; [done|]. assert (x ∈ l') as Hxl by (apply count_elem; lia).
        apply filter_elem in Hxl as [Hxf Hxb]. apply negb_true_iff, bool_decide_eq_false_1 in Hxb. destruct Hxb. by apply Hbl.
      + apply count_filter_out. intros Hxf. by rewrite Hbl.
    - intros a' Ha'. f_equal. apply in_page_filter_out. intros x Hxf ->%Hbl; [done|done]. }
  destruct (release_run _ _ _ _ I1 Hd) as [E I'].
  match type of E with d_release d ?t = _ => match goal with |- context [d_release d ?t'] =>
    assert (t' = t) as -> by (unfold s1, std_desc; by rewrite <- En) end end.
  rewrite E. eexists. split_and!; [done|done|]. by apply (live_kept_arena s0 (Some d) s _ live a _ I Ha Hno).
Qed.

Lemma free_small s0 s live p n d m :
  Inv s0 None s ((p, n) :: live) -> arenas s !! page_of p = Some (Arena (Some d) m) ->
  exists s', free p s = Ok (tt, s') /\ Inv s0 None s' live /\ live_kept s s' live.
Proof.
  intros I Ha. pose proof (arena_desc _ _ _ _ I _ _ _ Ha) as Hd.
  assert (0 < count p (((p, n) :: live).*1) + count p (free_of s d))%nat as Hc.
  { cbn [fmap list_fmap fst]. rewrite count_cons, bool_decide_eq_true_2 by done. cbn. lia. }
  destruct (known_block _ _ _ _ I p d m Ha Hc) as (_ & Hp & _ & Eba).
  unfold free. rewrite (proj2 (Z.eqb_neq p NULL)) by (unfold NULL; lia). mstep Eba.
  mstep (get_arena_run _ _ _ Ha). cbn [a_desc].
  mstep (get_desc_run _ _ _ (desc_run _ _ _ (i_descs _ _ _ _ I) Hd)). cbn [std_desc block_size_of blocks_per_arena].
  pose proof (size_of_good d Hd) as Hg. pose proof (blocks_per_arena_pos _ Hg) as Hb. unfold good_size in Hg.
  destruct (known_memset _ _ _ _ _ _ _ 0xcc I Ha Hc (size_of d) ltac:(lia)) as (mm & Em & Wm & I1). mstep Em.
  set (s1 := MState (PState _ _ mm) _ _) in *. change (arenas s) with (arenas s1) in Ha.
  destruct (acquire_run _ _ _ _ I1 Hd) as [Ea I2]. mstep Ea. set (s2 := set_descs _ s1) in *.
  change (arenas s1) with (arenas s2) in Ha.
  pose proof (desc_run _ _ _ (i_descs _ _ _ _ I2) Hd) as Hx2.
  mstep (get_desc_run _ _ _ Hx2). mstep (set_free_list_run _ _ _ (p :: free_of s2 d) Hx2).
  cbn [std_desc block_size_of blocks_per_arena d_lock free_cnt]. unfold set_arena. mnorm.
  assert (m = Z.of_nat (length (in_page (page_of p) (free_of s2 d)))) as Em2 by (by apply (i_count _ _ _ _ I2)).
  destruct (all_free _ _ _ _ _ _ _ I2 Ha) as [Hle _].
  set (l' := p :: free_of s2 d). assert (in_page (page_of p) l' = p :: in_page (page_of p) (free_of s2 d)) as Hip.
  { unfold l'. by rewrite in_page_cons, Z.eqb_refl. }
  assert (u64 (m + 1) = Z.of_nat (length (in_page (page_of p) l'))) as ->.
  { rewrite Hip. cbn [length]. rewrite wrapu_id by (split; lia). lia. }
  eassert (Inv s0 (Some d) _ live) as I3; [eapply (Inv_move s0 (Some d) (Some d) s2 ((p, n) :: live) live d (page_of p) m l'); try done|].
  - intros x. cbn [fmap list_fmap fst]. unfold l'. rewrite !count_cons. lia.
  - intros x Hx. unfold l'. rewrite count_cons, bool_decide_eq_false_2; [done|]. by intros ->.
  - intros x k Hx. left. by apply list_elem_of_further.
  - intros a' Ha'. unfold l'. rewrite in_page_cons. destruct (Z.eqb_spec (page_of p) a'); [congruence|done].
  - destruct (give_back _ _ _ _ _ _ I3 (lookup_insert_eq _ _ _)) as (s' & E & I' & K). exists s'. split_and!; [exact E|done|].
    eapply live_kept_trans; [|exact K]. intros y k z Hy Hz. apply (written_out _ _ _ _ _ Wm). intros Hz'. rewrite length_replicate in Hz'.
    pose proof (list_elem_of_further _ (p, n) _ Hy) as Hy'. destruct (live_block _ _ _ _ I y k Hy') as (br & _ & He & _).
    assert (extent s p = size_of d) as Ext by (unfold extent; change (arenas s2) with (arenas s) in Ha; by rewrite Ha).
    assert (y = p) as -> by (apply (live_overlap _ _ _ _ I y k p n z); [done|apply list_elem_of_here|lia|lia]).
    by apply (live_other _ _ _ _ _ _ _ _ I Hy).
Qed.

Lemma free_inv s0 s live p n :
  Inv s0 None s ((p, n) :: live) -> exists s', free p s = Ok (tt, s') /\ Inv s0 None s' live /\ live_kept s s' live.
Proof.
  intros I. destruct (i_size _ _ _ _ I p n (list_elem_of_here _ _)) as [_ H].
  destruct (arenas s !! page_of p) as [[[d|] m]|] eqn:E; [|by eapply free_big|done]. by eapply free_small.
Qed.

(** ** Resizing *)

(** [s] with other contents of memory. *)
Definition with_ram (s : mstate) (m : mem) : mstate :=
  MState (PState (kernel_pool (pal s)) (user_pool (pal s)) m) (descs s) (arenas s).

(** Writing a block one owns. *)
Lemma write_own s0 lk s live p n bs m :
  Inv s0 lk s ((p, n) :: live) -> Z.of_nat (length bs) <= n -> written (ram (pal s)) m p bs ->
  Inv s0 lk (with_ram s m) ((p, n) :: live) /\ live_kept s (with_ram s m) live.
Proof.
  intros I Hl W. split.
  - apply Inv_pal; [done|]. apply ledger_write; [apply I|]. intros y. by apply (written_some _ _ _ _ _ W).
  - intros y k z Hy Hz. apply (written_out _ _ _ _ _ W). intros Hz'.
    pose proof (list_elem_of_further _ (p, n) _ Hy) as Hy'. pose proof (list_elem_of_here (p, n) live) as Hp'.
    destruct (live_block _ _ _ _ I y k Hy') as (_ & _ & He & _), (live_block _ _ _ _ I p n Hp') as (_ & _ & He' & _).
    apply (live_other _ _ _ _ _ _ _ _ I Hy). apply (live_overlap _ _ _ _ I y k p n z); [done|done|lia|lia].
Qed.

Lemma malloc_kept s size p s' live : malloc size s = Ok (p, s') -> live_kept s s' live.
Proof. intros E. apply live_kept_ram. apply (malloc_ram size _ _ _ E). Qed.

Lemma calloc_inv s0 s live a b :
  Inv s0 None s live -> 0 <= a -> 0 <= b -> a * b <= 2 ^ 63 ->
  exists p s', calloc a b s = Ok (p, s') /\ live_kept s s' live /\
    (p = NULL /\ Inv s0 None s' live \/
     p <> NULL /\ 0 < a * b /\ Inv s0 None s' ((p, a * b) :: live) /\
     bytes_at (ram (pal s')) p (replicate (Z.to_nat (a * b)) 0)).
Proof.
  intros I Ha Hb Hab. unfold calloc. rewrite wrapu_id by (split; nia).
  destruct ((a * b <? a) || (a * b <? b)); [by exists NULL, s; split_and!; [|apply live_kept_ram|left]|].
  destruct (malloc_inv s0 s live (a * b) I) as (p & s1 & E & H); [nia|]. mstep E.
  pose proof (malloc_kept _ _ _ _ live E) as K. destruct H as [[-> I1]|(Hp & Hs & I1)].
  - change (NULL =? NULL) with true. cbn [negb]. mnorm. exists NULL, s1. split_and!; [done|done|by left].
  - rewrite (proj2 (Z.eqb_neq _ _) Hp). cbn [negb].
    destruct (live_block _ _ _ _ I1 p _ (list_elem_of_here _ _)) as (_ & _ & He & Hp0 & _ & _ & _ & Hm).
    destruct (memset_spec (Z.to_nat (a * b)) (ram (pal s1)) p 0 Hp0) as (m & Em & W); [intros z Hz; apply Hm; lia|].
    rewrite Z2Nat.id in Em by lia. assert (on_pal (on_ram (memset p 0 (a * b))) s1 = Ok (p, with_ram s1 m)) as E2
      by by apply on_pal_run, on_ram_run.
    rewrite bind_bind. mstep E2. destruct (write_own _ _ _ _ _ _ (replicate (Z.to_nat (a * b)) (u8 0)) m I1 ltac:(rewrite length_replicate; lia) W) as [I2 K2].
    exists p, (with_ram s1 m). split_and!; [done|by eapply live_kept_trans|]. right. split_and!; try done. by apply written_in in W.
Qed.

Lemma block_size_run s0 lk s live x n :
  Inv s0 lk s live -> (x, n) ∈ live -> block_size x s = Ok (extent s x, s).
Proof.
  intros I Hx. destruct (live_block _ _ _ _ I x n Hx) as (ar & Ha & He & H0 & H1 & H2 & H64 & _).
  pose proof (count_in live x n Hx) as Hc. pose proof (i_blocks _ _ _ _ I x) as B. rewrite Ha in B.
  destruct (arena_key _ _ _ _ I _ _ Ha) as (K1 & K2 & K3 & K4 & _). unfold block_size, extent in *. rewrite Ha in *.
  destruct ar as [[d|] c].
  - destruct (known_block _ _ _ _ I x d c Ha ltac:(lia)) as (_ & _ & _ & Eb). mstep Eb. mstep (get_arena_run _ _ _ Ha).
    cbn [a_desc]. by mstep (get_desc_run _ _ _ (desc_run _ _ _ (i_descs _ _ _ _ I) (proj1 B))).
  - destruct (Z.eqb_spec (x mod PGSIZE) SIZEOF_ARENA) as [Ex|]; [|cbn in B; lia]. cbn [arena_pages a_desc free_cnt] in *.
    assert (block_to_arena x s = Ok (page_of x, s)) as Eb.
    { unfold block_to_arena. rewrite page_of_round by (split; lia). rewrite (proj2 (Z.eqb_neq (page_of x) NULL)) by (unfold NULL; lia).
      mnorm. mstep (get_arena_run _ _ _ Ha). cbn [a_desc]. by rewrite pg_ofs_mod, Ex. }
    mstep Eb. mstep (get_arena_run _ _ _ Ha). cbn [a_desc free_cnt]. rewrite pg_ofs_mod, Ex. unfold PGSIZE, SIZEOF_ARENA in *.
    rewrite (wrapu_id 64 (4096 * c)), wrapu_id by (split; lia). unfold ret. by rewrite Z.mul_comm.
Qed.

(** The copy that [realloc] makes. *)
Lemma copy_block s0 s live p size q n len :
  Inv s0 None s ((p, size) :: (q, n) :: live) -> 0 <= len <= size -> len <= extent s q ->
  exists m, on_pal (on_ram (memcpy p q len)) s = Ok (p, with_ram s m) /\
    Inv s0 None (with_ram s m) ((p, size) :: (q, n) :: live) /\ live_kept s (with_ram s m) ((q, n) :: live) /\
    forall i, 0 <= i < len -> m (p + i) = ram (pal s) (q + i).
Proof.
  intros I Hl He. pose proof (live_once _ _ _ _ _ _ _ _ I) as Hne.
  assert ((q, n) ∈ (p, size) :: (q, n) :: live) as Hq by apply list_elem_of_further, list_elem_of_here.
  destruct (live_block _ _ _ _ I p size (list_elem_of_here _ _)) as (_ & _ & Ep & Hp0 & _ & _ & _ & Hpm).
  destruct (live_block _ _ _ _ I q n Hq) as (_ & _ & Eq & Hq0 & _ & _ & _ & Hqm).
  destruct (mapped_bytes (ram (pal s)) q (Z.to_nat len)) as (bs & Hbs & Hat); [intros z Hz; apply Hqm; lia|].
  destruct (memcpy_spec (ram (pal s)) p q bs Hp0 Hq0 Hat) as (m & E & W).
  - rewrite Hbs. intros z Hz. apply Hpm. lia.
  - rewrite Hbs, Z2Nat.id by lia. destruct (Z.le_gt_cases p q); [by left|]. right.
    destruct (Z.le_gt_cases (q + len) p); [done|]. destruct Hne.
    apply (live_overlap _ _ _ _ I p size q n p (list_elem_of_here _ _) Hq); lia.
  - rewrite Hbs, Z2Nat.id in E by lia. exists m.
    destruct (write_own _ _ _ _ _ _ bs m I ltac:(rewrite Hbs; lia) W) as [I2 K2].
    split_and!; [by apply on_pal_run, on_ram_run|done|done|]. intros i Hi.
    destruct (lookup_lt_is_Some_2 bs (Z.to_nat i)) as [b Hb]; [lia|]. apply written_in in W.
    pose proof (W _ _ Hb) as W1. pose proof (Hat _ _ Hb) as W2. rewrite Z2Nat.id in W1, W2 by lia. congruence.
Qed.

Lemma realloc_inv s0 s live q n size :
  Inv s0 None s ((q, n) :: live) -> 0 < size <= 2 ^ 63 ->
  exists p s', realloc q size s = Ok (p, s') /\ live_kept s s' live /\
    (p = NULL /\ Inv s0 None s' ((q, n) :: live) /\ live_kept s s' ((q, n) :: live) \/
     p <> NULL /\ Inv s0 None s' ((p, size) :: live) /\
     forall i, 0 <= i < Z.min size n -> ram (pal s') (p + i) = ram (pal s) (q + i)).
Proof.
  intros I Hs. destruct (live_block _ _ _ _ I q n (list_elem_of_here _ _)) as (_ & _ & _ & Hq0 & _).
  unfold realloc. destruct (Z.eqb_spec size 0); [lia|].
  destruct (malloc_inv s0 s _ size I) as (p & s1 & E & H); [lia|]. mstep E.
  pose proof (malloc_kept _ _ _ _ ((q, n) :: live) E) as K. pose proof (malloc_ram size _ _ _ E) as Er.
  assert (live_kept s s1 live) as K1 by (intros y k z Hy; apply (K y k), list_elem_of_further, Hy).
  rewrite (proj2 (Z.eqb_neq q NULL)) by (unfold NULL; lia). destruct H as [[-> I1]|(Hp & _ & I1)].
  - change (NULL =? NULL) with true. cbn [negb andb]. mnorm. exists NULL, s1. split_and!; [done|done|by left].
  - rewrite (proj2 (Z.eqb_neq _ _) Hp). cbn [negb andb].
    assert ((q, n) ∈ (p, size) :: (q, n) :: live) as Hq by apply list_elem_of_further, list_elem_of_here.
    destruct (live_block _ _ _ _ I1 q n Hq) as (_ & _ & He & _).
    rewrite bind_bind. mstep (block_size_run _ _ _ _ _ _ I1 Hq).
    set (len := if size <? extent s1 q then size else extent s1 q).
    assert (0 <= len <= size /\ len <= extent s1 q /\ Z.min size n <= len) as (L1 & L2 & L3)
      by (unfold len; destruct (Z.ltb_spec size (extent s1 q)); lia).
    destruct (copy_block _ _ _ _ _ _ _ len I1 L1 L2) as (m & Ec & I2 & K2 & Hcp). mstep Ec.
    destruct (free_inv s0 (with_ram s1 m) ((p, size) :: live) q n) as (s3 & Ef & I3 & K3).
    { eapply Inv_perm; [apply perm_swap|exact I2]. }
    mstep Ef. exists p, s3. split_and!; [done| |right; split_and!; [done|done|]].
    + eapply live_kept_trans; [exact K1|]. eapply live_kept_trans; [intros y k z Hy; apply (K2 y k), list_elem_of_further, Hy|].
      intros y k z Hy. apply (K3 y k), list_elem_of_further, Hy.
    + intros i Hi. rewrite (K3 p size (p + i) (list_elem_of_here _ _)) by lia. rewrite <- Er. apply Hcp. lia.
Qed.

(** ** Histories *)

Lemma malloc_init_Inv p : pools_ok p -> exists s, malloc_init p = Ok s /\ pal s = p /\ Inv p None s [].
Proof.
  intros H. unfold malloc_init. destruct (malloc_init_loop 10 16 []) as [ds| | | |] eqn:E; [|discriminate E..].
  assert (ds = (fun i => std_desc None i []) <$> seq 0 7) as -> by (vm_compute in E; injection E as <-; reflexivity).
  eexists. split; [done|]. split; [done|].
  assert (forall d, free_of (MState p ((fun i => std_desc None i []) <$> seq 0 7) ∅) d = []) as Hf by (intros d; do 7 (destruct d as [|d]; [done|]); done).
  split; cbn [descs arenas pal].
  - split; [done|]. intros i d Hd. do 7 (destruct i as [|i]; [by injection Hd as <-|]). done.
  - intros d x Hx. rewrite Hf in Hx. by apply elem_of_nil in Hx.
  - intros x. by rewrite lookup_empty.
  - intros a d n Ha. by rewrite lookup_empty in Ha.
  - by intros x n ?%elem_of_nil.
  - by apply ledger_start.
Qed.

(** What clients may do, and the blocks they own: they resize and free blocks
    they own, ask for at most [2^63] bytes, and write only inside their
    blocks. *)
Inductive usage (s0 : pstate) : mstate -> list (Z * Z) -> Prop :=
  | u_init s : malloc_init s0 = Ok s -> usage s0 s []
  | u_malloc s live size p s' :
      usage s0 s live -> 0 <= size <= 2 ^ 63 -> malloc size s = Ok (p, s') ->
      usage s0 s' (if p =? NULL then live else (p, size) :: live)
  | u_calloc s live a b p s' :
      usage s0 s live -> 0 <= a -> 0 <= b -> a * b <= 2 ^ 63 -> calloc a b s = Ok (p, s') ->
      usage s0 s' (if p =? NULL then live else (p, a * b) :: live)
  | u_realloc s live q n live' size p s' :
      usage s0 s live -> live ≡ₚ (q, n) :: live' -> 0 < size <= 2 ^ 63 -> realloc q size s = Ok (p, s') ->
      usage s0 s' (if p =? NULL then live else (p, size) :: live')
  | u_free s live q n live' s' :
      usage s0 s live -> live ≡ₚ (q, n) :: live' -> free q s = Ok (tt, s') -> usage s0 s' live'
  | u_write s live q n bs m :
      usage s0 s live -> (q, n) ∈ live -> Z.of_nat (length bs) <= n -> written (ram (pal s)) m q bs ->
      usage s0 (with_ram s m) live.

Lemma elem_perm {A} (x : A) l : x ∈ l -> exists l', l ≡ₚ x :: l'.
Proof. intros H. apply list_elem_of_In, in_split in H as (l1 & l2 & ->). exists (l1 ++ l2). symmetry. apply Permutation_middle. Qed.

Lemma usage_Inv s0 s live : pools_ok s0 -> usage s0 s live -> Inv s0 None s live.
Proof.
  intros Hok H. induction H as [s E|s live size p s' _ I Hs E|s live a b p s' _ I Ha Hb Hab E
    |s live q n live' size p s' _ I Hp Hs E|s live q n live' s' _ I Hp E|s live q n bs m _ I Hq Hl W].
  - destruct (malloc_init_Inv s0 Hok) as (s1 & E1 & _ & I). rewrite E1 in E. by injection E as <-.
  - destruct (malloc_inv s0 s live size I Hs) as (p1 & s1 & E1 & H). rewrite E1 in E. injection E as -> ->.
    destruct H as [[-> I1]|(Hne & _ & I1)]; [done|]. by rewrite (proj2 (Z.eqb_neq _ _) Hne).
  - destruct (calloc_inv s0 s live a b I Ha Hb Hab) as (p1 & s1 & E1 & _ & H). rewrite E1 in E. injection E as -> ->.
    destruct H as [[-> I1]|(Hne & _ & I1 & _)]; [done|]. by rewrite (proj2 (Z.eqb_neq _ _) Hne).
  - destruct (realloc_inv s0 s live' q n size (Inv_perm _ _ _ _ _ Hp I) Hs) as (p1 & s1 & E1 & _ & H).
    rewrite E1 in E. injection E as -> ->. destruct H as [(-> & I1 & _)|(Hne & I1 & _)].
    + by apply (Inv_perm _ _ _ ((q, n) :: live')).
    + by rewrite (proj2 (Z.eqb_neq _ _) Hne).
  - destruct (free_inv s0 s live' q n (Inv_perm _ _ _ _ _ Hp I)) as (s1 & E1 & I1 & _). rewrite E1 in E. by injection E as <-.
  - destruct (elem_perm _ _ Hq) as [live' Hp].
    apply (Inv_perm _ _ _ ((q, n) :: live')); [done|]. eapply write_own; [by apply (Inv_perm _ _ _ live)|done|done].
Qed.

(** ** Properties *)

(** C9: Over any history of [malloc], [calloc], [realloc], [free] and writes by
    the owners, two live blocks never share a byte, the requested number of
    bytes of every live block is mapped memory, and no permitted call of the
    four functions panics or faults: every assertion of the allocator holds.
    Permitted are requests of at most [2^63] bytes, for [calloc] the product,
    and [free] and [realloc] of live blocks. *)
Theorem malloc_blocks_disjoint s0 s live :
  pools_ok s0 -> usage s0 s live ->
  (forall i j x n y k, i <> j -> live !! i = Some (x, n) -> live !! j = Some (y, k) -> x + n <= y \/ y + k <= x) /\
  (forall x n z, (x, n) ∈ live -> x <= z < x + n -> is_Some (ram (pal s) z)) /\
  (forall size, 0 <= size <= 2 ^ 63 -> exists p s', malloc size s = Ok (p, s')) /\
  (forall a b, 0 <= a -> 0 <= b -> a * b <= 2 ^ 63 -> exists p s', calloc a b s = Ok (p, s')) /\
  (forall x n, (x, n) ∈ live ->
     (exists s', free x s = Ok (tt, s')) /\
     (forall size, 0 < size <= 2 ^ 63 -> exists p s', realloc x size s = Ok (p, s'))).
Proof.
  intros Hok H. pose proof (usage_Inv s0 s live Hok H) as I. split_and!.
  - intros i j x n y k Hij Hi Hj.
    assert (exists l, live ≡ₚ (x, n) :: (y, k) :: l) as [l Hl].
    { pose proof (delete_perm live i _ Hi) as Hp. assert ((y, k) ∈ delete i live) as Hd.
      { destruct (Nat.lt_ge_cases j i).
        - apply list_elem_of_lookup. exists j. by rewrite list_lookup_delete_lt.
        - apply list_elem_of_lookup. exists (pred j). rewrite list_lookup_delete_ge by lia. by replace (S (pred j)) with j by lia. }
      destruct (elem_perm _ _ Hd) as [l Hl]. exists l. by rewrite Hp, Hl. }
    apply (Inv_perm _ _ _ _ _ Hl) in I. pose proof (live_once _ _ _ _ _ _ _ _ I) as Hne.
    pose proof (list_elem_of_here (x, n) ((y, k) :: l)) as Hx.
    assert ((y, k) ∈ (x, n) :: (y, k) :: l) as Hy by apply list_elem_of_further, list_elem_of_here.
    destruct (live_block _ _ _ _ I x n Hx) as (_ & _ & Ex & _), (live_block _ _ _ _ I y k Hy) as (_ & _ & Ey & _).
    destruct (Z.le_gt_cases (x + n) y); [by left|]. destruct (Z.le_gt_cases (y + k) x); [by right|]. exfalso. apply Hne.
    apply (live_overlap _ _ _ _ I x n y k (Z.max x y) Hx Hy); lia.
  - intros x n z Hx Hz. destruct (live_block _ _ _ _ I x n Hx) as (_ & _ & He & _ & _ & _ & _ & Hm). apply Hm. lia.
  - intros size Hs. destruct (malloc_inv s0 s live size I Hs) as (p & s' & E & _). eauto.
  - intros a b Ha Hb Hab. destruct (calloc_inv s0 s live a b I Ha Hb Hab) as (p & s' & E & _). eauto.
  - intros x n Hx. destruct (elem_perm _ _ Hx) as [l Hl]. apply (Inv_perm _ _ _ _ _ Hl) in I. split.
    + destruct (free_inv s0 s l x n I) as (s' & E & _). eauto.
    + intros size Hs. destruct (realloc_inv s0 s l x n size I Hs) as (p & s' & E & _). eauto.
Qed.

(** [realloc] that succeeds gives a block with the same first bytes, as
    many as both blocks have, and one that fails keeps the old block; [calloc]
    that succeeds gives a block of zeros.  Neither changes a byte of any other
    live block. *)
Theorem realloc_calloc_contents s0 s live q n size a b :
  pools_ok s0 -> usage s0 s ((q, n) :: live) -> 0 < size <= 2 ^ 63 -> 0 <= a -> 0 <= b -> a * b <= 2 ^ 63 ->
  (exists p s', realloc q size s = Ok (p, s') /\ live_kept s s' live /\
     (p = NULL /\ live_kept s s' ((q, n) :: live) \/
      p <> NULL /\ forall i, 0 <= i < Z.min size n -> ram (pal s') (p + i) = ram (pal s) (q + i))) /\
  (exists p s', calloc a b s = Ok (p, s') /\ live_kept s s' ((q, n) :: live) /\
     (p = NULL \/ p <> NULL /\ bytes_at (ram (pal s')) p (replicate (Z.to_nat (a * b)) 0))).
Proof.
  intros Hok H Hs Ha Hb Hab. pose proof (usage_Inv s0 s _ Hok H) as I. split.
  - destruct (realloc_inv s0 s live q n size I Hs) as (p & s' & E & K & C). exists p, s'. split_and!; [done|done|].
    destruct C as [(? & _ & ?)|(? & _ & ?)]; [by left|by right].
  - destruct (calloc_inv s0 s _ a b I Ha Hb Hab) as (p & s' & E & K & C). exists p, s'. split_and!; [done|done|].
    destruct C as [(? & _)|(? & _ & _ & ?)]; [by left|by right].
Qed.

(** The allocator on the demonstration pools, after one allocation. *)

Lemma demo_usage : exists s p, usage demo_pools s [(p, 100)].
Proof.
  destruct (malloc_init_Inv demo_pools demo_pools_ok) as (s & E & Ep & I).
  destruct (malloc_inv _ s [] 100 I) as (p & s1 & E1 & H); [lia|]. exists s1, p.
  assert (p <> NULL) as Hp.
  { assert (match malloc_init demo_pools with Ok s => match malloc 100 s with Ok (p, _) => p | _ => 0 end | _ => 0 end = 0x8004201018) as Hv
      by (vm_compute; reflexivity). rewrite E, E1 in Hv. by subst p. }
  replace [(p, 100)] with (if p =? NULL then [] else [(p, 100)]) by (by rewrite (proj2 (Z.eqb_neq _ _) Hp)).
  eapply u_malloc; [by apply u_init|lia|exact E1].
Qed.

Lemma malloc_blocks_disjoint_witness :
  exists s p, usage demo_pools s [(p, 100)] /\ is_Some (ram (pal s) (p + 99)) /\
    (exists q s', calloc 3 5 s = Ok (q, s')) /\ exists s', free p s = Ok (tt, s').
Proof.
  destruct demo_usage as (s & p & U). exists s, p. split; [exact U|].
  destruct (malloc_blocks_disjoint demo_pools s _ demo_pools_ok U) as (_ & Hm & _ & Hc & Hf). split; [|split].
  - apply (Hm p 100); [apply list_elem_of_here|lia].
  - apply Hc; lia.
  - apply (Hf p 100). apply list_elem_of_here.
Defined.

Lemma realloc_calloc_contents_witness :
  exists s q p s', usage demo_pools s [(q, 100)] /\ realloc q 200 s = Ok (p, s') /\
    (p <> NULL -> ram (pal s') (p + 50) = ram (pal s) (q + 50)).
Proof.
  destruct demo_usage as (s & q & U).
  destruct (realloc_calloc_contents demo_pools s [] q 100 200 3 5 demo_pools_ok U) as [(p & s' & E & _ & C) _]; [lia..|].
  exists s, q, p, s'. split; [exact U|]. split; [exact E|]. intros Hp. destruct C as [[? _]|[_ C]]; [done|]. apply C. lia.
Defined.

(** A request of [2^64 - 24] bytes makes the sum with the header wrap around to
    0, so that no page is asked for: [malloc] returns an address in the first
    page of the pool, which is in use. *)
Lemma malloc_size_overflow :
  match malloc_init demo_pools with
  | Ok s => match malloc (2 ^ 64 - 24) s with
            | Ok (p, s') => Some (p, bits (used_map (kernel_pool (pal s'))))
            | _ => None
            end
  | _ => None
  end = Some (0x8004200018, bits (used_map (kernel_pool demo_pools))).
Proof. vm_compute. reflexivity. Qed.
