(* ===== verification/Mmu.v ===== *)
(** * Page tables (threads/mmu.c, include/threads/pte.h)

    The four-level page tables in the memory that the page allocator manages:
    the state of the walks is that of Palloc, so that a new table is a page of
    the kernel pool and an entry is 8 bytes of memory.  Around it stand the
    register [cr3], the pages whose translation the processor may have cached,
    and the variable [base_pml4]. *)

From stdpp Require Import gmap.
From S2P Require Import Prelude Bitmap CString Palloc.

(** ** Page table entries (include/threads/pte.h) *)

Definition PML4SHIFT : Z := 39.
Definition PDPESHIFT : Z := 30.
Definition PDXSHIFT : Z := 21.
Definition PTXSHIFT : Z := 12.
Definition PML4 (la : Z) : Z := Z.land (Z.shiftr la PML4SHIFT) 0x1FF.
Definition PDPE (la : Z) : Z := Z.land (Z.shiftr la PDPESHIFT) 0x1FF.
Definition PDX (la : Z) : Z := Z.land (Z.shiftr la PDXSHIFT) 0x1FF.
Definition PTX (la : Z) : Z := Z.land (Z.shiftr la PTXSHIFT) 0x1FF.
(** [~0xFFF] is an [int] and is sign-extended. *)
Definition PTE_ADDR (pte : Z) : Z := Z.land pte (u64 (Z.lnot 0xFFF)).
Definition PTE_P : Z := 0x1.
Definition PTE_W : Z := 0x2.
Definition PTE_U : Z := 0x4.
Definition PTE_A : Z := 0x20.
Definition PTE_D : Z := 0x40.
(** Entries of a table: a page holds 512 words of 8 bytes. *)
Definition ENTRIES : nat := 512.

(** ** Words in memory *)

Definition word (m : mem) (a : Z) : option Z := bytes_word <$> mapM m (seqZ a 8).
Definition load_word (a : Z) : M pstate Z := on_ram (fun m =>
  match word m a with Some w => Ok (w, m) | None => Fault end).
Definition store_word (a w : Z) : M pstate unit := on_ram (fun m =>
  match word m a with Some _ => Ok (tt, write_bytes m a (word_bytes 8 w)) | None => Fault end).

(** ** Walks *)

(** The start of every walk: makes sure that the entry [idx] of [tab] is
    present.  [None]: it is not, and could not be made so; [Some b]: it is, and
    [b] tells whether a table was allocated for it. *)
Definition get_table (tab idx : Z) (create : bool) : M pstate (option bool) :=
  pde ← load_word (u64 (tab + 8 * idx));
  if has_flag pde PTE_P then ret (Some false)
  else if create then
    new_page ← palloc_get_page PAL_ZERO;
    if negb (new_page =? NULL) then
      pa ← lift (vtop new_page);
      store_word (u64 (tab + 8 * idx)) (Z.lor (Z.lor (Z.lor pa PTE_U) PTE_W) PTE_P);; ret (Some true)
    else ret None
  else ret None.

(** [pgdir_walk]: the entry of [va] in the page table the page directory [pdp]
    names. *)
Definition pgdir_walk (pdp va : Z) (create : bool) : M pstate Z :=
  if negb (pdp =? NULL) then
    found ← get_table pdp (PDX va) create;
    match found with
    | Some _ => e ← load_word (u64 (pdp + 8 * PDX va)); ret (ptov (u64 (PTE_ADDR e + 8 * PTX va)))
    | None => ret NULL
    end
  else ret NULL.

(** The common body of [pdpe_walk] and [pml4e_walk]: [idx] is the index into the
    table [tab], and [next] the walk of the level below.  A table that was
    allocated for a walk that then fails is given back. *)
Definition walk_table (idx : Z) (next : Z -> M pstate Z) (tab : Z) (create : bool) : M pstate Z :=
  if negb (tab =? NULL) then
    found ← get_table tab idx create;
    match found with
    | None => ret NULL
    | Some allocated =>
        e ← load_word (u64 (tab + 8 * idx));
        pte ← next (ptov (PTE_ADDR e));
        (if (pte =? NULL) && allocated then
           e ← load_word (u64 (tab + 8 * idx));
           palloc_free_page (ptov (PTE_ADDR e));;
           store_word (u64 (tab + 8 * idx)) 0
         else ret tt);;
        ret pte
    end
  else ret NULL.

Definition pdpe_walk (pdpe va : Z) (create : bool) : M pstate Z :=
  walk_table (PDPE va) (fun pdp => pgdir_walk pdp va create) pdpe create.
Definition pml4e_walk (pml4e va : Z) (create : bool) : M pstate Z :=
  walk_table (PML4 va) (fun pdpe => pdpe_walk pdpe va create) pml4e create.

(** ** Destruction *)

(** [for (i = 0; i < ENTRIES; i++) if (ptov (tab[i]) & PTE_P) free_ (PTE_ADDR (ptov (tab[i])));],
    and then the table itself is freed. *)
Fixpoint destroy_entries (n : nat) (i : Z) (tab : Z) (free_ : Z -> M pstate unit) : M pstate unit :=
  match n with
  | O => ret tt
  | S n =>
      e ← load_word (u64 (tab + 8 * i));
      (if has_flag (ptov e) PTE_P then free_ (PTE_ADDR (ptov e)) else ret tt);;
      destroy_entries n (i + 1) tab free_
  end.
Definition pt_destroy (pt : Z) : M pstate unit := destroy_entries ENTRIES 0 pt palloc_free_page;; palloc_free_page pt.
Definition pgdir_destroy (pdp : Z) : M pstate unit := destroy_entries ENTRIES 0 pdp pt_destroy;; palloc_free_page pdp.
Definition pdpe_destroy (pdpe : Z) : M pstate unit := destroy_entries ENTRIES 0 pdpe pgdir_destroy;; palloc_free_page pdpe.

(** ** The processor *)

(** [tlb]: the numbers of the pages whose translation may be cached. *)
Record cpu := Cpu { pal : pstate; base_pml4 : Z; cr3 : Z; tlb : gset Z }.

Definition on_pal {A} (f : M pstate A) : M cpu A := fun s =>
  let! (a, p) := f (pal s) in Ok (a, Cpu p (base_pml4 s) (cr3 s) (tlb s)).
Definition rcr3 : M cpu Z := s ← get; ret (cr3 s).
(** Loading [cr3] drops every cached translation. *)
Definition lcr3 (v : Z) : M cpu unit := modify (fun s => Cpu (pal s) (base_pml4 s) v ∅).
Definition invlpg (va : Z) : M cpu unit :=
  modify (fun s => Cpu (pal s) (base_pml4 s) (cr3 s) (tlb s ∖ {[pg_no va]})).

(** ** Page maps *)

Definition pml4_create : M cpu Z :=
  pml4 ← on_pal (palloc_get_page 0);
  (if negb (pml4 =? NULL) then
     s ← get; on_pal (on_ram (memcpy pml4 (base_pml4 s) PGSIZE));; ret tt
   else ret tt);;
  ret pml4.

Definition pml4_destroy (pml4 : Z) : M cpu unit :=
  if pml4 =? NULL then ret tt
  else
    s ← get; ASSERT (negb (pml4 =? base_pml4 s));;
    on_pal (e ← load_word pml4;
            (if has_flag (ptov e) PTE_P then pdpe_destroy (PTE_ADDR (ptov e)) else ret tt);;
            palloc_free_page pml4).

Definition pml4_activate (pml4 : Z) : M cpu unit :=
  s ← get;
  pa ← lift (vtop (if negb (pml4 =? NULL) then pml4 else base_pml4 s));
  lcr3 pa.

(** [pml4_for_each] and its helpers stop at the first entry for which [func]
    returns false. *)
Fixpoint for_entries (n : nat) (i : Z) (visit : Z -> M cpu bool) : M cpu bool :=
  match n with
  | O => ret true
  | S n => ok ← visit i; if ok then for_entries n (i + 1) visit else ret false
  end.
Definition pt_for_each (pt : Z) (func : Z -> Z -> M cpu bool) (pml4_index pdp_index pdx_index : Z) : M cpu bool :=
  for_entries ENTRIES 0 (fun i =>
    let pte := u64 (pt + 8 * i) in
    e ← on_pal (load_word pte);
    if has_flag e PTE_P then
      func pte (Z.lor (Z.lor (Z.lor (u64 (Z.shiftl pml4_index PML4SHIFT)) (u64 (Z.shiftl pdp_index PDPESHIFT)))
                             (u64 (Z.shiftl pdx_index PDXSHIFT))) (u64 (Z.shiftl i PTXSHIFT)))
    else ret true).
(** The common loop of the three levels above the page tables. *)
Definition dir_for_each (dir : Z) (visit : Z -> Z -> M cpu bool) : M cpu bool :=
  for_entries ENTRIES 0 (fun i =>
    e ← on_pal (load_word (u64 (dir + 8 * i)));
    if has_flag (ptov e) PTE_P then visit (PTE_ADDR (ptov e)) i else ret true).
Definition pgdir_for_each (pdp : Z) (func : Z -> Z -> M cpu bool) (pml4_index pdp_index : Z) : M cpu bool :=
  dir_for_each pdp (fun pt i => pt_for_each pt func pml4_index pdp_index i).
Definition pdp_for_each (pdp : Z) (func : Z -> Z -> M cpu bool) (pml4_index : Z) : M cpu bool :=
  dir_for_each pdp (fun pd i => pgdir_for_each pd func pml4_index i).
Definition pml4_for_each (pml4 : Z) (func : Z -> Z -> M cpu bool) : M cpu bool :=
  dir_for_each pml4 (fun pdp i => pdp_for_each pdp func i).

Definition pml4_get_page (pml4 uaddr : Z) : M cpu Z :=
  ASSERT (is_user_vaddr uaddr);;
  pte ← on_pal (pml4e_walk pml4 uaddr false);
  if negb (pte =? NULL) then
    e ← on_pal (load_word pte);
    if has_flag e PTE_P then ret (u64 (ptov (PTE_ADDR e) + pg_ofs uaddr)) else ret NULL
  else ret NULL.

Definition pml4_set_page (pml4 upage kpage : Z) (rw : bool) : M cpu bool :=
  ASSERT (pg_ofs upage =? 0);;
  ASSERT (pg_ofs kpage =? 0);;
  ASSERT (is_user_vaddr upage);;
  s ← get; ASSERT (negb (pml4 =? base_pml4 s));;
  pte ← on_pal (pml4e_walk pml4 upage true);
  (if negb (pte =? NULL) then
     pa ← lift (vtop kpage);
     on_pal (store_word pte (Z.lor (Z.lor (Z.lor pa PTE_P) (if rw then PTE_W else 0)) PTE_U))
   else ret tt);;
  ret (negb (pte =? NULL)).

(** [if (rcr3 () == vtop (pml4)) invlpg (va);] *)
Definition flush (pml4 va : Z) : M cpu unit :=
  c ← rcr3; pa ← lift (vtop pml4);
  if c =? pa then invlpg va else ret tt.

(** [~PTE_P] is an [int] and is sign-extended to 64 bits. *)
Definition pml4_clear_page (pml4 upage : Z) : M cpu unit :=
  ASSERT (pg_ofs upage =? 0);;
  ASSERT (is_user_vaddr upage);;
  pte ← on_pal (pml4e_walk pml4 upage false);
  if negb (pte =? NULL) then
    e ← on_pal (load_word pte);
    if has_flag e PTE_P then
      on_pal (store_word pte (Z.land e (u64 (Z.lnot PTE_P))));; flush pml4 upage
    else ret tt
  else ret tt.

(** The common body of [pml4_is_dirty] and [pml4_is_accessed]. *)
Definition pte_test (flag pml4 vpage : Z) : M cpu bool :=
  pte ← on_pal (pml4e_walk pml4 vpage false);
  if negb (pte =? NULL) then e ← on_pal (load_word pte); ret (has_flag e flag) else ret false.
(** The common body of [pml4_set_dirty] and [pml4_set_accessed]: the mask
    [~(uint32_t) flag] has 32 bits and is extended with zeros. *)
Definition pte_mark (flag pml4 vpage : Z) (on : bool) : M cpu unit :=
  pte ← on_pal (pml4e_walk pml4 vpage false);
  if negb (pte =? NULL) then
    e ← on_pal (load_word pte);
    on_pal (store_word pte (if on then Z.lor e flag else Z.land e (u32 (Z.lnot flag))));;
    flush pml4 vpage
  else ret tt.

Definition pml4_is_dirty (pml4 vpage : Z) : M cpu bool := pte_test PTE_D pml4 vpage.
Definition pml4_set_dirty (pml4 vpage : Z) (dirty : bool) : M cpu unit := pte_mark PTE_D pml4 vpage dirty.
Definition pml4_is_accessed (pml4 vpage : Z) : M cpu bool := pte_test PTE_A pml4 vpage.
Definition pml4_set_accessed (pml4 vpage : Z) (accessed : bool) : M cpu unit := pte_mark PTE_A pml4 vpage accessed.
