(* ===== verification/MmuSpec.v ===== *)
(** * Page tables: invariant and properties

    The tables that a page map reaches form a tree of pages of the kernel pool,
    given by a finite map from paths (the indices that lead to a table) to
    addresses.  The walks follow or extend this tree; the page table entries
    at its leaves are the abstract page map. *)

From stdpp Require Import gmap.
From S2P Require Import Prelude Bitmap CString Palloc Mmu.

(** ** Words *)

Definition bytes_ok (m : mem) : Prop := forall a b, m a = Some b -> is_u8 b.

Lemma word_bytes_at m a bs : length bs = 8%nat -> bytes_at m a bs -> word m a = Some (bytes_word bs).
Proof.
  intros L H. unfold word. replace (mapM m (seqZ a 8)) with (Some bs); [done|]. symmetry. apply mapM_Some.
  apply Forall2_same_length_lookup_2; [rewrite length_seqZ; lia|]. intros i x b Hx Hb.
  apply lookup_seqZ in Hx as [-> _]. by apply H.
Qed.

Lemma word_some m a : mapped m a 8 -> is_Some (word m a).
Proof. intros (bs & L & H)%mapped_bytes. rewrite (word_bytes_at _ _ _ L H). by eexists. Qed.

Lemma word_ext m m' a : (forall x, a <= x < a + 8 -> m' x = m x) -> word m' a = word m a.
Proof.
  intros H. unfold word. f_equal. cbn [seqZ]. change (Z.to_nat 8) with 8%nat.
  assert (forall l, (forall x, x ∈ l -> m' x = m x) -> mapM m' l = mapM m l) as Hm.
  { induction l as [|x l IH]; intros Hl; [done|]. cbn. rewrite (Hl x) by by left. destruct (m x); [|done]. cbn.
    rewrite IH; [done|]. intros y Hy. apply Hl. by right. }
  apply Hm. intros x Hx. apply elem_of_seqZ in Hx. apply H. lia.
Qed.

Lemma word_range m a w : bytes_ok m -> word m a = Some w -> is_u64 w.
Proof.
  intros Hm H. unfold word in H. apply fmap_Some in H as (bs & Hbs & ->). apply mapM_Some in Hbs.
  pose proof (Forall2_length _ _ _ Hbs) as Hl. rewrite length_seqZ in Hl. assert (Forall (is_u 8) bs) as F.
  { apply Forall_forall. intros b [i Hb]%list_elem_of_lookup. destruct (Forall2_lookup_r _ _ _ _ _ Hbs Hb) as (x & _ & Hx). by apply (Hm x). }
  apply bytes_word_range in F. rewrite <- Hl in F. exact F.
Qed.

Lemma word_same m a w : is_u64 w -> word (write_bytes m a (word_bytes 8 w)) a = Some w.
Proof.
  intros H. rewrite (word_bytes_at _ _ (word_bytes 8 w)); [|apply length_word_bytes|apply write_bytes_at].
  f_equal. by apply bytes_word_bytes.
Qed.

Lemma write_other m a bs x : ~ (a <= x < a + Z.of_nat (length bs)) -> write_bytes m a bs x = m x.
Proof. intros H. unfold write_bytes. destruct (inside a (length bs) x) eqn:E; [|done]. by apply inside_spec in E. Qed.

Lemma word_other m a w b : b + 8 <= a \/ a + 8 <= b -> word (write_bytes m a (word_bytes 8 w)) b = word m b.
Proof. intros H. apply word_ext. intros x Hx. apply write_other. rewrite length_word_bytes. lia. Qed.

Lemma bytes_ok_write m a bs : bytes_ok m -> Forall is_u8 bs -> bytes_ok (write_bytes m a bs).
Proof.
  intros Hm Hf x b. unfold write_bytes. destruct (inside _ _ _); [|apply Hm]. intros Hb. by apply (Forall_lookup_1 _ _ _ _ Hf Hb).
Qed.

Lemma word_bytes_ok n w : Forall is_u8 (word_bytes n w).
Proof. revert w. induction n as [|n IH]; intros w; cbn; constructor; [|apply IH]. split; apply Z.mod_pos_bound; lia. Qed.

Lemma write_some m a bs x : is_Some (m x) -> is_Some (write_bytes m a bs x).
Proof. intros H. apply (written_some m _ a bs); [|done]. by intros y. Qed.

Definition with_ram (s : pstate) (m : mem) : pstate := PState (kernel_pool s) (user_pool s) m.

Lemma with_ram_id s : with_ram s (ram s) = s.
Proof. by destruct s. Qed.

Lemma load_word_run s a w : word (ram s) a = Some w -> load_word a s = Ok (w, s).
Proof. intros H. unfold load_word, on_ram. rewrite H. cbn. by destruct s. Qed.

Lemma store_word_run s a w :
  is_Some (word (ram s) a) -> store_word a w s = Ok (tt, with_ram s (write_bytes (ram s) a (word_bytes 8 w))).
Proof. intros [v H]. unfold store_word, on_ram. by rewrite H. Qed.

(** ** Entries *)

Lemma has_flag_bit e k : 0 <= k -> has_flag e (2 ^ k) = Z.testbit e k.
Proof. apply land_pow2_neq0. Qed.

Lemma present_bit e : has_flag e PTE_P = Z.testbit e 0.
Proof. apply (has_flag_bit e 0). lia. Qed.

Lemma PTE_ADDR_sub e : is_u64 e -> PTE_ADDR e = e - e mod 4096.
Proof.
  intros H. unfold PTE_ADDR. change (u64 (Z.lnot 0xFFF)) with (2 ^ 64 - 2 ^ 12). by rewrite land_lnot_ones.
Qed.

(** The entry for the page at [t] with the flags [f]. *)
Definition entry_of (t f : Z) : Z := t - KERN_BASE + f.

Lemma vtop_run {S} (t : Z) (s : S) : KERN_BASE <= t < 2 ^ 64 -> lift (vtop t) s = Ok (t - KERN_BASE, s).
Proof.
  intros H. unfold lift, vtop, rassert, is_kernel_vaddr. rewrite (proj2 (Z.leb_le _ _)) by lia. cbn.
  rewrite wrapu_id; [done|]. unfold KERN_BASE in *. split; lia.
Qed.

Lemma entry_addr t f : KERN_BASE <= t < 2 ^ 64 -> t mod 4096 = 0 -> 0 <= f < 4096 -> ptov (PTE_ADDR (entry_of t f)) = t.
Proof.
  intros Ht Ha Hf. unfold entry_of, KERN_BASE in *. assert ((t - 0x8004000000) mod 4096 = 0) as Hm.
  { rewrite Zminus_mod, Ha. done. }
  assert (t < 2 ^ 64 - 4095) as Hlt. { pose proof (Z.div_mod t 4096 ltac:(lia)). lia. }
  rewrite PTE_ADDR_sub by (split; lia). rewrite <- Zplus_mod_idemp_l, Hm, Z.add_0_l, (Z.mod_small f) by lia.
  unfold ptov, KERN_BASE. rewrite wrapu_id by (split; lia). lia.
Qed.

Lemma entry_lor t f : t mod 4096 = 0 -> 0 <= f < 4096 -> Z.lor (t - KERN_BASE) f = entry_of t f.
Proof.
  intros Ha Hf. unfold entry_of. apply (lor_disjoint_add _ _ 12); [lia|lia|].
  change (2 ^ 12) with 4096. rewrite Zminus_mod, Ha. done.
Qed.

Lemma entry_bit t f k : t mod 4096 = 0 -> 0 <= f < 4096 -> 0 <= k < 12 -> Z.testbit (entry_of t f) k = Z.testbit f k.
Proof.
  intros Ha Hf Hk. rewrite <- entry_lor by done. rewrite Z.lor_spec. replace (Z.testbit (t - KERN_BASE) k) with false; [done|].
  assert ((t - KERN_BASE) mod 2 ^ 12 = 0) as Hm by (change (2 ^ 12) with 4096; rewrite Zminus_mod, Ha; done).
  rewrite <- (Z.mod_pow2_bits_low _ 12 k) by lia. by rewrite Hm, Z.bits_0.
Qed.

(** ** The tree of tables *)

Notation kpage s j := (page_addr (kernel_pool s) j).
Definition kused (s : pstate) (j : Z) : bool := page_used (kernel_pool s) j.
Definition kcnt (s : pstate) : Z := bit_cnt (used_map (kernel_pool s)).

(** A page of the kernel pool that is in use. *)
Definition table_page (s : pstate) (t : Z) : Prop := exists j, 0 <= j < kcnt s /\ t = kpage s j /\ kused s j = true.

Record space (s : pstate) (pml4 : Z) (tabs : gmap (list Z) Z) : Prop := {
  sp_pools : pools_ok s;
  sp_bytes : bytes_ok (ram s);
  sp_base : KERN_BASE <= base (kernel_pool s);
  sp_root : tabs !! [] = Some pml4;
  sp_page p t : tabs !! p = Some t -> table_page s t;
  sp_inj p q t : tabs !! p = Some t -> tabs !! q = Some t -> p = q;
  sp_depth p t : tabs !! p = Some t -> (length p <= 3)%nat;
  sp_up p i t : tabs !! (p ++ [i]) = Some t -> is_Some (tabs !! p) /\ 0 <= i < 512;
  sp_link p t i w : tabs !! p = Some t -> (length p < 3)%nat -> 0 <= i < 512 -> word (ram s) (t + 8 * i) = Some w ->
    tabs !! (p ++ [i]) = if has_flag w PTE_P then Some (ptov (PTE_ADDR w)) else None
}.

(** The page table entry that the indices [p] and [i] lead to: 0, not present,
    where there is no page table. *)
Definition view (m : mem) (tabs : gmap (list Z) Z) (p : list Z) (i : Z) : option Z :=
  match tabs !! p with Some t => word m (t + 8 * i) | None => Some 0 end.

(** From [s] to [s'] the tree grew from [tabs] to [tabs']: no page table entry
    changed, exactly the new tables were taken from the kernel pool, and only
    tables and pages that were free have been written. *)
Record extends (s : pstate) (tabs : gmap (list Z) Z) (s' : pstate) (tabs' : gmap (list Z) Z) : Prop := {
  ex_sub : tabs ⊆ tabs';
  ex_view p i : length p = 3%nat -> 0 <= i < 512 -> view (ram s') tabs' p i = view (ram s) tabs p i;
  ex_place : same_place s s';
  ex_user : user_pool s' = user_pool s;
  ex_used j : 0 <= j < kcnt s -> kused s' j = true <-> kused s j = true \/ exists p, tabs' !! p = Some (kpage s j);
  ex_new p t : tabs' !! p = Some t -> tabs !! p = Some t \/ exists j, 0 <= j < kcnt s /\ kused s j = false /\ t = kpage s j;
  ex_frame a : ram s' a = ram s a \/ (exists p t, tabs !! p = Some t /\ t <= a < t + 4096) \/
    (exists j, 0 <= j < kcnt s /\ kused s j = false /\ kpage s j <= a < kpage s j + 4096)
}.

(** What [palloc_get_page (PAL_ZERO)] does to the kernel pool. *)
Record took (s : pstate) (j : Z) (s' : pstate) : Prop := {
  tk_pools : pools_ok s';
  tk_range : 0 <= j < kcnt s;
  tk_free : kused s j = false;
  tk_place : same_place s s';
  tk_user : user_pool s' = user_pool s;
  tk_used k : 0 <= k -> kused s' k = (k =? j) || kused s k;
  tk_ram : written (ram s) (ram s') (kpage s j) (replicate (Z.to_nat 4096) 0)
}.

Lemma pages_updated_place s s' w P v : pages_updated s s' w P v -> same_place s s'.
Proof.
  intros [U1 U2 [V1 V2 V3] U4] w'. destruct (decide (w' = w)) as [->|]; [done|by rewrite U4].
Qed.

Lemma get_page_run s :
  pools_ok s ->
  (exists j s', palloc_get_page PAL_ZERO s = Ok (kpage s j, s') /\ took s j s') \/
  (palloc_get_page PAL_ZERO s = Ok (NULL, s) /\ forall j, 0 <= j < kcnt s -> kused s j = true).
Proof.
  intros Hok. unfold palloc_get_page. pose proof (palloc_get_outcome s PAL_ZERO 1 Hok ltac:(lia)) as O.
  inversion O as [j s' p H1 H2 H3 H4 U W E|r p H1 H2 E].
  - left. exists j, s'. split; [done|]. pose proof (ok_pool _ Hok KERNEL) as [P1 P2 P3 P4 P5 P6].
    change (has_flag PAL_ZERO PAL_ZERO) with true in W. change (pool_of PAL_ZERO) with KERNEL in *. subst p. cbn [the_pool] in *. split; [|unfold kcnt; lia| | | | |].
    + eapply pages_updated_ok; [done|exact U|]. intros a. apply (written_some _ _ _ _ _ W).
    + apply (H3 j). lia.
    + by eapply pages_updated_place.
    + apply (pu_other _ _ _ _ _ U USER). done.
    + intros k Hk. unfold kused, page_used. rewrite (up_bit _ _ _ _ (pu_map _ _ _ _ _ U)) by done.
      unfold in_range. destruct (Z.eqb_spec k j), (Z.leb_spec j k), (Z.ltb_spec k (j + 1)); try lia; done.
    + done.
  - right. split; [done|]. intros j Hj. destruct (kused s j) eqn:Ej; [done|]. exfalso.
    apply (H1 j); [lia|unfold kcnt in Hj; subst p; change (pool_of PAL_ZERO) with KERNEL; cbn [the_pool]; lia|]. intros k Hk. replace k with j by lia. done.
Qed.

Definition kpool_ok s (H : pools_ok s) : pool_ok (ram s) (kernel_pool s) := ok_pool _ H KERNEL.

Lemma same_place_page s s' j : same_place s s' -> kpage s' j = kpage s j.
Proof. intros H. unfold page_addr. f_equal. apply (H KERNEL). Qed.
Lemma same_place_cnt s s' : same_place s s' -> kcnt s' = kcnt s.
Proof. intros H. apply (H KERNEL). Qed.

Lemma kpage_inj s i j : kpage s i = kpage s j -> i = j.
Proof. unfold page_addr, PGSIZE. lia. Qed.

Lemma kpage_facts s pml4 tabs j :
  space s pml4 tabs -> 0 <= j < kcnt s ->
  KERN_BASE <= kpage s j /\ kpage s j + 4096 < 2 ^ 64 /\ kpage s j mod 4096 = 0 /\ mapped (ram s) (kpage s j) (Z.to_nat 4096).
Proof.
  intros S Hj. pose proof (kpool_ok s (sp_pools _ _ _ S)) as [P1 P2 P3 P4 P5 P6]. pose proof (sp_base _ _ _ S).
  unfold page_addr, PGSIZE, kcnt in *. split_and!; [lia|lia| |].
  - by rewrite Z.mul_comm, Z.mod_add.
  - intros x Hx. apply P6. unfold pool_bytes, page_addr, PGSIZE. lia.
Qed.

Section space_facts.
Context {s : pstate} {pml4 : Z} {tabs : gmap (list Z) Z}.
Hypothesis S : space s pml4 tabs.

Lemma table_facts p t :
  tabs !! p = Some t -> KERN_BASE <= t /\ t + 4096 < 2 ^ 64 /\ t mod 4096 = 0 /\ mapped (ram s) t (Z.to_nat 4096).
Proof using Type*. intros (j & Hj & -> & _)%(sp_page _ _ _ S). by eapply kpage_facts. Qed.

Lemma table_word p t i : tabs !! p = Some t -> 0 <= i < 512 -> exists w, word (ram s) (t + 8 * i) = Some w /\ is_u64 w.
Proof using Type*.
  intros (_ & _ & _ & Hm)%table_facts Hi. destruct (word_some (ram s) (t + 8 * i)) as [w Hw].
  { intros x Hx. apply Hm. lia. }
  exists w. split; [done|]. by apply (word_range _ _ _ (sp_bytes _ _ _ S) Hw).
Qed.

Lemma table_slot p t i : tabs !! p = Some t -> 0 <= i < 512 -> u64 (t + 8 * i) = t + 8 * i.
Proof using Type*. intros (H1 & H2 & _)%table_facts Hi. unfold KERN_BASE in *. apply wrapu_id. split; lia. Qed.

Lemma table_not_null p t : tabs !! p = Some t -> t =? NULL = false.
Proof using Type*. intros (H1 & _)%table_facts. unfold KERN_BASE, NULL in *. lia. Qed.

(** Pages of the kernel pool are equal or disjoint. *)
Lemma tables_apart p q t u : tabs !! p = Some t -> tabs !! q = Some u -> p <> q -> t + 4096 <= u \/ u + 4096 <= t.
Proof using Type*.
  intros Hp Hq Hne. destruct (sp_page _ _ _ S _ _ Hp) as (i & _ & Ei & _). destruct (sp_page _ _ _ S _ _ Hq) as (j & _ & Ej & _).
  assert (t <> u) by (intros ->; by apply Hne, (sp_inj _ _ _ S p q u)). unfold page_addr, PGSIZE in *. nia.
Qed.

Lemma free_apart p t j : tabs !! p = Some t -> kused s j = false -> t + 4096 <= kpage s j \/ kpage s j + 4096 <= t.
Proof using Type*.
  intros (i & _ & -> & Hi)%(sp_page _ _ _ S) Hj. assert (i <> j) by congruence. unfold page_addr, PGSIZE. nia.
Qed.

Lemma slots_apart p q t u i j :
  tabs !! p = Some t -> tabs !! q = Some u -> 0 <= i < 512 -> 0 <= j < 512 -> (p, i) <> (q, j) ->
  t + 8 * i + 8 <= u + 8 * j \/ u + 8 * j + 8 <= t + 8 * i.
Proof using Type*.
  intros Hp Hq Hi Hj Hne. destruct (decide (p = q)) as [->|Hpq].
  - rewrite Hq in Hp. injection Hp as ->. assert (i <> j) by congruence. lia.
  - destruct (tables_apart _ _ _ _ Hp Hq Hpq); lia.
Qed.

Lemma no_children p i k : tabs !! (p ++ [i]) = None -> tabs !! (p ++ [i] ++ [k]) = None.
Proof using Type*.
  intros Hn. destruct (tabs !! (p ++ [i] ++ [k])) eqn:E; [|done]. rewrite app_assoc in E.
  apply (sp_up _ _ _ S) in E as [[? E] _]. congruence.
Qed.
End space_facts.

Lemma zero_word m m' a k :
  written m m' a (replicate (Z.to_nat 4096) 0) -> 0 <= k < 512 -> word m' (a + 8 * k) = Some 0.
Proof.
  intros W%written_in Hk. rewrite (word_bytes_at _ _ (replicate 8 0)); [done|done|].
  intros i b Hb. apply lookup_replicate in Hb as [-> Hi]. rewrite <- (W (Z.to_nat (8 * k) + i)%nat 0); [f_equal; lia|].
  apply lookup_replicate. split; [done|lia].
Qed.

Lemma page_bytes_ok m m' a v : bytes_ok m -> is_u8 v -> written m m' a (replicate (Z.to_nat 4096) v) -> bytes_ok m'.
Proof.
  intros Hm Hv W x b Hb. rewrite W in Hb. revert b Hb. apply bytes_ok_write; [done|].
  apply Forall_replicate, Hv.
Qed.

Lemma page_out m m' a v x : written m m' a (replicate (Z.to_nat 4096) v) -> ~ (a <= x < a + 4096) -> m' x = m x.
Proof. intros W Hx. apply (written_out _ _ _ _ _ W). rewrite length_replicate. lia. Qed.

Lemma took_words s pml4 tabs j s' p t k :
  space s pml4 tabs -> took s j s' -> tabs !! p = Some t -> 0 <= k < 512 -> word (ram s') (t + 8 * k) = word (ram s) (t + 8 * k).
Proof.
  intros S T Hp Hk. apply word_ext. intros x Hx. apply (page_out _ _ _ _ _ (tk_ram _ _ _ T)).
  destruct (free_apart S p t j Hp (tk_free _ _ _ T)); lia.
Qed.

Lemma pools_with_ram s m : pools_ok s -> (forall a, is_Some (ram s a) -> is_Some (m a)) -> pools_ok (with_ram s m).
Proof.
  intros [H1 H2] Hm. split; [|done]. intros w. specialize (H1 w). destruct H1 as [P1 P2 P3 P4 P5 P6].
  unfold with_ram. rewrite the_pool_ram. split; try done. intros a Ha. by apply Hm, P6.
Qed.

Lemma in_app_snoc (p q : list Z) i k : p ++ [i] = q ++ [k] <-> p = q /\ i = k.
Proof. split; [by intros [? [= ?]]%app_inj_tail|by intros [-> ->]]. Qed.

Section link.
Context {s : pstate} {pml4 : Z} {tabs : gmap (list Z) Z} {p : list Z} {t i j : Z} {s1 : pstate}.
Hypothesis S : space s pml4 tabs.
Hypothesis Hp : tabs !! p = Some t.
Hypothesis Hlen : (length p < 3)%nat.
Hypothesis Hi : 0 <= i < 512.
Hypothesis Hnone : tabs !! (p ++ [i]) = None.
Hypothesis T : took s j s1.
(** The state after the new page has been entered, and the tree. *)
Let e := entry_of (kpage s j) 7.
Let s2 := with_ram s1 (write_bytes (ram s1) (t + 8 * i) (word_bytes 8 e)).
Let tabs2 := <[p ++ [i] := kpage s j]> tabs.

Lemma link_entry : is_u64 e /\ has_flag e PTE_P = true /\ ptov (PTE_ADDR e) = kpage s j.
Proof using S Hp Hlen Hi T.
  destruct (kpage_facts s pml4 tabs j S (tk_range _ _ _ T)) as (H1 & H2 & H3 & _). unfold e. split_and!.
  - unfold entry_of, KERN_BASE in *. split; lia.
  - rewrite present_bit, entry_bit by lia. done.
  - apply entry_addr; lia.
Qed.

Lemma link_words q u k w :
  tabs !! q = Some u -> 0 <= k < 512 -> word (ram s2) (u + 8 * k) = Some w ->
  (q = p /\ k = i /\ w = e) \/ ((q, k) <> (p, i) /\ word (ram s) (u + 8 * k) = Some w).
Proof using S Hp Hlen Hi T.
  intros Hq Hk Hw. destruct link_entry as (He & _). unfold s2 in Hw. cbn [ram with_ram] in Hw.
  destruct (decide ((q, k) = (p, i))) as [[= -> ->]|Hne].
  - rewrite Hp in Hq. injection Hq as <-. rewrite word_same in Hw by done. left. split_and!; congruence.
  - right. split; [done|]. rewrite word_other in Hw by (pose proof (slots_apart S q p u t k i Hq Hp Hk Hi Hne); lia).
    by rewrite (took_words s pml4 tabs j s1 q) in Hw.
Qed.

Lemma link_fresh k : 0 <= k < 512 -> word (ram s2) (kpage s j + 8 * k) = Some 0.
Proof using S Hp Hlen Hi T.
  intros Hk. unfold s2. cbn [ram with_ram]. rewrite word_other; [by apply (zero_word _ _ _ _ (tk_ram _ _ _ T))|].
  destruct (free_apart S p t j Hp (tk_free _ _ _ T)); lia.
Qed.

Lemma link_other q : q <> p ++ [i] -> tabs2 !! q = tabs !! q.
Proof using Type. intros H. unfold tabs2. by rewrite lookup_insert_ne. Qed.

Lemma link_table q u : tabs2 !! q = Some u -> (q = p ++ [i] /\ u = kpage s j) \/ (q <> p ++ [i] /\ tabs !! q = Some u).
Proof using Type. unfold tabs2. intros [[<- <-]|[H1 H2]]%lookup_insert_Some; [by left|right; by split]. Qed.

Lemma link_used q u : tabs !! q = Some u -> u <> kpage s j.
Proof using S Hp Hlen Hi T.
  intros Hq ->. destruct (sp_page _ _ _ S _ _ Hq) as (k & _ & Ek & Hk). apply kpage_inj in Ek as <-.
  pose proof (tk_free _ _ _ T). congruence.
Qed.

Lemma link_space : space s2 pml4 tabs2.
Proof using S Hp Hlen Hi Hnone T.
  pose proof (tk_place _ _ _ T) as Pl. split.
  - apply pools_with_ram; [apply (tk_pools _ _ _ T)|]. intros a. apply write_some.
  - apply bytes_ok_write; [|apply word_bytes_ok]. eapply page_bytes_ok; [exact (sp_bytes _ _ _ S)| |exact (tk_ram _ _ _ T)]. split; lia.
  - change (base (kernel_pool s2)) with (base (the_pool KERNEL s1)). rewrite (proj1 (Pl KERNEL)). apply (sp_base _ _ _ S).
  - rewrite link_other; [apply (sp_root _ _ _ S)|]. intros H. by apply app_cons_not_nil in H.
  - intros q u Hq. assert (exists k, 0 <= k < kcnt s /\ u = kpage s k /\ kused s1 k = true) as (k & Hk & -> & Hu).
    { destruct (link_table _ _ Hq) as [[_ ->]|[_ Hq']].
      - exists j. split; [apply T|]. split; [done|]. rewrite (tk_used _ _ _ T) by (pose proof (tk_range _ _ _ T); lia). by rewrite Z.eqb_refl.
      - destruct (sp_page _ _ _ S _ _ Hq') as (k & Hk & -> & Hu). exists k. split; [done|]. split; [done|].
        rewrite (tk_used _ _ _ T), Hu by lia. apply orb_true_r. }
    exists k. rewrite <- (same_place_cnt s s1 Pl) in Hk. split; [exact Hk|]. split; [|exact Hu]. symmetry. apply (same_place_page s s1 k Pl).
  - intros q r u Hq Hr. destruct (link_table _ _ Hq) as [[-> ->]|[_ Hq']], (link_table _ _ Hr) as [[-> Hu]|[_ Hr']]; [done| | |].
    + by apply link_used in Hr'.
    + by apply link_used in Hq'.
    + by apply (sp_inj _ _ _ S q r u).
  - intros q u Hq. destruct (link_table _ _ Hq) as [[-> _]|[_ Hq']]; [rewrite length_app; cbn; lia|by apply (sp_depth _ _ _ S) in Hq'].
  - intros q k u Hq. destruct (link_table _ _ Hq) as [[Eq _]|[_ Hq']].
    + apply in_app_snoc in Eq as [-> ->]. split; [|done]. rewrite link_other; [by eexists|]. intros E. apply (f_equal length) in E. rewrite length_app in E. cbn in E. lia.
    + apply (sp_up _ _ _ S) in Hq' as [Hs Hk]. split; [|done]. destruct (decide (q = p ++ [i])) as [->|]; [|by rewrite link_other].
      unfold tabs2. rewrite lookup_insert_eq. by eexists.
  - intros q u k w Hq Hl Hk Hw. destruct (link_table _ _ Hq) as [[-> ->]|[Hne Hq']].
    + rewrite link_fresh in Hw by done. injection Hw as <-. cbn [has_flag]. change (has_flag 0 PTE_P) with false. cbv iota.
      rewrite link_other; [rewrite <- app_assoc; by apply (no_children S)|]. intros E. apply (f_equal length) in E. rewrite !length_app in E. cbn in E. lia.
    + destruct (link_words q u k w Hq' Hk Hw) as [(-> & -> & ->)|(Hne' & Hw')].
      * destruct link_entry as (_ & -> & ->). apply lookup_insert_eq.
      * rewrite link_other by (rewrite in_app_snoc; intros [-> ->]; done). by apply (sp_link _ _ _ S q u k w).
Qed.

Lemma link_extends : extends s tabs s2 tabs2.
Proof using S Hp Hlen Hi Hnone T.
  pose proof (tk_place _ _ _ T) as Pl. split.
  - by apply insert_subseteq.
  - intros q k Hq Hk. unfold view. destruct (tabs2 !! q) as [u|] eqn:Eq.
    + destruct (link_table _ _ Eq) as [[-> ->]|[_ Hq']]; [rewrite Hnone; by apply link_fresh|]. rewrite Hq'.
      unfold s2. cbn [ram with_ram]. rewrite word_other; [by apply (took_words s pml4 tabs j s1 q)|].
      pose proof (slots_apart S q p u t k i Hq' Hp Hk Hi) as Ha. enough ((q, k) <> (p, i)) as H by (apply Ha in H; lia). intros [= -> _]. lia.
    + unfold tabs2 in Eq. by apply lookup_insert_None in Eq as [-> _].
  - intros w. unfold s2, with_ram. rewrite the_pool_ram. apply Pl.
  - apply (tk_user _ _ _ T).
  - intros k Hk. change (kused s2 k) with (kused s1 k). rewrite (tk_used _ _ _ T) by lia. rewrite orb_true_iff, Z.eqb_eq. split.
    + intros [->|H]; [|by left]. right. exists (p ++ [i]). apply lookup_insert_eq.
    + intros [H|[q Hq]]; [by right|]. destruct (link_table _ _ Hq) as [[_ E]|[_ Hq']]; [left; by apply (kpage_inj s)|right].
      destruct (sp_page _ _ _ S _ _ Hq') as (k' & _ & E & Hu). by apply kpage_inj in E as <-.
  - intros q u Hq. destruct (link_table _ _ Hq) as [[_ ->]|[_ Hq']]; [right; exists j|by left]. split; [apply T|]. split; [apply T|done].
  - intros a. unfold s2. cbn [ram with_ram]. destruct (decide (t <= a < t + 4096)); [right; left; by exists p, t|].
    destruct (decide (kpage s j <= a < kpage s j + 4096)) as [Ha|Ha]; [right; right; exists j; split; [apply T|]; split; [apply T|done]|left].
    rewrite write_other by (rewrite length_word_bytes; lia). by apply (page_out _ _ _ _ _ (tk_ram _ _ _ T)).
Qed.
End link.

Lemma extends_refl s pml4 tabs : space s pml4 tabs -> extends s tabs s tabs.
Proof.
  intros S. split; try done; [|by left|by left].
  intros j Hj. split; [by left|]. intros [H|[p Hp]]; [done|]. destruct (sp_page _ _ _ S _ _ Hp) as (k & _ & E & Hk).
  by apply kpage_inj in E as <-.
Qed.

Lemma extends_trans s1 tabs1 s2 tabs2 s3 tabs3 :
  extends s1 tabs1 s2 tabs2 -> extends s2 tabs2 s3 tabs3 -> extends s1 tabs1 s3 tabs3.
Proof.
  intros A B. pose proof (ex_place _ _ _ _ A) as Pl.
  assert (forall j, 0 <= j < kcnt s1 -> kused s2 j = false -> kused s1 j = false) as Hfree.
  { intros j Hj H. destruct (kused s1 j) eqn:E; [|done]. rewrite <- H. symmetry. apply (ex_used _ _ _ _ A j Hj). by left. }
  pose proof (fun j => same_place_page s1 s2 j Pl) as Epg. pose proof (same_place_cnt s1 s2 Pl) as Ecnt. split.
  - etrans; [apply (ex_sub _ _ _ _ A)|apply (ex_sub _ _ _ _ B)].
  - intros p i Hp Hi. rewrite (ex_view _ _ _ _ B) by done. by apply (ex_view _ _ _ _ A).
  - eapply same_place_trans; [exact Pl|apply (ex_place _ _ _ _ B)].
  - rewrite (ex_user _ _ _ _ B). apply (ex_user _ _ _ _ A).
  - intros j Hj. rewrite (ex_used _ _ _ _ B) by by rewrite Ecnt. rewrite (ex_used _ _ _ _ A) by done. rewrite Epg. split.
    + intros [[H|[p Hp]]|H]; [by left| |by right]. right. exists p. by apply (lookup_weaken _ _ _ _ Hp (ex_sub _ _ _ _ B)).
    + intros [H|H]; [by left; left|by right].
  - intros p t Hp. destruct (ex_new _ _ _ _ B _ _ Hp) as [H|(j & Hj & Hu & ->)]; [by apply (ex_new _ _ _ _ A)|].
    right. exists j. rewrite Ecnt in Hj. split; [done|]. split; [by apply Hfree|apply Epg].
  - intros a. destruct (ex_frame _ _ _ _ B a) as [E|[(p & t & Hp & Ha)|(j & Hj & Hu & Ha)]].
    + rewrite E. apply (ex_frame _ _ _ _ A).
    + right. destruct (ex_new _ _ _ _ A _ _ Hp) as [H|(j & Hj & Hu & ->)]; [left; by exists p, t|right; by exists j].
    + right. right. rewrite Ecnt in Hj. rewrite Epg in Ha. exists j. split; [done|]. split; [by apply Hfree|done].
Qed.

Section unlink.
Context {s : pstate} {pml4 : Z} {tabs : gmap (list Z) Z} {p : list Z} {t i j : Z} {s3 : pstate}.
Hypothesis S : space s pml4 tabs.
Hypothesis Hp : tabs !! p = Some t.
Hypothesis Hlen : (length p < 2)%nat.
Hypothesis Hi : 0 <= i < 512.
Hypothesis Hnone : tabs !! (p ++ [i]) = None.
Hypothesis Hj : 0 <= j < kcnt s.
Hypothesis Hfree : kused s j = false.
Let tabs2 := <[p ++ [i] := kpage s j]> tabs.
Hypothesis S3 : space s3 pml4 tabs2.
Hypothesis X : extends s tabs s3 tabs2.

(** What giving back the page [j] does. *)
Record gave (s' : pstate) : Prop := {
  gv_pools : pools_ok s';
  gv_place : same_place s s';
  gv_user : user_pool s' = user_pool s;
  gv_used k : 0 <= k < kcnt s -> kused s' k = kused s k;
  gv_ram : written (ram s3) (ram s') (kpage s j) (replicate (Z.to_nat 4096) 0xcc)
}.

Lemma unlink_free : exists s4, palloc_free_page (kpage s j) s3 = Ok (tt, s4) /\ gave s4.
Proof using Type*.
  pose proof (ex_place _ _ _ _ X) as Pl. pose proof (same_place_cnt _ _ Pl) as Ec. unfold palloc_free_page. rewrite <- (same_place_page s s3 j Pl).
  assert (kused s3 j = true) as Hu. { apply (ex_used _ _ _ _ X j Hj). right. exists (p ++ [i]). apply lookup_insert_eq. }
  destruct (palloc_free_outcome s3 KERNEL j 1 (sp_pools _ _ _ S3) ltac:(lia) ltac:(lia)) as [(_ & s4 & E & U & W)|[Hn _]].
  - unfold kcnt in *. cbn [the_pool]. lia.
  - exists s4. split; [exact E|]. split.
    + eapply pages_updated_ok; [apply (sp_pools _ _ _ S3)|exact U|]. intros a. apply (written_some _ _ _ _ _ W).
    + eapply same_place_trans; [exact Pl|]. by eapply pages_updated_place.
    + rewrite <- (ex_user _ _ _ _ X). by apply (pu_other _ _ _ _ _ U USER).
    + intros k Hk. change (kused s4 k) with (bit (used_map (the_pool KERNEL s4)) k). rewrite (up_bit _ _ _ _ (pu_map _ _ _ _ _ U)) by lia.
      change (bit (used_map (the_pool KERNEL s3)) k) with (kused s3 k). unfold in_range.
      destruct (Z.leb_spec j k), (Z.ltb_spec k (j + 1)); cbn [andb]; try (replace k with j by lia; done).
      all: apply eq_true_iff_eq; rewrite (ex_used _ _ _ _ X) by done; split; [|by left]; intros [H'|[q Hq]]; [done|].
      all: apply lookup_insert_Some in Hq as [[_ E']|[_ Hq]]; [apply (kpage_inj s) in E'; lia|].
      all: destruct (sp_page _ _ _ S _ _ Hq) as (k' & _ & E' & Hk'); by apply kpage_inj in E' as <-.
    + cbn [the_pool] in W. by rewrite (same_place_page s s3 j Pl) in W.
  - exfalso. apply Hn. intros k Hk. replace k with j by lia. exact Hu.
Qed.

Lemma unlink_sub q u : tabs !! q = Some u -> tabs2 !! q = Some u.
Proof using Hnone. intros H. unfold tabs2. rewrite lookup_insert_ne; [done|]. intros <-. congruence. Qed.

Lemma unlink_words s4 q u k :
  gave s4 -> tabs !! q = Some u -> 0 <= k < 512 -> word (ram s4) (u + 8 * k) = word (ram s3) (u + 8 * k).
Proof using S Hfree Hlen.
  intros G Hq Hk. apply word_ext. intros x Hx. apply (page_out _ _ _ _ _ (gv_ram _ G)).
  destruct (free_apart S q u j Hq Hfree); lia.
Qed.

Lemma unlink_run s4 :
  gave s4 -> let s5 := with_ram s4 (write_bytes (ram s4) (t + 8 * i) (word_bytes 8 0)) in
  store_word (t + 8 * i) 0 s4 = Ok (tt, s5) /\ space s5 pml4 tabs /\ extends s tabs s5 tabs.
Proof using Type*.
  intros G s5. pose proof (gv_place _ G) as Pl.
  assert (forall q u k, tabs !! q = Some u -> 0 <= k < 512 -> (q, k) <> (p, i) -> word (ram s5) (u + 8 * k) = word (ram s3) (u + 8 * k)) as Hw.
  { intros q u k Hq Hk Hne. unfold s5. cbn [ram with_ram]. rewrite word_other by (pose proof (slots_apart S q p u t k i Hq Hp Hk Hi Hne); lia).
    by apply (unlink_words s4 q). }
  split_and!.
  - apply store_word_run. rewrite (unlink_words s4 p) by done. destruct (table_word S3 p t i (unlink_sub _ _ Hp) Hi) as (w & -> & _). by eexists.
  - split.
    + apply pools_with_ram; [apply (gv_pools _ G)|]. intros a. apply write_some.
    + apply bytes_ok_write; [|apply word_bytes_ok]. eapply page_bytes_ok; [exact (sp_bytes _ _ _ S3)| |exact (gv_ram _ G)]. split; lia.
    + change (base (kernel_pool s5)) with (base (the_pool KERNEL s4)). rewrite (proj1 (Pl KERNEL)). apply (sp_base _ _ _ S).
    + apply (sp_root _ _ _ S).
    + intros q u (k & Hk & -> & Hu)%(sp_page _ _ _ S). exists k. change (kcnt s5) with (kcnt s4). rewrite (same_place_cnt _ _ Pl).
      split; [done|]. change (kpage s5 k) with (kpage s4 k). rewrite (same_place_page _ _ k Pl). split; [done|].
      change (kused s5 k) with (kused s4 k). by rewrite (gv_used _ G).
    + apply (sp_inj _ _ _ S).
    + apply (sp_depth _ _ _ S).
    + apply (sp_up _ _ _ S).
    + intros q u k w Hq Hl Hk H. destruct (decide ((q, k) = (p, i))) as [[= -> ->]|Hne].
      * rewrite Hp in Hq. injection Hq as <-. unfold s5 in H. cbn [ram with_ram] in H. rewrite word_same in H by (split; lia). by injection H as <-.
      * rewrite (Hw q) in H by done. pose proof (sp_link _ _ _ S3 q u k w (unlink_sub _ _ Hq) Hl Hk H) as L.
        unfold tabs2 in L. rewrite lookup_insert_ne in L; [done|]. rewrite in_app_snoc. intros [-> ->]. done.
  - split; [done| |done|apply (gv_user _ G)| | |].
    + intros q k Hq Hk. rewrite <- (ex_view _ _ _ _ X q k Hq Hk). unfold view, tabs2.
      assert (q <> p ++ [i]) as Hne by (intros ->; rewrite length_app in Hq; cbn in Hq; lia).
      rewrite lookup_insert_ne by done. destruct (tabs !! q) as [u|] eqn:Eq; [|done]. apply (Hw q); [done|done|]. intros [= -> _]. lia.
    + intros k Hk. change (kused s5 k) with (kused s4 k). rewrite (gv_used _ G) by done. apply (ex_used _ _ _ _ (extends_refl s pml4 tabs S) k Hk).
    + by left.
    + intros a. unfold s5. cbn [ram with_ram]. destruct (decide (t <= a < t + 4096)); [right; left; by exists p, t|].
      destruct (decide (kpage s j <= a < kpage s j + 4096)) as [Ha|Ha]; [right; right; by exists j|].
      rewrite write_other by (rewrite length_word_bytes; lia). rewrite (page_out _ _ _ _ _ (gv_ram _ G)) by done. apply (ex_frame _ _ _ _ X).
Qed.
End unlink.

(** ** Walks *)

(** The number of tables that are missing below [p] along [rest]. *)
Fixpoint missing (tabs : gmap (list Z) Z) (p rest : list Z) : nat :=
  match rest with
  | [] => 0
  | i :: rest => (match tabs !! (p ++ [i]) with Some _ => 0 | None => 1 end) + missing tabs (p ++ [i]) rest
  end.
(** The kernel pool has [n] free pages. *)
Definition room (s : pstate) (n : nat) : Prop :=
  exists l, NoDup l /\ length l = n /\ Forall (fun j => 0 <= j < kcnt s /\ kused s j = false) l.
(** The address of the page table entry. *)
Definition leaf (tabs : gmap (list Z) Z) (p : list Z) (last : Z) : Z :=
  match tabs !! p with Some t => t + 8 * last | None => NULL end.

Lemma room_full s n : (forall j, 0 <= j < kcnt s -> kused s j = true) -> ~ room s (S n).
Proof.
  intros H (l & _ & L & F). destruct l as [|j l]; [done|]. apply Forall_cons in F as [[Hj E] _]. by rewrite H in E.
Qed.

Lemma room_took s j s' n : took s j s' -> room s (S n) -> room s' n.
Proof.
  intros T (l & Hn & L & F). destruct (decide (j ∈ l)) as [Hin|Hout].
  - apply list_elem_of_split in Hin as (l1 & l2 & ->). exists (l1 ++ l2). rewrite <- Permutation_middle in Hn.
    apply NoDup_cons in Hn as [Hnin Hn]. split; [done|]. rewrite !length_app in *. cbn in L. split; [lia|].
    apply Forall_forall. intros k Hk. assert (k ∈ l1 ++ j :: l2) as Hk' by (rewrite <- Permutation_middle; by right).
    destruct (proj1 (Forall_forall _ _) F k Hk') as [H1 H2]. rewrite (same_place_cnt _ _ (tk_place _ _ _ T)). split; [done|].
    rewrite (tk_used _ _ _ T), H2 by lia. destruct (Z.eqb_spec k j) as [->|]; [done|done].
  - destruct l as [|x l]; [done|]. exists l. apply NoDup_cons in Hn as [_ Hn]. split; [done|]. split; [cbn in L; lia|].
    apply Forall_cons in F as [_ F]. apply Forall_forall. intros k Hk. destruct (proj1 (Forall_forall _ _) F k Hk) as [H1 H2].
    rewrite (same_place_cnt _ _ (tk_place _ _ _ T)). split; [done|]. rewrite (tk_used _ _ _ T), H2 by lia.
    destruct (Z.eqb_spec k j) as [->|]; [|done]. exfalso. apply Hout. by right.
Qed.

Lemma absent_below s pml4 tabs p i rest : space s pml4 tabs -> tabs !! (p ++ [i]) = None -> tabs !! (p ++ i :: rest) = None.
Proof.
  intros S H. induction rest as [|k rest IH] using rev_ind; [done|].
  destruct (tabs !! (p ++ i :: rest ++ [k])) eqn:E; [|done]. change (p ++ i :: rest ++ [k]) with (p ++ (i :: rest) ++ [k]) in E. rewrite app_assoc in E.
  apply (sp_up _ _ _ S) in E as [[? E] _]. congruence.
Qed.

Lemma missing_insert tabs p i t q rest :
  (length (p ++ [i]) <= length q)%nat -> missing (<[p ++ [i] := t]> tabs) q rest = missing tabs q rest.
Proof.
  revert q. induction rest as [|k rest IH]; intros q Hq; [done|]. cbn [missing]. rewrite IH by (rewrite (length_app q); cbn; lia).
  rewrite lookup_insert_ne; [done|]. intros E. apply (f_equal length) in E. rewrite (length_app q) in E. cbn in E. lia.
Qed.

Inductive got_table (s : pstate) (pml4 : Z) (tabs : gmap (list Z) Z) (p : list Z) (t i : Z) : Prop :=
  | have_table u w :
      tabs !! (p ++ [i]) = Some u -> word (ram s) (t + 8 * i) = Some w -> is_u64 w -> ptov (PTE_ADDR w) = u ->
      (forall create, get_table t i create s = Ok (Some false, s)) -> got_table s pml4 tabs p t i
  | full :
      tabs !! (p ++ [i]) = None -> get_table t i false s = Ok (None, s) -> get_table t i true s = Ok (None, s) ->
      (forall j, 0 <= j < kcnt s -> kused s j = true) -> got_table s pml4 tabs p t i
  | made_table j s1 s2 :
      tabs !! (p ++ [i]) = None -> get_table t i false s = Ok (None, s) -> get_table t i true s = Ok (Some true, s2) ->
      took s j s1 -> s2 = with_ram s1 (write_bytes (ram s1) (t + 8 * i) (word_bytes 8 (entry_of (kpage s j) 7))) ->
      word (ram s2) (t + 8 * i) = Some (entry_of (kpage s j) 7) -> ptov (PTE_ADDR (entry_of (kpage s j) 7)) = kpage s j ->
      got_table s pml4 tabs p t i.

Lemma get_table_run s pml4 tabs p t i :
  space s pml4 tabs -> tabs !! p = Some t -> (length p < 3)%nat -> 0 <= i < 512 -> got_table s pml4 tabs p t i.
Proof.
  intros S Hp Hl Hi. destruct (table_word S p t i Hp Hi) as (w & Hw & Hr). pose proof (sp_link _ _ _ S p t i w Hp Hl Hi Hw) as L.
  assert (forall create, get_table t i create s = (if has_flag w PTE_P then ret (Some false)
    else if create then
      new_page ← palloc_get_page PAL_ZERO;
      if negb (new_page =? NULL) then
        pa ← lift (vtop new_page);
        store_word (t + 8 * i) (Z.lor (Z.lor (Z.lor pa PTE_U) PTE_W) PTE_P);; ret (Some true)
      else ret None
    else ret None) s) as E.
  { intros create. unfold get_table. rewrite (table_slot S p t i Hp Hi). by mstep (load_word_run s (t + 8 * i) w Hw). }
  destruct (has_flag w PTE_P); [by eapply have_table|].
  destruct (get_page_run s (sp_pools _ _ _ S)) as [(j & s1 & Eg & T)|[Eg Hfull]].
  - destruct (kpage_facts s pml4 tabs j S (tk_range _ _ _ T)) as (H1 & H2 & H3 & _).
    destruct (link_entry S Hp Hl Hi T) as (He & _ & Ea).
    eapply made_table; [done|by rewrite E| |exact T|done| |exact Ea].
    + rewrite E. mstep Eg. rewrite (proj2 (Z.eqb_neq (kpage s j) NULL)) by (unfold KERN_BASE, NULL in *; lia). cbn [negb].
      mstep (vtop_run (kpage s j) s1 ltac:(lia)).
      replace (Z.lor (Z.lor (Z.lor (kpage s j - KERN_BASE) PTE_U) PTE_W) PTE_P) with (entry_of (kpage s j) 7)
        by (rewrite <- !Z.lor_assoc; symmetry; by apply entry_lor).
      assert (is_Some (word (ram s1) (t + 8 * i))) as Hs by (rewrite (took_words s pml4 tabs j s1 p) by done; by rewrite Hw).
      by mstep (store_word_run s1 (t + 8 * i) (entry_of (kpage s j) 7) Hs).
    + cbn [ram with_ram]. by apply word_same.
  - apply full; [done|by rewrite E| |done]. rewrite E. by mstep Eg.
Qed.

Section walks.
Context {pml4 : Z}.

Definition walks (f : Z -> bool -> M pstate Z) (rest : list Z) (last : Z) : Prop :=
  forall s tabs p t, space s pml4 tabs -> tabs !! p = Some t -> (length p + length rest)%nat = 3%nat ->
    f t false s = Ok (leaf tabs (p ++ rest) last, s) /\
    exists r s' tabs', f t true s = Ok (r, s') /\ space s' pml4 tabs' /\ extends s tabs s' tabs' /\
      (r = NULL -> tabs' = tabs /\ ~ room s (missing tabs p rest)) /\
      (r <> NULL -> r = leaf tabs' (p ++ rest) last).

Lemma leaf_addr s tabs p t w last :
  space s pml4 tabs -> tabs !! p = Some t -> is_u64 w -> ptov (PTE_ADDR w) = t -> 0 <= last < 512 ->
  ptov (u64 (PTE_ADDR w + 8 * last)) = t + 8 * last.
Proof using Type.
  intros S Hp Hw Ht Hl. rewrite <- (table_slot S p t last Hp Hl), <- Ht. unfold ptov, wrapu.
  rewrite !Zplus_mod_idemp_l. f_equal. lia.
Qed.

Lemma leaf_not_null s tabs p t last : space s pml4 tabs -> tabs !! p = Some t -> 0 <= last -> t + 8 * last <> NULL.
Proof using Type. intros S Hp Hl. pose proof (table_facts S p t Hp) as (H & _). unfold KERN_BASE, NULL in *. lia. Qed.

Lemma pgdir_walks va : 0 <= PDX va < 512 -> 0 <= PTX va < 512 -> walks (fun t c => pgdir_walk t va c) [PDX va] (PTX va).
Proof using Type.
  intros Hd Ht s tabs p t S Hp Hl. cbn [length] in Hl. unfold pgdir_walk. rewrite (table_not_null S p t Hp), (table_slot S p t _ Hp Hd). cbn [negb]. unfold leaf.
  destruct (get_table_run s pml4 tabs p t (PDX va) S Hp ltac:(lia) Hd) as [u w Hu Hw Hr Ea Eg|Hn Ef Eg Hfull|j s1 s2 Hn Ef Eg T E2 Hw Ea].
  - assert (forall c, pgdir_walk t va c s = Ok (u + 8 * PTX va, s)) as E.
    { intros c. unfold pgdir_walk. rewrite (table_not_null S p t Hp), (table_slot S p t _ Hp Hd). cbn [negb]. mstep (Eg c).
      mstep (load_word_run s _ w Hw). by rewrite (leaf_addr s tabs (p ++ [PDX va]) u). }
    unfold pgdir_walk in E. rewrite (table_not_null S p t Hp), (table_slot S p t _ Hp Hd) in E. cbn [negb] in E. rewrite !E, Hu. split; [done|].
    exists (u + 8 * PTX va), s, tabs. split_and!; [done|done|by eapply extends_refl| |by rewrite Hu].
    intros H. by apply (leaf_not_null s tabs (p ++ [PDX va]) u) in H; [|done|done|lia].
  - mstep Ef. mstep Eg. rewrite Hn. split; [done|]. exists NULL, s, tabs. split_and!; [done|done|by eapply extends_refl| |done].
    intros _. split; [done|]. cbn [missing]. rewrite Hn. by apply room_full.
  - mstep Ef. mstep Eg. rewrite Hn. split; [done|]. mstep (load_word_run s2 _ _ Hw). subst s2.
    pose proof (link_space S Hp ltac:(lia) Hd Hn T) as S2. pose proof (link_extends S Hp ltac:(lia) Hd Hn T) as X2.
    destruct (link_entry S Hp ltac:(lia) Hd T) as (He & _).
    assert (<[p ++ [PDX va] := kpage s j]> tabs !! (p ++ [PDX va]) = Some (kpage s j)) as Hu by apply lookup_insert_eq.
    rewrite (leaf_addr _ _ _ _ _ _ S2 Hu He Ea Ht). eexists _, _, _. split_and!; [done|exact S2|exact X2| |by rewrite Hu].
    intros H. by apply (leaf_not_null _ _ _ _ _ S2 Hu) in H; [|lia].
Qed.

Lemma walk_table_walks idx next rest last :
  0 <= idx < 512 -> rest <> [] -> walks next rest last ->
  walks (fun t c => walk_table idx (fun u => next u c) t c) (idx :: rest) last.
Proof using Type.
  intros Hd Hne N s tabs p t S Hp Hl. cbn [length] in Hl. destruct rest as [|r0 rest']; [done|]. set (rest := r0 :: rest') in *.
  assert (forall (q : list Z), q ++ idx :: rest = (q ++ [idx]) ++ rest) as Ea' by (intros q; by rewrite <- app_assoc).
  unfold walk_table. rewrite (table_not_null S p t Hp), (table_slot S p t _ Hp Hd). cbn [negb].
  destruct (get_table_run s pml4 tabs p t idx S Hp ltac:(lia) Hd) as [u w Hu Hw Hr Ea Eg|Hn Ef Eg Hfull|j s1 s2 Hn Ef Eg T E2 Hw Ea].
  - destruct (N s tabs (p ++ [idx]) u S Hu) as (N1 & r & s' & tabs' & N2 & S' & X & Nn & Ny); [rewrite length_app; cbn [length] in *; lia|].
    rewrite Ea'. split.
    + mstep (Eg false). mstep (load_word_run s _ w Hw). rewrite Ea. mstep N1. rewrite andb_false_r. done.
    + exists r, s', tabs'. split; [|split_and!; [done|done| |done]].
      * mstep (Eg true). mstep (load_word_run s _ w Hw). rewrite Ea. mstep N2. rewrite andb_false_r. done.
      * cbn [missing]. by rewrite Hu.
  - mstep Ef. mstep Eg. unfold leaf. rewrite (absent_below s pml4 tabs p idx rest S Hn). split; [done|].
    exists NULL, s, tabs. split_and!; [done|done|by eapply extends_refl| |done].
    intros _. split; [done|]. cbn [missing]. rewrite Hn. by apply room_full.
  - mstep Ef. mstep Eg. unfold leaf at 1. rewrite (absent_below s pml4 tabs p idx rest S Hn). split; [done|].
    mstep (load_word_run s2 _ _ Hw). rewrite Ea. subst s2. pose proof (link_space S Hp ltac:(lia) Hd Hn T) as S2. pose proof (link_extends S Hp ltac:(lia) Hd Hn T) as X2.
    set (s2 := with_ram s1 _) in *. set (tabs2 := <[p ++ [idx] := kpage s j]> tabs) in *.
    assert (tabs2 !! (p ++ [idx]) = Some (kpage s j)) as Hu by apply lookup_insert_eq.
    destruct (N s2 tabs2 (p ++ [idx]) (kpage s j) S2 Hu) as (_ & r & s' & tabs' & N2 & S' & X & Nn & Ny); [rewrite length_app; cbn [length] in *; lia|].
    mstep N2. pose proof (extends_trans _ _ _ _ _ _ X2 X) as X'. rewrite andb_true_r. destruct (Z.eqb_spec r NULL) as [->|Hr].
    + destruct (Nn eq_refl) as [-> Hroom].
      assert (tabs2 !! p = Some t) as Hp2 by (by apply (lookup_weaken _ _ _ _ Hp (ex_sub _ _ _ _ X2))).
      destruct (table_word S' p t idx Hp2 Hd) as (w' & Hw' & _).
      pose proof (sp_link _ _ _ S' p t idx w' Hp2 ltac:(cbn [length] in Hl; lia) Hd Hw') as L. rewrite Hu in L.
      destruct (has_flag w' PTE_P); [|done]. injection L as L. cbv iota. mnorm. mstep (load_word_run s' _ _ Hw'). rewrite <- L.
      assert (length p < 2)%nat as Hl2 by (unfold rest in Hl; cbn [length] in Hl; lia).
      destruct (unlink_free S Hp Hl2 Hd Hn (tk_range _ _ _ T) (tk_free _ _ _ T) S' X') as (s4 & E4 & G). mstep E4.
      destruct (unlink_run S Hp Hl2 Hd Hn (tk_range _ _ _ T) (tk_free _ _ _ T) S' X' s4 G) as (E5 & S5 & X5). mstep E5.
      eexists NULL, _, tabs. split_and!; [done|exact S5|exact X5| |done]. intros _. split; [done|].
      cbn [missing]. rewrite Hn. intros Hroom'. apply Hroom. unfold tabs2. rewrite missing_insert by done. by apply (room_took s j s1) in Hroom'.
    + mnorm. exists r, s', tabs'. split_and!; [done|done|done|done|]. intros _. rewrite Ea'. by apply Ny.
Qed.
End walks.

(** ** Addresses and entries *)

Definition vpath (va : Z) : list Z := [PML4 va; PDPE va; PDX va].

Lemma index_div k va : 0 <= k -> Z.land (Z.shiftr va k) 0x1FF = (va / 2 ^ k) mod 512.
Proof. intros Hk. rewrite Z.shiftr_div_pow2 by done. by rewrite (land_ones_mod _ 9) by lia. Qed.

Lemma index_range va : (0 <= PML4 va < 512 /\ 0 <= PDPE va < 512) /\ 0 <= PDX va < 512 /\ 0 <= PTX va < 512.
Proof.
  unfold PML4, PDPE, PDX, PTX, PML4SHIFT, PDPESHIFT, PDXSHIFT, PTXSHIFT. rewrite !index_div by lia.
  split_and!; apply Z.mod_pos_bound; lia.
Qed.

Lemma digits_512 x y :
  0 <= x < 2 ^ 36 -> 0 <= y < 2 ^ 36 -> x mod 512 = y mod 512 -> (x / 2 ^ 9) mod 512 = (y / 2 ^ 9) mod 512 ->
  (x / 2 ^ 18) mod 512 = (y / 2 ^ 18) mod 512 -> (x / 2 ^ 27) mod 512 = (y / 2 ^ 27) mod 512 -> x = y.
Proof.
  intros Hx Hy E1 E2 E3 E4. rewrite (Z.mod_small (x / _)), (Z.mod_small (y / _)) in E4
    by (split; [apply Z.div_pos; lia|apply Z.div_lt_upper_bound; lia]).
  assert (forall z, z / 2 ^ 18 = z / 2 ^ 9 / 512) as H18 by (intros z; by rewrite Zdiv_Zdiv by lia).
  assert (forall z, z / 2 ^ 27 = z / 2 ^ 9 / 512 / 512) as H27 by (intros z; by rewrite !Zdiv_Zdiv by lia).
  rewrite !H18 in E3. rewrite !H27 in E4. change (2 ^ 9) with 512 in *.
  pose proof (Z.div_mod x 512 ltac:(lia)). pose proof (Z.div_mod y 512 ltac:(lia)).
  pose proof (Z.div_mod (x / 512) 512 ltac:(lia)). pose proof (Z.div_mod (y / 512) 512 ltac:(lia)).
  pose proof (Z.div_mod (x / 512 / 512) 512 ltac:(lia)). pose proof (Z.div_mod (y / 512 / 512) 512 ltac:(lia)). lia.
Qed.

(** The four indices determine the page of an address below 2^48. *)
Lemma same_page va vb :
  0 <= va < 2 ^ 48 -> 0 <= vb < 2 ^ 48 -> (vpath va, PTX va) = (vpath vb, PTX vb) <-> pg_no va = pg_no vb.
Proof.
  intros Ha Hb. rewrite !pg_no_div. unfold vpath, PML4, PDPE, PDX, PTX, PML4SHIFT, PDPESHIFT, PDXSHIFT, PTXSHIFT, PGSIZE.
  rewrite !index_div by lia. change (2 ^ 39) with (2 ^ 12 * 2 ^ 27). change (2 ^ 30) with (2 ^ 12 * 2 ^ 18). change (2 ^ 21) with (2 ^ 12 * 2 ^ 9).
  rewrite <- !(Zdiv_Zdiv _ (2 ^ 12)) by lia. change (2 ^ 12) with 4096. split; [|by intros ->]. intros [= E1 E2 E3 E4].
  apply digits_512; [| |done..]; (split; [apply Z.div_pos; lia|apply Z.div_lt_upper_bound; lia]).
Qed.

Lemma pml4e_walks pml4 va : walks (pml4 := pml4) (fun t c => pml4e_walk t va c) (vpath va) (PTX va).
Proof.
  destruct (index_range va) as ([H1 H2] & H3 & H4).
  apply walk_table_walks; [done|done|]. apply walk_table_walks; [done|done|]. by apply pgdir_walks.
Qed.

(** The page table entry of [va]. *)
Definition pte (s : pstate) (tabs : gmap (list Z) Z) (va : Z) : Z := default 0 (view (ram s) tabs (vpath va) (PTX va)).

Lemma pte_leaf s pml4 tabs va :
  space s pml4 tabs ->
  (leaf tabs (vpath va) (PTX va) = NULL /\ pte s tabs va = 0) \/
  (leaf tabs (vpath va) (PTX va) <> NULL /\ word (ram s) (leaf tabs (vpath va) (PTX va)) = Some (pte s tabs va) /\ is_u64 (pte s tabs va)).
Proof.
  intros S. destruct (index_range va) as (_ & _ & H4). unfold leaf, pte, view. destruct (tabs !! vpath va) as [t|] eqn:E; [right|by left].
  destruct (table_word S _ _ _ E H4) as (w & -> & Hw). split; [|done]. pose proof (table_facts S _ _ E) as (H & _). unfold KERN_BASE, NULL in *. lia.
Qed.

(** [s'] is [s] after the entry of [va] has become [w]. *)
Record pte_updated (s : pstate) (tabs : gmap (list Z) Z) (s' : pstate) (va w : Z) : Prop := {
  pt_pools : kernel_pool s' = kernel_pool s /\ user_pool s' = user_pool s;
  pt_ptes vb : 0 <= vb < 2 ^ 48 -> pte s' tabs vb = if pg_no vb =? pg_no va then w else pte s tabs vb;
  pt_ram a : ram s' a = ram s a \/ exists t, tabs !! vpath va = Some t /\ t <= a < t + 4096
}.

Lemma store_pte s pml4 tabs va w :
  space s pml4 tabs -> 0 <= va < 2 ^ 48 -> leaf tabs (vpath va) (PTX va) <> NULL -> is_u64 w ->
  exists s', store_word (leaf tabs (vpath va) (PTX va)) w s = Ok (tt, s') /\ space s' pml4 tabs /\ pte_updated s tabs s' va w.
Proof.
  intros S Hva Hl Hw. destruct (index_range va) as (_ & _ & H4). unfold leaf in *. destruct (tabs !! vpath va) as [t|] eqn:E; [clear Hl|done].
  destruct (table_word S _ _ _ E H4) as (w0 & Hw0 & _). set (a := t + 8 * PTX va) in *.
  exists (with_ram s (write_bytes (ram s) a (word_bytes 8 w))).
  assert (forall q u k, tabs !! q = Some u -> 0 <= k < 512 -> (q, k) <> (vpath va, PTX va) ->
    word (write_bytes (ram s) a (word_bytes 8 w)) (u + 8 * k) = word (ram s) (u + 8 * k)) as Hother.
  { intros q u k Hq Hk Hne. apply word_other. pose proof (slots_apart S _ _ _ _ _ _ Hq E Hk H4 Hne). lia. }
  split; [apply store_word_run; by rewrite Hw0|]. split.
  - pose proof S as [S1 S2 S3 S4 S5 S6 S7 S8 S9]. split; try done.
    + apply pools_with_ram; [done|]. intros x. apply write_some.
    + apply bytes_ok_write; [done|apply word_bytes_ok].
    + intros q u k v Hq Hl Hk. cbn [ram with_ram]. rewrite (Hother q); [by apply S9|done|done|]. intros [= -> _]. by cbn in Hl; lia.
  - split; [done| |].
    + intros vb Hvb. pose proof (same_page vb va Hvb Hva) as Hs. unfold pte, view. cbn [ram with_ram].
      destruct (Z.eqb_spec (pg_no vb) (pg_no va)) as [En|Hn].
      * apply Hs, pair_equal_spec in En as [-> ->]. rewrite E. fold a. by rewrite word_same.
      * destruct (tabs !! vpath vb) as [u|] eqn:Eu; [|done]. rewrite (Hother (vpath vb)); [done|done|apply index_range|]. by intros Ev%Hs.
    + intros x. cbn [ram with_ram]. destruct (decide (t <= x < t + 4096)); [right; by exists t|left].
      apply write_other. rewrite length_word_bytes. unfold a. lia.
Qed.

(** ** Operations *)

Definition with_pal (c : cpu) (s : pstate) : cpu := Cpu s (base_pml4 c) (cr3 c) (tlb c).
(** What [va] is translated to by the entry [w]. *)
Definition translate (w va : Z) : Z := if has_flag w PTE_P then u64 (ptov (PTE_ADDR w) + pg_ofs va) else NULL.

(** The entry of [va] becomes [w], and the processor forgets the translation
    when the page map is the active one. *)
Record entry_set (c : cpu) (pml4 : Z) (tabs : gmap (list Z) Z) (va w : Z) (c' : cpu) : Prop := {
  es_space : space (pal c') pml4 tabs;
  es_pte : pte_updated (pal c) tabs (pal c') va w;
  es_regs : base_pml4 c' = base_pml4 c /\ cr3 c' = cr3 c;
  es_tlb : tlb c' = if cr3 c =? pml4 - KERN_BASE then tlb c ∖ {[pg_no va]} else tlb c
}.

Lemma pal_run {A} (f : M pstate A) c a s : f (pal c) = Ok (a, s) -> on_pal f c = Ok (a, with_pal c s).
Proof. unfold on_pal. by intros ->. Qed.

Lemma pal_pure {A} (f : M pstate A) c a : f (pal c) = Ok (a, pal c) -> on_pal f c = Ok (a, c).
Proof. intros H. rewrite (pal_run _ _ _ _ H). by destruct c. Qed.

Lemma land_u64 a b : is_u64 a -> 0 <= b -> is_u64 (Z.land a b).
Proof.
  intros [H1 H2] Hb. pose proof (proj2 (Z.land_nonneg a b) (or_introl H1)) as Hn. split; [done|].
  destruct (Z.eq_dec (Z.land a b) 0) as [->|Hne]; [lia|]. apply Z.log2_lt_pow2; [lia|].
  pose proof (Z.log2_land a b H1 Hb). assert (a <> 0) by (intros ->; by rewrite Z.land_0_l in Hne).
  assert (Z.log2 a < 64) by (apply Z.log2_lt_pow2; lia). lia.
Qed.

Section operations.
Context {c : cpu} {pml4 : Z} {tabs : gmap (list Z) Z} {va : Z}.
Hypothesis S : space (pal c) pml4 tabs.
Hypothesis Hva : 0 <= va < KERN_BASE.
Let l := leaf tabs (vpath va) (PTX va).
Let w := pte (pal c) tabs va.

Lemma walk_run : on_pal (pml4e_walk pml4 va false) c = Ok (l, c).
Proof using S.
  apply pal_pure. destruct (pml4e_walks pml4 va (pal c) tabs [] pml4 S (sp_root _ _ _ S) eq_refl) as [-> _]. done.
Qed.

Lemma load_pte : l <> NULL -> on_pal (load_word l) c = Ok (w, c).
Proof using S.
  intros Hl. destruct (pte_leaf (pal c) pml4 tabs va S) as [[H _]|(_ & Hw & _)]; [done|]. by apply pal_pure, load_word_run.
Qed.

Lemma user_vaddr : is_user_vaddr va = true /\ 0 <= va < 2 ^ 48.
Proof using Hva. clear w l. unfold is_user_vaddr, is_kernel_vaddr, KERN_BASE in *. split; lia. Qed.

Lemma pte_null : l = NULL -> w = 0.
Proof using S. intros H. by destruct (pte_leaf (pal c) pml4 tabs va S) as [[_ E]|[E _]]. Qed.

Lemma get_page_translate : pml4_get_page pml4 va c = Ok (translate w va, c).
Proof using S Hva.
  unfold pml4_get_page. rewrite (proj1 user_vaddr). mnorm. mstep walk_run. destruct (Z.eqb_spec l NULL) as [E|E]; cbn [negb].
  - by rewrite (pte_null E).
  - mstep (load_pte E). unfold translate. by destruct (has_flag w PTE_P).
Qed.

Lemma pte_test_run k : pte_test k pml4 va c = Ok (has_flag w k, c).
Proof using S Hva.
  unfold pte_test. mstep walk_run. destruct (Z.eqb_spec l NULL) as [E|E]; cbn [negb]; [by rewrite (pte_null E)|by mstep (load_pte E)].
Qed.

Lemma set_entry_run v :
  l <> NULL -> is_u64 v -> exists c', (on_pal (store_word l v);; flush pml4 va) c = Ok (tt, c') /\ entry_set c pml4 tabs va v c'.
Proof using S Hva.
  intros Hl Hv. destruct (store_pte (pal c) pml4 tabs va v S (proj2 user_vaddr) Hl Hv) as (s' & E & S' & U).
  mstep (pal_run _ _ _ _ E). unfold flush, rcr3. mnorm.
  pose proof (table_facts S _ _ (sp_root _ _ _ S)) as (H1 & H2 & _).
  mstep (vtop_run pml4 (with_pal c s') ltac:(lia)). cbn [cr3 with_pal]. destruct (Z.eqb_spec (cr3 c) (pml4 - KERN_BASE)) as [Ec|Ec].
  - eexists. split; [reflexivity|]. split; cbn; [done|done|done|]. by rewrite Ec, Z.eqb_refl.
  - eexists. split; [reflexivity|]. split; cbn; [done|done|done|]. by rewrite (proj2 (Z.eqb_neq _ _) Ec).
Qed.

Lemma pte_u64 : is_u64 w.
Proof using S. destruct (pte_leaf (pal c) pml4 tabs va S) as [[_ E]|(_ & _ & H)]; [|done]. unfold w. rewrite E. by split. Qed.

Lemma clear_page_run :
  pg_ofs va = 0 -> exists c', pml4_clear_page pml4 va c = Ok (tt, c') /\
    if has_flag w PTE_P then entry_set c pml4 tabs va (Z.land w (2 ^ 64 - 2)) c' else c' = c.
Proof using S Hva.
  intros Ho. unfold pml4_clear_page. rewrite Ho, (proj1 user_vaddr). change (0 =? 0) with true. mnorm. mstep walk_run.
  destruct (Z.eqb_spec l NULL) as [E|E]; cbn [negb]; [rewrite (pte_null E); by exists c|].
  mstep (load_pte E). destruct (has_flag w PTE_P); [|by exists c].
  apply set_entry_run; [done|]. apply land_u64; [apply pte_u64|lia].
Qed.

Lemma pte_mark_run k on :
  0 <= k < 32 -> exists c', pte_mark (2 ^ k) pml4 va on c = Ok (tt, c') /\
    if l =? NULL then c' = c
    else entry_set c pml4 tabs va (if on then Z.lor w (2 ^ k) else Z.land w (2 ^ 32 - 1 - 2 ^ k)) c'.
Proof using S Hva.
  intros Hk. unfold pte_mark. mstep walk_run. destruct (Z.eqb_spec l NULL) as [E|E]; cbn [negb]; [by exists c|]. mstep (load_pte E).
  assert (0 < 2 ^ k < 2 ^ 32) as Hp by (split; [apply Z.pow_pos_nonneg; lia|apply Z.pow_lt_mono_r; lia]).
  replace (u32 (Z.lnot (2 ^ k))) with (2 ^ 32 - 1 - 2 ^ k).
  2:{ unfold wrapu, Z.lnot. rewrite <- (Z.mod_add _ 1), Z.mod_small by lia. lia. }
  apply set_entry_run; [done|]. pose proof pte_u64 as Hw. destruct on; [|apply land_u64; [done|lia]].
  destruct Hw as [W1 W2]. split; [apply Z.lor_nonneg; lia|]. destruct (Z.eq_dec (Z.lor w (2 ^ k)) 0) as [->|Hne]; [lia|].
  apply Z.log2_lt_pow2; [pose proof (proj2 (Z.lor_nonneg w (2 ^ k)) ltac:(lia)); lia|]. rewrite Z.log2_lor by lia.
  rewrite Z.log2_pow2 by lia. destruct (Z.eq_dec w 0) as [->|]; [cbn; lia|]. assert (Z.log2 w < 64) by (apply Z.log2_lt_pow2; lia). lia.
Qed.
End operations.

(** What [pml4_set_page] does: [b] tells whether the page is now mapped, [e] is
    its entry. *)
Record page_set (c : cpu) (pml4 : Z) (tabs : gmap (list Z) Z) (va e : Z) (b : bool) (c' : cpu) (tabs' : gmap (list Z) Z) : Prop := {
  ps_space : space (pal c') pml4 tabs';
  ps_regs : base_pml4 c' = base_pml4 c /\ cr3 c' = cr3 c /\ tlb c' = tlb c;
  ps_user : user_pool (pal c') = user_pool (pal c);
  ps_used j : 0 <= j < kcnt (pal c) ->
    kused (pal c') j = true <-> kused (pal c) j = true \/ exists p, tabs' !! p = Some (kpage (pal c) j);
  ps_frame a : ram (pal c') a = ram (pal c) a \/ (exists p t, tabs !! p = Some t /\ t <= a < t + 4096) \/
    (exists j, 0 <= j < kcnt (pal c) /\ kused (pal c) j = false /\ kpage (pal c) j <= a < kpage (pal c) j + 4096);
  ps_pte vb : 0 <= vb < 2 ^ 48 ->
    pte (pal c') tabs' vb = if b && (pg_no vb =? pg_no va) then e else pte (pal c) tabs vb;
  ps_fail : b = false -> tabs' = tabs /\ ~ room (pal c) (missing tabs [] (vpath va));
  ps_place : same_place (pal c) (pal c')
}.

Lemma extends_pte s tabs s' tabs' vb : extends s tabs s' tabs' -> pte s' tabs' vb = pte s tabs vb.
Proof. intros X. unfold pte. by rewrite (ex_view _ _ _ _ X) by (done || apply index_range). Qed.

Lemma set_page_run c pml4 tabs va kp rw :
  space (pal c) pml4 tabs -> pml4 <> base_pml4 c -> 0 <= va < KERN_BASE -> pg_ofs va = 0 ->
  KERN_BASE <= kp < 2 ^ 64 -> pg_ofs kp = 0 ->
  exists b c' tabs', pml4_set_page pml4 va kp rw c = Ok (b, c') /\
    page_set c pml4 tabs va (entry_of kp (if rw then 7 else 5)) b c' tabs'.
Proof.
  intros S Hb Hva Ho Hk Hko. destruct (user_vaddr Hva) as [Eu H48]. unfold pml4_set_page. rewrite Ho, Hko, Eu.
  change (0 =? 0) with true. mnorm. rewrite (proj2 (Z.eqb_neq _ _) Hb). cbn [negb]. mnorm.
  destruct (pml4e_walks pml4 va (pal c) tabs [] pml4 S (sp_root _ _ _ S) eq_refl) as (_ & r & s1 & tabs' & E & S1 & X & Hn & Hy).
  mstep (pal_run _ _ _ _ E). destruct (Z.eqb_spec r NULL) as [->|Hr]; cbn [negb]; mnorm.
  - exists false, (with_pal c s1), tabs'. split; [done|]. destruct (Hn eq_refl) as [-> Hroom].
    split; [done|done|apply X|apply X|apply X| |by intros _|apply X]. intros vb _. cbn [andb]. by apply extends_pte.
  - mstep (vtop_run kp (with_pal c s1) Hk). rewrite pg_ofs_mod in Hko. unfold PGSIZE in Hko.
    replace (Z.lor (Z.lor (Z.lor (kp - KERN_BASE) PTE_P) (if rw then PTE_W else 0)) PTE_U) with (entry_of kp (if rw then 7 else 5))
      by (rewrite <- !Z.lor_assoc; symmetry; destruct rw; by apply entry_lor).
    specialize (Hy Hr). cbn [app] in Hy. assert (is_u64 (entry_of kp (if rw then 7 else 5))) as He.
    { unfold entry_of, KERN_BASE in *. split; destruct rw; lia. }
    destruct (store_pte s1 pml4 tabs' va _ S1 H48 ltac:(by rewrite <- Hy) He) as (s2 & E2 & S2 & [[U1 U1'] U2 U3]). rewrite <- Hy in E2.
    assert (on_pal (store_word r (entry_of kp (if rw then 7 else 5))) (with_pal c s1) = Ok (tt, with_pal c s2)) as E2' by exact (pal_run _ (with_pal c s1) _ _ E2).
    mstep E2'. exists true, (with_pal c s2), tabs'. split; [done|]. split; cbn [pal with_pal]; [done|done| | | | |done|].
    + rewrite U1'. apply X.
    + intros j Hj. unfold kused at 1. rewrite U1. by apply (ex_used _ _ _ _ X).
    + intros a. destruct (U3 a) as [->|(t & Ht & Ha)]; [apply (ex_frame _ _ _ _ X)|]. right.
      destruct (ex_new _ _ _ _ X _ _ Ht) as [H|(j & Hj & Hu & ->)]; [left; by exists (vpath va), t|right; by exists j].
    + intros vb Hvb. rewrite U2 by done. cbn [andb]. by rewrite (extends_pte _ _ _ _ vb X).
    + intros [|]; cbn; rewrite ?U1, ?U1'; [apply (ex_place _ _ _ _ X KERNEL)|apply (ex_place _ _ _ _ X USER)].
Qed.

(** Every address of a page has the same entry. *)
Lemma page_offset va o : 0 <= va -> pg_ofs va = 0 -> 0 <= o < 4096 -> pg_no (va + o) = pg_no va /\ pg_ofs (va + o) = o.
Proof.
  intros Hva Ha Ho. rewrite !pg_no_div, !pg_ofs_mod in *. unfold PGSIZE in *. pose proof (Z.div_mod va 4096 ltac:(lia)) as E. rewrite Ha in E.
  rewrite E. replace (4096 * (va / 4096) + 0 + o) with (o + va / 4096 * 4096) by lia. rewrite Z.div_add, Z.mod_add, Z.div_small, Z.mod_small by lia.
  split; [|done]. by rewrite Z.add_0_r, Z.mul_comm, Z.div_mul by lia.
Qed.

Lemma user_page va o : 0 <= va < KERN_BASE -> pg_ofs va = 0 -> 0 <= o < 4096 -> 0 <= va + o < KERN_BASE.
Proof.
  rewrite pg_ofs_mod. unfold PGSIZE, KERN_BASE. intros Hva Ha Ho. pose proof (Z.div_mod va 4096 ltac:(lia)). lia.
Qed.

(** ** Properties *)

(** C10: A page map is a function from user pages to page table entries, kept in
    a tree of kernel pages.  [pml4_get_page] translates by the entry, and the
    dirty and accessed bits are read from it.  [pml4_set_page] changes the
    entry of its page and of no other, so that every address of the page is
    then translated into the frame; it takes from the kernel pool exactly the
    tables it adds, writes to nothing but tables and free pages, and fails
    only when the kernel pool has fewer free pages than tables are missing;
    then it has given back every page it took and no entry has changed.
    [pml4_clear_page] clears the present bit and nothing else, and together
    with [pml4_set_dirty] and [pml4_set_accessed], which set one bit or keep
    the other bits of the low half of the entry, drops the cached translation
    if the page map is active. *)
Theorem page_map_refines c pml4 tabs va :
  space (pal c) pml4 tabs -> pml4 <> base_pml4 c -> 0 <= va < KERN_BASE ->
  let w := pte (pal c) tabs va in
  (pml4_get_page pml4 va c = Ok (translate w va, c) /\
   pml4_is_dirty pml4 va c = Ok (has_flag w PTE_D, c) /\ pml4_is_accessed pml4 va c = Ok (has_flag w PTE_A, c)) /\
  (forall kp rw, pg_ofs va = 0 -> KERN_BASE <= kp < 2 ^ 64 -> pg_ofs kp = 0 ->
     exists b c' tabs', pml4_set_page pml4 va kp rw c = Ok (b, c') /\
       page_set c pml4 tabs va (entry_of kp (if rw then 7 else 5)) b c' tabs' /\
       (b = true -> forall o, 0 <= o < 4096 -> pml4_get_page pml4 (va + o) c' = Ok (kp + o, c'))) /\
  (pg_ofs va = 0 -> exists c', pml4_clear_page pml4 va c = Ok (tt, c') /\
     (if has_flag w PTE_P then entry_set c pml4 tabs va (Z.land w (2 ^ 64 - 2)) c' else c' = c) /\
     (forall o, 0 <= o < 4096 -> pml4_get_page pml4 (va + o) c' = Ok (NULL, c'))) /\
  (forall on, exists c1 c2, pml4_set_dirty pml4 va on c = Ok (tt, c1) /\ pml4_set_accessed pml4 va on c = Ok (tt, c2) /\
     if tabs !! vpath va then
       entry_set c pml4 tabs va (if on then Z.lor w PTE_D else Z.land w 0xFFFFFFBF) c1 /\
       entry_set c pml4 tabs va (if on then Z.lor w PTE_A else Z.land w 0xFFFFFFDF) c2
     else c1 = c /\ c2 = c).
Proof.
  intros S Hb Hva w. split_and!.
  - by apply get_page_translate.
  - by apply pte_test_run.
  - by apply pte_test_run.
  - intros kp rw Ho Hk Hko. destruct (set_page_run c pml4 tabs va kp rw S Hb Hva Ho Hk Hko) as (b & c' & tabs' & E & P).
    exists b, c', tabs'. split_and!; [done|done|]. intros -> o Hoo. pose proof (user_page va o Hva Ho Hoo) as Hu.
    rewrite (get_page_translate (ps_space _ _ _ _ _ _ _ _ P) Hu). destruct (page_offset va o ltac:(lia) Ho Hoo) as [E1 E2].
    rewrite (ps_pte _ _ _ _ _ _ _ _ P) by (unfold KERN_BASE in *; lia). rewrite E1, Z.eqb_refl. cbn [andb]. unfold translate. rewrite E2, pg_ofs_mod in *.
    unfold PGSIZE in Hko. rewrite present_bit, entry_bit, entry_addr by (destruct rw; lia || done).
    assert (kp + 4096 <= 2 ^ 64) by (pose proof (Z.div_mod kp 4096 ltac:(lia)); lia).
    unfold KERN_BASE in Hk. rewrite wrapu_id by (split; lia). by destruct rw.
  - intros Ho. destruct (clear_page_run S Hva Ho) as (c' & E & P). exists c'. split_and!; [done|done|]. intros o Hoo.
    pose proof (user_page va o Hva Ho Hoo) as Hu. destruct (page_offset va o ltac:(lia) Ho Hoo) as [E1 E2].
    assert (space (pal c') pml4 tabs /\ has_flag (pte (pal c') tabs (va + o)) PTE_P = false) as [S' Hf].
    { fold w in P. destruct (has_flag w PTE_P) eqn:Ef.
      - split; [apply P|]. rewrite (pt_ptes _ _ _ _ _ (es_pte _ _ _ _ _ _ P)) by (unfold KERN_BASE in *; lia). rewrite E1, Z.eqb_refl.
        rewrite present_bit, Z.land_spec. apply andb_false_r.
      - subst c'. split; [done|]. rewrite <- Ef. unfold w, pte.
        assert ((vpath (va + o), PTX (va + o)) = (vpath va, PTX va)) as Ev by (apply same_page; [unfold KERN_BASE in *; lia..|done]).
        apply pair_equal_spec in Ev as [-> ->]. done. }
    rewrite (get_page_translate S' Hu). unfold translate. by rewrite Hf.
  - intros on. destruct (pte_mark_run S Hva 6 on ltac:(lia)) as (c1 & E1 & P1). destruct (pte_mark_run S Hva 5 on ltac:(lia)) as (c2 & E2 & P2).
    exists c1, c2. split; [exact E1|]. split; [exact E2|]. unfold leaf in P1, P2. destruct (tabs !! vpath va) as [t|] eqn:Et; [|done].
    pose proof (table_facts S _ _ Et) as (H & _). destruct (index_range va) as (_ & _ & Hx).
    rewrite (proj2 (Z.eqb_neq (t + _) NULL)) in P1, P2 by (unfold KERN_BASE, NULL in *; lia). done.
Qed.

(** A kernel pool of [kn] zeroed pages, the first of which is an empty page map,
    and a user pool of [un], the first of which is in use. *)
Definition demo_bytes (kn un : Z) : mem := fun a =>
  if in_range 0x8004200000 (4096 * kn) a || in_range 0x8004300000 (4096 * un) a then Some 0 else None.
Definition demo_cpu_of (kn un : Z) : cpu :=
  Cpu (PState (Pool false (Bitmap kn [1]) 0x8004200000) (Pool false (Bitmap un [1]) 0x8004300000) (demo_bytes kn un)) 0x8004100000 0x200000 ∅.
Definition demo_tabs : gmap (list Z) Z := {[ [] := 0x8004200000 ]}.

Lemma demo_cpu_pools kn un : 0 < kn < 64 -> 0 < un < 64 -> pools_ok (pal (demo_cpu_of kn un)).
Proof.
  intros Hk Hu. split.
  - assert (forall n w, 0 < n < 64 -> is_u 64 w -> wf (Bitmap n [w])) as Hwf.
    { intros n w Hn Hw. split; cbn; [unfold SIZE_MAX; lia| |by constructor].
      rewrite elem_cnt_spec by (unfold SIZE_MAX; lia). apply (Z.div_unique _ _ _ (n - 1)); lia. }
    assert (forall w a, pool_bytes (the_pool w (pal (demo_cpu_of kn un))) a -> is_Some (demo_bytes kn un a)) as Hm.
    { intros w a Ha. unfold demo_bytes. replace (_ || _) with true; [by eexists|]. symmetry. unfold pool_bytes, page_addr, PGSIZE in *.
      unfold in_range. destruct w; cbn in Ha; lia. }
    intros w. split; [destruct w; by apply Hwf|by destruct w..| |apply Hm]. unfold page_addr, PGSIZE. destruct w; cbn; lia.
  - intros a. unfold pool_bytes, page_addr, PGSIZE. cbn. lia.
Qed.

Lemma demo_word kn un i : 0 < kn -> 0 <= i < 512 -> word (demo_bytes kn un) (0x8004200000 + 8 * i) = Some 0.
Proof.
  intros Hk Hi. rewrite (word_bytes_at _ _ (replicate 8 0)); [done|done|]. intros k b [-> Hl]%lookup_replicate.
  unfold demo_bytes, in_range. by replace (_ || _) with true by lia.
Qed.

Lemma demo_space kn un : 0 < kn < 64 -> 0 < un < 64 -> space (pal (demo_cpu_of kn un)) 0x8004200000 demo_tabs.
Proof.
  intros Hk Hu. assert (forall p t, demo_tabs !! p = Some t -> p = [] /\ t = 0x8004200000) as Ht by (intros p t; unfold demo_tabs; by intros [<- <-]%lookup_singleton_Some).
  split.
  - by apply demo_cpu_pools.
  - intros a b. cbn. unfold demo_bytes. destruct (_ || _); [|done]. intros [= <-]. split; lia.
  - done.
  - done.
  - intros p t [-> ->]%Ht. exists 0. split; [cbn; lia|]. by split.
  - intros p q t [-> _]%Ht [-> _]%Ht. done.
  - intros p t [-> _]%Ht. cbn. lia.
  - intros p i t [E _]%Ht. by apply app_nil in E as [_ ?].
  - intros p t i w [-> ->]%Ht _ Hi Hw. cbn [ram pal demo_cpu_of] in Hw. rewrite demo_word in Hw by lia. injection Hw as <-.
    change (has_flag 0 PTE_P) with false. cbv iota. unfold demo_tabs. by rewrite lookup_singleton_ne.
Qed.

Definition demo_cpu : cpu := demo_cpu_of 4 2.

Lemma page_map_refines_witness :
  pml4_get_page 0x8004200000 0x400123 demo_cpu = Ok (NULL, demo_cpu) /\
  exists c', pml4_set_page 0x8004200000 0x400000 0x8004300000 true demo_cpu = Ok (true, c') /\
    pml4_get_page 0x8004200000 (0x400000 + 0x123) c' = Ok (0x8004300000 + 0x123, c').
Proof.
  split.
  - destruct (page_map_refines demo_cpu 0x8004200000 demo_tabs 0x400123 (demo_space 4 2 ltac:(lia) ltac:(lia))) as ((E & _) & _); [done|unfold KERN_BASE; lia|exact E].
  - destruct (page_map_refines demo_cpu 0x8004200000 demo_tabs 0x400000 (demo_space 4 2 ltac:(lia) ltac:(lia))) as (_ & Hs & _); [done|unfold KERN_BASE; lia|].
    destruct (Hs 0x8004300000 true eq_refl) as (b & c' & tabs' & E & P & Hg); [unfold KERN_BASE; lia|done|].
    destruct b.
    + exists c'. split; [exact E|]. apply Hg; [done|lia].
    + exfalso. destruct (ps_fail _ _ _ _ _ _ _ _ P eq_refl) as [_ Hr]. apply Hr. exists [1; 2; 3].
      split; [by_eval|]. split; [done|]. repeat constructor; done.
Defined.
