(* ===== verification/Paging.v ===== *)
(** * The kernel's page map (paging_init of threads/init.c)

    The page map that [paging_init] builds at boot over the page tables of
    Mmu.v, and the theorem that it maps all of memory. *)

From stdpp Require Import gmap.
From S2P Require Import Prelude Bitmap CString Palloc Mmu MmuSpec.
Local Open Scope Z_scope.

(** ** Definitions *)

Section Paging.
(** The linker's symbols [start] and [_end_kernel_text]. *)
Context (start end_kernel_text : Z).

Definition perm_of (va : Z) : Z :=
  if (start <=? va) && (va <? end_kernel_text) then Z.land (Z.lor PTE_P PTE_W) (Z.lnot PTE_W) else Z.lor PTE_P PTE_W.
(** [for (pa = 0; pa < mem_end; pa += PGSIZE)]. *)
Fixpoint map_loop (fuel : nat) (pml4 mem_end pa : Z) : M pstate unit :=
  match fuel with
  | O => out_of_fuel
  | S fuel =>
      if pa <? mem_end then
        let va := ptov pa in
        pte ← pml4e_walk pml4 va true;
        (if negb (pte =? NULL) then store_word pte (Z.lor pa (perm_of va)) else ret tt);;
        map_loop fuel pml4 mem_end (u64 (pa + PGSIZE))
      else ret tt
  end.
Definition paging_init (mem_end : Z) : M cpu unit :=
  pml4 ← on_pal (palloc_get_page (Z.lor PAL_ASSERT PAL_ZERO));
  modify (fun c => Cpu (pal c) pml4 (cr3 c) (tlb c));;
  on_pal (map_loop (S (Z.to_nat (mem_end / PGSIZE + 1))) pml4 mem_end 0);;
  pml4_activate 0.

(** ** The first table *)

(** Memory after [palloc_init]. *)
Record memory_ready (s : pstate) : Prop := {
  mr_pools : pools_ok s;
  mr_bytes : bytes_ok (ram s);
  mr_base : KERN_BASE <= base (kernel_pool s)
}.

Lemma get_pml4_run s : memory_ready s ->
  (exists j s', palloc_get_page (Z.lor PAL_ASSERT PAL_ZERO) s = Ok (kpage s j, s') /\ took s j s') \/
  (palloc_get_page (Z.lor PAL_ASSERT PAL_ZERO) s = Panic /\ ~ room s 1).
Proof using Type.
  intros [Hok _ _]. unfold palloc_get_page. pose proof (palloc_get_outcome s (Z.lor PAL_ASSERT PAL_ZERO) 1 Hok ltac:(lia)) as O.
  inversion O as [j s' p H1 H2 H3 H4 U W E|r p H1 H2 E].
  - left. exists j, s'. split; [done|]. pose proof (ok_pool _ Hok KERNEL) as [P1 P2 P3 P4 P5 P6].
    change (has_flag (Z.lor PAL_ASSERT PAL_ZERO) PAL_ZERO) with true in W. change (pool_of (Z.lor PAL_ASSERT PAL_ZERO)) with KERNEL in *. subst p. cbn [the_pool] in *. split; [|unfold kcnt; lia| | | | |].
    + eapply pages_updated_ok; [done|exact U|]. intros a. apply (written_some _ _ _ _ _ W).
    + apply (H3 j). lia.
    + by eapply pages_updated_place.
    + apply (pu_other _ _ _ _ _ U USER). done.
    + intros k Hk. unfold kused, page_used. rewrite (up_bit _ _ _ _ (pu_map _ _ _ _ _ U)) by done.
      unfold in_range. destruct (Z.eqb_spec k j), (Z.leb_spec j k), (Z.ltb_spec k (j + 1)); try lia; done.
    + done.
  - right. split; [done|]. intros (l & _ & L & F). destruct l as [|j l]; [done|]. apply Forall_cons in F as [[Hj Hu] _].
    apply (H1 j); [lia|unfold kcnt in Hj; subst p; change (pool_of _) with KERNEL; cbn [the_pool]; lia|]. intros k Hk. replace k with j by lia. done.
Qed.

Lemma first_space s j s' : memory_ready s -> took s j s' -> space s' (kpage s j) {[ [] := kpage s j ]}.
Proof using Type.
  intros [M1 M2 M3] [T1 T2 T3 T4 T5 T6 T7].
  assert (forall p t, ({[ [] := kpage s j ]} : gmap (list Z) Z) !! p = Some t -> p = [] /\ t = kpage s j) as Ht by (intros p t; by intros [<- <-]%lookup_singleton_Some).
  split; [done|by eapply page_bytes_ok| |apply lookup_singleton_eq| | | | |].
  - destruct (T4 KERNEL) as [Hb _]. cbn [the_pool] in Hb. by rewrite Hb.
  - intros p t [-> ->]%Ht. exists j. split; [by rewrite (same_place_cnt _ _ T4)|]. split; [by rewrite (same_place_page _ _ _ T4)|]. rewrite T6 by lia. by rewrite Z.eqb_refl.
  - intros p q t [-> _]%Ht [-> _]%Ht. done.
  - intros p t [-> _]%Ht. cbn. lia.
  - intros p i t [E _]%Ht. by apply app_nil in E as [_ ?].
  - intros p t i w [-> ->]%Ht _ Hi Hw. rewrite (zero_word _ _ _ _ T7 Hi) in Hw. injection Hw as <-.
    change (has_flag 0 PTE_P) with false. cbv iota. cbn [app]. by rewrite lookup_singleton_ne.
Qed.

Lemma first_pte s j s' vb : pte s' {[ [] := kpage s j ]} vb = 0.
Proof using Type. unfold pte, view, vpath. by rewrite lookup_singleton_ne. Qed.

(** ** The loop *)

Lemma room_le s n m : (n <= m)%nat -> room s m -> room s n.
Proof using Type.
  intros Hle (l & Hn & L & F). exists (take n l). split; [rewrite <- (take_drop n l) in Hn; by apply NoDup_app in Hn as [Hn _]|]. split; [rewrite length_take; lia|by apply Forall_take].
Qed.
Lemma room_back s s' n : same_place s s' -> (forall j, 0 <= j < kcnt s -> kused s j = true -> kused s' j = true) -> room s' n -> room s n.
Proof using Type.
  intros Hp Hu (l & Hn & L & F). exists l. split; [done|]. split; [done|]. eapply Forall_impl; [exact F|]. cbn. intros j [Hj Hf]. rewrite (same_place_cnt _ _ Hp) in Hj. split; [done|].
  destruct (kused s j) eqn:E; [|done]. by rewrite (Hu j Hj E) in Hf.
Qed.
Lemma missing_le tabs p rest : (missing tabs p rest <= length rest)%nat.
Proof using Type. revert p. induction rest as [|i rest IH]; intros p; cbn [missing length]; [done|]. specialize (IH (p ++ [i])). destruct (tabs !! (p ++ [i])); lia. Qed.

(** The entry of the page at the kernel address [va]. *)
Definition kernel_entry (va : Z) : Z := entry_of va (perm_of va).
Definition page_index (vb : Z) : Z := (vb - KERN_BASE) / PGSIZE.
(** The first [k] pages of memory are mapped, except those that are not [good]. *)
Record built (good : Z -> bool) (k : Z) (s : pstate) (pml4 : Z) (tabs : gmap (list Z) Z) : Prop := {
  bu_space : space s pml4 tabs;
  bu_pte vb : 0 <= vb < 2 ^ 48 ->
    pte s tabs vb = if (KERN_BASE <=? vb) && (page_index vb <? k) && good (page_index vb) then kernel_entry (KERN_BASE + PGSIZE * page_index vb) else 0;
  bu_bad i : 0 <= i < k -> good i = false -> ~ room s 3
}.

Lemma perm_range va : perm_of va = 1 \/ perm_of va = 3.
Proof using Type. unfold perm_of. destruct (_ && _); [by left|by right]. Qed.

Lemma kernel_page k vb : 0 <= k -> 0 <= vb -> pg_no vb = pg_no (KERN_BASE + PGSIZE * k) <-> KERN_BASE <= vb /\ page_index vb = k.
Proof using Type.
  intros Hk Hvb. rewrite !pg_no_div. unfold page_index, PGSIZE, KERN_BASE. replace (0x8004000000 + 4096 * k) with ((0x8004000 + k) * 4096) by lia. rewrite Z.div_mul by lia.
  replace (vb - 0x8004000000) with (vb + (-0x8004000) * 4096) by lia. rewrite Z.div_add by lia.
  pose proof (Z.div_mod vb 4096 ltac:(lia)). pose proof (Z.mod_pos_bound vb 4096 ltac:(lia)). lia.
Qed.

Lemma map_step good k s pml4 tabs : built good k s pml4 tabs -> 0 <= k -> KERN_BASE + PGSIZE * k < 2 ^ 48 ->
  exists r s1, pml4e_walk pml4 (ptov (PGSIZE * k)) true s = Ok (r, s1) /\
  exists s2 good' tabs', (if negb (r =? NULL) then store_word r (Z.lor (PGSIZE * k) (perm_of (ptov (PGSIZE * k)))) else ret tt) s1 = Ok (tt, s2) /\ built good' (k + 1) s2 pml4 tabs' /\ user_pool s2 = user_pool s.
Proof using Type.
  intros [S P Q] Hk Hlt. assert (ptov (PGSIZE * k) = KERN_BASE + PGSIZE * k) as ->.
  { unfold ptov. rewrite wrapu_id; [lia|]. unfold is_u, PGSIZE, KERN_BASE in *. lia. }
  set (va := KERN_BASE + PGSIZE * k) in *. assert (0 <= va) by (unfold va, PGSIZE, KERN_BASE in *; lia).
  destruct (pml4e_walks pml4 va s tabs [] pml4 S (sp_root _ _ _ S) eq_refl) as (_ & r & s1 & tabs' & E & S1 & X & Hn & Hy).
  exists r, s1. split; [done|].
  assert (forall n, room s1 n -> room s n) as Hroom1.
  { intros n. apply (room_back s s1); [apply X|]. intros j Hj Hu. apply (ex_used _ _ _ _ X); [done|by left]. }
  destruct (Z.eqb_spec r NULL) as [->|Hr]; cbn [negb].
  - exists s1, (fun i => if i =? k then false else good i), tabs'. split; [done|]. split; [|apply X]. destruct (Hn eq_refl) as [-> Hfull]. split; [done| |].
    + intros vb Hvb. rewrite (extends_pte _ _ _ _ vb X), P by done. destruct (KERN_BASE <=? vb) eqn:Ek; cbn [andb]; [|done].
      destruct (Z.eqb_spec (page_index vb) k) as [->|]; [by rewrite Z.ltb_irrefl, andb_false_r|]. destruct (Z.ltb_spec (page_index vb) k), (Z.ltb_spec (page_index vb) (k + 1)); try lia; done.
    + intros i Hi. destruct (Z.eqb_spec i k); intros Hg Hr; apply Hroom1 in Hr.
      * apply Hfull. eapply room_le; [apply (missing_le tabs [] (vpath va))|exact Hr].
      * by apply (Q i); [lia|..].
  - specialize (Hy Hr). cbn [app] in Hy.
    assert (Z.lor (PGSIZE * k) (perm_of va) = kernel_entry va) as ->.
    { unfold kernel_entry. replace (PGSIZE * k) with (va - KERN_BASE) by (unfold va; lia). apply entry_lor; [|destruct (perm_range va) as [-> | ->]; lia].
      unfold va, PGSIZE, KERN_BASE. replace (0x8004000000 + 4096 * k) with ((0x8004000 + k) * 4096) by lia. by rewrite Z.mod_mul. }
    assert (is_u64 (kernel_entry va)) as He. { unfold kernel_entry, entry_of, va, KERN_BASE, PGSIZE in *. split; destruct (perm_range (0x8004000000 + 4096 * k)) as [-> | ->]; lia. }
    destruct (store_pte s1 pml4 tabs' va _ S1 ltac:(lia) ltac:(by rewrite <- Hy) He) as (s2 & E2 & S2 & [[U1 U1'] U2 U3]). rewrite <- Hy in E2.
    exists s2, (fun i => if i =? k then true else good i), tabs'. split; [done|]. split; [|rewrite U1'; apply X]. split; [done| |].
    + intros vb Hvb. rewrite U2, (extends_pte _ _ _ _ vb X), P by done. pose proof (kernel_page k vb Hk ltac:(lia)) as Hkp. fold va in Hkp.
      destruct (Z.eqb_spec (pg_no vb) (pg_no va)) as [Ep|Hne].
      * apply Hkp in Ep as [Hb Ei]. rewrite (proj2 (Z.leb_le _ _) Hb), Ei, Z.eqb_refl, (proj2 (Z.ltb_lt k (k + 1))) by lia. done.
      * destruct (KERN_BASE <=? vb) eqn:Ek; cbn [andb]; [|done]. apply Z.leb_le in Ek. destruct (Z.eqb_spec (page_index vb) k) as [Ei|]; [exfalso; by apply Hne, Hkp|].
        destruct (Z.ltb_spec (page_index vb) k), (Z.ltb_spec (page_index vb) (k + 1)); try lia; done.
    + intros i Hi. destruct (Z.eqb_spec i k); [done|]. intros Hg Hr2. apply (Q i); [lia|done|]. apply Hroom1. destruct Hr2 as (l & Hl1 & Hl2 & Hl3). exists l.
      unfold kcnt, kused in *. rewrite U1 in Hl3. done.
Qed.

Lemma map_loop_run pml4 mem_end fuel : forall good k s tabs, built good k s pml4 tabs -> 0 <= k -> 0 <= mem_end -> KERN_BASE + mem_end <= 2 ^ 48 -> PGSIZE * (k - 1) < mem_end \/ k = 0 -> mem_end / PGSIZE + 1 < k + Z.of_nat fuel ->
  exists s' good' tabs' n, map_loop fuel pml4 mem_end (PGSIZE * k) s = Ok (tt, s') /\ built good' n s' pml4 tabs' /\ (PGSIZE * (n - 1) < mem_end \/ n = 0) /\ mem_end <= PGSIZE * n /\ user_pool s' = user_pool s.
Proof using Type.
  induction fuel as [|fuel IH]; intros good k s tabs B Hk Hm0 Hm Hkm Hf.
  - exfalso. pose proof (Z.div_mod mem_end PGSIZE ltac:(unfold PGSIZE; lia)). pose proof (Z.mod_pos_bound mem_end PGSIZE ltac:(unfold PGSIZE; lia)). unfold PGSIZE in *. lia.
  - cbn [map_loop]. destruct (Z.ltb_spec (PGSIZE * k) mem_end).
    + destruct (map_step good k s pml4 tabs B Hk ltac:(lia)) as (r & s1 & E1 & s2 & good2 & tabs2 & E2 & B2 & Hu2). cbv zeta. mstep E1. mstep E2.
      assert (u64 (PGSIZE * k + PGSIZE) = PGSIZE * (k + 1)) as ->.
      { replace (PGSIZE * k + PGSIZE) with (PGSIZE * (k + 1)) by lia. apply wrapu_id. unfold is_u. clear - Hk Hm H. unfold PGSIZE, KERN_BASE in *. lia. }
      destruct (IH good2 (k + 1) s2 tabs2 B2 ltac:(lia) Hm0 Hm ltac:(left; replace (k + 1 - 1) with k by lia; lia) ltac:(lia)) as (s' & good' & tabs' & n & E & B' & H1 & H2 & H3).
      exists s', good', tabs', n. split; [exact E|]. split; [done|]. split; [done|]. split; [done|congruence].
    + exists s, good, tabs, k. split; [done|]. split; [done|]. split; [done|]. split; [lia|done].
Qed.
End Paging.

(** ** Properties *)

(** C28: After [paging_init] the processor runs on a page map of the kernel alone.
    Every page of physical memory is mapped at [KERN_BASE] above its address,
    readable, and writable exactly when it is not part of the kernel's text,
    and no page is accessible to user programs; every other address is
    unmapped, so that no user address is mapped.  The new map is the active
    one and the base of the maps of processes.  A page whose tables cannot be
    allocated is silently left out, but then less than three pages of the
    kernel pool are free at the end; without any free page the kernel panics. *)
Theorem paging_init_maps_memory start text_end mem_end c : memory_ready (pal c) -> 0 <= mem_end -> KERN_BASE + mem_end <= 2 ^ 48 ->
  (~ room (pal c) 1 /\ paging_init start text_end mem_end c = Panic) \/
  exists c' tabs, paging_init start text_end mem_end c = Ok (tt, c') /\ space (pal c') (base_pml4 c') tabs /\ cr3 c' = base_pml4 c' - KERN_BASE /\ tlb c' = ∅ /\ user_pool (pal c') = user_pool (pal c) /\
    (forall vb, 0 <= vb < 2 ^ 48 ->
       let pa := PGSIZE * page_index vb in let va := KERN_BASE + pa in
       let mapped := entry_of va (if (start <=? va) && (va <? text_end) then PTE_P else Z.lor PTE_P PTE_W) in
       (KERN_BASE <= vb -> pa < mem_end -> pte (pal c') tabs vb = mapped \/ pte (pal c') tabs vb = 0 /\ ~ room (pal c') 3) /\
       (vb < KERN_BASE \/ mem_end <= pa -> pte (pal c') tabs vb = 0)).
Proof.
  intros Hr Hm0 Hm. unfold paging_init. destruct (get_pml4_run (pal c) Hr) as [(j & s1 & E & T)|[E Hn]].
  - right. mstep (pal_run _ _ _ _ E). cbn [pal with_pal cr3 tlb].
    pose proof (first_space (pal c) j s1 Hr T) as S1. pose proof (first_pte (pal c) j s1) as P1. set (pml4 := kpage (pal c) j) in *.
    assert (built start text_end (fun _ => true) 0 s1 pml4 {[ [] := pml4 ]}) as B.
    { split; [done| |lia]. intros vb Hvb. rewrite P1. destruct (Z.leb_spec KERN_BASE vb); cbn [andb]; [|done]. destruct (Z.ltb_spec (page_index vb) 0); [|done].
      unfold page_index in *. pose proof (Z.div_pos (vb - KERN_BASE) PGSIZE ltac:(lia) ltac:(unfold PGSIZE; lia)). lia. }
    destruct (map_loop_run start text_end pml4 mem_end (S (Z.to_nat (mem_end / PGSIZE + 1))) _ 0 s1 _ B ltac:(lia) Hm0 Hm ltac:(by right)) as (s2 & good & tabs & n & E2 & [B1 B2 B3] & N1 & N2 & U).
    { pose proof (Z.div_pos mem_end PGSIZE Hm0 ltac:(unfold PGSIZE; lia)). lia. }
    rewrite Z.mul_0_r in E2. mstep (pal_run _ (Cpu s1 pml4 (cr3 c) (tlb c)) _ _ E2). unfold pml4_activate. mnorm. cbn [negb Z.eqb NULL base_pml4 with_pal].
    destruct (table_facts B1 [] pml4 (sp_root _ _ _ B1)) as (F1 & F2 & _). mstep (vtop_run pml4 (with_pal (Cpu s1 pml4 (cr3 c) (tlb c)) s2) ltac:(lia)).
    eexists _, tabs. split; [reflexivity|]. cbn [pal base_pml4 cr3 tlb with_pal]. split; [done|]. split; [done|]. split; [done|]. split; [rewrite U; apply T|].
    intros vb Hvb. set (pa := PGSIZE * page_index vb). set (va := KERN_BASE + pa). rewrite (B2 vb Hvb). split.
    + intros Hb Hpa. rewrite (proj2 (Z.leb_le _ _) Hb). assert (page_index vb <? n = true) as -> by (apply Z.ltb_lt; unfold pa, PGSIZE in *; lia). cbn [andb].
      destruct (good (page_index vb)) eqn:Eg; [left|right; split; [done|]].
      * unfold kernel_entry, perm_of. fold pa va. by destruct (_ && _).
      * apply (B3 (page_index vb)); [|done]. split; [unfold page_index; apply Z.div_pos; unfold PGSIZE; lia|unfold pa, PGSIZE in *; lia].
    + intros Ho. destruct (Z.leb_spec KERN_BASE vb); cbn [andb]; [|done]. destruct (Z.ltb_spec (page_index vb) n); [|done]. exfalso. destruct Ho as [Ho|Ho]; [lia|].
      assert (0 <= page_index vb) by (unfold page_index; apply Z.div_pos; unfold PGSIZE; lia). unfold pa, PGSIZE in *. lia.
  - left. split; [done|]. unfold on_pal. unfold bind at 1. by rewrite E.
Qed.

(** 64 KB of memory, whose second page is text. *)
Definition demo_ready : cpu := demo_cpu_of 8 4.
Lemma paging_init_maps_memory_witness : exists c' tabs, paging_init (KERN_BASE + 0x1000) (KERN_BASE + 0x2000) 0x10000 demo_ready = Ok (tt, c') /\
  (room (pal c') 3 -> pte (pal c') tabs (KERN_BASE + 0x1234) = 0x1001 /\ pte (pal c') tabs (KERN_BASE + 0x2345) = 0x2003) /\ pte (pal c') tabs 0x400000 = 0.
Proof.
  destruct (paging_init_maps_memory (KERN_BASE + 0x1000) (KERN_BASE + 0x2000) 0x10000 demo_ready) as [[H _]|(c' & tabs & E & _ & _ & _ & _ & H)].
  - pose proof (demo_space 8 4 ltac:(lia) ltac:(lia)) as S. split; [apply S|apply S|apply S].
  - lia.
  - unfold KERN_BASE. lia.
  - exfalso. apply H. exists [1]. split; [by_eval|]. split; [done|]. repeat constructor; done.
  - exists c', tabs. split; [exact E|]. split.
    + intros Hr. split.
      * destruct (proj1 (H (KERN_BASE + 0x1234) ltac:(unfold KERN_BASE; lia)) ltac:(unfold KERN_BASE; lia) ltac:(vm_compute; reflexivity)) as [Hp|[_ Hn]]; [exact Hp|destruct (Hn Hr)].
      * destruct (proj1 (H (KERN_BASE + 0x2345) ltac:(unfold KERN_BASE; lia)) ltac:(unfold KERN_BASE; lia) ltac:(vm_compute; reflexivity)) as [Hp|[_ Hn]]; [exact Hp|destruct (Hn Hr)].
    + exact (proj2 (H 0x400000 ltac:(lia)) ltac:(left; unfold KERN_BASE; lia)).
Defined.
