(* ===== verification/Inode.v ===== *)
(** * Inodes: file contents on disk (filesys/inode.c, devices/disk.c)

    The state of the file system: the disk, a list of sectors of 512 bytes;
    the [struct inode], [struct file] and [struct dir] objects, by address;
    the list of open inodes; the free map; and [allocs], which says which of
    the coming memory allocations succeed (all, when it is empty).  Objects
    are never given the address of an object that was freed, so the use of a
    freed object faults.

    A sector is read or written in one step: the ATA protocol and its
    interrupts are in Disk.v, a disk error panics in the code and does not
    occur here.  This file holds the part of inode.c that works on one open
    inode; FreeMap.v has the rest. *)

From S2P Require Import Prelude Bitmap.

(** ** Data *)

Definition DISK_SECTOR_SIZE : Z := 512.
Definition INODE_MAGIC : Z := 0x494e4f44.

(** [struct inode_disk]. *)
Record inode_disk := InodeDisk { start : Z; length_ : Z; magic : Z }.
(** [struct inode]. *)
Record inode := Inode {
  sector : Z; open_cnt : Z; removed : bool; deny_write_cnt : Z; data : inode_disk }.
(** [struct file]. *)
Record file := File { f_inode : Z; f_pos : Z; deny_write : bool }.
(** [struct dir]. *)
Record dir := Dir { d_inode : Z; d_pos : Z }.

Record fs := FS {
  disk : list (list Z);
  inodes : gmap Z inode;
  open_inodes : list Z;
  files : gmap Z file;
  dirs : gmap Z dir;
  next_addr : Z;
  allocs : list bool;
  free_map : bitmap;
  free_map_file : Z }.

Definition set_disk f (s : fs) := FS (f (disk s)) (inodes s) (open_inodes s) (files s) (dirs s) (next_addr s) (allocs s) (free_map s) (free_map_file s).
Definition set_inodes f (s : fs) := FS (disk s) (f (inodes s)) (open_inodes s) (files s) (dirs s) (next_addr s) (allocs s) (free_map s) (free_map_file s).
Definition set_open f (s : fs) := FS (disk s) (inodes s) (f (open_inodes s)) (files s) (dirs s) (next_addr s) (allocs s) (free_map s) (free_map_file s).
Definition set_files f (s : fs) := FS (disk s) (inodes s) (open_inodes s) (f (files s)) (dirs s) (next_addr s) (allocs s) (free_map s) (free_map_file s).
Definition set_dirs f (s : fs) := FS (disk s) (inodes s) (open_inodes s) (files s) (f (dirs s)) (next_addr s) (allocs s) (free_map s) (free_map_file s).
Definition set_allocs f (s : fs) := FS (disk s) (inodes s) (open_inodes s) (files s) (dirs s) (next_addr s) (f (allocs s)) (free_map s) (free_map_file s).
Definition set_free_map b (s : fs) := FS (disk s) (inodes s) (open_inodes s) (files s) (dirs s) (next_addr s) (allocs s) b (free_map_file s).
Definition set_free_map_file p (s : fs) := FS (disk s) (inodes s) (open_inodes s) (files s) (dirs s) (next_addr s) (allocs s) (free_map s) p.

(** [malloc] and [calloc], as far as they can fail. *)
Definition alloc : M fs bool := fun s =>
  match allocs s with
  | [] => Ok (true, s)
  | b :: bs => Ok (b, set_allocs (fun _ => bs) s)
  end.
(** The address of a new object. *)
Definition new_addr : M fs Z := fun s =>
  Ok (next_addr s, FS (disk s) (inodes s) (open_inodes s) (files s) (dirs s) (next_addr s + 1) (allocs s) (free_map s) (free_map_file s)).

Definition get_inode (p : Z) : M fs inode := fun s => let! x := deref (inodes s !! p) in Ok (x, s).
Definition put_inode (p : Z) (i : inode) : M fs unit := modify (set_inodes (<[p := i]>)).

(** ** The disk *)

Definition disk_size (s : fs) : Z := Z.of_nat (length (disk s)).

Definition disk_read (sec_no : Z) : M fs (list Z) :=
  s ← get;
  ASSERT (sec_no <? disk_size s);; ASSERT (sec_no <? 2 ^ 28);;
  lift (deref (disk s !! Z.to_nat sec_no)).
Definition disk_write (sec_no : Z) (buffer : list Z) : M fs unit :=
  s ← get;
  ASSERT (sec_no <? disk_size s);; ASSERT (sec_no <? 2 ^ 28);;
  modify (set_disk (<[Z.to_nat sec_no := buffer]>)).

(** The 512 bytes of a [struct inode_disk]: two 32-bit words, the magic
    number, and 125 unused words, which [calloc] has zeroed. *)
Definition encode_inode (d : inode_disk) : list Z :=
  word_bytes 4 (start d) ++ word_bytes 4 (wrapu 32 (length_ d)) ++ word_bytes 4 (magic d) ++ replicate 500 0.
Definition decode_inode (bs : list Z) : inode_disk :=
  InodeDisk (bytes_word (slice 0 4 bs)) (s32 (bytes_word (slice 4 4 bs))) (bytes_word (slice 8 4 bs)).

(** ** Reading and writing *)

(** [DIV_ROUND_UP] on [off_t]. *)
Definition bytes_to_sectors (size : Z) : Z := u64 (Z.quot (s32 (s32 (size + DISK_SECTOR_SIZE) - 1)) DISK_SECTOR_SIZE).

Definition byte_to_sector (i : inode) (pos : Z) : Z :=
  if pos <? length_ (data i) then u32 (start (data i) + Z.quot pos DISK_SECTOR_SIZE) else u32 (-1).

(** The bytes to transfer in one round of the loops. *)
Definition chunk_of (i : inode) (size offset : Z) : Z :=
  let sector_ofs := Z.rem offset DISK_SECTOR_SIZE in
  let inode_left := s32 (length_ (data i) - offset) in
  let sector_left := DISK_SECTOR_SIZE - sector_ofs in
  let min_left := if inode_left <? sector_left then inode_left else sector_left in
  if size <? min_left then size else min_left.

(** [if (bounce == NULL) bounce = malloc (DISK_SECTOR_SIZE)]. *)
Definition get_bounce (bounce : bool) : M fs bool := if bounce then ret true else alloc.

(** The loop of [inode_read_at]; [acc] is what has been read. *)
Fixpoint read_loop (fuel : nat) (i : inode) (size offset : Z) (bounce : bool) (acc : list Z) : M fs (list Z) :=
  if 0 <? size then
    match fuel with
    | O => out_of_fuel
    | S fuel =>
        let sector_idx := byte_to_sector i offset in
        let sector_ofs := Z.rem offset DISK_SECTOR_SIZE in
        let chunk_size := chunk_of i size offset in
        if chunk_size <=? 0 then ret acc
        else if (sector_ofs =? 0) && (chunk_size =? DISK_SECTOR_SIZE) then
          sec ← disk_read sector_idx;
          read_loop fuel i (size - chunk_size) (s32 (offset + chunk_size)) bounce (acc ++ sec)
        else
          ok ← get_bounce bounce;
          if negb ok then ret acc
          else
            sec ← disk_read sector_idx;
            read_loop fuel i (size - chunk_size) (s32 (offset + chunk_size)) true
              (acc ++ slice (Z.to_nat sector_ofs) (Z.to_nat chunk_size) sec)
    end
  else ret acc.

(** [inode_read_at]: the bytes read, as many as the result of the function.
    Every round transfers at least one byte, so [size] rounds are enough. *)
Definition inode_read_at (p size offset : Z) : M fs (list Z) :=
  i ← get_inode p;
  read_loop (Z.to_nat size) i size offset false [].

(** The bytes of the caller's buffer that one round writes. *)
Definition buffer_slice (buffer : list Z) (ofs len : Z) : M fs (list Z) :=
  let bs := slice (Z.to_nat ofs) (Z.to_nat len) buffer in
  if Z.of_nat (length bs) =? len then ret bs else lift Fault.

Fixpoint write_loop (fuel : nat) (i : inode) (buffer : list Z) (size offset bytes_written : Z) (bounce : bool)
  : M fs Z :=
  if 0 <? size then
    match fuel with
    | O => out_of_fuel
    | S fuel =>
        let sector_idx := byte_to_sector i offset in
        let sector_ofs := Z.rem offset DISK_SECTOR_SIZE in
        let sector_left := DISK_SECTOR_SIZE - sector_ofs in
        let chunk_size := chunk_of i size offset in
        if chunk_size <=? 0 then ret bytes_written
        else if (sector_ofs =? 0) && (chunk_size =? DISK_SECTOR_SIZE) then
          bs ← buffer_slice buffer bytes_written chunk_size;
          disk_write sector_idx bs;;
          write_loop fuel i buffer (size - chunk_size) (s32 (offset + chunk_size)) (bytes_written + chunk_size) bounce
        else
          ok ← get_bounce bounce;
          if negb ok then ret bytes_written
          else
            sec ← (if (0 <? sector_ofs) || (chunk_size <? sector_left) then disk_read sector_idx
                   else ret (replicate 512 0));
            bs ← buffer_slice buffer bytes_written chunk_size;
            disk_write sector_idx (splice (Z.to_nat sector_ofs) bs sec);;
            write_loop fuel i buffer (size - chunk_size) (s32 (offset + chunk_size)) (bytes_written + chunk_size) true
    end
  else ret bytes_written.

Definition inode_write_at (p : Z) (buffer : list Z) (size offset : Z) : M fs Z :=
  i ← get_inode p;
  if negb (deny_write_cnt i =? 0) then ret 0
  else write_loop (Z.to_nat size) i buffer size offset 0 false.

Definition inode_length (p : Z) : M fs Z := i ← get_inode p; ret (length_ (data i)).
Definition inode_get_inumber (p : Z) : M fs Z := i ← get_inode p; ret (sector i).

Definition inode_reopen (p : Z) : M fs Z :=
  if p =? NULL then ret p
  else
    i ← get_inode p;
    put_inode p (Inode (sector i) (s32 (open_cnt i + 1)) (removed i) (deny_write_cnt i) (data i));; ret p.

Definition inode_remove (p : Z) : M fs unit :=
  ASSERT (negb (p =? NULL));;
  i ← get_inode p;
  put_inode p (Inode (sector i) (open_cnt i) true (deny_write_cnt i) (data i)).

Definition inode_deny_write (p : Z) : M fs unit :=
  i ← get_inode p;
  let n := s32 (deny_write_cnt i + 1) in
  put_inode p (Inode (sector i) (open_cnt i) (removed i) n (data i));;
  ASSERT (n <=? open_cnt i).

Definition inode_allow_write (p : Z) : M fs unit :=
  i ← get_inode p;
  ASSERT (0 <? deny_write_cnt i);;
  ASSERT (deny_write_cnt i <=? open_cnt i);;
  put_inode p (Inode (sector i) (open_cnt i) (removed i) (s32 (deny_write_cnt i - 1)) (data i)).

(** ** The disk as one array of bytes *)

Definition flat (s : fs) : list Z := concat (disk s).
Definition disk_ok (s : fs) : Prop :=
  Forall (fun sec => length sec = 512%nat) (disk s) /\ Z.of_nat (length (disk s)) <= 2 ^ 28.

Lemma slice_app {A} a n m (xs : list A) : slice a (n + m) xs = slice a n xs ++ slice (a + n) m xs.
Proof. unfold slice. rewrite <- drop_drop, <- take_take_drop. done. Qed.

Lemma splice_splice {A} a (xs ys zs : list A) :
  (a + length xs + length ys <= length zs)%nat ->
  splice (a + length xs) ys (splice a xs zs) = splice a (xs ++ ys) zs.
Proof.
  intros H. apply list_eq. intros i. assert (length (splice a xs zs) = length zs) as El by (apply length_splice; lia).
  destruct (decide (a <= i < a + length (xs ++ ys))%nat) as [Hi|Hi].
  - rewrite (lookup_splice_in a) by (rewrite ?length_app in *; lia). rewrite length_app in Hi.
    destruct (decide (i < a + length xs)%nat).
    + rewrite lookup_splice_out by lia. rewrite lookup_splice_in by lia. by rewrite lookup_app_l by lia.
    + rewrite lookup_splice_in by lia. rewrite lookup_app_r by lia. f_equal. lia.
  - rewrite length_app in Hi. rewrite (lookup_splice_out a (xs ++ ys)) by (rewrite ?length_app; lia).
    rewrite lookup_splice_out by lia. rewrite lookup_splice_out by lia. done.
Qed.

Lemma splice_nil {A} a (zs : list A) : splice a [] zs = zs.
Proof. unfold splice. cbn. by rewrite Nat.add_0_r, take_drop. Qed.

Lemma length_concat_sectors (d : list (list Z)) :
  Forall (fun sec => length sec = 512%nat) d -> length (concat d) = (512 * length d)%nat.
Proof. induction 1 as [|sec l Hs _ IH]; cbn [concat length]; [done|]. rewrite length_app, Hs, IH. lia. Qed.

Section flat.
Context (d : list (list Z)).
Context (Hd : Forall (fun sec => length sec = 512%nat) d).

Lemma length_concat : length (concat d) = (512 * length d)%nat.
Proof. by apply length_concat_sectors. Qed.

Lemma concat_split k sec : d !! k = Some sec ->
  concat d = concat (take k d) ++ sec ++ concat (drop (S k) d) /\ length (concat (take k d)) = (512 * k)%nat /\ length sec = 512%nat.
Proof.
  intros H. pose proof (lookup_lt_Some _ _ _ H). split_and!.
  - rewrite <- (take_drop_middle d k sec H) at 1. by rewrite concat_app.
  - rewrite length_concat_sectors by by apply Forall_take. rewrite length_take. lia.
  - by apply (Forall_lookup_1 _ _ _ _ Hd H).
Qed.

(** A part of a sector. *)
Lemma slice_sector k sec o n : d !! k = Some sec -> (o + n <= 512)%nat ->
  slice (512 * k + o) n (concat d) = slice o n sec.
Proof.
  intros H Hn. destruct (concat_split k sec H) as (E & L & Ls). apply list_eq. intros i.
  destruct (decide (i < n)%nat).
  - rewrite !lookup_slice by done. rewrite E, lookup_app_r by lia. rewrite lookup_app_l by lia. f_equal. lia.
  - rewrite !lookup_ge_None_2; [done|unfold slice; rewrite length_take; lia..].
Qed.

(** Writing a sector. *)
Lemma concat_insert k sec bs : d !! k = Some sec -> length bs = 512%nat ->
  concat (<[k := bs]> d) = splice (512 * k) bs (concat d).
Proof.
  intros H Hb. destruct (concat_split k sec H) as (E & L & Ls). pose proof (lookup_lt_Some _ _ _ H).
  rewrite insert_take_drop by done. rewrite concat_app. cbn [concat]. unfold splice. rewrite E.
  rewrite take_app_length' by lia. f_equal. f_equal.
  rewrite drop_app_ge by lia. rewrite drop_app_ge by lia. rewrite L, Ls, Hb.
  replace (512 * k + 512 - 512 * k - 512)%nat with 0%nat by lia. done.
Qed.

(** Writing a part of a sector through a copy of it. *)
Lemma splice_sector k sec o bs : d !! k = Some sec -> (o + length bs <= 512)%nat ->
  concat (<[k := splice o bs sec]> d) = splice (512 * k + o) bs (concat d).
Proof.
  intros H Hb. destruct (concat_split k sec H) as (E & L & Ls). pose proof length_concat as LC.
  pose proof (lookup_lt_Some _ _ _ H) as Hk.
  rewrite (concat_insert k sec) by (done || rewrite length_splice; lia).
  apply list_eq. intros i. assert (length (splice o bs sec) = 512%nat) as Lsp by (rewrite length_splice; lia).
  destruct (decide (512 * k + o <= i < 512 * k + o + length bs)%nat).
  - rewrite !lookup_splice_in by lia. f_equal. lia.
  - rewrite (lookup_splice_out (512 * k + o)) by lia.
    destruct (decide (512 * k <= i < 512 * k + 512)%nat).
    + rewrite lookup_splice_in by lia. rewrite lookup_splice_out by lia.
      rewrite E, lookup_app_r by lia. rewrite lookup_app_l by lia. f_equal. lia.
    + by rewrite lookup_splice_out by lia.
Qed.
End flat.

(** ** An inode and its bytes *)

(** The sectors of the inode are on the disk, and its length leaves room for
    the arithmetic on [off_t]. *)
Record inode_ok (s : fs) (i : inode) : Prop := {
  io_len : 0 <= length_ (data i) < 2 ^ 31 - 512;
  io_start : 0 <= start (data i);
  io_end : start (data i) + (length_ (data i) + 511) / 512 <= disk_size s
}.

(** Position of byte [offset] of the file on the disk. *)
Definition disk_pos (i : inode) (offset : Z) : nat := Z.to_nat (512 * start (data i) + offset).
(** The contents of the file. *)
Definition contents (s : fs) (i : inode) : list Z := slice (disk_pos i 0) (Z.to_nat (length_ (data i))) (flat s).
(** The bytes a transfer of [size] bytes at [offset] can reach. *)
Definition reach (i : inode) (size offset : Z) : Z := Z.max 0 (Z.min size (length_ (data i) - offset)).

(** The geometry of one round. *)
Lemma round_geometry s i size offset :
  disk_ok s -> inode_ok s i -> 0 <= offset < 2 ^ 31 - 512 -> 0 < size < 2 ^ 31 ->
  let c := chunk_of i size offset in
  let o := Z.rem offset 512 in
  let k := Z.to_nat (start (data i) + offset / 512) in
  (c <= 0 -> reach i size offset = 0) /\
  (0 < c -> 0 <= o /\ o + c <= 512 /\ c <= size /\ offset + c <= length_ (data i) /\
     reach i size offset = c + reach i (size - c) (offset + c) /\
     s32 (offset + c) = offset + c /\ o = offset mod 512 /\
     byte_to_sector i offset = Z.of_nat k /\ disk_pos i offset = (512 * k + Z.to_nat o)%nat /\
     disk_pos i (offset + c) = (disk_pos i offset + Z.to_nat c)%nat /\
     exists sec, disk s !! k = Some sec /\ length sec = 512%nat /\
       disk_read (Z.of_nat k) s = Ok (sec, s)).
Proof.
  intros [Hd Hn] [I1 I2 I3] Ho Hs c o k. unfold c, chunk_of, o, DISK_SECTOR_SIZE in *.
  rewrite Z.rem_mod_nonneg by lia. pose proof (Z.mod_pos_bound offset 512 ltac:(lia)) as Hm.
  pose proof (Z.div_mod offset 512 ltac:(lia)) as Hdm.
  rewrite (wraps_id 32 (length_ (data i) - offset)) by (unfold is_s; lia).
  set (m := offset mod 512) in *. set (q := offset / 512) in *.
  set (ml := if length_ (data i) - offset <? 512 - m then length_ (data i) - offset else 512 - m).
  assert (ml = Z.min (length_ (data i) - offset) (512 - m)) as Eml by (unfold ml; destruct (Z.ltb_spec (length_ (data i) - offset) (512 - m)); lia).
  set (cc := if size <? ml then size else ml). assert (cc = Z.min size ml) as Ecc by (unfold cc; destruct (Z.ltb_spec size ml); lia).
  unfold reach. split; [lia|]. intros Hc. split_and!; try lia.
  - apply wraps_id; [lia|]. unfold is_s. lia.
  - unfold byte_to_sector, DISK_SECTOR_SIZE. destruct (Z.ltb_spec offset (length_ (data i))); [|lia].
    rewrite Z.quot_div_nonneg by lia. fold q. unfold k. rewrite Z2Nat.id by lia.
    assert (q <= (length_ (data i) + 511) / 512) by (apply Z.div_le_mono; lia). apply wrapu_id. unfold is_u, disk_size in *. lia.
  - unfold disk_pos, k. lia.
  - unfold disk_pos. lia.
  - pose proof (Z.div_le_lower_bound (length_ (data i) + 511) 512 (q + 1) ltac:(lia) ltac:(lia)) as Hq.
    unfold disk_size in I3. destruct (lookup_lt_is_Some_2 (disk s) k) as [sec Hsec]; [unfold k; lia|].
    exists sec. split_and!; [done|by apply (Forall_lookup_1 _ _ _ _ Hd Hsec)|].
    unfold disk_read, disk_size. mnorm. rewrite !(proj2 (Z.ltb_lt _ _)) by (unfold k; lia). mnorm.
    rewrite Nat2Z.id. unfold lift. rewrite Hsec. done.
Qed.

Lemma alloc_run s : exists b l, alloc s = Ok (b, set_allocs (fun _ => l) s) /\ (allocs s = [] -> b = true /\ l = []).
Proof.
  unfold alloc. destruct (allocs s) as [|b l] eqn:E.
  - exists true, []. split; [|done]. do 2 f_equal. destruct s. cbn in *. by subst.
  - exists b, l. by split.
Qed.

(** [s'] is [s] after some allocations. *)
Definition allocated (s s' : fs) : Prop := exists l, s' = set_allocs (fun _ => l) s /\ (allocs s = [] -> l = []).

Lemma allocated_refl s : allocated s s.
Proof. exists (allocs s). split; [by destruct s|done]. Qed.

Lemma allocated_trans s1 s2 s3 : allocated s1 s2 -> allocated s2 s3 -> allocated s1 s3.
Proof.
  intros (l1 & -> & H1) (l2 & -> & H2). exists l2. split; [done|]. intros E. apply H2. cbn. by apply H1.
Qed.

Lemma get_bounce_run bounce s :
  exists b s', get_bounce bounce s = Ok (b, s') /\ allocated s s' /\ (allocs s = [] -> b = true).
Proof.
  unfold get_bounce. destruct bounce; [exists true, s; split_and!; [done|apply allocated_refl|done]|].
  destruct (alloc_run s) as (b & l & E & H). eexists _, _. split_and!; [done| |intros ?; by apply H].
  exists l. split; [done|]. intros ?. by apply H.
Qed.

Lemma slice_0 {A} a (xs : list A) : slice a 0 xs = [].
Proof. done. Qed.

(** [s] and [s'] have the same disk, and [s'] the same inodes. *)
Lemma allocated_disk s s' : allocated s s' -> disk s' = disk s /\ inodes s' = inodes s /\ (allocs s = [] -> allocs s' = []).
Proof. intros (l & -> & H). by split_and!. Qed.

Lemma read_loop_spec fuel s i size offset bounce acc :
  disk_ok s -> inode_ok s i -> 0 <= offset < 2 ^ 31 - 512 -> 0 <= size < 2 ^ 31 -> (Z.to_nat size <= fuel)%nat ->
  exists m s', read_loop fuel i size offset bounce acc s =
      Ok (acc ++ slice (disk_pos i offset) (Z.to_nat m) (flat s), s') /\ allocated s s' /\
    0 <= m <= reach i size offset /\ (allocs s = [] -> m = reach i size offset).
Proof.
  revert s size offset bounce acc.
  induction fuel as [|fuel IH]; intros s size offset bounce acc Hd Hi Ho Hs Hf; cbn [read_loop];
    destruct (Z.ltb_spec 0 size) as [Hpos|Hz]; try lia.
  1, 3: exists 0, s; unfold reach; rewrite slice_0, app_nil_r; split_and!; [done|apply allocated_refl|lia|lia|lia].
  destruct (round_geometry s i size offset Hd Hi Ho ltac:(lia)) as [G0 G]. cbv zeta.
  unfold DISK_SECTOR_SIZE. set (c := chunk_of i size offset) in *. destruct (Z.leb_spec c 0) as [Hc|Hc].
  { exists 0, s. rewrite slice_0, app_nil_r. rewrite (G0 Hc). split_and!; [done|apply allocated_refl|lia|lia|done]. }
  destruct (G Hc) as (G1 & G2 & G3 & G4 & G5 & G6 & G7 & G8 & G9 & G10 & sec & Hsec & Hlen & Hrd).
  set (o := Z.rem offset 512) in *. set (k := Z.to_nat (start (data i) + offset / 512)) in *. rewrite G8, G6.
  pose proof (io_len _ _ Hi) as Hil.
  assert (slice (Z.to_nat o) (Z.to_nat c) sec = slice (disk_pos i offset) (Z.to_nat c) (flat s)) as Esl.
  { rewrite G9. symmetry. apply slice_sector; [apply Hd|done|lia]. }
  assert (forall m, 0 <= m -> slice (disk_pos i offset) (Z.to_nat c) (flat s) ++ slice (disk_pos i (offset + c)) (Z.to_nat m) (flat s)
    = slice (disk_pos i offset) (Z.to_nat (c + m)) (flat s)) as Ejoin.
  { intros m Hm. rewrite G10, Z2Nat.inj_add by lia. by rewrite slice_app. }
  destruct ((o =? 0) && (c =? 512)) eqn:Efull.
  - mstep Hrd. apply andb_true_iff in Efull as [E0%Z.eqb_eq E5%Z.eqb_eq].
    destruct (IH s (size - c) (offset + c) bounce (acc ++ sec) Hd Hi ltac:(lia) ltac:(lia) ltac:(lia)) as (m & s' & E & A & Hm & Hall).
    exists (c + m), s'. rewrite E. split_and!; [|done|lia|lia|intros H; specialize (Hall H); lia].
    assert (sec = slice (disk_pos i offset) (Z.to_nat c) (flat s)) as E3.
    { rewrite <- Esl, E0, E5. unfold slice. change (drop (Z.to_nat 0) sec) with sec. rewrite firstn_all2; [done|lia]. }
    rewrite E3, <- app_assoc at 1. by rewrite Ejoin by lia.
  - destruct (get_bounce_run bounce s) as (b & s1 & Eb & A1 & Hb). mstep Eb. destruct b; cbn [negb].
    2: { exists 0, s1. rewrite slice_0, app_nil_r. split_and!; [done|done|lia|unfold reach in *; lia|intros H; by specialize (Hb H)]. }
    destruct (allocated_disk s s1 A1) as (Ed & _ & Eal). destruct A1 as (l & -> & Hl).
    assert (disk_read (Z.of_nat k) (set_allocs (fun _ => l) s) = Ok (sec, set_allocs (fun _ => l) s)) as Hrd1.
    { revert Hrd. unfold disk_read, disk_size. rewrite !bind_get. cbn [disk set_allocs]. unfold bind, ASSERT, lift.
      destruct (_ <? Z.of_nat (length (disk s))), (_ <? 2 ^ 28); cbn; try done. rewrite Nat2Z.id, Hsec. done. }
    mstep Hrd1.
    destruct (IH (set_allocs (fun _ => l) s) (size - c) (offset + c) true (acc ++ slice (Z.to_nat o) (Z.to_nat c) sec))
      as (m & s' & E & A & Hm & Hall); [done|by destruct Hi; split|lia|lia|lia|].
    exists (c + m), s'. rewrite E. change (flat (set_allocs (fun _ => l) s)) with (flat s).
    split_and!; [|eapply allocated_trans; [by exists l|done]|lia|lia|intros H; specialize (Hall (Eal H)); lia].
    rewrite <- app_assoc, Esl. by rewrite Ejoin by lia.
Qed.

Lemma buffer_slice_run buffer a n s :
  0 <= a -> 0 <= n -> (Z.to_nat a + Z.to_nat n <= length buffer)%nat ->
  buffer_slice buffer a n s = Ok (slice (Z.to_nat a) (Z.to_nat n) buffer, s).
Proof.
  intros Ha Hn H. unfold buffer_slice. rewrite length_slice, Z2Nat.id, Z.eqb_refl by lia. done.
Qed.

(** [s'] is [s] after some allocations and with another disk. *)
Definition disk_changed (s s' : fs) : Prop :=
  exists d l, s' = set_allocs (fun _ => l) (set_disk (fun _ => d) s) /\ length d = length (disk s) /\ (allocs s = [] -> l = []).

Lemma disk_changed_refl s : disk_changed s s.
Proof. exists (disk s), (allocs s). split; [by destruct s|done]. Qed.

Lemma disk_changed_trans s1 s2 s3 : disk_changed s1 s2 -> disk_changed s2 s3 -> disk_changed s1 s3.
Proof.
  intros (d1 & l1 & -> & L1 & H1) (d2 & l2 & -> & L2 & H2). exists d2, l2. split; [done|].
  cbn in *. split; [lia|]. intros E. by apply H2, H1.
Qed.

Lemma allocated_changed s s' : allocated s s' -> disk_changed s s'.
Proof. intros (l & -> & H). exists (disk s), l. by split; [destruct s|]. Qed.

(** Writing one sector. *)
Lemma disk_write_run s k sec bs :
  disk_ok s -> disk s !! k = Some sec -> length bs = 512%nat ->
  disk_write (Z.of_nat k) bs s = Ok (tt, set_disk (<[k := bs]>) s) /\
  disk_ok (set_disk (<[k := bs]>) s) /\ disk_changed s (set_disk (<[k := bs]>) s).
Proof.
  intros [Hd Hn] Hk Hb. pose proof (lookup_lt_Some _ _ _ Hk) as Hlt. split_and!.
  - unfold disk_write, disk_size. mnorm. rewrite !(proj2 (Z.ltb_lt _ _)) by lia. mnorm. by rewrite Nat2Z.id.
  - split; cbn; [by apply Forall_insert|by rewrite length_insert].
  - exists (<[k := bs]> (disk s)), (allocs s). split; [by destruct s|]. by rewrite length_insert.
Qed.

Lemma inode_ok_changed s s' i : disk_changed s s' -> inode_ok s i -> inode_ok s' i.
Proof.
  intros (d & l & -> & L & _) [I1 I2 I3]. split; try done. unfold disk_size in *. cbn. by rewrite L.
Qed.

(** The new contents of the sector that one round writes, and the flat disk
    after it. *)
Lemma write_round s k sec o bs :
  disk_ok s -> disk s !! k = Some sec -> (o + length bs <= 512)%nat ->
  exists s', disk_write (Z.of_nat k) (splice o bs sec) s = Ok (tt, s') /\ disk_ok s' /\ disk_changed s s' /\
    flat s' = splice (512 * k + o) bs (flat s) /\ allocs s' = allocs s.
Proof.
  intros Hd Hk Hb. assert (length sec = 512%nat) as Hs by (apply (Forall_lookup_1 _ _ _ _ (proj1 Hd) Hk)).
  destruct (disk_write_run s k sec (splice o bs sec) Hd Hk) as (E & H1 & H2); [rewrite length_splice; lia|].
  eexists. split_and!; [exact E|done|done| |done]. apply splice_sector; [apply Hd|done|done].
Qed.

Lemma length_flat s : disk_ok s -> length (flat s) = (512 * length (disk s))%nat.
Proof. intros [Hd _]. by apply length_concat_sectors. Qed.

Lemma splice_all {A} (bs xs : list A) : length bs = length xs -> splice 0 bs xs = bs.
Proof. intros H. unfold splice. cbn [take Nat.add]. rewrite H, drop_all. by rewrite app_nil_r. Qed.

Lemma reach_fits s i size offset :
  disk_ok s -> inode_ok s i -> 0 <= offset -> 0 < reach i size offset ->
  (disk_pos i offset + Z.to_nat (reach i size offset) <= length (flat s))%nat.
Proof.
  intros Hd [I1 I2 I3] Ho Hr. rewrite length_flat by done. unfold disk_pos, reach, disk_size in *.
  pose proof (Z.mul_div_le (length_ (data i) + 511) 512 ltac:(lia)).
  pose proof (Z.div_mod (length_ (data i) + 511) 512 ltac:(lia)). pose proof (Z.mod_pos_bound (length_ (data i) + 511) 512 ltac:(lia)). lia.
Qed.

Lemma write_loop_spec fuel s i buffer size offset written bounce :
  disk_ok s -> inode_ok s i -> 0 <= offset < 2 ^ 31 - 512 -> 0 <= size < 2 ^ 31 -> (Z.to_nat size <= fuel)%nat ->
  0 <= written -> written + size <= Z.of_nat (length buffer) ->
  exists m s', write_loop fuel i buffer size offset written bounce s = Ok (written + m, s') /\
    disk_ok s' /\ disk_changed s s' /\ 0 <= m <= reach i size offset /\
    (allocs s = [] -> m = reach i size offset /\ allocs s' = []) /\
    flat s' = splice (disk_pos i offset) (slice (Z.to_nat written) (Z.to_nat m) buffer) (flat s).
Proof.
  revert s size offset written bounce.
  induction fuel as [|fuel IH]; intros s size offset written bounce Hd Hi Ho Hs Hf Hw Hbuf; cbn [write_loop];
    destruct (Z.ltb_spec 0 size) as [Hpos|Hz]; try lia.
  1, 3: exists 0, s; unfold reach; rewrite slice_0, splice_nil, Z.add_0_r; split_and!; try done; try apply disk_changed_refl; try lia; (intros; split; [lia|done]).
  destruct (round_geometry s i size offset Hd Hi Ho ltac:(lia)) as [G0 G]. cbv zeta.
  unfold DISK_SECTOR_SIZE. set (c := chunk_of i size offset) in *. destruct (Z.leb_spec c 0) as [Hc|Hc].
  { exists 0, s. rewrite slice_0, splice_nil, Z.add_0_r. rewrite (G0 Hc). split_and!; try done; apply disk_changed_refl. }
  destruct (G Hc) as (G1 & G2 & G3 & G4 & G5 & G6 & G7 & G8 & G9 & G10 & sec & Hsec & Hlen & Hrd).
  set (o := Z.rem offset 512) in *. set (k := Z.to_nat (start (data i) + offset / 512)) in *. rewrite G8, G6.
  pose proof (io_len _ _ Hi) as Hil. set (bs := slice (Z.to_nat written) (Z.to_nat c) buffer).
  assert (length bs = Z.to_nat c) as Hbs by (unfold bs; rewrite length_slice; lia).
  (* the rest of the loop, from the state after this round *)
  assert (forall s1 b1, disk_ok s1 -> disk_changed s s1 -> flat s1 = splice (disk_pos i offset) bs (flat s) ->
    (allocs s = [] -> allocs s1 = []) ->
    exists m s', write_loop fuel i buffer (size - c) (offset + c) (written + c) b1 s1 = Ok (written + m, s') /\
      disk_ok s' /\ disk_changed s s' /\ 0 <= m <= reach i size offset /\
      (allocs s = [] -> m = reach i size offset /\ allocs s' = []) /\
      flat s' = splice (disk_pos i offset) (slice (Z.to_nat written) (Z.to_nat m) buffer) (flat s)) as Hrest.
  { intros s1 b1 Hd1 Hc1 Hf1 Ha1.
    destruct (IH s1 (size - c) (offset + c) (written + c) b1 Hd1 (inode_ok_changed _ _ _ Hc1 Hi)) as (m & s' & E & Hd' & Hc' & Hm & Hall & Hfl); [lia..|].
    exists (c + m), s'. rewrite E. split_and!; [by rewrite Z.add_assoc|done|by eapply disk_changed_trans|lia|lia| |].
    - intros H. destruct (Hall (Ha1 H)). split; [lia|done].
    - rewrite Hfl, Hf1, G10. replace (Z.to_nat c) with (length bs) at 1. pose proof (reach_fits s i size offset Hd Hi ltac:(lia) ltac:(lia)).
      assert (reach i (size - c) (offset + c) <= size - c) by (unfold reach; lia).
      rewrite splice_splice; [|rewrite length_slice; lia]. unfold bs.
      rewrite !Z2Nat.inj_add by lia. by rewrite <- slice_app. }
  destruct ((o =? 0) && (c =? 512)) eqn:Efull.
  - apply andb_true_iff in Efull as [E0%Z.eqb_eq E5%Z.eqb_eq].
    mstep (buffer_slice_run buffer written c s Hw ltac:(lia) ltac:(lia)). fold bs.
    destruct (write_round s k sec 0 bs Hd Hsec ltac:(lia)) as (s1 & E & Hd1 & Hc1 & Hf1 & Ha1).
    rewrite splice_all in E by lia. mstep E. apply Hrest; try done; [by rewrite G9, E0|by rewrite Ha1].
  - destruct (get_bounce_run bounce s) as (b & s1 & Eb & A1 & Hb). mstep Eb. pose proof (allocated_changed _ _ A1) as Hc1.
    destruct (allocated_disk s s1 A1) as (Ed & _ & Eal). destruct b; cbn [negb].
    2: { exists 0, s1. rewrite slice_0, splice_nil, Z.add_0_r. unfold flat, disk_ok in *. rewrite Ed.
         split_and!; try apply Hd; try done; [unfold reach in *; lia|intros H; by specialize (Hb H)..]. }
    assert ((0 <? o) || (c <? 512 - o) = true) as -> by (destruct (Z.eqb_spec o 0), (Z.eqb_spec c 512); cbn in Efull; lia).
    assert (disk_ok s1) as Hd1 by (unfold disk_ok; by rewrite Ed). rewrite <- Ed in Hsec.
    assert (disk_read (Z.of_nat k) s1 = Ok (sec, s1)) as Hrd1.
    { pose proof (lookup_lt_Some _ _ _ Hsec). destruct Hd1 as [_ Hn1]. unfold disk_read, disk_size. mnorm.
      rewrite !(proj2 (Z.ltb_lt _ _)) by lia. mnorm. rewrite Nat2Z.id. unfold lift. by rewrite Hsec. }
    mstep Hrd1. mstep (buffer_slice_run buffer written c s1 Hw ltac:(lia) ltac:(lia)). fold bs.
    destruct (write_round s1 k sec (Z.to_nat o) bs Hd1 Hsec ltac:(lia)) as (s2 & E & Hd2 & Hc2 & Hf2 & Ha2).
    mstep E. apply Hrest; try done; [by eapply disk_changed_trans| |by rewrite Ha2].
    rewrite Hf2, G9. unfold flat. by rewrite Ed.
Qed.

(** ** Operations on contents *)

Lemma slice_splice_in {A} a n o (xs f : list A) :
  (o + length xs <= n)%nat -> (a + n <= length f)%nat ->
  slice a n (splice (a + o) xs f) = splice o xs (slice a n f).
Proof.
  intros H1 H2. apply list_eq. intros i. destruct (decide (i < n)%nat) as [Hi|Hi].
  - rewrite lookup_slice by done. destruct (decide (o <= i < o + length xs)%nat).
    + rewrite !lookup_splice_in by (rewrite ?length_slice; lia). f_equal. lia.
    + rewrite !lookup_splice_out by (rewrite ?length_slice; lia). by rewrite lookup_slice.
  - rewrite !lookup_ge_None_2; [done| |unfold slice; rewrite length_take; lia].
    rewrite length_splice; rewrite length_slice; lia.
Qed.

Lemma slice_splice_out {A} a n b (xs f : list A) :
  (b + length xs <= length f)%nat -> (a + n <= b \/ b + length xs <= a)%nat ->
  slice a n (splice b xs f) = slice a n f.
Proof.
  intros H1 H2. apply list_eq. intros i. destruct (decide (i < n)%nat) as [Hi|Hi].
  - rewrite !lookup_slice by done. apply lookup_splice_out; lia.
  - rewrite !lookup_ge_None_2; [done|unfold slice; rewrite length_take; lia..].
Qed.

Lemma contents_fits s i : disk_ok s -> inode_ok s i ->
  (disk_pos i 0 + Z.to_nat (length_ (data i)) <= length (flat s))%nat.
Proof.
  intros Hd Hi. pose proof Hi as [I1 _ _]. destruct (decide (length_ (data i) = 0)) as [E|].
  - rewrite E. rewrite length_flat by done. destruct Hi as [_ I2 I3]. unfold disk_pos, disk_size in *. rewrite E in I3.
    change ((0 + 511) / 512) with 0 in I3. lia.
  - pose proof (reach_fits s i (length_ (data i)) 0 Hd Hi ltac:(lia) ltac:(unfold reach; lia)) as H. unfold reach in H.
    replace (Z.max 0 _) with (length_ (data i)) in H by lia. done.
Qed.

Lemma length_contents s i : disk_ok s -> inode_ok s i -> length (contents s i) = Z.to_nat (length_ (data i)).
Proof. intros Hd Hi. unfold contents. apply length_slice. by apply contents_fits. Qed.

Lemma disk_pos_add s i offset : inode_ok s i -> 0 <= offset -> disk_pos i offset = (disk_pos i 0 + Z.to_nat offset)%nat.
Proof. intros [_ I2 _] Ho. unfold disk_pos. lia. Qed.

Lemma slice_slice {A} a n o m (f : list A) : (o + m <= n)%nat -> slice o m (slice a n f) = slice (a + o) m f.
Proof.
  intros H. apply list_eq. intros i. destruct (decide (i < m)%nat).
  - rewrite !lookup_slice by lia. f_equal. lia.
  - rewrite !lookup_ge_None_2; [done|unfold slice; rewrite length_take; lia..].
Qed.

Lemma inode_read_run s p i size offset :
  disk_ok s -> inodes s !! p = Some i -> inode_ok s i -> 0 <= offset < 2 ^ 31 - 512 -> 0 <= size < 2 ^ 31 ->
  exists m s', inode_read_at p size offset s = Ok (slice (Z.to_nat offset) (Z.to_nat m) (contents s i), s') /\
    allocated s s' /\ 0 <= m <= reach i size offset /\ (allocs s = [] -> m = reach i size offset /\ s' = s).
Proof.
  intros Hd Hp Hi Ho Hs. unfold inode_read_at.
  assert (get_inode p s = Ok (i, s)) as Eg by (unfold get_inode; by rewrite Hp). mstep Eg.
  destruct (read_loop_spec (Z.to_nat size) s i size offset false [] Hd Hi Ho Hs ltac:(lia)) as (m & s' & E & A & Hm & Hall).
  exists m, s'. rewrite E. cbn [app]. split_and!; [|done|lia|lia|].
  - unfold contents. rewrite (disk_pos_add s i offset Hi) by lia. destruct (decide (m = 0)) as [->|]; [by rewrite !slice_0|].
    rewrite slice_slice; [done|]. unfold reach in Hm. lia.
  - intros H. split; [by apply Hall|]. destruct A as (l & -> & Hl). rewrite (Hl H). destruct s. cbn in *. by subst.
Qed.

Lemma inode_write_run s p i buffer size offset :
  disk_ok s -> inodes s !! p = Some i -> inode_ok s i -> deny_write_cnt i = 0 ->
  0 <= offset < 2 ^ 31 - 512 -> 0 <= size < 2 ^ 31 -> size <= Z.of_nat (length buffer) ->
  exists m s', inode_write_at p buffer size offset s = Ok (m, s') /\
    disk_ok s' /\ disk_changed s s' /\ 0 <= m <= reach i size offset /\
    (allocs s = [] -> m = reach i size offset /\ allocs s' = []) /\
    flat s' = splice (disk_pos i offset) (take (Z.to_nat m) buffer) (flat s) /\
    contents s' i = splice (Z.to_nat offset) (take (Z.to_nat m) buffer) (contents s i).
Proof.
  intros Hd Hp Hi Hz Ho Hs Hb. unfold inode_write_at.
  assert (get_inode p s = Ok (i, s)) as Eg by (unfold get_inode; by rewrite Hp). mstep Eg. rewrite Hz. cbn [Z.eqb negb].
  destruct (write_loop_spec (Z.to_nat size) s i buffer size offset 0 false Hd Hi Ho Hs ltac:(lia) ltac:(lia) ltac:(lia))
    as (m & s' & E & Hd' & Hc & Hm & Hall & Hf).
  rewrite Z.add_0_l in E. change (slice (Z.to_nat 0) (Z.to_nat m) buffer) with (take (Z.to_nat m) buffer) in Hf.
  exists m, s'. split_and!; try done; [lia|lia|]. unfold contents. rewrite Hf.
  destruct (decide (m = 0)) as [->|]; [change (take (Z.to_nat 0) buffer) with (@nil Z); by rewrite !splice_nil|].
  rewrite (disk_pos_add s i offset Hi) by lia. apply slice_splice_in.
  - rewrite length_take. unfold reach in Hm. lia.
  - by apply contents_fits.
Qed.

(** Two inodes whose sectors do not overlap. *)
Definition sectors_disjoint (i j : inode) : Prop :=
  512 * start (data i) + length_ (data i) <= 512 * start (data j) \/
  512 * start (data j) + length_ (data j) <= 512 * start (data i).

(** ** Properties *)

(** C11: An open inode behaves like one array of bytes: [inode_read_at] returns
    the bytes of the contents from [offset] on, up to the end of the file, and
    changes nothing; [inode_write_at] overwrites exactly those bytes, returns
    how many, leaves the contents of every other inode alone, and a read at
    the same place returns what was written.  This holds for every offset and
    size, across any number of sectors, aligned or not.  When memory for the
    bounce buffer runs out, the transfer is a prefix of this one. *)
Theorem inode_is_byte_array s p i size offset buffer :
  disk_ok s -> inodes s !! p = Some i -> inode_ok s i -> deny_write_cnt i = 0 ->
  0 <= offset < 2 ^ 31 - 512 -> 0 <= size < 2 ^ 31 -> size <= Z.of_nat (length buffer) ->
  let n := reach i size offset in
  (exists m s', inode_read_at p size offset s = Ok (slice (Z.to_nat offset) (Z.to_nat m) (contents s i), s') /\
     m <= n /\ disk s' = disk s /\ inodes s' = inodes s /\ (allocs s = [] -> m = n /\ s' = s)) /\
  (exists m s', inode_write_at p buffer size offset s = Ok (m, s') /\ 0 <= m <= n /\ inodes s' = inodes s /\
     contents s' i = splice (Z.to_nat offset) (take (Z.to_nat m) buffer) (contents s i) /\
     (forall j, inode_ok s j -> sectors_disjoint i j -> contents s' j = contents s j) /\
     (allocs s = [] -> m = n /\ inode_read_at p m offset s' = Ok (take (Z.to_nat m) buffer, s'))).
Proof.
  intros Hd Hp Hi Hz Ho Hs Hb n. split.
  - destruct (inode_read_run s p i size offset Hd Hp Hi Ho Hs) as (m & s' & E & A & Hm & Hall).
    destruct (allocated_disk _ _ A) as (? & ? & _). exists m, s'. split_and!; try done. lia.
  - destruct (inode_write_run s p i buffer size offset Hd Hp Hi Hz Ho Hs Hb) as (m & s' & E & Hd' & Hc & Hm & Hall & Hf & Hct).
    assert (inodes s' = inodes s) as Ein by (destruct Hc as (d & l & -> & _); done).
    pose proof (inode_ok_changed _ _ _ Hc Hi) as Hi'. exists m, s'. split_and!; try done; [lia|lia| |].
    + intros j Hj Hdis. unfold contents. rewrite Hf. destruct (decide (m = 0)) as [->|]; [change (take (Z.to_nat 0) buffer) with (@nil Z); by rewrite splice_nil|].
      pose proof (reach_fits s i size offset Hd Hi ltac:(lia) ltac:(lia)) as Hfit. fold n in Hfit.
      destruct Hj as [J1 J2 _], Hi as [I1 I2 _]. unfold n, reach in *.
      apply slice_splice_out; rewrite length_take; unfold disk_pos, sectors_disjoint in *; lia.
    + intros H. destruct (Hall H) as [Em Ea]. assert (m <= size) by (unfold reach in Hm; lia). split; [done|].
      destruct (inode_read_run s' p i m offset Hd' ltac:(by rewrite Ein) Hi' Ho ltac:(unfold reach in Hm; lia)) as (m2 & s2 & E2 & _ & _ & H2).
      destruct (H2 Ea) as [-> ->]. rewrite E2, Hct. do 2 f_equal.
      assert (reach i m offset = m) as -> by (rewrite Em; unfold reach; lia).
      assert (length (take (Z.to_nat m) buffer) = Z.to_nat m) as Hl by (rewrite length_take; lia).
      destruct (decide (m = 0)) as [->|]; [done|].
      rewrite <- Hl at 1. apply slice_splice. rewrite Hl, length_contents by done. unfold reach in Hm. lia.
Qed.

(** A disk of four sectors and a file of 600 bytes in the last two. *)
Definition demo_inode : inode := Inode 1 1 false 0 (InodeDisk 2 600 INODE_MAGIC).
Definition demo_fs : fs :=
  FS [replicate 512 9; replicate 512 9; replicate 512 1; replicate 512 2] {[ 64 := demo_inode ]} [64] ∅ ∅ 100 []
    (Bitmap 4 [15]) 0.

Lemma demo_fs_ok : disk_ok demo_fs /\ inodes demo_fs !! 64 = Some demo_inode /\ inode_ok demo_fs demo_inode.
Proof.
  split; [split; [|by vm_compute]|split; [done|split; by vm_compute]].
  repeat (apply Forall_cons; split; [reflexivity|]). by apply Forall_nil.
Qed.

Lemma inode_is_byte_array_witness :
  exists m s', inode_write_at 64 [5; 6; 7] 3 511 demo_fs = Ok (m, s') /\ m = 3 /\
    inode_read_at 64 3 511 s' = Ok ([5; 6; 7], s').
Proof.
  destruct demo_fs_ok as (H1 & H2 & H3).
  destruct (inode_is_byte_array demo_fs 64 demo_inode 3 511 [5; 6; 7] H1 H2 H3) as [_ (m & s' & E & _ & _ & _ & _ & H)];
    [reflexivity|lia|lia|cbn; lia|].
  destruct (H eq_refl) as [Hm Hr]. change (reach demo_inode 3 511) with 3 in Hm. subst m.
  exists 3, s'. split; [exact E|]. split; [reflexivity|exact Hr].
Defined.
