(* ===== verification/FreeMap.v ===== *)
(** * Free map, inode life cycle and files (filesys/free-map.c, inode.c, file.c)

    The functions that create, open and close inodes, the map of free sectors
    and its file, and the [struct file] objects.  Null pointers are [NULL];
    [free_map_file] is null while the free map file is not open. *)

From S2P Require Import Prelude Bitmap Inode.

Definition FREE_MAP_SECTOR : Z := 0.
Definition ROOT_DIR_SECTOR : Z := 1.

(** ** Files, reading and writing (file.c) *)

Definition get_file (f : Z) : M fs file := fun s => let! x := deref (files s !! f) in Ok (x, s).
Definition put_file (f : Z) (x : file) : M fs unit := modify (set_files (<[f := x]>)).

Definition file_read_at (f size file_ofs : Z) : M fs (list Z) :=
  x ← get_file f; inode_read_at (f_inode x) size file_ofs.
Definition file_write_at (f : Z) (buffer : list Z) (size file_ofs : Z) : M fs Z :=
  x ← get_file f; inode_write_at (f_inode x) buffer size file_ofs.
Definition file_read (f size : Z) : M fs (list Z) :=
  x ← get_file f;
  bs ← inode_read_at (f_inode x) size (f_pos x);
  put_file f (File (f_inode x) (s32 (f_pos x + Z.of_nat (length bs))) (deny_write x));; ret bs.
Definition file_write (f : Z) (buffer : list Z) (size : Z) : M fs Z :=
  x ← get_file f;
  n ← inode_write_at (f_inode x) buffer size (f_pos x);
  put_file f (File (f_inode x) (s32 (f_pos x + n)) (deny_write x));; ret n.
Definition file_length (f : Z) : M fs Z :=
  ASSERT (negb (f =? NULL));; x ← get_file f; inode_length (f_inode x).
Definition file_seek (f new_pos : Z) : M fs unit :=
  ASSERT (negb (f =? NULL));; ASSERT (0 <=? new_pos);;
  x ← get_file f; put_file f (File (f_inode x) new_pos (deny_write x)).
Definition file_tell (f : Z) : M fs Z := ASSERT (negb (f =? NULL));; x ← get_file f; ret (f_pos x).
Definition file_get_inode (f : Z) : M fs Z := x ← get_file f; ret (f_inode x).

Definition file_deny_write (f : Z) : M fs unit :=
  ASSERT (negb (f =? NULL));;
  x ← get_file f;
  if negb (deny_write x) then
    put_file f (File (f_inode x) (f_pos x) true);; inode_deny_write (f_inode x)
  else ret tt.
Definition file_allow_write (f : Z) : M fs unit :=
  ASSERT (negb (f =? NULL));;
  x ← get_file f;
  if deny_write x then
    put_file f (File (f_inode x) (f_pos x) false);; inode_allow_write (f_inode x)
  else ret tt.

(** ** The free map (free-map.c) *)

Definition on_free_map {A} (f : M bitmap A) : M fs A := fun s =>
  let! (a, b) := f (free_map s) in Ok (a, set_free_map b s).

(** [bitmap_write (free_map, free_map_file)]. *)
Definition free_map_write : M fs bool :=
  s ← get;
  let size := s32 (byte_cnt (bit_cnt (free_map s))) in
  n ← file_write_at (free_map_file s) (bitmap_write_data (free_map s)) size 0;
  ret (bitmap_write (free_map s) n).
(** [bitmap_read (free_map, free_map_file)]. *)
Definition free_map_read : M fs bool :=
  s ← get;
  if 0 <? bit_cnt (free_map s) then
    got ← file_read_at (free_map_file s) (s32 (byte_cnt (bit_cnt (free_map s)))) 0;
    on_free_map (bitmap_read got)
  else ret true.

(** [free_map_allocate]: the first sector, or [None]. *)
Definition free_map_allocate (cnt : Z) : M fs (option Z) :=
  idx ← on_free_map (bitmap_scan_and_flip 0 cnt false);
  let sector := u32 idx in
  s ← get;
  sector ← (if negb (sector =? BITMAP_ERROR) && negb (free_map_file s =? NULL) then
              ok ← free_map_write;
              if negb ok then on_free_map (bitmap_set_multiple sector cnt false);; ret BITMAP_ERROR
              else ret sector
            else ret sector);
  ret (if negb (sector =? BITMAP_ERROR) then Some sector else None).

Definition free_map_release (sector cnt : Z) : M fs unit :=
  all ← on_free_map (bitmap_all sector cnt);
  ASSERT all;;
  on_free_map (bitmap_set_multiple sector cnt false);;
  free_map_write;; ret tt.

(** [free_map_init]: the words are those of the storage [malloc] returned. *)
Definition free_map_init (words : list Z) : M fs unit :=
  s ← get;
  m1 ← alloc; m2 ← alloc;
  b ← lift (bitmap_create (disk_size s) m1 (if m2 then Some words else None));
  match b with
  | None => lift Panic
  | Some b =>
      modify (set_free_map b);;
      on_free_map (bitmap_mark FREE_MAP_SECTOR);; on_free_map (bitmap_mark ROOT_DIR_SECTOR)
  end.

(** ** Inode life cycle (inode.c) *)

Definition inode_init : M fs unit := modify (set_open (fun _ => [])).

(** [for (i = 0; i < sectors; i++) disk_write (start + i, zeros)]. *)
Fixpoint zero_sectors (n : nat) (sec : Z) : M fs unit :=
  match n with
  | O => ret tt
  | S n => disk_write (u32 sec) (replicate 512 0);; zero_sectors n (sec + 1)
  end.

Definition inode_create (sector length : Z) : M fs bool :=
  ASSERT (0 <=? length);;
  ok ← alloc;
  if negb ok then ret false
  else
    let sectors := bytes_to_sectors length in
    r ← free_map_allocate sectors;
    match r with
    | Some start =>
        disk_write sector (encode_inode (InodeDisk start length INODE_MAGIC));;
        zero_sectors (Z.to_nat sectors) start;; ret true
    | None => ret false
    end.

(** The search in [open_inodes]. *)
Fixpoint find_open (l : list Z) (sec : Z) : M fs (option Z) :=
  match l with
  | [] => ret None
  | p :: l => i ← get_inode p; if sector i =? sec then ret (Some p) else find_open l sec
  end.

Definition inode_open (sec : Z) : M fs Z :=
  s ← get;
  r ← find_open (open_inodes s) sec;
  match r with
  | Some p => inode_reopen p
  | None =>
      ok ← alloc;
      if negb ok then ret NULL
      else
        p ← new_addr;
        modify (set_open (cons p));;
        raw ← disk_read sec;
        put_inode p (Inode sec 1 false 0 (decode_inode raw));; ret p
  end.

Definition inode_close (p : Z) : M fs unit :=
  if p =? NULL then ret tt
  else
    i ← get_inode p;
    let n := s32 (open_cnt i - 1) in
    put_inode p (Inode (sector i) n (removed i) (deny_write_cnt i) (data i));;
    if n =? 0 then
      s ← get;
      (if bool_decide (p ∈ open_inodes s)
       then modify (set_open (List.filter (fun q => negb (q =? p)))) else lift Fault);;
      (if removed i then
         free_map_release (sector i) 1;;
         free_map_release (start (data i)) (bytes_to_sectors (length_ (data i)))
       else ret tt);;
      modify (set_inodes (delete p))
    else ret tt.

(** ** Opening and closing files (file.c, free-map.c) *)

Definition file_open (p : Z) : M fs Z :=
  ok ← alloc;
  if negb (p =? NULL) && ok then
    f ← new_addr; put_file f (File p 0 false);; ret f
  else inode_close p;; ret NULL.

Definition file_reopen (f : Z) : M fs Z :=
  x ← get_file f; p ← inode_reopen (f_inode x); file_open p.

Definition file_duplicate (f : Z) : M fs Z :=
  x ← get_file f;
  p ← inode_reopen (f_inode x);
  nf ← file_open p;
  (if negb (nf =? NULL) then
     y ← get_file nf;
     put_file nf (File (f_inode y) (f_pos x) (deny_write y));;
     if deny_write x then file_deny_write nf else ret tt
   else ret tt);;
  ret nf.

Definition file_close (f : Z) : M fs unit :=
  if f =? NULL then ret tt
  else
    file_allow_write f;;
    x ← get_file f;
    inode_close (f_inode x);;
    modify (set_files (delete f)).

Definition free_map_open : M fs unit :=
  p ← inode_open FREE_MAP_SECTOR;
  f ← file_open p;
  modify (set_free_map_file f);;
  if f =? NULL then lift Panic
  else ok ← free_map_read; if negb ok then lift Panic else ret tt.

(** The pointer itself is left in [free_map_file]. *)
Definition free_map_close : M fs unit := s ← get; file_close (free_map_file s).

Definition free_map_create : M fs unit :=
  s ← get;
  ok ← inode_create FREE_MAP_SECTOR (s32 (bitmap_file_size (free_map s)));
  if negb ok then lift Panic
  else
    p ← inode_open FREE_MAP_SECTOR;
    f ← file_open p;
    modify (set_free_map_file f);;
    if f =? NULL then lift Panic
    else ok ← free_map_write; if negb ok then lift Panic else ret tt.

(** ** The free map and its file *)

(** The free map is well formed, and its file, when it is open, is an inode
    with one byte per eight sectors. *)
Record fmap_file (s : fs) (i : inode) : Prop := {
  ff_file : exists f, files s !! free_map_file s = Some f /\ inodes s !! f_inode f = Some i;
  ff_ok : inode_ok s i;
  ff_deny : deny_write_cnt i = 0;
  ff_length : length_ (data i) = byte_cnt (bit_cnt (free_map s))
}.
Record fmap_ok (s : fs) (o : option inode) : Prop := {
  fo_wf : wf (free_map s);
  fo_small : bit_cnt (free_map s) <= 2 ^ 28;
  fo_disk : disk_ok s;
  fo_file : match o with
            | None => free_map_file s = NULL
            | Some i => free_map_file s <> NULL /\ fmap_file s i
            end
}.

Lemma byte_cnt_spec n : 0 <= n <= 2 ^ 28 -> byte_cnt n = 8 * ((n + 63) / 64) /\ 0 <= byte_cnt n < 2 ^ 26.
Proof.
  intros Hn. unfold byte_cnt. rewrite elem_cnt_spec by (unfold SIZE_MAX; lia).
  pose proof (Z.div_le_upper_bound (n + 63) 64 (2 ^ 23 - 1) ltac:(lia) ltac:(lia)). pose proof (Z.div_pos (n + 63) 64 ltac:(lia) ltac:(lia)).
  rewrite wrapu_id by (unfold is_u; lia). lia.
Qed.

Lemma length_write_data b : wf b -> bit_cnt b <= 2 ^ 28 -> Z.of_nat (length (bitmap_write_data b)) = byte_cnt (bit_cnt b).
Proof.
  intros W Hb. pose proof (wf_cnt _ W). unfold bitmap_write_data. rewrite length_words_bytes.
  destruct (byte_cnt_spec (bit_cnt b)) as [-> _]; [lia|]. pose proof (wf_len _ W) as Hl. rewrite elem_cnt_spec in Hl by done. lia.
Qed.

Lemma on_free_map_run {A} (f : M bitmap A) s a b : f (free_map s) = Ok (a, b) -> on_free_map f s = Ok (a, set_free_map b s).
Proof. intros E. unfold on_free_map. by rewrite E. Qed.

(** Only the memory and the contents of the free map file change. *)
Definition fmap_changed (s s' : fs) (o : option inode) : Prop :=
  inodes s' = inodes s /\ files s' = files s /\ dirs s' = dirs s /\ open_inodes s' = open_inodes s /\ free_map_file s' = free_map_file s /\
  disk_size s' = disk_size s /\ next_addr s' = next_addr s /\ (allocs s = [] -> allocs s' = []) /\
  forall j, inode_ok s j -> match o with None => True | Some i => sectors_disjoint i j end -> contents s' j = contents s j.

Lemma fmap_changed_set s b o : fmap_changed s (set_free_map b s) o.
Proof. by repeat split. Qed.

Lemma fmap_changed_trans s1 s2 s3 o : fmap_changed s1 s2 o -> fmap_changed s2 s3 o -> fmap_changed s1 s3 o.
Proof.
  intros (A1 & A2 & A3 & A4 & A5 & A6 & A7 & A8 & A9) (B1 & B2 & B3 & B4 & B5 & B6 & B7 & B8 & B9). split_and!; try congruence; [by auto|].
  intros j Hj Hd. rewrite B9, A9; [done|done|done| |done]. destruct Hj as [J1 J2 J3]. split; [done|done|]. by rewrite A6.
Qed.

Lemma fmap_ok_set s b o : fmap_ok s o -> wf b -> bit_cnt b = bit_cnt (free_map s) -> fmap_ok (set_free_map b s) o.
Proof.
  intros [F1 F2 F3 F4] W Hb. split; [done|cbn; by rewrite Hb|done|]. destruct o as [i|]; [|done]. destruct F4 as [N [G1 G2 G3 G4]].
  split; [done|]. split; [done|by destruct G2; split|done|cbn; by rewrite Hb].
Qed.

Lemma fmap_ok_changed s s' i : fmap_ok s (Some i) -> disk_changed s s' -> disk_ok s' -> fmap_ok s' (Some i).
Proof.
  intros [F1 F2 F3 [N [G1 G2 G3 G4]]] Hc Hd. pose proof (inode_ok_changed _ _ _ Hc G2). destruct Hc as (d & l & -> & _).
  split; [done|done|done|]. split; [done|]. by split.
Qed.

(** Writing the free map: all of it, or, without memory, a part. *)
Lemma free_map_write_run s i : fmap_ok s (Some i) ->
  exists b s', free_map_write s = Ok (b, s') /\ fmap_ok s' (Some i) /\ free_map s' = free_map s /\ fmap_changed s s' (Some i) /\
    (allocs s = [] -> b = true) /\ (b = true -> contents s' i = bitmap_write_data (free_map s)).
Proof.
  intros F. pose proof F as [F1 F2 F3 [N [(f & Hf & Hi) G2 G3 G4]]]. pose proof (length_write_data _ F1 F2) as Hl.
  destruct (byte_cnt_spec (bit_cnt (free_map s))) as [_ Hb]; [pose proof (wf_cnt _ F1); lia|]. unfold free_map_write. mnorm.
  rewrite wraps_id by (unfold is_s; lia). set (size := byte_cnt (bit_cnt (free_map s))) in *.
  assert (get_file (free_map_file s) s = Ok (f, s)) as Eg by (unfold get_file; by rewrite Hf). unfold file_write_at. rewrite bind_bind. mstep Eg.
  destruct (inode_write_run s (f_inode f) i (bitmap_write_data (free_map s)) size 0 F3 Hi G2 G3) as (m & s' & E & H1 & H2 & H3 & H4 & H5 & H6); [lia|lia|lia|].
  mstep E. unfold bitmap_write. rewrite wraps_id by (unfold is_s; lia). fold size.
  assert (reach i size 0 = size) as Er by (unfold reach; lia). rewrite Er in *.
  exists (m =? size), s'. split_and!; [done|by eapply fmap_ok_changed|by destruct H2 as (d & l & -> & _)| |intros Ha; destruct (H4 Ha) as [-> _]; apply Z.eqb_refl|].
  - assert (allocs s = [] -> allocs s' = []) as Ha by (intros Ha; by apply H4).
    assert (disk_size s' = disk_size s) as Ed by (destruct H2 as (d & l & -> & Hd & _); unfold disk_size; cbn; by rewrite Hd).
    split_and!; try done; try (by destruct H2 as (d & l & -> & _)).
    intros j Hj Hdis. unfold contents. rewrite H5. pose proof (contents_fits s i F3 G2) as Hfit.
    pose proof (io_start _ _ G2). pose proof (io_start _ _ Hj). pose proof (io_len _ _ Hj). unfold disk_pos, sectors_disjoint in *.
    apply slice_splice_out; rewrite length_take; lia.
  - intros ->%Z.eqb_eq. rewrite H6, take_ge by lia. change (Z.to_nat 0) with 0%nat. apply splice_all.
    rewrite Inode.length_contents by done. lia.
Qed.

(** A bitmap with a run set and cleared again has its old bits. *)
Lemma flip_back b b1 b2 r cnt : run_of b r cnt false -> updated b b1 (in_range r cnt) (fun _ => true) ->
  updated b1 b2 (in_range r cnt) (fun _ => false) -> forall i, 0 <= i -> bit b2 i = bit b i.
Proof.
  intros Hr [_ _ U] [_ _ V] i Hi. rewrite V, U by done. unfold in_range. destruct (Z.leb_spec r i), (Z.ltb_spec i (r + cnt)); cbn; try done.
  symmetry. apply Hr. lia.
Qed.

(** What an allocation of [cnt] sectors can do. *)
Definition allocates (s : fs) (o : option inode) (cnt : Z) (r : option Z) (s' : fs) : Prop :=
  fmap_ok s' o /\ fmap_changed s s' o /\ bit_cnt (free_map s') = bit_cnt (free_map s) /\
  match r with
  | Some sec => 0 <= sec /\ sec + cnt <= bit_cnt (free_map s) /\ run_of (free_map s) sec cnt false /\
      (forall k, 0 <= k < sec -> ~ run_of (free_map s) k cnt false) /\
      (forall k, 0 <= k -> bit (free_map s') k = if in_range sec cnt k then true else bit (free_map s) k) /\
      (forall i, o = Some i -> contents s' i = bitmap_write_data (free_map s'))
  | None => (forall k, 0 <= k -> bit (free_map s') k = bit (free_map s) k) /\
      (o = None \/ allocs s = [] -> forall k, 0 <= k -> k + cnt <= bit_cnt (free_map s) -> ~ run_of (free_map s) k cnt false)
  end.

Lemma free_map_allocate_run s o cnt : fmap_ok s o -> 0 <= cnt ->
  exists r s', free_map_allocate cnt s = Ok (r, s') /\ allocates s o cnt r s'.
Proof.
  intros F Hc. pose proof F as [F1 F2 F3 F4]. pose proof (wf_cnt _ F1) as Hw. unfold SIZE_MAX in Hw. unfold allocates.
  unfold free_map_allocate.
  destruct (bitmap_scan_and_flip_spec (free_map s) 0 cnt false F1 Hc ltac:(lia)) as (r & b1 & E & Hfr & U).
  mstep (on_free_map_run _ s _ _ E). set (s1 := set_free_map b1 s). pose proof (fmap_ok_set s b1 o F (up_wf _ _ _ _ U) (up_cnt _ _ _ _ U)) as F'. fold s1 in F'.
  destruct Hfr as [[-> Hno]|(R1 & R2 & R3 & R4)].
  { change (u32 BITMAP_ERROR =? BITMAP_ERROR) with true. cbn [negb andb]. mnorm. exists None, s1.
    split_and!; [done|done|apply fmap_changed_set|apply U| |by intros _]. intros k Hk. cbn. by rewrite (up_bit _ _ _ _ U) by done. }
  assert (u32 r = r) as -> by (apply wrapu_id; unfold is_u; lia). assert ((r =? BITMAP_ERROR) = false) as Ene by (apply Z.eqb_neq; unfold BITMAP_ERROR, SIZE_MAX; lia).
  rewrite Ene in *. cbn [negb andb] in U |- *. change (free_map_file s1) with (free_map_file s). destruct o as [i|].
  + destruct F4 as [N _]. rewrite (proj2 (Z.eqb_neq _ _) N). cbn [negb].
    destruct (free_map_write_run s1 i F') as (b & s2 & E2 & F2' & Em & C2 & Ha & Hct). rewrite bind_bind. mstep E2. destruct b; cbn [negb]; mnorm.
    * rewrite Ene. cbn [negb]. exists (Some r), s2. rewrite Em. split_and!; [done|done|by eapply fmap_changed_trans; [apply fmap_changed_set|]|apply U| |done|done|done|apply U|].
      -- lia.
      -- intros i' [= <-]. rewrite Hct by done. done.
    * destruct (bitmap_set_multiple_spec (free_map s2) r cnt false) as (b3 & E3 & U3); [by rewrite Em; apply U|lia|done|rewrite Em; cbn; rewrite (up_cnt _ _ _ _ U); lia|].
      mstep (on_free_map_run _ s2 _ _ E3). change (BITMAP_ERROR =? BITMAP_ERROR) with true. cbn [negb]. exists None, (set_free_map b3 s2).
      rewrite Em in U3. split_and!; [done|apply fmap_ok_set; [done|apply U3|rewrite Em; apply U3]| |cbn; rewrite (up_cnt _ _ _ _ U3); apply U| |].
      -- eapply fmap_changed_trans; [by eapply fmap_changed_trans; [apply fmap_changed_set|]|apply fmap_changed_set].
      -- intros k Hk. cbn. by apply (flip_back (free_map s) b1 b3 r cnt).
      -- intros [?|Hal]; [done|]. by specialize (Ha Hal).
  + rewrite F4. change (NULL =? NULL) with true. cbn [negb]. mnorm. rewrite Ene. cbn [negb].
    exists (Some r), s1. split_and!; [done|done|apply fmap_changed_set|apply U|lia|done|done|done|apply U|done].
Qed.

Lemma free_map_release_run s i sec n : fmap_ok s (Some i) -> 0 <= sec -> 0 <= n -> sec + n <= bit_cnt (free_map s) ->
  (run_of (free_map s) sec n true -> exists s', free_map_release sec n s = Ok (tt, s') /\ fmap_ok s' (Some i) /\ fmap_changed s s' (Some i) /\ bit_cnt (free_map s') = bit_cnt (free_map s) /\
     (forall k, 0 <= k -> bit (free_map s') k = if in_range sec n k then false else bit (free_map s) k) /\
     (allocs s = [] -> contents s' i = bitmap_write_data (free_map s'))) /\
  (~ run_of (free_map s) sec n true -> free_map_release sec n s = Panic).
Proof.
  intros F Hs Hn Hr. pose proof F as [F1 F2 F3 F4].
  unfold free_map_release.
  destruct (bitmap_contains_spec (free_map s) sec n false F1 Hs Hn Hr) as (c & E & Hc').
  assert (bitmap_all sec n (free_map s) = Ok (negb c, free_map s)) as Ea by (unfold bitmap_all; by mstep E).
  mstep (on_free_map_run _ s _ _ Ea). assert (set_free_map (free_map s) s = s) as -> by (by destruct s). cbn [negb] in Hc'. split.
  + intros Hrun. apply Hc' in Hrun as ->. cbn [negb]. mnorm.
    destruct (bitmap_set_multiple_spec (free_map s) sec n false F1 Hs Hn Hr) as (b1 & E1 & U). mstep (on_free_map_run _ s _ _ E1).
    pose proof (fmap_ok_set s b1 (Some i) F (up_wf _ _ _ _ U) (up_cnt _ _ _ _ U)) as F'.
    destruct (free_map_write_run _ i F') as (b & s2 & E2 & F2' & Em & C2 & Ha & Hct). mstep E2. exists s2. rewrite Em.
    split_and!; [done|done|by eapply fmap_changed_trans; [apply fmap_changed_set|]|apply U|apply U|]. intros Hal. by rewrite Hct by by apply Ha.
  + intros Hno. destruct c; [done|]. by destruct Hno; apply Hc'.
Qed.

(** ** Properties *)

(** [free_map_allocate] takes the first group of free sectors that is large
    enough: it marks exactly these sectors, and when the free map file is open
    the file then holds the new map; when there is no such group, or the map
    cannot be written, no bit has changed.  [free_map_release] frees exactly
    the given sectors and writes the map, and panics unless all of them were
    in use.  Neither changes any other file. *)
Theorem free_map_first_fit s o cnt sec n :
  fmap_ok s o -> 0 <= cnt -> 0 <= sec -> 0 <= n -> sec + n <= bit_cnt (free_map s) ->
  (exists r s', free_map_allocate cnt s = Ok (r, s') /\ allocates s o cnt r s') /\
  (forall i, o = Some i ->
     (run_of (free_map s) sec n true -> exists s', free_map_release sec n s = Ok (tt, s') /\ fmap_ok s' o /\ fmap_changed s s' o /\ bit_cnt (free_map s') = bit_cnt (free_map s) /\
        (forall k, 0 <= k -> bit (free_map s') k = if in_range sec n k then false else bit (free_map s) k) /\
        (allocs s = [] -> contents s' i = bitmap_write_data (free_map s'))) /\
     (~ run_of (free_map s) sec n true -> free_map_release sec n s = Panic)).
Proof.
  intros F Hc Hs Hn Hr. split; [by apply free_map_allocate_run|]. intros i ->. by apply free_map_release_run.
Qed.

(** A disk of four sectors, the last three in use, and no free map file. *)
Lemma demo_fmap_ok : fmap_ok (set_free_map (Bitmap 4 [14]) demo_fs) None.
Proof.
  split; [split; [by vm_compute|reflexivity|repeat constructor; by vm_compute]|cbn; lia| |reflexivity].
  apply demo_fs_ok.
Qed.

Lemma free_map_first_fit_witness : exists s', free_map_allocate 1 (set_free_map (Bitmap 4 [14]) demo_fs) = Ok (Some 0, s').
Proof.
  destruct (free_map_first_fit (set_free_map (Bitmap 4 [14]) demo_fs) None 1 0 0 demo_fmap_ok) as [(r & s' & E & _) _]; [lia|lia|lia|cbn; lia|].
  exists s'. rewrite E. revert E. vm_compute. intros [= <- _]. reflexivity.
Defined.
