(* ===== verification/FileSpec.v ===== *)
(** * The life cycle of inodes, and denied writes

    [itable] is the invariant of the table of open inodes.  Opening, reopening
    and closing keep it; an inode is in memory once however often it is open,
    and the last close of a removed inode gives its sectors back to the free
    map.  The second part of the file is about [deny_write]. *)

From S2P Require Import Prelude Bitmap Inode FreeMap.

Record itable (s : fs) : Prop := {
  it_open p : p ∈ open_inodes s <-> is_Some (inodes s !! p);
  it_nodup : NoDup (open_inodes s);
  it_sector p q i j : inodes s !! p = Some i -> inodes s !! q = Some j -> sector i = sector j -> p = q;
  it_cnt p i : inodes s !! p = Some i -> 0 < open_cnt i < 2 ^ 31 /\ 0 <= deny_write_cnt i <= open_cnt i;
  it_fresh p : is_Some (inodes s !! p) -> 0 < p < next_addr s;
  it_next : 0 < next_addr s
}.

Lemma get_inode_run s p i : inodes s !! p = Some i -> get_inode p s = Ok (i, s).
Proof. intros H. unfold get_inode. by rewrite H. Qed.

Lemma find_open_run s sec l : (forall p, p ∈ l -> is_Some (inodes s !! p)) ->
  exists r, find_open l sec s = Ok (r, s) /\
    match r with
    | Some p => p ∈ l /\ exists i, inodes s !! p = Some i /\ sector i = sec
    | None => forall p i, p ∈ l -> inodes s !! p = Some i -> sector i <> sec
    end.
Proof.
  induction l as [|p l IH]; intros Hl; cbn [find_open].
  { exists None. split; [done|]. intros p i ?%elem_of_nil. done. }
  destruct (Hl p) as [i Hi]; [by left|]. mstep (get_inode_run s p i Hi). destruct (Z.eqb_spec (sector i) sec) as [E|Hne].
  - exists (Some p). split; [done|]. split; [by left|eauto].
  - destruct IH as (r & Er & Hr); [intros q Hq; apply Hl; by right|]. exists r. split; [done|]. destruct r as [q|].
    + destruct Hr as [Hq Hr]. split; [by right|done].
    + intros q j [->|Hq]%elem_of_cons Hj; [congruence|by apply (Hr q)].
Qed.

(** Changing the counters of one inode. *)
Lemma itable_put s p i i' : itable s -> inodes s !! p = Some i -> sector i' = sector i ->
  0 < open_cnt i' < 2 ^ 31 -> 0 <= deny_write_cnt i' <= open_cnt i' -> itable (set_inodes (<[p := i']>) s).
Proof.
  intros [T1 T2 T3 T4 T5 T6] Hi Es Ho Hd. split; cbn [open_inodes inodes next_addr set_inodes]; [| | | | |done].
  - intros q. rewrite T1, lookup_insert_is_Some'. split; [by right|]. intros [<-|?]; [eauto|done].
  - done.
  - intros q1 q2 i1 i2 H1 H2 E12.
    apply lookup_insert_Some in H1 as [[<- <-]|[N1 H1]]; apply lookup_insert_Some in H2 as [[<- <-]|[N2 H2]]; [done| | |by eapply T3].
    + apply (T3 p q2 i i2); congruence.
    + apply (T3 q1 p i1 i); congruence.
  - intros q j [[<- <-]|[_ H]]%lookup_insert_Some; [done|by eapply T4].
  - intros q [<-|?]%lookup_insert_is_Some'; apply T5; eauto.
Qed.

Definition reopened (i : inode) : inode := Inode (sector i) (open_cnt i + 1) (removed i) (deny_write_cnt i) (data i).
Definition closed (i : inode) : inode := Inode (sector i) (open_cnt i - 1) (removed i) (deny_write_cnt i) (data i).

Lemma inode_reopen_run s p i : itable s -> inodes s !! p = Some i -> open_cnt i < 2 ^ 31 - 1 ->
  inode_reopen p s = Ok (p, set_inodes (<[p := reopened i]>) s) /\ itable (set_inodes (<[p := reopened i]>) s).
Proof.
  intros T Hi Hc. destruct (it_cnt _ T _ _ Hi) as [C1 C2]. destruct (it_fresh _ T p) as [P _]; [eauto|]. unfold inode_reopen.
  destruct (Z.eqb_spec p NULL); [unfold NULL in *; lia|]. mstep (get_inode_run s p i Hi). rewrite wraps_id by (unfold is_s; lia).
  split; [done|]. eapply itable_put; try done; cbn; lia.
Qed.

(** Opening: the inode that is already open, or a new one read from the disk. *)
Lemma inode_open_run s sec : itable s -> disk_ok s -> 0 <= sec < disk_size s -> (forall p i, inodes s !! p = Some i -> open_cnt i < 2 ^ 31 - 1) ->
  (exists p i, inodes s !! p = Some i /\ sector i = sec /\
     inode_open sec s = Ok (p, set_inodes (<[p := reopened i]>) s) /\ itable (set_inodes (<[p := reopened i]>) s)) \/
  ((forall p i, inodes s !! p = Some i -> sector i <> sec) /\
   exists p s', inode_open sec s = Ok (p, s') /\ itable s' /\ disk s' = disk s /\ (allocs s = [] -> p <> NULL /\ allocs s' = []) /\
     (p = NULL -> inodes s' = inodes s) /\
     (p <> NULL -> inodes s !! p = None /\ exists raw, disk s !! Z.to_nat sec = Some raw /\
        inodes s' = <[p := Inode sec 1 false 0 (decode_inode raw)]> (inodes s))).
Proof.
  intros T Hd Hs Hmax. unfold inode_open. mnorm.
  destruct (find_open_run s sec (open_inodes s)) as (r & Er & Hr); [intros p; by apply (it_open _ T)|]. mstep Er. destruct r as [p|].
  - left. destruct Hr as [_ (i & Hi & Es)]. exists p, i. split_and!; [done|done|apply inode_reopen_run; eauto..].
  - right. split; [intros p i Hi; apply (Hr p i); [apply (it_open _ T); eauto|done]|]. destruct (alloc_run s) as (b & l & Ea & Hl). mstep Ea.
    destruct b; cbn [negb].
    2: { exists NULL, (set_allocs (fun _ => l) s). split_and!; [done|by destruct T|done|intros E; by destruct (Hl E)|done|done]. }
    unfold new_addr. destruct (lookup_lt_is_Some_2 (disk s) (Z.to_nat sec)) as [raw Hraw]; [unfold disk_size in Hs; lia|].
    unfold bind at 1. cbn [rbind next_addr set_allocs]. rewrite bind_modify.
    set (s1 := set_open _ _). assert (disk_read sec s1 = Ok (raw, s1)) as Ed.
    { destruct Hd as [_ Hn]. unfold disk_read. mnorm. unfold disk_size in *. cbn [disk s1 set_open set_allocs].
      rewrite !(proj2 (Z.ltb_lt _ _)) by lia. mnorm. unfold lift. by rewrite Hraw. }
    mstep Ed.
    destruct T as [T1 T2 T3 T4 T5 T6]. assert (inodes s !! next_addr s = None) as Hfresh.
    { destruct (inodes s !! next_addr s) eqn:E; [|done]. destruct (T5 (next_addr s)); [eauto|lia]. }
    assert (next_addr s <> NULL) as Hnn by (unfold NULL; lia).
    eexists (next_addr s), _. split_and!; [reflexivity| |done|intros E; by destruct (Hl E)|done|intros _; split; [done|]; by exists raw].
    split; cbn; [| | | | |lia].
    + intros q. rewrite elem_of_cons, T1, lookup_insert_is_Some'. naive_solver.
    + apply NoDup_cons. split; [|done]. rewrite T1, Hfresh. intros [? ?]. done.
    + intros q1 q2 i1 i2 H1 H2 E12.
      assert (forall q j, inodes s !! q = Some j -> sector j <> sec) as Hno by (intros q j Hj; apply (Hr q j); [apply T1; eauto|done]).
      apply lookup_insert_Some in H1 as [[<- <-]|[N1 H1]]; apply lookup_insert_Some in H2 as [[<- <-]|[N2 H2]]; [done| | |by eapply T3]; cbn in E12; exfalso.
      * by apply (Hno q2 i2).
      * by apply (Hno q1 i1).
    + intros q j [[<- <-]|[_ H]]%lookup_insert_Some; [cbn; lia|by eapply T4].
    + intros q [<-|H]%lookup_insert_is_Some'; [lia|]. apply T5 in H. lia.
Qed.

(** ** Closing *)

Lemma filter_out p (l : list Z) q : q ∈ List.filter (fun q => negb (q =? p)) l <-> q ∈ l /\ q <> p.
Proof.
  rewrite list_elem_of_In, filter_In, <- list_elem_of_In. destruct (Z.eqb_spec q p); cbn; intuition congruence.
Qed.

(** The table without the inode at [p]. *)
Lemma itable_drop s p inodes' : itable s -> inodes' = delete p (inodes s) ->
  itable (set_open (List.filter (fun q => negb (q =? p))) (set_inodes (fun _ => inodes') s)).
Proof.
  intros [T1 T2 T3 T4 T5 T6] ->. split; cbn; [| | | | |done].
  - intros q. rewrite filter_out, T1, lookup_delete_is_Some. naive_solver.
  - by apply NoDup_ListNoDup, List.NoDup_filter, NoDup_ListNoDup.
  - intros q1 q2 i1 i2 [_ H1]%lookup_delete_Some [_ H2]%lookup_delete_Some. by apply (T3 q1 q2).
  - intros q j [_ H]%lookup_delete_Some. by eapply T4.
  - intros q [_ H]%lookup_delete_is_Some. by apply T5.
Qed.

(** Not the last opener. *)
Lemma inode_close_more s p i : itable s -> inodes s !! p = Some i -> 1 < open_cnt i -> deny_write_cnt i < open_cnt i ->
  inode_close p s = Ok (tt, set_inodes (<[p := closed i]>) s) /\ itable (set_inodes (<[p := closed i]>) s).
Proof.
  intros T Hi Hc Hd. destruct (it_cnt _ T _ _ Hi) as [C1 C2]. destruct (it_fresh _ T p) as [P _]; [eauto|]. unfold inode_close.
  destruct (Z.eqb_spec p NULL); [unfold NULL in *; lia|]. mstep (get_inode_run s p i Hi). rewrite wraps_id by (unfold is_s; lia).
  unfold put_inode. mnorm. rewrite (proj2 (Z.eqb_neq (open_cnt i - 1) 0)) by lia. split; [done|]. eapply itable_put; try done; cbn; lia.
Qed.

(** The state in which the last opener gives back the sectors. *)
Definition unlinked (p : Z) (i : inode) (s : fs) : fs :=
  set_open (List.filter (fun q => negb (q =? p))) (set_inodes (<[p := closed i]>) s).

Lemma inode_close_last s p i : itable s -> inodes s !! p = Some i -> open_cnt i = 1 ->
  inode_close p s =
    ((if removed i then free_map_release (sector i) 1;; free_map_release (start (data i)) (bytes_to_sectors (length_ (data i))) else ret tt);;
     modify (set_inodes (delete p))) (unlinked p i s).
Proof.
  intros T Hi Hc. destruct (it_fresh _ T p) as [P _]; [eauto|]. unfold inode_close.
  destruct (Z.eqb_spec p NULL); [unfold NULL in *; lia|]. mstep (get_inode_run s p i Hi). rewrite Hc. change (s32 (1 - 1)) with 0.
  unfold put_inode. mnorm. change (0 =? 0) with true. cbv iota. rewrite bind_get. cbn [open_inodes set_inodes].
  rewrite bool_decide_eq_true_2 by (apply (it_open _ T); eauto). rewrite bind_modify. unfold unlinked, closed. by rewrite Hc.
Qed.

Lemma bytes_to_sectors_spec n : 0 <= n < 2 ^ 31 - 512 -> bytes_to_sectors n = (n + 511) / 512 /\ 0 <= bytes_to_sectors n < 2 ^ 22.
Proof.
  intros Hn. unfold bytes_to_sectors, DISK_SECTOR_SIZE. rewrite (wraps_id 32 (n + 512)), (wraps_id 32 (n + 512 - 1)) by (unfold is_s; lia).
  rewrite Z.quot_div_nonneg by lia. replace (n + 512 - 1) with (n + 511) by lia.
  pose proof (Z.div_pos (n + 511) 512 ltac:(lia) ltac:(lia)). pose proof (Z.div_lt_upper_bound (n + 511) 512 (2 ^ 22) ltac:(lia) ltac:(lia)).
  rewrite wrapu_id by (unfold is_u; lia). lia.
Qed.

(** [fi] is the inode of the free map file, and it is not at [p]. *)
Definition not_free_map (s : fs) (p : Z) : Prop := forall f, files s !! free_map_file s = Some f -> f_inode f <> p.

Lemma fmap_ok_unlinked s p i fi : fmap_ok s (Some fi) -> not_free_map s p -> fmap_ok (unlinked p i s) (Some fi).
Proof.
  intros [F1 F2 F3 [N [(f & Hf & Hi) G2 G3 G4]]] Hp. split; [done|done|done|]. split; [done|]. split; [|by destruct G2; split|done|done].
  exists f. split; [done|]. cbn. rewrite lookup_insert_ne; [done|]. intros E. by apply (Hp f).
Qed.

(** The sectors of a file: its inode and its data. *)
Definition owns (i : inode) (k : Z) : bool := (k =? sector i) || in_range (start (data i)) ((length_ (data i) + 511) / 512) k.

Lemma inode_close_removed s p i fi :
  itable s -> fmap_ok s (Some fi) -> not_free_map s p -> inodes s !! p = Some i -> open_cnt i = 1 -> removed i = true ->
  0 <= length_ (data i) < 2 ^ 31 - 512 -> 0 <= sector i < bit_cnt (free_map s) -> 0 <= start (data i) ->
  start (data i) + (length_ (data i) + 511) / 512 <= bit_cnt (free_map s) ->
  in_range (start (data i)) ((length_ (data i) + 511) / 512) (sector i) = false ->
  (forall k, owns i k = true -> bit (free_map s) k = true) ->
  exists s', inode_close p s = Ok (tt, s') /\ itable s' /\ fmap_ok s' (Some fi) /\ inodes s' = delete p (inodes s) /\
    (forall k, 0 <= k -> bit (free_map s') k = if owns i k then false else bit (free_map s) k) /\
    (forall j, inode_ok s j -> sectors_disjoint fi j -> contents s' j = contents s j) /\
    dirs s' = dirs s /\ disk_size s' = disk_size s /\ (allocs s = [] -> allocs s' = []).
Proof.
  intros T F Hp Hi Hc Hrm Hl Hs H0 Hend Hself Hown. rewrite (inode_close_last s p i T Hi Hc), Hrm.
  pose proof (fmap_ok_unlinked s p i fi F Hp) as F0. set (s0 := unlinked p i s) in *.
  destruct (bytes_to_sectors_spec (length_ (data i)) Hl) as [Eb Hb]. rewrite Eb in *. set (n := (length_ (data i) + 511) / 512) in *.
  destruct (free_map_release_run s0 fi (sector i) 1 F0) as [R1 _]; [lia|lia|cbn; lia|].
  destruct R1 as (s1 & E1 & F1 & (C1 & C2 & C3 & C4 & C5 & C6 & C7 & C8 & C9) & B1 & U1 & _).
  { intros k Hk. apply Hown. unfold owns. replace k with (sector i) by lia. by rewrite Z.eqb_refl. }
  rewrite bind_bind. mstep E1. destruct (free_map_release_run s1 fi (start (data i)) n F1) as [R2 _]; [lia|lia|rewrite B1; cbn; lia|].
  destruct R2 as (s2 & E2 & F2 & (D1 & D2 & D3 & D4 & D5 & D6 & D7 & D8 & D9) & B2 & U2 & _).
  { intros k Hk. rewrite U1 by lia. assert (in_range (start (data i)) n k = true) as Hin by (unfold in_range; apply andb_true_iff; split; [apply Z.leb_le|apply Z.ltb_lt]; lia).
    unfold in_range at 1. destruct (Z.leb_spec (sector i) k), (Z.ltb_spec k (sector i + 1)); cbn [andb]; try (apply Hown; unfold owns; fold n; rewrite Hin; apply orb_true_r).
    exfalso. assert (k = sector i) as -> by lia. congruence. }
  mstep E2. eexists. split; [reflexivity|].
  assert (delete p (inodes s2) = delete p (inodes s)) as Edel by (rewrite D1, C1; cbn; apply delete_insert_eq).
  split_and!.
  - pose proof (itable_drop s p _ T eq_refl) as [T1 T2 T3 T4 T5 T6]. split; cbn in *; rewrite ?Edel, ?D4, ?C4, ?D7, ?C7; done.
  - destruct F2 as [G1 G2 G3 [N [(f & Hf & Hfi) G5 G6 G7]]]. split; [done|done|done|]. split; [done|]. split; [|by destruct G5; split|done|done].
    exists f. split; [done|]. cbn. rewrite lookup_delete_ne; [done|]. intros E. apply (Hp f); [|done].
    assert (files s2 = files s) as Ef by (by rewrite D2, C2). assert (free_map_file s2 = free_map_file s) as Em by (by rewrite D5, C5). by rewrite <- Ef, <- Em.
  - exact Edel.
  - intros k Hk. change (free_map (set_inodes (delete p) s2)) with (free_map s2). rewrite U2, U1 by done.
    change (free_map s0) with (free_map s). unfold owns. fold n. unfold in_range.
    destruct (Z.leb_spec (start (data i)) k), (Z.ltb_spec k (start (data i) + n)), (Z.leb_spec (sector i) k), (Z.ltb_spec k (sector i + 1)), (Z.eqb_spec k (sector i)); cbn; try done; lia.
  - intros j Hj Hdis. change (contents (set_inodes (delete p) s2) j) with (contents s2 j).
    rewrite D9, C9; [done|by destruct Hj; split|done| |done]. destruct Hj as [J1 J2 J3]. split; [done|done|]. rewrite C6. exact J3.
  - cbn. by rewrite D3, C3.
  - change (disk_size (set_inodes (delete p) s2)) with (disk_size s2). by rewrite D6, C6.
  - intros Ha. cbn. by apply D8, C8.
Qed.

(** ** On-disk inodes *)

Definition valid_disk (d : inode_disk) : Prop := is_u32 (start d) /\ is_s32 (length_ d) /\ is_u32 (magic d).

Lemma slice_mid {A} (a b c : list A) : slice (length a) (length b) (a ++ b ++ c) = b.
Proof. unfold slice. rewrite drop_app_length. by rewrite take_app_length. Qed.

Lemma decode_encode_inode d : valid_disk d -> decode_inode (encode_inode d) = d /\ length (encode_inode d) = 512%nat.
Proof.
  intros (H1 & H2 & H3). assert (forall w, length (word_bytes 4 w) = 4%nat) as L by (intros; apply length_word_bytes).
  assert (bytes_word (word_bytes 4 (u32 (length_ d))) = u32 (length_ d)) as E2.
  { apply bytes_word_bytes. change (256 ^ Z.of_nat 4) with (2 ^ 32). apply wrapu_range. lia. }
  split; [|unfold encode_inode; rewrite !length_app, !L, length_replicate; done].
  unfold decode_inode, encode_inode. destruct d as [st ln mg]. cbn [start length_ magic] in *. f_equal.
  - pose proof (slice_mid [] (word_bytes 4 st) (word_bytes 4 (u32 ln) ++ word_bytes 4 mg ++ replicate 500 0)) as E. rewrite L in E. cbn [length app] in E.
    rewrite E. by apply bytes_word_bytes.
  - pose proof (slice_mid (word_bytes 4 st) (word_bytes 4 (u32 ln)) (word_bytes 4 mg ++ replicate 500 0)) as E. rewrite !L in E. rewrite E, E2.
    rewrite wraps_wrapu by lia. by apply wraps_id.
  - pose proof (slice_mid (word_bytes 4 st ++ word_bytes 4 (u32 ln)) (word_bytes 4 mg) (replicate 500 0)) as E. rewrite length_app, !L, <- app_assoc in E.
    change (4 + 4)%nat with 8%nat in E. rewrite E. by apply bytes_word_bytes.
Qed.

(** The opened inode, and what closing it again leaves. *)
Lemma open_close_fresh s p s1 i1 : itable s -> itable s1 -> inodes s !! p = None -> inodes s1 = <[p := i1]> (inodes s) ->
  open_cnt i1 = 1 -> removed i1 = false -> exists s2, inode_close p s1 = Ok (tt, s2) /\ itable s2 /\ inodes s2 = inodes s.
Proof.
  intros T T1 Hn E1 Hc Hr. assert (inodes s1 !! p = Some i1) as Hi by (rewrite E1; apply lookup_insert_eq).
  rewrite (inode_close_last s1 p i1 T1 Hi Hc), Hr. mnorm. eexists. split; [reflexivity|].
  pose proof (itable_drop s1 p _ T1 eq_refl) as T2. split; [|cbn; rewrite E1, !delete_insert_eq; by apply delete_id].
  destruct T2 as [A1 A2 A3 A4 A5 A6]. split; cbn in *; rewrite ?delete_insert_eq; done.
Qed.

Lemma open_again sec p s1 i1 : itable s1 -> disk_ok s1 -> 0 <= sec < disk_size s1 -> inodes s1 !! p = Some i1 -> sector i1 = sec ->
  (forall q i, inodes s1 !! q = Some i -> open_cnt i < 2 ^ 31 - 1) ->
  exists s2, inode_open sec s1 = Ok (p, s2) /\ itable s2 /\ inodes s2 = <[p := reopened i1]> (inodes s1) /\
    exists s3, inode_close p s2 = Ok (tt, s3) /\ inodes s3 = inodes s1.
Proof.
  intros T1 Hd Hs Hi Es Hmax. destruct (it_cnt _ T1 _ _ Hi) as [C1 C2].
  destruct (inode_open_run s1 sec T1 Hd Hs Hmax) as [(q & j & Hj & Ej & Eo & T2)|[Hno _]]; [|by apply Hno in Hi].
  assert (q = p) as -> by (apply (it_sector _ T1 q p j i1 Hj Hi); congruence). rewrite Hi in Hj. injection Hj as <-.
  eexists. split_and!; [exact Eo|exact T2|done|].
  destruct (inode_close_more (set_inodes (<[p := reopened i1]>) s1) p (reopened i1) T2) as [Ec _]; [apply lookup_insert_eq|cbn; lia|cbn; lia|].
  eexists. split; [exact Ec|]. cbn. rewrite insert_insert_eq. apply insert_id. rewrite Hi. f_equal. unfold closed, reopened. cbn.
  destruct i1. cbn. f_equal. lia.
Qed.

(** ** Properties *)

(** C12: An inode is in memory once, however often it is open.  Opening a sector
    gives the inode that is already open for it or a new one with what the disk
    holds; opening it again gives the same address and only counts; each close
    undoes one open, and the last one takes the inode out of the table.  The
    last close of a removed inode frees exactly the sector of the inode and
    the sectors of its data in the free map, and no other file changes. *)
Theorem inode_life_cycle s sec :
  itable s -> disk_ok s -> 0 <= sec < disk_size s -> allocs s = [] ->
  (forall p i, inodes s !! p = Some i -> open_cnt i < 2 ^ 31 - 2) ->
  (exists p s1 i1, inode_open sec s = Ok (p, s1) /\ itable s1 /\ inodes s1 !! p = Some i1 /\ sector i1 = sec /\
     (exists s2, inode_open sec s1 = Ok (p, s2) /\ itable s2 /\ inodes s2 = <[p := reopened i1]> (inodes s1) /\
        exists s3, inode_close p s2 = Ok (tt, s3) /\ inodes s3 = inodes s1) /\
     ((forall q i, inodes s !! q = Some i -> sector i <> sec) ->
        (forall d, valid_disk d -> disk s !! Z.to_nat sec = Some (encode_inode d) -> data i1 = d) /\
        exists s4, inode_close p s1 = Ok (tt, s4) /\ itable s4 /\ inodes s4 = inodes s)) /\
  (forall p i fi, fmap_ok s (Some fi) -> not_free_map s p -> inodes s !! p = Some i -> open_cnt i = 1 -> removed i = true ->
     0 <= length_ (data i) < 2 ^ 31 - 512 -> 0 <= sector i < bit_cnt (free_map s) -> 0 <= start (data i) ->
     start (data i) + (length_ (data i) + 511) / 512 <= bit_cnt (free_map s) ->
     in_range (start (data i)) ((length_ (data i) + 511) / 512) (sector i) = false ->
     (forall k, owns i k = true -> bit (free_map s) k = true) ->
     exists s', inode_close p s = Ok (tt, s') /\ itable s' /\ inodes s' = delete p (inodes s) /\
       (forall k, 0 <= k -> bit (free_map s') k = if owns i k then false else bit (free_map s) k) /\
       (forall j, inode_ok s j -> sectors_disjoint fi j -> contents s' j = contents s j)).
Proof.
  intros T Hd Hs Ha Hmax. split.
  - destruct (inode_open_run s sec T Hd Hs) as [(p & i & Hi & Es & Eo & T1)|(Hno & p & s1 & Eo & T1 & Ed & Hp & _ & Hn)]; [intros q j Hj; apply Hmax in Hj; lia| |].
    + exists p. eexists _, (reopened i). split_and!; [exact Eo|exact T1|apply lookup_insert_eq|done| |intros Hc; by apply Hc in Hi].
      apply open_again; [exact T1|done|done|apply lookup_insert_eq|done|].
      intros q j. cbn [inodes set_inodes]. intros [[<- <-]|[_ Hj]]%lookup_insert_Some; [cbn; apply Hmax in Hi; lia|apply Hmax in Hj; lia].
    + destruct (Hp Ha) as [Hnn _]. destruct (Hn Hnn) as (Hfresh & raw & Hraw & E1). eexists p, s1, _.
      assert (inodes s1 !! p = Some (Inode sec 1 false 0 (decode_inode raw))) as Hi by (rewrite E1; apply lookup_insert_eq).
      split_and!; [exact Eo|exact T1|exact Hi|done| |intros _; split].
      * apply open_again; [exact T1|unfold disk_ok; by rewrite Ed|unfold disk_size; by rewrite Ed|exact Hi|done|].
        intros q j. rewrite E1. intros [[<- <-]|[_ Hj]]%lookup_insert_Some; [cbn; lia|apply Hmax in Hj; lia].
      * intros d Hv Hdd. rewrite Hraw in Hdd. injection Hdd as ->. by apply decode_encode_inode.
      * by eapply (open_close_fresh s p s1).
  - intros p i fi F Hp Hi Hc Hr Hl Hsec H0 Hend Hself Hown.
    destruct (inode_close_removed s p i fi T F Hp Hi Hc Hr Hl Hsec H0 Hend Hself Hown) as (s' & E & T' & _ & D & B & Hct & _). by exists s'.
Qed.

(** A disk whose sector 1 holds an inode. *)
Definition demo_disk_fs : fs :=
  FS [replicate 512 9; encode_inode (InodeDisk 2 600 INODE_MAGIC); replicate 512 1; replicate 512 2] ∅ [] ∅ ∅ 100 [] (Bitmap 4 [15]) 0.

Lemma inode_life_cycle_witness : exists p s1 s2, inode_open 1 demo_disk_fs = Ok (p, s1) /\ inode_open 1 s1 = Ok (p, s2).
Proof.
  destruct (inode_life_cycle demo_disk_fs 1) as [(p & s1 & i1 & E1 & _ & _ & _ & (s2 & E2 & _) & _) _].
  - split; cbn; try done; [intros p; rewrite elem_of_nil; split; [done|by intros [? ?]]|apply NoDup_nil_2|intros p [? ?]; done].
  - split; [repeat (apply Forall_cons; split; [reflexivity|]); by apply Forall_nil|by vm_compute].
  - vm_compute. split; [discriminate|reflexivity].
  - reflexivity.
  - intros p i Hi. discriminate Hi.
  - exists p, s1, s2. split; [exact E1|exact E2].
Defined.

(** C13: Denying writes: after [inode_deny_write] every write returns 0 and
    changes nothing, until as many [inode_allow_write] follow, and a matching
    allow restores the state.  A file counts only once however often
    [file_deny_write] is called on it, [file_allow_write] undoes it, and so does
    [file_close].  Denying more often than the inode is open, and allowing what
    was not denied, panics. *)
Theorem deny_write_blocks s p i :
  inodes s !! p = Some i -> 0 <= deny_write_cnt i < 2 ^ 31 - 1 ->
  let denied := Inode (sector i) (open_cnt i) (removed i) (deny_write_cnt i + 1) (data i) in
  let s1 := set_inodes (<[p := denied]>) s in
  (inode_deny_write p s = if deny_write_cnt i <? open_cnt i then Ok (tt, s1) else Panic) /\
  (forall buffer size offset, inode_write_at p buffer size offset s1 = Ok (0, s1)) /\
  (deny_write_cnt i < open_cnt i -> inode_allow_write p s1 = Ok (tt, s)) /\
  (deny_write_cnt i = 0 -> inode_allow_write p s = Panic) /\
  (forall f x, files s !! f = Some x -> f <> NULL -> f_inode x = p -> deny_write x = false -> deny_write_cnt i < open_cnt i ->
     let s2 := set_inodes (<[p := denied]>) (set_files (<[f := File p (f_pos x) true]>) s) in
     file_deny_write f s = Ok (tt, s2) /\ file_deny_write f s2 = Ok (tt, s2) /\
     file_allow_write f s2 = Ok (tt, s) /\ file_close f s2 = file_close f s).
Proof.
  intros Hi Hd denied s1.
  assert (set_inodes (<[p := i]>) s1 = s) as Eback by (unfold s1, set_inodes; cbn; rewrite insert_insert_eq, insert_id by done; by destruct s).
  assert (inodes s1 !! p = Some denied) as Hi1 by apply lookup_insert_eq.
  assert (Inode (sector i) (open_cnt i) (removed i) (deny_write_cnt i) (data i) = i) as Ei by by destruct i.
  assert (forall s, inodes s !! p = Some i -> inode_deny_write p s = if deny_write_cnt i <? open_cnt i then Ok (tt, set_inodes (<[p := denied]>) s) else Panic) as Hdeny.
  { intros s0 H0. unfold inode_deny_write. mstep (get_inode_run s0 p i H0). rewrite wraps_id by (unfold is_s; lia). unfold put_inode. mnorm. unfold ASSERT.
    destruct (Z.leb_spec (deny_write_cnt i + 1) (open_cnt i)), (Z.ltb_spec (deny_write_cnt i) (open_cnt i)); done || lia. }
  assert (forall s, inodes s !! p = Some denied -> deny_write_cnt i < open_cnt i -> inode_allow_write p s = Ok (tt, set_inodes (<[p := i]>) s)) as Hallow.
  { intros s0 H0 Hlt. unfold inode_allow_write. mstep (get_inode_run s0 p denied H0). cbn [deny_write_cnt open_cnt denied].
    rewrite (proj2 (Z.ltb_lt 0 _)), (proj2 (Z.leb_le _ (open_cnt i))) by lia. mnorm. rewrite wraps_id by (unfold is_s; lia).
    replace (deny_write_cnt i + 1 - 1) with (deny_write_cnt i) by lia. cbn [sector open_cnt removed data denied]. by rewrite Ei. }
  split_and!; [by apply Hdeny| | | |].
  - intros buffer size offset. unfold inode_write_at. mstep (get_inode_run s1 p denied Hi1). cbn [deny_write_cnt denied].
    rewrite (proj2 (Z.eqb_neq _ _)) by lia. done.
  - intros Hlt. rewrite (Hallow s1 Hi1 Hlt). by rewrite Eback.
  - intros E0. unfold inode_allow_write. mstep (get_inode_run s p i Hi). by rewrite E0.
  - intros f x Hf Hn Ep Hx Hlt s2. assert (negb (f =? NULL) = true) as Hnn by (apply negb_true_iff; by apply Z.eqb_neq).
    assert (get_file f s = Ok (x, s)) as Eg by (unfold get_file; by rewrite Hf).
    assert (get_file f s2 = Ok (File p (f_pos x) true, s2)) as Eg2 by (unfold get_file; cbn; by rewrite lookup_insert_eq).
    assert (file_allow_write f s2 = Ok (tt, s)) as Eal.
    { unfold file_allow_write. rewrite Hnn. mnorm. mstep Eg2. cbn [deny_write f_inode f_pos]. unfold put_file. mnorm.
      rewrite Hallow; [|apply lookup_insert_eq|done]. do 2 f_equal. unfold s2, set_inodes, set_files. cbn.
      rewrite !insert_insert_eq, (insert_id (inodes s)) by done. rewrite (insert_id (files s)); [by destruct s|]. rewrite Hf. f_equal. destruct x as [a b c]. cbn in Ep, Hx |- *. by rewrite Ep, Hx. }
    assert (file_allow_write f s = Ok (tt, s)) as Eal0 by (unfold file_allow_write; rewrite Hnn; mnorm; mstep Eg; by rewrite Hx).
    split_and!; [| |done|].
    + unfold file_deny_write. rewrite Hnn. mnorm. mstep Eg. rewrite Hx. cbn [negb]. unfold put_file. mnorm. rewrite Ep, Hdeny by done.
      by rewrite (proj2 (Z.ltb_lt _ _)).
    + unfold file_deny_write. rewrite Hnn. mnorm. by mstep Eg2.
    + unfold file_close. rewrite (proj2 (Z.eqb_neq _ _) Hn). unfold bind at 1. rewrite Eal. symmetry. unfold bind at 1. by rewrite Eal0.
Qed.

Lemma deny_write_blocks_witness : exists s1, inode_deny_write 64 demo_fs = Ok (tt, s1) /\ inode_write_at 64 [1; 2] 2 0 s1 = Ok (0, s1) /\
  inode_allow_write 64 s1 = Ok (tt, demo_fs).
Proof.
  destruct (deny_write_blocks demo_fs 64 demo_inode) as (H1 & H2 & H3 & _); [reflexivity|cbn; lia|].
  eexists. split; [exact H1|]. split; [apply H2|apply H3; cbn; lia].
Defined.
