(* ===== verification/Directory.v ===== *)
(** * Directories and the file system interface (filesys/directory.c, filesys.c)

    A directory is a file of entries of 20 bytes.  Names are the bytes of a
    C string without its terminator. *)

From S2P Require Import Prelude Bitmap Inode FreeMap.

Definition NAME_MAX : Z := 14.
Definition ENTRY_SIZE : Z := 20.

(** [struct dir_entry]; [name] is the whole array of 15 bytes. *)
Record dir_entry := DirEntry { inode_sector : Z; name : list Z; in_use : bool }.

Definition encode_entry (e : dir_entry) : list Z :=
  word_bytes 4 (inode_sector e) ++ name e ++ [if in_use e then 1 else 0].
Definition decode_entry (bs : list Z) : dir_entry :=
  DirEntry (bytes_word (slice 0 4 bs)) (slice 4 15 bs) (negb (nth 19 bs 0 =? 0)).

(** The string in a character array: the bytes before the first null. *)
Fixpoint cstring (bs : list Z) : list Z :=
  match bs with [] => [] | b :: bs => if b =? 0 then [] else b :: cstring bs end.
(** [!strcmp (name, e.name)]. *)
Definition same_name (n : list Z) (e : dir_entry) : bool := bool_decide (n = cstring (name e)).
(** [strlcpy (e.name, name, sizeof e.name)]: the bytes behind the terminator
    keep their old values. *)
Definition set_name (n old : list Z) : list Z :=
  let k := Nat.min (length n) 14 in take k n ++ [0] ++ drop (k + 1) old.

Definition get_dir (d : Z) : M fs dir := fun s => let! x := deref (dirs s !! d) in Ok (x, s).
Definition put_dir (d : Z) (x : dir) : M fs unit := modify (set_dirs (<[d := x]>)).

(** ** Directories *)

Definition dir_create (sector entry_cnt : Z) : M fs bool := inode_create sector (s32 (u64 (entry_cnt * ENTRY_SIZE))).

Definition dir_open (p : Z) : M fs Z :=
  ok ← alloc;
  if negb (p =? NULL) && ok then
    d ← new_addr; put_dir d (Dir p 0);; ret d
  else inode_close p;; ret NULL.
Definition dir_open_root : M fs Z := p ← inode_open ROOT_DIR_SECTOR; dir_open p.
Definition dir_reopen (d : Z) : M fs Z := x ← get_dir d; p ← inode_reopen (d_inode x); dir_open p.
Definition dir_close (d : Z) : M fs unit :=
  if d =? NULL then ret tt
  else x ← get_dir d; inode_close (d_inode x);; modify (set_dirs (delete d)).
Definition dir_get_inode (d : Z) : M fs Z := x ← get_dir d; ret (d_inode x).

(** [for (ofs = 0; inode_read_at (...) == sizeof e; ofs += sizeof e)]: finds
    the first entry with [stop].  The result is the entry and its offset, or
    the last buffer and the offset at which the read came back short.  [buf]
    is what the local variable [e] holds. *)
Fixpoint scan_dir (fuel : nat) (p ofs : Z) (stop : dir_entry -> bool) (buf : list Z)
  : M fs (bool * list Z * Z) :=
  match fuel with
  | O => out_of_fuel
  | S fuel =>
      bs ← inode_read_at p ENTRY_SIZE (s32 ofs);
      let buf := splice 0 bs buf in
      if Z.of_nat (length bs) =? ENTRY_SIZE then
        if stop (decode_entry buf) then ret (true, buf, ofs)
        else scan_dir fuel p (ofs + ENTRY_SIZE) stop buf
      else ret (false, buf, ofs)
  end.

(** One round more than the directory has entries. *)
Definition dir_fuel (p : Z) : M fs nat := i ← get_inode p; ret (S (Z.to_nat (length_ (data i) / ENTRY_SIZE)) + 1)%nat.

Definition matches (n : list Z) (e : dir_entry) : bool := in_use e && same_name n e.

Section directory.
(** What the uninitialised local variable [struct dir_entry e] of [lookup] and
    [dir_add] holds. *)
Variable junk : list Z.

Definition lookup (d : Z) (n : list Z) : M fs (option (dir_entry * Z)) :=
  ASSERT (negb (d =? NULL));;
  x ← get_dir d;
  fuel ← dir_fuel (d_inode x);
  r ← scan_dir fuel (d_inode x) 0 (matches n) junk;
  let '(found, buf, ofs) := r in
  ret (if found then Some (decode_entry buf, ofs) else None).

Definition dir_lookup (d : Z) (n : list Z) : M fs Z :=
  ASSERT (negb (d =? NULL));;
  r ← lookup d n;
  match r with
  | Some (e, _) => inode_open (inode_sector e)
  | None => ret NULL
  end.

Definition dir_add (d : Z) (n : list Z) (sec : Z) : M fs bool :=
  ASSERT (negb (d =? NULL));;
  if (length n =? 0)%nat || (NAME_MAX <? Z.of_nat (length n)) then ret false
  else
    r ← lookup d n;
    match r with
    | Some _ => ret false
    | None =>
        x ← get_dir d;
        fuel ← dir_fuel (d_inode x);
        r ← scan_dir fuel (d_inode x) 0 (fun e => negb (in_use e)) junk;
        let '(_, buf, ofs) := r in
        let e := DirEntry sec (set_name n (name (decode_entry buf))) true in
        w ← inode_write_at (d_inode x) (encode_entry e) ENTRY_SIZE (s32 ofs);
        ret (w =? ENTRY_SIZE)
    end.

Definition dir_remove (d : Z) (n : list Z) : M fs bool :=
  ASSERT (negb (d =? NULL));;
  r ← lookup d n;
  match r with
  | None => inode_close NULL;; ret false
  | Some (e, ofs) =>
      p ← inode_open (inode_sector e);
      success ← (if p =? NULL then ret false
                 else
                   x ← get_dir d;
                   w ← inode_write_at (d_inode x)
                         (encode_entry (DirEntry (inode_sector e) (name e) false)) ENTRY_SIZE (s32 ofs);
                   if negb (w =? ENTRY_SIZE) then ret false
                   else inode_remove p;; ret true);
      inode_close p;; ret success
  end.

(** [dir_readdir]: the next name, or [None]. *)
Fixpoint readdir_loop (fuel : nat) (d : Z) : M fs (option (list Z)) :=
  match fuel with
  | O => out_of_fuel
  | S fuel =>
      x ← get_dir d;
      bs ← inode_read_at (d_inode x) ENTRY_SIZE (d_pos x);
      if Z.of_nat (length bs) =? ENTRY_SIZE then
        put_dir d (Dir (d_inode x) (s32 (d_pos x + ENTRY_SIZE)));;
        let e := decode_entry bs in
        if in_use e then ret (Some (cstring (name e))) else readdir_loop fuel d
      else ret None
  end.
Definition dir_readdir (d : Z) : M fs (option (list Z)) :=
  x ← get_dir d; fuel ← dir_fuel (d_inode x); readdir_loop fuel d.

(** ** The file system (filesys.c) *)

Definition filesys_create (n : list Z) (initial_size : Z) : M fs bool :=
  d ← dir_open_root;
  r ← (if d =? NULL then ret (false, 0)
       else
         sec ← free_map_allocate 1;
         match sec with
         | None => ret (false, 0)
         | Some sec =>
             c ← inode_create sec initial_size;
             if negb c then ret (false, sec)
             else a ← dir_add d n sec; ret (a, sec)
         end);
  let '(success, sec) := r in
  (if negb success && negb (sec =? 0) then free_map_release sec 1 else ret tt);;
  dir_close d;; ret success.

Definition filesys_open (n : list Z) : M fs Z :=
  d ← dir_open_root;
  p ← (if negb (d =? NULL) then dir_lookup d n else ret NULL);
  dir_close d;;
  file_open p.

Definition filesys_remove (n : list Z) : M fs bool :=
  d ← dir_open_root;
  success ← (if negb (d =? NULL) then dir_remove d n else ret false);
  dir_close d;; ret success.

End directory.

Definition do_format : M fs unit :=
  free_map_create;;
  ok ← dir_create ROOT_DIR_SECTOR 16;
  if negb ok then lift Panic else free_map_close.

Definition filesys_init (words : list Z) (format : bool) : M fs unit :=
  inode_init;;
  free_map_init words;;
  (if format then do_format else ret tt);;
  free_map_open.

Definition filesys_done : M fs unit := free_map_close.

(** ** Entries as bytes *)

Lemma decode_encode_entry e :
  is_u32 (inode_sector e) -> length (name e) = 15%nat -> decode_entry (encode_entry e) = e /\ length (encode_entry e) = 20%nat.
Proof.
  intros Hs Hn. destruct e as [sec nm u]. cbn [inode_sector name in_use] in *. unfold decode_entry, encode_entry. cbn [inode_sector name in_use].
  assert (length (word_bytes 4 sec) = 4%nat) as L4 by apply length_word_bytes. split; [|by rewrite !length_app, L4, Hn].
  f_equal.
  - unfold slice. rewrite drop_0, take_app_length' by done. by apply bytes_word_bytes.
  - unfold slice. rewrite drop_app_length' by done. by rewrite take_app_length' by done.
  - rewrite app_assoc, app_nth2; rewrite length_app, L4, Hn; [|lia]. by destruct u.
Qed.

(** A file name: the characters of a C string. *)
Definition is_name (n : list Z) : Prop := Forall (fun c => 0 < c < 256) n.

Lemma cstring_app n t : is_name n -> cstring (n ++ 0 :: t) = n.
Proof.
  induction 1 as [|c n Hc _ IH]; cbn [cstring app]; [done|]. destruct (Z.eqb_spec c 0); [lia|]. by rewrite IH.
Qed.

Lemma set_name_spec n old : is_name n -> (length n <= 14)%nat -> length old = 15%nat ->
  cstring (set_name n old) = n /\ length (set_name n old) = 15%nat.
Proof.
  intros Hn Hl Ho. unfold set_name. rewrite Nat.min_l by done. rewrite take_ge by lia. split; [by apply cstring_app|].
  rewrite !length_app, length_drop. cbn. lia.
Qed.

(** ** The entries of a directory file *)

Definition entry_at (C : list Z) (j : nat) : dir_entry := decode_entry (slice (20 * j) 20 C).

(** [C] are the contents of a directory of [cnt] entries with the files
    [M]. *)
Record dir_rep (C : list Z) (cnt : nat) (M : gmap (list Z) Z) : Prop := {
  dr_some n sec : M !! n = Some sec <->
    exists j, (j < cnt)%nat /\ in_use (entry_at C j) = true /\ cstring (name (entry_at C j)) = n /\ inode_sector (entry_at C j) = sec;
  dr_uniq j k : (j < cnt)%nat -> (k < cnt)%nat -> in_use (entry_at C j) = true -> in_use (entry_at C k) = true ->
    cstring (name (entry_at C j)) = cstring (name (entry_at C k)) -> j = k
}.

(** An open directory whose file is [i]. *)
Record dir_state (s : fs) (d : Z) (x : dir) (i : inode) (cnt : nat) (M : gmap (list Z) Z) : Prop := {
  ds_dir : d <> NULL /\ dirs s !! d = Some x;
  ds_inode : inodes s !! d_inode x = Some i;
  ds_disk : disk_ok s;
  ds_ok : inode_ok s i;
  ds_length : length_ (data i) = 20 * Z.of_nat cnt;
  ds_allocs : allocs s = [];
  ds_rep : dir_rep (contents s i) cnt M
}.

Section Dir.
Context (s : fs) (d : Z) (x : dir) (i : inode) (cnt : nat) (M : gmap (list Z) Z).
Context (D : dir_state s d x i cnt M).
Notation E j := (entry_at (contents s i) j).

Lemma dir_read j : (j <= cnt)%nat ->
  inode_read_at (d_inode x) ENTRY_SIZE (s32 (20 * Z.of_nat j)) s =
    Ok (if decide (j < cnt)%nat then slice (20 * j) 20 (contents s i) else [], s).
Proof.
  destruct D as [[_ D0] D1 D2 D3 D4 D5 D6]. intros Hj. pose proof (io_len _ _ D3) as Hl. unfold ENTRY_SIZE.
  rewrite wraps_id by (unfold is_s; lia).
  destruct (inode_read_run s (d_inode x) i 20 (20 * Z.of_nat j) D2 D1 D3) as (m & s' & Er & _ & _ & Hm); [lia|lia|].
  destruct (Hm D5) as [-> ->]. rewrite Er. unfold reach. do 2 f_equal. replace (Z.to_nat (20 * Z.of_nat j)) with (20 * j)%nat by lia.
  destruct (decide (j < cnt)%nat).
  - replace (Z.to_nat (Z.max 0 (Z.min 20 (length_ (data i) - 20 * Z.of_nat j)))) with 20%nat by lia. done.
  - replace (Z.to_nat (Z.max 0 (Z.min 20 (length_ (data i) - 20 * Z.of_nat j)))) with 0%nat by lia. done.
Qed.

Lemma slice_length j : (j < cnt)%nat -> length (slice (20 * j) 20 (contents s i)) = 20%nat.
Proof.
  intros Hj. destruct D as [_ _ D2 D3 D4 _ _]. apply length_slice. rewrite length_contents by done. lia.
Qed.

(** The scan stops at the first entry with [stop]. *)
Lemma scan_dir_run stop : forall fuel j buf, (j <= cnt)%nat -> (cnt - j < fuel)%nat -> length buf = 20%nat ->
  (exists k, (j <= k < cnt)%nat /\ stop (E k) = true /\ (forall l, (j <= l < k)%nat -> stop (E l) = false) /\
     scan_dir fuel (d_inode x) (20 * Z.of_nat j) stop buf s = Ok ((true, slice (20 * k) 20 (contents s i), 20 * Z.of_nat k), s)) \/
  ((forall l, (j <= l < cnt)%nat -> stop (E l) = false) /\
     exists buf', length buf' = 20%nat /\ scan_dir fuel (d_inode x) (20 * Z.of_nat j) stop buf s = Ok ((false, buf', 20 * Z.of_nat cnt), s)).
Proof.
  induction fuel as [|fuel IH]; intros j buf Hj Hf Hb; [lia|]. cbn [scan_dir]. mstep (dir_read j Hj). destruct (decide (j < cnt)%nat) as [Hlt|Hge].
  - pose proof (slice_length j Hlt) as Hs. rewrite Hs. change (Z.of_nat 20 =? ENTRY_SIZE) with true. cbv iota.
    rewrite splice_all by lia. change (decode_entry (slice (20 * j) 20 (contents s i))) with (E j). destruct (stop (E j)) eqn:Es.
    + left. exists j. split_and!; [lia|lia|done|lia|done].
    + replace (20 * Z.of_nat j + ENTRY_SIZE) with (20 * Z.of_nat (S j)) by (unfold ENTRY_SIZE; lia).
      destruct (IH (S j) (slice (20 * j) 20 (contents s i))) as [(k & Hk & Hst & Hbe & Er)|[Hn Hr]]; [lia|lia|done|left|right].
      * exists k. split_and!; [lia|lia|done| |done]. intros l Hl. destruct (decide (l = j)) as [->|]; [done|apply Hbe; lia].
      * split; [|done]. intros l Hl. destruct (decide (l = j)) as [->|]; [done|apply Hn; lia].
  - assert (j = cnt) as -> by lia. right. split; [lia|]. exists buf. split; [done|]. cbn [length]. change (Z.of_nat 0 =? ENTRY_SIZE) with false. cbv iota.
    by rewrite splice_nil.
Qed.

Lemma get_dir_run : get_dir d s = Ok (x, s).
Proof. destruct D as [[_ D0] _ _ _ _ _ _]. unfold get_dir. by rewrite D0. Qed.

Lemma dir_fuel_run : exists fuel, dir_fuel (d_inode x) s = Ok (fuel, s) /\ (cnt < fuel)%nat.
Proof.
  destruct D as [_ D1 _ _ D4 _ _]. unfold dir_fuel, get_inode. eexists. split; [unfold bind; rewrite D1; cbn [deref rbind]; reflexivity|].
  rewrite D4. unfold ENTRY_SIZE. rewrite Z.mul_comm, Z.div_mul by lia. lia.
Qed.

Lemma nonnull_dir : negb (d =? NULL) = true.
Proof. destruct D as [[D0 _] _ _ _ _ _ _]. apply negb_true_iff. by apply Z.eqb_neq. Qed.

Lemma lookup_run junk n : length junk = 20%nat ->
  (M !! n = None /\ Directory.lookup junk d n s = Ok (None, s) /\ forall k, (k < cnt)%nat -> matches n (E k) = false) \/
  (exists k, (k < cnt)%nat /\ M !! n = Some (inode_sector (E k)) /\ matches n (E k) = true /\
    Directory.lookup junk d n s = Ok (Some (E k, 20 * Z.of_nat k), s)).
Proof.
  intros Hj. unfold Directory.lookup. rewrite nonnull_dir. mnorm. mstep get_dir_run. destruct dir_fuel_run as (fuel & Ef & Hf). mstep Ef.
  assert (forall e, matches n e = true <-> in_use e = true /\ cstring (name e) = n) as Hm.
  { intros e. unfold matches, same_name. rewrite andb_true_iff, bool_decide_eq_true. naive_solver. }
  destruct D as [_ _ _ _ _ _ D6].
  destruct (scan_dir_run (matches n) fuel 0 junk ltac:(lia) ltac:(lia) Hj) as [(k & Hk & Hs & _ & Er)|[Hn (buf' & _ & Er)]].
  - right. exists k. rewrite Z.mul_0_r in Er. mstep Er. apply Hm in Hs as [U N]. split_and!; [lia| |by apply Hm|done].
    apply (dr_some _ _ _ D6). exists k. split_and!; [lia|done..].
  - left. rewrite Z.mul_0_r in Er. mstep Er. split_and!; [|done|intros k Hk; apply Hn; lia]. destruct (M !! n) as [sec|] eqn:EM; [|done].
    apply (dr_some _ _ _ D6) in EM as (j & Hj' & U & N & _). exfalso.
    assert (matches n (E j) = true) as Ht by (by apply Hm). rewrite Hn in Ht by lia. done.
Qed.

(** Writing one entry. *)
Lemma dir_write k e : deny_write_cnt i = 0 -> (k <= cnt)%nat -> length (encode_entry e) = 20%nat ->
  let b := bool_decide (k < cnt)%nat in
  exists s', inode_write_at (d_inode x) (encode_entry e) ENTRY_SIZE (s32 (20 * Z.of_nat k)) s = Ok (if b then 20 else 0, s') /\
    disk_ok s' /\ disk_changed s s' /\ allocs s' = [] /\
    flat s' = (if b then splice (disk_pos i (20 * Z.of_nat k)) (encode_entry e) (flat s) else flat s) /\
    contents s' i = if b then splice (20 * k) (encode_entry e) (contents s i) else contents s i.
Proof.
  destruct D as [[_ D0] D1 D2 D3 D4 D5 D6]. intros Hd Hk He b. pose proof (io_len _ _ D3) as Hl. unfold ENTRY_SIZE.
  rewrite wraps_id by (unfold is_s; lia).
  destruct (inode_write_run s (d_inode x) i (encode_entry e) 20 (20 * Z.of_nat k) D2 D1 D3 Hd) as (m & s' & Er & H1 & H2 & _ & H3 & H4 & H5); [lia|lia|lia|].
  destruct (H3 D5) as [-> Ha]. exists s'. unfold b, reach in *. replace (Z.to_nat (20 * Z.of_nat k)) with (20 * k)%nat in H5 by lia.
  destruct (decide (k < cnt)%nat) as [Hlt|Hge].
  - rewrite bool_decide_eq_true_2 by done. replace (Z.max 0 (Z.min 20 (length_ (data i) - 20 * Z.of_nat k))) with 20 in * by lia.
    rewrite take_ge in H4, H5 by lia. done.
  - rewrite bool_decide_eq_false_2 by done. replace (Z.max 0 (Z.min 20 (length_ (data i) - 20 * Z.of_nat k))) with 0 in * by lia.
    change (take (Z.to_nat 0) (encode_entry e)) with (@nil Z) in *. rewrite splice_nil in H4, H5. done.
Qed.

Lemma entry_at_splice k e j : (k < cnt)%nat -> (j < cnt)%nat -> decode_entry (encode_entry e) = e -> length (encode_entry e) = 20%nat ->
  entry_at (splice (20 * k) (encode_entry e) (contents s i)) j = if decide (j = k) then e else E j.
Proof.
  intros Hk Hj Hd Hl. destruct D as [_ _ D2 D3 D4 _ _]. pose proof (length_contents s i D2 D3) as Lc. unfold entry_at.
  destruct (decide (j = k)) as [->|Hne].
  - pose proof (slice_splice (20 * k) (encode_entry e) (contents s i) ltac:(lia)) as Es. rewrite Hl in Es. by rewrite Es.
  - rewrite slice_splice_out; [done|lia|lia].
Qed.

(** A file is added in a free slot, or removed. *)
Lemma dir_rep_insert k n sec nm :
  (k < cnt)%nat -> in_use (E k) = false -> M !! n = None -> cstring nm = n -> is_u32 sec -> length nm = 15%nat ->
  dir_rep (splice (20 * k) (encode_entry (DirEntry sec nm true)) (contents s i)) cnt (<[n := sec]> M).
Proof.
  intros Hk Hf Hn Hc Hs Hl. destruct (decode_encode_entry (DirEntry sec nm true) Hs Hl) as [Hd He]. pose proof (ds_rep _ _ _ _ _ _ D) as [R1 R2].
  assert (forall j, (j < cnt)%nat -> in_use (E j) = true -> cstring (name (E j)) <> n) as Hno.
  { intros j Hj U N. assert (M !! n = Some (inode_sector (E j))) as EM by (apply R1; eauto). congruence. }
  split.
  - intros n' sec'. split.
    + intros [[<- <-]|[Hne Hm]]%lookup_insert_Some.
      * exists k. rewrite entry_at_splice, decide_True by done. by split_and!.
      * apply R1 in Hm as (j & Hj & U & N & S). exists j. rewrite entry_at_splice by done. rewrite decide_False by (intros ->; congruence). by split_and!.
    + intros (j & Hj & U & N & S). rewrite entry_at_splice in U, N, S by done. destruct (decide (j = k)) as [->|].
      * cbn [name inode_sector] in N, S. rewrite <- N, Hc, <- S. apply lookup_insert_eq.
      * rewrite lookup_insert_ne; [apply R1; eauto|]. intros <-. by apply (Hno j).
  - intros j l Hj Hl' U1 U2 N. rewrite entry_at_splice in U1, N by done. rewrite entry_at_splice in U2, N by done.
    destruct (decide (j = k)) as [->|], (decide (l = k)) as [->|]; [done| | |by apply R2]; cbn [name] in N; exfalso.
    + apply (Hno l Hl' U2). congruence.
    + apply (Hno j Hj U1). congruence.
Qed.

Lemma dir_rep_delete k n e :
  (k < cnt)%nat -> matches n (E k) = true -> in_use e = false -> decode_entry (encode_entry e) = e -> length (encode_entry e) = 20%nat ->
  dir_rep (splice (20 * k) (encode_entry e) (contents s i)) cnt (delete n M).
Proof.
  intros Hk [Hu Hm%bool_decide_eq_true]%andb_true_iff Hf Hd He. pose proof (ds_rep _ _ _ _ _ _ D) as [R1 R2]. split.
  - intros n' sec'. rewrite lookup_delete_Some, R1. split.
    + intros [Hne (j & Hj & U & N & S)]. exists j. rewrite entry_at_splice by done. rewrite decide_False; [by split_and!|]. intros ->. congruence.
    + intros (j & Hj & U & N & S). rewrite entry_at_splice in U, N, S by done. destruct (decide (j = k)) as [->|Hne]; [congruence|].
      split; [|eauto]. intros <-. apply Hne, (R2 j k Hj Hk U Hu). congruence.
  - intros j l Hj Hl U1 U2 N. rewrite entry_at_splice in U1, N by done. rewrite entry_at_splice in U2, N by done.
    destruct (decide (j = k)), (decide (l = k)); try congruence. by apply R2.
Qed.

Lemma length_name k : (k < cnt)%nat -> length (name (E k)) = 15%nat.
Proof. intros Hk. unfold entry_at, decode_entry. cbn [name]. apply length_slice. rewrite slice_length by done. lia. Qed.

(** A name [dir_add] accepts. *)
Definition valid_name (n : list Z) : bool := negb (length n =? 0)%nat && (Z.of_nat (length n) <=? NAME_MAX).

Lemma dir_add_run junk n sec : length junk = 20%nat -> is_name n -> is_u32 sec -> deny_write_cnt i = 0 ->
  exists b s', dir_add junk d n sec s = Ok (b, s') /\
    (b = true <-> valid_name n = true /\ M !! n = None /\ exists k, (k < cnt)%nat /\ in_use (E k) = false) /\
    disk_changed s s' /\ dir_state s' d x i cnt (if b then <[n := sec]> M else M) /\
    exists k bs, flat s' = splice (disk_pos i (20 * Z.of_nat k)) bs (flat s) /\ (20 * k + length bs <= 20 * cnt)%nat.
Proof.
  intros Hj Hn Hs Hd. unfold dir_add. rewrite nonnull_dir. mnorm. pose proof (ds_length _ _ _ _ _ _ D) as Hlen.
  assert (forall b : bool, b = false -> (exists b' s', Ok (b, s) = Ok (b', s') /\ (b' = true <-> False) /\ disk_changed s s' /\
    dir_state s' d x i cnt (if b' then <[n := sec]> M else M) /\ exists k bs, flat s' = splice (disk_pos i (20 * Z.of_nat k)) bs (flat s) /\ (20 * k + length bs <= 20 * cnt)%nat)) as Hno.
  { intros b ->. exists false, s. split_and!; [done|done|apply disk_changed_refl|exact D|]. exists 0%nat, []. rewrite splice_nil. cbn. split; [done|lia]. }
  assert ((length n =? 0)%nat || (NAME_MAX <? Z.of_nat (length n)) = negb (valid_name n)) as ->.
  { unfold valid_name. rewrite negb_andb, negb_involutive. f_equal. by rewrite Z.leb_antisym, negb_involutive. }
  destruct (valid_name n) eqn:Ev; cbn [negb].
  2: { destruct (Hno false eq_refl) as (b & s' & E & Hb & H). exists b, s'. split; [exact E|]. split; [|exact H]. rewrite Hb. naive_solver. }
  apply andb_true_iff in Ev as [_ Hn14%Z.leb_le]. unfold NAME_MAX in Hn14.
  destruct (lookup_run junk n Hj) as [(Hm & El & _)|(k & Hk & Hm & _ & El)]; mstep El.
  2: { destruct (Hno false eq_refl) as (b & s' & E & Hb & H). exists b, s'. split; [exact E|]. split; [|exact H]. rewrite Hb, Hm. naive_solver. }
  mstep get_dir_run. destruct dir_fuel_run as (fuel & Ef & Hf). mstep Ef.
  pose proof D as [[_ D0] D1 D2 D3 D4 D5 D6].
  assert (forall s', disk_changed s s' -> disk_ok s' -> allocs s' = [] -> forall M', dir_rep (contents s' i) cnt M' -> dir_state s' d x i cnt M') as Hst.
  { intros s' Hc Hok Ha M' HR. pose proof (inode_ok_changed _ _ _ Hc D3) as Hi'. destruct Hc as (dd & l & -> & _). split; try done. apply (ds_dir _ _ _ _ _ _ D). }
  destruct (scan_dir_run (fun e => negb (in_use e)) fuel 0 junk ltac:(lia) ltac:(lia) Hj) as [(k & Hk & Hfree & _ & Er)|[Hfull (buf' & Hb' & Er)]];
    rewrite Z.mul_0_r in Er; mstep Er.
  - apply negb_true_iff in Hfree. change (name (decode_entry (slice (20 * k) 20 (contents s i)))) with (name (E k)).
    destruct (set_name_spec n (name (E k)) Hn ltac:(lia) (length_name k ltac:(lia))) as [Nc Nl].
    set (e := DirEntry sec (set_name n (name (E k))) true). destruct (decode_encode_entry e Hs Nl) as [Hde He].
    destruct (dir_write k e Hd ltac:(lia) He) as (s' & Ew & W1 & W2 & W3 & W4 & W5). rewrite bool_decide_eq_true_2 in Ew, W4, W5 by lia.
    mstep Ew. exists true, s'. split_and!; [done|split; [|done]|done|apply Hst; try done; rewrite W5; by apply dir_rep_insert; try lia|].
    + intros _. split_and!; [done|done|]. exists k. split; [lia|done].
    + exists k, (encode_entry e). split; [done|lia].
  - destruct (dir_write cnt (DirEntry sec (set_name n (name (decode_entry buf'))) true) Hd ltac:(lia)) as (s' & Ew & W1 & W2 & W3 & W4 & W5).
    { apply decode_encode_entry; [done|]. cbn [name]. apply set_name_spec; [done|lia|]. unfold decode_entry. cbn [name]. apply length_slice. lia. }
    rewrite bool_decide_eq_false_2 in Ew, W4, W5 by lia. mstep Ew. exists false, s'. split_and!; [done|split; [done|]|done|by apply Hst; try done; rewrite W5|].
    + intros (_ & _ & k & Hk & Hu). specialize (Hfull k ltac:(lia)). cbv beta in Hfull. by rewrite Hu in Hfull.
    + exists 0%nat, []. rewrite splice_nil. cbn. split; [done|lia].
Qed.
End Dir.

(** ** Properties *)

(** C14: A directory is a finite map from names to sectors.  [lookup] finds
    exactly the names in the map and changes nothing; [dir_add] rejects empty
    names, names of more than 14 characters and names in use, adds every other
    name as long as the directory has a free entry, and otherwise leaves the map
    alone; the only bytes that change on the disk are those of the directory
    file, so every other file keeps its contents. *)
Theorem directory_is_finite_map junk s d x i cnt M n sec :
  dir_state s d x i cnt M -> length junk = 20%nat -> is_name n -> is_u32 sec -> deny_write_cnt i = 0 ->
  (exists r, Directory.lookup junk d n s = Ok (r, s) /\ (fun eo => inode_sector eo.1) <$> r = M !! n) /\
  (exists b s', dir_add junk d n sec s = Ok (b, s') /\
     (b = true <-> valid_name n = true /\ M !! n = None /\ exists k, (k < cnt)%nat /\ in_use (entry_at (contents s i) k) = false) /\
     dir_state s' d x i cnt (if b then <[n := sec]> M else M) /\
     (exists r, Directory.lookup junk d n s' = Ok (r, s') /\
        (fun eo => inode_sector eo.1) <$> r = if b then Some sec else M !! n) /\
     inodes s' = inodes s /\
     forall j, inode_ok s j -> sectors_disjoint i j -> contents s' j = contents s j).
Proof.
  intros D Hj Hn Hs Hd.
  assert (forall s M, dir_state s d x i cnt M -> exists r, Directory.lookup junk d n s = Ok (r, s) /\ (fun eo => inode_sector eo.1) <$> r = M !! n) as Hl.
  { intros s0 M0 D0. destruct (lookup_run s0 d x i cnt M0 D0 junk n Hj) as [(Hm & El & _)|(k & Hk & Hm & _ & El)]; rewrite El, Hm; eauto. }
  split; [by apply Hl|]. destruct (dir_add_run s d x i cnt M D junk n sec Hj Hn Hs Hd) as (b & s' & E & Hb & Hc & D' & k & bs & Hf & Hr).
  exists b, s'. split_and!; [done|done|done| | |].
  - destruct (Hl s' _ D') as (r & Er & Hr'). exists r. split; [done|]. rewrite Hr'. destruct b; [by rewrite lookup_insert_eq|done].
  - by destruct Hc as (dd & l & -> & _).
  - intros j Hok Hdis. unfold contents. rewrite Hf. pose proof (ds_length _ _ _ _ _ _ D) as Hlen. pose proof (contents_fits s i (ds_disk _ _ _ _ _ _ D) (ds_ok _ _ _ _ _ _ D)) as Hfit.
    pose proof (io_start _ _ (ds_ok _ _ _ _ _ _ D)). pose proof (io_start _ _ Hok). pose proof (io_len _ _ Hok). unfold disk_pos, sectors_disjoint in *.
    apply slice_splice_out; lia.
Qed.

(** A directory with two entries, one of them for the file ["ab"] at 3. *)
Definition demo_dir_inode : inode := Inode 1 1 false 0 (InodeDisk 2 40 INODE_MAGIC).
Definition demo_entry : dir_entry := DirEntry 3 ([97; 98] ++ replicate 13 0) true.
Definition demo_dir_fs : fs :=
  FS [replicate 512 0; replicate 512 0; encode_entry demo_entry ++ replicate 492 0; replicate 512 2] {[ 64 := demo_dir_inode ]} [64] ∅ {[ 80 := Dir 64 0 ]} 100 []
    (Bitmap 4 [15]) 0.

Lemma demo_dir_state : dir_state demo_dir_fs 80 (Dir 64 0) demo_dir_inode 2 {[ [97; 98] := 3 ]}.
Proof.
  assert (entry_at (contents demo_dir_fs demo_dir_inode) 0 = demo_entry) as E0 by (vm_compute; reflexivity).
  assert (in_use (entry_at (contents demo_dir_fs demo_dir_inode) 1) = false) as E1 by (vm_compute; reflexivity).
  split; [split; [discriminate|reflexivity]|reflexivity| |split; by vm_compute|reflexivity|reflexivity|].
  - split; [|by vm_compute]. repeat (apply Forall_cons; split; [reflexivity|]). by apply Forall_nil.
  - split.
    + intros n sec. rewrite lookup_singleton_Some. split.
      * intros [<- <-]. exists 0%nat. rewrite E0. split_and!; [lia|done..].
      * intros (j & Hj & U & N & S). destruct j as [|[|j]]; [|by rewrite E1 in U|lia]. rewrite E0 in N, S. by rewrite <- N, <- S.
    + intros j k Hj Hk U1 U2 _. destruct j as [|[|j]], k as [|[|k]]; try lia; try (by rewrite E1 in U2); by rewrite E1 in U1.
Qed.

Lemma directory_is_finite_map_witness :
  exists s', dir_add (replicate 20 7) 80 [99] 9 demo_dir_fs = Ok (true, s') /\
    exists e ofs, Directory.lookup (replicate 20 7) 80 [99] s' = Ok (Some (e, ofs), s') /\ inode_sector e = 9.
Proof.
  destruct (directory_is_finite_map (replicate 20 7) demo_dir_fs 80 (Dir 64 0) demo_dir_inode 2 {[ [97; 98] := 3 ]} [99] 9 demo_dir_state)
    as [_ (b & s' & E & Hb & _ & (r & Er & Hr) & _)]; [reflexivity|repeat constructor; lia|unfold is_u; lia|reflexivity|].
  assert (b = true) as ->.
  { apply Hb. split; [reflexivity|]. split; [reflexivity|]. exists 1%nat. split; [lia|vm_compute; reflexivity]. }
  exists s'. split; [exact E|]. destruct r as [[e ofs]|]; [|discriminate Hr]. exists e, ofs. split; [exact Er|]. injection Hr as Hr. exact Hr.
Defined.
