(* ===== verification/DirSpec.v ===== *)
(** * Removing files (filesys/directory.c)

    [dir_remove] uses the directory, the table of open inodes and the free map:
    the name goes at once, the file only with its last opener. *)

From stdpp Require Import gmap.
From S2P Require Import Prelude Bitmap Inode FreeMap FileSpec Directory.

(** What opening an inode leaves alone. *)
Definition same_rest (s s' : fs) : Prop :=
  files s' = files s /\ dirs s' = dirs s /\ free_map s' = free_map s /\ free_map_file s' = free_map_file s.

Lemma find_open_pure l sec s r s' : find_open l sec s = Ok (r, s') -> s' = s.
Proof.
  induction l as [|p l IH]; cbn [find_open]; [by intros [= _ <-]|]. intros H. apply bind_inv in H as (i & s1 & H1 & H).
  unfold get_inode in H1. apply rbind_inv in H1 as (j & _ & [= -> <-]). destruct (_ =? sec); [by injection H as _ <-|by apply IH].
Qed.

Lemma inode_open_rest sec s p s' : inode_open sec s = Ok (p, s') -> same_rest s s'.
Proof.
  unfold inode_open. intros H. apply bind_inv in H as (s0 & s1 & Hg & H). injection Hg as <- <-.
  apply bind_inv in H as (r & s2 & Hf & H). apply find_open_pure in Hf as ->. destruct r as [q|].
  - unfold inode_reopen in H. destruct (q =? NULL); [by injection H as _ <-|]. apply bind_inv in H as (i & s3 & H1 & H).
    unfold get_inode in H1. apply rbind_inv in H1 as (j & _ & [= -> <-]). by injection H as _ <-.
  - apply bind_inv in H as (b & s3 & Ha & H). assert (same_rest s s3) as (R1 & R2 & R3 & R4).
    { unfold alloc in Ha. by destruct (allocs s); injection Ha as _ <-. }
    destruct b; cbn [negb] in H; [|injection H as _ <-; by split_and!].
    apply bind_inv in H as (q & s4 & Hn & H). injection Hn as <- <-. apply bind_inv in H as ([] & s5 & Hm & H). injection Hm as <-.
    apply bind_inv in H as (raw & s6 & Hr & H). assert (s6 = set_open (cons (next_addr s3)) (FS (disk s3) (inodes s3) (open_inodes s3) (files s3) (dirs s3) (next_addr s3 + 1) (allocs s3) (free_map s3) (free_map_file s3))) as ->.
    { unfold disk_read in Hr. apply bind_inv in Hr as (? & ? & Hg & Hr). injection Hg as <- <-. apply bind_inv in Hr as (? & s7 & H1 & Hr).
      unfold ASSERT in H1. destruct (_ <? _); [|done]. injection H1 as _ <-. apply bind_inv in Hr as (? & s8 & H1 & Hr).
      unfold ASSERT in H1. destruct (_ <? _); [|done]. injection H1 as _ <-. unfold lift in Hr. apply rbind_inv in Hr as (? & _ & [= _ <-]). done. }
    injection H as _ <-. by split_and!.
Qed.

(** The directory is not touched by changes elsewhere. *)
Lemma dir_state_kept s s' d x i cnt M :
  dir_state s d x i cnt M -> dirs s' = dirs s -> inodes s' !! d_inode x = Some i -> disk s' = disk s -> allocs s' = [] -> dir_state s' d x i cnt M.
Proof.
  intros [[D0 D0'] D1 D2 [J1 J2 J3] D4 D5 D6] Ed Ei Ek Ea. split; [by rewrite Ed|done| | |done|done|].
  - unfold disk_ok. by rewrite Ek.
  - split; [done|done|]. unfold disk_size in *. by rewrite Ek.
  - unfold contents, flat in *. by rewrite Ek.
Qed.

Lemma itable_kept s s' : itable s -> inodes s' = inodes s -> open_inodes s' = open_inodes s -> next_addr s' = next_addr s -> itable s'.
Proof. intros [T1 T2 T3 T4 T5 T6] E1 E2 E3. split; rewrite ?E1, ?E2, ?E3; done. Qed.

Lemma fmap_ok_kept s s' fi p :
  fmap_ok s (Some fi) -> same_rest s s' -> disk s' = disk s -> not_free_map s p ->
  (forall q, q <> p -> inodes s' !! q = inodes s !! q) -> fmap_ok s' (Some fi) /\ not_free_map s' p.
Proof.
  intros [F1 F2 F3 [N [(f & Hf & Hi) [J1 J2 J3] G3 G4]]] (R1 & R2 & R3 & R4) Ed Hp Hq. unfold not_free_map in *. rewrite R1, R4. split; [|done].
  split; rewrite ?R3; [done|done|unfold disk_ok; by rewrite Ed|]. rewrite R4. split; [done|]. split; [|split|done|by rewrite R3].
  - exists f. rewrite R1, R4, Hq by (by apply Hp). done.
  - done.
  - done.
  - unfold disk_size in *. by rewrite Ed.
Qed.

(** The inode of a file that has lost its name. *)
Definition nameless (i : inode) : inode := Inode (sector i) (open_cnt i) true (deny_write_cnt i) (data i).

Section remove.
Context {s : fs} {d : Z} {x : dir} {i : inode} {cnt : nat} {M : gmap (list Z) Z}.
Hypothesis D : dir_state s d x i cnt M.
Hypothesis T : itable s.
Hypothesis Hdeny : deny_write_cnt i = 0.
Notation E k := (entry_at (contents s i) k).

(** The entry is cleared, whatever inodes have been opened in between. *)
Lemma clear_entry s1 k n :
  dir_state s1 d x i cnt M -> contents s1 i = contents s i -> (k < cnt)%nat -> matches n (E k) = true -> is_u32 (inode_sector (E k)) ->
  exists s2, inode_write_at (d_inode x) (encode_entry (DirEntry (inode_sector (E k)) (name (E k)) false)) ENTRY_SIZE (s32 (20 * Z.of_nat k)) s1 = Ok (20, s2) /\
    disk_changed s1 s2 /\ dir_state s2 d x i cnt (delete n M) /\
    (forall j, inode_ok s1 j -> sectors_disjoint i j -> contents s2 j = contents s1 j).
Proof using D Hdeny.
  intros D1 Ec Hk Hm Hs. set (e := DirEntry (inode_sector (E k)) (name (E k)) false).
  destruct (decode_encode_entry e Hs (length_name s d x i cnt M D k Hk)) as [Hde He].
  destruct (dir_write s1 d x i cnt M D1 k e Hdeny ltac:(lia) He) as (s2 & Ew & W1 & W2 & W3 & W4 & W5). rewrite bool_decide_eq_true_2 in Ew, W4, W5 by done.
  exists s2. split_and!; [exact Ew|done| |].
  - pose proof D1 as [[D0 D0'] D2 D3 D4 D5 D6 D7]. pose proof (inode_ok_changed _ _ _ W2 D4) as Hi'.
    assert (dir_rep (contents s2 i) cnt (delete n M)) as HR. { rewrite W5. apply (dir_rep_delete s1 d x i cnt M D1 k n e); try done. by rewrite Ec. }
    destruct W2 as (dd & l & -> & _). by split.
  - intros j Hj Hdis. unfold contents. rewrite W4. pose proof (ds_length _ _ _ _ _ _ D1) as Hlen. pose proof (contents_fits s1 i (ds_disk _ _ _ _ _ _ D1) (ds_ok _ _ _ _ _ _ D1)) as Hfit.
    pose proof (io_start _ _ (ds_ok _ _ _ _ _ _ D1)). pose proof (io_start _ _ Hj). pose proof (io_len _ _ Hj). unfold disk_pos, sectors_disjoint in *.
    apply slice_splice_out; lia.
Qed.

Lemma dir_sector_ok sec : 0 <= sec < disk_size s -> is_u32 sec.
Proof using D. intros H. destruct (ds_disk _ _ _ _ _ _ D) as [_ Hd]. unfold disk_size, is_u in *. lia. Qed.

(** The name goes while the file is open at [p]. *)
Lemma remove_open junk n sec p j :
  length junk = 20%nat -> M !! n = Some sec -> 0 <= sec < disk_size s -> sec <> sector i ->
  inodes s !! p = Some j -> sector j = sec -> (forall q k, inodes s !! q = Some k -> open_cnt k < 2 ^ 31 - 1) ->
  exists s', dir_remove junk d n s = Ok (true, s') /\ dir_state s' d x i cnt (delete n M) /\ itable s' /\
    inodes s' = <[p := nameless j]> (inodes s) /\ free_map s' = free_map s /\
    (forall k, inode_ok s k -> sectors_disjoint i k -> contents s' k = contents s k).
Proof using D T Hdeny.
  intros Hj Hn Hs Hne Hp Es Hmax. unfold dir_remove. rewrite (nonnull_dir s d x i cnt M D). mnorm.
  destruct (lookup_run s d x i cnt M D junk n Hj) as [(Hm & _)|(k & Hk & Hm & Hmt & El)]; [congruence|]. mstep El.
  assert (inode_sector (E k) = sec) as Ek by congruence. rewrite Ek.
  destruct (inode_open_run s sec T (ds_disk _ _ _ _ _ _ D) Hs Hmax) as [(q & j' & Hq & Eq & Eo & T1)|[Hno _]]; [|by apply Hno in Hp].
  assert (q = p) as -> by (apply (it_sector _ T q p j' j Hq Hp); congruence). rewrite Hp in Hq. injection Hq as <-.
  mstep Eo. destruct (it_fresh _ T p ltac:(eauto)) as [Hp0 _]. rewrite (proj2 (Z.eqb_neq p NULL)) by (unfold NULL; lia).
  set (s1 := set_inodes (<[p := reopened j]>) s) in *.
  assert (d_inode x <> p) as Hdp. { intros Ed. pose proof (ds_inode _ _ _ _ _ _ D) as Hi. rewrite Ed, Hp in Hi. injection Hi as ->. congruence. }
  assert (dir_state s1 d x i cnt M) as D1.
  { apply (dir_state_kept s); [done|done| |done|apply D]. unfold s1. cbn. rewrite lookup_insert_ne by done. apply D. }
  assert (get_dir d s1 = Ok (x, s1)) as Eg by apply (get_dir_run s1 d x i cnt M D1). cbv iota. mnorm. mstep Eg.
  destruct (clear_entry s1 k n D1 eq_refl Hk Hmt) as (s2 & Ew & Hc & D2 & Hct); [rewrite Ek; by apply dir_sector_ok|]. rewrite Ek in Ew. mstep Ew.
  change (20 =? ENTRY_SIZE) with true. cbn [negb]. mnorm. unfold inode_remove. rewrite (proj2 (Z.eqb_neq p NULL)) by (unfold NULL; lia). cbn [negb]. mnorm.
  assert (inodes s2 = inodes s1 /\ open_inodes s2 = open_inodes s1 /\ next_addr s2 = next_addr s1 /\ free_map s2 = free_map s1 /\ dirs s2 = dirs s1) as (I2 & O2 & N2 & F2 & Di2)
    by (destruct Hc as (dd & l & -> & _); done).
  assert (inodes s2 !! p = Some (reopened j)) as Hp2 by (rewrite I2; apply lookup_insert_eq). mstep (get_inode_run s2 p _ Hp2). unfold put_inode. mnorm.
  cbn [sector open_cnt deny_write_cnt data reopened]. set (j2 := Inode (sector j) (open_cnt j + 1) true (deny_write_cnt j) (data j)).
  destruct (it_cnt _ T _ _ Hp) as [C1 C2]. pose proof (Hmax _ _ Hp) as C3.
  assert (itable (set_inodes (<[p := j2]>) s2)) as T3.
  { eapply itable_put; [by apply (itable_kept s1 s2 T1)|exact Hp2|done|cbn; lia|cbn; lia]. }
  destruct (inode_close_more (set_inodes (<[p := j2]>) s2) p j2 T3) as [Ecl T4]; [apply lookup_insert_eq|cbn; lia|cbn; lia|]. mstep Ecl.
  assert (closed j2 = nameless j) as Ej by (unfold closed, nameless; cbn; f_equal; lia). rewrite Ej in *.
  eexists. split_and!; [reflexivity| |exact T4| |exact F2|].
  - apply (dir_state_kept s2); [done|done| |done|apply D2]. cbn. rewrite !lookup_insert_ne by done. apply D2.
  - cbn. rewrite I2. unfold s1. cbn. by rewrite !insert_insert_eq.
  - intros q Hq Hdis. transitivity (contents s2 q); [done|]. apply (Hct q); [by destruct Hq; split|done].
Qed.

(** The file that is on the disk only goes at once, with its sectors. *)
Lemma remove_closed junk n sec raw fi :
  length junk = 20%nat -> M !! n = Some sec -> 0 <= sec < disk_size s -> (forall q k, inodes s !! q = Some k -> open_cnt k < 2 ^ 31 - 1) ->
  (forall p j, inodes s !! p = Some j -> sector j <> sec) -> disk s !! Z.to_nat sec = Some raw ->
  let j := Inode sec 1 true 0 (decode_inode raw) in
  fmap_ok s (Some fi) -> sectors_disjoint fi i ->
  0 <= length_ (data j) < 2 ^ 31 - 512 -> sec < bit_cnt (free_map s) -> 0 <= start (data j) ->
  start (data j) + (length_ (data j) + 511) / 512 <= bit_cnt (free_map s) ->
  in_range (start (data j)) ((length_ (data j) + 511) / 512) sec = false -> (forall k, owns j k = true -> bit (free_map s) k = true) ->
  exists s', dir_remove junk d n s = Ok (true, s') /\ dir_state s' d x i cnt (delete n M) /\ itable s' /\ inodes s' = inodes s /\
    (forall k, 0 <= k -> bit (free_map s') k = if owns j k then false else bit (free_map s) k) /\
    (forall k, inode_ok s k -> sectors_disjoint i k -> sectors_disjoint fi k -> contents s' k = contents s k).
Proof using D T Hdeny.
  intros Hj Hn Hs Hmax Hno Hraw j F Hfi Hl Hb H0 Hend Hself Hown. unfold dir_remove. rewrite (nonnull_dir s d x i cnt M D). mnorm.
  destruct (lookup_run s d x i cnt M D junk n Hj) as [(Hm & _)|(k & Hk & Hm & Hmt & El)]; [congruence|]. mstep El.
  assert (inode_sector (E k) = sec) as Ek by congruence. rewrite Ek.
  destruct (inode_open_run s sec T (ds_disk _ _ _ _ _ _ D) Hs Hmax) as [(q & j' & Hq & Eq & _)|(_ & p & s1 & Eo & T1 & Ed1 & Ha1 & _ & Hp1)]; [by apply Hno in Hq|].
  destruct (Ha1 (ds_allocs _ _ _ _ _ _ D)) as [Hpn Hal1]. destruct (Hp1 Hpn) as (Hfresh & raw' & Hraw' & I1). rewrite Hraw in Hraw'. injection Hraw' as <-.
  pose proof (inode_open_rest _ _ _ _ Eo) as R1. mstep Eo. rewrite (proj2 (Z.eqb_neq p NULL) Hpn).
  assert (d_inode x <> p) as Hdp by (intros <-; pose proof (ds_inode _ _ _ _ _ _ D); congruence).
  assert (not_free_map s p) as Hnf. { intros f Hf <-. destruct F as [_ _ _ [_ [(f' & Hf' & Hi') _ _ _]]]. congruence. }
  destruct (fmap_ok_kept s s1 fi p F R1 Ed1 Hnf) as [F1 Hnf1]; [intros q Hq; rewrite I1; by rewrite lookup_insert_ne|].
  assert (dir_state s1 d x i cnt M) as D1.
  { apply (dir_state_kept s); [done|apply R1| |done|done]. rewrite I1, lookup_insert_ne by done. apply D. }
  assert (get_dir d s1 = Ok (x, s1)) as Eg by apply (get_dir_run s1 d x i cnt M D1). cbv iota. mnorm. mstep Eg.
  assert (contents s1 i = contents s i) as Ec1 by (unfold contents, flat; by rewrite Ed1).
  destruct (clear_entry s1 k n D1 Ec1 Hk Hmt) as (s2 & Ew & Hc & D2 & Hct); [rewrite Ek; by apply dir_sector_ok|]. rewrite Ek in Ew. mstep Ew.
  change (20 =? ENTRY_SIZE) with true. cbn [negb]. mnorm. unfold inode_remove. rewrite (proj2 (Z.eqb_neq p NULL) Hpn). cbn [negb]. mnorm.
  pose proof (fmap_ok_changed s1 s2 fi F1 Hc (ds_disk _ _ _ _ _ _ D2)) as F2.
  assert (inodes s2 = inodes s1 /\ open_inodes s2 = open_inodes s1 /\ next_addr s2 = next_addr s1 /\ same_rest s1 s2 /\ disk_size s2 = disk_size s1) as (I2 & O2 & N2 & R2 & Ds2)
    by (destruct Hc as (dd & l & -> & Hd' & _); unfold disk_size; cbn; rewrite Hd'; done).
  assert (inodes s2 !! p = Some (Inode sec 1 false 0 (decode_inode raw))) as Hp2 by (rewrite I2, I1; apply lookup_insert_eq).
  mstep (get_inode_run s2 p _ Hp2). unfold put_inode. mnorm. cbn [sector open_cnt deny_write_cnt data]. fold j. set (s3 := set_inodes (<[p := j]>) s2).
  assert (not_free_map s2 p) as Hnf2. { unfold not_free_map in *. destruct R2 as (Q1 & _ & _ & Q4). by rewrite Q1, Q4. }
  destruct (fmap_ok_kept s2 s3 fi p F2 ltac:(done) eq_refl Hnf2) as [F3 Hnf3]; [intros q Hq; cbn; by rewrite lookup_insert_ne|].
  assert (itable s3) as T3. { eapply itable_put; [by apply (itable_kept s1 s2 T1)|exact Hp2|done|cbn; lia|cbn; lia]. }
  assert (free_map s3 = free_map s) as Efm. { cbn. destruct R1 as (_ & _ & <- & _), R2 as (_ & _ & <- & _). done. }
  destruct (inode_close_removed s3 p j fi T3 F3 Hnf3) as (s4 & E4 & T4 & F4 & I4 & B4 & Hct4 & Di4 & Ds4 & Al4); rewrite ?Efm; try done; [apply lookup_insert_eq|cbn; lia|].
  mstep E4. assert (contents s3 i = contents s2 i) as Ec3 by done.
  assert (inode_ok s3 i) as Hi3 by (destruct (ds_ok _ _ _ _ _ _ D2); by split).
  assert (inodes s4 = inodes s) as I4'. { rewrite I4. cbn. rewrite delete_insert_eq, I2, I1, delete_insert_eq. by apply delete_id. }
  exists s4. split_and!; [done| |done|done|by rewrite Efm in B4|].
  - pose proof D2 as [[Q0 Q0'] Q1 Q2 [J1 J2 J3] Q4 Q5 Q6]. split; [by rewrite Di4|rewrite I4'; apply D|apply F4| |done|by apply Al4|].
    + split; [done|done|]. rewrite Ds4. exact J3.
    + by rewrite Hct4.
  - intros q Hq Hdis Hdis'. assert (disk_size s1 = disk_size s) as Ds1 by (unfold disk_size; by rewrite Ed1). destruct Hq as [K1 K2 K3].
    rewrite Hct4; [|split; [done|done|]; change (disk_size s3) with (disk_size s2); by rewrite Ds2, Ds1|done].
    change (contents s3 q) with (contents s2 q). rewrite Hct; [unfold contents, flat; by rewrite Ed1|split; [done|done|by rewrite Ds1]|done].
Qed.
End remove.

(** ** Properties *)

(** C15: Removing a name.  [dir_remove] of a name that is not in the directory
    changes nothing and returns false.  Otherwise it takes exactly this name
    out of the directory.  A file that is open stays: only its inode is marked
    as removed, its sectors remain in use and its contents unchanged.  A file
    that is not open goes at once: exactly its inode sector and its data
    sectors become free, and the table of open inodes is as before.  In both
    cases all other files keep their contents. *)
Theorem dir_remove_unlinks junk s d x i cnt M n :
  dir_state s d x i cnt M -> itable s -> deny_write_cnt i = 0 -> length junk = 20%nat ->
  (forall q k, inodes s !! q = Some k -> open_cnt k < 2 ^ 31 - 1) ->
  (M !! n = None -> dir_remove junk d n s = Ok (false, s)) /\
  (forall sec, M !! n = Some sec -> 0 <= sec < disk_size s -> sec <> sector i ->
   (forall p j, inodes s !! p = Some j -> sector j = sec ->
      exists s', dir_remove junk d n s = Ok (true, s') /\ dir_state s' d x i cnt (delete n M) /\ itable s' /\
        inodes s' = <[p := nameless j]> (inodes s) /\ free_map s' = free_map s /\
        (forall k, inode_ok s k -> sectors_disjoint i k -> contents s' k = contents s k)) /\
   (forall raw fi, (forall p j, inodes s !! p = Some j -> sector j <> sec) -> disk s !! Z.to_nat sec = Some raw ->
      let j := Inode sec 1 true 0 (decode_inode raw) in
      fmap_ok s (Some fi) -> sectors_disjoint fi i ->
      0 <= length_ (data j) < 2 ^ 31 - 512 -> sec < bit_cnt (free_map s) -> 0 <= start (data j) ->
      start (data j) + (length_ (data j) + 511) / 512 <= bit_cnt (free_map s) ->
      in_range (start (data j)) ((length_ (data j) + 511) / 512) sec = false -> (forall k, owns j k = true -> bit (free_map s) k = true) ->
      exists s', dir_remove junk d n s = Ok (true, s') /\ dir_state s' d x i cnt (delete n M) /\ itable s' /\ inodes s' = inodes s /\
        (forall k, 0 <= k -> bit (free_map s') k = if owns j k then false else bit (free_map s) k) /\
        (forall k, inode_ok s k -> sectors_disjoint i k -> sectors_disjoint fi k -> contents s' k = contents s k))).
Proof.
  intros D T Hd Hj Hmax. split.
  - intros Hn. unfold dir_remove. rewrite (nonnull_dir s d x i cnt M D). mnorm.
    destruct (lookup_run s d x i cnt M D junk n Hj) as [(_ & El & _)|(k & _ & Hm & _)]; [|congruence]. by mstep El.
  - intros sec Hn Hs Hne. split.
    + intros p j Hp Es. by apply (remove_open D T Hd junk n sec).
    + intros raw fi Hno Hraw j F Hfi. by apply (remove_closed D T Hd).
Qed.

(** The directory of [demo_dir_fs], whose file is open. *)
Definition demo_file_inode : inode := Inode 3 1 false 0 (InodeDisk 0 0 INODE_MAGIC).
Definition demo_open_fs : fs :=
  FS (disk demo_dir_fs) (<[64 := demo_dir_inode]> {[ 65 := demo_file_inode ]}) [65; 64] ∅ {[ 80 := Dir 64 0 ]} 100 [] (Bitmap 4 [15]) 0.

Lemma demo_open_lookup p j : inodes demo_open_fs !! p = Some j -> (p = 64 /\ j = demo_dir_inode) \/ (p = 65 /\ j = demo_file_inode).
Proof. cbn. intros [[<- <-]|[_ [<- <-]%lookup_singleton_Some]]%lookup_insert_Some; [by left|by right]. Qed.

Lemma demo_open_table : itable demo_open_fs.
Proof.
  split; cbn [open_inodes demo_open_fs next_addr].
  - intros p. split.
    + intros [->|[->|?%elem_of_nil]%elem_of_cons]%elem_of_cons; [by eexists|by eexists|done].
    + intros [j [[-> _]|[-> _]]%demo_open_lookup]; set_solver.
  - apply NoDup_cons. split; [set_solver|]. apply NoDup_singleton.
  - intros p q j k Hj Hk Es. apply demo_open_lookup in Hj as [[-> ->]|[-> ->]], Hk as [[-> ->]|[-> ->]]; done.
  - intros p j [[_ ->]|[_ ->]]%demo_open_lookup; cbn; lia.
  - intros p [j [[-> _]|[-> _]]%demo_open_lookup]; lia.
  - lia.
Qed.

Lemma dir_remove_unlinks_witness : exists s', dir_remove (replicate 20 7) 80 [97; 98] demo_open_fs = Ok (true, s') /\
  dir_state s' 80 (Dir 64 0) demo_dir_inode 2 (delete [97; 98] {[ [97; 98] := 3 ]}) /\ inodes s' !! 65 = Some (nameless demo_file_inode).
Proof.
  assert (dir_state demo_open_fs 80 (Dir 64 0) demo_dir_inode 2 {[ [97; 98] := 3 ]}) as D by (apply (dir_state_kept demo_dir_fs); [apply demo_dir_state|reflexivity..]).
  destruct (dir_remove_unlinks (replicate 20 7) demo_open_fs 80 (Dir 64 0) demo_dir_inode 2 {[ [97; 98] := 3 ]} [97; 98] D demo_open_table) as [_ H];
    [reflexivity|reflexivity|intros q k [[_ ->]|[_ ->]]%demo_open_lookup; cbn; lia|].
  destruct (H 3) as [Ho _]; [reflexivity|by vm_compute|discriminate|].
  destruct (Ho 65 demo_file_inode) as (s' & E & D' & _ & I' & _); [reflexivity|reflexivity|].
  exists s'. split; [exact E|]. split; [exact D'|]. rewrite I'. reflexivity.
Defined.
