(* ===== verification/FilesysSpec.v ===== *)
(** * Creating and opening files by name (filesys/filesys.c)

    [filesys_open] opens the root directory, looks the name up, closes the
    directory and opens the file.  What a sector denotes as an inode is what is
    in memory, when the inode is open, and otherwise what is on the disk.
    [filesys_create] joins the directory, the free map and the inodes; the
    invariant [fs_ready] says that what is in use is marked in the free map. *)

From stdpp Require Import gmap.
From S2P Require Import Prelude Bitmap Inode FreeMap FileSpec Directory DirSpec.

Definition denotes (s : fs) (sec : Z) (dd : inode_disk) : Prop :=
  (forall p i, inodes s !! p = Some i -> sector i = sec -> data i = dd) /\
  ((forall p i, inodes s !! p = Some i -> sector i <> sec) -> exists raw, disk s !! Z.to_nat sec = Some raw /\ decode_inode raw = dd).

(** The table of open inodes is consistent, none is open too often, and memory
    suffices. *)
Record table_ready (s : fs) : Prop := {
  tr_table : itable s;
  tr_disk : disk_ok s;
  tr_room p i : inodes s !! p = Some i -> open_cnt i < 2 ^ 31 - 2;
  tr_allocs : allocs s = []
}.

(** The inode [i] at [p] has one opener more than in [s]. *)
Definition one_more (s : fs) (sec : Z) (dd : inode_disk) (p : Z) (i : inode) : Prop :=
  match inodes s !! p with
  | Some j => sector j = sec /\ data j = dd /\ i = reopened j
  | None => i = Inode sec 1 false 0 dd
  end.

Lemma one_more_facts s sec dd p i : itable s -> one_more s sec dd p i ->
  sector i = sec /\ data i = dd /\ deny_write_cnt i < open_cnt i /\ (open_cnt i = 1 -> inodes s !! p = None /\ removed i = false) /\
  (if open_cnt i =? 1 then inodes s !! p = None else inodes s !! p = Some (closed i)).
Proof.
  intros T H. unfold one_more in H. destruct (inodes s !! p) as [j|] eqn:Ej; [destruct H as (<- & <- & ->)|subst i; by cbn].
  destruct (it_cnt _ T _ _ Ej) as [C1 C2]. cbn. rewrite (proj2 (Z.eqb_neq _ _)) by lia. split_and!; try done; [lia|lia|].
  f_equal. unfold closed. cbn. destruct j. cbn. f_equal. lia.
Qed.

Lemma open_denoted s sec dd : itable s -> disk_ok s -> (forall p i, inodes s !! p = Some i -> open_cnt i < 2 ^ 31 - 1) -> allocs s = [] ->
  0 <= sec < disk_size s -> denotes s sec dd ->
  exists p i s', inode_open sec s = Ok (p, s') /\ p <> NULL /\ one_more s sec dd p i /\ inodes s' = <[p := i]> (inodes s) /\
    disk s' = disk s /\ allocs s' = [] /\ itable s' /\ same_rest s s'.
Proof.
  intros T Hd Hroom Ha Hs [D1 D2].
  destruct (inode_open_run s sec T Hd Hs Hroom) as [(p & i & Hp & Es & E & T')|(Hno & p & s' & E & T' & Ed & Hal & _ & Hn)].
  - exists p, (reopened i), (set_inodes (<[p := reopened i]>) s). destruct (it_fresh _ T p) as [H0 _]; [eauto|].
    assert (p <> NULL) by (unfold NULL; lia). assert (one_more s sec dd p (reopened i)) by (unfold one_more; rewrite Hp; by eauto).
    split_and!; done.
  - destruct (Hal Ha) as [Hnn Ha']. destruct (Hn Hnn) as (Hp & raw & Hraw & Ei). destruct (D2 Hno) as (raw' & Hraw' & Edd). assert (raw' = raw) as -> by congruence.
    exists p, (Inode sec 1 false 0 dd), s'. assert (one_more s sec dd p (Inode sec 1 false 0 dd)) by (unfold one_more; by rewrite Hp).
    pose proof (inode_open_rest _ _ _ _ E). rewrite Edd in Ei. split_and!; done.
Qed.

(** Closing undoes opening. *)
Lemma close_one_more s0 s sec dd p i : itable s0 -> itable s -> one_more s0 sec dd p i -> inodes s !! p = Some i ->
  exists s', inode_close p s = Ok (tt, s') /\ itable s' /\ disk s' = disk s /\ allocs s' = allocs s /\ same_rest s s' /\ next_addr s' = next_addr s /\
    inodes s' !! p = inodes s0 !! p /\ forall q, q <> p -> inodes s' !! q = inodes s !! q.
Proof.
  intros T0 T H Hp. destruct (one_more_facts _ _ _ _ _ T0 H) as (_ & _ & Hdc & H1 & Hb). destruct (it_cnt _ T _ _ Hp) as [C1 C2]. destruct (Z.eqb_spec (open_cnt i) 1) as [E1|E1].
  - destruct (H1 E1) as [_ Hr]. rewrite (inode_close_last s p i T Hp E1), Hr. mnorm. eexists. split; [reflexivity|]. split.
    { replace (set_inodes (delete p) (unlinked p i s)) with (set_open (List.filter (fun q => negb (q =? p))) (set_inodes (fun _ => delete p (inodes s)) s)); [by apply itable_drop|].
      unfold unlinked, set_open, set_inodes. cbn. by rewrite delete_insert_eq. }
    split_and!; try done; cbn; [by rewrite Hb, lookup_delete_eq|]. intros q Hq. rewrite lookup_delete_ne, lookup_insert_ne by done. done.
  - destruct (inode_close_more s p i T Hp) as [E T']; [lia|done|]. eexists. split; [exact E|]. split_and!; try done; cbn; [by rewrite Hb, lookup_insert_eq|].
    intros q Hq. by rewrite lookup_insert_ne.
Qed.

(** The root directory has the files [M]. *)
Record root_dir (s : fs) (dd : inode_disk) (cnt : nat) (M : gmap (list Z) Z) : Prop := {
  rd_denotes : denotes s ROOT_DIR_SECTOR dd;
  rd_ok : inode_ok s (Inode ROOT_DIR_SECTOR 1 false 0 dd);
  rd_length : length_ dd = 20 * Z.of_nat cnt;
  rd_rep : dir_rep (contents s (Inode ROOT_DIR_SECTOR 1 false 0 dd)) cnt M;
  rd_size : ROOT_DIR_SECTOR < disk_size s
}.

Lemma itable_grow s s' : itable s -> inodes s' = inodes s -> open_inodes s' = open_inodes s -> next_addr s <= next_addr s' -> itable s'.
Proof.
  intros [T1 T2 T3 T4 T5 T6] E1 E2 E3. split; rewrite ?E1, ?E2; try done; [|lia]. intros p H. apply T5 in H. lia.
Qed.

Lemma alloc_ready s : allocs s = [] -> alloc s = Ok (true, s).
Proof. intros H. unfold alloc. by rewrite H. Qed.

(** The directory as [dir_open_root] leaves it. *)
Lemma dir_open_root_run s dd cnt M : table_ready s -> root_dir s dd cnt M ->
  exists d p i s', dir_open_root s = Ok (d, s') /\ dir_state s' d (Dir p 0) i cnt M /\ one_more s ROOT_DIR_SECTOR dd p i /\
    inodes s' = <[p := i]> (inodes s) /\ disk s' = disk s /\ itable s' /\ files s' = files s /\ free_map s' = free_map s /\ free_map_file s' = free_map_file s.
Proof.
  intros [T Hd Hroom Ha] [R1 R2 R3 R4 R5]. unfold dir_open_root.
  destruct (open_denoted s ROOT_DIR_SECTOR dd T Hd) as (p & i & s1 & E & Hp & Hm & Ei & Ed & Ea & T1 & (F1 & F2 & F3 & F4)); [intros p i Hp; specialize (Hroom p i Hp); lia|done|unfold ROOT_DIR_SECTOR in *; lia|done|].
  mstep E. unfold dir_open. mstep (alloc_ready s1 Ea). rewrite (proj2 (Z.eqb_neq p NULL) Hp). cbn [negb andb]. unfold new_addr, put_dir. unfold bind at 1. cbn [rbind]. mnorm.
  destruct (one_more_facts _ _ _ _ _ T Hm) as (_ & Edd & _). exists (next_addr s1), p, i. eexists. split; [reflexivity|].
  assert (contents s1 i = contents s (Inode ROOT_DIR_SECTOR 1 false 0 dd)) as Ec by (unfold contents, flat, disk_pos; cbn; by rewrite Ed, Edd).
  split; [|split_and!; try done; by apply (itable_grow s1); cbn; try done; lia].
  pose proof (it_next _ T1). split; cbn; [split; [unfold NULL; lia|apply lookup_insert_eq]|by rewrite Ei, lookup_insert_eq| | |by rewrite Edd|done|by rewrite <- Ec in R4].
  - unfold disk_ok in *. cbn. by rewrite Ed.
  - destruct R2 as [I1 I2 I3]. cbn in *. split; rewrite ?Edd; try done. unfold disk_size in *. cbn. by rewrite Ed.
Qed.

(** Closing it again. *)
Lemma dir_close_run s0 s d p i dd : itable s0 -> itable s -> one_more s0 ROOT_DIR_SECTOR dd p i -> d <> NULL -> dirs s !! d = Some (Dir p 0) -> inodes s !! p = Some i ->
  exists s', dir_close d s = Ok (tt, s') /\ itable s' /\ disk s' = disk s /\ allocs s' = allocs s /\ files s' = files s /\ free_map s' = free_map s /\
    free_map_file s' = free_map_file s /\ inodes s' !! p = inodes s0 !! p /\ forall q, q <> p -> inodes s' !! q = inodes s !! q.
Proof.
  intros T0 T Hm Hd Hdir Hp. destruct (close_one_more _ _ _ _ _ _ T0 T Hm Hp) as (s' & E & T' & E1 & E2 & (F1 & F2 & F3 & F4) & E3 & E4 & E5).
  unfold dir_close. rewrite (proj2 (Z.eqb_neq d NULL) Hd). assert (get_dir d s = Ok (Dir p 0, s)) as Eg by (unfold get_dir; by rewrite Hdir). mstep Eg. cbn [d_inode]. mstep E.
  eexists. split; [reflexivity|]. split_and!; try done. by apply (itable_grow s').
Qed.

Lemma denotes_kept s s' sec dd : denotes s sec dd -> disk s' = disk s -> sec <> ROOT_DIR_SECTOR ->
  forall p i rd, itable s -> one_more s ROOT_DIR_SECTOR rd p i -> inodes s' = <[p := i]> (inodes s) -> denotes s' sec dd.
Proof.
  intros [D1 D2] Ed Hne p i rd T Hm Ei. destruct (one_more_facts _ _ _ _ _ T Hm) as (Es & _). split; rewrite Ei.
  - intros q j [[<- <-]|[_ Hq]]%lookup_insert_Some Hj; [congruence|by apply (D1 q)].
  - intros Hno. rewrite Ed. apply D2. intros q j Hq Ej. destruct (decide (q = p)) as [->|Hqp].
    + unfold one_more in Hm. rewrite Hq in Hm. destruct Hm as (H & _). congruence.
    + apply (Hno q j); [by rewrite lookup_insert_ne|done].
Qed.

(** What [filesys_open] does. *)
Lemma filesys_open_run junk s rd cnt M n : table_ready s -> root_dir s rd cnt M -> length junk = 20%nat ->
  (M !! n = None -> exists s', filesys_open junk n s = Ok (NULL, s') /\ itable s' /\ inodes s' = inodes s /\ disk s' = disk s /\ files s' = files s /\ allocs s' = []) /\
  (forall sec dd, M !! n = Some sec -> 0 <= sec < disk_size s -> sec <> ROOT_DIR_SECTOR -> denotes s sec dd ->
     exists f p i s', filesys_open junk n s = Ok (f, s') /\ f <> NULL /\ files s' = <[f := File p 0 false]> (files s) /\ one_more s sec dd p i /\
       inodes s' = <[p := i]> (inodes s) /\ itable s' /\ disk s' = disk s /\ allocs s' = [] /\ free_map s' = free_map s /\ free_map_file s' = free_map_file s).
Proof.
  intros R D Hj. pose proof R as [T Hd Hroom Ha]. destruct (dir_open_root_run s rd cnt M R D) as (d & p1 & i1 & s1 & E1 & DS & Hm & Ei & Ed & T1 & Ef & Efm & Eff).
  pose proof DS as [[Hdn Hdir] Hp1 _ _ _ Ha1 _]. cbn [d_inode] in Hp1.
  unfold filesys_open. mstep E1. rewrite (proj2 (Z.eqb_neq d NULL) Hdn). cbn [negb]. unfold dir_lookup. rewrite (nonnull_dir s1 d _ i1 cnt M DS).
  destruct (one_more_facts _ _ _ _ _ T Hm) as (Es1 & Ed1 & _).
  split.
  - intros Hn. destruct (lookup_run s1 d _ i1 cnt M DS junk n Hj) as [(_ & El & _)|(k & _ & Hk & _)]; [|congruence].
    mnorm. mstep El. destruct (dir_close_run s s1 d p1 i1 rd T T1 Hm Hdn Hdir Hp1) as (s2 & E2 & T2 & C1 & C2 & C3 & _ & _ & C4 & C5). mstep E2.
    unfold file_open. mstep (alloc_ready s2 ltac:(congruence)). exists s2. split_and!; try done; try congruence. apply map_eq. intros q.
    destruct (decide (q = p1)) as [->|]; [done|]. by rewrite C5, Ei, lookup_insert_ne by done.
  - intros sec dd Hn Hs Hne HD. destruct (lookup_run s1 d _ i1 cnt M DS junk n Hj) as [(Hk & _)|(k & _ & Hk & _ & El)]; [congruence|].
    assert (inode_sector (entry_at (contents s1 i1) k) = sec) as Ek by congruence. mnorm. mstep El. rewrite Ek.
    destruct (open_denoted s1 sec dd T1) as (p2 & i2 & s2 & E2 & Hp2 & Hm2 & Ei2 & Ed2 & Ha2 & T2 & (F1 & F2 & F3 & F4)); [apply DS| |done|by unfold disk_size in *; rewrite Ed|by apply (denotes_kept s s1 sec dd HD Ed Hne p1 i1 rd)|].
    { rewrite Ei. intros q j [[<- <-]|[_ Hq]]%lookup_insert_Some; [|specialize (Hroom q j Hq); lia]. unfold one_more in Hm.
      destruct (inodes s !! p1) as [j|] eqn:Ej; [destruct Hm as (_ & _ & ->); specialize (Hroom _ _ Ej); cbn; lia|subst i1; cbn; lia]. }
    mstep E2. assert (p2 <> p1) as Hpp. { intros ->. unfold one_more in Hm2. rewrite Ei, lookup_insert_eq in Hm2. destruct Hm2 as (H & _). congruence. }
    destruct (dir_close_run s s2 d p1 i1 rd T T2 Hm Hdn) as (s3 & E3 & T3 & C1 & C2 & C3 & C6 & C7 & C4 & C5); [by rewrite F2|by rewrite Ei2, lookup_insert_ne by done|]. mstep E3.
    unfold file_open. mstep (alloc_ready s3 ltac:(congruence)). rewrite (proj2 (Z.eqb_neq p2 NULL) Hp2). cbn [negb andb]. unfold new_addr, put_file. unfold bind at 1. cbn [rbind]. mnorm.
    exists (next_addr s3), p2, i2. eexists. split; [reflexivity|]. pose proof (it_next _ T3). cbn.
    split_and!; try congruence; [unfold NULL; lia| | |by apply (itable_grow s3); cbn; try done; lia].
    + unfold one_more in *. by rewrite Ei, lookup_insert_ne in Hm2 by done.
    + apply map_eq. intros q. destruct (decide (q = p1)) as [->|]; [by rewrite C4, lookup_insert_ne by done|].
      rewrite C5, Ei2 by done. destruct (decide (q = p2)) as [->|]; [by rewrite !lookup_insert_eq|]. by rewrite !lookup_insert_ne, Ei, lookup_insert_ne by done.
Qed.

(** ** Regions of the disk *)

(** [n] bytes from sector [a] on, as a file. *)
Definition region (a n : Z) : inode := Inode 0 1 false 0 (InodeDisk a n 0).

Lemma sector_region s a : disk_ok s -> 0 <= a < disk_size s -> disk s !! Z.to_nat a = Some (contents s (region a 512)).
Proof.
  intros [Hd _] Ha. unfold disk_size in Ha. destruct (lookup_lt_is_Some_2 (disk s) (Z.to_nat a)) as [sec Hs]; [lia|]. rewrite Hs. f_equal.
  pose proof (slice_sector (disk s) Hd _ _ 0 512 Hs ltac:(lia)) as E. pose proof (Forall_lookup_1 _ _ _ _ Hd Hs) as L. cbn beta in L.
  unfold slice at 2 in E. rewrite drop_0, take_ge in E by lia. rewrite <- E. unfold contents, disk_pos, flat. cbn [start length_ data region]. change (Z.to_nat 512) with 512%nat. f_equal. lia.
Qed.

Lemma region_ok s a n : 0 <= n < 2 ^ 31 - 512 -> 0 <= a -> a + (n + 511) / 512 <= disk_size s -> inode_ok s (region a n).
Proof. by split. Qed.

(** Sectors in use do not overlap free ones. *)
Lemma disjoint_bits (used : Z -> bool) i c lc : (forall k, in_range (start (data i)) ((length_ (data i) + 511) / 512) k = true -> used k = true) ->
  0 < length_ (data i) -> 0 < lc -> (forall k, c <= k < c + (lc + 511) / 512 -> used k = false) -> sectors_disjoint (region c lc) i.
Proof.
  intros Hi Hl Hc Hr. unfold sectors_disjoint. cbn. set (a := start (data i)) in *. set (la := length_ (data i)) in *.
  pose proof (Z.div_mod (la + 511) 512 ltac:(lia)). pose proof (Z.mod_pos_bound (la + 511) 512 ltac:(lia)).
  pose proof (Z.div_mod (lc + 511) 512 ltac:(lia)). pose proof (Z.mod_pos_bound (lc + 511) 512 ltac:(lia)).
  assert (forall k, a <= k < a + (la + 511) / 512 -> ~ (c <= k < c + (lc + 511) / 512)) as Hno.
  { intros k Hk1 Hk2. specialize (Hr k Hk2). rewrite Hi in Hr; [done|]. unfold in_range. by rewrite (proj2 (Z.leb_le _ _)), (proj2 (Z.ltb_lt _ _)) by lia. }
  pose proof (Hno a). pose proof (Hno c). lia.
Qed.

(** Writing whole sectors. *)
Lemma region_written s s' a bs : disk_ok s -> disk_ok s' -> 0 <= a -> 0 < Z.of_nat (length bs) < 2 ^ 31 - 512 -> a + (Z.of_nat (length bs) + 511) / 512 <= disk_size s ->
  flat s' = splice (512 * Z.to_nat a) bs (flat s) ->
  contents s' (region a (Z.of_nat (length bs))) = bs /\
  forall j, inode_ok s j -> sectors_disjoint (region a (Z.of_nat (length bs))) j -> contents s' j = contents s j.
Proof.
  intros Hd Hd' Ha Hl Hs Hf. assert (disk_pos (region a (Z.of_nat (length bs))) 0 = 512 * Z.to_nat a)%nat as Ep by (unfold disk_pos; cbn; lia). split.
  - unfold contents. rewrite Ep, Hf. cbn [length_ data region]. rewrite Nat2Z.id. apply slice_splice. rewrite length_flat by done.
    pose proof (Z.div_mod (Z.of_nat (length bs) + 511) 512 ltac:(lia)). pose proof (Z.mod_pos_bound (Z.of_nat (length bs) + 511) 512 ltac:(lia)). unfold disk_size in Hs. lia.
  - intros j Hj Hdis. assert (inode_ok s (region a (Z.of_nat (length bs)))) as Hr by (apply region_ok; lia).
    pose proof (contents_fits s _ Hd Hr) as Hfit. destruct Hj as [J1 J2 J3]. unfold contents. rewrite Hf. unfold sectors_disjoint in Hdis. cbn in *. unfold disk_pos in *. cbn in *.
    apply slice_splice_out; lia.
Qed.

Lemma zero_sectors_run n : forall s a, disk_ok s -> 0 <= a -> a + Z.of_nat n <= disk_size s ->
  exists s', zero_sectors n a s = Ok (tt, s') /\ disk_ok s' /\ disk_changed s s' /\ flat s' = splice (512 * Z.to_nat a) (replicate (512 * n) 0) (flat s).
Proof.
  induction n as [|n IH]; intros s a Hd Ha Hn; cbn [zero_sectors].
  { exists s. rewrite Nat.mul_0_r. cbn [replicate]. rewrite splice_nil. split_and!; [done|done|apply disk_changed_refl|done]. }
  unfold disk_size in Hn. destruct (lookup_lt_is_Some_2 (disk s) (Z.to_nat a)) as [sec Hs]; [lia|]. pose proof (proj2 Hd) as Hmax.
  destruct (write_round s (Z.to_nat a) sec 0 (replicate 512 0) Hd Hs) as (s1 & E & Hd1 & Hc & Hf & Ha1); [by rewrite length_replicate|].
  rewrite splice_all, Z2Nat.id in E by (rewrite ?length_replicate, ?(Forall_lookup_1 _ _ _ _ (proj1 Hd) Hs); lia). rewrite wrapu_id by (unfold is_u; lia). mstep E.
  assert (disk_size s1 = disk_size s) as Es by (destruct Hc as (d & l & -> & L & _); unfold disk_size; cbn; by rewrite L).
  destruct (IH s1 (a + 1) Hd1 ltac:(lia) ltac:(unfold disk_size in *; lia)) as (s2 & E2 & Hd2 & Hc2 & Hf2). exists s2. split_and!; [done|done|by eapply disk_changed_trans|].
  rewrite Hf2, Hf. replace (512 * Z.to_nat (a + 1))%nat with ((512 * Z.to_nat a + 0) + length (replicate 512 0%Z))%nat by (rewrite length_replicate; lia).
  rewrite splice_splice; [|rewrite !length_replicate, length_flat by done; lia]. rewrite <- replicate_add. f_equal; [lia|]. f_equal. lia.
Qed.

(** ** Creating inodes *)

(** What creating a file leaves alone, apart from the disk and the free map. *)
Definition same_tables (s s' : fs) : Prop :=
  inodes s' = inodes s /\ files s' = files s /\ dirs s' = dirs s /\ open_inodes s' = open_inodes s /\ free_map_file s' = free_map_file s /\
  disk_size s' = disk_size s /\ next_addr s' = next_addr s /\ allocs s' = [].

Lemma disk_changed_tables s s' : disk_changed s s' -> allocs s = [] -> same_tables s s' /\ free_map s' = free_map s.
Proof. intros (d & l & -> & L & Hl) Ha. unfold same_tables, disk_size. cbn. rewrite L, (Hl Ha). done. Qed.

Lemma same_tables_trans s1 s2 s3 : same_tables s1 s2 -> same_tables s2 s3 -> same_tables s1 s3.
Proof. unfold same_tables. intuition congruence. Qed.

Lemma inode_ok_size s s' j : disk_size s' = disk_size s -> inode_ok s j -> inode_ok s' j.
Proof. intros E [J1 J2 J3]. split; [done|done|by rewrite E]. Qed.

Lemma sectors_pos n : 0 <= n -> 0 <= (n + 511) / 512 /\ n <= 512 * ((n + 511) / 512) < n + 512.
Proof. intros H. pose proof (Z.div_mod (n + 511) 512 ltac:(lia)). pose proof (Z.mod_pos_bound (n + 511) 512 ltac:(lia)). lia. Qed.

(** What [inode_create] does: the inode in its sector, and new sectors of zeros. *)
Record created (s : fs) (fi : inode) (sec size st : Z) (s' : fs) : Prop := {
  cr_fmap : fmap_ok s' (Some fi);
  cr_cnt : bit_cnt (free_map s') = bit_cnt (free_map s);
  cr_tables : same_tables s s';
  cr_range : 0 <= st /\ st + (size + 511) / 512 <= bit_cnt (free_map s);
  cr_run : run_of (free_map s) st ((size + 511) / 512) false;
  cr_bits k : 0 <= k -> bit (free_map s') k = if in_range st ((size + 511) / 512) k then true else bit (free_map s) k;
  cr_inode : disk s' !! Z.to_nat sec = Some (encode_inode (InodeDisk st size INODE_MAGIC));
  cr_zero : contents s' (region st size) = replicate (Z.to_nat size) 0;
  cr_rest j : inode_ok s j -> sectors_disjoint fi j -> sectors_disjoint (region sec 512) j ->
    (0 < size -> sectors_disjoint (region st (512 * ((size + 511) / 512))) j) -> contents s' j = contents s j;
  cr_map : (forall k, in_range (start (data fi)) ((length_ (data fi) + 511) / 512) k = true -> bit (free_map s) k = true /\ k <> sec) -> 0 < length_ (data fi) ->
    contents s' fi = bitmap_write_data (free_map s')
}.

Lemma region_one (used : Z -> bool) sec : used sec = false -> forall k, sec <= k < sec + (512 + 511) / 512 -> used k = false.
Proof. intros H k Hk. change ((512 + 511) / 512) with 1 in Hk. by replace k with sec by lia. Qed.

Lemma sectors_whole m : (512 * m + 511) / 512 = m.
Proof. symmetry. apply (Z.div_unique_pos _ _ _ 511); lia. Qed.

Lemma contents_prefix s a n m : 0 <= n <= m -> contents s (region a n) = take (Z.to_nat n) (contents s (region a m)).
Proof. intros H. unfold contents, slice. cbn [length_ data region]. rewrite take_take. f_equal. lia. Qed.

Lemma inode_create_run s fi sec size : fmap_ok s (Some fi) -> allocs s = [] -> 0 <= sec < disk_size s -> bit_cnt (free_map s) <= disk_size s ->
  0 <= size < 2 ^ 31 - 1024 -> bit (free_map s) sec = true ->
  (exists k, 0 <= k /\ k + (size + 511) / 512 <= bit_cnt (free_map s) /\ run_of (free_map s) k ((size + 511) / 512) false) ->
  exists st s', inode_create sec size s = Ok (true, s') /\ created s fi sec size st s'.
Proof.
  intros F Ha Hsec Hcnt Hsize Hbit (k0 & Hk0 & Hk0e & Hrun). unfold inode_create. rewrite (proj2 (Z.leb_le _ _)) by lia. mnorm. mstep (alloc_ready s Ha). cbn [negb].
  destruct (bytes_to_sectors_spec size) as [Eb _]; [lia|]. rewrite Eb. destruct (sectors_pos size) as [Hm0 Hm]; [lia|]. set (m := (size + 511) / 512) in *.
  destruct (free_map_allocate_run s (Some fi) m F Hm0) as (r & s1 & E1 & F1 & (C1 & C2 & C3 & C4 & C5 & C6 & C7 & C8 & C9) & B1 & Hr). mstep E1.
  destruct r as [st|]; [|destruct Hr as [_ Hr]; by destruct (Hr (or_intror Ha) k0 Hk0 Hk0e)]. destruct Hr as (Hst & Hste & Hfree & _ & Hbits & Hmap).
  pose proof (fo_disk _ _ F1) as Hd1. assert (allocs s1 = []) as Ha1 by auto.
  assert (0 <= st < 2 ^ 32) as Hst32 by (pose proof (fo_small _ _ F); lia).
  set (dd := InodeDisk st size INODE_MAGIC). destruct (decode_encode_inode dd) as [_ Lenc]; [split_and!; [cbn; unfold is_u; lia|cbn; unfold is_s; lia|cbn; unfold is_u, INODE_MAGIC; lia]|].
  destruct (lookup_lt_is_Some_2 (disk s1) (Z.to_nat sec)) as [old Hold]; [unfold disk_size in *; lia|].
  pose proof (Forall_lookup_1 _ _ _ _ (proj1 Hd1) Hold) as Lold. cbn beta in Lold.
  destruct (write_round s1 (Z.to_nat sec) old 0 (encode_inode dd) Hd1 Hold) as (s2 & E2 & Hd2 & Hc2 & Hf2 & Ha2); [lia|]. rewrite splice_all, Z2Nat.id in E2 by lia. mstep E2.
  destruct (disk_changed_tables s1 s2 Hc2 Ha1) as [T2 M2].
  destruct (zero_sectors_run (Z.to_nat m) s2 st Hd2) as (s3 & E3 & Hd3 & Hc3 & Hf3); [lia|destruct T2 as (_ & _ & _ & _ & _ & -> & _); lia|]. mstep E3.
  destruct (disk_changed_tables s2 s3 Hc3 ltac:(congruence)) as [T3 M3].
  assert (same_tables s s1) as T1 by (by unfold same_tables). pose proof (same_tables_trans _ _ _ (same_tables_trans _ _ _ T1 T2) T3) as T.
  assert (disk_size s1 = disk_size s /\ disk_size s2 = disk_size s /\ disk_size s3 = disk_size s) as (Z1 & Z2 & Z3) by (unfold same_tables in *; intuition congruence).
  destruct (region_written s1 s2 sec (encode_inode dd) Hd1 Hd2) as [W2 K2]; [lia|lia|rewrite Lenc; change ((Z.of_nat 512 + 511) / 512) with 1; lia|rewrite Hf2; f_equal; lia|]. rewrite Lenc in W2, K2. change (Z.of_nat 512) with 512 in W2, K2.
  assert (contents s3 (region st size) = replicate (Z.to_nat size) 0 /\
    forall j, inode_ok s2 j -> (0 < size -> sectors_disjoint (region st (512 * m)) j) -> contents s3 j = contents s2 j) as [W3 K3].
  { destruct (decide (size = 0)) as [E0|N0].
    - assert (m = 0) as Em by lia. rewrite Em in Hf3. change (replicate (512 * Z.to_nat 0) 0) with (@nil Z) in Hf3. rewrite splice_nil in Hf3. rewrite E0. split; [done|]. intros j _ _. unfold contents. by rewrite Hf3.
    - assert (Z.of_nat (length (replicate (512 * Z.to_nat m) 0)) = 512 * m) as Lr by (rewrite length_replicate; lia).
      destruct (region_written s2 s3 st (replicate (512 * Z.to_nat m) 0) Hd2 Hd3) as [W K]; [lia|lia|rewrite Lr, sectors_whole; lia|done|]. rewrite Lr in W, K. split; [|intros j Hj Hdis; apply K; [done|apply Hdis; lia]].
      rewrite (contents_prefix s3 st size (512 * m)), W by lia. rewrite take_replicate. f_equal. lia. }
  assert (forall j, inode_ok s j -> inode_ok s1 j /\ inode_ok s2 j) as Hok by (intros j Hj; split; by apply (inode_ok_size s)).
  assert (forall k, st <= k < st + (512 * m + 511) / 512 -> bit (free_map s) k = false) as Hfree' by (intros k; rewrite sectors_whole; apply Hfree).
  exists st, s3. split; [done|]. split; try done.
  - apply (fmap_ok_changed s2); [by apply (fmap_ok_changed s1)|done|done].
  - by rewrite M3, M2.
  - intros k Hk. rewrite M3, M2. by apply Hbits.
  - rewrite (sector_region s3 sec Hd3) by lia. rewrite K3; [by rewrite W2| |].
    + apply region_ok; [lia|lia|change ((512 + 511) / 512) with 1; lia].
    + intros Hp. apply (disjoint_bits (bit (free_map s))); [|cbn; lia|lia|done]. intros k Hk. cbn in Hk. unfold in_range in Hk. change ((512 + 511) / 512) with 1 in Hk. by replace k with sec by lia.
  - intros j Hj Hfj Hsj Hst'. destruct (Hok j Hj). rewrite K3, K2, C9; done.
  - intros Hu Hl. assert (inode_ok s fi) as Hfi by (pose proof (fo_file _ _ F) as [_ [_ H _ _]]; done). destruct (Hok fi Hfi). rewrite K3, K2.
    + rewrite (Hmap fi eq_refl). by rewrite M3, M2.
    + done.
    + apply (disjoint_bits (fun k => negb (k =? sec))); [|done|lia|apply region_one; by rewrite Z.eqb_refl].
      intros k Hk. apply negb_true_iff, Z.eqb_neq. by apply Hu.
    + done.
    + intros Hp. apply (disjoint_bits (bit (free_map s))); [|done|lia|done]. intros k Hk. by apply Hu.
Qed.

(** ** Creating files *)

(** A write to one file leaves the others alone. *)
Lemma contents_elsewhere s s' i j offset bs : disk_ok s -> inode_ok s i -> inode_ok s j -> sectors_disjoint i j -> 0 <= offset ->
  offset + Z.of_nat (length bs) <= length_ (data i) -> flat s' = splice (disk_pos i offset) bs (flat s) -> contents s' j = contents s j.
Proof.
  intros Hd Hi [J1 J2 J3] Hdis Ho Hb Hf. pose proof (contents_fits s i Hd Hi) as Hfit. destruct Hi as [I1 I2 I3]. unfold contents. rewrite Hf.
  unfold disk_pos, sectors_disjoint in *. apply slice_splice_out; lia.
Qed.

Lemma sectors_disjoint_sym i j : sectors_disjoint i j -> sectors_disjoint j i.
Proof. unfold sectors_disjoint. lia. Qed.

(** All sectors of [i] are marked. *)
Definition marked (b : bitmap) (i : inode) : Prop := forall k, in_range (start (data i)) ((length_ (data i) + 511) / 512) k = true -> bit b k = true.

(** What [filesys_create] does between opening and closing the directory. *)
Definition create_entry (junk : list Z) (d : Z) (n : list Z) (size : Z) : M fs (bool * Z) :=
  sec ← free_map_allocate 1;
  match sec with
  | None => ret (false, 0)
  | Some sec => c ← inode_create sec size; if negb c then ret (false, sec) else a ← dir_add junk d n sec; ret (a, sec)
  end.

(** The state [s'] after the file [n] of [size] zeros has been created. *)
Record new_file (s : fs) (i fi : inode) (size sec st : Z) (s' : fs) : Prop := {
  nf_sec : 0 <= sec < bit_cnt (free_map s) /\ bit (free_map s) sec = false;
  nf_start : 0 <= st /\ st + (size + 511) / 512 <= bit_cnt (free_map s);
  nf_fmap : fmap_ok s' (Some fi);
  nf_cnt : bit_cnt (free_map s') = bit_cnt (free_map s);
  nf_run : run_of (free_map s) st ((size + 511) / 512) false;
  nf_apart k : st <= k < st + (size + 511) / 512 -> k <> sec;
  nf_bits k : 0 <= k -> bit (free_map s') k = in_range st ((size + 511) / 512) k || (k =? sec) || bit (free_map s) k;
  nf_inode : disk s' !! Z.to_nat sec = Some (encode_inode (InodeDisk st size INODE_MAGIC));
  nf_zero : contents s' (region st size) = replicate (Z.to_nat size) 0;
  nf_rest j : inode_ok s j -> 0 < length_ (data j) -> marked (free_map s) j -> sectors_disjoint fi j -> sectors_disjoint i j -> contents s' j = contents s j;
  nf_map : contents s' fi = bitmap_write_data (free_map s')
}.

Lemma create_entry_run junk s d x i cnt M n size fi :
  dir_state s d x i cnt M -> fmap_ok s (Some fi) -> bit_cnt (free_map s) <= disk_size s -> deny_write_cnt i = 0 ->
  sectors_disjoint fi i -> marked (free_map s) i -> marked (free_map s) fi -> 0 < length_ (data fi) ->
  length junk = 20%nat -> is_name n -> valid_name n = true -> M !! n = None -> (exists k, (k < cnt)%nat /\ in_use (entry_at (contents s i) k) = false) ->
  0 <= size < 2 ^ 31 - 1024 ->
  (exists k, 0 <= k /\ k + ((size + 511) / 512 + 1) <= bit_cnt (free_map s) /\ run_of (free_map s) k ((size + 511) / 512 + 1) false) ->
  exists sec st s', create_entry junk d n size s = Ok ((true, sec), s') /\ same_tables s s' /\ new_file s i fi size sec st s' /\ dir_state s' d x i cnt (<[n := sec]> M).
Proof.
  intros D F Hcnt Hdeny Hfi Hmi Hmf Hlf Hj Hn Hv HM Hfree Hsize (k0 & Hk0 & Hk0e & Hrun). pose proof D as [D0 D1 D2 D3 D4 D5 D6].
  destruct (sectors_pos size) as [Hm0 Hm]; [lia|]. set (m := (size + 511) / 512) in *. assert (0 < length_ (data i)) as Hli by (destruct Hfree as (k & ? & _); lia).
  unfold create_entry. destruct (free_map_allocate_run s (Some fi) 1 F ltac:(lia)) as (r & s1 & E1 & F1 & (C1 & C2 & C3 & C4 & C5 & C6 & C7 & C8 & C9) & B1 & Hr). mstep E1.
  destruct r as [sec|]; [|destruct Hr as [_ Hr]; exfalso; apply (Hr (or_intror D5) k0 Hk0 ltac:(lia)); intros k Hk; apply Hrun; lia].
  destruct Hr as (Hs0 & Hs1 & Hsf & Hfirst & Hb1 & _). assert (bit (free_map s) sec = false) as Hsb by (apply Hsf; lia).
  assert (sec <= k0) as Hle. { destruct (Z.le_gt_cases sec k0); [done|]. exfalso. apply (Hfirst k0 ltac:(lia)). intros k Hk. apply Hrun. lia. }
  assert (forall k, 0 <= k -> bit (free_map s1) k = (k =? sec) || bit (free_map s) k) as Hb1'.
  { intros k Hk. rewrite Hb1 by done. unfold in_range. destruct (Z.leb_spec sec k), (Z.ltb_spec k (sec + 1)), (Z.eqb_spec k sec); cbn; try done; lia. }
  destruct (inode_create_run s1 fi sec size F1) as (st & s2 & E2 & [R1 R2 R3 R4 R5 R6 R7 R8 R9 R10]); [auto|lia|lia|lia|by rewrite Hb1', Z.eqb_refl by lia| |].
  { exists (if sec =? k0 then k0 + 1 else k0). split_and!; [destruct (sec =? k0); lia|rewrite B1; destruct (sec =? k0); lia|]. fold m. intros k Hk.
    destruct (Z.eqb_spec sec k0); rewrite Hb1' by lia; rewrite (proj2 (Z.eqb_neq k sec)) by lia; cbn [orb]; apply Hrun; lia. }
  mstep E2. cbn [negb]. fold m in R4, R5, R6, R9. destruct R3 as (T1 & T2 & T3 & T4 & T5 & T6 & T7 & T8).
  assert (forall k, st <= k < st + m -> bit (free_map s) k = false) as Hst.
  { intros k Hk. pose proof (R5 k Hk) as H. rewrite Hb1' in H by lia. by apply orb_false_iff in H as [_ H]. }
  assert (forall j, inode_ok s j -> 0 < length_ (data j) -> marked (free_map s) j -> sectors_disjoint (region sec 512) j /\ (0 < size -> sectors_disjoint (region st (512 * m)) j)) as Hdis.
  { intros j Hjo Hl Hmk. split; [|intros Hp]; apply (disjoint_bits (bit (free_map s))); try done; [lia|by rewrite sectors_whole]. }
  assert (forall j, inode_ok s j -> 0 < length_ (data j) -> marked (free_map s) j -> sectors_disjoint fi j -> contents s2 j = contents s j) as K2.
  { intros j Hjo Hl Hmk Hfj. destruct (Hdis j Hjo Hl Hmk). rewrite R9, C9; try done. by apply (inode_ok_size s). }
  assert (dir_state s2 d x i cnt M) as DS2.
  { destruct D0 as [D00 D01]. split; try done; [split; [done|congruence]|congruence|by apply R1|apply (inode_ok_size s); [congruence|done]|by rewrite K2]. }
  assert (is_u32 sec) as Hu by (pose proof (fo_small _ _ F); unfold is_u; lia).
  destruct (dir_add_run s2 d x i cnt M DS2 junk n sec Hj Hn Hu Hdeny) as (b & s3 & E3 & Hb & Hc3 & DS3 & k & bs & Hf3 & Hk3).
  assert (b = true) as ->. { apply Hb. split; [done|]. split; [done|]. rewrite K2; done. }
  mstep E3. destruct (disk_changed_tables s2 s3 Hc3 T8) as [TT3 M3].
  assert (inode_ok s2 i) as Hi2 by apply DS2. pose proof (ds_length _ _ _ _ _ _ DS2) as Hlen.
  assert (forall j, inode_ok s j -> sectors_disjoint i j -> contents s3 j = contents s2 j) as K3.
  { intros j Hjo Hij. apply (contents_elsewhere s2 s3 i j (20 * Z.of_nat k) bs); try done; [apply DS2|apply (inode_ok_size s); [congruence|done]|lia|lia]. }
  exists sec, st, s3. split; [done|]. split; [by eapply same_tables_trans; [|exact TT3]; split_and!; congruence|]. split; [|done]. split; fold m.
  - split; [lia|done].
  - split; [lia|]. rewrite <- B1. apply R4.
  - apply (fmap_ok_changed s2); [done|done|apply DS3].
  - by rewrite M3, R2.
  - exact Hst.
  - intros k' Hk' ->. pose proof (R5 sec Hk') as H. by rewrite Hb1', Z.eqb_refl in H by lia.
  - intros k' Hk'. rewrite M3, R6, Hb1' by done. destruct (in_range st m k'); [done|]. by destruct (k' =? sec).
  - assert (inode_ok s (region sec 512)) as Hro by (apply region_ok; [lia|lia|change ((512 + 511) / 512) with 1; lia]).
    assert (disk_size s3 = disk_size s) as Es3 by (destruct TT3 as (_ & _ & _ & _ & _ & -> & _); congruence).
    rewrite (sector_region s3 sec) by (try apply DS3; lia). rewrite K3; [|done|apply sectors_disjoint_sym, Hdis; done].
    rewrite <- (sector_region s2 sec), R7; [done|apply DS2|]. rewrite T6, C6. lia.
  - destruct (decide (size = 0)) as [->|N0]; [done|]. rewrite K3; [done| |].
    + apply region_ok; [lia|lia|fold m; lia].
    + destruct (Hdis i D3 Hli Hmi) as [_ H]. specialize (H ltac:(lia)). apply sectors_disjoint_sym. unfold sectors_disjoint in *. cbn in *. lia.
  - intros j Hjo Hl Hmk Hfj Hij. rewrite K3, K2; done.
  - assert (inode_ok s fi) as Hfo by (pose proof (fo_file _ _ F) as [_ [_ H _ _]]; done).
    rewrite K3, M3; [|done|by apply sectors_disjoint_sym]. apply R10; [|done]. intros k' Hk'. specialize (Hmf k' Hk').
    assert (0 <= k') by (pose proof (io_start _ _ Hfo); unfold in_range in Hk'; lia). split; [rewrite Hb1', Hmf by done; apply orb_true_r|]. intros ->. congruence.
Qed.

(** ** The file system *)

Notation root rd := (Inode ROOT_DIR_SECTOR 1 false 0 rd).

(** A file system with the root directory [rd] and the free map file [fi]: what
    is in use is marked and does not overlap. *)
Record fs_ready (s : fs) (rd : inode_disk) (cnt : nat) (M : gmap (list Z) Z) (fi : inode) : Prop := {
  fr_table : table_ready s;
  fr_root : root_dir s rd cnt M;
  fr_fmap : fmap_ok s (Some fi);
  fr_cnt : bit_cnt (free_map s) <= disk_size s;
  fr_root_marked : marked (free_map s) (root rd) /\ bit (free_map s) ROOT_DIR_SECTOR = true;
  fr_self : sectors_disjoint (root rd) (region ROOT_DIR_SECTOR 512);
  fr_map : marked (free_map s) fi /\ 0 < length_ (data fi) /\ sector fi <> ROOT_DIR_SECTOR;
  fr_map_disjoint : sectors_disjoint fi (root rd) /\ sectors_disjoint fi (region ROOT_DIR_SECTOR 512);
  fr_open p i : inodes s !! p = Some i -> 0 <= sector i /\ bit (free_map s) (sector i) = true /\ (sector i = ROOT_DIR_SECTOR -> deny_write_cnt i = 0)
}.

(** Changes to other inodes do not matter for the free map. *)
Lemma fmap_ok_moved s s' fi : fmap_ok s (Some fi) -> disk s' = disk s -> free_map s' = free_map s -> files s' = files s -> free_map_file s' = free_map_file s ->
  (forall f, files s !! free_map_file s = Some f -> inodes s' !! f_inode f = inodes s !! f_inode f) -> fmap_ok s' (Some fi).
Proof.
  intros [F1 F2 F3 [N [(f & Hf & Hi) G2 G3 G4]]] Ed Em Ef Eff Ei. split; rewrite ?Em, ?Eff; [done|done|unfold disk_ok in *; by rewrite Ed|]. split; [done|].
  split; [|apply (inode_ok_size s); [unfold disk_size; by rewrite Ed|done]|done|by rewrite Em]. exists f. rewrite Ef, Eff, Ei by done. done.
Qed.

Lemma map_inode_elsewhere s fi rd p i f : fmap_ok s (Some fi) -> sector fi <> ROOT_DIR_SECTOR -> one_more s ROOT_DIR_SECTOR rd p i ->
  files s !! free_map_file s = Some f -> f_inode f <> p.
Proof.
  intros [_ _ _ [_ [(f' & Hf' & Hi) _ _ _]]] Hne Hm Hf Hp. rewrite Hf in Hf'. injection Hf' as <-. rewrite Hp in Hi. unfold one_more in Hm. rewrite Hi in Hm. by destruct Hm as (? & _).
Qed.

Lemma filesys_create_run junk s rd cnt M fi n size : fs_ready s rd cnt M fi ->
  length junk = 20%nat -> is_name n -> valid_name n = true -> M !! n = None -> (exists k, (k < cnt)%nat /\ in_use (entry_at (contents s (root rd)) k) = false) ->
  0 <= size < 2 ^ 31 - 1024 ->
  (exists k, 0 <= k /\ k + ((size + 511) / 512 + 1) <= bit_cnt (free_map s) /\ run_of (free_map s) k ((size + 511) / 512 + 1) false) ->
  exists sec st s', filesys_create junk n size s = Ok (true, s') /\ fs_ready s' rd cnt (<[n := sec]> M) fi /\ new_file s (root rd) fi size sec st s' /\
    inodes s' = inodes s /\ files s' = files s /\ disk_size s' = disk_size s.
Proof.
  intros [R D F Hcnt [Hmr Hbr] Hself (Hmf & Hlf & Hsf) [Hd1 Hd2] Hop] Hj Hn Hv HM Hfree Hsize Hrun. pose proof R as [T Hd Hroom Ha].
  destruct (dir_open_root_run s rd cnt M R D) as (d & p & i & s1 & E1 & DS & Hm & Ei & Ed & T1 & Ef & Efm & Eff).
  destruct (one_more_facts _ _ _ _ _ T Hm) as (Es & Edd & _). pose proof DS as [[Hdn Hdir] Hp1 _ _ _ Ha1 _]. cbn [d_inode] in Hp1.
  assert (forall s, contents s i = contents s (root rd)) as Ec by (intros; unfold contents, disk_pos; by rewrite Edd).
  assert (contents s1 i = contents s (root rd)) as Ec1 by (unfold contents, disk_pos, flat; by rewrite Edd, Ed).
  assert (fmap_ok s1 (Some fi)) as F1.
  { apply (fmap_ok_moved s); try done. intros f Hf. rewrite Ei. apply lookup_insert_ne. symmetry. by apply (map_inode_elsewhere s fi rd p i f). }
  assert (deny_write_cnt i = 0) as Hdeny.
  { unfold one_more in Hm. destruct (inodes s !! p) as [j|] eqn:Ej; [|by subst i]. destruct Hm as (Hjs & _ & ->). cbn. by apply (Hop p j). }
  destruct (create_entry_run junk s1 d _ i cnt M n size fi DS F1) as (sec & st & s2 & E2 & (T2i & T2f & T2d & T2o & T2m & T2s & T2n & T2a) & NF & DS2); try done; try (unfold disk_size, marked, sectors_disjoint; rewrite ?Ed, ?Efm, ?Edd; done); [by rewrite Ec1|].
  pose proof NF as [N1 N2 N3 N4 N6 N6' N7 N8 N9 N10 N11]. rewrite Efm in *.
  unfold filesys_create. mstep E1. rewrite (proj2 (Z.eqb_neq d NULL) Hdn). change (bind (free_map_allocate 1) _) with (create_entry junk d n size) at 1. mstep E2. cbn [negb andb]. mnorm.
  destruct (dir_close_run s s2 d p i rd T) as (s3 & E3 & T3 & C1 & C2 & C3 & C4 & C5 & C6 & C7); [by apply (itable_kept s1)|done|done|congruence|by rewrite T2i, Ei, lookup_insert_eq|]. mstep E3.
  assert (inodes s3 = inodes s) as EI.
  { apply map_eq. intros q. destruct (decide (q = p)) as [->|Hq]; [done|]. by rewrite C7, T2i, Ei, lookup_insert_ne by done. }
  assert (forall j, contents s3 j = contents s2 j) as K3 by (intros; unfold contents, flat; by rewrite C1).
  assert (forall j, contents s1 j = contents s j) as K1 by (intros; unfold contents, flat; by rewrite Ed).
  assert (disk_size s1 = disk_size s /\ disk_size s3 = disk_size s) as [Z1 Z3] by (split; [unfold disk_size; by rewrite Ed|unfold disk_size in *; rewrite C1, T2s; by rewrite Ed]).
  assert (fmap_ok s3 (Some fi)) as F3.
  { apply (fmap_ok_moved s2); try done. intros f Hf. apply C7. apply (map_inode_elsewhere s fi rd p i f F Hsf Hm). by rewrite <- Ef, <- Eff, <- T2f, <- T2m. }
  assert (forall j, inode_ok s j -> 0 < length_ (data j) -> marked (free_map s) j -> sectors_disjoint fi j -> sectors_disjoint (root rd) j -> contents s3 j = contents s j) as K.
  { intros j Hjo Hl Hmk Hfj Hrj. rewrite K3, N10, K1; try done; [by apply (inode_ok_size s)|]. unfold sectors_disjoint in *. by rewrite Edd. }
  exists sec, st, s3. split; [done|]. split; [|split; [|split_and!; [done|congruence|done]]].
  - pose proof (rd_ok _ _ _ _ D) as Hro. assert (0 < length_ rd) as Hlr by (pose proof (rd_length _ _ _ _ D) as ->; destruct Hfree as (k & ? & _); lia).
    assert (marked (free_map s) (region ROOT_DIR_SECTOR 512)) as Hrs.
    { intros k Hk. unfold in_range in Hk. cbn in Hk. change ((512 + 511) / 512) with 1 in Hk. by replace k with ROOT_DIR_SECTOR by lia. }
    assert (forall k, 0 <= k -> bit (free_map s) k = true -> bit (free_map s3) k = true) as Hgrow by (intros k Hk Hb; rewrite C4, N7, Hb by done; apply orb_true_r).
    assert (forall j, inode_ok s j -> marked (free_map s) j -> marked (free_map s3) j) as Hmgrow.
    { intros j Hjo Hmk k Hk. apply Hgrow; [pose proof (io_start _ _ Hjo); unfold in_range in Hk; lia|by apply Hmk]. }
    assert (inode_ok s fi) as Hfo by (pose proof (fo_file _ _ F) as [_ [_ H _ _]]; done).
    destruct D as [[Dn1 Dn2] D2 D3 D4 D5]. split; rewrite ?EI; try done.
    + split; [done|by apply F3|by rewrite EI|congruence].
    + split; [|by apply (inode_ok_size s)|done|rewrite K3, <- Ec; by apply DS2|by rewrite Z3].
      split; rewrite EI; [done|]. intros Hno. destruct (Dn2 Hno) as (raw & Hraw & Hdec). exists raw. split; [|done].
      rewrite (sector_region s) in Hraw by (try done; unfold ROOT_DIR_SECTOR in *; lia). rewrite (sector_region s3); [|by apply F3|unfold ROOT_DIR_SECTOR in *; lia].
      rewrite K; try done. apply region_ok; [lia|done|]. change ((512 + 511) / 512) with 1. unfold ROOT_DIR_SECTOR in *. lia.
    + rewrite C4, N4, Z3. done.
    + split; [by apply Hmgrow|]. by apply Hgrow.
    + split_and!; [by apply Hmgrow|done|done].
    + intros q j Hq. destruct (Hop q j Hq) as (O1 & O2 & O3). split_and!; [done|by apply Hgrow|done].
  - split; rewrite ?C4, ?K3; try done. by rewrite C1.
Qed.

(** ** Properties *)

(** [f] is an open file at [pos] whose inode at [p] is [i]. *)
Record opened (s : fs) (f p pos : Z) (i : inode) : Prop := {
  op_null : f <> NULL;
  op_file : files s !! f = Some (File p pos false);
  op_inode : inodes s !! p = Some i;
  op_ok : inode_ok s i;
  op_disk : disk_ok s;
  op_allocs : allocs s = [];
  op_pos : 0 <= pos <= length_ (data i)
}.

(** What opening by name leaves: the same disk, one more opener and a file at its
    beginning. *)
Record named (s : fs) (sec : Z) (dd : inode_disk) (f p : Z) (i : inode) (s' : fs) : Prop := {
  na_opened : opened s' f p 0 i;
  na_more : one_more s sec dd p i;
  na_inodes : inodes s' = <[p := i]> (inodes s);
  na_table : itable s';
  na_disk : disk s' = disk s;
  na_map : free_map s' = free_map s
}.

Lemma open_named junk s rd cnt M n sec dd : table_ready s -> root_dir s rd cnt M -> length junk = 20%nat ->
  M !! n = Some sec -> 0 <= sec < disk_size s -> sec <> ROOT_DIR_SECTOR -> denotes s sec dd -> inode_ok s (region (start dd) (length_ dd)) ->
  exists f p i s', filesys_open junk n s = Ok (f, s') /\ named s sec dd f p i s'.
Proof.
  intros R D Hj Hn Hs Hne HD [I1 I2 I3]. destruct (filesys_open_run junk s rd cnt M n R D Hj) as [_ H].
  destruct (H sec dd Hn Hs Hne HD) as (f & p & i & s' & E & Hf & Ef & Hm & Ei & T & Ed & Ha & Em & _). exists f, p, i, s'. split; [done|].
  destruct (one_more_facts _ _ _ _ _ (tr_table _ R) Hm) as (_ & Edd & _). cbn in *. split; try done. split; try done.
  - by rewrite Ef, lookup_insert_eq.
  - by rewrite Ei, lookup_insert_eq.
  - split; rewrite ?Edd; try done. unfold disk_size in *. by rewrite Ed.
  - destruct R as [_ Hd _ _]. unfold disk_ok. by rewrite Ed.
  - rewrite Edd. lia.
Qed.

(** The new file is what its sector denotes. *)
Lemma new_file_denoted s s' rd cnt M fi i size sec st : fs_ready s rd cnt M fi -> new_file s i fi size sec st s' -> inodes s' = inodes s -> 0 <= size < 2 ^ 31 - 1024 ->
  denotes s' sec (InodeDisk st size INODE_MAGIC) /\ sec <> ROOT_DIR_SECTOR /\ (forall p j, inodes s !! p = Some j -> sector j <> sec).
Proof.
  intros R NF Ei Hsize. destruct (nf_sec _ _ _ _ _ _ _ NF) as [Hr Hb].
  assert (forall p j, inodes s !! p = Some j -> sector j <> sec) as Hno by (intros p j Hp <-; destruct (fr_open _ _ _ _ _ R p j Hp) as (_ & H & _); congruence).
  split; [|split; [intros ->; destruct (fr_root_marked _ _ _ _ _ R) as [_ H]; congruence|done]]. split; rewrite Ei.
  - intros p j Hp Hj. by apply Hno in Hp.
  - intros _. eexists. split; [apply NF|]. pose proof (fo_small _ _ (fr_fmap _ _ _ _ _ R)). pose proof (nf_start _ _ _ _ _ _ _ NF).
    pose proof (sectors_pos size ltac:(lia)). apply decode_encode_inode. split_and!; [unfold is_u; cbn; lia|unfold is_s; cbn; lia|unfold is_u, INODE_MAGIC; cbn; lia].
Qed.

(** C16: The file system by name.  In a file system whose used sectors are marked in
    the free map, [filesys_create] of a valid name that is not in use succeeds
    when the directory has a free entry and the sectors are free: the name then
    denotes a new file of [size] zeros, exactly its inode sector and its data
    sectors have become used, the free map on the disk is the one in memory,
    the table of open inodes is as before and no other file has changed; the
    file system is again one of this kind.  [filesys_open] then gives a file at
    its beginning with these contents, and a null pointer for every name that
    is not in the directory. *)
Theorem filesys_create_open junk s rd cnt M fi n size : fs_ready s rd cnt M fi ->
  length junk = 20%nat -> is_name n -> valid_name n = true -> M !! n = None -> (exists k, (k < cnt)%nat /\ in_use (entry_at (contents s (root rd)) k) = false) ->
  0 <= size < 2 ^ 31 - 1024 ->
  (exists k, 0 <= k /\ k + ((size + 511) / 512 + 1) <= bit_cnt (free_map s) /\ run_of (free_map s) k ((size + 511) / 512 + 1) false) ->
  (exists s', filesys_open junk n s = Ok (NULL, s') /\ inodes s' = inodes s /\ disk s' = disk s) /\
  exists sec st s', filesys_create junk n size s = Ok (true, s') /\ fs_ready s' rd cnt (<[n := sec]> M) fi /\ inodes s' = inodes s /\
    bit (free_map s) sec = false /\ run_of (free_map s) st ((size + 511) / 512) false /\
    (forall k, 0 <= k -> bit (free_map s') k = in_range st ((size + 511) / 512) k || (k =? sec) || bit (free_map s) k) /\
    contents s' fi = bitmap_write_data (free_map s') /\
    (forall j, inode_ok s j -> 0 < length_ (data j) -> marked (free_map s) j -> sectors_disjoint fi j -> sectors_disjoint (root rd) j -> contents s' j = contents s j) /\
    exists f p i s'', filesys_open junk n s' = Ok (f, s'') /\ opened s'' f p 0 i /\ sector i = sec /\ length_ (data i) = size /\
      contents s'' i = replicate (Z.to_nat size) 0 /\ disk s'' = disk s'.
Proof.
  intros R Hj Hn Hv HM Hfree Hsize Hrun. split.
  { destruct (filesys_open_run junk s rd cnt M n (fr_table _ _ _ _ _ R) (fr_root _ _ _ _ _ R) Hj) as [H _]. destruct (H HM) as (s' & E & _ & Ei & Ed & _). by exists s'. }
  destruct (filesys_create_run junk s rd cnt M fi n size R Hj Hn Hv HM Hfree Hsize Hrun) as (sec & st & s' & E & R' & NF & Ei & _).
  destruct (new_file_denoted s s' rd cnt M fi _ size sec st R NF Ei Hsize) as (HD & Hne & _). pose proof NF as [[N1 N1'] N2 N3 N4 N6 N6' N7 N8 N9 N10 N11].
  pose proof (fr_cnt _ _ _ _ _ R') as Hc. pose proof (sectors_pos size ltac:(lia)) as Hm.
  exists sec, st, s'. split_and!; try done.
  destruct (open_named junk s' rd cnt _ n sec (InodeDisk st size INODE_MAGIC) (fr_table _ _ _ _ _ R') (fr_root _ _ _ _ _ R') Hj (lookup_insert_eq _ _ _)) as (f & p & i & s'' & E'' & [O Hmore Eii T Ed _]); [lia|done|done|apply region_ok; cbn; lia|].
  destruct (one_more_facts _ _ _ _ _ (tr_table _ (fr_table _ _ _ _ _ R')) Hmore) as (Es & Edd & _). exists f, p, i, s''. split_and!; try done; [by rewrite Edd|].
  rewrite <- N9. unfold contents, disk_pos, flat. by rewrite Ed, Edd.
Qed.

(** A disk of eight sectors with an empty directory. *)
Definition demo_root : inode_disk := InodeDisk 3 40 INODE_MAGIC.
Definition demo_map : inode := Inode FREE_MAP_SECTOR 1 false 0 (InodeDisk 2 8 INODE_MAGIC).
Definition demo_empty_fs : fs :=
  FS ([encode_inode (data demo_map); encode_inode demo_root; 15 :: replicate 511 0] ++ replicate 5 (replicate 512 0)) {[ 64 := demo_map ]} [64] {[ 60 := File 64 0 false ]} ∅ 100 []
    (Bitmap 8 [15]) 60.

Lemma demo_inodes p i : inodes demo_empty_fs !! p = Some i -> p = 64 /\ i = demo_map.
Proof. cbn. by intros [<- <-]%lookup_singleton_Some. Qed.

Lemma demo_disk_ok : disk_ok demo_empty_fs.
Proof. split; [|by vm_compute]. repeat (apply Forall_cons; split; [vm_compute; reflexivity|]). by apply Forall_nil. Qed.

Lemma demo_range b a n k v : in_range a n k = true -> 0 <= n -> forallb (fun j => Bool.eqb (bit b (a + Z.of_nat j)) v) (seq 0 (Z.to_nat n)) = true -> bit b k = v.
Proof.
  intros Hk Hn H. rewrite forallb_forall in H. unfold in_range in Hk. specialize (H (Z.to_nat (k - a))). rewrite in_seq in H.
  replace (a + Z.of_nat (Z.to_nat (k - a))) with k in H by lia. apply eqb_prop, H. lia.
Qed.

Lemma demo_empty_ready : fs_ready demo_empty_fs demo_root 2 ∅ demo_map.
Proof.
  pose proof demo_disk_ok as Hd. split.
  - split; [|done|intros p i [-> ->]%demo_inodes; by vm_compute|done]. split; [| |intros p q i j [-> _]%demo_inodes [-> _]%demo_inodes _; done|intros p i [-> ->]%demo_inodes; by vm_compute|intros p [i [-> _]%demo_inodes]; by vm_compute|by vm_compute].
    + intros p. cbn [open_inodes demo_empty_fs]. rewrite elem_of_cons, elem_of_nil. split; [intros [->|[]]; by eexists|intros [i [-> _]%demo_inodes]; by left].
    + apply NoDup_singleton.
  - split; [|by split; vm_compute|done| |by vm_compute].
    + split; [by intros p i [-> ->]%demo_inodes|]. intros _. eexists. split; [reflexivity|]. apply decode_encode_inode. split_and!; by vm_compute.
    + assert (forall k, (k < 2)%nat -> in_use (entry_at (contents demo_empty_fs (root demo_root)) k) = false) as Hno.
      { intros k Hk. destruct k as [|[|k]]; [by vm_compute|by vm_compute|lia]. }
      split; [|intros j k Hj _ U; by rewrite Hno in U]. intros n sec. rewrite lookup_empty. split; [done|]. intros (j & Hj & U & _). by rewrite Hno in U.
  - split; [|by vm_compute|done|].
    + split; [by vm_compute|reflexivity|repeat constructor; by vm_compute].
    + split; [done|]. split; [by eexists|by split; vm_compute|done|by vm_compute].
  - by vm_compute.
  - split; [|by vm_compute]. intros k Hk. by apply (demo_range _ 3 1 k).
  - right. vm_compute. discriminate.
  - split_and!; [|by vm_compute|done]. intros k Hk. by apply (demo_range _ 2 1 k).
  - split; [left|right]; vm_compute; discriminate.
  - intros p i [-> ->]%demo_inodes. by vm_compute.
Qed.

Lemma filesys_create_open_witness : exists sec st s', filesys_create (replicate 20 7) [97] 600 demo_empty_fs = Ok (true, s') /\ fs_ready s' demo_root 2 (<[[97] := sec]> ∅) demo_map /\
  run_of (free_map demo_empty_fs) st 2 false /\ exists f p i s'', filesys_open (replicate 20 7) [97] s' = Ok (f, s'') /\ opened s'' f p 0 i /\ contents s'' i = replicate 600 0.
Proof.
  destruct (filesys_create_open (replicate 20 7) demo_empty_fs demo_root 2 ∅ demo_map [97] 600 demo_empty_ready) as [_ (sec & st & s' & E & R & _ & _ & Hr & _ & _ & _ & f & p & i & s'' & Eo & O & _ & _ & Hc & _)];
    [reflexivity|repeat constructor; lia|reflexivity|reflexivity|exists 0%nat; split; [lia|vm_compute; reflexivity]|lia| |].
  - exists 4. split; [lia|]. split; [vm_compute; discriminate|]. intros k Hk. apply (demo_range _ 4 3 k); [|lia|vm_compute; reflexivity]. unfold in_range. change ((600 + 511) / 512 + 1) with 3 in Hk. lia.
  - exists sec, st, s'. split; [exact E|]. split; [exact R|]. split; [exact Hr|]. exists f, p, i, s''. split; [exact Eo|]. split; [exact O|exact Hc].
Defined.
