(* ===== verification/Fat.v ===== *)
(** * The file allocation table on disk (filesys/fat.c)

    The boot sector and the transfer of the table between memory and disk.  The
    functions that keep the chains in the table are left to be written in the
    sources. *)

From S2P Require Import Prelude Bitmap Inode.
Local Open Scope Z_scope.

(** ** State *)

Definition FAT_MAGIC : Z := 0xEB3C9000.
Definition EOChain : Z := 0x0FFFFFFF.
Definition SECTORS_PER_CLUSTER : Z := 1.
Definition FAT_BOOT_SECTOR : Z := 0.
Definition ROOT_DIR_CLUSTER : Z := 1.
Definition sizeof_cluster_t : Z := 4.

(** [struct fat_boot] and [struct fat_fs]; [fat] holds the bytes of the table. *)
Record fat_boot := FatBoot { fb_magic : Z; sectors_per_cluster : Z; total_sectors : Z; fat_start : Z; fat_sectors : Z; root_dir_cluster : Z }.
Record fat_fs := FatFs { bs : fat_boot; fat : list Z; fat_length : Z; data_start : Z; last_clst : Z }.
(** The disk and the allocator are those of the file system. *)
Record fstate := FState { store : fs; ff : fat_fs }.

Definition on_store {A} (f : M fs A) : M fstate A := fun s => let! (a, d) := f (store s) in Ok (a, FState d (ff s)).
Definition set_bs b (s : fstate) := FState (store s) (FatFs b (fat (ff s)) (fat_length (ff s)) (data_start (ff s)) (last_clst (ff s))).
Definition set_fat l (s : fstate) := FState (store s) (FatFs (bs (ff s)) l (fat_length (ff s)) (data_start (ff s)) (last_clst (ff s))).

(** The bytes of a [struct fat_boot]. *)
Definition encode_boot (b : fat_boot) : list Z :=
  word_bytes 4 (fb_magic b) ++ word_bytes 4 (sectors_per_cluster b) ++ word_bytes 4 (total_sectors b) ++ word_bytes 4 (fat_start b) ++ word_bytes 4 (fat_sectors b) ++ word_bytes 4 (root_dir_cluster b).
Definition decode_boot (l : list Z) : fat_boot :=
  FatBoot (bytes_word (slice 0 4 l)) (bytes_word (slice 4 4 l)) (bytes_word (slice 8 4 l)) (bytes_word (slice 12 4 l)) (bytes_word (slice 16 4 l)) (bytes_word (slice 20 4 l)).

(** [memcpy (buffer + ofs, src, ...)]. *)
Definition put_bytes (ofs : Z) (src buffer : list Z) : result (list Z) :=
  if (0 <=? ofs) && (ofs + Z.of_nat (length src) <=? Z.of_nat (length buffer)) then Ok (splice (Z.to_nat ofs) src buffer) else Fault.
(** [memcpy (..., buffer + ofs, n)]. *)
Definition get_bytes (ofs n : Z) (buffer : list Z) : result (list Z) :=
  if (0 <=? ofs) && (0 <=? n) && (ofs + n <=? Z.of_nat (length buffer)) then Ok (slice (Z.to_nat ofs) (Z.to_nat n) buffer) else Fault.

(** [malloc] of a bounce buffer, which panics when it fails. *)
Definition bounce_buffer : M fstate unit := ok ← on_store alloc; if ok then ret tt else lift Panic.

(** ** Operations *)

(** [off_t] is [int32_t]. *)
Definition fat_size_in_bytes (f : fat_fs) : Z := s32 (fat_length f * sizeof_cluster_t).

(** [fat_fs->fat = calloc (fat_fs->fat_length, sizeof (cluster_t))], which gives
    a null pointer for an empty table too. *)
Definition alloc_table : M fstate unit :=
  s ← get; ok ← on_store alloc;
  if ok && (0 <? fat_length (ff s)) then modify (set_fat (replicate (Z.to_nat (fat_length (ff s) * sizeof_cluster_t)) 0)) else lift Panic.

(** [n] sectors are left. *)
Fixpoint open_loop (n : nat) (i bytes_read : Z) : M fstate unit :=
  match n with
  | O => ret tt
  | S n =>
      s ← get;
      let bytes_left := s32 (fat_size_in_bytes (ff s) - bytes_read) in
      if DISK_SECTOR_SIZE <=? bytes_left then
        sec ← on_store (disk_read (u32 (fat_start (bs (ff s)) + i)));
        b ← lift (put_bytes bytes_read sec (fat (ff s)));
        modify (set_fat b);;
        open_loop n (i + 1) (s32 (bytes_read + DISK_SECTOR_SIZE))
      else
        bounce_buffer;;
        sec ← on_store (disk_read (u32 (fat_start (bs (ff s)) + i)));
        c ← lift (get_bytes 0 bytes_left sec);
        b ← lift (put_bytes bytes_read c (fat (ff s)));
        modify (set_fat b);;
        open_loop n (i + 1) (s32 (bytes_read + bytes_left))
  end.
Definition fat_open : M fstate unit :=
  alloc_table;;
  s ← get; open_loop (Z.to_nat (fat_sectors (bs (ff s)))) 0 0.

Definition bounce_size : nat := 512.
Fixpoint close_loop (n : nat) (i bytes_wrote : Z) : M fstate unit :=
  match n with
  | O => ret tt
  | S n =>
      s ← get;
      let bytes_left := s32 (fat_size_in_bytes (ff s) - bytes_wrote) in
      if DISK_SECTOR_SIZE <=? bytes_left then
        c ← lift (get_bytes bytes_wrote DISK_SECTOR_SIZE (fat (ff s)));
        on_store (disk_write (u32 (fat_start (bs (ff s)) + i)) c);;
        close_loop n (i + 1) (s32 (bytes_wrote + DISK_SECTOR_SIZE))
      else
        bounce_buffer;;
        c ← lift (get_bytes bytes_wrote bytes_left (fat (ff s)));
        b ← lift (put_bytes 0 c (replicate bounce_size 0));
        on_store (disk_write (u32 (fat_start (bs (ff s)) + i)) b);;
        close_loop n (i + 1) (s32 (bytes_wrote + bytes_left))
  end.
Definition fat_close : M fstate unit :=
  bounce_buffer;;
  s ← get;
  b ← lift (put_bytes 0 (encode_boot (bs (ff s))) (replicate bounce_size 0));
  on_store (disk_write FAT_BOOT_SECTOR b);;
  close_loop (Z.to_nat (fat_sectors (bs (ff s)))) 0 0.

Definition fat_boot_create : M fstate unit :=
  s ← get;
  let n := disk_size (store s) in
  let fat_sectors := u32 (Z.quot (u32 (n - 1)) (DISK_SECTOR_SIZE / sizeof_cluster_t * SECTORS_PER_CLUSTER + 1) + 1) in
  modify (set_bs (FatBoot FAT_MAGIC SECTORS_PER_CLUSTER n 1 fat_sectors ROOT_DIR_CLUSTER)).

(** The functions that keep the chains have empty bodies in the sources.  The
    value of a function that ends without [return] is undefined. *)
Definition fat_fs_init : M fstate unit := ret tt.
Definition fat_create_chain (clst : Z) : M fstate Z := lift Fault.
Definition fat_remove_chain (clst pclst : Z) : M fstate unit := ret tt.
Definition fat_put (clst val : Z) : M fstate unit := ret tt.
Definition fat_get (clst : Z) : M fstate Z := lift Fault.
Definition cluster_to_sector (clst : Z) : M fstate Z := lift Fault.

Definition fat_init : M fstate unit :=
  ok ← on_store alloc;
  (if negb ok then lift Panic else ret tt);;
  modify (fun s => FState (store s) (FatFs (FatBoot 0 0 0 0 0 0) [] 0 0 0));;
  bounce_buffer;;
  sec ← on_store (disk_read FAT_BOOT_SECTOR);
  modify (set_bs (decode_boot sec));;
  s ← get;
  (if negb (fb_magic (bs (ff s)) =? FAT_MAGIC) then fat_boot_create else ret tt);;
  fat_fs_init.

Definition fat_create : M fstate unit :=
  fat_boot_create;;
  fat_fs_init;;
  alloc_table;;
  fat_put ROOT_DIR_CLUSTER EOChain;;
  bounce_buffer;;
  sec ← cluster_to_sector ROOT_DIR_CLUSTER;
  on_store (disk_write sec (replicate bounce_size 0)).

(** ** Saving and loading *)

(** Sector [j] of the table, padded with zeros. *)
Definition sector_of (l : list Z) (j : nat) : list Z := let c := slice (512 * j) 512 l in c ++ replicate (512 - length c) 0.
(** The bytes that the first [k] sectors hold. *)
Definition moved (l : list Z) (k : nat) : nat := Nat.min (512 * k) (length l).

Lemma length_sector_of l j : length (sector_of l j) = 512%nat.
Proof. unfold sector_of. rewrite length_app, length_replicate. unfold slice. rewrite length_take. lia. Qed.

Lemma put_bytes_run ofs src buffer : (ofs + length src <= length buffer)%nat -> put_bytes (Z.of_nat ofs) src buffer = Ok (splice ofs src buffer).
Proof. intros H. unfold put_bytes. rewrite !(proj2 (Z.leb_le _ _)) by lia. cbn [andb]. by rewrite Nat2Z.id. Qed.
Lemma get_bytes_run ofs n buffer : (ofs + n <= length buffer)%nat -> get_bytes (Z.of_nat ofs) (Z.of_nat n) buffer = Ok (slice ofs n buffer).
Proof. intros H. unfold get_bytes. rewrite !(proj2 (Z.leb_le _ _)) by lia. cbn [andb]. by rewrite !Nat2Z.id. Qed.

Lemma bounce_run s : allocs (store s) = [] -> bounce_buffer s = Ok (tt, s).
Proof. intros H. unfold bounce_buffer, on_store, bind, alloc. rewrite H. by destruct s. Qed.
Lemma read_run s a sec : disk (store s) !! a = Some sec -> Z.of_nat a < 2 ^ 28 -> on_store (disk_read (Z.of_nat a)) s = Ok (sec, s).
Proof.
  intros H Ha. pose proof (lookup_lt_Some _ _ _ H). unfold on_store, disk_read, bind, get, ASSERT, disk_size. cbn. rewrite !(proj2 (Z.ltb_lt _ _)) by lia. cbn. rewrite Nat2Z.id, H. cbn. by destruct s.
Qed.
Lemma write_run s a b : (a < length (disk (store s)))%nat -> Z.of_nat a < 2 ^ 28 -> on_store (disk_write (Z.of_nat a) b) s = Ok (tt, FState (set_disk (<[a := b]>) (store s)) (ff s)).
Proof. intros H Ha. unfold on_store, disk_write, bind, get, ASSERT, modify, disk_size. cbn. rewrite !(proj2 (Z.ltb_lt _ _)) by lia. cbn. by rewrite Nat2Z.id. Qed.

(** A table that fits its length, with sectors on the disk. *)
Record table_ok (f : fat_fs) (d : list (list Z)) : Prop := {
  to_length : Z.of_nat (length (fat f)) = fat_length f * sizeof_cluster_t;
  to_small : Z.of_nat (length (fat f)) < 2 ^ 31 - 512;
  to_start : 1 <= fat_start (bs f);
  to_sectors : 0 <= fat_sectors (bs f);
  to_end : fat_start (bs f) + fat_sectors (bs f) <= Z.of_nat (length d);
  to_disk : Z.of_nat (length d) <= 2 ^ 28
}.

Lemma size_run f d : table_ok f d -> fat_size_in_bytes f = Z.of_nat (length (fat f)).
Proof. intros [H1 H2 _ _ _ _]. unfold fat_size_in_bytes. rewrite <- H1. apply wraps_id; [lia|unfold is_s; lia]. Qed.

Lemma moved_S l k : (moved l (S k) = moved l k + Nat.min 512 (length l - moved l k))%nat.
Proof. unfold moved. lia. Qed.

Lemma slice_moved l k : slice (512 * k) 512 l = slice (moved l k) (Nat.min 512 (length l - moved l k)) l.
Proof.
  unfold moved, slice. destruct (decide (512 * k <= length l)%nat).
  - rewrite (Nat.min_l (512 * k)) by done. destruct (decide (512 <= length l - 512 * k)%nat); [by rewrite Nat.min_l|]. rewrite Nat.min_r by lia. rewrite !take_ge by (rewrite length_drop; lia). done.
  - rewrite (Nat.min_r (512 * k)) by lia. rewrite !drop_ge by lia. by rewrite !take_nil.
Qed.

Lemma close_loop_run n : forall k s, allocs (store s) = [] -> table_ok (ff s) (disk (store s)) -> Z.of_nat (k + n) = fat_sectors (bs (ff s)) ->
  exists d, close_loop n (Z.of_nat k) (Z.of_nat (moved (fat (ff s)) k)) s = Ok (tt, FState (set_disk (fun _ => d) (store s)) (ff s)) /\ length d = length (disk (store s)) /\
    (forall j, (k <= j < k + n)%nat -> d !! (Z.to_nat (fat_start (bs (ff s))) + j)%nat = Some (sector_of (fat (ff s)) j)) /\
    (forall a, (Z.of_nat a < fat_start (bs (ff s)) + Z.of_nat k \/ fat_start (bs (ff s)) + Z.of_nat (k + n) <= Z.of_nat a) -> d !! a = disk (store s) !! a).
Proof.
  induction n as [|n IH]; intros k s Ha Ht Hk.
  - exists (disk (store s)). cbn [close_loop]. split; [by destruct s as [[] ?]|]. split; [done|]. split; [lia|done].
  - pose proof Ht as [H1 H2 H3 H4 H5 H6]. cbn [close_loop]. mnorm. rewrite (size_run _ _ Ht). set (l := fat (ff s)) in *. set (b := moved l k).
    assert (b <= length l)%nat as Hb by (unfold b, moved; lia).
    assert (u32 (fat_start (bs (ff s)) + Z.of_nat k) = Z.of_nat (Z.to_nat (fat_start (bs (ff s))) + k)) as -> by (rewrite wrapu_id; [lia|unfold is_u; lia]).
    set (a := (Z.to_nat (fat_start (bs (ff s))) + k)%nat).
    assert (s32 (Z.of_nat (length l) - Z.of_nat b) = Z.of_nat (length l - b)) as -> by (rewrite wraps_id; [lia|lia|unfold is_s; lia]).
    set (s2 := FState (set_disk (<[a := sector_of l k]>) (store s)) (ff s)).
    destruct (IH (S k) s2) as (d & E & Ld & D1 & D2).
    { done. }
    { unfold s2. cbn [ff store]. split; try done; cbn; rewrite length_insert; done. }
    { cbn. lia. }
    cbn [ff store s2 set_disk disk] in *. rewrite length_insert in Ld. fold l in E, D1. pose proof (moved_S l k) as Hm. fold b in Hm.
    exists d. split; [|split; [done|split]].
    + unfold DISK_SECTOR_SIZE. destruct (Z.leb_spec 512 (Z.of_nat (length l - b))).
      * assert (get_bytes (Z.of_nat b) 512 l = Ok (sector_of l k)) as ->.
        { change 512 with (Z.of_nat 512). rewrite get_bytes_run by lia. unfold sector_of. rewrite slice_moved. fold b. rewrite Nat.min_l by lia. rewrite length_slice by lia. by rewrite Nat.sub_diag, app_nil_r. }
        change (lift (Ok (sector_of l k))) with (ret (S := fstate) (sector_of l k)). mnorm. mstep (write_run s a (sector_of l k) ltac:(unfold a; lia) ltac:(unfold a; lia)). fold s2.
        replace (Z.of_nat k + 1) with (Z.of_nat (S k)) by lia. replace (s32 (Z.of_nat b + 512)) with (Z.of_nat (moved l (S k))) by (rewrite wraps_id; [lia|lia|unfold is_s; lia]). exact E.
      * mstep (bounce_run s Ha). rewrite get_bytes_run by lia.
        match goal with |- context [lift (Ok ?x)] => change (lift (Ok x)) with (ret (S := fstate) x) end. mnorm.
        assert (put_bytes 0 (slice b (length l - b) l) (replicate bounce_size 0) = Ok (sector_of l k)) as ->.
        { change 0 with (Z.of_nat 0) at 1. rewrite put_bytes_run by (rewrite length_slice, length_replicate by lia; unfold bounce_size; lia). f_equal. unfold sector_of. rewrite slice_moved. fold b. rewrite Nat.min_r by lia.
          unfold splice. cbn [take app]. rewrite length_slice, drop_replicate by lia. done. }
        match goal with |- context [lift (Ok ?x)] => change (lift (Ok x)) with (ret (S := fstate) x) end. mnorm.
        mstep (write_run s a (sector_of l k) ltac:(unfold a; lia) ltac:(unfold a; lia)). fold s2.
        replace (Z.of_nat k + 1) with (Z.of_nat (S k)) by lia. replace (s32 (Z.of_nat b + Z.of_nat (length l - b))) with (Z.of_nat (moved l (S k))) by (rewrite wraps_id; [lia|lia|unfold is_s; lia]). exact E.
    + intros j Hj. destruct (decide (j = k)) as [->|]; [|apply D1; lia]. fold a. rewrite D2 by (unfold a; lia). apply list_lookup_insert_eq. unfold a. lia.
    + intros x Hx. rewrite D2 by lia. apply list_lookup_insert_ne. unfold a. lia.
Qed.

(** What has been loaded after [k] sectors. *)
Definition loaded (l : list Z) (k : nat) : list Z := take (moved l k) l ++ replicate (length l - moved l k) 0.

Lemma length_loaded l k : length (loaded l k) = length l.
Proof. unfold loaded. rewrite length_app, length_take, length_replicate. unfold moved. lia. Qed.

Lemma loaded_S l k : splice (moved l k) (slice (moved l k) (Nat.min 512 (length l - moved l k)) l) (loaded l k) = loaded l (S k).
Proof.
  pose proof (moved_S l k) as Hm. unfold splice. set (b := moved l k) in *. set (n := Nat.min 512 (length l - b)) in *. assert (b <= length l)%nat by (unfold b, moved; lia).
  rewrite length_slice by lia. unfold loaded. fold b. rewrite take_app_le, take_take, Nat.min_id by (rewrite length_take; lia). rewrite drop_app_ge by (rewrite length_take; lia). rewrite length_take, Nat.min_l, drop_replicate by lia.
  rewrite app_assoc. unfold slice. rewrite take_take_drop, <- Hm. f_equal. f_equal. lia.
Qed.

Lemma open_loop_run n : forall k s l, allocs (store s) = [] -> Z.of_nat (length l) = fat_length (ff s) * sizeof_cluster_t -> table_ok (ff s) (disk (store s)) -> fat (ff s) = loaded l k -> Z.of_nat (k + n) = fat_sectors (bs (ff s)) ->
  (forall j, (k <= j < k + n)%nat -> disk (store s) !! (Z.to_nat (fat_start (bs (ff s))) + j)%nat = Some (sector_of l j)) ->
  open_loop n (Z.of_nat k) (Z.of_nat (moved l k)) s = Ok (tt, set_fat (loaded l (k + n)) s).
Proof.
  induction n as [|n IH]; intros k s l Ha Hl Ht Hf Hk Hd.
  - cbn [open_loop]. rewrite Nat.add_0_r, <- Hf. by destruct s as [? []].
  - pose proof Ht as [H1 H2 H3 H4 H5 H6]. cbn [open_loop]. mnorm. rewrite (size_run _ _ Ht). rewrite Hf, length_loaded in *. set (b := moved l k). assert (b <= length l)%nat as Hb by (unfold b, moved; lia).
    assert (u32 (fat_start (bs (ff s)) + Z.of_nat k) = Z.of_nat (Z.to_nat (fat_start (bs (ff s))) + k)) as -> by (rewrite wrapu_id; [lia|unfold is_u; lia]).
    assert (s32 (Z.of_nat (length l) - Z.of_nat b) = Z.of_nat (length l - b)) as -> by (rewrite wraps_id; [lia|lia|unfold is_s; lia]).
    pose proof (read_run s _ _ (Hd k ltac:(lia)) ltac:(lia)) as Er. pose proof (moved_S l k) as Hm. fold b in Hm. pose proof (loaded_S l k) as Hs. fold b in Hs.
    assert (open_loop n (Z.of_nat (S k)) (Z.of_nat (moved l (S k))) (set_fat (loaded l (S k)) s) = Ok (tt, set_fat (loaded l (k + S n)) s)) as E.
    { rewrite (IH (S k) (set_fat (loaded l (S k)) s) l); [|done|done| |done|cbn; lia|].
      - replace (S k + n)%nat with (k + S n)%nat by lia. reflexivity.
      - cbn [ff store set_fat]. split; try done; cbn [fat fat_length bs]; rewrite length_loaded; done.
      - intros j Hj. apply Hd. lia. }
    replace (Z.of_nat k + 1) with (Z.of_nat (S k)) by lia. unfold DISK_SECTOR_SIZE. destruct (Z.leb_spec 512 (Z.of_nat (length l - b))).
    + mstep Er. assert (sector_of l k = slice b (Nat.min 512 (length l - b)) l) as ->.
      { unfold sector_of. rewrite slice_moved. fold b. rewrite Nat.min_l, length_slice by lia. by rewrite Nat.sub_diag, app_nil_r. }
      rewrite put_bytes_run by (rewrite length_slice, length_loaded by lia; lia). rewrite Hs. match goal with |- context [lift (Ok ?x)] => change (lift (Ok x)) with (ret (S := fstate) x) end. mnorm.
      replace (s32 (Z.of_nat b + 512)) with (Z.of_nat (moved l (S k))) by (rewrite wraps_id; [lia|lia|unfold is_s; lia]). exact E.
    + mstep (bounce_run s Ha). mstep Er. change 0 with (Z.of_nat 0) at 1. rewrite get_bytes_run by (rewrite length_sector_of; lia). match goal with |- context [lift (Ok ?x)] => change (lift (Ok x)) with (ret (S := fstate) x) end. mnorm.
      assert (slice 0 (length l - b) (sector_of l k) = slice b (Nat.min 512 (length l - b)) l) as ->.
      { unfold sector_of. rewrite slice_moved. fold b. rewrite Nat.min_r by lia. unfold slice at 1. rewrite drop_0, take_app_le by (rewrite length_slice; lia). apply take_ge. rewrite length_slice; lia. }
      rewrite put_bytes_run by (rewrite length_slice, length_loaded by lia; lia). rewrite Hs. match goal with |- context [lift (Ok ?x)] => change (lift (Ok x)) with (ret (S := fstate) x) end. mnorm.
      replace (s32 (Z.of_nat b + Z.of_nat (length l - b))) with (Z.of_nat (moved l (S k))) by (rewrite wraps_id; [lia|lia|unfold is_s; lia]). exact E.
Qed.

Lemma decode_encode_boot b rest : is_u32 (fb_magic b) -> is_u32 (sectors_per_cluster b) -> is_u32 (total_sectors b) -> is_u32 (fat_start b) -> is_u32 (fat_sectors b) -> is_u32 (root_dir_cluster b) ->
  decode_boot (encode_boot b ++ rest) = b.
Proof.
  intros H1 H2 H3 H4 H5 H6. destruct b as [b1 b2 b3 b4 b5 b6]. unfold encode_boot, decode_boot. cbn [fb_magic sectors_per_cluster total_sectors fat_start fat_sectors root_dir_cluster] in *.
  assert (forall w, is_u32 w -> bytes_word (word_bytes 4 w) = w) as Hw by (intros w Hw; apply bytes_word_bytes; exact Hw).
  f_equal; [exact (Hw b1 H1)|exact (Hw b2 H2)|exact (Hw b3 H3)|exact (Hw b4 H4)|exact (Hw b5 H5)|exact (Hw b6 H6)].
Qed.

Lemma fat_alloc_run s : allocs (store s) = [] -> on_store alloc s = Ok (true, s).
Proof. intros H. unfold on_store, alloc. rewrite H. by destruct s. Qed.

(** ** Properties *)

(** The table survives on the disk.  [fat_close] writes the boot record to
    sector 0 and the table to its sectors, padded with zeros, and changes no
    other sector; [fat_init] then finds the boot record again, and [fat_open] reads back the table, when its
    length is the same: every entry, if the table is no longer than its
    sectors, and otherwise those that the sectors hold, the others being
    zero. *)
Theorem fat_close_open_roundtrip s : allocs (store s) = [] -> table_ok (ff s) (disk (store s)) -> 0 < fat_length (ff s) ->
  fb_magic (bs (ff s)) = FAT_MAGIC -> is_u32 (sectors_per_cluster (bs (ff s))) -> is_u32 (total_sectors (bs (ff s))) -> is_u32 (root_dir_cluster (bs (ff s))) ->
  exists d, fat_close s = Ok (tt, FState (set_disk (fun _ => d) (store s)) (ff s)) /\ length d = length (disk (store s)) /\
    (forall a, (0 < a)%nat -> Z.of_nat a < fat_start (bs (ff s)) \/ fat_start (bs (ff s)) + fat_sectors (bs (ff s)) <= Z.of_nat a -> d !! a = disk (store s) !! a) /\
    (forall g, fat_init (FState (set_disk (fun _ => d) (store s)) g) = Ok (tt, FState (set_disk (fun _ => d) (store s)) (FatFs (bs (ff s)) [] 0 0 0))) /\
    (forall g, bs g = bs (ff s) -> fat_length g = fat_length (ff s) ->
       let m := Z.to_nat (Z.min (DISK_SECTOR_SIZE * fat_sectors (bs (ff s))) (Z.of_nat (length (fat (ff s))))) in
       fat_open (FState (set_disk (fun _ => d) (store s)) g) =
         Ok (tt, FState (set_disk (fun _ => d) (store s)) (FatFs (bs g) (take m (fat (ff s)) ++ replicate (length (fat (ff s)) - m) 0) (fat_length g) (data_start g) (last_clst g)))).
Proof.
  intros Ha Ht Hn M1 M2 M3 M6. pose proof Ht as [H1 H2 H3 H4 H5 H6]. unfold fat_close. mstep (bounce_run s Ha).
  set (b0 := encode_boot (bs (ff s)) ++ replicate 488 0).
  assert (put_bytes 0 (encode_boot (bs (ff s))) (replicate bounce_size 0) = Ok b0) as -> by (change 0 with (Z.of_nat 0) at 1; by rewrite put_bytes_run by (unfold encode_boot, bounce_size; rewrite !length_app, !length_word_bytes, length_replicate; lia)).
  match goal with |- context [lift (Ok ?x)] => change (lift (Ok x)) with (ret (S := fstate) x) end. mnorm. pose proof (write_run s 0 b0 ltac:(lia) ltac:(lia)) as Ew. change (Z.of_nat 0) with FAT_BOOT_SECTOR in Ew. mstep Ew.
  set (s1 := FState (set_disk (<[0%nat := b0]>) (store s)) (ff s)).
  destruct (close_loop_run (Z.to_nat (fat_sectors (bs (ff s)))) 0 s1 Ha) as (d & E & Ld & D1 & D2); [split; try done; cbn; rewrite length_insert; done|cbn; lia|].
  cbn [ff store s1 set_disk disk] in *. rewrite length_insert in Ld. set (l := fat (ff s)) in *. change (moved l 0) with (Nat.min (512 * 0) (length l)) in E. cbn [Nat.mul Nat.min] in E. change (Z.of_nat 0) with 0 in E.
  exists d. split; [exact E|]. split; [done|].
  assert (d !! 0%nat = Some b0) as D0 by (rewrite D2 by lia; apply list_lookup_insert_eq; lia).
  split; [intros a Ha0 Hx; rewrite D2 by lia; apply list_lookup_insert_ne; lia|]. split.
  - intros g. set (s2 := FState (set_disk (fun _ => d) (store s)) g). unfold fat_init. mstep (fat_alloc_run s2 Ha). cbn [negb]. mnorm. cbn [store s2].
    set (s3 := FState (set_disk (fun _ => d) (store s)) (FatFs (FatBoot 0 0 0 0 0 0) [] 0 0 0)). mstep (bounce_run s3 Ha).
    pose proof (read_run s3 0 b0 D0 ltac:(lia)) as Er. change (Z.of_nat 0) with FAT_BOOT_SECTOR in Er. mstep Er.
    assert (decode_boot b0 = bs (ff s)) as -> by (apply decode_encode_boot; try done; rewrite ?M1; unfold is_u, FAT_MAGIC; lia). cbn [ff set_bs bs s3]. rewrite M1, Z.eqb_refl. cbn [negb]. by mnorm.
  - intros g Hb Hg. set (m := Z.to_nat (Z.min (DISK_SECTOR_SIZE * fat_sectors (bs (ff s))) (Z.of_nat (length l)))). set (s2 := FState (set_disk (fun _ => d) (store s)) g). unfold fat_open, alloc_table. mnorm. mstep (fat_alloc_run s2 Ha). cbn [ff s2]. rewrite Hg, (proj2 (Z.ltb_lt _ _) Hn). cbn [andb]. mnorm. cbn [ff set_fat bs store s2]. rewrite Hb.
    replace (Z.to_nat (fat_length (ff s) * sizeof_cluster_t)) with (length l) by lia.
    set (s3 := set_fat (replicate (length l) 0) s2). pose proof (open_loop_run (Z.to_nat (fat_sectors (bs (ff s)))) 0 s3 l Ha) as Eo. change (moved l 0) with (Nat.min (512 * 0) (length l)) in Eo. cbn [Nat.mul Nat.min Nat.add] in Eo. change (Z.of_nat 0) with 0 in Eo.
    rewrite Eo.
    + unfold set_fat, loaded. cbn [store ff s3 s2 bs fat_length data_start last_clst set_fat]. rewrite Hb, Hg. replace (moved l (Z.to_nat (fat_sectors (bs (ff s))))) with m by (unfold m, moved, DISK_SECTOR_SIZE; lia). done.
    + cbn [ff s3 s2 set_fat fat_length]. by rewrite Hg.
    + cbn [ff s3 s2 set_fat store set_disk disk]. split; cbn [fat fat_length bs]; rewrite ?length_replicate, ?Hb, ?Hg; try done; lia.
    + unfold loaded, moved. cbn [Nat.mul Nat.min take app]. by rewrite Nat.sub_0_r.
    + cbn [ff s3 s2 set_fat bs]. rewrite Hb. lia.
    + intros j Hj. cbn [ff s3 s2 set_fat bs store set_disk disk]. rewrite Hb. apply D1. lia.
Qed.

(** [fat_boot_create] reserves enough sectors: an entry for every sector that is
    left for data, within the disk. *)
Lemma fat_boot_create_fits s : 2 <= disk_size (store s) < 2 ^ 32 ->
  exists s', fat_boot_create s = Ok (tt, s') /\ let b := bs (ff s') in let n := disk_size (store s) in
    total_sectors b = n /\ fat_start b + fat_sectors b <= n /\ n - fat_start b - fat_sectors b <= fat_sectors b * (DISK_SECTOR_SIZE / sizeof_cluster_t).
Proof.
  intros Hn. unfold fat_boot_create. mnorm. eexists. split; [reflexivity|]. cbn [ff set_bs bs total_sectors fat_start fat_sectors]. change (DISK_SECTOR_SIZE / sizeof_cluster_t) with 128. change (128 * SECTORS_PER_CLUSTER + 1) with 129.
  rewrite (wrapu_id 32 (disk_size (store s) - 1)) by (unfold is_u; lia). rewrite Z.quot_div_nonneg by lia. pose proof (Z.div_mod (disk_size (store s) - 1) 129 ltac:(lia)). pose proof (Z.mod_pos_bound (disk_size (store s) - 1) 129 ltac:(lia)).
  rewrite wrapu_id by (unfold is_u; lia). lia.
Qed.

(** A table of 200 entries in two sectors. *)
Definition demo_fat : fstate :=
  FState (FS (replicate 5 (replicate 512 7)) ∅ [] ∅ ∅ 1 [] (Bitmap 0 []) 0) (FatFs (FatBoot FAT_MAGIC 1 5 1 2 1) (replicate 800 9) 200 3 1).
Lemma fat_close_open_roundtrip_witness : exists d, fat_close demo_fat = Ok (tt, FState (set_disk (fun _ => d) (store demo_fat)) (ff demo_fat)) /\
  fat_open (FState (set_disk (fun _ => d) (store demo_fat)) (FatFs (FatBoot FAT_MAGIC 1 5 1 2 1) [] 200 0 0)) =
    Ok (tt, FState (set_disk (fun _ => d) (store demo_fat)) (FatFs (FatBoot FAT_MAGIC 1 5 1 2 1) (replicate 800 9) 200 0 0)).
Proof.
  destruct (fat_close_open_roundtrip demo_fat) as (d & E & _ & _ & _ & H); try reflexivity; try by_eval; try (cbn; unfold is_u; lia).
  - split; vm_compute; try reflexivity; discriminate.
  - exists d. split; [exact E|]. exact (H (FatFs (FatBoot FAT_MAGIC 1 5 1 2 1) [] 200 0 0) eq_refl eq_refl).
Defined.
