(* ===== verification/FsUtil.v ===== *)
(** * File system utilities (filesys/fsutil.c)

    The commands of the kernel that list, print, remove and copy files, over the
    file system and the scratch disk.  What [printf] and [hex_dump] are asked to
    print is kept as it is; how they print it is in Stdio.v and Console.v. *)

From Stdlib Require Import Ascii String.
From S2P Require Import Prelude Bitmap Inode FreeMap FileSpec Directory DirSpec FilesysSpec.
From S2P Require Stdio Fat.
Local Open Scope Z_scope.
Local Notation length := List.length.
Local Notation chars := Stdio.chars.

(** ** State *)

Inductive output := Text (l : list Z) | Hex (ofs : Z) (bytes : list Z).

(** The file system with its disk; the disk 1:0, if there is one; the static
    variables [sector] of [fsutil_put] and of [fsutil_get]; and the output. *)
Record ustate := UState { store : fs; scratch : option (list (list Z)); put_sector : Z; get_sector : Z; screen : list output }.

Definition on_fs {A} (f : M fs A) : M ustate A := fun u => let! (a, s) := f (store u) in Ok (a, UState s (scratch u) (put_sector u) (get_sector u) (screen u)).
Definition say (o : output) : M ustate unit := modify (fun u => UState (store u) (scratch u) (put_sector u) (get_sector u) (screen u ++ [o])%list).
Definition panic_unless (b : bool) : M ustate unit := if b then ret tt else lift Panic.

(** [disk_get (1, 0)], which the callers need. *)
Definition scratch_disk : M ustate (list (list Z)) := u ← get; lift (match scratch u with Some d => Ok d | None => Panic end).
(** [disk_read (src, sector++, buffer)]. *)
Definition scratch_read : M ustate (list Z) :=
  d ← scratch_disk; u ← get;
  put (UState (store u) (scratch u) (u32 (put_sector u + 1)) (get_sector u) (screen u));;
  ASSERT (put_sector u <? Z.of_nat (length d));; ASSERT (put_sector u <? 2 ^ 28);;
  lift (deref (d !! Z.to_nat (put_sector u))).
(** [disk_write (dst, sector++, buffer)]. *)
Definition scratch_write (buffer : list Z) : M ustate unit :=
  d ← scratch_disk; u ← get;
  ASSERT (get_sector u <? Z.of_nat (length d));; ASSERT (get_sector u <? 2 ^ 28);;
  put (UState (store u) (Some (<[Z.to_nat (get_sector u) := buffer]> d)) (put_sector u) (u32 (get_sector u + 1)) (screen u)).

(** ** Commands *)

Definition PGSIZE : Z := 4096.
(** [size > DISK_SECTOR_SIZE ? DISK_SECTOR_SIZE : size]. *)
Definition chunk_size (size : Z) : Z := if DISK_SECTOR_SIZE <? size then DISK_SECTOR_SIZE else size.
(** The rounds of the copying loops. *)
Definition rounds (size : Z) : nat := S (Z.to_nat (size / DISK_SECTOR_SIZE)).

Section Commands.
(** What an uninitialised [struct dir_entry] of directory.c holds, and the
    argument [file_name]. *)
Context (junk file_name : list Z).

Fixpoint ls_loop (fuel : nat) (d : Z) : M ustate unit :=
  match fuel with
  | O => out_of_fuel
  | S fuel =>
      r ← on_fs (dir_readdir d);
      match r with Some name => say (Text (name ++ [10]));; ls_loop fuel d | None => ret tt end
  end.
(** A directory has no more names than entries. *)
Definition ls_fuel (d : Z) : M fs nat := x ← get_dir d; n ← dir_fuel (d_inode x); ret (S n).
Definition fsutil_ls : M ustate unit :=
  say (Text (chars "Files in the root directory:" ++ [10]));;
  d ← on_fs dir_open_root;
  panic_unless (negb (d =? NULL));;
  fuel ← on_fs (ls_fuel d);
  ls_loop fuel d;;
  say (Text (chars "End of listing." ++ [10])).

Fixpoint cat_loop (fuel : nat) (f : Z) : M ustate unit :=
  match fuel with
  | O => out_of_fuel
  | S fuel =>
      pos ← on_fs (file_tell f);
      bs ← on_fs (file_read f PGSIZE);
      if (length bs =? 0)%nat then ret tt else say (Hex pos bs);; cat_loop fuel f
  end.
Definition cat_fuel (f : Z) : M fs nat := n ← file_length f; ret (S (S (Z.to_nat (n / PGSIZE)))).
Definition fsutil_cat : M ustate unit :=
  say (Text (chars "Printing '" ++ file_name ++ chars "' to the console..." ++ [10]));;
  f ← on_fs (filesys_open junk file_name);
  panic_unless (negb (f =? NULL));;
  ok ← on_fs alloc; panic_unless ok;;
  fuel ← on_fs (cat_fuel f);
  cat_loop fuel f;;
  on_fs (file_close f).

Definition fsutil_rm : M ustate unit :=
  say (Text (chars "Deleting '" ++ file_name ++ chars "'..." ++ [10]));;
  ok ← on_fs (filesys_remove junk file_name); panic_unless ok.

Fixpoint put_loop (fuel : nat) (dst size : Z) : M ustate unit :=
  if 0 <? size then
    match fuel with
    | O => out_of_fuel
    | S fuel =>
        let chunk_size := chunk_size size in
        buffer ← scratch_read;
        n ← on_fs (file_write dst buffer chunk_size);
        panic_unless (n =? chunk_size);;
        put_loop fuel dst (size - chunk_size)
    end
  else ret tt.
Definition PUT : list Z := [80; 85; 84; 0].
Definition fsutil_put : M ustate unit :=
  say (Text (chars "Putting '" ++ file_name ++ chars "' into the file system..." ++ [10]));;
  ok ← on_fs alloc; panic_unless ok;;
  scratch_disk;;
  buffer ← scratch_read;
  panic_unless (bool_decide (take 4 buffer = PUT));;
  let size := s32 (bytes_word (slice 4 4 buffer)) in
  panic_unless (negb (size <? 0));;
  ok ← on_fs (filesys_create junk file_name size); panic_unless ok;;
  dst ← on_fs (filesys_open junk file_name); panic_unless (negb (dst =? NULL));;
  put_loop (rounds size) dst size;;
  on_fs (file_close dst).

Fixpoint get_loop (fuel : nat) (src size : Z) : M ustate unit :=
  if 0 <? size then
    match fuel with
    | O => out_of_fuel
    | S fuel =>
        let chunk_size := chunk_size size in
        d ← scratch_disk; u ← get;
        panic_unless (negb (Z.of_nat (length d) <=? get_sector u));;
        bs ← on_fs (file_read src chunk_size);
        panic_unless (Z.of_nat (length bs) =? chunk_size);;
        scratch_write (bs ++ replicate (Z.to_nat (DISK_SECTOR_SIZE - chunk_size)) 0);;
        get_loop fuel src (size - chunk_size)
    end
  else ret tt.
Definition GET : list Z := [71; 69; 84; 0].
Definition get_header (size : Z) : list Z := GET ++ word_bytes 4 (u32 size) ++ replicate 504 0.
Definition fsutil_get : M ustate unit :=
  say (Text (chars "Getting '" ++ file_name ++ chars "' from the file system..." ++ [10]));;
  ok ← on_fs alloc; panic_unless ok;;
  src ← on_fs (filesys_open junk file_name); panic_unless (negb (src =? NULL));;
  size ← on_fs (file_length src);
  scratch_disk;;
  scratch_write (get_header size);;
  get_loop (rounds size) src size;;
  on_fs (file_close src).
End Commands.

(** ** Reading and writing an open file *)

Definition seek_to (f p pos : Z) (s : fs) : fs := set_files (<[f := File p pos false]>) s.

Lemma opened_seek s f p pos pos' i : opened s f p pos i -> 0 <= pos' <= length_ (data i) -> opened (seek_to f p pos' s) f p pos' i.
Proof. intros [O1 O2 O3 [I1 I2 I3] O5 O6 O7] H. by split; try done; cbn; rewrite lookup_insert_eq. Qed.

Lemma get_file_run s f p pos i : opened s f p pos i -> get_file f s = Ok (File p pos false, s).
Proof. intros O. unfold get_file. by rewrite (op_file _ _ _ _ _ O). Qed.

Lemma opened_read_run s f p pos i n : opened s f p pos i -> 0 <= n <= length_ (data i) - pos ->
  file_read f n s = Ok (slice (Z.to_nat pos) (Z.to_nat n) (contents s i), seek_to f p (pos + n) s).
Proof.
  intros O Hn. pose proof O as [O1 O2 O3 O4 O5 O6 O7]. pose proof (io_len _ _ O4) as Hl. unfold file_read. mstep (get_file_run _ _ _ _ _ O). cbn [f_inode f_pos deny_write].
  destruct (inode_read_run s p i n pos O5 O3 O4) as (m & s' & E & _ & _ & H); [lia|lia|]. destruct (H O6) as [-> ->]. mstep E.
  assert (reach i n pos = n) as -> by (unfold reach; lia). rewrite length_slice by (rewrite length_contents by done; lia).
  unfold put_file, seek_to. mnorm. rewrite wraps_id by (unfold is_s; lia). by rewrite Z2Nat.id by lia.
Qed.

Definition same_table (s s' : fs) : Prop := inodes s' = inodes s /\ open_inodes s' = open_inodes s /\ next_addr s' = next_addr s /\ disk_size s' = disk_size s.
Definition others_kept (i : inode) (s s' : fs) : Prop := forall j, inode_ok s j -> sectors_disjoint i j -> inode_ok s' j /\ contents s' j = contents s j.

Lemma opened_write_run s f p pos i buffer n : opened s f p pos i -> deny_write_cnt i = 0 -> 0 <= n <= length_ (data i) - pos -> n <= Z.of_nat (length buffer) ->
  exists s', file_write f buffer n s = Ok (n, s') /\ opened s' f p (pos + n) i /\ same_table s s' /\
    contents s' i = splice (Z.to_nat pos) (take (Z.to_nat n) buffer) (contents s i) /\ others_kept i s s'.
Proof.
  intros O Hd Hn Hb. pose proof O as [O1 O2 O3 O4 O5 O6 O7]. pose proof (io_len _ _ O4) as Hl. unfold file_write. mstep (get_file_run _ _ _ _ _ O). cbn [f_inode f_pos deny_write].
  destruct (inode_write_run s p i buffer n pos O5 O3 O4 Hd) as (m & s' & E & Hd' & Hc & _ & H & Hf & Hct); [lia|lia|lia|]. destruct (H O6) as [-> Ha]. mstep E.
  assert (reach i n pos = n) as R by (unfold reach; lia). rewrite R in *. unfold put_file. mnorm. rewrite wraps_id by (unfold is_s; lia).
  exists (seek_to f p (pos + n) s'). split; [done|]. pose proof (inode_ok_changed _ _ _ Hc O4) as Hi'.
  assert (others_kept i s (seek_to f p (pos + n) s')) as Hk.
  { intros j Hj Hdis. split; [destruct (inode_ok_changed _ _ _ Hc Hj); by split|]. apply (contents_elsewhere s _ i j pos (take (Z.to_nat n) buffer)); try done; [lia|rewrite length_take; lia]. }
  destruct Hc as (dd & l & -> & Ldd & _). split; [|split; [unfold same_table, disk_size; cbn; by rewrite Ldd|split; [done|exact Hk]]].
  apply (opened_seek _ _ _ pos); [by split|lia].
Qed.

(** ** Copying to a file *)

(** The sectors of [size] bytes. *)
Definition sectors (size : Z) : Z := (size + 511) / 512.

Lemma chunk_size_min size : chunk_size size = Z.min size 512.
Proof. unfold chunk_size, DISK_SECTOR_SIZE. destruct (Z.ltb_spec 512 size); lia. Qed.

Lemma sectors_step size : 0 < size -> sectors size = 1 + sectors (size - Z.min size 512) /\ 0 <= sectors (size - Z.min size 512).
Proof.
  intros H. unfold sectors. split; [|apply Z.div_pos; lia]. destruct (Z.leb_spec size 512).
  - rewrite Z.min_l, Z.sub_diag by lia. change ((0 + 511) / 512) with 0. symmetry. apply (Z.div_unique_pos _ _ _ (size - 1)); lia.
  - rewrite Z.min_r by lia. rewrite <- (Z.div_add_l 1 512) by lia. f_equal. lia.
Qed.

Lemma fsutil_run {A} (f : M fs A) u a s : f (store u) = Ok (a, s) -> on_fs f u = Ok (a, UState s (scratch u) (put_sector u) (get_sector u) (screen u)).
Proof. unfold on_fs. by intros ->. Qed.

Lemma scratch_disk_run u d : scratch u = Some d -> scratch_disk u = Ok (d, u).
Proof. intros H. unfold scratch_disk. mnorm. unfold lift. by rewrite H. Qed.

Lemma scratch_read_run u d sec : scratch u = Some d -> 0 <= put_sector u -> Z.of_nat (length d) <= 2 ^ 28 -> d !! Z.to_nat (put_sector u) = Some sec ->
  scratch_read u = Ok (sec, UState (store u) (scratch u) (put_sector u + 1) (get_sector u) (screen u)).
Proof.
  intros Hd H0 Hn Hs. pose proof (lookup_lt_Some _ _ _ Hs). unfold scratch_read. mstep (scratch_disk_run u d Hd). mnorm.
  rewrite wrapu_id by (unfold is_u; lia). rewrite !(proj2 (Z.ltb_lt _ _)) by lia. unfold put, bind. cbn [rbind ASSERT]. unfold lift. rewrite Hs. done.
Qed.

Lemma scratch_write_run u d b : scratch u = Some d -> 0 <= get_sector u < Z.of_nat (length d) -> Z.of_nat (length d) <= 2 ^ 28 ->
  scratch_write b u = Ok (tt, UState (store u) (Some (<[Z.to_nat (get_sector u) := b]> d)) (put_sector u) (get_sector u + 1) (screen u)).
Proof.
  intros Hd H0 Hn. unfold scratch_write. mstep (scratch_disk_run u d Hd). mnorm.
  rewrite wrapu_id by (unfold is_u; lia). rewrite !(proj2 (Z.ltb_lt _ _)) by lia. by mnorm.
Qed.

Lemma take_splice_pos {A} n (ys xs : list A) : (n + length ys <= length xs)%nat -> take (n + length ys) (splice n ys xs) = take n xs ++ ys.
Proof. intros H. unfold splice. rewrite app_assoc. rewrite take_app_le by (rewrite length_app, length_take; lia). apply take_ge. rewrite length_app, length_take. lia. Qed.

Lemma put_loop_run fuel : forall u f p pos i size d, opened (store u) f p pos i -> deny_write_cnt i = 0 -> size = length_ (data i) - pos ->
  scratch u = Some d -> Forall (fun sec => length sec = 512%nat) d -> 0 <= put_sector u -> put_sector u + sectors size <= Z.of_nat (length d) <= 2 ^ 28 -> size <= 512 * Z.of_nat fuel ->
  exists s', put_loop fuel f size u = Ok (tt, UState s' (scratch u) (put_sector u + sectors size) (get_sector u) (screen u)) /\
    opened s' f p (length_ (data i)) i /\ same_table (store u) s' /\
    (forall j, inode_ok (store u) j -> (0 < size -> sectors_disjoint i j) -> inode_ok s' j /\ contents s' j = contents (store u) j) /\
    contents s' i = take (Z.to_nat pos) (contents (store u) i) ++ slice (512 * Z.to_nat (put_sector u)) (Z.to_nat size) (concat d).
Proof.
  induction fuel as [|fuel IH]; intros u f p pos i size d O Hdeny Hs Hd Hf H0 Hn Hfuel; pose proof O as [O1 O2 O3 O4 O5 O6 O7]; pose proof (length_contents _ _ O5 O4) as Lc; cbn [put_loop].
  all: destruct (Z.ltb_spec 0 size) as [Hp|Hz]; [try lia|].
  1, 3: assert (size = 0) as E0 by lia; rewrite E0 in *; change (sectors 0) with 0; exists (store u); rewrite Z.add_0_r, slice_0, app_nil_r, take_ge by lia;
    split_and!; [by destruct u| |done|by intros j|done]; assert (length_ (data i) = pos) as -> by lia; exact O.
  set (c := chunk_size size). pose proof (chunk_size_min size : c = _) as Ec.
  destruct (sectors_step size Hp) as [Es Hs1]. rewrite <- Ec in Es, Hs1.
  destruct (lookup_lt_is_Some_2 d (Z.to_nat (put_sector u))) as [sec Hsec]; [lia|]. pose proof (proj1 (Forall_lookup _ _) Hf _ _ Hsec) as Lsec. cbn beta in Lsec.
  mstep (scratch_read_run u d sec Hd H0 ltac:(lia) Hsec).
  destruct (opened_write_run (store u) f p pos i sec c O Hdeny) as (s1 & Ew & O' & I1 & Hc & Hk); [lia|lia|].
  set (u1 := UState (store u) (scratch u) (put_sector u + 1) (get_sector u) (screen u)). mstep (fsutil_run _ u1 _ _ Ew). rewrite Z.eqb_refl. cbn [panic_unless]. mnorm.
  set (u2 := UState s1 _ _ _ _).
  destruct (IH u2 f p (pos + c) i (size - c) d O' Hdeny) as (s2 & E & O2' & I2 & Hk2 & Hc2); [lia|done|done|cbn; lia|cbn; lia|lia|].
  cbn [u1 u2 store scratch put_sector get_sector screen] in *. exists s2. split_and!; [|done|unfold same_table in *; intuition congruence| |].
  - rewrite E, Es. do 3 f_equal. lia.
  - intros j Hj Hdis. destruct (Hk j Hj (Hdis Hp)) as [Hj1 E1]. destruct (Hk2 j Hj1 (fun _ => Hdis Hp)) as [Hj2 E2]. split; [done|congruence].
  - rewrite Hc2, Hc. assert (length (take (Z.to_nat c) sec) = Z.to_nat c) as Lt by (rewrite length_take; lia).
    replace (Z.to_nat (pos + c)) with (Z.to_nat pos + length (take (Z.to_nat c) sec))%nat by lia. rewrite take_splice_pos by lia. rewrite <- app_assoc. f_equal.
    pose proof (slice_sector d Hf _ _ 0 (Z.to_nat c) Hsec ltac:(lia)) as Esl. rewrite Nat.add_0_r in Esl. change (slice 0 (Z.to_nat c) sec) with (take (Z.to_nat c) sec) in Esl. rewrite <- Esl.
    replace (Z.to_nat size) with (Z.to_nat c + Z.to_nat (size - c))%nat by lia. rewrite slice_app. f_equal.
    destruct (decide (size - c = 0)) as [->|]; [by rewrite !slice_0|]. f_equal. lia.
Qed.

(** ** Copying from a file *)

Lemma seek_here s f p pos i : opened s f p pos i -> seek_to f p pos s = s.
Proof. intros O. unfold seek_to, set_files. rewrite insert_id by apply O. by destruct s. Qed.
Lemma seek_seek s f p a b : seek_to f p b (seek_to f p a s) = seek_to f p b s.
Proof. unfold seek_to, set_files. cbn. by rewrite insert_insert_eq. Qed.

(** What [fsutil_get] writes for one sector. *)
Lemma sector_of_chunk l j n : (n = Nat.min 512 (length l - 512 * j))%nat ->
  Fat.sector_of l j = (slice (512 * j) n l ++ replicate (512 - n) 0)%list.
Proof.
  intros ->. unfold Fat.sector_of. assert (slice (512 * j) (Nat.min 512 (length l - 512 * j)) l = slice (512 * j) 512 l) as ->.
  { unfold slice. destruct (decide (512 <= length l - 512 * j)%nat); [by rewrite Nat.min_l|]. rewrite !take_ge by (rewrite length_drop; lia). done. }
  do 2 f_equal. unfold slice. rewrite length_take, length_drop. done.
Qed.

Lemma get_loop_run fuel : forall u f p j i size d, opened (store u) f p (length_ (data i) - size) i -> (0 < size -> length_ (data i) - size = 512 * Z.of_nat j) ->
  scratch u = Some d -> 0 <= get_sector u -> get_sector u + sectors size <= Z.of_nat (length d) <= 2 ^ 28 -> size <= 512 * Z.of_nat fuel ->
  exists d', get_loop fuel f size u = Ok (tt, UState (seek_to f p (length_ (data i)) (store u)) (Some d') (put_sector u) (get_sector u + sectors size) (screen u)) /\
    length d' = length d /\
    (forall x, (Z.of_nat x < sectors size) -> d' !! (Z.to_nat (get_sector u) + x)%nat = Some (Fat.sector_of (contents (store u) i) (j + x))) /\
    (forall a, Z.of_nat a < get_sector u \/ get_sector u + sectors size <= Z.of_nat a -> d' !! a = d !! a).
Proof.
  induction fuel as [|fuel IH]; intros u f p j i size d O Hj Hd H0 Hn Hfuel; pose proof O as [O1 O2 O3 O4 O5 O6 O7]; pose proof (length_contents _ _ O5 O4) as Lc; cbn [get_loop].
  all: destruct (Z.ltb_spec 0 size) as [Hp|Hz]; [try lia|].
  1, 3: assert (size = 0) as E0 by lia; rewrite E0 in *; change (sectors 0) with 0; exists d; rewrite Z.sub_0_r in O; rewrite (seek_here _ _ _ _ _ O), Z.add_0_r;
    split_and!; [rewrite <- Hd; by destruct u|done|lia|done].
  set (c := chunk_size size). pose proof (chunk_size_min size : c = _) as Ec. destruct (sectors_step size Hp) as [Es Hs1]. rewrite <- Ec in Es, Hs1. specialize (Hj Hp).
  mstep (scratch_disk_run u d Hd). mnorm. rewrite (proj2 (Z.leb_gt _ _)) by lia. cbn [negb panic_unless]. mnorm.
  mstep (fsutil_run _ u _ _ (opened_read_run (store u) f p _ i c O ltac:(lia))). rewrite length_slice by lia. rewrite Z2Nat.id, Z.eqb_refl by lia. cbn [panic_unless]. mnorm.
  set (s1 := seek_to f p _ (store u)). set (u1 := UState s1 _ _ _ _).
  replace (slice _ (Z.to_nat c) (contents (store u) i) ++ replicate (Z.to_nat (DISK_SECTOR_SIZE - c)) 0)%list with (Fat.sector_of (contents (store u) i) j).
  2: { rewrite (sector_of_chunk _ _ (Z.to_nat c)) by lia. unfold DISK_SECTOR_SIZE. do 2 f_equal; [|lia]. f_equal. lia. }
  mstep (scratch_write_run u1 d (Fat.sector_of (contents (store u) i) j) Hd ltac:(cbn; lia) ltac:(lia)). cbn [u1 store scratch put_sector get_sector screen].
  set (d1 := <[_:=_]> d). set (u2 := UState s1 (Some d1) _ _ _). assert (length d1 = length d) as Ld by apply length_insert.
  destruct (IH u2 f p (S j) i (size - c) d1) as (d' & E & Ld' & D1 & D2); [|lia|done|cbn; lia|cbn; lia|lia|].
  { replace (length_ (data i) - (size - c)) with (length_ (data i) - size + c) by lia. apply (opened_seek _ _ _ (length_ (data i) - size)); [done|lia]. }
  cbn [u2 store scratch put_sector get_sector screen] in *. exists d'. split_and!; [|lia| |].
  - rewrite E, Es. unfold s1. rewrite seek_seek. do 3 f_equal. lia.
  - intros [|x] Hx.
    + rewrite !Nat.add_0_r, D2 by lia. apply list_lookup_insert_eq. lia.
    + specialize (D1 x ltac:(lia)). replace (Z.to_nat (get_sector u) + S x)%nat with (Z.to_nat (get_sector u + 1) + x)%nat by lia. rewrite D1. f_equal. f_equal. lia.
  - intros a Ha. rewrite D2 by lia. apply list_lookup_insert_ne. lia.
Qed.

(** ** Closing *)

(** Closing a file that was opened by name, after reading or writing. *)
Lemma file_close_run s s1 sec dd f p i pos : itable s -> itable s1 -> one_more s sec dd p i -> opened s1 f p pos i -> inodes s1 = <[p := i]> (inodes s) ->
  exists s2, file_close f s1 = Ok (tt, s2) /\ itable s2 /\ inodes s2 = inodes s /\ disk s2 = disk s1 /\ allocs s2 = [] /\ free_map s2 = free_map s1 /\ files s2 = delete f (files s1).
Proof.
  intros T T1 Hm O Ei. pose proof O as [O1 O2 O3 O4 O5 O6 O7]. unfold file_close. rewrite (proj2 (Z.eqb_neq f NULL) O1).
  assert (file_allow_write f s1 = Ok (tt, s1)) as Eal by (unfold file_allow_write; rewrite (proj2 (Z.eqb_neq f NULL) O1); cbn [negb]; mnorm; by mstep (get_file_run _ _ _ _ _ O)). mstep Eal.
  mstep (get_file_run _ _ _ _ _ O). cbn [f_inode].
  destruct (close_one_more s s1 sec dd p i T T1 Hm O3) as (s2 & E & T2 & E1 & E2 & (F1 & F2 & F3 & F4) & E3 & E4 & E5). mstep E. eexists. split; [reflexivity|].
  split_and!; try done; [by apply (itable_grow s2)| |cbn; congruence|cbn; congruence].
  apply map_eq. intros q. cbn. destruct (decide (q = p)) as [->|Hq]; [done|]. by rewrite E5, Ei, lookup_insert_ne by done.
Qed.

(** ** Properties *)

(** What a sector denotes and the directory, when their bytes are kept. *)
Lemma denotes_rest s s' sec dd : denotes s sec dd -> inodes s' = inodes s -> disk_ok s -> disk_ok s' -> disk_size s' = disk_size s -> 0 <= sec < disk_size s ->
  contents s' (region sec 512) = contents s (region sec 512) -> denotes s' sec dd.
Proof.
  intros [Dn1 Dn2] Ei Hd Hd' Es Hs Hr. split; rewrite Ei; [done|]. intros Hno. destruct (Dn2 Hno) as (raw & Hraw & Hdec). exists raw. split; [|done].
  rewrite (sector_region s) in Hraw by done. rewrite (sector_region s') by (rewrite ?Es; done). by rewrite Hr.
Qed.
Lemma root_dir_kept s s' rd cnt M : root_dir s rd cnt M -> inodes s' = inodes s -> disk_ok s -> disk_ok s' -> disk_size s' = disk_size s ->
  contents s' (Inode ROOT_DIR_SECTOR 1 false 0 rd) = contents s (Inode ROOT_DIR_SECTOR 1 false 0 rd) ->
  contents s' (region ROOT_DIR_SECTOR 512) = contents s (region ROOT_DIR_SECTOR 512) -> root_dir s' rd cnt M.
Proof.
  intros [D1 D2 D3 D4 D5] Ei Hd Hd' Es Hc Hr. split; [|by apply (inode_ok_size s)|done|by rewrite Hc|by rewrite Es].
  apply (denotes_rest s); try done.
Qed.

(** [fsutil_put] after its header has been read. *)
Section put.
Context (junk n : list Z) (s : fs) (rd : inode_disk) (cnt : nat) (M : gmap (list Z) Z) (fi : inode) (size : Z).
Hypothesis R : fs_ready s rd cnt M fi.
Hypothesis Hj : length junk = 20%nat.
Hypothesis Hn : is_name n.
Hypothesis Hv : valid_name n = true.
Hypothesis HM : M !! n = None.
Hypothesis Hfree : exists k, (k < cnt)%nat /\ in_use (entry_at (contents s (Inode ROOT_DIR_SECTOR 1 false 0 rd)) k) = false.
Hypothesis Hsize : 0 <= size < 2 ^ 31 - 1024.
Hypothesis Hrun : exists k, 0 <= k /\ k + ((size + 511) / 512 + 1) <= bit_cnt (free_map s) /\ run_of (free_map s) k ((size + 511) / 512 + 1) false.

(** A file [n] of [size] bytes [l], and what has not changed. *)
Record stored_file (l : list Z) (sec st : Z) (s' : fs) : Prop := {
  sf_table : table_ready s';
  sf_root : root_dir s' rd cnt (<[n := sec]> M);
  sf_denotes : denotes s' sec (InodeDisk st size INODE_MAGIC);
  sf_sector : 0 <= sec < disk_size s' /\ sec <> ROOT_DIR_SECTOR;
  sf_ok : inode_ok s' (region st size);
  sf_contents : contents s' (region st size) = l;
  sf_inodes : inodes s' = inodes s;
  sf_rest j : inode_ok s j -> 0 < length_ (data j) -> marked (free_map s) j -> sectors_disjoint fi j -> sectors_disjoint (Inode ROOT_DIR_SECTOR 1 false 0 rd) j ->
    contents s' j = contents s j
}.

Lemma put_file_run u d : store u = s -> scratch u = Some d -> Forall (fun sec => length sec = 512%nat) d -> 0 <= put_sector u ->
  put_sector u + sectors size <= Z.of_nat (length d) <= 2 ^ 28 ->
  exists sec st s', (ok ← on_fs (filesys_create junk n size); panic_unless ok;; dst ← on_fs (filesys_open junk n); panic_unless (negb (dst =? NULL));;
      put_loop (rounds size) dst size;; on_fs (file_close dst)) u =
        Ok (tt, UState s' (scratch u) (put_sector u + sectors size) (get_sector u) (screen u)) /\
    stored_file (slice (512 * Z.to_nat (put_sector u)) (Z.to_nat size) (concat d)) sec st s'.
Proof using All.
  intros Hu Hd Hf H0 Hlen.
  destruct (filesys_create_run junk s rd cnt M fi n size R Hj Hn Hv HM Hfree Hsize Hrun) as (sec & st & s1 & E1 & R1 & NF & Ei1 & _ & Z1).
  destruct (new_file_denoted s s1 rd cnt M fi _ size sec st R NF Ei1 Hsize) as (HD & Hne & Hnone). pose proof NF as [[N1 N1'] N2 N3 N4 N6 N6' N7 N8 N9 N10 N11].
  pose proof (fr_cnt _ _ _ _ _ R1) as Hc1. pose proof (sectors_pos size ltac:(lia)) as Hm. pose proof (fr_table _ _ _ _ _ R1) as TR1. pose proof (fr_root _ _ _ _ _ R1) as D1.
  assert (inode_ok s1 (region st size)) as Hreg by (apply region_ok; lia).
  rewrite <- Hu in E1. mstep (fsutil_run _ u _ _ E1). cbn [panic_unless]. mnorm. set (u1 := UState s1 _ _ _ _).
  destruct (open_named junk s1 rd cnt _ n sec (InodeDisk st size INODE_MAGIC) TR1 D1 Hj (lookup_insert_eq _ _ _)) as (f & p & i & s2 & E2 & [O Hmore Ei2 T2 Ed2 Em2]); [lia|done|done|done|].
  mstep (fsutil_run _ u1 _ _ E2). rewrite (proj2 (Z.eqb_neq f NULL) (op_null _ _ _ _ _ O)). cbn [negb panic_unless]. mnorm.
  destruct (one_more_facts _ _ _ _ _ (tr_table _ TR1) Hmore) as (Es & Edd & _).
  assert (i = Inode sec 1 false 0 (InodeDisk st size INODE_MAGIC)) as Ei. { unfold one_more in Hmore. destruct (inodes s1 !! p) as [j|] eqn:Ej; [|done]. rewrite Ei1 in Ej. exfalso. by apply (Hnone p j Ej), Hmore. }
  set (u2 := UState s2 _ _ _ _).
  destruct (put_loop_run (rounds size) u2 f p 0 i size d) as (s3 & E3 & O3 & (I3 & P3 & X3 & Z3) & K3 & C3); try done; [by rewrite Ei|rewrite Edd; cbn; lia| |].
  { unfold rounds, DISK_SECTOR_SIZE. pose proof (Z.div_mod size 512 ltac:(lia)). pose proof (Z.mod_pos_bound size 512 ltac:(lia)). pose proof (Z.div_pos size 512 ltac:(lia) ltac:(lia)). lia. }
  mstep E3. cbn [u2 u1 store scratch put_sector get_sector screen] in *.
  destruct (file_close_run s1 s3 sec (InodeDisk st size INODE_MAGIC) f p i (length_ (data i))) as (s4 & E4 & T4 & Ei4 & Ed4 & Ea4 & _); [apply TR1|by apply (itable_grow s2); try done; lia|done|done|congruence|].
  exists sec, st, s4. set (u3 := UState s3 _ _ _ _). rewrite (fsutil_run _ u3 _ _ E4). split; [done|].
  assert (disk_ok s4) as Hd4 by (pose proof (op_disk _ _ _ _ _ O3); unfold disk_ok in *; by rewrite Ed4).
  assert (disk_size s4 = disk_size s1) as Z4 by (unfold disk_size in *; rewrite Ed4, Z3; by rewrite Ed2).
  assert (forall j, contents s4 j = contents s3 j) as C4 by (intros; unfold contents, flat; by rewrite Ed4).
  assert (forall j, contents s2 j = contents s1 j) as C2 by (intros; unfold contents, flat; by rewrite Ed2).
  assert (forall used j, inode_ok s1 j -> 0 < length_ (data j) -> (forall k, in_range (start (data j)) ((length_ (data j) + 511) / 512) k = true -> used k = true) ->
    (forall k, st <= k < st + (size + 511) / 512 -> used k = false) -> contents s4 j = contents s1 j) as K.
  { intros used j Hjo Hl Hu1 Hu2. rewrite C4, <- C2. apply K3; [by apply (inode_ok_size s1); [unfold disk_size; rewrite Ed2|]|]. intros Hp.
    pose proof (disjoint_bits used j st size Hu1 Hl Hp Hu2) as H. unfold sectors_disjoint in *. by rewrite Edd. }
  assert (inode_ok s1 (region ROOT_DIR_SECTOR 512)) as Hror by (apply region_ok; [lia|done|change ((512 + 511) / 512) with 1; pose proof (rd_size _ _ _ _ D1); unfold ROOT_DIR_SECTOR in *; lia]).
  assert (inode_ok s1 (region sec 512)) as Hrsec by (apply region_ok; [lia|lia|change ((512 + 511) / 512) with 1; lia]).
  pose proof (fr_root_marked _ _ _ _ _ R) as [Hmr Hbr].
  assert (0 < length_ rd) as Hlr by (pose proof (rd_length _ _ _ _ D1) as ->; destruct Hfree as (k & ? & _); lia).
  split; try done.
  - split; [done|done|by rewrite Ei4; apply TR1|done].
  - apply (root_dir_kept s1); try done; [apply TR1| |]; apply (K (bit (free_map s))); try done; [apply D1|].
    intros k Hk. unfold in_range in Hk. cbn in Hk. change ((512 + 511) / 512) with 1 in Hk. by replace k with ROOT_DIR_SECTOR by lia.
  - apply (denotes_rest s1); try done; [apply TR1|lia|]. apply (K (fun k => k =? sec)); try done; [|intros k Hk; by apply Z.eqb_neq, N6'].
    intros k Hk. unfold in_range in Hk. cbn in Hk. change ((512 + 511) / 512) with 1 in Hk. apply Z.eqb_eq. lia.
  - split; [lia|done].
  - by apply (inode_ok_size s1).
  - rewrite C4. transitivity (contents s3 i); [unfold contents, disk_pos; by rewrite Edd|by rewrite C3].
  - congruence.
  - intros j Hjo Hl Hmk Hfj Hrj. rewrite (K (bit (free_map s))); try done; [by apply N10|]. apply (inode_ok_size s); [|done].
    done.
Qed.
End put.

Definition putting (n : list Z) : output := Text (chars "Putting '" ++ n ++ chars "' into the file system..." ++ [10]).
Definition getting (n : list Z) : output := Text (chars "Getting '" ++ n ++ chars "' from the file system..." ++ [10]).

Lemma rounds_enough size : 0 <= size -> size <= 512 * Z.of_nat (rounds size).
Proof.
  intros H. unfold rounds, DISK_SECTOR_SIZE. pose proof (Z.div_mod size 512 ltac:(lia)). pose proof (Z.mod_pos_bound size 512 ltac:(lia)). pose proof (Z.div_pos size 512 ltac:(lia) ltac:(lia)). lia.
Qed.

(** [fsutil_get] writes the header and the file. *)
Lemma fsutil_get_run junk n u d rd cnt M sec dd : table_ready (store u) -> root_dir (store u) rd cnt M -> length junk = 20%nat ->
  M !! n = Some sec -> 0 <= sec < disk_size (store u) -> sec <> ROOT_DIR_SECTOR -> denotes (store u) sec dd -> inode_ok (store u) (region (start dd) (length_ dd)) ->
  scratch u = Some d -> 0 <= get_sector u -> get_sector u + (1 + sectors (length_ dd)) <= Z.of_nat (length d) <= 2 ^ 28 ->
  exists d' s', fsutil_get junk n u = Ok (tt, UState s' (Some d') (put_sector u) (get_sector u + (1 + sectors (length_ dd))) (screen u ++ [getting n])) /\
    itable s' /\ inodes s' = inodes (store u) /\ disk s' = disk (store u) /\ length d' = length d /\
    d' !! Z.to_nat (get_sector u) = Some (get_header (length_ dd)) /\
    (forall x, Z.of_nat x < sectors (length_ dd) -> d' !! (Z.to_nat (get_sector u) + 1 + x)%nat = Some (Fat.sector_of (contents (store u) (region (start dd) (length_ dd))) x)) /\
    (forall a, Z.of_nat a < get_sector u \/ get_sector u + (1 + sectors (length_ dd)) <= Z.of_nat a -> d' !! a = d !! a).
Proof.
  intros TR D Hj Hn Hs Hne HD Hreg Hd H0 Hlen. unfold fsutil_get, say. mnorm. set (u0 := UState (store u) _ _ _ _).
  mstep (fsutil_run _ u0 _ _ (alloc_ready (store u) (tr_allocs _ TR))). cbn [panic_unless]. mnorm. set (u0' := UState (store u) _ _ _ _).
  destruct (open_named junk (store u) rd cnt M n sec dd TR D Hj Hn Hs Hne HD Hreg) as (f & p & i & s1 & E1 & [O Hmore Ei1 T1 Ed1 Em1]).
  mstep (fsutil_run _ u0' _ _ E1). rewrite (proj2 (Z.eqb_neq f NULL) (op_null _ _ _ _ _ O)). cbn [negb panic_unless]. mnorm. set (u1 := UState s1 _ _ _ _).
  destruct (one_more_facts _ _ _ _ _ (tr_table _ TR) Hmore) as (_ & Edd & _). pose proof (io_len _ _ Hreg) as Hl. cbn [length_ data region] in Hl.
  assert (file_length f s1 = Ok (length_ dd, s1)) as Efl.
  { unfold file_length. rewrite (proj2 (Z.eqb_neq f NULL) (op_null _ _ _ _ _ O)). cbn [negb]. mnorm. mstep (get_file_run _ _ _ _ _ O). unfold inode_length. mstep (get_inode_run s1 p i (op_inode _ _ _ _ _ O)). by rewrite Edd. }
  mstep (fsutil_run _ u1 _ _ Efl). set (u2 := UState s1 _ _ _ _). mstep (scratch_disk_run u2 d Hd).
  assert (0 <= sectors (length_ dd)) as Hsp by (unfold sectors; apply Z.div_pos; lia).
  mstep (scratch_write_run u2 d (get_header (length_ dd)) Hd ltac:(cbn; lia) ltac:(lia)). cbn [u2 u1 u0' u0 store scratch put_sector get_sector screen].
  set (d1 := <[_:=_]> d). assert (length d1 = length d) as Ld by apply length_insert. set (u3 := UState s1 (Some d1) _ _ _).
  destruct (get_loop_run (rounds (length_ dd)) u3 f p 0 i (length_ dd) d1) as (d2 & E2 & Ld2 & W1 & W2); [cbn; rewrite Edd, Z.sub_diag; exact O|intros _; rewrite Edd; lia|done|cbn; lia|cbn; lia|apply rounds_enough; lia|].
  mstep E2. cbn [u3 store scratch put_sector get_sector screen] in *.
  assert (opened (seek_to f p (length_ (data i)) s1) f p (length_ (data i)) i) as O2 by (apply (opened_seek _ _ _ 0); [done|rewrite Edd; lia]).
  destruct (file_close_run (store u) (seek_to f p (length_ (data i)) s1) sec dd f p i _ (tr_table _ TR) ltac:(by apply (itable_grow s1)) Hmore O2 Ei1) as (s3 & E3 & T3 & Ei3 & Ed3 & _).
  exists d2, s3. set (u4 := UState _ _ _ _ _). rewrite (fsutil_run _ u4 _ _ E3). split; [cbn [u4 store scratch put_sector get_sector screen]; do 3 f_equal; lia|].
  split_and!; [done|done|by rewrite Ed3|congruence| | |].
  - rewrite W2 by lia. apply list_lookup_insert_eq. lia.
  - intros x Hx. specialize (W1 x Hx). replace (Z.to_nat (get_sector u + 1) + x)%nat with (Z.to_nat (get_sector u) + 1 + x)%nat in W1 by lia. rewrite W1. do 2 f_equal.
    unfold contents, disk_pos, flat. by rewrite Edd, Ed1.
  - intros a Ha. rewrite W2 by lia. apply list_lookup_insert_ne. lia.
Qed.

(** C17: Copying files between the scratch disk and the file system.  When the
    sector of the scratch disk that [fsutil_put] is at holds the mark and a size,
    the bytes that follow are on the disk, and the file system has the room,
    [fsutil_put] creates the file with exactly these bytes under the name; no
    other file changes and nothing stays open.  [fsutil_get] of this name then
    writes, from the sector that it is at, a header with the same size and the
    same bytes, the last sector padded with zeros, and changes nothing else.
    Both leave their counter behind the last sector that they used. *)
Theorem fsutil_put_get_roundtrip junk u rd cnt M fi n d h size :
  fs_ready (store u) rd cnt M fi -> length junk = 20%nat -> is_name n -> valid_name n = true -> M !! n = None ->
  (exists k, (k < cnt)%nat /\ in_use (entry_at (contents (store u) (Inode ROOT_DIR_SECTOR 1 false 0 rd)) k) = false) ->
  (exists k, 0 <= k /\ k + ((size + 511) / 512 + 1) <= bit_cnt (free_map (store u)) /\ run_of (free_map (store u)) k ((size + 511) / 512 + 1) false) ->
  scratch u = Some d -> Forall (fun sec => length sec = 512%nat) d -> Z.of_nat (length d) <= 2 ^ 28 ->
  d !! Z.to_nat (put_sector u) = Some h -> take 4 h = PUT -> s32 (bytes_word (slice 4 4 h)) = size -> 0 <= size < 2 ^ 31 - 1024 ->
  0 <= put_sector u -> put_sector u + (1 + sectors size) <= Z.of_nat (length d) -> 0 <= get_sector u -> get_sector u + (1 + sectors size) <= Z.of_nat (length d) ->
  let l := slice (512 * Z.to_nat (put_sector u + 1)) (Z.to_nat size) (concat d) in
  exists sec st u1 u2 d2, fsutil_put junk n u = Ok (tt, u1) /\ fsutil_get junk n u1 = Ok (tt, u2) /\
    stored_file n (store u) rd cnt M fi size l sec st (store u1) /\ scratch u1 = Some d /\ put_sector u1 = put_sector u + (1 + sectors size) /\
    disk (store u2) = disk (store u1) /\ inodes (store u2) = inodes (store u) /\ scratch u2 = Some d2 /\ get_sector u2 = get_sector u + (1 + sectors size) /\
    length d2 = length d /\ d2 !! Z.to_nat (get_sector u) = Some (get_header size) /\
    (forall x, Z.of_nat x < sectors size -> d2 !! (Z.to_nat (get_sector u) + 1 + x)%nat = Some (Fat.sector_of l x)) /\
    (forall a, Z.of_nat a < get_sector u \/ get_sector u + (1 + sectors size) <= Z.of_nat a -> d2 !! a = d !! a).
Proof.
  intros R Hj Hn Hv HM Hfree Hrun Hd Hf Hmax Hh Hput Hsz Hsize P0 P1 G0 G1 l. pose proof (fr_table _ _ _ _ _ R) as TR.
  assert (exists sec st s1, fsutil_put junk n u = Ok (tt, UState s1 (scratch u) (put_sector u + 1 + sectors size) (get_sector u) (screen u ++ [putting n])) /\ stored_file n (store u) rd cnt M fi size l sec st s1) as (sec & st & s1 & E1 & SF).
  { unfold fsutil_put, say. mnorm. set (u0 := UState (store u) _ _ _ _).
    mstep (fsutil_run _ u0 _ _ (alloc_ready (store u) (tr_allocs _ TR))). cbn [panic_unless]. mnorm. set (u1 := UState (store u) _ _ _ _).
    mstep (scratch_disk_run u1 d Hd). mstep (scratch_read_run u1 d h Hd P0 Hmax Hh). rewrite bool_decide_eq_true_2 by done. cbn [panic_unless]. mnorm. rewrite Hsz.
    rewrite (proj2 (Z.ltb_ge size 0)) by lia. cbn [negb panic_unless]. mnorm. set (u2 := UState (store u1) _ _ _ _).
    destruct (put_file_run junk n (store u) rd cnt M fi size R Hj Hn Hv HM Hfree Hsize Hrun u2 d eq_refl Hd Hf) as (sec & st & s1 & E & SF); [cbn; lia|cbn; lia|]. exists sec, st, s1. split; [exact E|exact SF]. }
  pose proof SF as [S1 S2 S3 [S4 S4'] S5 S6 S7 S8]. set (u1 := UState s1 _ _ _ _) in E1.
  destruct (fsutil_get_run junk n u1 d rd cnt _ sec (InodeDisk st size INODE_MAGIC) S1 S2 Hj (lookup_insert_eq _ _ _) S4 S4' S3 S5 Hd) as (d2 & s2 & E2 & T2 & I2 & D2 & L2 & W1 & W2 & W3); [done|cbn; lia|].
  cbn [u1 store scratch put_sector get_sector screen start length_] in *. rewrite S6 in W2. exists sec, st, u1, (UState s2 (Some d2) (put_sector u + 1 + sectors size) (get_sector u + (1 + sectors size)) ((screen u ++ [putting n]) ++ [getting n])), d2.
  split_and!; try done; cbn [u1 store put_sector]; [lia|congruence].
Qed.

(** A scratch disk of three sectors with a file of 600 bytes. *)
Definition demo_scratch : list (list Z) := [PUT ++ word_bytes 4 600 ++ replicate 504 0; replicate 512 7; replicate 512 8].
Definition demo_ustate : ustate := UState demo_empty_fs (Some demo_scratch) 0 0 [].

Lemma fsutil_put_get_roundtrip_witness : exists u1 u2 d2, fsutil_put (replicate 20 7) [97] demo_ustate = Ok (tt, u1) /\ fsutil_get (replicate 20 7) [97] u1 = Ok (tt, u2) /\
  scratch u2 = Some d2 /\ d2 !! 0%nat = Some (get_header 600) /\ d2 !! 2%nat = Some (Fat.sector_of (replicate 512 7 ++ replicate 88 8) 1).
Proof.
  destruct (fsutil_put_get_roundtrip (replicate 20 7) demo_ustate demo_root 2 ∅ demo_map [97] demo_scratch (PUT ++ word_bytes 4 600 ++ replicate 504 0) 600 demo_empty_ready)
    as (sec & st & u1 & u2 & d2 & E1 & E2 & _ & _ & _ & _ & _ & Hd & _ & _ & H1 & H2 & _);
    [reflexivity|repeat constructor; lia|reflexivity|reflexivity|exists 0%nat; split; [lia|vm_compute; reflexivity]| |reflexivity|repeat (apply Forall_cons; split; [vm_compute; reflexivity|]); by apply Forall_nil|
     vm_compute; discriminate|reflexivity|reflexivity|vm_compute; reflexivity|lia|cbn; lia|vm_compute; discriminate|cbn; lia|vm_compute; discriminate|].
  - exists 4. split; [lia|]. split; [vm_compute; discriminate|]. intros k Hk. apply (demo_range _ 4 3 k); [|lia|vm_compute; reflexivity]. unfold in_range. change ((600 + 511) / 512 + 1) with 3 in Hk. lia.
  - exists u1, u2, d2. split; [exact E1|]. split; [exact E2|]. split; [exact Hd|]. split; [exact H1|]. exact (H2 1%nat eq_refl).
Defined.
