(* ===== verification/Process.v ===== *)
(** * User programs (userprog/process.c, the build without VM; userprog/tss.c)

    Loading an ELF executable into the address space of the current thread,
    activating and destroying that address space.  The state joins the
    processor with its page tables and memory (Mmu), the file system (FreeMap,
    Directory) and the console; a file is read into the pages that the user
    pool of the page allocator gives out. *)

From Stdlib Require Import String.
From S2P Require Import Prelude Bitmap CString Console Palloc Mmu Inode FreeMap Directory.

(** ** State *)

(** [struct intr_frame], as far as [process_exec] and [load] set it. *)
Record intr_frame := Frame { f_ds : Z; f_es : Z; f_ss : Z; f_cs : Z; f_eflags : Z; f_rip : Z; f_rsp : Z }.

(** [self] is the address of the current thread and [pml4] its page map; [rsp0]
    is the stack pointer in the task state segment, [None] while [tss] is null. *)
Record proc := Proc { hw : cpu; fsys : fs; con : console; self : Z; pml4 : Z; rsp0 : option Z }.

Definition set_pml4 (p : Z) : M proc unit := modify (fun s => Proc (hw s) (fsys s) (con s) (self s) p (rsp0 s)).
Definition on_hw {A} (f : M cpu A) : M proc A := fun s =>
  let! (a, c) := f (hw s) in Ok (a, Proc c (fsys s) (con s) (self s) (pml4 s) (rsp0 s)).
Definition on_fs {A} (f : M fs A) : M proc A := fun s =>
  let! (a, x) := f (fsys s) in Ok (a, Proc (hw s) x (con s) (self s) (pml4 s) (rsp0 s)).
Definition on_user {A} (f : M pstate A) : M proc A := on_hw (on_pal f).

(** [printf]: a string argument lies in one page, a format has less than 64
    characters. *)
Definition print (format : string) (args : list Z) : M proc unit := fun s =>
  let c := hw s in let p := pal c in
  let! (_, (m, (o, _))) := printf 4096 64 (Stdio.chars format ++ [10; 0]) args (ram p, (con s, tt)) in
  Ok (tt, Proc (Cpu (PState (kernel_pool p) (user_pool p) m) (base_pml4 c) (cr3 c) (tlb c)) (fsys s) o (self s) (pml4 s) (rsp0 s)).

(** Storing bytes one after the other, as the copies out of a sector do. *)
Fixpoint store_bytes (a : Z) (bs : list Z) : M mem unit :=
  match bs with [] => ret tt | b :: bs => store a b;; store_bytes (a + 1) bs end.
(** [file_read (file, buffer, size)] into memory. *)
Definition file_read_into (f buffer size : Z) : M proc Z :=
  bs ← on_fs (file_read f size);
  on_user (on_ram (store_bytes buffer bs));; ret (Z.of_nat (length bs)).

(** The string at [a], read to its terminator. *)
Fixpoint string_at (fuel : nat) (a : Z) : M mem (list Z) :=
  match fuel with
  | O => out_of_fuel
  | S fuel => b ← load a; if b =? 0 then ret [] else l ← string_at fuel (a + 1); ret (b :: l)
  end.

(** ** ELF *)

Definition PT_NULL : Z := 0.
Definition PT_LOAD : Z := 1.
Definition PT_DYNAMIC : Z := 2.
Definition PT_INTERP : Z := 3.
Definition PT_NOTE : Z := 4.
Definition PT_SHLIB : Z := 5.
Definition PT_PHDR : Z := 6.
Definition PT_STACK : Z := 0x6474e551.
Definition PF_W : Z := 2.
Definition EI_NIDENT : nat := 16.

Record ELF64_hdr := ELF {
  e_ident : list Z; e_type : Z; e_machine : Z; e_version : Z; e_entry : Z; e_phoff : Z; e_shoff : Z; e_flags : Z;
  e_ehsize : Z; e_phentsize : Z; e_phnum : Z; e_shentsize : Z; e_shnum : Z; e_shstrndx : Z }.
Record ELF64_PHDR := Phdr {
  p_type : Z; p_flags : Z; p_offset : Z; p_vaddr : Z; p_paddr : Z; p_filesz : Z; p_memsz : Z; p_align : Z }.
Definition sizeof_ELF : Z := 64.
Definition sizeof_Phdr : Z := 56.

(** The structures as the bytes of the file lay them out. *)
Definition field (ofs len : nat) (bs : list Z) : Z := bytes_word (slice ofs len bs).
Definition decode_ELF (bs : list Z) : ELF64_hdr :=
  ELF (slice 0 EI_NIDENT bs) (field 16 2 bs) (field 18 2 bs) (field 20 4 bs) (field 24 8 bs) (field 32 8 bs) (field 40 8 bs)
    (field 48 4 bs) (field 52 2 bs) (field 54 2 bs) (field 56 2 bs) (field 58 2 bs) (field 60 2 bs) (field 62 2 bs).
Definition decode_Phdr (bs : list Z) : ELF64_PHDR :=
  Phdr (field 0 4 bs) (field 4 4 bs) (field 8 8 bs) (field 16 8 bs) (field 24 8 bs) (field 32 8 bs) (field 40 8 bs) (field 48 8 bs).

(** The condition on the executable header, after it has been read. *)
Definition good_header (e : ELF64_hdr) : bool :=
  bool_decide (take 7 (e_ident e) = [127; 69; 76; 70; 2; 1; 1]) && (e_type e =? 2) && (e_machine e =? 0x3E) && (e_version e =? 1) &&
  (e_phentsize e =? sizeof_Phdr) && (e_phnum e <=? 1024).

(** ** Segments *)

(** [flen] is [file_length (file)], converted to [uint64_t]. *)
Definition validate_segment (p : ELF64_PHDR) (flen : Z) : bool :=
  if negb (Z.land (p_offset p) PGMASK =? Z.land (p_vaddr p) PGMASK) then false
  else if u64 flen <? p_offset p then false
  else if p_memsz p <? p_filesz p then false
  else if p_memsz p =? 0 then false
  else if negb (is_user_vaddr (p_vaddr p)) then false
  else if negb (is_user_vaddr (u64 (p_vaddr p + p_memsz p))) then false
  else if u64 (p_vaddr p + p_memsz p) <? p_vaddr p then false
  else if p_vaddr p <? PGSIZE then false
  else true.

Definition install_page (upage kpage : Z) (writable : bool) : M proc bool :=
  t ← get;
  old ← on_hw (pml4_get_page (pml4 t) upage);
  if old =? NULL then on_hw (pml4_set_page (pml4 t) upage kpage writable) else ret false.

(** One round of the loop of [load_segment]: a page with [n] bytes of the file
    and zeros behind them. *)
Definition load_page (f upage page_read_bytes : Z) (writable : bool) : M proc bool :=
  let page_zero_bytes := PGSIZE - page_read_bytes in
  kpage ← on_user (palloc_get_page PAL_USER);
  if kpage =? NULL then ret false
  else
    n ← file_read_into f kpage page_read_bytes;
    if negb (n =? page_read_bytes) then on_user (palloc_free_page kpage);; ret false
    else
      on_user (on_ram (memset (u64 (kpage + page_read_bytes)) 0 page_zero_bytes));;
      ok ← install_page upage kpage writable;
      if negb ok then
        print "fail" [];; on_user (palloc_free_page kpage);; ret false
      else ret true.

(** The loop. *)
Fixpoint load_pages (fuel : nat) (f upage read_bytes zero_bytes : Z) (writable : bool) : M proc bool :=
  if (0 <? read_bytes) || (0 <? zero_bytes) then
    match fuel with
    | O => out_of_fuel
    | S fuel =>
        let page_read_bytes := if read_bytes <? PGSIZE then read_bytes else PGSIZE in
        let page_zero_bytes := PGSIZE - page_read_bytes in
        ok ← load_page f upage page_read_bytes writable;
        if negb ok then ret false
        else load_pages fuel f (u64 (upage + PGSIZE)) (u32 (read_bytes - page_read_bytes)) (u32 (zero_bytes - page_zero_bytes)) writable
    end
  else ret true.

Definition load_segment (f ofs upage read_bytes zero_bytes : Z) (writable : bool) : M proc bool :=
  ASSERT (u32 (read_bytes + zero_bytes) mod PGSIZE =? 0);;
  ASSERT (pg_ofs upage =? 0);;
  ASSERT (Z.rem ofs PGSIZE =? 0);;
  on_fs (file_seek f ofs);;
  load_pages (Z.to_nat ((read_bytes + zero_bytes) / PGSIZE)) f upage read_bytes zero_bytes writable.

Definition USER_STACK : Z := 0x47480000.

Definition setup_stack (i : intr_frame) : M proc (bool * intr_frame) :=
  kpage ← on_user (palloc_get_page (Z.lor PAL_USER PAL_ZERO));
  if negb (kpage =? NULL) then
    success ← install_page (USER_STACK - PGSIZE) kpage true;
    if success : bool then ret (true, Frame (f_ds i) (f_es i) (f_ss i) (f_cs i) (f_eflags i) (f_rip i) USER_STACK)
    else on_user (palloc_free_page kpage);; ret (false, i)
  else ret (false, i).

(** [read_bytes] and [zero_bytes], which are stored in 32 bits. *)
Definition segment_read_bytes (p : ELF64_PHDR) : Z :=
  let page_offset := Z.land (p_vaddr p) PGMASK in
  if 0 <? p_filesz p then u32 (u64 (page_offset + p_filesz p)) else 0.
Definition segment_zero_bytes (p : ELF64_PHDR) : Z :=
  let page_offset := Z.land (p_vaddr p) PGMASK in
  if 0 <? p_filesz p then u32 (u64 (ROUND_UP (u64 (page_offset + p_memsz p)) PGSIZE - segment_read_bytes p))
  else u32 (ROUND_UP (u64 (page_offset + p_memsz p)) PGSIZE).

(** The case [PT_LOAD] of [load]. *)
Definition load_phdr (f : Z) (p : ELF64_PHDR) : M proc bool :=
  flen ← on_fs (file_length f);
  if validate_segment p flen then
    let writable := negb (Z.land (p_flags p) PF_W =? 0) in
    let file_page := pg_round_down (p_offset p) in
    let mem_page := pg_round_down (p_vaddr p) in
    load_segment f (s32 file_page) mem_page (segment_read_bytes p) (segment_zero_bytes p) writable
  else ret false.

(** The loop over the program headers: [n] headers are left. *)
Fixpoint load_phdrs (n : nat) (f file_ofs : Z) : M proc bool :=
  match n with
  | O => ret true
  | S n =>
      flen ← on_fs (file_length f);
      if (file_ofs <? 0) || (flen <? file_ofs) then ret false
      else
        on_fs (file_seek f file_ofs);;
        bs ← on_fs (file_read f sizeof_Phdr);
        if negb (Z.of_nat (length bs) =? sizeof_Phdr) then ret false
        else
          let phdr := decode_Phdr bs in
          let t := p_type phdr in
          ok ← (if (t =? PT_DYNAMIC) || (t =? PT_INTERP) || (t =? PT_SHLIB) then ret false
                else if t =? PT_LOAD then load_phdr f phdr
                else ret true);
          if ok : bool then load_phdrs n f (s32 (file_ofs + sizeof_Phdr)) else ret false
  end.

(** ** Address spaces *)

(** [tss_update]. *)
Definition tss_update (next : Z) : M proc unit :=
  s ← get; ASSERT (bool_decide (is_Some (rsp0 s)));;
  put (Proc (hw s) (fsys s) (con s) (self s) (pml4 s) (Some (u64 (next + PGSIZE)))).

(** [process_activate], for the current thread. *)
Definition process_activate : M proc unit := s ← get; on_hw (pml4_activate (pml4 s));; tss_update (self s).

Definition process_cleanup : M proc unit :=
  s ← get;
  let p := pml4 s in
  if negb (p =? NULL) then
    set_pml4 NULL;; on_hw (pml4_activate NULL);; on_hw (pml4_destroy p)
  else ret tt.
Definition process_exit : M proc unit := process_cleanup.

(** ** Executing a file *)

Section exec.
(** The contents of an uninitialised directory entry on the stack, which
    looking up a name starts with. *)
Variable junk : list Z.

(** [load] from the header to the label [done]: whether it was successful, and
    the frame. *)
Definition load_file (file_name f : Z) (i : intr_frame) : M proc (bool * intr_frame) :=
  bs ← on_fs (file_read f sizeof_ELF);
  let ehdr := decode_ELF bs in
  if negb ((Z.of_nat (length bs) =? sizeof_ELF) && good_header ehdr) then
    print "load: %s: error loading executable" [file_name];; ret (false, i)
  else
    ok ← load_phdrs (Z.to_nat (e_phnum ehdr)) f (s32 (e_phoff ehdr));
    if negb ok then ret (false, i)
    else
      r ← setup_stack i;
      let (ok, i) := r : bool * intr_frame in
      if negb ok then ret (false, i)
      else ret (true, Frame (f_ds i) (f_es i) (f_ss i) (f_cs i) (f_eflags i) (e_entry ehdr) (f_rsp i)).

Definition load (file_name : Z) (i : intr_frame) : M proc (bool * intr_frame) :=
  p ← on_hw pml4_create;
  set_pml4 p;;
  if p =? NULL then ret (false, i)
  else
    process_activate;;
    name ← on_user (on_ram (string_at 4096 file_name));
    f ← on_fs (filesys_open junk name);
    if f =? NULL then
      print "load: %s: open failed" [file_name];; ret (false, i)
    else
      r ← load_file file_name f i;
      on_fs (file_close f);; ret r.

Definition FLAG_MBS : Z := 0x2.
Definition FLAG_IF : Z := 0x200.
Definition SEL_UDSEG : Z := 0x1B.
Definition SEL_UCSEG : Z := 0x23.

(** [process_exec]: [None] when it returns -1, and otherwise the frame with
    which the processor goes on in user mode.  [i] is what the local frame
    holds at first. *)
Definition process_exec (f_name : Z) (i : intr_frame) : M proc (option intr_frame) :=
  let i := Frame SEL_UDSEG SEL_UDSEG SEL_UDSEG SEL_UCSEG (Z.lor FLAG_IF FLAG_MBS) (f_rip i) (f_rsp i) in
  process_cleanup;;
  r ← load f_name i;
  on_user (palloc_free_page f_name);;
  ret (if r.1 : bool then Some r.2 else None).

(** [initd]: panics unless the program starts. *)
Definition initd (f_name : Z) (i : intr_frame) : M proc intr_frame :=
  r ← process_exec f_name i;
  match r with Some i => ret i | None => lift Panic end.
End exec.

(** [process_wait] does nothing yet. *)
Definition process_wait (child_tid : Z) : Z := -1.
