(* ===== verification/ProcessSpec.v ===== *)
(** * Loading user programs (userprog/process.c)

    What a process sees of its memory, and the proofs about Process.v: a
    segment is loaded page by page into frames of the user pool, and the
    frames that other pages have, the page tables and the rest of memory stay
    as they are. *)

From Stdlib Require Import String.
From stdpp Require Import gmap.
From S2P Require Import Prelude Bitmap CString Console Palloc Mmu MmuSpec Inode FreeMap Directory Process.

(** ** The user pool *)

Notation upage s j := (page_addr (user_pool s) j).
Definition uused (s : pstate) (j : Z) : bool := page_used (user_pool s) j.
Definition ucnt (s : pstate) : Z := bit_cnt (used_map (user_pool s)).

(** From [s] to [s'] only the user pool and its memory changed. *)
Record user_only (s s' : pstate) : Prop := {
  uo_pools : pools_ok s';
  uo_bytes : bytes_ok (ram s');
  uo_kernel : kernel_pool s' = kernel_pool s;
  uo_place : same_place s s';
  uo_ram a : ~ pool_bytes (user_pool s) a -> ram s' a = ram s a
}.

Lemma kernel_bytes s j a : pools_ok s -> 0 <= j < kcnt s -> kpage s j <= a < kpage s j + 4096 -> ~ pool_bytes (user_pool s) a.
Proof.
  intros Hp Hj Ha Hu. apply (ok_disjoint _ Hp a); [|done]. pose proof (po_wf _ _ (ok_pool _ Hp KERNEL)).
  unfold pool_bytes, page_addr, PGSIZE, kcnt in *. lia.
Qed.

Lemma user_bytes s j a : 0 <= j < ucnt s -> upage s j <= a < upage s j + 4096 -> pool_bytes (user_pool s) a.
Proof. unfold pool_bytes, page_addr, PGSIZE, ucnt. lia. Qed.

(** Page tables lie in the kernel pool, so they stay. *)
Lemma user_only_word s s' p4 tabs p t i : space s p4 tabs -> user_only s s' -> tabs !! p = Some t -> 0 <= i < 512 ->
  word (ram s') (t + 8 * i) = word (ram s) (t + 8 * i).
Proof.
  intros S U Ht Hi. apply word_ext. intros x Hx. apply (uo_ram _ _ U).
  destruct (sp_page _ _ _ S _ _ Ht) as (j & Hj & -> & _). eapply kernel_bytes; [apply S|done|]. lia.
Qed.

Lemma user_only_space s s' p4 tabs : space s p4 tabs -> user_only s s' -> space s' p4 tabs.
Proof.
  intros S U. pose proof (fun p t i => user_only_word s s' p4 tabs p t i S U) as Hw. pose proof U as [U1 U2 U3 U4 U5].
  destruct S as [S1 S2 S3 S4 S5 S6 S7 S8 S9]. split; try done.
  - by rewrite U3.
  - intros p t Ht. destruct (S5 p t Ht) as (j & Hj & -> & Hu). exists j. unfold kcnt, kused. by rewrite U3.
  - intros p t i w Ht Hp Hi E. rewrite (Hw p t i Ht Hi) in E. by apply (S9 p t i w).
Qed.

Lemma user_only_pte s s' p4 tabs va : space s p4 tabs -> user_only s s' -> pte s' tabs va = pte s tabs va.
Proof.
  intros S U. unfold pte, view. destruct (tabs !! vpath va) as [t|] eqn:Et; [|done].
  by rewrite (user_only_word s s' p4 tabs _ _ _ S U Et (proj2 (proj2 (index_range va)))).
Qed.

Lemma user_only_refl s : pools_ok s -> bytes_ok (ram s) -> user_only s s.
Proof. by split. Qed.

Lemma user_only_trans s1 s2 s3 : user_only s1 s2 -> user_only s2 s3 -> user_only s1 s3.
Proof.
  intros [A1 A2 A3 A4 A5] [B1 B2 B3 B4 B5]. split; [done|done|congruence|by eapply same_place_trans|].
  intros a Ha. rewrite B5, A5; [done|done|]. intros H. apply Ha. destruct (A4 USER) as (E1 & E2). cbn in E1, E2.
  unfold pool_bytes, page_addr in *. by rewrite <- E1, <- E2.
Qed.

(** Writing bytes into a page of the user pool. *)
Lemma user_write s a bs m' j :
  pools_ok s -> bytes_ok (ram s) -> 0 <= j < ucnt s -> upage s j <= a -> a + Z.of_nat (length bs) <= upage s j + 4096 ->
  Forall is_u8 bs -> written (ram s) m' a bs -> user_only s (with_ram s m') /\ user_pool (with_ram s m') = user_pool s.
Proof.
  intros Hp Hb Hj Ha He Hu W. split; [|done]. split; [|intros x b Hx|done|done|].
  - apply pools_with_ram; [done|]. intros x. apply (written_some _ _ _ _ _ W).
  - rewrite W in Hx. by apply (bytes_ok_write _ a bs Hb Hu x b).
  - intros x Hx. cbn. rewrite W. apply write_other. intros Hin. apply Hx. apply (user_bytes s j); [done|lia].
Qed.

(** What [palloc_get_page (PAL_USER)] and [palloc_free_page] do. *)
Record utook (s : pstate) (j : Z) (s' : pstate) : Prop := {
  ut_only : user_only s s';
  ut_range : 0 <= j < ucnt s;
  ut_free : uused s j = false;
  ut_used k : 0 <= k -> uused s' k = (k =? j) || uused s k
}.

Lemma in_range_one i j : in_range i 1 j = (j =? i).
Proof. unfold in_range. destruct (Z.eqb_spec j i), (Z.leb_spec i j), (Z.ltb_spec j (i + 1)); cbn; lia. Qed.

Lemma uget_run s flags :
  pools_ok s -> bytes_ok (ram s) -> has_flag flags PAL_USER = true -> has_flag flags PAL_ASSERT = false ->
  (exists j s', palloc_get_page flags s = Ok (upage s j, s') /\ utook s j s' /\
     (has_flag flags PAL_ZERO = true -> bytes_at (ram s') (upage s j) (replicate 4096 0)) /\
     forall a, ~ (upage s j <= a < upage s j + 4096) -> ram s' a = ram s a) \/
  (palloc_get_page flags s = Ok (NULL, s) /\ forall j, 0 <= j < ucnt s -> uused s j = true).
Proof.
  intros Hok Hb Hu Ha. unfold palloc_get_page. pose proof (palloc_get_outcome s flags 1 Hok ltac:(lia)) as O.
  assert (pool_of flags = USER) as Ew by (unfold pool_of; by rewrite Hu).
  inversion O as [j s' p H1 H2 H3 H4 U W E|r p H1 H2 E].
  - left. exists j, s'. subst p. rewrite Ew in *. cbn [the_pool] in *. split; [done|].
    assert (forall a, ~ (upage s j <= a < upage s j + 4096) -> ram s' a = ram s a) as Hframe.
    { intros a Hn. destruct (has_flag flags PAL_ZERO); [|by rewrite W]. rewrite W. apply write_other. rewrite length_replicate. unfold PGSIZE. lia. }
    assert (0 <= j < ucnt s) as Hj by (unfold ucnt; lia).
    split_and!; [split; [split|done|apply (H3 j); lia|]| |done].
    + eapply pages_updated_ok; [done|exact U|]. intros a Hs. destruct (has_flag flags PAL_ZERO); [by apply (written_some _ _ _ _ _ W)|by rewrite W].
    + intros a b Hab. destruct (has_flag flags PAL_ZERO); [|rewrite W in Hab; by apply (Hb a)].
      rewrite W in Hab. revert Hab. apply bytes_ok_write; [done|]. apply Forall_replicate. done.
    + apply (pu_other _ _ _ _ _ U KERNEL). done.
    + by eapply pages_updated_place.
    + intros a Hn. apply Hframe. intros Hin. apply Hn. by apply (user_bytes s j).
    + intros k Hk. unfold uused, page_used. rewrite (up_bit _ _ _ _ (pu_map _ _ _ _ _ U)) by done. rewrite in_range_one. by destruct (k =? j).
    + intros Hz. rewrite Hz in W. apply (written_in _ _ _ _ W).
  - right. subst p. rewrite Ew in *. rewrite Ha in *. cbn [the_pool] in *. subst r. split; [done|]. intros j Hj. destruct (uused s j) eqn:Ej; [done|]. exfalso.
    apply (H1 j); [lia|unfold ucnt in Hj; lia|]. intros k Hk. replace k with j by lia. done.
Qed.

Lemma ufree_run s j :
  pools_ok s -> bytes_ok (ram s) -> 0 <= j < ucnt s -> uused s j = true ->
  exists s', palloc_free_page (upage s j) s = Ok (tt, s') /\ user_only s s' /\
    (forall k, 0 <= k -> uused s' k = negb (k =? j) && uused s k) /\
    forall a, ~ (upage s j <= a < upage s j + 4096) -> ram s' a = ram s a.
Proof.
  intros Hok Hb Hj Hu. unfold palloc_free_page.
  destruct (palloc_free_outcome s USER j 1 Hok ltac:(lia) ltac:(lia)) as [(_ & s' & E & U & W)|[Hn _]]; [unfold ucnt in Hj; cbn; lia| |].
  - exists s'. cbn [the_pool] in *. split; [done|].
    assert (forall a, ~ (upage s j <= a < upage s j + 4096) -> ram s' a = ram s a) as Hframe.
    { intros a Hn. rewrite W. apply write_other. rewrite length_replicate. unfold PGSIZE. lia. }
    split_and!; [split| |done].
    + eapply pages_updated_ok; [done|exact U|]. intros a Hs. by apply (written_some _ _ _ _ _ W).
    + intros a b Hab. rewrite W in Hab. revert Hab. apply bytes_ok_write; [done|]. apply Forall_replicate. done.
    + apply (pu_other _ _ _ _ _ U KERNEL). done.
    + by eapply pages_updated_place.
    + intros a Hn. apply Hframe. intros Hin. apply Hn. by apply (user_bytes s j).
    + intros k Hk. unfold uused, page_used. rewrite (up_bit _ _ _ _ (pu_map _ _ _ _ _ U)) by done. rewrite in_range_one. by destruct (k =? j).
  - exfalso. apply Hn. intros k Hk. replace k with j by lia. done.
Qed.

(** ** The address space of a process *)

(** An address space: the bytes of every mapped page, by its number, and whether
    the process may write it. *)
Notation aspace := (gmap Z (list Z * bool)).

Notation mm s := (pal (hw s)).

(** The page tables [tabs] give the process the address space [A]: a page of [A]
    has a frame of the user pool, one of [own], with its bytes. *)
Definition represents (s : pstate) (tabs : gmap (list Z) Z) (A : aspace) (own : gset Z) : Prop := forall va, 0 <= va < KERN_BASE ->
  match (A !! pg_no va : option (list Z * bool)) with
  | None => has_flag (pte s tabs va) PTE_P = false
  | Some (bs, w) => length bs = 4096%nat /\ exists j, j ∈ own /\
      pte s tabs va = entry_of (upage s j) (if w then 7 else 5) /\ bytes_at (ram s) (upage s j) bs
  end.

(** [own] are frames that are in use for the process. *)
Record proc_ok (s : proc) (tabs : gmap (list Z) Z) (A : aspace) (own : gset Z) : Prop := {
  pr_space : space (mm s) (pml4 s) tabs;
  pr_base : pml4 s <> base_pml4 (hw s);
  pr_ubase : KERN_BASE <= base (user_pool (mm s));
  pr_rep : represents (mm s) tabs A own;
  pr_own j : j ∈ own -> 0 <= j < ucnt (mm s) /\ uused (mm s) j = true;
  pr_con : lock_ok (con s) /\ available (con s) = true
}.

Definition with_user (s : proc) (p : pstate) : proc := Proc (with_pal (hw s) p) (fsys s) (con s) (self s) (pml4 s) (rsp0 s).
Definition with_fs (s : proc) (x : fs) : proc := Proc (hw s) x (con s) (self s) (pml4 s) (rsp0 s).

Lemma with_fs_id s : with_fs s (fsys s) = s.
Proof. by destruct s. Qed.

Lemma on_user_run {A} (f : M pstate A) s a p : f (mm s) = Ok (a, p) -> on_user f s = Ok (a, with_user s p).
Proof. intros E. unfold on_user, on_hw. by rewrite (pal_run _ _ _ _ E). Qed.

Lemma on_fs_run {A} (f : M fs A) s a x : f (fsys s) = Ok (a, x) -> on_fs f s = Ok (a, with_fs s x).
Proof. intros E. unfold on_fs. by rewrite E. Qed.

Lemma on_hw_run {A} (f : M cpu A) s a c : f (hw s) = Ok (a, c) -> on_hw f s = Ok (a, Proc c (fsys s) (con s) (self s) (pml4 s) (rsp0 s)).
Proof. intros E. unfold on_hw. by rewrite E. Qed.

Lemma same_place_upage s s' j : same_place s s' -> upage s' j = upage s j.
Proof. intros H. destruct (H USER) as [E _]. cbn in E. unfold page_addr. by rewrite E. Qed.
Lemma same_place_ucnt s s' : same_place s s' -> ucnt s' = ucnt s.
Proof. intros H. by destruct (H USER) as [_ E]. Qed.

Lemma upage_inj s i j : upage s i = upage s j -> i = j.
Proof. unfold page_addr, PGSIZE. lia. Qed.

(** Facts about the frame [j]. *)
Lemma upage_facts s j : pools_ok s -> KERN_BASE <= base (user_pool s) -> 0 <= j < ucnt s ->
  KERN_BASE <= upage s j /\ upage s j + 4096 < 2 ^ 64 /\ pg_ofs (upage s j) = 0 /\ upage s j <> NULL.
Proof.
  intros Hp Hb Hj. destruct (ok_pool _ Hp USER) as [P1 P2 P3 P4 P5 P6]. cbn [the_pool] in *.
  split_and!; [| |by apply page_addr_ofs|]; unfold page_addr, PGSIZE, ucnt, KERN_BASE, NULL in *; lia.
Qed.

(** The representation stays when the entries, the frames in use and their
    bytes do. *)
Lemma represents_keep s s' tabs tabs' A own :
  represents s tabs A own -> same_place s s' ->
  (forall va, 0 <= va < KERN_BASE -> pte s' tabs' va = pte s tabs va) ->
  (forall k a, k ∈ own -> upage s k <= a < upage s k + 4096 -> ram s' a = ram s a) ->
  represents s' tabs' A own.
Proof.
  intros R Hp He Hk va Hva. specialize (R va Hva). rewrite He by done. destruct (A !! pg_no va) as [[bs w]|]; [|done].
  destruct R as (Hl & j & Hj & Hw & Hb). split; [done|]. exists j.
  rewrite (same_place_upage s s') by done. split_and!; try done.
  intros i b Hi. pose proof (lookup_lt_Some _ _ _ Hi). rewrite (Hk j) by (done || lia). by apply Hb.
Qed.

Lemma frames_apart s i j a : i <> j -> upage s i <= a < upage s i + 4096 -> ~ (upage s j <= a < upage s j + 4096).
Proof. unfold page_addr, PGSIZE. lia. Qed.

(** Taking a frame that the process does not own, writing to it and giving it
    back. *)
Lemma proc_ok_frame s p tabs A own j :
  proc_ok s tabs A own -> user_only (mm s) p -> j ∉ own ->
  (forall k, k ∈ own -> uused p k = uused (mm s) k) ->
  (forall a, ~ (upage (mm s) j <= a < upage (mm s) j + 4096) -> ram p a = ram (mm s) a) ->
  proc_ok (with_user s p) tabs A own.
Proof.
  intros [P1 P2 P3 P4 P5 P6] U Hj Hk Hr. split; cbn; try done.
  - by eapply user_only_space.
  - destruct (uo_place _ _ U USER) as [E _]. cbn in E. by rewrite E.
  - eapply represents_keep; [done|apply U|intros va _; by eapply user_only_pte|]. intros k a Hin Ha. apply Hr. eapply frames_apart; [|done]. congruence.
  - intros k Hin. rewrite (same_place_ucnt (mm s)), Hk by (done || apply U). by apply P5.
Qed.

(** ** Files *)

(** The file [f] is open at [pos] and its inode is [i]. *)
Record opened (x : fs) (f : Z) (i : inode) (pos : Z) : Prop := {
  op_null : f <> NULL;
  op_file : exists p d, files x !! f = Some (File p pos d) /\ inodes x !! p = Some i;
  op_disk : disk_ok x;
  op_inode : inode_ok x i;
  op_bytes : Forall is_u8 (contents x i)
}.

(** Only the position of [f] and the outcomes of allocations changed. *)
Definition moved (f : Z) (x x' : fs) : Prop := exists fl l,
  x' = set_files (fun _ => fl) (set_allocs (fun _ => l) x) /\ (allocs x = [] -> l = []) /\
  forall g, g <> f -> fl !! g = files x !! g.

Lemma moved_refl f x : moved f x x.
Proof. exists (files x), (allocs x). by destruct x. Qed.
Lemma moved_trans f x y z : moved f x y -> moved f y z -> moved f x z.
Proof.
  intros (fl & l & -> & Ha & Hf) (fl' & l' & -> & Ha' & Hf'). exists fl', l'. split_and!; [done|by auto|].
  intros g Hg. rewrite Hf' by done. cbn. by apply Hf.
Qed.
Lemma moved_contents f x x' i : moved f x x' -> contents x' i = contents x i.
Proof. by intros (fl & l & -> & _). Qed.
Lemma moved_allocs f x x' : moved f x x' -> allocs x = [] -> allocs x' = [].
Proof. intros (fl & l & -> & H & _). exact H. Qed.

Lemma file_length_run x f i pos : opened x f i pos -> file_length f x = Ok (length_ (data i), x).
Proof.
  intros [O1 (p & d & Hf & Hi) _ _ _]. unfold file_length. rewrite (proj2 (Z.eqb_neq f NULL) O1). mnorm.
  assert (get_file f x = Ok (File p pos d, x)) as E by (unfold get_file; by rewrite Hf). mstep E.
  unfold inode_length. assert (get_inode p x = Ok (i, x)) as E2 by (unfold get_inode; by rewrite Hi). by mstep E2.
Qed.

Lemma put_file_opened x l f i p pos pos' d :
  opened x f i pos -> files x !! f = Some (File p pos d) -> inodes x !! p = Some i -> (allocs x = [] -> l = []) ->
  let x' := set_files (<[f := File p pos' d]>) (set_allocs (fun _ => l) x) in opened x' f i pos' /\ moved f x x'.
Proof.
  intros [O1 _ O3 [I1 I2 I3] O5] Hf Hi Hl. split.
  - split; try done. exists p, d. cbn. by rewrite lookup_insert_eq.
  - exists (<[f := File p pos' d]> (files x)), l. split_and!; [done|done|]. intros g Hg. by rewrite lookup_insert_ne.
Qed.

Lemma file_seek_run x f i pos pos' : opened x f i pos -> 0 <= pos' ->
  exists x', file_seek f pos' x = Ok (tt, x') /\ opened x' f i pos' /\ moved f x x'.
Proof.
  intros O Hp. pose proof (op_file _ _ _ _ O) as (p & d & Hf & Hi). unfold file_seek.
  rewrite (proj2 (Z.eqb_neq f NULL) (op_null _ _ _ _ O)), (proj2 (Z.leb_le 0 pos') Hp). mnorm.
  assert (get_file f x = Ok (File p pos d, x)) as E by (unfold get_file; by rewrite Hf). mstep E.
  pose proof (put_file_opened x (allocs x) f i p pos pos' d O Hf Hi ltac:(done)) as H.
  replace (set_allocs (fun _ => allocs x) x) with x in H by by destruct x. by eexists.
Qed.

(** A read delivers what the file has, or less when an allocation fails. *)
Lemma file_read_run x f i pos size : opened x f i pos -> 0 <= pos <= length_ (data i) -> 0 <= size <= 4096 ->
  exists m x', file_read f size x = Ok (slice (Z.to_nat pos) (Z.to_nat m) (contents x i), x') /\
    0 <= m <= size /\ pos + m <= length_ (data i) /\ (allocs x = [] -> m = Z.min size (length_ (data i) - pos)) /\
    Z.of_nat (length (slice (Z.to_nat pos) (Z.to_nat m) (contents x i))) = m /\ opened x' f i (pos + m) /\ moved f x x'.
Proof.
  intros O Hp Hs. pose proof (op_file _ _ _ _ O) as (p & d & Hf & Hi). pose proof (io_len _ _ (op_inode _ _ _ _ O)) as Hlen. unfold file_read.
  assert (get_file f x = Ok (File p pos d, x)) as E by (unfold get_file; by rewrite Hf). mstep E. cbn [f_inode f_pos deny_write].
  destruct (inode_read_run x p i size pos (op_disk _ _ _ _ O) Hi (op_inode _ _ _ _ O)) as (m & x1 & E1 & (l & -> & Hl) & Hm & Hall); [lia|lia|].
  mstep E1. assert (Z.of_nat (length (slice (Z.to_nat pos) (Z.to_nat m) (contents x i))) = m) as El.
  { unfold reach in Hm. rewrite length_slice; [lia|]. rewrite Inode.length_contents by apply O. lia. }
  rewrite El, wraps_id by (unfold is_s, reach in *; lia).
  destruct (put_file_opened x l f i p pos (pos + m) d O Hf Hi Hl) as [O' M']. exists m. eexists. split; [done|].
  unfold reach in Hm. split_and!; try done; try lia. intros Ha. destruct (Hall Ha) as [-> _]. unfold reach. lia.
Qed.

(** Storing the bytes. *)
Lemma store_bytes_run m a bs : mapped m a (length bs) -> exists m', store_bytes a bs m = Ok (tt, m') /\ written m m' a bs.
Proof.
  revert m a. induction bs as [|b bs IH]; intros m a Hm; cbn [store_bytes].
  - exists m. split; [done|apply written_nil].
  - apply mapped_S in Hm as [Ha Hm]. mstep (store_run m a b Ha). destruct (IH (upd m a b) (a + 1)) as (m' & E & W); [by apply mapped_upd|].
    exists m'. rewrite E. split; [done|]. by apply written_cons.
Qed.

(** ** Mapping a page *)

(** What of the thread and the processor the loader leaves alone. *)
Definition same_thread (s s' : proc) : Prop :=
  self s' = self s /\ pml4 s' = pml4 s /\ rsp0 s' = rsp0 s /\ base_pml4 (hw s') = base_pml4 (hw s) /\ cr3 (hw s') = cr3 (hw s).

Lemma same_thread_trans s1 s2 s3 : same_thread s1 s2 -> same_thread s2 s3 -> same_thread s1 s3.
Proof. intros (A1 & A2 & A3 & A4 & A5) (B1 & B2 & B3 & B4 & B5). repeat split; congruence. Qed.

Lemma entry_flags t (w : bool) k : t mod 4096 = 0 -> 0 <= k < 12 ->
  Z.testbit (entry_of t (if w then 7 else 5)) k = Z.testbit (if w then 7 else 5) k.
Proof. intros Ht Hk. apply entry_bit; [done|destruct w; lia|done]. Qed.

Lemma room_less s n m : (m <= n)%nat -> room s n -> room s m.
Proof.
  intros Hm (l & H1 & H2 & H3). exists (take m l).
  split_and!; [rewrite <- (take_drop m l) in H1; by apply NoDup_app in H1 as [? _]|rewrite length_take; lia|by apply Forall_take].
Qed.

Lemma missing_3 tabs va : (missing tabs [] (vpath va) <= 3)%nat.
Proof. unfold vpath. cbn [missing]. repeat case_match; lia. Qed.

(** The loader finds a page unmapped exactly when the address space has none. *)
Lemma probe_page s tabs A own va : proc_ok s tabs A own -> 0 <= va < KERN_BASE ->
  exists r, pml4_get_page (pml4 s) va (hw s) = Ok (r, hw s) /\ (r = NULL <-> A !! pg_no va = None).
Proof.
  intros P Hva. pose proof (pr_space _ _ _ _ P) as S. exists (translate (pte (mm s) tabs va) va).
  split; [by apply get_page_translate|]. pose proof (pr_rep _ _ _ _ P va Hva) as R. unfold translate.
  destruct (A !! pg_no va) as [[bs w]|]; [|by rewrite R]. destruct R as (_ & j & [Hj _]%(pr_own _ _ _ _ P) & -> & _). split; [|done]. intros E. exfalso. revert E.
  destruct (upage_facts (mm s) j (sp_pools _ _ _ S) (pr_ubase _ _ _ _ P) Hj) as (F1 & F2 & F3 & F4). rewrite pg_ofs_mod in F3. unfold PGSIZE in F3.
  rewrite present_bit, entry_flags, entry_addr by (done || (destruct w; lia)). replace (Z.testbit (if w then 7 else 5) 0) with true by by destruct w.
  pose proof (Z.mod_pos_bound va 4096 ltac:(lia)). rewrite pg_ofs_mod. unfold PGSIZE, KERN_BASE, NULL in *.
  rewrite wrapu_id by (split; lia). lia.
Qed.

Lemma install_page_run s tabs A own va j w bs :
  proc_ok s tabs A own -> 0 <= va < KERN_BASE -> pg_ofs va = 0 -> 0 <= j < ucnt (mm s) -> uused (mm s) j = true ->
  length bs = 4096%nat -> bytes_at (ram (mm s)) (upage (mm s) j) bs ->
  exists b s' tabs', install_page va (upage (mm s) j) w s = Ok (b, s') /\
    proc_ok s' tabs' (if b then <[pg_no va := (bs, w)]> A else A) (if b then {[j]} ∪ own else own) /\
    (if b then A !! pg_no va = None else is_Some (A !! pg_no va) \/ ~ room (mm s') 3) /\
    same_thread s s' /\ fsys s' = fsys s /\ con s' = con s /\ user_pool (mm s') = user_pool (mm s) /\
    (b = false -> tabs' = tabs).
Proof.
  intros P Hva Ho Hj Hu Hl Hb. pose proof (pr_space _ _ _ _ P) as S. unfold install_page. mnorm.
  destruct (probe_page s tabs A own va P Hva) as (r & E & Hr). pose proof (on_hw_run _ s _ _ E) as E'.
  replace (Proc (hw s) (fsys s) (con s) (self s) (pml4 s) (rsp0 s)) with s in E' by by destruct s. mstep E'.
  destruct (Z.eqb_spec r NULL) as [Hn|Hn].
  2: { exists false, s, tabs. split_and!; try done. left. destruct (A !! pg_no va); [done|]. by destruct Hn, Hr; auto. }
  apply Hr in Hn. destruct (upage_facts (mm s) j (sp_pools _ _ _ S) (pr_ubase _ _ _ _ P) Hj) as (F1 & F2 & F3 & F4).
  destruct (set_page_run (hw s) (pml4 s) tabs va (upage (mm s) j) w S (pr_base _ _ _ _ P) Hva Ho ltac:(lia) F3) as (b & c' & tabs' & E1 & PS).
  rewrite (on_hw_run _ s _ _ E1). exists b. eexists. exists tabs'. split; [done|]. pose proof PS as [Q1 (Q2 & Q3 & Q4) Q5 Q6 Q7 Q8 Q9 Q10].
  assert (forall a, pool_bytes (user_pool (mm s)) a -> ram (pal c') a = ram (mm s) a) as Hram.
  { intros a Ha. destruct (Q7 a) as [H|[(p & t & Ht & Hin)|(k & Hk & _ & Hin)]]; [done| |].
    - destruct (sp_page _ _ _ S _ _ Ht) as (k & Hk & -> & _). by destruct (kernel_bytes (mm s) k a (sp_pools _ _ _ S) Hk Hin).
    - by destruct (kernel_bytes (mm s) k a (sp_pools _ _ _ S) Hk Hin). }
  split_and!; try done.
  - split; cbn; [done|by rewrite Q2; apply P|by rewrite Q5; apply P| | |apply P].
    2: { intros k Hk. unfold ucnt, uused in *. rewrite Q5. destruct b; [|by apply P]. apply elem_of_union in Hk as [->%elem_of_singleton|Hk]; [done|by apply P]. }
    intros vb Hvb.
    rewrite Q8 by (unfold KERN_BASE in *; lia).
    pose proof (pr_rep _ _ _ _ P vb Hvb) as R.
    assert (forall k ds, 0 <= k < ucnt (mm s) -> bytes_at (ram (mm s)) (upage (mm s) k) ds -> length ds = 4096%nat -> bytes_at (ram (pal c')) (upage (mm s) k) ds) as Hbytes.
    { intros k ds Hk Hd Hld i x Hi. pose proof (lookup_lt_Some _ _ _ Hi). rewrite Hram; [by apply Hd|]. apply (user_bytes (mm s) k); [done|lia]. }
    unfold ucnt, uused in *. rewrite Q5. destruct (b && (pg_no vb =? pg_no va)) eqn:Eb.
    + apply andb_true_iff in Eb as [-> ->%Z.eqb_eq]. rewrite lookup_insert_eq. split; [done|]. exists j. split; [apply elem_of_union_l; by apply elem_of_singleton|]. split; [done|by apply Hbytes].
    + replace ((if b then <[pg_no va := (bs, w)]> A else A) !! pg_no vb) with (A !! pg_no vb)
        by (destruct b; [|done]; cbn in Eb; apply Z.eqb_neq in Eb; by rewrite lookup_insert_ne).
      destruct (A !! pg_no vb) as [[ds w']|]; [|done]. destruct R as (R1 & k & R2 & R3 & R4).
      split; [done|]. exists k. split; [destruct b; [by apply elem_of_union_r|done]|]. split; [done|]. apply Hbytes; [by apply P|done|done].
  - destruct b; [done|]. right. destruct (Q9 eq_refl) as [-> Hno]. intros Hr'. apply Hno. apply (room_less _ 3); [apply missing_3|].
    destruct Hr' as (l & L1 & L2 & L3). exists l. split_and!; [done|done|]. cbn in L3. eapply Forall_impl; [exact L3|]. intros k [K1 K2]. cbn in K1, K2.
    rewrite (same_place_cnt (mm s)) in K1 by done. split; [done|]. destruct (kused (mm s) k) eqn:Ek; [|done].
    rewrite (proj2 (Q6 k K1)) in K2; [done|by left].
  - intros ->. by apply Q9.
Qed.

(** ** Loading a page *)

Definition with_con (s : proc) (c : console) : proc := Proc (hw s) (fsys s) c (self s) (pml4 s) (rsp0 s).

Lemma print_run s format args out :
  lock_ok (con s) -> available (con s) = true ->
  Stdio.__vprintf StdioSpec.collect 4096 64 (Stdio.chars format ++ [10; 0]) args (ram (mm s), []) = Ok (tt, (ram (mm s), out)) ->
  Z.of_nat (length out) < 2 ^ 31 ->
  print format args s = Ok (tt, with_con s (printed (con s) out)) /\ lock_ok (printed (con s) out) /\ available (printed (con s) out) = true.
Proof.
  intros H1 H2 E Hl. unfold print. rewrite (printf_run _ _ _ _ _ _ _ _ H1 H2 E Hl). cbn [rbind]. split.
  - unfold with_con. by destruct s as [[[] ? ? ?] ? ? ? ? ?].
  - split; [|done]. destruct H1 as (D & Hn & _). split; [done|]. split; [done|]. by apply wraps_range.
Qed.

Lemma proc_ok_con s tabs A own c : proc_ok s tabs A own -> lock_ok c -> available c = true -> proc_ok (with_con s c) tabs A own.
Proof. intros [P1 P2 P3 P4 P5 P6] H1 H2. by split. Qed.

Lemma proc_ok_fs s tabs A own x : proc_ok s tabs A own -> proc_ok (with_fs s x) tabs A own.
Proof. intros [P1 P2 P3 P4 P5 P6]. by split. Qed.

(** A page with [n] bytes of the file and zeros behind them. *)
Definition page_image (file : list Z) (pos n : Z) : list Z :=
  slice (Z.to_nat pos) (Z.to_nat n) file ++ replicate (Z.to_nat (4096 - n)) 0.

(** Memory is short: no frame is left, or not the pages for the tables of a
    mapping. *)
Definition low_memory (s : proc) : Prop :=
  (forall j, 0 <= j < ucnt (mm s) -> uused (mm s) j = true) \/ ~ room (mm s) 3.

(** The frame [j] with the bytes read and the zeros. *)
Lemma fill_page_run s j bs n :
  pools_ok s -> KERN_BASE <= base (user_pool s) -> bytes_ok (ram s) -> 0 <= j < ucnt s -> Forall is_u8 bs -> Z.of_nat (length bs) = n -> n <= 4096 ->
  exists m1 m2, on_ram (store_bytes (upage s j) bs) s = Ok (tt, with_ram s m1) /\ user_only s (with_ram s m1) /\
    (forall a, ~ (upage s j <= a < upage s j + 4096) -> m1 a = ram s a) /\
    on_ram (memset (u64 (upage s j + n)) 0 (PGSIZE - n)) (with_ram s m1) = Ok (u64 (upage s j + n), with_ram s m2) /\ user_only s (with_ram s m2) /\
    (forall a, ~ (upage s j <= a < upage s j + 4096) -> m2 a = ram s a) /\
    bytes_at m2 (upage s j) (bs ++ replicate (Z.to_nat (4096 - n)) 0).
Proof.
  intros Hp Hk Hb Hj Hu Hn Hle. destruct (upage_facts s j Hp Hk Hj) as (F1 & F2 & F3 & F4).
  assert (forall m a k, (forall x, is_Some (ram s x) -> is_Some (m x)) -> upage s j <= a -> a + Z.of_nat k <= upage s j + 4096 -> mapped m a k) as Hmap.
  { intros m a k Hm H1 H2 i Hi. apply Hm. apply (po_mapped _ _ (ok_pool _ Hp USER)). apply (user_bytes s j); [done|lia]. }
  destruct (store_bytes_run (ram s) (upage s j) bs) as (m1 & E1 & W1); [apply Hmap; [done|lia|lia]|].
  assert (forall a, ~ (upage s j <= a < upage s j + 4096) -> m1 a = ram s a) as Hf1.
  { intros a Ha. rewrite W1. apply write_other. lia. }
  destruct (user_write s (upage s j) bs m1 j Hp Hb Hj ltac:(lia) ltac:(lia) Hu W1) as [U1 _].
  rewrite (wrapu_id 64) by (unfold KERN_BASE in *; split; lia).
  destruct (memset_spec (Z.to_nat (4096 - n)) m1 (upage s j + n) 0) as (m2 & E2 & W2).
  { unfold KERN_BASE, NULL in *. lia. }
  { apply Hmap; [intros x; apply (written_some _ _ _ _ _ W1)|lia|lia]. }
  rewrite Z2Nat.id in E2 by lia.
  assert (written (ram s) m2 (upage s j) (bs ++ replicate (Z.to_nat (4096 - n)) 0)) as W.
  { intros x. rewrite W2. unfold write_bytes. rewrite W1. unfold write_bytes, inside. rewrite length_app, !length_replicate. change (u8 0) with 0.
    destruct (Z.leb_spec (upage s j + n) x), (Z.ltb_spec x (upage s j + n + Z.of_nat (Z.to_nat (4096 - n)))), (Z.leb_spec (upage s j) x),
      (Z.ltb_spec x (upage s j + Z.of_nat (length bs))), (Z.ltb_spec x (upage s j + Z.of_nat (length bs + Z.to_nat (4096 - n)))); cbn [andb]; try lia; try done.
    - rewrite lookup_app_r by lia. f_equal. lia.
    - by rewrite lookup_app_l by lia. }
  assert (length (bs ++ replicate (Z.to_nat (4096 - n)) 0) = 4096%nat) as Hlen by (rewrite length_app, length_replicate; lia).
  destruct (user_write s (upage s j) (bs ++ replicate (Z.to_nat (4096 - n)) 0) m2 j Hp Hb Hj ltac:(lia)) as [U2 _]; [lia| |done|].
  { apply Forall_app_2; [done|]. by apply Forall_replicate. }
  exists m1, m2. split_and!; try done.
  - by apply on_ram_run.
  - apply (on_ram_run _ (with_ram s m1)). exact E2.
  - intros a Ha. rewrite W. apply write_other. lia.
  - by apply (written_in (ram s)).
Qed.

(** The process came to own the frames [own' ∖ own], which were free, and no
    other page of the user pool was taken or given back. *)
Record grew (s s' : proc) (own own' : gset Z) : Prop := {
  gr_sub : own ⊆ own';
  gr_new k : k ∈ own' -> k ∉ own -> uused (mm s) k = false;
  gr_used k : 0 <= k -> k ∉ own' -> uused (mm s') k = uused (mm s) k
}.

Lemma grew_refl s s' own : user_pool (mm s') = user_pool (mm s) -> grew s s' own own.
Proof. intros E. split; [done|done|]. intros k _ _. unfold uused. by rewrite E. Qed.

Lemma grew_trans s1 s2 s3 o1 o2 o3 : (forall k, k ∈ o3 -> 0 <= k) -> grew s1 s2 o1 o2 -> grew s2 s3 o2 o3 -> grew s1 s3 o1 o3.
Proof.
  intros Hn [A1 A2 A3] [B1 B2 B3]. split; [set_solver| |].
  - intros k H3 H1. destruct (decide (k ∈ o2)) as [H2|H2]; [by apply A2|]. rewrite <- A3 by (by auto). by apply B2.
  - intros k Hk H3. rewrite B3, A3 by set_solver. done.
Qed.

(** The state with the frame [j] taken. *)
Lemma frame_taken s tabs A own j p : proc_ok s tabs A own -> utook (mm s) j p ->
  j ∉ own /\ forall k, k ∈ own -> k <> j.
Proof.
  intros P T. assert (j ∉ own) as H; [|split; [done|congruence]]. intros Hin. pose proof (pr_own _ _ _ _ P j Hin) as [_ Hu].
  by rewrite (ut_free _ _ _ T) in Hu.
Qed.

Definition file_page (x : fs) (i : inode) (pos n : Z) : list Z := page_image (contents x i) pos n.

(** Giving a frame back that the process does not own. *)
Lemma give_page_back s tabs A own j :
  proc_ok s tabs A own -> 0 <= j < ucnt (mm s) -> uused (mm s) j = true -> j ∉ own ->
  exists p, on_user (palloc_free_page (upage (mm s) j)) s = Ok (tt, with_user s p) /\ proc_ok (with_user s p) tabs A own /\
    (forall k, 0 <= k -> uused p k = negb (k =? j) && uused (mm s) k) /\ kernel_pool p = kernel_pool (mm s).
Proof.
  intros P Hj Hu Ho. pose proof (pr_space _ _ _ _ P) as S. destruct (ufree_run (mm s) j (sp_pools _ _ _ S) (sp_bytes _ _ _ S) Hj Hu) as (p & E & U & Hk & Hr).
  exists p. split; [by apply on_user_run|]. split; [|split; [done|apply U]]. eapply proc_ok_frame; [done|done|exact Ho| |done].
  intros k Hin. destruct (pr_own _ _ _ _ P k Hin) as [? _]. rewrite Hk by lia. assert (k <> j) as Hne by congruence.
  by rewrite (proj2 (Z.eqb_neq k j) Hne).
Qed.

Section load_page.
Context (s : proc) (tabs : gmap (list Z) Z) (A : aspace) (own : gset Z) (f : Z) (i : inode) (pos va n : Z) (w : bool).
Hypothesis P : proc_ok s tabs A own.
Hypothesis O : opened (fsys s) f i pos.
Hypothesis Hpos : 0 <= pos <= length_ (data i).
Hypothesis Hva : 0 <= va < KERN_BASE.
Hypothesis Hal : pg_ofs va = 0.
Hypothesis Hn : 0 <= n <= 4096.

Lemma load_page_run :
  exists b s' tabs' own', load_page f va n w s = Ok (b, s') /\
    proc_ok s' tabs' (if b then <[pg_no va := (file_page (fsys s) i pos n, w)]> A else A) own' /\
    same_thread s s' /\ moved f (fsys s) (fsys s') /\ grew s s' own own' /\ (exists pos', opened (fsys s') f i pos') /\
    if b then A !! pg_no va = None /\ pos + n <= length_ (data i) /\ opened (fsys s') f i (pos + n)
    else is_Some (A !! pg_no va) \/ length_ (data i) < pos + n \/ allocs (fsys s) <> [] \/ low_memory s'.
Proof using P O Hpos Hva Hal Hn.
  pose proof (pr_space _ _ _ _ P) as S. pose proof (sp_pools _ _ _ S) as Hp. pose proof (sp_bytes _ _ _ S) as Hb. pose proof (pr_ubase _ _ _ _ P) as Hub.
  unfold load_page. destruct (uget_run (mm s) PAL_USER Hp Hb eq_refl eq_refl) as [(j & p & E1 & T & _ & Hr1)|[E1 Hfull]].
  2: { mstep (on_user_run _ s _ _ E1). exists false, s, tabs, own. replace (with_user s (mm s)) with s by by destruct s as [[] ? ? ? ? ?].
       split; [done|]. split; [done|]. split; [done|]. split; [apply moved_refl|]. split; [by apply grew_refl|]. split; [by exists pos|]. right; right; right; by left. }
  mstep (on_user_run _ s _ _ E1). pose proof (ut_range _ _ _ T) as Hj. destruct (upage_facts (mm s) j Hp Hub Hj) as (F1 & F2 & F3 & F4).
  rewrite (proj2 (Z.eqb_neq _ NULL) F4). destruct (frame_taken _ _ _ _ _ _ P T) as [Hjo Hne]. pose proof (ut_only _ _ _ T) as U1.
  pose proof (same_place_upage _ _ j (uo_place _ _ U1)) as Eup.
  assert (forall q, user_pool q = user_pool p -> forall k, k ∈ own -> uused q k = uused (mm s) k) as Hkeep.
  { intros q Eq k Hk. destruct (pr_own _ _ _ _ P k Hk) as [Hkr _]. unfold uused at 1. rewrite Eq. fold (uused p k).
    rewrite (ut_used _ _ _ T) by lia. by rewrite (proj2 (Z.eqb_neq k j)) by by apply Hne. }
  unfold file_read_into. destruct (file_read_run (fsys s) f i pos n O Hpos Hn) as (m & x1 & E2 & Hm & Hlen & Hall & Hl & O1 & M1).
  rewrite bind_bind. mstep (on_fs_run _ (with_user s p) _ _ E2). set (bs := slice _ _ _) in *. set (s1 := with_fs (with_user s p) x1).
  assert (Forall is_u8 bs) as Hbs by (apply Forall_take, Forall_drop, O).
  destruct (fill_page_run p j bs m (uo_pools _ _ U1)) as (m1 & m2 & E3 & U2 & Hr2 & E4 & U3 & Hr3 & Hbytes).
  { destruct (uo_place _ _ U1 USER) as [Eb _]. cbn in Eb. by rewrite Eb. } { apply U1. } { by rewrite (same_place_ucnt (mm s)) by apply U1. } { done. } { done. } { lia. }
  rewrite Eup in *. mstep (on_user_run _ s1 _ _ E3). rewrite Hl. destruct (Z.eqb_spec m n) as [->|Hmn]; cbn [negb].
  2: { assert (proc_ok (with_user s1 (with_ram p m1)) tabs A own) as P1.
       { apply (proc_ok_fs (with_user s (with_ram p m1))). eapply (proc_ok_frame s); [done|by eapply user_only_trans|exact Hjo|by apply Hkeep|].
         cbn. intros a Ha. rewrite Hr2 by done. by apply Hr1. }
       destruct (give_page_back _ _ _ _ j P1) as (p3 & E5 & P3 & Hk5 & _); cbn.
       { change (0 <= j < ucnt p). by rewrite (same_place_ucnt (mm s)) by apply U1. } { change (uused p j = true). rewrite (ut_used _ _ _ T) by lia. by rewrite Z.eqb_refl. } { done. }
       cbn in E5. rewrite Eup in E5. mstep E5. exists false. eexists _, tabs, own. split; [done|]. split; [exact P3|]. split; [done|]. split; [done|]. split.
       - split; [done|done|]. intros k Hk _. cbn. rewrite Hk5 by done. change (uused _ k) with (uused p k) at 1. rewrite (ut_used _ _ _ T) by done.
         destruct (Z.eqb_spec k j) as [->|]; [by rewrite (ut_free _ _ _ T)|done].
       - split; [by exists (pos + m)|]. destruct (Z_lt_ge_dec (length_ (data i)) (pos + n)); [by right; left|]. right; right; left. intros Ha. rewrite (Hall Ha) in Hmn. lia. }
  assert (on_user (on_ram (memset (u64 (upage (mm s) j + n)) 0 (PGSIZE - n))) (with_user s1 (with_ram p m1)) = Ok (u64 (upage (mm s) j + n), with_user s1 (with_ram p m2))) as E4'
    by apply (on_user_run _ (with_user s1 (with_ram p m1)) _ _ E4).
  mstep E4'. clear E3 E4 E4' Hr2 U2. set (s2 := with_user s1 (with_ram p m2)).
  assert (user_only (mm s) (mm s2)) as U by by eapply user_only_trans.
  assert (forall a, ~ (upage (mm s) j <= a < upage (mm s) j + 4096) -> ram (mm s2) a = ram (mm s) a) as Hr by (cbn; intros a Ha; rewrite Hr3 by done; by apply Hr1).
  assert (forall k, 0 <= k -> uused (mm s2) k = (k =? j) || uused (mm s) k) as Hused by apply T.
  assert (proc_ok s2 tabs A own) as P2.
  { change s2 with (with_fs (with_user s (with_ram p m2)) x1). apply proc_ok_fs. eapply (proc_ok_frame s (with_ram p m2)); [done|done|exact Hjo|by apply Hkeep|done]. }
  destruct (install_page_run s2 tabs A own va j w (bs ++ replicate (Z.to_nat (4096 - n)) 0) P2 Hva Hal) as (b & s3 & tabs' & E6 & P3 & Hout & Hst & Hfs & Hco & Hup & Htabs).
  { by rewrite (same_place_ucnt (mm s)) by apply U. } { rewrite Hused by lia. by rewrite Z.eqb_refl. } { rewrite length_app, length_replicate. lia. }
  { change (upage (mm s2) j) with (upage p j). by rewrite Eup. }
  change (upage (mm s2) j) with (upage p j) in E6. rewrite Eup in E6. mstep E6.
  assert (same_thread s s2) as Hst2 by done. pose proof (same_thread_trans _ _ _ Hst2 Hst) as Hst3. destruct b; cbn [negb].
  - exists true, s3, tabs', ({[j]} ∪ own). split; [done|]. split; [exact P3|]. split; [done|]. rewrite Hfs. split; [done|]. split; [|split; [by exists (pos + n)|done]].
    split; [apply union_subseteq_r| |]; intros k H1 H2.
    + apply elem_of_union in H1 as [->%elem_of_singleton|?]; [apply T|done].
    + unfold uused. rewrite Hup. fold (uused (mm s2) k). rewrite Hused by done. destruct (Z.eqb_spec k j) as [->|]; [|done]. exfalso. apply H2, elem_of_union_l. by apply elem_of_singleton.
  - destruct (print_run s3 "fail"%string [] (Stdio.chars "fail"%string ++ [10]) ltac:(apply P3) ltac:(apply P3)) as (E7 & L1 & L2); [by vm_compute|done|].
    mstep E7. rewrite Htabs in P3 by done. pose proof (proc_ok_con _ _ _ _ _ P3 L1 L2) as P4.
    assert (upage (mm s3) j = upage (mm s) j) as Eu3 by (rewrite <- Eup; unfold page_addr; by rewrite Hup).
    destruct (give_page_back _ _ _ _ j P4) as (p3 & E5 & P5 & Hk5 & Hker); cbn in *.
    { unfold ucnt. rewrite Hup. fold (ucnt p). by rewrite (same_place_ucnt (mm s)) by apply U1. }
    { unfold uused. rewrite Hup. fold (uused p j). rewrite (ut_used _ _ _ T) by lia. by rewrite Z.eqb_refl. } { done. }
    rewrite Eu3 in E5. mstep E5. exists false. eexists _, tabs, own. split; [done|]. split; [exact P5|]. split; [done|]. cbn. rewrite Hfs. split; [done|]. split.
    + split; [done|done|]. intros k Hk _. cbn. rewrite Hk5 by done. unfold uused at 1. rewrite Hup. fold (uused p k). rewrite (ut_used _ _ _ T) by done.
      destruct (Z.eqb_spec k j) as [->|]; [by rewrite (ut_free _ _ _ T)|done].
    + split; [by exists (pos + n)|]. destruct Hout as [H|H]; [by left|]. right; right; right; right. cbn. intros (l & R1 & R2 & R3). apply H. exists l. split_and!; [done|done|].
      unfold kcnt, kused in *. by rewrite Hker in R3.
Qed.
End load_page.

(** ** Segments *)

(** The address space after [k] more pages from number [page] on: they hold the
    [size] bytes of the file from [pos] on, and zeros.  [None] when a page is
    there already or the file is too short. *)
Fixpoint map_pages (k : nat) (file : list Z) (pos page size : Z) (w : bool) (A : aspace) : option aspace :=
  match k with
  | O => Some A
  | S k =>
      let n := Z.min size 4096 in
      if bool_decide (A !! page = None) && (pos + n <=? Z.of_nat (length file)) then
        map_pages k file (pos + n) (page + 1) (size - n) w (<[page := (page_image file pos n, w)]> A)
      else None
  end.

(** What is not changed while the file [f] is loaded. *)
Record loading (s s' : proc) (f : Z) (own own' : gset Z) : Prop := {
  ld_thread : same_thread s s';
  ld_files : moved f (fsys s) (fsys s');
  ld_grew : grew s s' own own'
}.

Lemma loading_refl s f own : loading s s f own own.
Proof. split; [done|apply moved_refl|by apply grew_refl]. Qed.
Lemma loading_trans s1 s2 s3 f o1 o2 o3 : (forall k, k ∈ o3 -> 0 <= k) -> loading s1 s2 f o1 o2 -> loading s2 s3 f o2 o3 -> loading s1 s3 f o1 o3.
Proof.
  intros Hn [A1 A2 A3] [B1 B2 B3]. split; [by eapply same_thread_trans|by eapply moved_trans|by eapply grew_trans].
Qed.
Lemma own_pos s tabs A own k : proc_ok s tabs A own -> k ∈ own -> 0 <= k.
Proof. intros P Hk. by apply (pr_own _ _ _ _ P). Qed.

Lemma next_page va : 0 <= va -> pg_ofs va = 0 -> pg_ofs (va + 4096) = 0 /\ pg_no (va + 4096) = pg_no va + 1.
Proof.
  intros Hva Ha. rewrite !pg_no_div, !pg_ofs_mod in *. unfold PGSIZE in *. replace (va + 4096) with (va + 1 * 4096) by lia.
  by rewrite Z.div_add, Z.mod_add by lia.
Qed.

Section load_pages.
Context (f : Z) (i : inode) (w : bool).

Lemma load_pages_run k s tabs A own pos va r z :
  proc_ok s tabs A own -> opened (fsys s) f i pos -> 0 <= pos <= length_ (data i) ->
  0 <= va -> va + 4096 * Z.of_nat k <= KERN_BASE -> pg_ofs va = 0 -> 0 <= r < 2 ^ 32 -> 0 <= z < 2 ^ 32 -> r + z = 4096 * Z.of_nat k ->
  exists b s' tabs' A' own', load_pages k f va r z w s = Ok (b, s') /\ proc_ok s' tabs' A' own' /\ loading s s' f own own' /\ A ⊆ A' /\
    (exists pos', opened (fsys s') f i pos') /\
    let spec := map_pages k (contents (fsys s) i) pos (pg_no va) r w A in
    if b then spec = Some A' else spec = None \/ allocs (fsys s) <> [] \/ low_memory s'.
Proof using Type.
  revert s tabs A own pos va r z. induction k as [|k IH]; intros s tabs A own pos va r z P O Hpos Hva Hend Hal Hr Hz Hsum; cbn [load_pages map_pages].
  { destruct (Z.ltb_spec 0 r), (Z.ltb_spec 0 z); try lia. cbn [orb]. exists true, s, tabs, A, own.
    split; [done|]. split; [done|]. split; [apply loading_refl|]. split; [done|]. split; [by exists pos|done]. }
  replace ((0 <? r) || (0 <? z)) with true by (destruct (Z.ltb_spec 0 r), (Z.ltb_spec 0 z); cbn; lia || done).
  set (n := if r <? PGSIZE then r else PGSIZE). assert (n = Z.min r 4096) as En by (unfold n, PGSIZE; destruct (Z.ltb_spec r 4096); lia).
  rewrite <- En. pose proof (Inode.length_contents _ _ (op_disk _ _ _ _ O) (op_inode _ _ _ _ O)) as Hlen.
  destruct (load_page_run s tabs A own f i pos va n w P O Hpos ltac:(lia) Hal ltac:(lia)) as (b & s1 & tabs1 & own1 & E & P1 & T1 & M1 & G1 & Ho & Hb).
  mstep E. assert (loading s s1 f own own1) as L1 by by split. destruct b; cbn [negb].
  - destruct Hb as (Hfresh & Hle & O1). rewrite bool_decide_true by done. rewrite Hlen, (proj2 (Z.leb_le _ _)) by lia. cbn [andb].
    destruct (next_page va Hva Hal) as [Ha' Hno']. rewrite <- Hno'.
    rewrite (wrapu_id 64) by (unfold PGSIZE, KERN_BASE in *; split; lia). unfold PGSIZE in *. rewrite !(wrapu_id 32) by (split; lia).
    destruct (IH s1 tabs1 _ own1 (pos + n) (va + 4096) (r - n) (z - (4096 - n)) P1 O1) as (b & s2 & tabs2 & A2 & own2 & E2 & P2 & L2 & Hsub & Ho2 & Hb2);
      [lia|lia|lia|done|lia|lia|lia|]. rewrite E2. exists b, s2, tabs2, A2, own2. split; [done|]. split; [done|].
    split; [eapply loading_trans; [intros k0; by eapply own_pos|done|done]|].
    split; [etrans; [|exact Hsub]; by apply insert_subseteq|]. split; [done|].
    rewrite (moved_contents _ _ _ _ M1) in Hb2. unfold file_page in *. destruct b; [done|].
    destruct Hb2 as [H|[H|H]]; [by left|right; left|by right; right]. intros Ha. by apply H, (moved_allocs _ _ _ M1).
  - exists false, s1, tabs1, A, own1. split; [done|]. split; [done|]. split; [done|]. split; [done|]. split; [done|].
    destruct Hb as [[x H]|[H|[H|H]]]; [left; by rewrite bool_decide_false by (by rewrite H)| |by right; left|by right; right].
    left. rewrite Hlen, (proj2 (Z.leb_gt _ _)) by lia. by rewrite andb_false_r.
Qed.

Lemma load_segment_run s tabs A own pos ofs va r z :
  proc_ok s tabs A own -> opened (fsys s) f i pos -> 0 <= ofs <= length_ (data i) -> ofs mod 4096 = 0 ->
  0 <= va -> va + r + z <= KERN_BASE -> pg_ofs va = 0 -> 0 <= r < 2 ^ 32 -> 0 <= z < 2 ^ 32 -> (r + z) mod 4096 = 0 ->
  exists b s' tabs' A' own', load_segment f ofs va r z w s = Ok (b, s') /\ proc_ok s' tabs' A' own' /\ loading s s' f own own' /\ A ⊆ A' /\
    (exists pos', opened (fsys s') f i pos') /\
    let spec := map_pages (Z.to_nat ((r + z) / 4096)) (contents (fsys s) i) ofs (pg_no va) r w A in
    if b then spec = Some A' else spec = None \/ allocs (fsys s) <> [] \/ low_memory s'.
Proof using Type.
  intros P O Hofs Hom Hva Hend Hal Hr Hz Hm. unfold load_segment.
  pose proof (Z.div_mod (r + z) 4096 ltac:(lia)) as Hd. rewrite Hm in Hd.
  assert (u32 (r + z) mod PGSIZE = 0) as ->.
  { unfold wrapu, PGSIZE. change (2 ^ 32) with (4096 * 1048576). rewrite Z.rem_mul_r by lia. rewrite Hm, Z.add_0_l, Z.mul_comm. by rewrite Z.mod_mul. }
  rewrite Hal. rewrite Z.rem_mod_nonneg by (unfold PGSIZE; lia). unfold PGSIZE. rewrite Hom. mnorm.
  destruct (file_seek_run (fsys s) f i pos ofs O ltac:(lia)) as (x1 & E1 & O1 & M1). mstep (on_fs_run _ s _ _ E1).
  destruct (load_pages_run (Z.to_nat ((r + z) / 4096)) (with_fs s x1) tabs A own ofs va r z) as (b & s' & tabs' & A' & own' & E & P' & L & Hsub & Ho & Hb);
    [by apply proc_ok_fs|done|done|done|rewrite Z2Nat.id; lia|done|done|done|rewrite Z2Nat.id; lia|].
  exists b, s', tabs', A', own'. rewrite E. split; [done|]. split; [done|]. split.
  { eapply loading_trans; [intros k; by eapply own_pos| |exact L]. split; [done|done|by apply grew_refl]. }
  split; [done|]. split; [done|]. cbn [fsys with_fs] in Hb. rewrite (moved_contents _ _ _ _ M1) in Hb. destruct b; [done|].
  destruct Hb as [H|[H|H]]; [by left|right; left|by right; right]. intros Ha. by apply H, (moved_allocs _ _ _ M1).
Qed.
End load_pages.

(** ** Program headers *)

Definition phdr_ok (p : ELF64_PHDR) : Prop :=
  is_u64 (p_offset p) /\ is_u64 (p_vaddr p) /\ is_u64 (p_filesz p) /\ is_u64 (p_memsz p).

Lemma field_range ofs len bs : Forall is_u8 bs -> 0 <= field ofs len bs < 256 ^ Z.of_nat len.
Proof.
  intros H. unfold field. pose proof (bytes_word_range (slice ofs len bs) ltac:(by apply Forall_take, Forall_drop)) as Hr.
  split; [lia|]. eapply Z.lt_le_trans; [apply Hr|]. apply Z.pow_le_mono_r; [lia|]. unfold slice. rewrite length_take. lia.
Qed.

Lemma decode_phdr_ok bs : Forall is_u8 bs -> phdr_ok (decode_Phdr bs).
Proof. intros H. repeat split; cbn; by apply (field_range _ 8 bs). Qed.

(** The segments that are accepted: they start behind page 0, end below the
    kernel, are not empty, and the part from the file begins inside it, at the
    same place of a page. *)
Definition valid_segment (p : ELF64_PHDR) (flen : Z) : Prop :=
  p_offset p mod 4096 = p_vaddr p mod 4096 /\ p_offset p <= flen /\ p_filesz p <= p_memsz p /\ 0 < p_memsz p /\
  4096 <= p_vaddr p /\ p_vaddr p + p_memsz p < KERN_BASE.

Lemma validate_spec p flen : phdr_ok p -> 0 <= flen < 2 ^ 31 -> validate_segment p flen = true <-> valid_segment p flen.
Proof.
  intros (H1 & H2 & H3 & H4) Hf. unfold validate_segment, valid_segment, is_user_vaddr, is_kernel_vaddr, is_u in *.
  change PGMASK with (2 ^ 12 - 1). rewrite !land_ones_mod by lia. change (2 ^ 12) with 4096. rewrite (wrapu_id 64 flen) by (split; lia).
  assert (u64 (p_vaddr p + p_memsz p) = p_vaddr p + p_memsz p \/ u64 (p_vaddr p + p_memsz p) = p_vaddr p + p_memsz p - 2 ^ 64 /\ 2 ^ 64 <= p_vaddr p + p_memsz p) as Hw.
  { destruct (Z_lt_ge_dec (p_vaddr p + p_memsz p) (2 ^ 64)); [left; by apply wrapu_id; split; lia|]. right. split; [|lia].
    unfold wrapu. symmetry. apply (Z.mod_unique_pos _ _ 1); lia. }
  set (e := u64 _) in *. unfold KERN_BASE, PGSIZE.
  destruct (Z.eqb_spec (p_offset p mod 4096) (p_vaddr p mod 4096)), (Z.ltb_spec flen (p_offset p)), (Z.ltb_spec (p_memsz p) (p_filesz p)),
    (Z.eqb_spec (p_memsz p) 0), (Z.leb_spec 0x8004000000 (p_vaddr p)), (Z.leb_spec 0x8004000000 e), (Z.ltb_spec e (p_vaddr p)), (Z.ltb_spec (p_vaddr p) 4096);
    cbn [negb]; split; intros; try done; lia.
Qed.

(** The bytes of the pages that a segment touches. *)
Definition segment_span (p : ELF64_PHDR) : Z := (p_vaddr p mod 4096 + p_memsz p + 4095) / 4096 * 4096.

Lemma segment_span_spec p flen : phdr_ok p -> valid_segment p flen ->
  p_vaddr p mod 4096 + p_memsz p <= segment_span p < p_vaddr p mod 4096 + p_memsz p + 4096 /\ segment_span p mod 4096 = 0 /\
  p_vaddr p - p_vaddr p mod 4096 + segment_span p <= KERN_BASE.
Proof.
  intros (H1 & H2 & H3 & H4) (V1 & V2 & V3 & V4 & V5 & V6). unfold segment_span, KERN_BASE in *.
  pose proof (Z.mod_pos_bound (p_vaddr p) 4096 ltac:(lia)). pose proof (Z.div_mod (p_vaddr p) 4096 ltac:(lia)).
  set (x := p_vaddr p mod 4096 + p_memsz p + 4095). pose proof (Z.div_mod x 4096 ltac:(lia)). pose proof (Z.mod_pos_bound x 4096 ltac:(lia)).
  split; [lia|]. split; [by apply Z.mod_mul|]. unfold x in *. lia.
Qed.

Lemma segment_sizes p flen : phdr_ok p -> valid_segment p flen ->
  let r := segment_read_bytes p in let z := segment_zero_bytes p in
  r = (if 0 <? p_filesz p then (p_vaddr p mod 4096 + p_filesz p) mod 2 ^ 32 else 0) /\
  z = (segment_span p - r) mod 2 ^ 32 /\
  (0 <= r < 2 ^ 32) /\ (0 <= z < 2 ^ 32) /\ (r + z) mod 4096 = 0 /\ r + z <= segment_span p.
Proof.
  intros Hp Hv. destruct (segment_span_spec p flen Hp Hv) as (S1 & S2 & S3). destruct Hp as (H1 & H2 & H3 & H4), Hv as (V1 & V2 & V3 & V4 & V5 & V6).
  unfold segment_zero_bytes, segment_read_bytes, segment_span, KERN_BASE, is_u in *. change PGMASK with (2 ^ 12 - 1). rewrite !land_ones_mod by lia.
  change (2 ^ 12) with 4096. unfold ROUND_UP, DIV_ROUND_UP, PGSIZE in *. set (po := p_vaddr p mod 4096) in *.
  assert (0 <= po < 4096) as Hpo by (by apply Z.mod_pos_bound). set (span := (po + p_memsz p + 4095) / 4096 * 4096) in *.
  rewrite (wrapu_id 64 (po + p_memsz p)) by (split; lia). rewrite (wrapu_id 64 (po + p_memsz p + 4096)) by (split; lia).
  rewrite (wrapu_id 64 (po + p_memsz p + 4096 - 1)) by (split; lia). replace (po + p_memsz p + 4096 - 1) with (po + p_memsz p + 4095) by lia. fold span.
  rewrite (wrapu_id 64 span) by (split; lia). rewrite (wrapu_id 64 (po + p_filesz p)) by (split; lia).
  assert (forall r, 0 <= r < 2 ^ 32 -> r <= span ->
    (0 <= (span - r) mod 2 ^ 32 < 2 ^ 32) /\ (r + (span - r) mod 2 ^ 32) mod 4096 = 0 /\ r + (span - r) mod 2 ^ 32 <= span) as Hz.
  { intros r Hr Hle. pose proof (Z.mod_pos_bound (span - r) (2 ^ 32) ltac:(lia)). pose proof (Z.mod_le (span - r) (2 ^ 32) ltac:(lia) ltac:(lia)).
    split; [done|]. split; [|lia]. rewrite (Z.mod_eq (span - r) (2 ^ 32)) by lia. replace (r + (span - r - 2 ^ 32 * ((span - r) / 2 ^ 32))) with (span + - (1048576 * ((span - r) / 2 ^ 32)) * 4096) by lia.
    by rewrite Z.mod_add by lia. }
  destruct (Z.ltb_spec 0 (p_filesz p)) as [Hfz|Hfz].
  - assert (0 <= (po + p_filesz p) mod 2 ^ 32 < 2 ^ 32) as Hr by by apply Z.mod_pos_bound.
    assert ((po + p_filesz p) mod 2 ^ 32 <= span) as Hle by (pose proof (Z.mod_le (po + p_filesz p) (2 ^ 32) ltac:(lia) ltac:(lia)); lia).
    destruct (Hz _ Hr Hle) as (Z1 & Z2 & Z3). unfold wrapu. set (r := (po + p_filesz p) mod 2 ^ 32) in *.
    rewrite (Z.mod_small (span - r) (2 ^ 64)) by lia. done.
  - destruct (Hz 0 ltac:(lia) ltac:(lia)) as (Z1 & Z2 & Z3). rewrite Z.sub_0_r in *. unfold wrapu. rewrite Z.add_0_l in *.
    split; [done|]. split; [done|]. split; [lia|]. done.
Qed.

(** What a segment adds to the address space. *)
Definition segment_image (file : list Z) (p : ELF64_PHDR) (A : aspace) : option aspace :=
  if validate_segment p (Z.of_nat (length file)) then
    map_pages (Z.to_nat ((segment_read_bytes p + segment_zero_bytes p) / 4096)) file (p_offset p - p_offset p mod 4096) (p_vaddr p / 4096)
      (segment_read_bytes p) (negb (Z.land (p_flags p) PF_W =? 0)) A
  else None.
Definition phdr_image (file : list Z) (p : ELF64_PHDR) (A : aspace) : option aspace :=
  let t := p_type p in
  if (t =? PT_DYNAMIC) || (t =? PT_INTERP) || (t =? PT_SHLIB) then None
  else if t =? PT_LOAD then segment_image file p A else Some A.
(** What the [n] program headers from [ofs] on add. *)
Fixpoint phdrs_image (n : nat) (file : list Z) (ofs : Z) (A : aspace) : option aspace :=
  match n with
  | O => Some A
  | S n =>
      if (ofs <? 0) || (Z.of_nat (length file) <? ofs + 56) then None
      else phdr_image file (decode_Phdr (slice (Z.to_nat ofs) 56 file)) A ≫= phdrs_image n file (s32 (ofs + 56))
  end.

(** What the state satisfies after a part of the loader that should give the
    address space [spec]. *)
Definition loads (f : Z) (i : inode) (s : proc) (A : aspace) (own : gset Z) (spec : option aspace) (b : bool) (s' : proc) : Prop :=
  exists tabs' A' own', proc_ok s' tabs' A' own' /\ loading s s' f own own' /\ A ⊆ A' /\ (exists pos', opened (fsys s') f i pos') /\
    if b then spec = Some A' else spec = None \/ allocs (fsys s) <> [] \/ low_memory s'.

(** Nothing but the position of the file has changed. *)
Lemma loads_stop f i s tabs A own x pos spec (b : bool) :
  proc_ok s tabs A own -> opened x f i pos -> moved f (fsys s) x -> (if b then spec = Some A else spec = None \/ allocs (fsys s) <> []) ->
  loads f i s A own spec b (with_fs s x).
Proof.
  intros P O Hm Hb. exists tabs, A, own. split; [by apply proc_ok_fs|]. split; [split; [done|done|by apply grew_refl]|]. split; [done|].
  split; [by exists pos|]. destruct b; [done|]. destruct Hb as [H|H]; [by left|by right; left].
Qed.

Lemma loads_here f i s tabs A own pos spec (b : bool) :
  proc_ok s tabs A own -> opened (fsys s) f i pos -> (if b then spec = Some A else spec = None \/ allocs (fsys s) <> []) ->
  loads f i s A own spec b s.
Proof. intros P O Hb. rewrite <- (with_fs_id s) at 2. eapply loads_stop; [done|done|apply moved_refl|done]. Qed.

(** One part after the other. *)
Lemma loads_seq f i s A own s1 A1 own1 spec b s2 :
  loading s s1 f own own1 -> A ⊆ A1 -> loads f i s1 A1 own1 spec b s2 -> loads f i s A own spec b s2.
Proof.
  intros L1 H1 (tabs2 & A2 & own2 & P2 & L2 & H2 & O2 & Hb). exists tabs2, A2, own2. split; [done|].
  split; [eapply loading_trans; [intros k; by eapply own_pos|exact L1|exact L2]|]. split; [by etrans|]. split; [done|].
  destruct b; [done|]. destruct Hb as [H|[H|H]]; [by left|right; left|by right; right]. intros Ha. apply H. by apply (moved_allocs _ _ _ (ld_files _ _ _ _ _ L1)).
Qed.

Section phdrs.
Context (f : Z) (i : inode).

Lemma load_phdr_run s tabs A own pos p :
  proc_ok s tabs A own -> opened (fsys s) f i pos -> phdr_ok p ->
  exists b s', load_phdr f p s = Ok (b, s') /\ loads f i s A own (segment_image (contents (fsys s) i) p A) b s'.
Proof using Type.
  intros P O Hp. pose proof (io_len _ _ (op_inode _ _ _ _ O)) as Hlen.
  unfold load_phdr, segment_image. rewrite (Inode.length_contents _ _ (op_disk _ _ _ _ O) (op_inode _ _ _ _ O)), Z2Nat.id by lia.
  mstep (on_fs_run _ s _ _ (file_length_run _ _ _ _ O)). rewrite with_fs_id. destruct (validate_segment p (length_ (data i))) eqn:Ev.
  2: { exists false, s. split; [done|]. eapply loads_here; [done|done|by left]. }
  apply validate_spec in Ev; [|done|lia]. destruct (segment_sizes p _ Hp Ev) as (_ & _ & Hr & Hz & Hm & Hle).
  destruct (segment_span_spec p _ Hp Ev) as (_ & _ & Hend). pose proof Hp as (H1 & H2 & _ & _). pose proof Ev as (V1 & V2 & V3 & V4 & V5 & V6).
  rewrite !pg_round_down_sub by done. unfold PGSIZE. pose proof (Z.mod_pos_bound (p_vaddr p) 4096 ltac:(lia)) as Hmod.
  pose proof (Z.div_mod (p_vaddr p) 4096 ltac:(lia)) as Hdv. pose proof (Z.div_mod (p_offset p) 4096 ltac:(lia)) as Hdo. pose proof (Z.mod_pos_bound (p_offset p) 4096 ltac:(lia)) as Hmodo.
  unfold is_u in H1, H2. assert (0 <= p_offset p / 4096) by (apply Z.div_pos; lia).
  rewrite (wraps_id 32) by (unfold is_s; lia). set (w := negb _).
  assert (pg_no (p_vaddr p - p_vaddr p mod 4096) = p_vaddr p / 4096) as <-.
  { rewrite pg_no_div. unfold PGSIZE. rewrite Hdv at 1. replace (_ + _ - _) with (p_vaddr p / 4096 * 4096) by lia. by apply Z.div_mul. }
  destruct (load_segment_run f i w s tabs A own pos (p_offset p - p_offset p mod 4096) (p_vaddr p - p_vaddr p mod 4096) (segment_read_bytes p) (segment_zero_bytes p))
    as (b & s' & tabs' & A' & own' & E & P' & L & Hsub & Ho & Hb); [done|done|lia| |lia|lia| |done|done|done|].
  - replace (p_offset p - p_offset p mod 4096) with (p_offset p / 4096 * 4096) by lia. by apply Z.mod_mul.
  - rewrite pg_ofs_mod. unfold PGSIZE. replace (p_vaddr p - p_vaddr p mod 4096) with (p_vaddr p / 4096 * 4096) by lia. by apply Z.mod_mul.
  - rewrite E. exists b, s'. split; [done|]. exists tabs', A', own'. done.
Qed.

Lemma load_phdrs_run n s tabs A own pos ofs :
  proc_ok s tabs A own -> opened (fsys s) f i pos -> is_s32 ofs ->
  exists b s', load_phdrs n f ofs s = Ok (b, s') /\ loads f i s A own (phdrs_image n (contents (fsys s) i) ofs A) b s'.
Proof using Type.
  revert s tabs A own pos ofs. induction n as [|n IH]; intros s tabs A own pos ofs P O Hofs; cbn [load_phdrs phdrs_image].
  { exists true, s. split; [done|]. by eapply loads_here. }
  pose proof (io_len _ _ (op_inode _ _ _ _ O)) as Hlen. rewrite (Inode.length_contents _ _ (op_disk _ _ _ _ O) (op_inode _ _ _ _ O)), Z2Nat.id by lia.
  mstep (on_fs_run _ s _ _ (file_length_run _ _ _ _ O)). rewrite with_fs_id. set (flen := length_ (data i)) in *.
  destruct ((ofs <? 0) || (flen <? ofs)) eqn:Eb.
  { exists false, s. split; [done|]. eapply loads_here; [done|done|]. left. revert Eb.
    destruct (Z.ltb_spec ofs 0), (Z.ltb_spec flen ofs), (Z.ltb_spec flen (ofs + 56)); cbn; lia || done. }
  apply orb_false_iff in Eb as [Eo1%Z.ltb_ge Eo2%Z.ltb_ge]. rewrite (proj2 (Z.ltb_ge ofs 0)) by done. cbn [orb].
  destruct (file_seek_run (fsys s) f i pos ofs O Eo1) as (x1 & E1 & O1 & M1). mstep (on_fs_run _ s _ _ E1).
  destruct (file_read_run x1 f i ofs 56 O1 ltac:(lia) ltac:(lia)) as (m & x2 & E2 & Hm & Hle & Hall & Hl & O2 & M2).
  change (file_read f sizeof_Phdr) with (file_read f 56). mstep (on_fs_run _ (with_fs s x1) _ _ E2). rewrite Hl. unfold sizeof_Phdr.
  pose proof (moved_trans _ _ _ _ M1 M2) as M12. destruct (Z.eqb_spec m 56) as [->|Hne]; cbn [negb].
  2: { exists false. eexists. split; [done|]. eapply (loads_stop f i s tabs A own x2); [done|exact O2|done|]. destruct (Z.ltb_spec flen (ofs + 56)); [by left|].
       right. intros Ha. apply Hne. rewrite Hall by by eapply moved_allocs. lia. }
  rewrite (proj2 (Z.ltb_ge flen (ofs + 56))) by lia. rewrite (moved_contents _ _ _ i M1) in *. change (Z.to_nat 56) with 56%nat.
  set (bs := slice (Z.to_nat ofs) 56 (contents (fsys s) i)). set (p := decode_Phdr bs).
  assert (phdr_ok p) as Hp by (apply decode_phdr_ok, Forall_take, Forall_drop, O). unfold phdr_image.
  set (s2 := with_fs s x2). change (with_fs (with_fs s x1) x2) with s2.
  assert (proc_ok s2 tabs A own) as P2 by by apply proc_ok_fs.
  assert (loading s s2 f own own) as L2 by (split; [done|done|by apply grew_refl]).
  assert (is_s32 (s32 (ofs + 56))) as Hn by by apply wraps_range.
  destruct ((p_type p =? PT_DYNAMIC) || (p_type p =? PT_INTERP) || (p_type p =? PT_SHLIB)).
  { mnorm. exists false, s2. split; [done|]. eapply loads_stop; [done|exact O2|done|by left]. }
  destruct (p_type p =? PT_LOAD).
  - destruct (load_phdr_run s2 tabs A own (ofs + 56) p P2 O2 Hp) as (b & s3 & E3 & tabs3 & A3 & own3 & P3 & L3 & Hsub & (pos3 & O3) & Hb). mstep E3.
    change (fsys s2) with x2 in Hb. rewrite (moved_contents _ _ _ i M12) in Hb. assert (loading s s3 f own own3) as L13 by (eapply loading_trans; [intros k; by eapply own_pos|done|done]).
    destruct b.
    + rewrite Hb. cbn [mbind option_bind]. destruct (IH s3 tabs3 A3 own3 pos3 (s32 (ofs + 56)) P3 O3 Hn) as (b & s4 & E4 & H4). exists b, s4. split; [done|].
      eapply (loads_seq f i s A own s3); [done|done|].
      by rewrite (moved_contents _ _ _ i (ld_files _ _ _ _ _ L13)) in H4.
    + exists false, s3. split; [done|]. exists tabs3, A3, own3. split; [done|]. split; [done|]. split; [done|]. split; [by exists pos3|].
      destruct Hb as [H|[H|H]]; [left; by rewrite H|right; left|by right; right]. intros Ha. by apply H, (moved_allocs _ _ _ M12).
  - mnorm. cbn [mbind option_bind]. destruct (IH s2 tabs A own (ofs + 56) (s32 (ofs + 56)) P2 O2 Hn) as (b & s4 & E4 & H4). exists b, s4. split; [done|].
    change (fsys s2) with x2 in H4. rewrite (moved_contents _ _ _ i M12) in H4.
    by eapply (loads_seq f i s A own s2).
Qed.
End phdrs.

(** ** The stack, and the whole file *)

Definition stack_page : Z := pg_no (USER_STACK - PGSIZE).
Definition stack_image (A : aspace) : option aspace :=
  match A !! stack_page with None => Some (<[stack_page := (replicate 4096 0, true)]> A) | Some _ => None end.

Definition set_rsp (i : intr_frame) (v : Z) : intr_frame := Frame (f_ds i) (f_es i) (f_ss i) (f_cs i) (f_eflags i) (f_rip i) v.
Definition set_rip (i : intr_frame) (v : Z) : intr_frame := Frame (f_ds i) (f_es i) (f_ss i) (f_cs i) (f_eflags i) v (f_rsp i).

Lemma setup_stack_run f i s tabs A own pos fr :
  proc_ok s tabs A own -> opened (fsys s) f i pos ->
  exists b s', setup_stack fr s = Ok ((b, if b : bool then set_rsp fr USER_STACK else fr), s') /\ loads f i s A own (stack_image A) b s'.
Proof.
  intros P O. pose proof (pr_space _ _ _ _ P) as S. pose proof (sp_pools _ _ _ S) as Hp. pose proof (sp_bytes _ _ _ S) as Hb. pose proof (pr_ubase _ _ _ _ P) as Hub.
  unfold setup_stack. destruct (uget_run (mm s) (Z.lor PAL_USER PAL_ZERO) Hp Hb eq_refl eq_refl) as [(j & p & E1 & T & Hz & Hr1)|[E1 Hfull]].
  2: { mstep (on_user_run _ s _ _ E1). replace (with_user s (mm s)) with s by by destruct s as [[] ? ? ? ? ?]. exists false, s. split; [done|].
       exists tabs, A, own. split; [done|]. split; [apply loading_refl|]. split; [done|]. split; [by exists pos|]. right; right; by left. }
  mstep (on_user_run _ s _ _ E1). pose proof (ut_range _ _ _ T) as Hj. destruct (upage_facts (mm s) j Hp Hub Hj) as (F1 & F2 & F3 & F4).
  rewrite (proj2 (Z.eqb_neq _ NULL) F4). cbn [negb]. destruct (frame_taken _ _ _ _ _ _ P T) as [Hjo Hne]. pose proof (ut_only _ _ _ T) as U1.
  pose proof (same_place_upage _ _ j (uo_place _ _ U1)) as Eup. set (s1 := with_user s p).
  assert (proc_ok s1 tabs A own) as P1.
  { eapply proc_ok_frame; [done|done|exact Hjo| |done]. intros k Hk. destruct (pr_own _ _ _ _ P k Hk) as [Hkr _].
    rewrite (ut_used _ _ _ T) by lia. by rewrite (proj2 (Z.eqb_neq k j)) by by apply Hne. }
  assert (0 <= j < ucnt p) as Hj1 by by rewrite (same_place_ucnt (mm s)) by apply U1.
  assert (uused p j = true) as Hu1 by (rewrite (ut_used _ _ _ T) by lia; by rewrite Z.eqb_refl).
  destruct (install_page_run s1 tabs A own (USER_STACK - PGSIZE) j true (replicate 4096 0) P1) as (b & s2 & tabs2 & E2 & P2 & Hout & Hst & Hfs & Hco & Hup & Htabs);
    [unfold KERN_BASE, USER_STACK, PGSIZE; lia|done|done|done|by rewrite length_replicate|change (upage (mm s1) j) with (upage p j); rewrite Eup; by apply Hz|].
  change (upage (mm s1) j) with (upage p j) in E2. rewrite Eup in E2. mstep E2. fold stack_page in P2, Hout.
  assert (forall k, uused (mm s2) k = uused p k) as Hu2 by (intros k; unfold uused; by rewrite Hup). unfold loads, stack_image. destruct b.
  - exists true, s2. split; [done|]. exists tabs2. eexists _, _. split; [exact P2|]. split.
    + split; [done|by rewrite Hfs; apply moved_refl|]. split; [apply union_subseteq_r| |]; intros k H1 H2.
      * apply elem_of_union in H1 as [->%elem_of_singleton|?]; [apply T|done].
      * rewrite Hu2, (ut_used _ _ _ T) by done. destruct (Z.eqb_spec k j) as [->|]; [|done]. exfalso. apply H2, elem_of_union_l. by apply elem_of_singleton.
    + split; [by apply insert_subseteq|]. split; [exists pos; by rewrite Hfs|]. by rewrite Hout.
  - assert (upage (mm s2) j = upage (mm s) j) as Eu2 by (rewrite <- Eup; unfold page_addr; by rewrite Hup). rewrite Htabs in P2 by done.
    destruct (give_page_back s2 tabs A own j P2) as (p3 & E3 & P3 & Hk3 & Hker); [unfold ucnt; by rewrite Hup|by rewrite Hu2|done|].
    rewrite Eu2 in E3. mstep E3. exists false. eexists. split; [done|]. exists tabs, A, own. split; [exact P3|]. split.
    + split; [done|cbn; rewrite Hfs; apply moved_refl|]. split; [done|done|]. intros k Hk _. cbn. rewrite Hk3, Hu2, (ut_used _ _ _ T) by done.
      destruct (Z.eqb_spec k j) as [->|]; [by rewrite (ut_free _ _ _ T)|done].
    + split; [done|]. split; [exists pos; cbn; by rewrite Hfs|]. destruct Hout as [[x H]|H]; [left; by rewrite H|]. right; right; right. cbn.
      intros (l & R1 & R2 & R3). apply H. exists l. split_and!; [done|done|]. unfold kcnt, kused in *. by rewrite Hker in R3.
Qed.

(** The address space and the entry point of an executable. *)
Definition exec_image (file : list Z) (A : aspace) : option aspace :=
  let e := decode_ELF (slice 0 64 file) in
  if (64 <=? Z.of_nat (length file)) && good_header e then
    phdrs_image (Z.to_nat (e_phnum e)) file (s32 (e_phoff e)) A ≫= stack_image
  else None.

Lemma load_text fuel N m name l text :
  cstr m name l -> name < 2 ^ 64 -> (length l < fuel)%nat -> Z.of_nat (length l) < 2 ^ 31 ->
  Forall (fun c => c <> 0 /\ c <> 37) text -> (length text + 9 <= N)%nat ->
  Stdio.__vprintf StdioSpec.collect fuel N (Stdio.chars "load: "%string ++ Stdio.chars "%s"%string ++ (text ++ [10]) ++ [0]) [name] (m, []) =
    Ok (tt, (m, Stdio.chars "load: "%string ++ l ++ text ++ [10])).
Proof.
  intros Hc Hn Hl Hl2 Ht HN. assert (0 < name) as H0 by apply Hc.
  assert (Forall (fun c => c <> 0 /\ c <> 37) (text ++ [10])) as Ht' by (apply Forall_app_2; [done|by repeat constructor]).
  replace N with (length (Stdio.chars "load: "%string) + S (length (text ++ [10%Z]) + S (N - length text - 9)))%nat by (rewrite length_app; cbn; lia).
  rewrite StdioSpec.vprintf_text by (repeat constructor; done). rewrite (StdioSpec.vprintf_string fuel _ _ _ _ _ name l) by (done || lia).
  rewrite (StdioSpec.vprintf_text fuel (text ++ [10])) by exact Ht'. cbn [app]. by rewrite <- app_assoc.
Qed.

Lemma load_message s name l text format :
  lock_ok (con s) -> available (con s) = true -> cstr (ram (mm s)) name l -> name < 2 ^ 64 -> (length l < 4096)%nat ->
  Forall (fun c => c <> 0 /\ c <> 37) text -> (length text < 50)%nat -> Stdio.chars format = Stdio.chars "load: "%string ++ Stdio.chars "%s"%string ++ text ->
  exists c, print format [name] s = Ok (tt, with_con s c) /\ lock_ok c /\ available c = true.
Proof.
  intros H1 H2 Hc Hn Hl Ht Hlt Ef.
  destruct (print_run s format [name] (Stdio.chars "load: "%string ++ l ++ text ++ [10]) H1 H2) as (E & L1 & L2); [| |by eexists].
  - rewrite Ef, <- !app_assoc. change (text ++ [10; 0]) with (text ++ [10] ++ [0]). rewrite (app_assoc text [10] [0]). apply load_text; try done; lia.
  - rewrite !length_app. change (length (Stdio.chars "load: "%string)) with 6%nat. cbn [length]. lia.
Qed.

Lemma load_file_run s tabs A own f i name l fr :
  proc_ok s tabs A own -> opened (fsys s) f i 0 -> cstr (ram (mm s)) name l -> name < 2 ^ 64 -> (length l < 4096)%nat ->
  let file := contents (fsys s) i in
  exists b fr' s', load_file name f fr s = Ok ((b, fr'), s') /\ loads f i s A own (exec_image file A) b s' /\
    if b : bool then fr' = set_rip (set_rsp fr USER_STACK) (e_entry (decode_ELF (slice 0 64 file))) else fr' = fr.
Proof.
  intros P O Hc Hn Hl file. pose proof (io_len _ _ (op_inode _ _ _ _ O)) as Hlen.
  pose proof (Inode.length_contents _ _ (op_disk _ _ _ _ O) (op_inode _ _ _ _ O)) as Hfl. fold file in Hfl. unfold load_file, exec_image.
  destruct (file_read_run (fsys s) f i 0 64 O ltac:(lia) ltac:(lia)) as (m & x1 & E1 & Hm & Hle & Hall & Hll & O1 & M1).
  change (file_read f sizeof_ELF) with (file_read f 64). mstep (on_fs_run _ s _ _ E1). rewrite Hll. change (Z.to_nat 0) with 0%nat. fold file. unfold sizeof_ELF.
  assert (forall (b : bool), (if b then False else exec_image file A = None \/ allocs (fsys s) <> []) ->
    exists b' fr' s', (print "load: %s: error loading executable"%string [name];; ret (false, fr)) (with_fs s x1) = Ok ((b', fr'), s') /\
      loads f i s A own (exec_image file A) b' s' /\ if b' : bool then fr' = set_rip (set_rsp fr USER_STACK) (e_entry (decode_ELF (slice 0 64 file))) else fr' = fr) as Hbad.
  { intros b Hb. destruct b; [done|]. destruct (load_message (with_fs s x1) name l (Stdio.chars ": error loading executable"%string) "load: %s: error loading executable"%string)
      as (c & E2 & L1 & L2); try done; try apply P; [repeat constructor; done|cbn; lia|].
    mstep E2. exists false, fr. eexists. split; [done|]. split; [|done]. exists tabs, A, own. split; [by apply proc_ok_con; [apply proc_ok_fs|..]|].
    split; [split; [done|done|by apply grew_refl]|]. split; [done|]. split; [by exists (0 + m)|]. destruct Hb as [H|H]; [by left|by right; left]. }
  unfold exec_image in Hbad. destruct (Z.eqb_spec m 64) as [->|Hne]; cbn [andb].
  2: { cbn [negb]. apply (Hbad false). destruct (Z.leb_spec 64 (Z.of_nat (length file))); cbn [andb]; [|by left]. right. intros Ha. rewrite Hall in Hne by done. lia. }
  change (Z.to_nat 64) with 64%nat. rewrite (proj2 (Z.leb_le 64 _)) in Hbad |- * by lia. cbn [andb] in Hbad |- *.
  set (e := decode_ELF (slice 0 64 file)) in *. destruct (good_header e); cbn [negb]; [|apply (Hbad false); by left]. clear Hbad.
  set (s1 := with_fs s x1). assert (proc_ok s1 tabs A own) as P1 by by apply proc_ok_fs.
  assert (loading s s1 f own own) as L1 by (split; [done|done|by apply grew_refl]).
  destruct (load_phdrs_run f i (Z.to_nat (e_phnum e)) s1 tabs A own 64 (s32 (e_phoff e)) P1 O1) as (b & s2 & E2 & H2); [by apply wraps_range|].
  mstep E2. change (fsys s1) with x1 in H2. rewrite (moved_contents _ _ _ i M1) in H2. fold file in H2.
  pose proof (loads_seq _ _ _ _ _ _ _ _ _ _ _ L1 ltac:(done) H2) as (tabs2 & A2 & own2 & P2 & L2 & Hs2 & (pos2 & O2) & Hb2). clear H2. destruct b; cbn [negb].
  2: { exists false, fr, s2. split; [done|]. split; [|done]. exists tabs2, A2, own2. split; [done|]. split; [done|]. split; [done|]. split; [by exists pos2|].
       destruct Hb2 as [H|[H|H]]; [left; by rewrite H|by right; left|by right; right]. }
  destruct (setup_stack_run f i s2 tabs2 A2 own2 pos2 fr P2 O2) as (b & s3 & E3 & H3). mstep E3. rewrite Hb2. cbn [mbind option_bind].
  pose proof (loads_seq _ _ _ _ _ _ _ _ _ _ _ L2 Hs2 H3) as H4. destruct b; cbn [negb].
  - exists true. eexists _, s3. split; [done|]. split; [done|]. done.
  - exists false, fr, s3. done.
Qed.

(** ** The bytes of a segment *)

(** The byte at offset [x] of a segment with [size] bytes of the file from [pos]
    on. *)
Definition segment_byte (file : list Z) (pos size x : Z) : Z := if x <? size then nth (Z.to_nat (pos + x)) file 0 else 0.

Lemma page_image_byte file pos n o : 0 <= pos -> 0 <= n <= 4096 -> pos + n <= Z.of_nat (length file) -> 0 <= o < 4096 ->
  page_image file pos n !! Z.to_nat o = Some (segment_byte file pos n o).
Proof.
  intros Hp Hn Hl Ho. unfold page_image, segment_byte. assert (length (slice (Z.to_nat pos) (Z.to_nat n) file) = Z.to_nat n) as Hs by (apply length_slice; lia).
  destruct (Z.ltb_spec o n).
  - rewrite lookup_app_l by lia. rewrite lookup_slice by lia. replace (Z.to_nat (pos + o)) with (Z.to_nat pos + Z.to_nat o)%nat by lia.
    destruct (nth_lookup_or_length file (Z.to_nat pos + Z.to_nat o) 0) as [->|]; [done|lia].
  - rewrite lookup_app_r by lia. apply lookup_replicate_2. lia.
Qed.

Lemma map_pages_spec k file w : forall pos page size A A', map_pages k file pos page size w A = Some A' -> 0 <= pos -> 0 <= size <= 4096 * Z.of_nat k ->
  pos + size <= Z.of_nat (length file) \/ k = O /\ size = 0.
Proof.
  induction k as [|k IH]; intros pos page size A A' E Hp Hs; cbn [map_pages] in E; [right; lia|]. left.
  destruct (bool_decide _ && _) eqn:Eb; [|done]. apply andb_true_iff in Eb as [_ Hle%Z.leb_le].
  destruct (Z_le_gt_dec size 4096); [lia|]. destruct (IH _ _ _ _ _ E) as [H|[-> H]]; lia.
Qed.

Lemma map_pages_bytes k file w : forall pos page size A A', map_pages k file pos page size w A = Some A' -> 0 <= pos -> 0 <= size <= 4096 * Z.of_nat k ->
  (forall q, page <= q < page + Z.of_nat k -> A !! q = None /\
     exists bs, A' !! q = Some (bs, w) /\ length bs = 4096%nat /\
       forall o, 0 <= o < 4096 -> bs !! Z.to_nat o = Some (segment_byte file pos size (4096 * (q - page) + o))) /\
  (forall q, ~ (page <= q < page + Z.of_nat k) -> A' !! q = A !! q).
Proof.
  induction k as [|k IH]; intros pos page size A A' E Hp Hs; cbn [map_pages] in E.
  { injection E as <-. split; [lia|done]. }
  destruct (bool_decide _ && _) eqn:Eb; [|done]. apply andb_true_iff in Eb as [Hf%bool_decide_eq_true Hle%Z.leb_le]. set (n := Z.min size 4096) in *.
  destruct (IH _ _ _ _ _ E ltac:(lia) ltac:(lia)) as [H1 H2]. split; intros q Hq.
  - destruct (decide (q = page)) as [->|Hne].
    + split; [done|]. rewrite H2, lookup_insert_eq by lia. eexists. split; [done|]. split.
      { unfold page_image. rewrite length_app, length_replicate, length_slice by lia. lia. }
      intros o Ho. rewrite page_image_byte by lia. f_equal. unfold segment_byte. replace (4096 * (page - page) + o) with o by lia.
      destruct (Z.ltb_spec o n), (Z.ltb_spec o size); try lia; done.
    + destruct (H1 q ltac:(lia)) as (G1 & bs & G2 & G3 & G4). rewrite lookup_insert_ne in G1 by done. split; [done|]. exists bs. split; [done|]. split; [done|].
      intros o Ho. rewrite G4 by done. f_equal. unfold segment_byte.
      destruct (Z_lt_ge_dec size 4096).
      * replace (size - n) with 0 by lia. rewrite !(proj2 (Z.ltb_ge _ _)) by lia. done.
      * replace n with 4096 by lia. replace (pos + 4096 + (4096 * (q - (page + 1)) + o)) with (pos + (4096 * (q - page) + o)) by lia.
        destruct (Z.ltb_spec (4096 * (q - (page + 1)) + o) (size - 4096)), (Z.ltb_spec (4096 * (q - page) + o) size); lia || done.
  - rewrite H2 by lia. rewrite lookup_insert_ne by lia. done.
Qed.

(** The byte a process reads at [va], through its page tables. *)
Definition user_byte (s : proc) (va : Z) : option Z :=
  match pml4_get_page (pml4 s) va (hw s) with Ok (a, _) => if a =? NULL then None else ram (mm s) a | _ => None end.
(** Whether it may write there. *)
Definition user_writable (s : proc) (tabs : gmap (list Z) Z) (va : Z) : bool := has_flag (pte (mm s) tabs va) PTE_W.

Lemma user_byte_spec s tabs A own va : proc_ok s tabs A own -> 0 <= va < KERN_BASE ->
  match A !! pg_no va with
  | Some (bs, w) => user_byte s va = bs !! Z.to_nat (pg_ofs va) /\ user_writable s tabs va = w
  | None => user_byte s va = None
  end.
Proof.
  intros P Hva. pose proof (pr_space _ _ _ _ P) as S. unfold user_byte, user_writable. rewrite (get_page_translate S Hva).
  pose proof (pr_rep _ _ _ _ P va Hva) as R. unfold translate. destruct (A !! pg_no va) as [[bs w]|]; [|by rewrite R].
  destruct R as (Hl & j & [Hj _]%(pr_own _ _ _ _ P) & -> & Hb).
  destruct (upage_facts (mm s) j (sp_pools _ _ _ S) (pr_ubase _ _ _ _ P) Hj) as (F1 & F2 & F3 & F4). rewrite pg_ofs_mod in F3. unfold PGSIZE in F3.
  rewrite present_bit, entry_flags, entry_addr by (done || (destruct w; lia)). replace (Z.testbit (if w then 7 else 5) 0) with true by by destruct w.
  pose proof (Z.mod_pos_bound va 4096 ltac:(lia)). rewrite pg_ofs_mod. unfold PGSIZE, KERN_BASE, NULL in *. rewrite wrapu_id by (split; lia).
  rewrite (proj2 (Z.eqb_neq _ 0)) by lia. split.
  - destruct (lookup_lt_is_Some_2 bs (Z.to_nat (va mod 4096)) ltac:(lia)) as [x Hx]. rewrite Hx. replace (va mod 4096) with (Z.of_nat (Z.to_nat (va mod 4096))) by lia.
    by apply Hb.
  - change PTE_W with (2 ^ 1). rewrite has_flag_bit, entry_flags by (done || lia). by destruct w.
Qed.

Lemma page_split va o : 0 <= va -> pg_ofs va = 0 -> 0 <= o ->
  pg_no (va + o) = pg_no va + o / 4096 /\ pg_ofs (va + o) = o mod 4096 /\ va = 4096 * pg_no va.
Proof.
  intros Hva Ha Ho. rewrite !pg_no_div, !pg_ofs_mod in *. unfold PGSIZE in *. pose proof (Z.div_mod va 4096 ltac:(lia)) as E. rewrite Ha in E.
  rewrite E at 1 3. replace (4096 * (va / 4096) + 0 + o) with (o + va / 4096 * 4096) by lia. rewrite Z.div_add, Z.mod_add by lia. lia.
Qed.

Lemma map_pages_none k file w : forall pos page size A, map_pages k file pos page size w A = None -> 0 <= pos -> 0 <= size <= 4096 * Z.of_nat k ->
  (exists q, page <= q < page + Z.of_nat k /\ is_Some (A !! q)) \/ Z.of_nat (length file) < pos + size.
Proof.
  induction k as [|k IH]; intros pos page size A E Hp Hs; cbn [map_pages] in E; [done|]. destruct (bool_decide _ && _) eqn:Eb.
  - apply andb_true_iff in Eb as [Hf%bool_decide_eq_true Hle%Z.leb_le]. destruct (IH _ _ _ _ E ltac:(lia) ltac:(lia)) as [(q & Hq & Hs')|H]; [|right; lia].
    left. exists q. split; [lia|]. by rewrite lookup_insert_ne in Hs' by lia.
  - apply andb_false_iff in Eb as [Hf%bool_decide_eq_false|Hle%Z.leb_gt]; [|right; lia]. left. exists page. split; [lia|]. by apply not_eq_None_Some.
Qed.

Lemma user_byte_mapped s tabs A own va : proc_ok s tabs A own -> 0 <= va < KERN_BASE -> user_byte s va = None <-> A !! pg_no va = None.
Proof.
  intros P Hva. pose proof (user_byte_spec s tabs A own va P Hva) as H. pose proof (pr_rep _ _ _ _ P va Hva) as R.
  destruct (A !! pg_no va) as [[bs w]|]; [|done]. destruct H as [-> _], R as [Hl _]. split; [|done]. intros E%lookup_ge_None.
  rewrite pg_ofs_mod in E. pose proof (Z.mod_pos_bound va PGSIZE ltac:(done)). unfold PGSIZE in *. lia.
Qed.

(** A page of the address space is read the same from both states. *)
Lemma user_byte_same s tabs A own s' tabs' A' own' va :
  proc_ok s tabs A own -> proc_ok s' tabs' A' own' -> 0 <= va < KERN_BASE -> A' !! pg_no va = A !! pg_no va -> user_byte s' va = user_byte s va.
Proof.
  intros P P' Hva E. pose proof (user_byte_spec s tabs A own va P Hva) as H. pose proof (user_byte_spec s' tabs' A' own' va P' Hva) as H'. rewrite E in H'.
  destruct (A !! pg_no va) as [[bs w]|]; [|congruence]. destruct H, H'. congruence.
Qed.

(** ** Properties *)

(** Loading a segment always comes back.  When it succeeds, the process
    reads the [r] bytes of the file from [ofs] on and then zeros at [va], with
    the wanted permission, in pages that were not mapped before, and every
    other address reads as before.  When it fails, what was mapped reads as
    before, and a page was in the way, the file was too short, or memory was
    short (an allocation of the file system, the frames, or the pages for page
    tables).  The frames come out of the free pages of the user pool, and no
    other page of it is taken or given back. *)
Theorem load_segment_bytes s tabs A own f i pos ofs va r z w :
  proc_ok s tabs A own -> opened (fsys s) f i pos -> 0 <= ofs <= length_ (data i) -> ofs mod 4096 = 0 ->
  0 <= va -> va + r + z <= KERN_BASE -> pg_ofs va = 0 -> 0 <= r < 2 ^ 32 -> 0 <= z < 2 ^ 32 -> (r + z) mod 4096 = 0 ->
  exists b s' tabs' A' own', load_segment f ofs va r z w s = Ok (b, s') /\ proc_ok s' tabs' A' own' /\ loading s s' f own own' /\
    if b then
      (forall x, 0 <= x < r + z -> user_byte s (va + x) = None /\
         user_byte s' (va + x) = Some (segment_byte (contents (fsys s) i) ofs r x) /\ user_writable s' tabs' (va + x) = w) /\
      (forall vb, 0 <= vb < KERN_BASE -> ~ (va <= vb < va + r + z) -> user_byte s' vb = user_byte s vb)
    else
      (forall vb, 0 <= vb < KERN_BASE -> user_byte s vb <> None -> user_byte s' vb = user_byte s vb) /\
      ((exists x, 0 <= x < r + z /\ user_byte s (va + x) <> None) \/ length_ (data i) < ofs + r \/ allocs (fsys s) <> [] \/ low_memory s').
Proof.
  intros P O Hofs Hom Hva Hend Hal Hr Hz Hm. pose proof (Z.div_mod (r + z) 4096 ltac:(lia)) as Hd. rewrite Hm in Hd.
  pose proof (Inode.length_contents _ _ (op_disk _ _ _ _ O) (op_inode _ _ _ _ O)) as Hlen.
  destruct (load_segment_run f i w s tabs A own pos ofs va r z P O Hofs Hom Hva Hend Hal Hr Hz Hm) as (b & s' & tabs' & A' & own' & E & P' & L & Hsub & _ & Hb).
  exists b, s', tabs', A', own'. split; [done|]. split; [done|]. split; [done|]. set (k := Z.to_nat ((r + z) / 4096)) in *.
  assert (Z.of_nat k = (r + z) / 4096) as Ek by (unfold k; lia). destruct b.
  - destruct (map_pages_bytes _ _ _ _ _ _ _ _ Hb ltac:(lia) ltac:(lia)) as [H1 H2]. split.
    + intros x Hx. destruct (page_split va x Hva Hal ltac:(lia)) as (E1 & E2 & _). pose proof (Z.mod_pos_bound x 4096 ltac:(lia)) as Hxm.
      pose proof (Z.div_mod x 4096 ltac:(lia)) as Hxd. destruct (H1 (pg_no (va + x))) as (N1 & bs & N2 & _ & N3); [lia|].
      split; [by apply (user_byte_mapped s tabs A own); [done|lia|]|]. pose proof (user_byte_spec s' tabs' A' own' (va + x) P' ltac:(lia)) as Hu. rewrite N2 in Hu.
      destruct Hu as [-> ->]. split; [|done]. rewrite E2, N3 by done. f_equal. rewrite E1. f_equal. lia.
    + intros vb Hvb Hout. apply (user_byte_same s tabs A own s' tabs' A' own'); [done|done|done|]. apply H2. intros Hin. apply Hout. rewrite !pg_no_div in Hin.
      rewrite pg_ofs_mod in Hal. unfold PGSIZE in *. pose proof (Z.div_mod vb 4096 ltac:(lia)). pose proof (Z.mod_pos_bound vb 4096 ltac:(lia)).
      pose proof (Z.div_mod va 4096 ltac:(lia)). lia.
  - split.
    + intros vb Hvb Hne. apply (user_byte_same s tabs A own s' tabs' A' own'); [done|done|done|]. rewrite (user_byte_mapped s tabs A own) in Hne by done.
      apply not_eq_None_Some in Hne as [x Hx]. rewrite Hx. by eapply lookup_weaken.
    + destruct Hb as [H|[H|H]]; [|by right; right; left|by right; right; right].
      destruct (map_pages_none _ _ _ _ _ _ _ H ltac:(lia) ltac:(lia)) as [(q & Hq & [y Hy])|Hs]; [left|right; left; lia].
      exists (4096 * (q - pg_no va)). split; [lia|]. destruct (page_split va (4096 * (q - pg_no va)) Hva Hal ltac:(lia)) as (E1 & _ & E3).
      rewrite (user_byte_mapped s tabs A own) by (done || lia). rewrite E1, Z.mul_comm, Z.div_mul by lia.
      replace (pg_no va + (q - pg_no va)) with q by lia. by rewrite Hy.
Qed.


(** C18: [load], from reading the header to the label [done], refines building the
    address space that the bytes of the executable describe: it comes back;
    when it returns true the process has exactly the pages of that description
    (the pages it had, those of the loadable segments, and a zeroed page below
    the top of the stack), starts at the entry point with the stack pointer at
    the top; when it returns false the file describes no address space, or
    memory was short, the frame is unchanged and the pages there were are still
    there. *)
Theorem load_refines_image s tabs A own f i name l fr :
  proc_ok s tabs A own -> opened (fsys s) f i 0 -> cstr (ram (mm s)) name l -> name < 2 ^ 64 -> (length l < 4096)%nat ->
  let file := contents (fsys s) i in
  exists b fr' s' tabs' A' own', load_file name f fr s = Ok ((b, fr'), s') /\ proc_ok s' tabs' A' own' /\ loading s s' f own own' /\ A ⊆ A' /\
    if b : bool then
      exec_image file A = Some A' /\ fr' = set_rip (set_rsp fr USER_STACK) (e_entry (decode_ELF (slice 0 64 file))) /\
      (forall x, 0 <= x < 4096 -> user_byte s' (USER_STACK - 4096 + x) = Some 0)
    else (exec_image file A = None \/ allocs (fsys s) <> [] \/ low_memory s') /\ fr' = fr.
Proof.
  intros P O Hc Hn Hl file. destruct (load_file_run s tabs A own f i name l fr P O Hc Hn Hl) as (b & fr' & s' & E & (tabs' & A' & own' & P' & L & Hs & _ & Hb) & Hfr).
  exists b, fr', s', tabs', A', own'. split; [done|]. split; [done|]. split; [done|]. split; [done|]. destruct b; [|done]. split; [done|]. split; [done|].
  fold file in Hb. unfold exec_image in Hb. destruct (_ && _); [|done]. apply bind_Some in Hb as (A1 & _ & Hst). unfold stack_image in Hst.
  destruct (A1 !! stack_page); [done|]. apply (inj Some) in Hst. intros x Hx.
  destruct (page_split (USER_STACK - 4096) x ltac:(unfold USER_STACK; lia) eq_refl ltac:(lia)) as (E1 & E2 & _).
  rewrite Z.div_small, Z.add_0_r in E1 by lia. pose proof (user_byte_spec s' tabs' A' own' (USER_STACK - 4096 + x) P' ltac:(unfold USER_STACK, KERN_BASE; lia)) as Hu.
  change (pg_no (USER_STACK - 4096)) with stack_page in E1. rewrite E1 in Hu. rewrite <- Hst in Hu. rewrite lookup_insert_eq in Hu. destruct Hu as [-> _].
  rewrite E2, Z.mod_small by lia. apply lookup_replicate_2. lia.
Qed.

(** An executable of 120 bytes with one loadable segment, itself, at 0x400000,
    on a disk of three sectors, and a thread with an empty page map. *)
Definition demo_elf : list Z :=
  [127; 69; 76; 70; 2; 1; 1] ++ replicate 9 0 ++ word_bytes 2 2 ++ word_bytes 2 0x3E ++ word_bytes 4 1 ++ word_bytes 8 0x400078 ++ word_bytes 8 64 ++
  word_bytes 8 0 ++ word_bytes 4 0 ++ word_bytes 2 64 ++ word_bytes 2 56 ++ word_bytes 2 1 ++ replicate 6 0 ++
  word_bytes 4 PT_LOAD ++ word_bytes 4 5 ++ word_bytes 8 0 ++ word_bytes 8 0x400000 ++ word_bytes 8 0x400000 ++ word_bytes 8 120 ++ word_bytes 8 200 ++ word_bytes 8 4096.
Definition demo_exe : inode := Inode 1 1 false 0 (InodeDisk 2 120 INODE_MAGIC).
Definition demo_exe_fs : fs :=
  FS [replicate 512 0; replicate 512 0; demo_elf ++ replicate 392 0] {[ 64 := demo_exe ]} [64] {[ 72 := File 64 0 false ]} ∅ 100 [] (Bitmap 3 [7]) 0.
Definition demo_proc : proc := Proc (demo_cpu_of 8 4) demo_exe_fs (demo_console None) 0x8004207000 0x8004200000 (Some 0).
Definition demo_frame : intr_frame := Frame 0 0 0 0 0 0 0.

Lemma demo_proc_ok : proc_ok demo_proc demo_tabs ∅ ∅.
Proof.
  split; [by apply demo_space; lia|done|by vm_compute| |set_solver|by repeat split].
  intros va Hva. rewrite lookup_empty. cbn [mm demo_proc]. unfold pte, view, demo_tabs. by rewrite lookup_singleton_ne.
Qed.

Lemma demo_exe_opened : opened demo_exe_fs 72 demo_exe 0.
Proof.
  split; [done|by exists 64, false| |split; by vm_compute|].
  - split; [by repeat constructor|by vm_compute].
  - change (Forall (fun b => 0 <= b < 256) (contents demo_exe_fs demo_exe)). by_eval.
Qed.

Lemma load_segment_bytes_witness : exists b s', load_segment 72 0 0x400000 100 3996 true demo_proc = Ok (b, s') /\
  (b = true -> user_byte s' 0x400001 = Some 69 /\ user_byte s' 0x400064 = Some 0 /\ user_byte s' 0x401000 = None) /\ (b = false -> low_memory s').
Proof.
  destruct (load_segment_bytes demo_proc demo_tabs ∅ ∅ 72 demo_exe 0 0 0x400000 100 3996 true demo_proc_ok demo_exe_opened) as (b & s' & tabs' & A' & own' & E & _ & _ & H);
    [by vm_compute..|].
  assert (forall va, 0 <= va < KERN_BASE -> user_byte demo_proc va = None) as Hn by (intros va Hva; by apply (user_byte_mapped _ _ _ _ va demo_proc_ok Hva)).
  exists b, s'. split; [exact E|]. split; intros ->.
  - destruct H as [H1 H2]. destruct (H1 1 ltac:(lia)) as (_ & B1 & _). destruct (H1 100 ltac:(lia)) as (_ & B2 & _).
    change (0x400000 + 1) with 0x400001 in B1. change (0x400000 + 100) with 0x400064 in B2. rewrite B1, B2. split; [by vm_compute|]. split; [by vm_compute|]. rewrite H2 by (unfold KERN_BASE; lia). apply Hn. unfold KERN_BASE. lia.
  - destruct H as [_ [(x & Hx & H)|[H|[H|H]]]]; [|exfalso; cbn in H; lia|exfalso; apply H; reflexivity|exact H].
    exfalso. apply H, Hn. unfold KERN_BASE. lia.
Defined.


Lemma load_refines_image_witness : exists b fr s', load_file 0x8004300000 72 demo_frame demo_proc = Ok ((b, fr), s') /\
  (b = true -> f_rip fr = 0x400078 /\ user_byte s' (USER_STACK - 4096 + 8) = Some 0) /\ (b = false -> low_memory s').
Proof.
  destruct (load_refines_image demo_proc demo_tabs ∅ ∅ 72 demo_exe 0x8004300000 [] demo_frame demo_proc_ok demo_exe_opened) as (b & fr & s' & tabs' & A' & own' & E & _ & _ & _ & H).
  - split; [done|]. split; [done|]. intros [|k] x; [|done]. by intros [= <-].
  - done.
  - cbn [length]. lia.
  - exists b, fr, s'. split; [exact E|]. split; intros ->.
    + destruct H as (_ & -> & H). split; [by vm_compute|]. apply (H 8). lia.
    + destruct H as ([H|[H|H]] & _); [|exfalso; apply H; reflexivity|exact H]. exfalso. clear E. revert H. apply not_eq_None_Some. by apply (bool_decide_unpack _); vm_compute.
Defined.
